(* ===== verification/_CoqProject ===== *)
-Q . S2P
Prelude.v
JsMap.v
JsValue.v
JsNumber.v
Socket.v
Connection.v
Control.v
Node.v
Editor.v
EditorInv.v
EditorJson.v
Adapter.v
AdapterInv.v
Nodes.v
AdapterRun.v
AdapterEquiv.v
JsString.v
Regex.v
History.v
HistoryTimeline.v
Commands.v
Connector.v
Store.v
StoreExec.v
StoreInv.v
StoreRun.v
StoreViews.v
StoreProgress.v
Dfs.v
Services.v
GraphUtils.v
Dagre.v
Layout.v
DynamicNode.v
NodeRegistry.v
Expression.v
Dashboard.v
Dimensions.v
Geometry.v
Culling.v
ViewportHook.v
StoreBatch.v
StoreAnyRun.v
WorkflowCommands.v
Clipboard.v
ClipboardCopy.v
Drag.v
Drawing.v
Gestures.v
CanvasTidy.v
CanvasEdit.v
CanvasInput.v
CanvasContext.v
CanvasHover.v
CanvasLife.v
Context.v
App.v
Facade.v
PanelControls.v
PanelResults.v
ConfigPanel.v
PanelEdits.v
PanelBackend.v
PanelPolling.v
TriggerPanel.v
PanelNav.v
PanelTexts.v
NodeMenu.v
Suggestions.v
KeyValueTable.v
ControlEditors.v
ExecutionLog.v
HistoryPanel.v
JsonTree.v
ExpressionInput.v
FieldValues.v
ValueEditor.v
DomainBuilder.v
WorkflowNode.v
CodeEditor.v
