(* ===== verification/Prelude.v ===== *)
(** * Workflow Studio: a verification library of the workflow editor

    The program is the browser part of an Odoo add-on: an editor in which a
    workflow is drawn as a graph of nodes and connections, configured node by
    node, saved to and loaded from the backend, executed there, watched and laid
    out automatically.  The sources are under src/workflow_studio/static/src/;
    file names below are relative to that directory.

    ** How the program is put together

    - core/editor.js keeps the graph: nodes by id, the list of connections, a
      counter for ids and the registry of node classes.  It emits events.
    - core/adapter.js wraps an editor and keeps [state], the copy of the graph
      that the components render; it follows the editor's [onChange] event.
    - core/history.js keeps the undo and redo stacks; its commands call the
      adapter.
    - store/workflow_store.js is the service the components talk to: graph
      actions (adapter + history), selection, viewport and panels, two read-only
      views (a revision, a run), pinned data, saving and loading, the progress
      of executions.
    - utils/dynamic_node_factory.js makes node classes from the types the
      backend sends; nodes/ holds the built-in ones; utils/node_registry.js
      looks them up for the menu.
    - components/editor_canvas.js is the drawing surface.  Its hooks (gestures,
      dragging, drawing of connections, viewport, clipboard, commands, culling)
      share one store; the nodes on it (components/workflow_node.js) call back
      with what the pointer does on them.
    - components/node_config_panel.js edits the settings of one node, shows the
      data of its last run, and asks the backend about triggers and connectors.
      Its inputs (expressions, key-value tables, code, field values) are
      components of their own.
    - app/workflow_editor_app.js is the shell: it loads, saves, executes, and
      opens the panels of the history and of the log of an execution.

    ** Files: the core

    - [Prelude]: notation, tactics, the hint database [js], lists, a stable
      sort, sets in insertion order, linear arithmetic on rationals.
    - [JsMap]: objects and Maps as association lists with the enumeration order
      of JavaScript (array indices first, then insertion order), and lists grouped
      by a key.  [JsValue]: JSON-like values, truthiness, spreads, exceptions as
      [outcome].
      [JsString]: string methods.  [JsNumber]: rounding, extrema, division.
      [Regex]: regular expressions with derivatives.
    - [Socket], [Connection], [Control], [Node], [Nodes]: core/socket.js,
      core/connection.js, core/control.js, core/node.js, nodes/.
    - [Editor] (core/editor.js), [EditorInv] (its invariant and that every
      operation keeps it), [EditorJson] (serialization).
    - [Adapter] (core/adapter.js), [AdapterInv] (state equals graph),
      [AdapterRun] (reachability by any sequence of calls), [AdapterEquiv]
      (graphs up to the order of nodes and connections).
    - [History] (class HistoryManager of core/history.js), [HistoryTimeline]
      (the abstract timeline it implements), [Commands] (the create...Action
      functions and that they invert each other).
    - [Connector] (utils/connector_request_config.js).
    - [Store], [StoreExec] (store/workflow_store.js: graph and UI actions;
      execution, views, pins, saving), [StoreInv], [StoreRun], [StoreBatch]
      (edits through the store, with undo, redo and batches), [StoreViews],
      [StoreProgress]; [StoreAnyRun] (which nodes and connections each action
      touches; runs of all actions together: edits, writes past the history,
      batches, saves, loads, views; the calls of the service past the history and
      its questions to the backend).
    - [Dfs] (the depth-first search both parts of utils/graph_utils.js use),
      [GraphUtils], [Dagre], [Layout] (class WorkflowGraph).
    - [DynamicNode] (utils/dynamic_node_factory.js), [NodeRegistry]
      (utils/node_registry.js and [loadNodeTypes]).
    - [Expression] (utils/expression_utils.js), [Context] (core/context.js,
      core/node_helpers.js), [Dimensions] (core/dimensions.js),
      [Services] (utils/editor_util.js, registry_hook.js, lib_registry.js,
      services/workflow_bus_service.js).

    ** Files: the canvas

    Under components/editor_canvas/ and beside it:

    - [Geometry] (utils/geometry.js, view_utils.js, connection_path.js).
    - the hooks: [ViewportHook] (use_viewport.js), [Culling]
      (use_connection_culling.js), [Drag] (use_multi_node_drag.js), [Drawing]
      (use_connection_drawing.js), [Gestures] (use_canvas_gestures.js),
      [Clipboard] and [ClipboardCopy] (use_clipboard.js), [WorkflowCommands]
      (use_workflow_commands.js).
    - components/editor_canvas.js itself: [CanvasInput] (pointer events through
      all hooks), [CanvasEdit] (selecting, adding, inserting, deleting),
      [CanvasTidy] (automatic layout), [CanvasContext] (the data of a run for a
      node), [CanvasHover] (toolbars, connection_toolbar.js, and the dialog),
      [CanvasLife] (the bar of buttons, setup, timers, requests to show a node,
      caches, the actions of the configuration panel).
    - [WorkflowNode] (workflow_node.js, workflow_socket.js,
      canvas_node_toolbar.js) over [CanvasInput]; [NodeMenu] (node_menu.js, and
      the former node_palette.js and data_panel/InputDataPanel.js).

    ** Files: the panels

    - components/node_config_panel.js: [PanelControls] (which settings are
      shown, and how), [ConfigPanel] and [PanelEdits] (editing and the delayed
      save), [PanelResults] (data of runs), [PanelBackend] and [PanelPolling]
      (triggers and connectors, with calls in flight), [PanelNav] (moving to
      the neighbours of a node, config_panel_dialog.js), [PanelTexts] (texts,
      hints and facts, primitives/url_box/).  [TriggerPanel] is the former panel
      of triggers (trigger_config_panel.js).
    - inputs: [Suggestions] (utils/input_suggestion_utils.js),
      [ExpressionInput] (expression/ExpressionInput.js), [KeyValueTable]
      (controls/key_value_table.js), [ControlEditors] (the editors of composite
      settings), [FieldValues] (field_values_control/, domain_control/),
      [CodeEditor] (code_editor.js).
    - domain_builder/: [ValueEditor] (expression_value_editor.js), [DomainBuilder]
      (workflow_tree_editor.js, workflow_domain_builder.js).
    - data_panel/: [JsonTree] (JsonTreeNode.js, RecordBadge.js).
    - [ExecutionLog] (execution_log_panel/, svg_timeline/), [HistoryPanel]
      (workflow_history_panel/), [App] (app/workflow_editor_app.js) and [Facade]
      (the object that file puts on the window for other scripts).
    - [Dashboard] (dashboard/, with the numbers of models/ir_workflow.py).

    ** How state and effects are modelled

    Every class is a record and every method a function from the old state to
    the new one and the result.  A method that can throw gives an [outcome]
    beside the state it leaves, since the program does not roll back.  Events of
    the editor are a trace that the adapter's handler is folded over; effects of
    the store on its bus and notifications are lists of [effect]; a component
    that calls its parent gives the list of calls, and where the answer of the
    parent comes back as props, both are steps of one relation
    ([ExpressionInput], [FieldValues], [KeyValueTable]).  An asynchronous action
    is split at its [await]: what happens before the request and what happens
    with the answer are separate definitions, so that other actions can come in
    between ([App], [PanelBackend], [HistoryPanel]).  A timer is an event that
    can happen while it is set.

    ** What the theorems show

    - Graph: after any sequence of calls the rendered copy equals the graph,
      unless the last load threw ([adapter_state_in_sync]); as long as forced ids
      are new and loaded snapshots are well formed ([AdapterRun.allowed]) so is the
      graph, and what is saved from it can be loaded again
      ([adapter_graph_well_formed], [save_load_roundtrip]).  Through the store, with
      loads made while nothing can be undone and no direct calls on the graph, both
      hold through any actions ([any_run_in_sync]); undo gives back the graph, but
      for a changed label or changed metadata of a removed node
      ([undo_restores_graph]); a script that uses the facade keeps all of it
      ([scripts_keep_sync]).
    - History: a refinement of an abstract timeline for commands that invert
      each other ([history_refines_timeline]); those of [Commands] do.
    - Views, saving and panels of the shell: never are both views on, and leaving a
      preview gives the graph back ([views_exclusive], [preview_returns]; the first
      says when the flags are exact and the editor is read-only); saves that do not
      overlap are never refused for their version, whatever else they fail for, and
      those that overlap are ([calm_saves_accepted], [overlapping_saves_conflict]);
      the selected revision or run is the one shown as long as nothing failed
      ([selection_shown]).
    - Canvas: what copying, deleting, inserting, dragging and tidying do to the
      graph ([copy_paste_duplicates], [delete_bridges_gap],
      [insert_splits_connection], [drag_one_step], [tidy_up_exact]); on an editable
      canvas a release that reaches the document ends a gesture, and none goes on
      without a button that is held ([release_ends_all]); pressing on one
      socket and releasing on another connects them ([wire_connects]); a request to
      show a node is answered exactly once ([focus_exactly_once]); a
      readonly node changes nothing but for a pan with the middle button
      ([readonly_node_inert]); drawing from the
      cache is drawing afresh ([culling_cache_transparent]).
    - Data and expressions: the context of a node holds the outputs of its
      predecessors ([node_context_exact]); a field dragged from the tree
      evaluates to the value shown there ([dragged_field_evaluates],
      [tree_field_evaluates]); variables read back ([set_get_variable]) and
      loops end ([loop_visits_all]); the context of a node survives its runs and
      belongs to it alone ([context_survives]).
    - Services: overridden services start after those they need
      ([topological_sorted], [overrides_started_in_order]); a component that follows
      a registry shows what it holds ([registry_followed]).
    - Inputs: what a field shows is what its parent stores, up to marks of
      expressions ([shown_is_stored]), highlighting loses no text
      ([highlight_covers]), rows
      keep distinct keys ([table_rows_distinct]), completions replace what was
      typed and nothing else ([model_completion_exact]).
    - Domains: opening a domain and telling it back finds the same records, and the
      checkbox decides on the archived ones ([builder_keeps_meaning]); what the
      editor of trees shows after an edit ([edit_comes_back]); what a value becomes
      that is made an expression and a literal again ([value_toggled_twice]); a drop
      replaces the text of an expression ([drop_forgets_text]).
    - Dashboard: the bar of a day is as high as the number of its runs
      ([runs_chart_exact]) and no chart is left behind ([no_chart_left]).
    - Configuration panel: every edit of a control reaches the node, what has no
      control is not stored ([panel_edits_saved]),
      every control is shown once ([panel_rows_exact]), the panel is never busy
      without a call in flight ([panel_never_stuck]) and polls exactly while a
      test is awaited ([polls_while_tested]); the former one settles as well
      ([trigger_panel_settles]).
    - Closed examples of what is lost or out of place, among them
      [poll_survives_close], [overlapping_saves_conflict],
      [execution_doubleClick_lost] and [vars_field_misread].

    ** Fuel

    Searches of graphs and scanners of strings take fuel.  [Dfs.visit] gets the
    number of nodes as depth: a node is entered once ([dfs_total]).
    [GraphUtils.walk_back] gets one unit per structural connection and one for
    the start, since a node enters the queue once ([walk_back_spec]).  The
    scanners of [Expression] get one unit per character ([scan_parts_fuel],
    [scan_templates_fuel]).  The theorems say that the result is there, not only
    that it is right when it is.  Loops over contexts take the number of items.

    ** Parameters

    Code outside the repository is an argument: the Odoo registries
    ([odoo_registry], class [DynamicNode.OdooRegistry]), Dagre (class [Dagre]),
    [fuzzyLookup], the answers of the backend, the Monaco editor.  Laws are
    stated as classes or hypotheses, with instances that satisfy them.
    [JSON.parse] and [JSON.stringify], the printing of numbers and the
    evaluation of expressions that are not paths (the program hands them to
    [new Function]) are arguments too.

    ** Limits

    Numbers are exact rationals: no rounding, [NaN] or infinity.  Values are
    trees: object identity is not modelled, only contents, save where the program
    depends on it (the contexts of nodes in [Context], the caches of [CanvasLife]).
    Strings are bytes, [trim] and [toLowerCase] act on ASCII.

    ** Not modelled

    Rendering: templates, classes and inline styles (except the size and place
    of nodes and the bars of the timeline), animation (utils/motion_helpers.js),
    measuring of DOM elements, axes and legends of charts.  The libraries the
    program calls: OWL, Monaco, Dagre, Chart.js, the domains, trees and views of
    Odoo.  The wiring of hooks in the setup of components, exports, lazy loading
    and measurements of speed (utils/benchmark.js).

    ** Plan

    What is left are parts without state of their own: the getters of the canvas
    that choose between the store and the props. *)

From Stdlib Require Export Ascii String QArith.Qcanon.
From Stdlib Require Lqa.
From stdpp Require Export pretty strings sorting prelude.

(** Everything is over lists, strings and exact rationals; the default scopes
    are those of stdpp. *)
#[export] Set Default Proof Using "Type".

(** ** Notation scope *)

Declare Scope js_scope.
Delimit Scope js_scope with js.
Open Scope js_scope.
Open Scope string_scope.
Open Scope list_scope.

(** A JavaScript number, taken as an exact rational. *)
Abbreviation num := Qc.

(** String equality as a boolean ([===] on strings). *)
Notation "a =s b" := (bool_decide (a = b :> string)) (at level 70) : js_scope.

(** ** Automation *)

Create HintDb js discriminated.

(** Invert and clean up. *)
Ltac invc H := inversion H; subst; clear H.

(** Case split on the first [match] or [if] of the goal or of a hypothesis. *)
Ltac break :=
  match goal with
  | |- context [match ?x with _ => _ end] => destruct x eqn:?
  | H : context [match ?x with _ => _ end] |- _ => destruct x eqn:?
  end.

(** Turn boolean string tests into equalities. *)
Ltac bsimpl :=
  repeat match goal with
  | H : bool_decide _ = true |- _ => apply bool_decide_eq_true in H
  | H : bool_decide _ = false |- _ => apply bool_decide_eq_false in H
  | H : _ && _ = true |- _ => apply andb_true_iff in H; destruct H
  | H : _ || _ = false |- _ => apply orb_false_iff in H; destruct H
  | H : negb _ = true |- _ => apply negb_true_iff in H
  | H : negb _ = false |- _ => apply negb_false_iff in H
  end.

(** ** Lists *)

Section lists.
Context {A B : Type}.
Implicit Types (l k : list A) (f : A → bool).

(** JavaScript's [Array.prototype.find]. *)
Fixpoint find_first f l : option A :=
  match l with
  | [] => None
  | x :: l => if f x then Some x else find_first f l
  end.

Lemma find_first_Some f l x :
  find_first f l = Some x → x ∈ l ∧ f x = true.
Proof.
  induction l as [|y l IH]; simpl; [done|].
  destruct (f y) eqn:E; [intros [= ->]; split; [left|done]|].
  intros [??]%IH; split; [by right|done].
Qed.

Lemma find_first_None f l :
  find_first f l = None ↔ ∀ x, x ∈ l → f x = false.
Proof.
  induction l as [|y l IH]; simpl.
  - split; [intros _ x []%not_elem_of_nil|done].
  - destruct (f y) eqn:E; split.
    + done.
    + intros H. rewrite H in E; [done|left].
    + intros H x [->|Hx]%elem_of_cons; [done|]. by apply IH.
    + intros H. apply IH. intros x Hx. apply H. by right.
Qed.

(** [Array.prototype.filter] and [some] with boolean callbacks. *)
Fixpoint bfilter f l : list A :=
  match l with
  | [] => []
  | x :: l => if f x then x :: bfilter f l else bfilter f l
  end.

Lemma elem_of_bfilter f l x : x ∈ bfilter f l ↔ x ∈ l ∧ f x = true.
Proof.
  induction l as [|y l IH]; simpl; [set_solver|].
  destruct (f y) eqn:E; rewrite ?elem_of_cons, IH; naive_solver congruence.
Qed.

Lemma bfilter_all f l : (∀ x, x ∈ l → f x = true) → bfilter f l = l.
Proof.
  induction l as [|y l IH]; simpl; [done|]. intros H.
  rewrite H; [|left]. f_equal. apply IH. intros; apply H; by right.
Qed.

Lemma bfilter_none f l : (∀ x, x ∈ l → f x = false) → bfilter f l = [].
Proof.
  induction l as [|y l IH]; simpl; [done|]. intros H.
  rewrite H; [|left]. apply IH. intros; apply H; by right.
Qed.

Lemma bfilter_app f l k : bfilter f (l ++ k) = bfilter f l ++ bfilter f k.
Proof. induction l; simpl; [done|]. destruct (f _); by rewrite IHl. Qed.

Lemma bfilter_bfilter f g l : bfilter f (bfilter g l) = bfilter (λ x, f x && g x) l.
Proof. induction l as [|x l IH]; simpl; [done|]. destruct (g x); simpl; [|by rewrite andb_false_r]. rewrite IH, andb_true_r. done. Qed.

Lemma bfilter_ext f g l : (∀ x, f x = g x) → bfilter f l = bfilter g l.
Proof. intros H. induction l as [|x l IH]; simpl; [done|]. by rewrite H, IH. Qed.

Lemma existsb_perm f l k : l ≡ₚ k → existsb f l = existsb f k.
Proof. intros H. apply Bool.eq_iff_eq_true. rewrite !existsb_exists. setoid_rewrite <- list_elem_of_In. by setoid_rewrite H. Qed.

Lemma bfilter_sublist f l : sublist (bfilter f l) l.
Proof. induction l; simpl; [done|]. destruct (f _); by constructor. Qed.

Lemma bfilter_Permutation f l :
  l ≡ₚ bfilter (λ x, negb (f x)) l ++ bfilter f l.
Proof.
  induction l as [|x l IH]; simpl; [done|].
  destruct (f x); simpl; [|by rewrite <- IH].
  by rewrite <- Permutation_middle, <- IH.
Qed.

Lemma bfilter_fmap_NoDup f (g : A → B) l :
  NoDup (g <$> l) → NoDup (g <$> bfilter f l).
Proof.
  intros H. eapply sublist_NoDup; [done|]. apply fmap_sublist, bfilter_sublist.
Qed.

Lemma existsb_false_iff f l : existsb f l = false ↔ ∀ x, x ∈ l → f x = false.
Proof.
  induction l as [|y l IH]; simpl; [set_solver|].
  rewrite orb_false_iff, IH. set_solver.
Qed.

Lemma existsb_true_iff f l : existsb f l = true ↔ ∃ x, x ∈ l ∧ f x = true.
Proof. rewrite existsb_exists. setoid_rewrite list_elem_of_In. done. Qed.
End lists.

(** ** Sets in insertion order *)

(** [Array.from(new Set(l))]: the first occurrence of each element. *)
Fixpoint unique_from (seen l : list string) : list string :=
  match l with
  | [] => []
  | x :: l => if existsb (λ y, y =s x) seen then unique_from seen l
              else x :: unique_from (seen ++ [x]) l
  end.
Definition unique (l : list string) : list string := unique_from [] l.

Lemma elem_of_unique_from seen l x : x ∈ unique_from seen l ↔ x ∈ l ∧ x ∉ seen.
Proof.
  revert seen. induction l as [|y l IH]; intros seen; simpl; [set_solver|].
  destruct (existsb (λ z, z =s y) seen) eqn:E.
  - apply existsb_true_iff in E as (z & Hz & Hzy). bsimpl. subst. rewrite IH. set_solver.
  - rewrite existsb_false_iff in E.
    assert (y ∉ seen) as Hy by (intros Hy; specialize (E y Hy); bsimpl; done).
    rewrite !elem_of_cons, IH. clear IH E. destruct (decide (x = y)); set_solver.
Qed.

Lemma NoDup_unique_from seen l : NoDup (unique_from seen l).
Proof.
  revert seen. induction l as [|y l IH]; intros seen; simpl; [constructor|].
  destruct (existsb _ _); [done|]. constructor; [|done]. rewrite elem_of_unique_from. set_solver.
Qed.

Lemma existsb_elem (seen : list string) y : existsb (λ z, z =s y) seen = bool_decide (y ∈ seen).
Proof.
  apply Bool.eq_iff_eq_true. rewrite existsb_true_iff, bool_decide_eq_true. split.
  - intros (z & Hz & Hzy). bsimpl. by subst.
  - intros Hy. exists y. split; [done|]. by apply bool_decide_eq_true.
Qed.

Lemma unique_from_ext seen seen' l :
  (∀ y, y ∈ seen ↔ y ∈ seen') → unique_from seen l = unique_from seen' l.
Proof.
  revert seen seen'. induction l as [|y l IH]; intros seen seen' H; simpl; [done|].
  rewrite !existsb_elem, (bool_decide_ext _ _ (H y)). case_bool_decide; [by apply IH|].
  f_equal. apply IH. intros z. rewrite !elem_of_app, H. done.
Qed.

(** An element seen before is skipped. *)
Lemma unique_from_cons x seen l :
  unique_from (x :: seen) l = bfilter (λ y, negb (y =s x)) (unique_from seen l).
Proof.
  revert seen. induction l as [|y l IH]; intros seen; [done|]. cbn [unique_from].
  rewrite !existsb_elem. destruct (decide (y = x)) as [->|Hne].
  - rewrite bool_decide_true by left. case_bool_decide as Hx; [apply IH|]. csimpl.
    rewrite bool_decide_true by done. csimpl. rewrite <- IH. apply unique_from_ext. set_solver.
  - rewrite (bool_decide_ext (y ∈ x :: seen) (y ∈ seen)) by set_solver.
    case_bool_decide as Hy; [apply IH|]. csimpl. rewrite bool_decide_false by done. csimpl.
    f_equal. apply (IH (seen ++ [y])).
Qed.

Lemma bfilter_reverse {A} (f : A → bool) l : bfilter f (reverse l) = reverse (bfilter f l).
Proof.
  induction l as [|x l IH]; [done|]. rewrite reverse_cons, bfilter_app, IH. simpl.
  destruct (f x); simpl; [by rewrite reverse_cons|by rewrite app_nil_r].
Qed.

Lemma elem_of_concat {A} (ls : list (list A)) x : x ∈ concat ls ↔ ∃ l, x ∈ l ∧ l ∈ ls.
Proof.
  induction ls as [|l ls IH]; simpl; [set_solver|]. rewrite elem_of_app, IH. set_solver.
Qed.

(** ** Sorting *)

Section sort.
Context {A : Type} (lt : A → A → bool).

(** [Array.prototype.sort], which is stable, for a comparison that says when
    its first argument goes strictly before its second. *)
Fixpoint insert_by (x : A) (l : list A) : list A :=
  match l with
  | [] => [x]
  | y :: l' => if lt x y then x :: l else y :: insert_by x l'
  end.
Definition sort_by (l : list A) : list A := foldl (λ acc x, insert_by x acc) [] l.

Lemma insert_by_perm x l : insert_by x l ≡ₚ x :: l.
Proof using Type.
  induction l as [|y l IH]; simpl; [done|]. destruct (lt x y); [done|].
  rewrite IH. by constructor.
Qed.

Lemma sort_by_perm l : sort_by l ≡ₚ l.
Proof using Type.
  unfold sort_by. assert (∀ acc, foldl (λ acc x, insert_by x acc) acc l ≡ₚ acc ++ l) as H; [|apply H].
  induction l as [|x l IH]; intros acc; simpl; [by rewrite app_nil_r|].
  rewrite IH, insert_by_perm. simpl. apply Permutation_middle.
Qed.

(** Sorted: nothing goes before something to its left. *)
Definition sorted_by (l : list A) : Prop := StronglySorted (λ x y, lt y x = false) l.

Lemma sorted_lookup l i j x y :
  sorted_by l → l !! i = Some x → l !! j = Some y → (i < j)%nat → lt y x = false.
Proof using Type.
  intros Hs. revert i j. induction Hs as [|z l Hl IH Hz]; intros i j; simpl; [done|].
  destruct i as [|i], j as [|j]; simpl; try lia.
  - intros [= ->] Hj _. rewrite Forall_forall in Hz. apply Hz. by eapply list_elem_of_lookup_2.
  - intros Hi Hj Hij. eapply IH; [done|done|lia].
Qed.

Context (lt_asym : ∀ x y, lt x y = true → lt y x = false).
Context (lt_ntrans : ∀ x y z, lt y x = false → lt z y = false → lt z x = false).

Lemma insert_by_sorted x l : sorted_by l → sorted_by (insert_by x l).
Proof using lt_asym lt_ntrans.
  induction 1 as [|y l Hl IH Hy]; simpl; [repeat constructor|].
  destruct (lt x y) eqn:E.
  - repeat (constructor; [by constructor|]). constructor; [by apply lt_asym|].
    eapply Forall_impl; [exact Hy|]. intros z Hz. simpl in Hz. eapply lt_ntrans; [|exact Hz]. by apply lt_asym.
  - constructor; [done|]. rewrite insert_by_perm. by constructor.
Qed.

Lemma sort_by_sorted l : sorted_by (sort_by l).
Proof using lt_asym lt_ntrans.
  unfold sort_by. assert (sorted_by []) as H by constructor. revert H. generalize (@nil A).
  induction l as [|x l IH]; intros acc Hacc; simpl; [done|]. by apply IH, insert_by_sorted.
Qed.
End sort.

(** ** Exact rationals *)

(** The canonical rationals compute through [Q]; these are the equations that
    let [lra] see the operations. *)
Section rationals.
Import QArith_base Qreduction.
Local Open Scope Q_scope.
Implicit Types x y : Qc.

Lemma this_Q2Qc q : this (Q2Qc q) == q.
Proof. apply Qred_correct. Qed.

Lemma this_plus x y : this (Qcplus x y) == this x + this y.
Proof. apply Qred_correct. Qed.

Lemma this_opp x : this (Qcopp x) == - this x.
Proof. apply Qred_correct. Qed.

Lemma this_minus x y : this (Qcminus x y) == this x - this y.
Proof. unfold Qcminus. rewrite this_plus, this_opp. reflexivity. Qed.

Lemma this_mult x y : this (Qcmult x y) == this x * this y.
Proof. apply Qred_correct. Qed.

Lemma this_eq x y : x = y → this x == this y.
Proof. intros ->. reflexivity. Qed.

Lemma this_nlt x y : ¬ (this x < this y) → this y <= this x.
Proof. apply Qnot_lt_le. Qed.

Lemma this_nle x y : ¬ (this x <= this y) → this y < this x.
Proof. apply Qnot_le_lt. Qed.
End rationals.

(** Linear arithmetic over [num]: push [this] to the variables, then [lra]. *)
Ltac qc_push :=
  unfold Qclt, Qcle in *;
  repeat match goal with
  | H : ?x = ?y :> Qc |- _ => apply this_eq in H
  | H : ¬ QArith_base.Qlt (this _) (this _) |- _ => apply this_nlt in H
  | H : ¬ QArith_base.Qle (this _) (this _) |- _ => apply this_nle in H
  | |- @eq Qc _ _ => apply Qc_is_canon
  end;
  repeat (first
    [ progress rewrite ?this_plus, ?this_minus, ?this_mult, ?this_opp, ?this_Q2Qc
    | match goal with
      | H : _ |- _ => progress rewrite ?this_plus, ?this_minus, ?this_mult, ?this_opp, ?this_Q2Qc in H
      end ]).

Ltac qc_lra := qc_push; Lqa.lra.
