(* ===== verification/JsMap.v ===== *)
(** * Insertion-ordered string-keyed collections

    JavaScript has two of them and the editor uses both: [Map] (the node table
    of [WorkflowEditor]) and plain objects (sockets, controls, configurations,
    metadata, positions keyed by node id).  Both are kept here as association
    lists in enumeration order.  [mset] is [Map.prototype.set]: a new key goes to
    the end.  [oset] is property assignment on an object: a new key goes to the
    end too, except that an array index ("0", "1", ...) is enumerated before the
    other keys and in ascending order, which is how [Object.keys] and the spread
    syntax list them.  Members inherited from [Object.prototype] are not
    properties of these lists.

    Then the grouping of lists by a key into such a map. *)

From S2P Require Import Prelude.

(** ** Array indices *)

Definition is_digit (c : ascii) : bool :=
  let n := nat_of_ascii c in (48 <=? n)%nat && (n <=? 57)%nat.

Definition digit_val (c : ascii) : N := N_of_ascii c - 48.

(** [parseInt(s, 10)] of a string of digits, accumulating from the left. *)
Fixpoint parse_digits (acc : N) (s : string) : N :=
  match s with
  | EmptyString => acc
  | String c s => parse_digits (10 * acc + digit_val c) s
  end.

Fixpoint all_digits (s : string) : bool :=
  match s with
  | EmptyString => true
  | String c s => is_digit c && all_digits s
  end.

(** The canonical array indices of the language: "0", or digits without a
    leading zero, below 2^32 - 1. *)
Definition array_index (k : string) : option N :=
  if all_digits k && negb (k =s "")
     && (negb (String.prefix "0" k) || (k =s "0"))
     && (parse_digits 0 k <? 4294967295)%N
  then Some (parse_digits 0 k) else None.

(** [k] is enumerated before [k'] whatever the insertion order. *)
Definition precedes (k k' : string) : bool :=
  match array_index k, array_index k' with
  | Some i, Some j => (i <? j)%N
  | Some _, None => true
  | None, _ => false
  end.

Lemma precedes_irrefl k : precedes k k = false.
Proof. unfold precedes. destruct (array_index k); [|done]. apply N.ltb_irrefl. Qed.

Lemma precedes_asym k k' : precedes k k' = true → precedes k' k = false.
Proof.
  unfold precedes. destruct (array_index k), (array_index k'); try done.
  rewrite N.ltb_lt, N.ltb_ge. lia.
Qed.

Section jsmap.
Context {V : Type}.
Implicit Types (m : list (string * V)) (k : string) (v : V).

Definition jkeys m : list string := m.*1.
Definition jvals m : list V := m.*2.

Fixpoint jget k m : option V :=
  match m with
  | [] => None
  | (k', v) :: m => if k =s k' then Some v else jget k m
  end.

Definition jhas k m : bool := if jget k m is Some _ then true else false.

(** [Map.prototype.set] *)
Fixpoint mset k v m : list (string * V) :=
  match m with
  | [] => [(k, v)]
  | (k', v') :: m => if k =s k' then (k', v) :: m else (k', v') :: mset k v m
  end.

(** [obj[k] = v] *)
Fixpoint oset k v m : list (string * V) :=
  match m with
  | [] => [(k, v)]
  | (k', v') :: m =>
      if k =s k' then (k', v) :: m
      else if precedes k k' then (k, v) :: (k', v') :: m
      else (k', v') :: oset k v m
  end.

(** [Map.prototype.delete] and [delete obj[k]] *)
Definition jdel k m : list (string * V) := bfilter (λ kv, negb (k =s kv.1)) m.

(** [{ ...a, ...b }] and [Object.assign(a, b)] *)
Definition ospread (a b : list (string * V)) : list (string * V) :=
  foldl (λ acc kv, oset kv.1 kv.2 acc) a b.

(** ** Lookup laws *)

Lemma jget_mset k k' v m :
  jget k (mset k' v m) = if k =s k' then Some v else jget k m.
Proof.
  induction m as [|[k1 v1] m IH]; simpl; [by repeat case_bool_decide|].
  repeat (case_bool_decide; simpl; subst); try done; by rewrite IH, ?bool_decide_true, ?bool_decide_false.
Qed.

Lemma jget_mset_eq k v m : jget k (mset k v m) = Some v.
Proof. by rewrite jget_mset, bool_decide_true. Qed.

Lemma jget_mset_ne k k' v m : k ≠ k' → jget k (mset k' v m) = jget k m.
Proof. intros. by rewrite jget_mset, bool_decide_false. Qed.

Lemma jget_oset k k' v m :
  jget k (oset k' v m) = if k =s k' then Some v else jget k m.
Proof.
  induction m as [|[k1 v1] m IH]; simpl; [by repeat case_bool_decide|].
  destruct (bool_decide_reflect (k' = k1)) as [->|Hk]; simpl.
  - by case_bool_decide.
  - destruct (precedes k' k1); simpl; [done|].
    destruct (bool_decide_reflect (k = k1)) as [->|]; [|done].
    by rewrite bool_decide_false.
Qed.

Lemma jget_oset_eq k v m : jget k (oset k v m) = Some v.
Proof. by rewrite jget_oset, bool_decide_true. Qed.

Lemma jget_oset_ne k k' v m : k ≠ k' → jget k (oset k' v m) = jget k m.
Proof. intros. by rewrite jget_oset, bool_decide_false. Qed.

Lemma jget_jdel k k' m :
  jget k (jdel k' m) = if k =s k' then None else jget k m.
Proof.
  unfold jdel. induction m as [|[k1 v1] m IH]; simpl; [by case_bool_decide|].
  destruct (bool_decide_reflect (k' = k1)) as [->|Hk]; simpl; rewrite IH.
  - by case_bool_decide.
  - destruct (bool_decide_reflect (k = k1)) as [->|]; [|done].
    by rewrite bool_decide_false.
Qed.

Lemma jget_jdel_ne k k' m : k ≠ k' → jget k (jdel k' m) = jget k m.
Proof. intros. by rewrite jget_jdel, bool_decide_false. Qed.

Lemma jget_app k m m' :
  jget k (m ++ m') = if jget k m is Some v then Some v else jget k m'.
Proof. induction m as [|[]]; simpl; [done|]. by case_bool_decide. Qed.

(** The right operand of a spread wins. *)
Lemma jget_ospread k a b :
  NoDup (jkeys b) →
  jget k (ospread a b) = if jget k b is Some v then Some v else jget k a.
Proof.
  unfold ospread. revert a. induction b as [|[k1 v1] b IH]; intros a; simpl; [done|].
  intros [Hn Hd]%NoDup_cons. rewrite IH by done. rewrite jget_oset.
  destruct (jget k b) eqn:E; [|by case_bool_decide].
  case_bool_decide as Hk; [subst|done]. destruct Hn.
  clear -E. induction b as [|[k2 v2] b IH]; simpl in *; [done|].
  case_bool_decide; subst; [left|right; auto].
Qed.

(** ** Keys *)

Lemma elem_of_jkeys k m : k ∈ jkeys m ↔ is_Some (jget k m).
Proof.
  unfold jkeys. induction m as [|[k1 v1] m IH]; csimpl.
  - split; [by intros ?%not_elem_of_nil|by intros []].
  - rewrite elem_of_cons, IH. case_bool_decide; naive_solver.
Qed.

Lemma not_elem_of_jkeys k m : k ∉ jkeys m ↔ jget k m = None.
Proof. rewrite elem_of_jkeys. by rewrite eq_None_not_Some. Qed.

Lemma jget_elem k v m : jget k m = Some v → (k, v) ∈ m.
Proof.
  induction m as [|[k1 v1] m IH]; csimpl; [done|].
  case_bool_decide; [intros; simplify_eq; left|right; auto].
Qed.

Lemma elem_jget k v m : NoDup (jkeys m) → (k, v) ∈ m → jget k m = Some v.
Proof.
  unfold jkeys. induction m as [|[k1 v1] m IH]; csimpl.
  - by intros _ ?%not_elem_of_nil.
  - intros [Hn Hd]%NoDup_cons [?|Hin]%elem_of_cons.
    + simplify_eq. by rewrite bool_decide_true.
    + rewrite bool_decide_false; [by apply IH|]. intros ->. apply Hn.
      change k1 with ((k1, v).1). by apply list_elem_of_fmap_2.
Qed.

Lemma jkeys_mset_present k v m : is_Some (jget k m) → jkeys (mset k v m) = jkeys m.
Proof.
  unfold jkeys. induction m as [|[k1 v1] m IH]; csimpl; [by intros []|].
  case_bool_decide; csimpl; [done|]. intros. by rewrite IH.
Qed.

Lemma mset_fresh k v m : jget k m = None → mset k v m = m ++ [(k, v)].
Proof.
  induction m as [|[k1 v1] m IH]; csimpl; [done|].
  case_bool_decide; [done|]. intros. by rewrite IH.
Qed.

Lemma NoDup_jkeys_mset k v m : NoDup (jkeys m) → NoDup (jkeys (mset k v m)).
Proof.
  intros Hd. destruct (jget k m) eqn:E.
  - rewrite jkeys_mset_present; [done|by eexists].
  - rewrite mset_fresh by done. unfold jkeys. rewrite fmap_app. apply NoDup_app.
    split; [done|]. split; [|apply NoDup_singleton].
    intros k' Hk'. apply not_elem_of_jkeys in E. set_solver.
Qed.

Lemma NoDup_jkeys_jdel k m : NoDup (jkeys m) → NoDup (jkeys (jdel k m)).
Proof. apply bfilter_fmap_NoDup. Qed.

Lemma jdel_fresh k m : jget k m = None → jdel k m = m.
Proof.
  intros H. apply bfilter_all. intros [k' v] Hin. csimpl.
  rewrite bool_decide_false; [done|]. intros <-.
  apply not_elem_of_jkeys in H. apply H. by apply (list_elem_of_fmap_2 fst _ (k, v)).
Qed.

(** Deleting a key just added at the end gives the old map back. *)
Lemma jdel_mset_fresh k v m : jget k m = None → jdel k (mset k v m) = m.
Proof.
  intros H. rewrite mset_fresh by done. unfold jdel. rewrite bfilter_app. csimpl.
  rewrite bool_decide_true by done. csimpl. rewrite app_nil_r. by apply jdel_fresh.
Qed.

Lemma jkeys_oset_present k v m :
  is_Some (jget k m) → (∀ k', k' ∈ jkeys m → precedes k k' = false) →
  jkeys (oset k v m) = jkeys m.
Proof.
  unfold jkeys. induction m as [|[k1 v1] m IH]; csimpl; [by intros []|].
  intros Hs Hp. case_bool_decide; csimpl; [done|].
  rewrite (Hp k1) by (left). csimpl. rewrite IH; [done|done|].
  intros; apply Hp; by right.
Qed.

(** ** In-place change of one value *)

(** Mutating the value stored under [k]: the key order does not move. *)
Definition jalter (f : V → V) k m : list (string * V) :=
  (λ kv, if k =s kv.1 then (kv.1, f kv.2) else kv) <$> m.

Lemma jget_jalter f k k' m :
  jget k (jalter f k' m) = if k =s k' then f <$> jget k m else jget k m.
Proof.
  unfold jalter. induction m as [|[k1 v1] m IH]; csimpl; [by case_bool_decide|].
  repeat (case_bool_decide; csimpl; subst); try done; by rewrite IH.
Qed.

Lemma jkeys_jalter f k m : jkeys (jalter f k m) = jkeys m.
Proof.
  unfold jkeys, jalter. induction m as [|[k1 v1] m IH]; csimpl; [done|].
  case_bool_decide; csimpl; by rewrite IH.
Qed.

Lemma jalter_absent f k m : jget k m = None → jalter f k m = m.
Proof.
  unfold jalter. induction m as [|[k1 v1] m IH]; csimpl; [done|].
  case_bool_decide; [done|]. intros. by rewrite IH.
Qed.

(** ** Objects in canonical order *)

(** The order every object built by property assignments has: keys are
    distinct and none is enumerated after one it precedes. *)
Definition obj_ok m : Prop :=
  NoDup (jkeys m) ∧ StronglySorted (λ a b, precedes b a = false) (jkeys m).

Lemma obj_ok_nil : obj_ok [].
Proof. split; constructor. Qed.

Lemma obj_ok_NoDup m : obj_ok m → NoDup (jkeys m).
Proof. by intros []. Qed.

Lemma oset_snoc k v m :
  k ∉ jkeys m → (∀ k', k' ∈ jkeys m → precedes k k' = false) →
  oset k v m = m ++ [(k, v)].
Proof.
  unfold jkeys. induction m as [|[k1 v1] m IH]; csimpl; [done|].
  intros Hn Hp. rewrite bool_decide_false by set_solver.
  rewrite (Hp k1) by left. rewrite IH; [done|set_solver|].
  intros; apply Hp; by right.
Qed.

Lemma oset_app_skip k v m r :
  k ∉ jkeys m → (∀ k', k' ∈ jkeys m → precedes k k' = false) →
  oset k v (m ++ r) = m ++ oset k v r.
Proof.
  unfold jkeys. induction m as [|[k1 v1] m IH]; csimpl; [done|].
  intros Hn Hp. rewrite bool_decide_false by set_solver.
  rewrite (Hp k1) by left. rewrite IH; [done|set_solver|].
  intros; apply Hp; by right.
Qed.

Lemma obj_ok_snoc_inv m k v :
  obj_ok (m ++ [(k, v)]) →
  obj_ok m ∧ k ∉ jkeys m ∧ ∀ k', k' ∈ jkeys m → precedes k k' = false.
Proof.
  unfold obj_ok, jkeys. rewrite fmap_app. csimpl.
  intros [(Hd & Hn & _)%NoDup_app Hs].
  apply StronglySorted_app in Hs as (Hlt & Hs & _).
  split_and!; [done|done| |].
  - intros Hk. apply (Hn k Hk). left.
  - intros k' Hk'. apply Hlt; [done|left].
Qed.

Lemma ospread_snoc a m k v : ospread a (m ++ [(k, v)]) = oset k v (ospread a m).
Proof. unfold ospread. by rewrite foldl_app. Qed.

(** Copying an object ([{ ...m }]) keeps keys, values and order. *)
Lemma ospread_nil_l m : obj_ok m → ospread [] m = m.
Proof.
  induction m as [|[k v] m IH] using rev_ind; [done|].
  intros (Hm & Hn & Hp)%obj_ok_snoc_inv. by rewrite ospread_snoc, IH, oset_snoc.
Qed.

Lemma jkeys_oset_elem k v m k' : k' ∈ jkeys (oset k v m) ↔ k' = k ∨ k' ∈ jkeys m.
Proof.
  rewrite !elem_of_jkeys, jget_oset. case_bool_decide; naive_solver.
Qed.

(** An index that precedes the head precedes nothing before it. *)
Lemma precedes_insert k k1 k2 :
  precedes k k1 = true → precedes k2 k1 = false → precedes k2 k = false.
Proof.
  unfold precedes. destruct (array_index k), (array_index k1), (array_index k2); try done.
  rewrite N.ltb_lt, !N.ltb_ge. lia.
Qed.

Lemma obj_ok_oset k v m : obj_ok m → obj_ok (oset k v m).
Proof.
  unfold obj_ok, jkeys. induction m as [|[k1 v1] m IH]; csimpl.
  { intros _. split; [apply NoDup_singleton|by repeat constructor]. }
  intros [[Hn Hd]%NoDup_cons [Hs Ha]%StronglySorted_inv].
  destruct (bool_decide_reflect (k = k1)) as [->|Hne]; csimpl;
    [by split; constructor|].
  rewrite Forall_forall in Ha.
  destruct (precedes k k1) eqn:Hp; csimpl.
  - split.
    + constructor; [|by constructor]. intros [?|Hk]%elem_of_cons; [done|].
      specialize (Ha k Hk). congruence.
    + constructor; [by constructor; [|rewrite Forall_forall]|].
      constructor; [by apply precedes_asym|].
      rewrite Forall_forall. intros k2 Hk2. eapply precedes_insert; eauto.
  - destruct IH as [IHd IHs]; [done|]. split; constructor; [|done|done|].
    + intros Hk. apply jkeys_oset_elem in Hk as [?|?]; [by subst|done].
    + rewrite Forall_forall. intros k2 Hk2.
      apply jkeys_oset_elem in Hk2 as [->|?]; [done|by apply Ha].
Qed.

Lemma obj_ok_ospread a b : obj_ok a → obj_ok (ospread a b).
Proof. unfold ospread. revert a. induction b; simpl; eauto using obj_ok_oset. Qed.

Lemma obj_ok_keys m m' : jkeys m = jkeys m' → obj_ok m → obj_ok m'.
Proof. unfold obj_ok. by intros ->. Qed.

Lemma obj_ok_jdel k m : obj_ok m → obj_ok (jdel k m).
Proof.
  intros [Hd Hs]. split; [by apply NoDup_jkeys_jdel|].
  unfold jkeys, jdel in *. clear Hd. induction m as [|[k1 v1] m IH]; csimpl; [done|].
  apply StronglySorted_cons in Hs as [Ha Hs]. case_bool_decide; csimpl; [auto|].
  apply StronglySorted_cons. split; [|auto]. rewrite Forall_forall in Ha |- *.
  intros k2 (kv & -> & [Hkv _]%elem_of_bfilter)%list_elem_of_fmap. apply Ha.
  by apply list_elem_of_fmap_2.
Qed.
End jsmap.

(** ** Mapping over the values *)

Lemma jget_map {V W} (f : V → W) k (m : list (string * V)) :
  jget k ((λ kv, (kv.1, f kv.2)) <$> m) = f <$> jget k m.
Proof. induction m as [|[]]; csimpl; [done|]. by case_bool_decide. Qed.

(** The same when the function sees the key. *)
Lemma jget_fmap_key {V W} (f : string → V → W) k (m : list (string * V)) :
  f k <$> jget k m = jget k ((λ kv, (kv.1, f kv.1 kv.2)) <$> m).
Proof. induction m as [|[]]; simpl; [done|]. case_bool_decide; [by subst|done]. Qed.

Lemma jkeys_map_key {V W} (f : string → V → W) (m : list (string * V)) :
  jkeys ((λ kv, (kv.1, f kv.1 kv.2)) <$> m) = jkeys m.
Proof. unfold jkeys. induction m as [|[]]; csimpl; congruence. Qed.

Lemma jkeys_map {V W} (f : V → W) (m : list (string * V)) :
  jkeys ((λ kv, (kv.1, f kv.2)) <$> m) = jkeys m.
Proof. unfold jkeys. induction m as [|[]]; csimpl; congruence. Qed.

Lemma obj_ok_map {V W} (f : V → W) (m : list (string * V)) :
  obj_ok m → obj_ok ((λ kv, (kv.1, f kv.2)) <$> m).
Proof. unfold obj_ok. by rewrite jkeys_map. Qed.

#[export] Hint Rewrite @jget_mset_eq @jget_oset_eq : js.
#[export] Hint Resolve NoDup_jkeys_mset NoDup_jkeys_jdel obj_ok_nil obj_ok_NoDup obj_ok_map obj_ok_oset
  obj_ok_ospread obj_ok_jdel : js.

(** Two maps with the same keys in the same order and the same lookups are equal. *)
Lemma jmap_ext {V} (m m' : list (string * V)) :
  jkeys m = jkeys m' → NoDup (jkeys m) → (∀ k, k ∈ jkeys m → jget k m = jget k m') → m = m'.
Proof.
  unfold jkeys. revert m'. induction m as [|[k v] m IH]; intros [|[k' v'] m']; csimpl; try done.
  intros [= <- Hk] [Hn Hd]%NoDup_cons H.
  assert (v = v') as <-.
  { specialize (H k ltac:(left)). rewrite !bool_decide_true in H by done. congruence. }
  f_equal. apply IH; [done..|]. intros k1 Hk1. specialize (H k1 ltac:(by right)).
  by rewrite bool_decide_false in H by (intros ->; done).
Qed.

(** * Grouping a list by a key

    The program groups a list in a loop that appends each element to the entry of
    its key, in a plain object or in a [Map].  The entries partition the list, and
    each keeps the order of the list. *)

(** The elements under each of some keys, together. *)
Lemma partition_by_keys {A} (key : A → string) ks (l : list A) :
  NoDup ks → (∀ x, x ∈ l → key x ∈ ks) →
  concat ((λ k, bfilter (λ x, key x =s k) l) <$> ks) ≡ₚ l.
Proof.
  revert l. induction ks as [|k ks IH]; intros l Hd Hl; csimpl.
  { destruct l as [|x l]; [done|]. exfalso. apply (not_elem_of_nil (key x)), Hl. left. }
  apply NoDup_cons in Hd as [Hk Hd].
  transitivity (bfilter (λ x, key x =s k) l ++ bfilter (λ x, negb (key x =s k)) l);
    [|rewrite Permutation_app_comm; by rewrite <- bfilter_Permutation].
  apply Permutation_app_head.
  rewrite <- (IH (bfilter (λ x, negb (key x =s k)) l) Hd).
  - assert (∀ u v : list (list A), u = v → concat u ≡ₚ concat v) as Hc by (by intros ? ? ->). apply Hc. apply list_fmap_ext. intros i k' Hi. rewrite bfilter_bfilter. apply bfilter_ext.
    intros x. destruct (bool_decide_reflect (key x = k')) as [E|E]; [|done]. rewrite (bool_decide_false (key x = k)); [done|].
    intros E'. apply Hk. rewrite <- E', E. by eapply list_elem_of_lookup_2.
  - intros x [Hx Hn]%elem_of_bfilter. cbn in Hn. bsimpl. apply Hl in Hx as [?|?]%elem_of_cons; done.
Qed.

Section grouping.
Context {A : Type} (key : A → string) (put : string → list A → list (string * list A) → list (string * list A)).
Context (put_get : ∀ k k' v m, jget k (put k' v m) = if k =s k' then Some v else jget k m).
Context (ok : list (string * list A) → Prop) (ok_nil : ok []) (ok_nodup : ∀ m, ok m → NoDup (jkeys m)).
Context (ok_put : ∀ k v m, ok m → ok (put k v m)).

Definition group_step (m : list (string * list A)) (x : A) : list (string * list A) :=
  put (key x) (default [] (jget (key x) m) ++ [x]) m.

(** What the groups of a list are. *)
Record groups_of (l : list A) (m : list (string * list A)) : Prop := {
  go_ok : ok m;
  go_get : ∀ k, default [] (jget k m) = bfilter (λ x, key x =s k) l;
  go_key : ∀ k g, jget k m = Some g → g ≠ [];
}.

Lemma groups_of_step l m x : groups_of l m → groups_of (l ++ [x]) (group_step m x).
Proof using put_get ok_put.
  intros [Hd Hg Hk]. unfold group_step. split.
  - by apply ok_put.
  - intros k. rewrite put_get, bfilter_app. cbn [bfilter].
    destruct (decide (k = key x)) as [->|Hne].
    + rewrite !bool_decide_true by done. cbn [default]. by rewrite Hg.
    + rewrite bool_decide_false by done. rewrite (bool_decide_false (key x = k)) by congruence. by rewrite app_nil_r.
  - intros k g. rewrite put_get. case_bool_decide; [|by apply Hk]. intros [= <-]. by destruct (default [] _).
Qed.

Lemma grouping_spec l : groups_of l (foldl group_step [] l).
Proof using put_get ok_put ok_nil.
  assert (∀ pre m, groups_of pre m → groups_of (pre ++ l) (foldl group_step m l)) as H.
  { induction l as [|x k IH]; intros pre m Hm; csimpl; [by rewrite app_nil_r|].
    rewrite cons_middle, app_assoc. by apply IH, groups_of_step. }
  apply (H []). by split.
Qed.

Lemma groups_perm l m : groups_of l m → concat (jvals m) ≡ₚ l.
Proof using ok_nodup.
  intros [Hd%ok_nodup Hg Hk]. rewrite <- (partition_by_keys key (jkeys m) l Hd).
  - assert (∀ u v : list A, u = v → u ≡ₚ v) as Hc by (by intros ? ? ->). apply Hc. f_equal. unfold jvals, jkeys. rewrite <- list_fmap_compose. apply list_fmap_ext.
    intros i [k g] Hi. cbn. rewrite <- Hg. apply list_elem_of_lookup_2 in Hi. apply elem_jget in Hi; [|done]. by rewrite Hi.
  - intros x Hx. apply elem_of_jkeys. specialize (Hg (key x)).
    destruct (jget (key x) m); [done|]. exfalso. apply (not_elem_of_nil x). cbn in Hg. rewrite Hg. apply elem_of_bfilter.
    split; [done|]. by apply bool_decide_eq_true.
Qed.

Lemma groups_member l m k g : groups_of l m → (k, g) ∈ m → g = bfilter (λ x, key x =s k) l ∧ g ≠ [].
Proof using ok_nodup.
  intros [Hd%ok_nodup Hg Hk] Hin. apply elem_jget in Hin; [|done]. split; [|by eapply Hk]. by rewrite <- Hg, Hin.
Qed.
End grouping.

(** The two ways of the language. *)
Definition group_object {A} (key : A → string) (l : list A) : list (string * list A) := foldl (group_step key oset) [] l.
Definition group_map {A} (key : A → string) (l : list A) : list (string * list A) := foldl (group_step key mset) [] l.

Lemma group_object_spec {A} (key : A → string) l : groups_of key obj_ok l (group_object key l).
Proof. apply grouping_spec; [intros; apply jget_oset|apply obj_ok_nil|apply obj_ok_oset]. Qed.

Lemma group_map_spec {A} (key : A → string) l : groups_of key (λ m, NoDup (jkeys m)) l (group_map key l).
Proof. apply grouping_spec; [intros; apply jget_mset|constructor|intros; by apply NoDup_jkeys_mset]. Qed.

Lemma group_object_perm {A} (key : A → string) l : concat (jvals (group_object key l)) ≡ₚ l.
Proof. eapply groups_perm; [apply obj_ok_NoDup|apply group_object_spec]. Qed.

Lemma group_map_perm {A} (key : A → string) l : concat (jvals (group_map key l)) ≡ₚ l.
Proof. eapply groups_perm; [|apply group_map_spec]. done. Qed.

Lemma group_object_member {A} (key : A → string) l k g :
  (k, g) ∈ group_object key l → g = bfilter (λ x, key x =s k) l ∧ g ≠ [].
Proof. apply (groups_member key obj_ok); [apply obj_ok_NoDup|apply group_object_spec]. Qed.

Lemma group_map_member {A} (key : A → string) l k g :
  (k, g) ∈ group_map key l → g = bfilter (λ x, key x =s k) l ∧ g ≠ [].
Proof. apply (groups_member key (λ m, NoDup (jkeys m))); [done|apply group_map_spec]. Qed.

(** ** Updates of an entry *)

Lemma oset_fmap {V W} (f : V → W) k v (m : list (string * V)) :
  oset k (f v) ((λ kv, (kv.1, f kv.2)) <$> m) = (λ kv, (kv.1, f kv.2)) <$> oset k v m.
Proof.
  induction m as [|[k' v'] m IH]; csimpl; [done|]. case_bool_decide; csimpl; [done|].
  destruct (precedes k k'); csimpl; [done|]. by rewrite IH.
Qed.

Lemma jalter_cons {V} (f : V → V) k k' v (m : list (string * V)) :
  jalter f k ((k', v) :: m) = (if k =s k' then (k', f v) else (k', v)) :: jalter f k m.
Proof. done. Qed.

Lemma jalter_oset_fresh {V} (f : V → V) k v (m : list (string * V)) :
  jget k m = None → jalter f k (oset k v m) = oset k (f v) m.
Proof.
  induction m as [|[k' v'] m IH]; cbn [jget oset]; [intros _; rewrite jalter_cons; by rewrite bool_decide_true|].
  case_bool_decide as E; [done|]. intros Hn.
  destruct (precedes k k'); rewrite !jalter_cons, ?bool_decide_true, ?(bool_decide_false (k = k')) by done.
  - by rewrite jalter_absent.
  - by rewrite IH.
Qed.

Lemma oset_jalter {V} k v w (m : list (string * V)) :
  obj_ok m → jget k m = Some w → oset k v m = jalter (λ _, v) k m.
Proof.
  intros Hm Hw.
  assert (jkeys (oset k v m) = jkeys m) as Hk.
  { clear -Hm Hw. destruct Hm as [Hd Hs]. unfold jkeys in *. revert Hd Hs Hw.
    induction m as [|[k' v'] m IH]; csimpl; [done|]. intros [Hn Hd]%NoDup_cons [Hs Ha]%StronglySorted_inv.
    case_bool_decide as E; csimpl; [done|]. intros Hw. destruct (precedes k k') eqn:Hp; csimpl.
    - exfalso. rewrite Forall_forall in Ha. rewrite (Ha k) in Hp; [done|].
      change (k ∈ jkeys m). apply elem_of_jkeys. eauto.
    - by rewrite IH. }
  apply jmap_ext.
  - by rewrite jkeys_jalter.
  - rewrite Hk. by apply obj_ok_NoDup.
  - intros k' _. rewrite jget_oset, jget_jalter. case_bool_decide; [subst|done]. by rewrite Hw.
Qed.

Lemma jalter_fmap {V W} (f : V → W) (g : V → V) (h : W → W) k (m : list (string * V)) :
  (∀ v, f (g v) = h (f v)) →
  (λ kv, (kv.1, f kv.2)) <$> jalter g k m = jalter h k ((λ kv, (kv.1, f kv.2)) <$> m).
Proof.
  intros H. unfold jalter. rewrite <- !list_fmap_compose. apply list_fmap_ext. intros i [k' v] _. unfold compose. csimpl.
  case_bool_decide; csimpl; [by rewrite H|done].
Qed.

(** Appending to the entry of a key, made when it is not there. *)
Lemma group_step_present {A} (key : A → string) m x w :
  obj_ok m → jget (key x) m = Some w → group_step key oset m x = jalter (λ l, l ++ [x]) (key x) m.
Proof.
  intros Hm Hw. unfold group_step. rewrite Hw. cbn [default]. rewrite (oset_jalter _ _ w) by done.
  apply jmap_ext; [by rewrite !jkeys_jalter|rewrite jkeys_jalter; by apply obj_ok_NoDup|].
  intros k _. rewrite !jget_jalter. case_bool_decide; [subst|done]. by rewrite Hw.
Qed.
