(* ===== verification/JsValue.v ===== *)
(** * JavaScript values

    The JSON-like values that flow through configurations, metadata, snapshots
    and expression contexts.  A value is a tree: two places that hold the same
    object in the program hold equal copies here, so the statements built on
    these values speak of contents, not of object identity.  Numbers are exact
    rationals (no rounding, [NaN] or infinity). *)

From S2P Require Import Prelude JsMap.

Inductive jsval :=
| JUndef
| JNull
| JBool (b : bool)
| JNum (n : num)
| JStr (s : string)
| JArr (l : list jsval)
| JObj (o : list (string * jsval)).

(** A plain object. *)
Abbreviation jsobj := (list (string * jsval)).

Definition num_of_Z (z : Z) : num := Q2Qc (QArith_base.inject_Z z).

Definition JInt (z : Z) : jsval := JNum (num_of_Z z).

(** ** Conversions *)

Definition truthy (v : jsval) : bool :=
  match v with
  | JUndef | JNull => false
  | JBool b => b
  | JNum n => negb (bool_decide (n = 0%Qc))
  | JStr s => negb (s =s "")
  | JArr _ | JObj _ => true
  end.

(** [a || b] *)
Definition js_or (a b : jsval) : jsval := if truthy a then a else b.

(** [v === undefined || v === null] *)
Definition is_nullish (v : jsval) : bool :=
  match v with JUndef | JNull => true | _ => false end.

(** [a ?? b] *)
Definition js_nullish (a b : jsval) : jsval := if is_nullish a then b else a.

(** [typeof v] *)
Definition js_typeof (v : jsval) : string :=
  match v with
  | JUndef => "undefined"
  | JNull => "object"
  | JBool _ => "boolean"
  | JNum _ => "number"
  | JStr _ => "string"
  | JArr _ | JObj _ => "object"
  end.

Definition is_array (v : jsval) : bool := if v is JArr _ then true else false.

(** [v && typeof v === "object" && !Array.isArray(v)] *)
Definition is_plain_object (v : jsval) : bool := if v is JObj _ then true else false.

(** [Array.isArray(v) ? v : []] *)
Definition as_array (v : jsval) : list jsval := if v is JArr l then l else [].

(** [===] against a primitive; objects and arrays are never equal to one. *)
Definition strict_eq (a b : jsval) : bool :=
  match a, b with
  | JUndef, JUndef | JNull, JNull => true
  | JBool x, JBool y => Bool.eqb x y
  | JNum x, JNum y => bool_decide (x = y)
  | JStr x, JStr y => x =s y
  | _, _ => false
  end.

(** ** Properties *)

Definition str_index (s : string) (i : nat) : jsval :=
  match String.get i s with
  | Some c => JStr (String c EmptyString)
  | None => JUndef
  end.

(** [v[k]] for a [v] that is neither [null] nor [undefined]. *)
Definition prop (v : jsval) (k : string) : jsval :=
  match v with
  | JObj o => default JUndef (jget k o)
  | JArr l =>
      match array_index k with
      | Some i => default JUndef (l !! N.to_nat i)
      | None => if k =s "length" then JInt (Z.of_nat (length l)) else JUndef
      end
  | JStr s =>
      match array_index k with
      | Some i => str_index s (N.to_nat i)
      | None => if k =s "length" then JInt (Z.of_nat (String.length s)) else JUndef
      end
  | _ => JUndef
  end.

Definition oprop (o : jsobj) (k : string) : jsval := default JUndef (jget k o).

(** The enumerable own properties a spread or [Object.entries] sees. *)
Definition entries (v : jsval) : jsobj :=
  match v with
  | JObj o => o
  | JArr l => imap (λ i x, (pretty i, x)) l
  | JStr s => imap (λ i c, (pretty i, JStr (String c EmptyString))) (list_ascii_of_string s)
  | _ => []
  end.

(** ** Induction over nested values *)

Section jsval_ind.
Context (P : jsval → Prop).
Context (Hundef : P JUndef) (Hnull : P JNull) (Hbool : ∀ b, P (JBool b)).
Context (Hnum : ∀ n, P (JNum n)) (Hstr : ∀ s, P (JStr s)).
Context (Harr : ∀ l, Forall P l → P (JArr l)).
Context (Hobj : ∀ o, Forall (λ kv, P kv.2) o → P (JObj o)).

Fixpoint jsval_tree_ind (v : jsval) : P v :=
  match v with
  | JUndef => Hundef
  | JNull => Hnull
  | JBool b => Hbool b
  | JNum n => Hnum n
  | JStr s => Hstr s
  | JArr l =>
      Harr l ((fix go l : Forall P l :=
                 match l with
                 | [] => Forall_nil_2 P
                 | x :: l => Forall_cons_2 P x l (jsval_tree_ind x) (go l)
                 end) l)
  | JObj o =>
      Hobj o ((fix go o : Forall (λ kv, P kv.2) o :=
                 match o with
                 | [] => Forall_nil_2 _
                 | x :: o => Forall_cons_2 (λ kv, P kv.2) x o (jsval_tree_ind x.2) (go o)
                 end) o)
  end.
End jsval_ind.

(** ** Positions *)

(** A canvas position [{ x, y }]. *)
Record position := Position { pos_x : num; pos_y : num }.

#[export] Instance position_eq_dec : EqDecision position.
Proof. solve_decision. Defined.

(** [a.x === b.x && a.y === b.y] *)
Definition same_position (a b : position) : bool :=
  bool_decide (pos_x a = pos_x b) && bool_decide (pos_y a = pos_y b).

Lemma same_position_true a b : same_position a b = true ↔ a = b.
Proof.
  unfold same_position. rewrite andb_true_iff, !bool_decide_eq_true.
  destruct a, b; naive_solver.
Qed.

Lemma same_position_refl a : same_position a a = true.
Proof. by apply same_position_true. Qed.

(** ** Error results *)

(** What a call that may throw gives: the state it left behind, and either a
    value or the message of the exception. *)
Inductive outcome (A : Type) :=
| Ret (a : A)
| Throw (msg : string).
Arguments Ret {_}.
Arguments Throw {_}.

#[export] Instance outcome_ret : MRet outcome := λ A a, Ret a.
#[export] Instance outcome_bind : MBind outcome := λ A B f x,
  match x with Ret a => f a | Throw msg => Throw msg end.

(** A loop that collects results stops at the first exception. *)
Lemma mapM_Ret {A B} (f : A → outcome B) (g : A → B) l :
  (∀ x, x ∈ l → f x = Ret (g x)) → mapM f l = Ret (g <$> l).
Proof.
  induction l as [|x l IH]; intros H; [done|].
  transitivity (f x ≫= λ y, mapM f l ≫= λ k, Ret (y :: k)); [done|].
  rewrite H by left. rewrite IH by (intros; apply H; by right). done.
Qed.

Lemma mapM_ex {A B} (f : A → outcome B) (R : A → B → Prop) l :
  (∀ x, x ∈ l → ∃ y, f x = Ret y ∧ R x y) → ∃ k, mapM f l = Ret k ∧ Forall2 R l k.
Proof.
  induction l as [|x l IH]; intros H; [by exists []|].
  destruct (H x) as (y & Hf & Hy); [left|]. destruct IH as (k & Hk & HR); [intros; apply H; by right|].
  exists (y :: k). split; [|by constructor].
  transitivity (f x ≫= λ y, mapM f l ≫= λ k, Ret (y :: k)); [done|]. by rewrite Hf, Hk.
Qed.
