(* ===== verification/JsNumber.v ===== *)
(** * Numbers of JavaScript

    [Math.min], [Math.max], [Math.abs], [Math.round] and division on exact
    rationals, with the facts that geometry needs.  Division by zero, which
    gives an infinity in JavaScript, is left to the callers: their theorems ask
    for a denominator that is not zero. *)

From Stdlib Require Qround.
From S2P Require Import Prelude JsValue.

Definition num_max (a b : num) : num := if bool_decide (a ≤ b)%Qc then b else a.
Definition num_min (a b : num) : num := if bool_decide (a ≤ b)%Qc then a else b.
Definition num_abs (a : num) : num := if bool_decide (0 ≤ a)%Qc then a else (- a)%Qc.
Definition num_lt (a b : num) : bool := bool_decide (a < b)%Qc.
Definition num_le (a b : num) : bool := bool_decide (a ≤ b)%Qc.

(** [x / 2] *)
Definition half (x : num) : num := (x * Q2Qc (QArith_base.Qmake 1 2))%Qc.

(** [Math.round]: the nearest integer, upwards from the middle. *)
Definition num_round (x : num) : Z :=
  Qround.Qfloor (QArith_base.Qplus (this x) (QArith_base.Qmake 1 2)).

(** A number with decimals, as the source writes it: [decimal 25 100] is [0.25]. *)
Definition decimal (n : Z) (d : positive) : num := Q2Qc (QArith_base.Qmake n d).

Lemma num_max_spec a b : (a ≤ num_max a b)%Qc ∧ (b ≤ num_max a b)%Qc.
Proof. unfold num_max. case_bool_decide; split; qc_lra. Qed.

Lemma num_max_case a b : num_max a b = a ∨ num_max a b = b.
Proof. unfold num_max. case_bool_decide; auto. Qed.

Lemma num_min_spec a b : (num_min a b ≤ a)%Qc ∧ (num_min a b ≤ b)%Qc.
Proof. unfold num_min. case_bool_decide; split; qc_lra. Qed.

Lemma num_min_case a b : num_min a b = a ∨ num_min a b = b.
Proof. unfold num_min. case_bool_decide; auto. Qed.

Lemma num_lt_true a b : num_lt a b = true ↔ (a < b)%Qc.
Proof. apply bool_decide_eq_true. Qed.

Lemma num_lt_false a b : num_lt a b = false ↔ (b ≤ a)%Qc.
Proof.
  unfold num_lt. rewrite bool_decide_eq_false. split; [apply Qcnot_lt_le|apply Qcle_not_lt].
Qed.

Lemma num_le_true a b : num_le a b = true ↔ (a ≤ b)%Qc.
Proof. apply bool_decide_eq_true. Qed.

Lemma num_le_false a b : num_le a b = false ↔ (b < a)%Qc.
Proof.
  unfold num_le. rewrite bool_decide_eq_false. split; [apply Qcnot_le_lt|apply Qclt_not_le].
Qed.

(** Rewrite comparisons that compute into comparisons of rationals. *)
Ltac num_bool :=
  repeat match goal with
  | H : num_lt _ _ = true |- _ => apply num_lt_true in H
  | H : num_lt _ _ = false |- _ => apply num_lt_false in H
  | H : num_le _ _ = true |- _ => apply num_le_true in H
  | H : num_le _ _ = false |- _ => apply num_le_false in H
  end.

(** Literals in the form that [lra] reads. *)
Ltac num_lits :=
  unfold half, decimal in *;
  repeat match goal with
  | H : context [num_of_Z ?z] |- _ =>
      lazymatch isZcst z with true => change (num_of_Z z) with (Q2Qc (QArith_base.Qmake z 1)) in H end
  | |- context [num_of_Z ?z] =>
      lazymatch isZcst z with true => change (num_of_Z z) with (Q2Qc (QArith_base.Qmake z 1)) end
  end.

Ltac num_lra := num_lits; qc_lra.

(** Split on every [Math.min], [Math.max] and [Math.abs] and solve linearly. *)
Ltac num_cases :=
  unfold num_max, num_min, num_abs in *; repeat case_bool_decide; num_lra.

Lemma num_of_Z_le a b : (a ≤ b)%Z → (num_of_Z a ≤ num_of_Z b)%Qc.
Proof.
  intros H. unfold num_of_Z, Qcle. rewrite !this_Q2Qc. by rewrite <- QArith_base.Zle_Qle.
Qed.

Lemma num_of_Z_add a b : num_of_Z (a + b) = (num_of_Z a + num_of_Z b)%Qc.
Proof.
  unfold num_of_Z. apply Qc_is_canon. rewrite this_plus, !this_Q2Qc, QArith_base.inject_Z_plus. reflexivity.
Qed.

Lemma num_of_Z_inj a b : num_of_Z a = num_of_Z b → a = b.
Proof.
  intros H%this_eq. unfold num_of_Z in H. rewrite !this_Q2Qc in H.
  unfold QArith_base.Qeq in H. simpl in H. lia.
Qed.

(** The rounded number is within a half, the half itself going up. *)
Lemma num_round_spec x :
  (num_of_Z (num_round x) ≤ x + decimal 1 2)%Qc ∧ (x + decimal 1 2 < num_of_Z (num_round x) + 1)%Qc.
Proof.
  unfold num_round, decimal, num_of_Z. set (q := QArith_base.Qplus _ _).
  pose proof (Qround.Qfloor_le q) as H1. pose proof (Qround.Qlt_floor q) as H2.
  rewrite QArith_base.inject_Z_plus in H2. subst q. unfold Qclt, Qcle. rewrite !this_plus, !this_Q2Qc.
  split; [exact H1|exact H2].
Qed.

(** Nothing else is. *)
Lemma num_round_unique x z :
  (num_of_Z z ≤ x + decimal 1 2)%Qc → (x + decimal 1 2 < num_of_Z z + 1)%Qc → num_round x = z.
Proof.
  destruct (num_round_spec x) as [H1 H2]. intros H3 H4.
  assert (∀ a b : Z, (num_of_Z a ≤ x + decimal 1 2)%Qc → (x + decimal 1 2 < num_of_Z b + 1)%Qc → (a ≤ b)%Z) as H.
  { intros a b Ha Hb. destruct (Z.le_gt_cases a b) as [|Hgt]; [done|].
    pose proof (num_of_Z_le (b + 1) a ltac:(lia)) as Hle. rewrite num_of_Z_add in Hle.
    change (num_of_Z 1) with 1%Qc in Hle. exfalso. qc_lra. }
  apply Z.le_antisymm; by apply H.
Qed.

Lemma num_round_Z z : num_round (num_of_Z z) = z.
Proof. apply num_round_unique; unfold decimal; qc_lra. Qed.

Lemma num_div_mul x y : y ≠ 0%Qc → (x / y * y)%Qc = x.
Proof. intros. rewrite Qcmult_comm. by apply Qcmult_div_r. Qed.

Lemma num_mul_div x y : y ≠ 0%Qc → (x * y / y)%Qc = x.
Proof. intros. by apply Qcdiv_mult_l. Qed.

Lemma num_pos_ne x : (0 < x)%Qc → x ≠ 0%Qc.
Proof. intros H ->. qc_lra. Qed.

(** A quotient is pinned by its product, and compared by it. *)
Lemma num_div_le x y k : (0 < y)%Qc → (x ≤ k * y)%Qc → (x / y ≤ k)%Qc.
Proof.
  intros Hy H. apply (Qcmult_lt_0_le_reg_r _ _ y); [done|]. by rewrite num_div_mul by by apply num_pos_ne.
Qed.

Lemma num_le_div x y k : (0 < y)%Qc → (k * y ≤ x)%Qc → (k ≤ x / y)%Qc.
Proof.
  intros Hy H. apply (Qcmult_lt_0_le_reg_r _ _ y); [done|]. by rewrite num_div_mul by by apply num_pos_ne.
Qed.

Lemma num_lt_div x y k : (0 < y)%Qc → (k * y < x)%Qc → (k < x / y)%Qc.
Proof.
  intros Hy H. apply Qcnot_le_lt. intros Hle.
  apply (Qcmult_le_compat_r _ _ y) in Hle; [|by apply Qclt_le_weak].
  rewrite num_div_mul in Hle by by apply num_pos_ne. qc_lra.
Qed.

Lemma num_mul_le a b c : (0 ≤ c)%Qc → (a ≤ b)%Qc → (a * c ≤ b * c)%Qc.
Proof. intros. by apply Qcmult_le_compat_r. Qed.

(** The largest value of a list, from a start. *)
Lemma foldl_max_spec {A} (f : A → num) l a :
  (a ≤ foldl (λ m x, num_max m (f x)) a l)%Qc ∧
  ∀ x, x ∈ l → (f x ≤ foldl (λ m x, num_max m (f x)) a l)%Qc.
Proof.
  revert a. induction l as [|y l IH]; intros a; simpl; [split; [qc_lra|set_solver]|].
  destruct (IH (num_max a (f y))) as [H1 H2], (num_max_spec a (f y)). split; [qc_lra|].
  intros x [->|Hx]%elem_of_cons; [qc_lra|by apply H2].
Qed.

Lemma foldl_min_spec {A} (f : A → num) l a :
  (foldl (λ m x, num_min m (f x)) a l ≤ a)%Qc ∧
  ∀ x, x ∈ l → (foldl (λ m x, num_min m (f x)) a l ≤ f x)%Qc.
Proof.
  revert a. induction l as [|y l IH]; intros a; simpl; [split; [qc_lra|set_solver]|].
  destruct (IH (num_min a (f y))) as [H1 H2], (num_min_spec a (f y)). split; [qc_lra|].
  intros x [->|Hx]%elem_of_cons; [qc_lra|by apply H2].
Qed.

Lemma foldl_max_case {A} (f : A → num) l a :
  foldl (λ m x, num_max m (f x)) a l = a ∨ ∃ x, x ∈ l ∧ foldl (λ m x, num_max m (f x)) a l = f x.
Proof.
  revert a. induction l as [|y l IH]; intros a; simpl; [by left|].
  destruct (IH (num_max a (f y))) as [->|(x & Hx & ->)]; [|right; exists x; set_solver].
  destruct (num_max_case a (f y)) as [->| ->]; [by left|right; exists y; set_solver].
Qed.
