(* ===== verification/Socket.v ===== *)
(** * Sockets (core/socket.js)

    Typed connection points and the compatibility relation between them. *)

From S2P Require Import Prelude JsMap JsValue.

Record socket := Socket {
  sock_name : string;
  compatibleWith : list string;
}.

#[export] Instance socket_eq_dec : EqDecision socket.
Proof. solve_decision. Defined.

(** [Socket.prototype.isCompatible]; the argument may be missing. *)
Definition isCompatible (this : socket) (other : option socket) : bool :=
  match other with
  | None => false
  | Some other =>
      if sock_name this =s sock_name other then true
      else existsb (λ n, n =s sock_name other) (compatibleWith this)
  end.

Definition DataSocket : socket := Socket "data" [].
Definition ErrorSocket : socket := Socket "error" ["data"].
Definition TriggerSocket : socket := Socket "trigger" [].

Definition SocketRegistry : list (string * socket) :=
  [("data", DataSocket); ("error", ErrorSocket); ("trigger", TriggerSocket)].

Lemma isCompatible_refl s : isCompatible s (Some s) = true.
Proof. unfold isCompatible. by rewrite bool_decide_true. Qed.

#[export] Hint Resolve isCompatible_refl : js.

#[global] Arguments isCompatible : simpl never.
