(* ===== verification/Connection.v ===== *)
(** * Connections (core/connection.js)

    A connection links an output of one node to an input of another; its id is
    computed from the four end points. *)

From S2P Require Import Prelude JsMap JsValue.

Record connection := Connection {
  conn_id : string;
  source : string;
  sourceHandle : string;
  target : string;
  targetHandle : string;
  conn_meta : jsobj;
}.

(** [Connection.generateId] *)
Definition generateId (sourceId sourceHandle targetId targetHandle : string) : string :=
  sourceId +:+ ":" +:+ sourceHandle +:+ "=>" +:+ targetId +:+ ":" +:+ targetHandle.

Definition default_conn_meta : jsobj := [("label", JStr ""); ("animated", JBool false)].

(** The constructor. *)
Definition new_connection (s sh t th : string) : connection :=
  Connection (generateId s sh t th) s sh t th default_conn_meta.

Definition involvesNode (c : connection) (nodeId : string) : bool :=
  (source c =s nodeId) || (target c =s nodeId).

(** What a serialized connection holds; [id] and [meta] may be missing. *)
Record connection_json := ConnectionJson {
  cj_id : option string;
  cj_source : string;
  cj_sourceHandle : string;
  cj_target : string;
  cj_targetHandle : string;
  cj_meta : option jsobj;
}.

(** [Connection.prototype.toJSON] *)
Definition connection_toJSON (c : connection) : connection_json :=
  ConnectionJson (Some (conn_id c)) (source c) (sourceHandle c) (target c) (targetHandle c)
    (Some (conn_meta c)).

(** [Connection.fromJSON]; an empty id is falsy and keeps the generated one. *)
Definition connection_fromJSON (d : connection_json) : connection :=
  let c := new_connection (cj_source d) (cj_sourceHandle d) (cj_target d) (cj_targetHandle d) in
  Connection
    (match cj_id d with
     | Some i => if i =s "" then conn_id c else i
     | None => conn_id c
     end)
    (source c) (sourceHandle c) (target c) (targetHandle c)
    (match cj_meta d with
     | Some m => ospread (conn_meta c) m
     | None => conn_meta c
     end).

(** ** Splitting an id back into its end points *)

(** [s] before and after the first occurrence of the character [c]. *)
Fixpoint cut_at (c : ascii) (s : string) : option (string * string) :=
  match s with
  | EmptyString => None
  | String d s =>
      if bool_decide (c = d) then Some (EmptyString, s)
      else prod_map (String d) id <$> cut_at c s
  end.

Definition lacks (c : ascii) (s : string) : bool :=
  if cut_at c s is Some _ then false else true.

Lemma cut_at_app c s t : lacks c s = true → cut_at c (s +:+ String c t) = Some (s, t).
Proof.
  unfold lacks. induction s as [|d s IH]; simpl.
  - by rewrite bool_decide_true.
  - case_bool_decide; [done|]. destruct (cut_at c s) as [[]|]; [done|].
    intros _. by rewrite IH.
Qed.

Lemma generateId_cons s sh t th :
  generateId s sh t th =
    s +:+ String ":" (sh +:+ String "=" (String ">" (t +:+ String ":" th))).
Proof. done. Qed.

(** End points without the separators are recovered from the id, so different
    end points give different ids. *)
Lemma generateId_inj s sh t th s' sh' t' th' :
  lacks ":" s = true → lacks ":" s' = true →
  lacks "=" sh = true → lacks "=" sh' = true →
  lacks ":" t = true → lacks ":" t' = true →
  generateId s sh t th = generateId s' sh' t' th' →
  s = s' ∧ sh = sh' ∧ t = t' ∧ th = th'.
Proof.
  intros Hs Hs' Hsh Hsh' Ht Ht' H. rewrite !generateId_cons in H.
  apply (f_equal (cut_at ":")) in H. rewrite (cut_at_app ":" s), (cut_at_app ":" s') in H by done.
  injection H as -> H. apply (f_equal (cut_at "=")) in H.
  rewrite (cut_at_app "=" sh), (cut_at_app "=" sh') in H by done.
  injection H as -> H. apply (f_equal (cut_at ":")) in H.
  rewrite (cut_at_app ":" t), (cut_at_app ":" t') in H by done.
  by injection H as -> ->.
Qed.
