(* ===== verification/Control.v ===== *)
(** * Controls (core/control.js)

    The configurable parameters of a node.  A control is the record of the
    fields of the base class plus, in [ctl_kind], the fields of the subclass.
    Constructors take the [options] object as the program does. *)

From S2P Require Import Prelude JsMap JsValue JsNumber.

Inductive control_kind :=
| BaseKind
| TextKind (placeholder multiline : jsval)
| SelectKind (options : jsval)
| KeyValueKind (keyPlaceholder valuePlaceholder : jsval) (nextId : num)
| NumberKind (min max step : jsval)
| CheckboxKind
| CodeKind (language height placeholder : jsval)
| AuthKind
| BodyTypeKind
| QueryParamsKind (nextId : num).

Record control := Control {
  ctl_key : string;
  ctl_type : string;
  ctl_label : jsval;
  ctl_value : jsval;
  ctl_suggestions : list jsval;
  ctl_valueSuggestions : list jsval;
  ctl_expressionSuggestions : list jsval;
  ctl_suggestionsByKey : jsval;
  ctl_section : jsval;
  ctl_visibleWhen : jsval;
  ctl_kind : control_kind;
}.

(** Field updates. *)
Definition with_value (c : control) (v : jsval) : control :=
  Control (ctl_key c) (ctl_type c) (ctl_label c) v (ctl_suggestions c)
    (ctl_valueSuggestions c) (ctl_expressionSuggestions c) (ctl_suggestionsByKey c)
    (ctl_section c) (ctl_visibleWhen c) (ctl_kind c).

Definition with_kind (c : control) (ty : string) (k : control_kind) : control :=
  Control (ctl_key c) ty (ctl_label c) (ctl_value c) (ctl_suggestions c)
    (ctl_valueSuggestions c) (ctl_expressionSuggestions c) (ctl_suggestionsByKey c)
    (ctl_section c) (ctl_visibleWhen c) k.

(** ** The base class *)

(** [new Control(key, options)] *)
Definition Control_new (key : string) (options : jsobj) : control :=
  Control key "base"
    (js_or (oprop options "label") (JStr key))
    (match oprop options "default" with JUndef => JNull | v => v end)
    (as_array (oprop options "suggestions"))
    (as_array (oprop options "valueSuggestions"))
    (as_array (oprop options "expressionSuggestions"))
    (let m := oprop options "suggestionsByKey" in
     if truthy m && (js_typeof m =s "object") then m else JNull)
    JUndef JUndef BaseKind.

Definition setValue (c : control) (v : jsval) : control := with_value c v.
Definition getValue (c : control) : jsval := ctl_value c.

(** [Control.prototype.toJSON] *)
Definition control_toJSON (c : control) : jsobj :=
  [("key", JStr (ctl_key c)); ("type", JStr (ctl_type c)); ("value", ctl_value c)].

(** [Control.prototype.fromJSON] *)
Definition control_fromJSON (c : control) (data : jsobj) : control :=
  match oprop data "value" with
  | JUndef => c
  | v => with_value c v
  end.

(** ** Subclasses *)

Definition TextInputControl_new (key : string) (options : jsobj) : control :=
  with_kind (Control_new key options) "text"
    (TextKind (js_or (oprop options "placeholder") (JStr ""))
       (js_or (oprop options "multiline") (JBool false))).

(** The default is the first option when none is given. *)
Definition SelectControl_new (key : string) (options : jsobj) : control :=
  let opts := js_or (oprop options "options") (JArr []) in
  let c := with_kind (Control_new key options) "select" (SelectKind opts) in
  match ctl_value c, opts with
  | JNull, JArr (o :: _) => with_value c (prop o "value")
  | _, _ => c
  end.

(** [p.id || 0]: a row id is a number when it is there at all. *)
Definition row_id (p : jsval) : num :=
  match prop p "id" with JNum n => n | _ => 0%Qc end.

(** [rows.reduce((max, p) => Math.max(max, p.id || 0), 0)] *)
Definition max_row_id (rows : list jsval) : num :=
  foldl (λ m p, num_max m (row_id p)) 0%Qc rows.

(** The [map] that gives the rows without an id the next free one; [mk] builds
    the row, the counter is [this._nextId]. *)
Fixpoint assign_ids (mk : num → jsval → jsval) (next : num) (rows : list jsval)
    : list jsval * num :=
  match rows with
  | [] => ([], next)
  | p :: rows =>
      if bool_decide (row_id p = 0%Qc)
      then let '(rows', next') := assign_ids mk (next + 1)%Qc rows in (mk next p :: rows', next')
      else let '(rows', next') := assign_ids mk next rows in (mk (row_id p) p :: rows', next')
  end.

(** [{ id, key: p.key || '', value: p.value || '' }] *)
Definition kv_row (i : num) (p : jsval) : jsval :=
  JObj [("id", JNum i); ("key", js_or (prop p "key") (JStr ""));
        ("value", js_or (prop p "value") (JStr ""))].

Definition empty_kv_row (i : num) : jsval :=
  JObj [("id", JNum i); ("key", JStr ""); ("value", JStr "")].

Definition KeyValueControl_new (key : string) (options : jsobj) : control :=
  let kp := js_or (oprop options "keyPlaceholder") (JStr "Key") in
  let vp := js_or (oprop options "valuePlaceholder") (JStr "Value") in
  let c := Control_new key options in
  match ctl_value c with
  | JArr rows =>
      let '(rows', next) := assign_ids kv_row (max_row_id rows + 1)%Qc rows in
      with_kind (with_value c (JArr rows')) "keyvalue" (KeyValueKind kp vp next)
  | _ =>
      with_kind (with_value c (JArr [empty_kv_row 1%Qc])) "keyvalue"
        (KeyValueKind kp vp (1 + 1)%Qc)
  end.

(** [this._nextId] of the controls that have one. *)
Definition nextId (c : control) : num :=
  match ctl_kind c with
  | KeyValueKind _ _ n | QueryParamsKind n => n
  | _ => 0%Qc
  end.

Definition with_nextId (c : control) (n : num) : control :=
  with_kind c (ctl_type c)
    (match ctl_kind c with
     | KeyValueKind kp vp _ => KeyValueKind kp vp n
     | QueryParamsKind _ => QueryParamsKind n
     | k => k
     end).

(** [KeyValueControl.prototype.addPair], on an array value. *)
Definition addPair (c : control) : control :=
  match ctl_value c with
  | JArr rows => with_nextId (with_value c (JArr (rows ++ [empty_kv_row (nextId c)]))) (nextId c + 1)%Qc
  | _ => c
  end.

(** [removePair(index)]: the last row stays. *)
Definition removePair (c : control) (index : nat) : control :=
  match ctl_value c with
  | JArr rows =>
      if (1 <? length rows)%nat
      then with_value c (JArr (take index rows ++ drop (S index) rows)) else c
  | _ => c
  end.

(** [setPair(index, key, value)] *)
Definition setPair (c : control) (index : nat) (key value : jsval) : control :=
  match ctl_value c with
  | JArr rows =>
      match rows !! index with
      | Some p =>
          if truthy p
          then with_value c
                 (JArr (<[index := JObj (oset "value" value (oset "key" key (entries p)))]> rows))
          else c
      | None => c
      end
  | _ => c
  end.

(** [getPairs]: the rows with a key. *)
Definition getPairs (c : control) : list jsval :=
  bfilter (λ p, truthy (prop p "key")) (as_array (ctl_value c)).

(** [if (this.value === null) this.value = options.default || d] *)
Definition default_if_null (options : jsobj) (d : jsval) (c : control) : control :=
  match ctl_value c with
  | JNull => with_value c (js_or (oprop options "default") d)
  | _ => c
  end.

Definition NumberControl_new (key : string) (options : jsobj) : control :=
  default_if_null options (JInt 0)
    (with_kind (Control_new key options) "number"
       (NumberKind (oprop options "min") (oprop options "max")
          (js_or (oprop options "step") (JInt 1)))).

Definition CheckboxControl_new (key : string) (options : jsobj) : control :=
  default_if_null options (JBool false) (with_kind (Control_new key options) "checkbox" CheckboxKind).

Definition CodeControl_new (key : string) (options : jsobj) : control :=
  default_if_null options (JStr "")
    (with_kind (Control_new key options) "code"
       (CodeKind (js_or (oprop options "language") (JStr "python"))
          (js_or (oprop options "height") (JInt 200))
          (js_or (oprop options "placeholder") (JStr "result = _json")))).

Definition AuthControl_new (key : string) (options : jsobj) : control :=
  let c := with_kind (Control_new key options) "auth" AuthKind in
  match ctl_value c with
  | JNull => with_value c (JObj [("type", JStr "none")])
  | _ => c
  end.

Definition BodyTypeControl_new (key : string) (options : jsobj) : control :=
  let c := with_kind (Control_new key options) "body_type" BodyTypeKind in
  match ctl_value c with
  | JNull => with_value c (JObj [("content_type", JStr "none"); ("body", JStr ""); ("form_data", JArr [])])
  | _ => c
  end.

(** [{ id, key: p.key || '', value: p.value || '', enabled: p.enabled !== false }] *)
Definition query_row (i : num) (p : jsval) : jsval :=
  JObj [("id", JNum i); ("key", js_or (prop p "key") (JStr ""));
        ("value", js_or (prop p "value") (JStr ""));
        ("enabled", JBool (negb (strict_eq (prop p "enabled") (JBool false))))].

Definition QueryParamsControl_new (key : string) (options : jsobj) : control :=
  let c := Control_new key options in
  match ctl_value c with
  | JArr rows =>
      let '(rows', next) := assign_ids query_row (max_row_id rows + 1)%Qc rows in
      with_kind (with_value c (JArr rows')) "query_params" (QueryParamsKind next)
  | _ =>
      with_kind
        (with_value c (JArr [JObj [("id", JNum 1%Qc); ("key", JStr ""); ("value", JStr "");
                                   ("enabled", JBool true)]]))
        "query_params" (QueryParamsKind (1 + 1)%Qc)
  end.

Definition ControlRegistry : list (string * (string → jsobj → control)) :=
  [("text", TextInputControl_new); ("select", SelectControl_new);
   ("keyvalue", KeyValueControl_new); ("number", NumberControl_new);
   ("checkbox", CheckboxControl_new); ("code", CodeControl_new);
   ("auth", AuthControl_new); ("body_type", BodyTypeControl_new);
   ("query_params", QueryParamsControl_new)].

(** ** Row identity

    The table editor keys its rows by [id]; the ids handed out must not clash. *)

Definition row_ids (c : control) : list num := row_id <$> as_array (ctl_value c).

Definition rows_distinct (c : control) : Prop :=
  is_array (ctl_value c) = true ∧ Forall (λ p, is_plain_object p = true) (as_array (ctl_value c)) ∧
  NoDup (row_ids c) ∧ (∀ i, i ∈ row_ids c → (i < nextId c)%Qc) ∧
  (∃ kp vp n, ctl_kind c = KeyValueKind kp vp n).

Lemma max_row_id_ge p rows : p ∈ rows → (row_id p ≤ max_row_id rows)%Qc.
Proof. apply foldl_max_spec. Qed.

(** The ids the rows came with, zero meaning "none". *)
Definition given_ids (rows : list jsval) : list num :=
  bfilter (λ i, negb (bool_decide (i = 0%Qc))) (row_id <$> rows).

Section assign.
Context (mk : num → jsval → jsval) (Hmk : ∀ i p, row_id (mk i p) = i).

(** Rows keep the id they had or get one at or above [next]. *)
Lemma assign_ids_objects next rows (Hobj : ∀ i p, is_plain_object (mk i p) = true) :
  Forall (λ p, is_plain_object p = true) (assign_ids mk next rows).1.
Proof using Type.
  revert next. induction rows as [|p rows IH]; intros next; simpl; [constructor|].
  specialize (IH (if bool_decide (row_id p = 0%Qc) then next + 1 else next)%Qc).
  case_bool_decide; destruct (assign_ids mk _ rows); by constructor.
Qed.

Lemma assign_ids_spec next rows rows' next' :
  assign_ids mk next rows = (rows', next') →
  (∀ i, i ∈ given_ids rows → (i < next)%Qc) → NoDup (given_ids rows) →
  (next ≤ next')%Qc ∧ NoDup (row_id <$> rows') ∧
  (∀ i, i ∈ row_id <$> rows' →
     (i ∈ given_ids rows ∧ (i < next)%Qc) ∨ ((next ≤ i)%Qc ∧ (i < next')%Qc)).
Proof using Hmk.
  revert next rows' next'. induction rows as [|p rows IH]; intros next rows' next'; simpl.
  { intros [= <- <-] _ _. split_and!; [qc_lra|constructor|]. by intros ? ?%not_elem_of_nil. }
  unfold given_ids. csimpl. intros E Hlt Hnd. case_bool_decide as H0; simpl in *.
  - destruct (assign_ids mk (next + 1)%Qc rows) as [r n] eqn:Er. injection E as <- <-.
    destruct (IH _ _ _ Er) as (Hle & Hd & Hr);
      [intros i Hi; specialize (Hlt i Hi); qc_lra|done|].
    split_and!; [qc_lra| |]; csimpl; rewrite Hmk.
    + constructor; [|done]. intros Hin. destruct (Hr _ Hin) as [[Hg _]|[? _]]; [|qc_lra].
      specialize (Hlt _ Hg). qc_lra.
    + intros i [->|Hi]%elem_of_cons; [right; split; qc_lra|].
      destruct (Hr i Hi) as [[Hg _]|[??]]; [left; split; [done|by apply Hlt]|right; split; qc_lra].
  - destruct (assign_ids mk next rows) as [r n] eqn:Er. injection E as <- <-.
    apply NoDup_cons in Hnd as [Hn Hnd].
    destruct (IH _ _ _ Er) as (Hle & Hd & Hr);
      [intros i Hi; apply Hlt; by right|done|].
    assert (row_id p < next)%Qc by (apply Hlt; left).
    split_and!; [done| |]; csimpl; rewrite Hmk.
    + constructor; [|done]. intros Hin. destruct (Hr _ Hin) as [[Hg _]|[? _]]; [done|qc_lra].
    + intros i [->|Hi]%elem_of_cons; [left; split; [left|done]|].
      destruct (Hr i Hi) as [[Hg ?]|?]; [left; split; [by right|done]|by right].
Qed.
End assign.

Lemma row_id_empty i : row_id (empty_kv_row i) = i.
Proof. done. Qed.

Lemma row_id_kv_row i p : row_id (kv_row i p) = i.
Proof. done. Qed.

Lemma KeyValueControl_new_distinct key options :
  NoDup (given_ids (as_array (oprop options "default"))) →
  rows_distinct (KeyValueControl_new key options).
Proof.
  intros Hd. unfold rows_distinct, row_ids, KeyValueControl_new, nextId.
  destruct (ctl_value (Control_new key options)) as [| | | | |rows|] eqn:E; cbn.
  6: {
    assert (oprop options "default" = JArr rows) as Hrows.
    { cbn in E. by destruct (oprop options "default"). }
    rewrite Hrows in Hd. simpl in Hd.
    destruct (assign_ids kv_row (max_row_id rows + 1)%Qc rows) as [r n] eqn:Er.
    destruct (assign_ids_spec kv_row row_id_kv_row _ _ _ _ Er) as (Hle & Hnd & Hr); [|done|].
    { intros i [Hi _]%elem_of_bfilter. apply list_elem_of_fmap in Hi as (p & -> & Hp).
      apply max_row_id_ge in Hp. qc_lra. }
    cbn. split_and!; [done| |done| |by eauto].
    { generalize (assign_ids_objects kv_row (max_row_id rows + 1)%Qc rows). rewrite Er. eauto. }
    intros i Hi. destruct (Hr i Hi) as [[_ ?]|[_ ?]]; qc_lra. }
  all: split_and!; [done|by repeat constructor|apply NoDup_singleton| |by eauto];
    intros i [-> | []%not_elem_of_nil]%elem_of_cons; by apply Qclt_alt.
Qed.

(** The edits of the table. *)
Inductive kv_edit :=
| AddPair
| RemovePair (index : nat)
| SetPair (index : nat) (key value : jsval).

Definition kv_apply (c : control) (e : kv_edit) : control :=
  match e with
  | AddPair => addPair c
  | RemovePair i => removePair c i
  | SetPair i k v => setPair c i k v
  end.

Lemma addPair_distinct c : rows_distinct c → rows_distinct (addPair c).
Proof.
  intros (Ha & Ho & Hd & Hlt & kp & vp & n & Hk). unfold addPair.
  destruct (ctl_value c) as [| | | | |rows|] eqn:E; try done.
  unfold rows_distinct, row_ids, with_nextId, nextId in *. rewrite E in *. cbn -[Qcplus] in *.
  rewrite Hk in *. split_and!; [done| | | |by eauto].
  - apply Forall_app. split; [done|by repeat constructor].
  - rewrite fmap_app. apply NoDup_app. split_and!; [done| |apply NoDup_singleton].
    intros i Hi [->|[]%not_elem_of_nil]%elem_of_cons. specialize (Hlt _ Hi). rewrite row_id_empty in Hlt. qc_lra.
  - intros i. rewrite fmap_app, elem_of_app.
    intros [Hi|[->|[]%not_elem_of_nil]%elem_of_cons]; [|rewrite row_id_empty; qc_lra]. specialize (Hlt _ Hi). qc_lra.
Qed.

(** Edits that keep the rows objects and their ids among the old ones. *)
Lemma rows_distinct_sub c rows rows' :
  ctl_value c = JArr rows → rows_distinct c →
  Forall (λ p, is_plain_object p = true) rows' →
  sublist (row_id <$> rows') (row_id <$> rows) →
  rows_distinct (with_value c (JArr rows')).
Proof.
  intros E (Ha & Ho & Hd & Hlt & Hk) Ho' Hsub. unfold rows_distinct, row_ids in *.
  rewrite E in *. cbn in *. split_and!; [done|done| | |done].
  - by eapply sublist_NoDup.
  - intros i Hi. apply Hlt. by eapply elem_of_sublist.
Qed.

Lemma removePair_distinct c i : rows_distinct c → rows_distinct (removePair c i).
Proof.
  intros H. unfold removePair. destruct (ctl_value c) as [| | | | |rows|] eqn:E; try done.
  case_match; [|done]. eapply rows_distinct_sub; [done..| |].
  - destruct H as (_ & Ho & _). rewrite E in Ho. simpl in Ho.
    apply Forall_app. split; [by apply Forall_take|by apply Forall_drop].
  - apply fmap_sublist. rewrite <- (take_drop i rows) at 3. apply sublist_app; [done|].
    rewrite <- Nat.add_1_r, <- (drop_drop rows 1 i). apply sublist_drop.
Qed.

Lemma row_id_set_key_value k v (o : jsobj) :
  row_id (JObj (oset "value" v (oset "key" k o))) = row_id (JObj o).
Proof. unfold row_id. cbn. by rewrite !jget_oset_ne by done. Qed.

Lemma setPair_distinct c i k v : rows_distinct c → rows_distinct (setPair c i k v).
Proof.
  intros H. unfold setPair. destruct (ctl_value c) as [| | | | |rows|] eqn:E; try done.
  destruct (rows !! i) as [p|] eqn:Ei; [|done]. case_match; [|done].
  pose proof H as (_ & Ho & _). rewrite E in Ho. simpl in Ho.
  pose proof (Forall_lookup_1 _ _ _ _ Ho Ei) as Hp. destruct p as [| | | | | |o]; try done.
  eapply rows_distinct_sub; [done..|by apply Forall_insert|].
  rewrite list_fmap_insert, row_id_set_key_value.
  by rewrite list_insert_id by (rewrite list_lookup_fmap, Ei; done).
Qed.

Lemma kv_apply_distinct c e : rows_distinct c → rows_distinct (kv_apply c e).
Proof. destruct e; eauto using addPair_distinct, removePair_distinct, setPair_distinct. Qed.

Lemma kv_edits_distinct c es : rows_distinct c → rows_distinct (foldl kv_apply c es).
Proof. revert c. induction es; simpl; eauto using kv_apply_distinct. Qed.

(** ** Properties *)

(** the rows of a key-value table keep distinct ids through any sequence of
    added, removed and changed rows, and the next id is always a new one, when
    the ids that the default rows bring are distinct. *)
Theorem rows_stay_distinct key options es :
  NoDup (given_ids (as_array (oprop options "default"))) →
  rows_distinct (foldl kv_apply (KeyValueControl_new key options) es).
Proof. intros Hd. by apply kv_edits_distinct, KeyValueControl_new_distinct. Qed.

Definition two_rows : jsobj :=
  [("default", JArr [JObj [("key", JStr "a")]; JObj [("id", JInt 1); ("key", JStr "b")]])].

Lemma rows_stay_distinct_witness :
  let c := foldl kv_apply (KeyValueControl_new "headers" two_rows) [AddPair; RemovePair 0; AddPair] in
  row_ids c = num_of_Z <$> [1; 3; 4]%Z ∧ rows_distinct c.
Proof.
  split; [vm_compute; reflexivity|].
  apply (rows_stay_distinct "headers" two_rows [AddPair; RemovePair 0; AddPair]).
  vm_compute. repeat constructor. set_solver.
Defined.
