(* ===== verification/Node.v ===== *)
(** * Nodes (core/node.js, and the node class of utils/dynamic_node_factory.js)

    A node instance, its sockets and controls, its configuration and its
    serialized form.  [BaseNode] and the [DynamicNode] subclass generated for
    the backend's node types differ in [getConfig]/[setConfig]: a [DynamicNode]
    also carries values that have no control ([_hiddenDefaults]).  The field
    [hiddenDefaults] is [None] for an instance of [BaseNode], and the two
    methods dispatch on it. *)

From S2P Require Import Prelude JsMap JsValue Socket Control.

(** An entry of [inputs] or [outputs]. *)
Record port := Port {
  port_key : string;
  port_socket : socket;
  port_label : jsval;
  port_multiple : jsval;
}.

Record node := Node {
  node_id : option string;
  node_type : string;
  node_label : string;
  node_icon : string;
  node_category : string;
  node_position : position;
  inputs : list (string * port);
  outputs : list (string * port);
  controls : list (string * control);
  node_meta : jsobj;
  hiddenDefaults : option jsobj;
}.

(** A node class: the static properties and what the constructor builds. *)
Record node_class := NodeClass {
  nc_nodeType : string;
  nc_label : string;
  nc_icon : string;
  nc_category : string;
  nc_description : string;
  nc_group : string;
  nc_new : node;
}.

(** Field updates. *)
Definition with_id (n : node) (i : option string) : node :=
  Node i (node_type n) (node_label n) (node_icon n) (node_category n) (node_position n)
    (inputs n) (outputs n) (controls n) (node_meta n) (hiddenDefaults n).
Definition with_label (n : node) (l : string) : node :=
  Node (node_id n) (node_type n) l (node_icon n) (node_category n) (node_position n)
    (inputs n) (outputs n) (controls n) (node_meta n) (hiddenDefaults n).
Definition with_position (n : node) (p : position) : node :=
  Node (node_id n) (node_type n) (node_label n) (node_icon n) (node_category n) p
    (inputs n) (outputs n) (controls n) (node_meta n) (hiddenDefaults n).
Definition with_inputs (n : node) (m : list (string * port)) : node :=
  Node (node_id n) (node_type n) (node_label n) (node_icon n) (node_category n) (node_position n)
    m (outputs n) (controls n) (node_meta n) (hiddenDefaults n).
Definition with_outputs (n : node) (m : list (string * port)) : node :=
  Node (node_id n) (node_type n) (node_label n) (node_icon n) (node_category n) (node_position n)
    (inputs n) m (controls n) (node_meta n) (hiddenDefaults n).
Definition with_controls (n : node) (m : list (string * control)) : node :=
  Node (node_id n) (node_type n) (node_label n) (node_icon n) (node_category n) (node_position n)
    (inputs n) (outputs n) m (node_meta n) (hiddenDefaults n).
Definition with_meta (n : node) (m : jsobj) : node :=
  Node (node_id n) (node_type n) (node_label n) (node_icon n) (node_category n) (node_position n)
    (inputs n) (outputs n) (controls n) m (hiddenDefaults n).
Definition with_hidden (n : node) (h : option jsobj) : node :=
  Node (node_id n) (node_type n) (node_label n) (node_icon n) (node_category n) (node_position n)
    (inputs n) (outputs n) (controls n) (node_meta n) h.

(** ** Construction *)

Definition default_meta : jsobj := [("disabled", JBool false); ("notes", JStr "")].

Definition origin : position := Position (num_of_Z 0) (num_of_Z 0).

(** [BaseNode]'s constructor, from the static properties of the class. *)
Definition BaseNode_new (nodeType label icon category : string) : node :=
  Node None nodeType label icon category origin [] [] [] default_meta None.

Definition addInput (n : node) (key : string) (s : socket) (label : jsval) (multiple : jsval) : node :=
  with_inputs n (oset key (Port key s label (js_or multiple (JBool false))) (inputs n)).

Definition addOutput (n : node) (key : string) (s : socket) (label : jsval) : node :=
  with_outputs n (oset key (Port key s label JUndef) (outputs n)).

Definition addControl (n : node) (key : string) (c : control) : node :=
  with_controls n (oset key c (controls n)).

Definition getInputKeys (n : node) : list string := jkeys (inputs n).
Definition getOutputKeys (n : node) : list string := jkeys (outputs n).

(** ** Configuration *)

(** The value of every control, in control order. *)
Definition control_values (n : node) : jsobj := (λ kv, (kv.1, getValue kv.2)) <$> controls n.

(** [BaseNode.prototype.getConfig] *)
Definition BaseNode_getConfig (n : node) : jsobj := ospread [] (control_values n).

(** [BaseNode.prototype.setConfig]: entries without a control are ignored. *)
Definition BaseNode_setConfig (n : node) (config : jsobj) : node :=
  with_controls n
    (foldl (λ cs kv, if jhas kv.1 cs then jalter (λ c, setValue c kv.2) kv.1 cs else cs)
       (controls n) config).

(** The loop of [DynamicNode.prototype.getConfig]. *)
Definition add_hidden (config hidden : jsobj) : jsobj :=
  foldl (λ cfg kv, if jhas kv.1 cfg then cfg else oset kv.1 kv.2 cfg) config hidden.

(** [getConfig], dispatched. *)
Definition getConfig (n : node) : jsobj :=
  match hiddenDefaults n with
  | None => BaseNode_getConfig n
  | Some hidden => add_hidden (BaseNode_getConfig n) hidden
  end.

(** The loop of [DynamicNode.prototype.setConfig]. *)
Definition update_hidden (hidden config : jsobj) : jsobj :=
  (λ kv, (kv.1, match jget kv.1 config with Some v => v | None => kv.2 end)) <$> hidden.

(** [setConfig], dispatched. *)
Definition setConfig (n : node) (config : jsobj) : node :=
  let n' := BaseNode_setConfig n config in
  match hiddenDefaults n with
  | None => n'
  | Some hidden => with_hidden n' (Some (update_hidden hidden config))
  end.

(** [execute] is disabled in the browser. *)
Definition execute (n : node) (inputData : jsval) : outcome jsval :=
  Throw "[BaseNode] Frontend execution is disabled. Use backend runners.".

(** ** Serialization *)

(** A serialized node; every field but the type may be missing. *)
Record node_json := NodeJson {
  nj_id : option string;
  nj_type : string;
  nj_label : option string;
  nj_position : option position;
  nj_config : option jsobj;
  nj_meta : option jsobj;
}.

(** [BaseNode.prototype.toJSON] *)
Definition node_toJSON (n : node) : node_json :=
  NodeJson (node_id n) (node_type n) (Some (node_label n)) (Some (node_position n))
    (Some (getConfig n)) (Some (node_meta n)).

(** [BaseNode.fromJSON] *)
Definition node_fromJSON (data : node_json) (nodeRegistry : list (string * node_class)) : outcome node :=
  match jget (nj_type data) nodeRegistry with
  | None => Throw ("Unknown node type: " +:+ nj_type data)
  | Some cls =>
      let n := nc_new cls in
      let n := with_id n (nj_id data) in
      let n := with_label n (match nj_label data with
                             | Some l => if l =s "" then node_label n else l
                             | None => node_label n
                             end) in
      let n := with_position n (default origin (nj_position data)) in
      let n := with_meta n (ospread (node_meta n) (default [] (nj_meta data))) in
      Ret (match nj_config data with
           | Some c => setConfig n c
           | None => n
           end)
  end.

(** [clone]; [cls] is [this.constructor]. *)
Definition clone (cls : node_class) (n : node) : outcome node :=
  let d := node_toJSON n in
  node_fromJSON (NodeJson None (nj_type d) (nj_label d) (nj_position d) (nj_config d) (nj_meta d))
    [(node_type n, cls)].

(** ** Facts about the configuration *)

(** What [BaseNode.setConfig] leaves in the control under each key. *)
Lemma BaseNode_setConfig_controls n config :
  NoDup (jkeys config) →
  controls (BaseNode_setConfig n config) =
    (λ kv, (kv.1, match jget kv.1 config with Some v => setValue kv.2 v | None => kv.2 end))
      <$> controls n.
Proof.
  unfold BaseNode_setConfig. simpl. generalize (controls n). unfold jkeys.
  induction config as [|[k v] config IH]; intros cs; csimpl.
  { intros _. induction cs as [|[]]; csimpl; congruence. }
  intros [Hn Hd]%NoDup_cons. rewrite IH by done.
  assert (jget k config = None) as Hk by (by apply not_elem_of_jkeys).
  destruct (jhas k cs) eqn:Hhas.
  - unfold jalter. rewrite <- list_fmap_compose. apply list_fmap_ext. intros _ [k1 c] _. csimpl.
    repeat (case_bool_decide; csimpl; subst); try done. by rewrite Hk.
  - apply Forall_fmap_ext_1, Forall_forall. intros [k1 c] Hin. csimpl.
    rewrite bool_decide_false; [done|]. intros ->. unfold jhas in Hhas.
    destruct (jget k cs) eqn:E; [done|]. apply not_elem_of_jkeys in E. apply E.
    by apply (list_elem_of_fmap_2 fst _ (k, c)).
Qed.

Lemma jget_add_hidden k cfg hidden :
  jget k (add_hidden cfg hidden) = if jget k cfg is Some v then Some v else jget k hidden.
Proof.
  unfold add_hidden. revert cfg. induction hidden as [|[k1 v1] h IH]; intros cfg; csimpl.
  { by destruct (jget k cfg). }
  rewrite IH. unfold jhas. destruct (jget k1 cfg) eqn:E1.
  - destruct (jget k cfg) eqn:E; [done|]. case_bool_decide; subst; congruence.
  - rewrite jget_oset. case_bool_decide; [subst; by rewrite E1|done].
Qed.

Lemma obj_ok_add_hidden cfg hidden : obj_ok cfg → obj_ok (add_hidden cfg hidden).
Proof.
  unfold add_hidden. revert cfg. induction hidden as [|[k v] h IH]; intros cfg H; csimpl; [done|].
  apply IH. destruct (jhas k cfg); auto with js.
Qed.

Lemma obj_ok_getConfig n : obj_ok (getConfig n).
Proof.
  unfold getConfig, BaseNode_getConfig.
  destruct (hiddenDefaults n); auto using obj_ok_add_hidden with js.
Qed.

(** The entries of a hidden-default list already in the configuration do not
    matter. *)
Lemma add_hidden_ext cfg h h' :
  jkeys h = jkeys h' → (∀ k, jget k cfg = None → jget k h = jget k h') →
  add_hidden cfg h = add_hidden cfg h'.
Proof.
  unfold add_hidden, jkeys. revert cfg h'.
  induction h as [|[k v] h IH]; intros cfg [|[k' v'] h']; csimpl; try done.
  intros [= <- Hk] H. unfold jhas. destruct (jget k cfg) eqn:E.
  - apply IH; [done|]. intros k1 Hk1. specialize (H k1 Hk1).
    by rewrite bool_decide_false in H by (intros ->; congruence).
  - assert (v = v') as ->. { specialize (H k E). rewrite bool_decide_true in H by done. congruence. }
    apply IH; [done|]. intros k1 Hk1. rewrite jget_oset in Hk1.
    case_bool_decide; [done|]. specialize (H k1 Hk1). by rewrite bool_decide_false in H by done.
Qed.

(** [f] has the same controls and hidden values as [n], up to their values. *)
Definition same_keys (f n : node) : Prop :=
  jkeys (controls f) = jkeys (controls n) ∧
  match hiddenDefaults f, hiddenDefaults n with
  | None, None => True
  | Some hf, Some hn => jkeys hf = jkeys hn
  | _, _ => False
  end.

Lemma jget_getConfig_control n k c :
  obj_ok (controls n) → jget k (controls n) = Some c → jget k (getConfig n) = Some (getValue c).
Proof.
  intros Hok Hc.
  assert (jget k (BaseNode_getConfig n) = Some (getValue c)) as Hb.
  { unfold BaseNode_getConfig, control_values. rewrite ospread_nil_l by auto with js.
    by rewrite jget_map, Hc. }
  unfold getConfig. destruct (hiddenDefaults n); [|done]. by rewrite jget_add_hidden, Hb.
Qed.

Lemma control_values_setConfig f n :
  same_keys f n → obj_ok (controls n) →
  control_values (BaseNode_setConfig f (getConfig n)) = control_values n.
Proof.
  intros [Hk _] Hok. unfold control_values.
  rewrite BaseNode_setConfig_controls by (apply obj_ok_NoDup, obj_ok_getConfig).
  rewrite <- list_fmap_compose. unfold compose. csimpl.
  set (g := λ k c, getValue match jget k (getConfig n) with Some v => setValue c v | None => c end).
  trans ((λ x : string * control, (x.1, g x.1 x.2)) <$> controls f).
  { apply list_fmap_ext. by intros _ [] _. }
  apply jmap_ext; rewrite ?(jkeys_map_key g), ?(jkeys_map getValue).
  - done.
  - rewrite Hk. by apply obj_ok_NoDup.
  - intros k _. rewrite (jget_map getValue), <- (jget_fmap_key g). unfold g.
    destruct (jget k (controls n)) as [c|] eqn:Hc.
    + assert (is_Some (jget k (controls f))) as [c' Hc'].
      { apply elem_of_jkeys. rewrite Hk. apply elem_of_jkeys. by eexists. }
      rewrite Hc'. simpl. by rewrite (jget_getConfig_control _ _ _ Hok Hc).
    + assert (jget k (controls f) = None) as ->; [|done].
      apply not_elem_of_jkeys. rewrite Hk. by apply not_elem_of_jkeys.
Qed.

(** Loading the configuration of [n] into a fresh instance of its class and
    reading it back gives the same object. *)
Lemma getConfig_setConfig f n :
  same_keys f n → obj_ok (controls n) →
  getConfig (setConfig f (getConfig n)) = getConfig n.
Proof.
  intros Hs Hok. pose proof (control_values_setConfig f n Hs Hok) as Hv.
  destruct Hs as [_ Hh]. unfold setConfig.
  destruct (hiddenDefaults f) as [hf|] eqn:Ef, (hiddenDefaults n) as [hn|] eqn:En; try done.
  - assert (getConfig n = add_hidden (ospread [] (control_values n)) hn) as Hcfg.
    { unfold getConfig. by rewrite En. }
    set (cfg := getConfig n) in *.
    trans (add_hidden (ospread [] (control_values n)) (update_hidden hf cfg)).
    { rewrite <- Hv. done. }
    etrans; [|symmetry; exact Hcfg]. apply add_hidden_ext; unfold update_hidden.
    + rewrite <- Hh.
      apply (jkeys_map_key (λ k v, match jget k cfg with Some v => v | None => v end)).
    + intros k Hk.
      rewrite <- (jget_fmap_key (λ k v, match jget k cfg with Some v => v | None => v end)).
      assert (jget k cfg = jget k hn) as -> by (by rewrite Hcfg, jget_add_hidden, Hk).
      destruct (jget k hn) eqn:E.
      * assert (is_Some (jget k hf)) as [v' ->]; [|done].
        apply elem_of_jkeys. rewrite Hh. apply elem_of_jkeys. by eexists.
      * assert (jget k hf = None) as ->; [|done].
        apply not_elem_of_jkeys. rewrite Hh. by apply not_elem_of_jkeys.
  - assert (getConfig n = ospread [] (control_values n)) as Hcfg.
    { unfold getConfig. by rewrite En. }
    set (cfg := getConfig n) in *.
    trans (ospread [] (control_values (BaseNode_setConfig f cfg))); [|by rewrite Hv].
    unfold getConfig. simpl. by rewrite Ef.
Qed.

(** ** Instances of a class *)

(** What the constructors guarantee of a fresh instance. *)
Definition class_ok (cls : node_class) : Prop :=
  obj_ok (controls (nc_new cls)) ∧ node_meta (nc_new cls) = default_meta.

(** [n] was built by the constructor of [cls] and only its id, label,
    position, metadata and control values changed since. *)
Record instance_of (cls : node_class) (n : node) : Prop := {
  io_type : node_type n = node_type (nc_new cls);
  io_icon : node_icon n = node_icon (nc_new cls);
  io_category : node_category n = node_category (nc_new cls);
  io_inputs : inputs n = inputs (nc_new cls);
  io_outputs : outputs n = outputs (nc_new cls);
  io_keys : same_keys (nc_new cls) n;
}.

(** Metadata of a node: after the array indices, if any, come the two keys
    every node has. *)
Definition meta_shape (m : jsobj) : Prop :=
  ∃ idx d s rest,
    m = idx ++ ("disabled", d) :: ("notes", s) :: rest ∧
    Forall (λ kv, is_Some (array_index kv.1)) idx.

Definition meta_ok (m : jsobj) : Prop := obj_ok m ∧ meta_shape m.

Lemma meta_ok_default : meta_ok default_meta.
Proof.
  split; [|by exists [], (JBool false), (JStr ""), []].
  split; apply (bool_decide_unpack _); by vm_compute.
Qed.

Lemma meta_shape_oset k v m : meta_shape m → meta_shape (oset k v m).
Proof.
  intros (idx & d & s & rest & -> & Hidx). induction idx as [|[k1 v1] idx IH]; csimpl.
  - destruct (bool_decide_reflect (k = "disabled")); [by exists [], v, s, rest|].
    destruct (precedes k "disabled") eqn:Hp.
    + exists [(k, v)], d, s, rest. split; [done|]. repeat constructor. csimpl.
      unfold precedes in Hp. by destruct (array_index k).
    + destruct (bool_decide_reflect (k = "notes")); [by exists [], d, v, rest|].
      assert (precedes k "notes" = false) as ->.
      { unfold precedes in *. by destruct (array_index k). }
      by exists [], d, s, (oset k v rest).
  - apply Forall_cons in Hidx as [H1 Hidx].
    destruct (bool_decide_reflect (k = k1)).
    { exists ((k1, v) :: idx), d, s, rest. split; [done|by constructor]. }
    destruct (precedes k k1) eqn:Hp.
    { exists ((k, v) :: (k1, v1) :: idx), d, s, rest. split; [done|]. repeat constructor; try done.
      csimpl. unfold precedes in Hp. by destruct (array_index k). }
    destruct (IH Hidx) as (idx' & d' & s' & rest' & -> & Hi).
    exists ((k1, v1) :: idx'), d', s', rest'. split; [done|by constructor].
Qed.

Lemma meta_ok_oset k v m : meta_ok m → meta_ok (oset k v m).
Proof. intros []. split; auto using meta_shape_oset with js. Qed.

Lemma meta_ok_ospread a b : meta_ok a → meta_ok (ospread a b).
Proof. unfold ospread. revert a. induction b; simpl; eauto using meta_ok_oset. Qed.

Lemma default_meta_spread_idx idx :
  obj_ok idx → Forall (λ kv, is_Some (array_index kv.1)) idx →
  ospread default_meta idx = idx ++ default_meta.
Proof.
  induction idx as [|[k v] idx IH] using rev_ind; [done|].
  intros (Hok & Hn & Hp)%obj_ok_snoc_inv [Hf Hk]%Forall_app.
  rewrite ospread_snoc, IH by done. rewrite oset_app_skip by done. simpl.
  apply Forall_singleton in Hk as [i Hk]. csimpl in Hk.
  rewrite bool_decide_false by (by intros ->).
  assert (precedes k "disabled" = true) as ->; [unfold precedes; by rewrite Hk|].
  by rewrite <- app_assoc.
Qed.

(** Metadata spread over the defaults of a fresh node is unchanged. *)
Lemma default_meta_spread m : meta_ok m → ospread default_meta m = m.
Proof.
  intros [Hok (idx & d & s & rest & -> & Hidx)].
  induction rest as [|[k v] rest IH] using rev_ind.
  - change (("disabled", d) :: ("notes", s) :: []) with ([("disabled", d)] ++ [("notes", s)]) in *.
    rewrite app_assoc in Hok |- *. apply obj_ok_snoc_inv in Hok as (Hok & Hn & Hp).
    pose proof (obj_ok_snoc_inv _ _ _ Hok) as (Hok' & Hn' & Hp').
    rewrite !ospread_snoc, default_meta_spread_idx by done.
    rewrite oset_app_skip by done. change (oset "disabled" d default_meta)
      with ([("disabled", d)] ++ [("notes", JStr "")]).
    by rewrite app_assoc, oset_app_skip by done.
  - change (("disabled", d) :: ("notes", s) :: rest ++ [(k, v)])
      with ((("disabled", d) :: ("notes", s) :: rest) ++ [(k, v)]) in *.
    rewrite app_assoc in Hok |- *. apply obj_ok_snoc_inv in Hok as (Hok & Hn & Hp).
    rewrite ospread_snoc, IH by done. by apply oset_snoc.
Qed.

Lemma same_keys_setConfig f n cfg : same_keys f n → same_keys f (setConfig n cfg).
Proof.
  intros [Hk Hh]. unfold setConfig, same_keys in *.
  assert (jkeys (controls (BaseNode_setConfig n cfg)) = jkeys (controls n)) as Hc.
  { unfold BaseNode_setConfig. simpl. generalize (controls n).
    induction cfg as [|[k v] cfg IH]; intros cs; csimpl; [done|].
    rewrite IH. destruct (jhas k cs); [apply jkeys_jalter|done]. }
  destruct (hiddenDefaults n) as [hn|] eqn:En.
  - split; [etrans; [exact Hk|symmetry; exact Hc]|]. simpl.
    destruct (hiddenDefaults f); [|done]. unfold update_hidden.
    by rewrite (jkeys_map_key (λ k v, match jget k cfg with Some v => v | None => v end)).
  - split; [etrans; [exact Hk|symmetry; exact Hc]|]. simpl. by rewrite En.
Qed.

Lemma instance_of_setConfig cls n cfg : instance_of cls n → instance_of cls (setConfig n cfg).
Proof.
  intros []. unfold setConfig. split; try (by destruct (hiddenDefaults n)).
  by apply same_keys_setConfig.
Qed.

Lemma instance_of_fresh cls : instance_of cls (nc_new cls).
Proof. split; try done. split; [done|]. by destruct (hiddenDefaults _). Qed.

Lemma instance_of_eqv cls n n' :
  instance_of cls n →
  node_type n' = node_type n → node_icon n' = node_icon n → node_category n' = node_category n →
  inputs n' = inputs n → outputs n' = outputs n → controls n' = controls n →
  hiddenDefaults n' = hiddenDefaults n → instance_of cls n'.
Proof.
  intros [????? Hk] ????? Hc Hh. split; try congruence.
  unfold same_keys in *. by rewrite Hc, Hh.
Qed.

Lemma obj_ok_instance cls n : class_ok cls → instance_of cls n → obj_ok (controls n).
Proof. intros [Hok _] [_ _ _ _ _ [Hk _]]. unfold obj_ok in *. by rewrite <- Hk. Qed.

(** Reading back what [toJSON] wrote gives a node that serializes the same. *)
Lemma node_roundtrip n cls reg :
  jget (node_type n) reg = Some cls → class_ok cls → instance_of cls n →
  meta_ok (node_meta n) → node_label n ≠ "" →
  ∃ n', node_fromJSON (node_toJSON n) reg = Ret n' ∧ node_toJSON n' = node_toJSON n ∧
    instance_of cls n' ∧ node_id n' = node_id n ∧ node_type n' = node_type n ∧
    node_label n' = node_label n ∧ node_meta n' = node_meta n.
Proof.
  intros Hreg Hcls Hi Hm Hl. unfold node_fromJSON. simpl. rewrite Hreg.
  rewrite bool_decide_false by done. eexists. split; [done|].
  pose proof Hcls as [Hok Hmeta]. rewrite Hmeta, default_meta_spread by done.
  set (f := with_meta _ _).
  assert (instance_of cls f) as Hf by (eapply instance_of_eqv; [apply instance_of_fresh|done..]).
  assert (same_keys f n) as Hsk by (apply Hi).
  assert (∀ {A} (g : node → A), (∀ x c, g (with_controls x c) = g x) →
            (∀ x h, g (with_hidden x h) = g x) → g (setConfig f (getConfig n)) = g f) as Hg.
  { intros A g Hc Hh. unfold setConfig, BaseNode_setConfig.
    destruct (hiddenDefaults f); by rewrite ?Hh, Hc. }
  assert (node_type f = node_type n) as Ht by (symmetry; apply Hi).
  pose proof (Hg _ node_id ltac:(done) ltac:(done)) as Eid.
  pose proof (Hg _ node_type ltac:(done) ltac:(done)) as Ety.
  pose proof (Hg _ node_label ltac:(done) ltac:(done)) as Elb.
  pose proof (Hg _ node_position ltac:(done) ltac:(done)) as Epos.
  pose proof (Hg _ node_meta ltac:(done) ltac:(done)) as Emt.
  split_and!; [|by apply instance_of_setConfig|by rewrite Eid|by rewrite Ety|by rewrite Elb|by rewrite Emt].
  unfold node_toJSON. rewrite Eid, Ety, Elb, Epos, Emt, Ht.
  by rewrite getConfig_setConfig by (done || by eapply obj_ok_instance).
Qed.
