(* ===== verification/Editor.v ===== *)
(** * The graph manager (core/editor.js)

    [WorkflowEditor] owns the node table, the connections, the id counter and
    the event subscriptions.  Every operation is a function from the editor to
    the editor after the call, the value it returns, and the list of callback
    invocations it made, each with the editor as the callback saw it: the
    callbacks run synchronously in the middle of an operation, and the adapter
    reads the graph back at that moment. *)

From S2P Require Import Prelude JsMap JsValue Socket Connection Control Node.

Record editor := Editor {
  nodes : list (string * node);            (* Map<nodeId, BaseNode> *)
  connections : list connection;
  nodeRegistry : list (string * node_class);
  idCounter : N;
  callbacks : list (string * list nat);    (* event name -> subscribed callbacks *)
}.

(** Field updates. *)
Definition with_nodes (e : editor) (ns : list (string * node)) : editor :=
  Editor ns (connections e) (nodeRegistry e) (idCounter e) (callbacks e).
Definition with_connections (e : editor) (cs : list connection) : editor :=
  Editor (nodes e) cs (nodeRegistry e) (idCounter e) (callbacks e).
Definition with_registry (e : editor) (r : list (string * node_class)) : editor :=
  Editor (nodes e) (connections e) r (idCounter e) (callbacks e).
Definition with_counter (e : editor) (i : N) : editor :=
  Editor (nodes e) (connections e) (nodeRegistry e) i (callbacks e).
Definition with_callbacks (e : editor) (c : list (string * list nat)) : editor :=
  Editor (nodes e) (connections e) (nodeRegistry e) (idCounter e) c.

Definition new_editor (registry : list (string * node_class)) : editor :=
  Editor [] [] registry 0
    [("onNodeAdd", []); ("onNodeRemove", []); ("onNodeMove", []);
     ("onConnectionAdd", []); ("onConnectionRemove", []); ("onChange", [])].

(** ** Events *)

(** What a callback receives; [PChange] is the [{ event, data }] of [onChange]. *)
Inductive payload :=
| PNode (n : node)
| PMove (n : node) (p : position)
| PConnection (c : connection)
| PMeta (nodeId : string) (meta : jsobj)
| PLabel (nodeId label : string)
| PChange (event : string) (data : option payload).

Record invocation := Invocation {
  inv_callback : nat;
  inv_payload : payload;
  inv_editor : editor;
}.

(** [on] registers under a known event only; the result of the program's call,
    the function that unsubscribes, is [off] at the same arguments. *)
Definition on (e : editor) (event : string) (cb : nat) : editor :=
  match jget event (callbacks e) with
  | Some cbs => with_callbacks e (jalter (λ cbs, cbs ++ [cb]) event (callbacks e))
  | None => e
  end.

Definition off (e : editor) (event : string) (cb : nat) : editor :=
  match jget event (callbacks e) with
  | Some cbs =>
      with_callbacks e (jalter (bfilter (λ c, negb (Nat.eqb c cb))) event (callbacks e))
  | None => e
  end.

(** [_emit(event, data)]: the subscribers of the event, then those of [onChange]. *)
Definition emit (e : editor) (event : string) (data : payload) : list invocation :=
  ((λ cb, Invocation cb data e) <$> default [] (jget event (callbacks e))) ++
  (if event =s "onChange" then []
   else (λ cb, Invocation cb (PChange event (Some data)) e)
          <$> default [] (jget "onChange" (callbacks e))).

(** ** Nodes *)

(** [_generateId]: [`n_${++this._idCounter}`] *)
Definition fresh_id (i : N) : string := "n_" +:+ pretty i.

Definition generate_id (e : editor) : editor * string :=
  (with_counter e (idCounter e + 1), fresh_id (idCounter e + 1)).

(** [addNode(nodeOrClass, position)]; a class is instantiated first. *)
Definition addNode (e : editor) (nodeOrClass : node_class + node) (pos : position)
    : editor * node * list invocation :=
  let n := match nodeOrClass with inl cls => nc_new cls | inr n => n end in
  let '(e, i) :=
    match node_id n with
    | Some i => if i =s "" then generate_id e else (e, i)
    | None => generate_id e
    end in
  let n := with_position (with_id n (Some i)) pos in
  let e := with_nodes e (mset i n (nodes e)) in
  (e, n, emit e "onNodeAdd" (PNode n)).

(** [removeNode(nodeId)] *)
Definition removeNode (e : editor) (nodeId : string) : editor * bool * list invocation :=
  match jget nodeId (nodes e) with
  | None => (e, false, [])
  | Some n =>
      let removed := bfilter (λ c, involvesNode c nodeId) (connections e) in
      let e1 := with_connections e (bfilter (λ c, negb (involvesNode c nodeId)) (connections e)) in
      let tr := removed ≫= λ c, emit e1 "onConnectionRemove" (PConnection c) in
      let e2 := with_nodes e1 (jdel nodeId (nodes e1)) in
      (e2, true, tr ++ emit e2 "onNodeRemove" (PNode n))
  end.

(** [updateNodePosition(nodeId, position)] *)
Definition updateNodePosition (e : editor) (nodeId : string) (pos : position)
    : editor * bool * list invocation :=
  match jget nodeId (nodes e) with
  | None => (e, false, [])
  | Some n =>
      let e' := with_nodes e (jalter (λ n, with_position n pos) nodeId (nodes e)) in
      (e', true, emit e' "onNodeMove" (PMove (with_position n pos) pos))
  end.

Definition getNodeMeta (e : editor) (nodeId : string) : jsobj :=
  match jget nodeId (nodes e) with
  | Some n => node_meta n
  | None => []
  end.

(** One of the nested maps of [meta.ui], merged when the patch has it. *)
Definition merge_modes (key : string) (prevUi patchUi : jsval) (nextUi : jsobj) : jsobj :=
  if truthy (prop patchUi key)
  then oset key (JObj (ospread (entries (js_or (prop prevUi key) (JObj []))) (entries (prop patchUi key))))
         nextUi
  else nextUi.

(** The metadata [setNodeMeta] computes. *)
Definition merged_meta (prev metaPatch : jsobj) : jsobj :=
  let patchUi := js_or (oprop metaPatch "ui") JNull in
  let m := ospread prev metaPatch in
  if truthy patchUi then
    let prevUi := js_or (oprop prev "ui") (JObj []) in
    let nextUi := ospread (entries prevUi) (entries patchUi) in
    let nextUi := merge_modes "controlModes" prevUi patchUi nextUi in
    let nextUi := merge_modes "pairModes" prevUi patchUi nextUi in
    oset "ui" (JObj nextUi) m
  else m.

(** [setNodeMeta(nodeId, metaPatch)] *)
Definition setNodeMeta (e : editor) (nodeId : string) (metaPatch : jsobj)
    : editor * bool * list invocation :=
  match jget nodeId (nodes e) with
  | None => (e, false, [])
  | Some n =>
      let meta := merged_meta (node_meta n) metaPatch in
      let e' := with_nodes e (jalter (λ n, with_meta n meta) nodeId (nodes e)) in
      (e', true, emit e' "onChange" (PChange "meta" (Some (PMeta nodeId meta))))
  end.

(** [setNodeLabel(nodeId, label)] *)
Definition setNodeLabel (e : editor) (nodeId label : string) : editor * bool * list invocation :=
  match jget nodeId (nodes e) with
  | None => (e, false, [])
  | Some n =>
      let e' := with_nodes e (jalter (λ n, with_label n label) nodeId (nodes e)) in
      (e', true, emit e' "onChange" (PChange "label" (Some (PLabel nodeId label))))
  end.

Definition getNode (e : editor) (nodeId : string) : option node := jget nodeId (nodes e).
Definition getNodes (e : editor) : list node := jvals (nodes e).

(** ** Connections *)

(** [addConnection(...)]: [None] is the [null] of a refused connection. *)
Definition addConnection (e : editor) (sourceId sourceHandle targetId targetHandle : string)
    : editor * option connection * list invocation :=
  match jget sourceId (nodes e), jget targetId (nodes e) with
  | Some source, Some target =>
      match port_socket <$> jget sourceHandle (outputs source),
            port_socket <$> jget targetHandle (inputs target) with
      | Some outSocket, Some inSocket =>
          if negb (isCompatible outSocket (Some inSocket)) then (e, None, [])
          else
            let existingId := generateId sourceId sourceHandle targetId targetHandle in
            if existsb (λ c, conn_id c =s existingId) (connections e) then (e, None, [])
            else if sourceId =s targetId then (e, None, [])
            else
              let c := new_connection sourceId sourceHandle targetId targetHandle in
              let e' := with_connections e (connections e ++ [c]) in
              (e', Some c, emit e' "onConnectionAdd" (PConnection c))
      | _, _ => (e, None, [])
      end
  | _, _ => (e, None, [])
  end.

(** [splice(index, 1)] at the first element that satisfies the test. *)
Fixpoint remove_first {A} (f : A → bool) (l : list A) : list A :=
  match l with
  | [] => []
  | x :: l => if f x then l else x :: remove_first f l
  end.

(** [removeConnection(connectionId)] *)
Definition removeConnection (e : editor) (connectionId : string) : editor * bool * list invocation :=
  match find_first (λ c, conn_id c =s connectionId) (connections e) with
  | None => (e, false, [])
  | Some removed =>
      let e' := with_connections e
                  (remove_first (λ c, conn_id c =s connectionId) (connections e)) in
      (e', true, emit e' "onConnectionRemove" (PConnection removed))
  end.

Definition getNodeConnections (e : editor) (nodeId : string) : list connection :=
  bfilter (λ c, involvesNode c nodeId) (connections e).

Definition getConnections (e : editor) : list connection := connections e.

(** ** Serialization *)

(** A workflow snapshot; either list may be missing. *)
Record workflow_json := WorkflowJson {
  wj_version : string;
  wj_nodes : option (list node_json);
  wj_connections : option (list connection_json);
}.

Definition toJSON (e : editor) : workflow_json :=
  WorkflowJson "1.0" (Some (node_toJSON <$> getNodes e))
    (Some (connection_toJSON <$> connections e)).

Definition clear (e : editor) : editor * list invocation :=
  let e' := Editor [] [] (nodeRegistry e) 0 (callbacks e) in
  (e', emit e' "onChange" (PChange "clear" None)).

(** [s.replace(/\D/g, '')] *)
Fixpoint digits_of (s : string) : string :=
  match s with
  | EmptyString => EmptyString
  | String c s => if is_digit c then String c (digits_of s) else digits_of s
  end.

(** [parseInt(id.replace(/\D/g, ''), 10)]; [None] is [NaN]. *)
Definition id_number (i : string) : option N :=
  let d := digits_of i in if d =s "" then None else Some (parse_digits 0 d).

(** The [forEach] over the serialized nodes; a node that cannot be built stops
    it with what was loaded so far.  A missing id has no [replace] method; the
    entry the program's map then holds under the key [undefined], which no
    string reaches, has no counterpart among the string keys here. *)
Fixpoint load_nodes (registry : list (string * node_class)) (ns : list (string * node))
    (maxId : N) (data : list node_json) : list (string * node) * outcome N :=
  match data with
  | [] => (ns, Ret maxId)
  | d :: data =>
      match node_fromJSON d registry with
      | Throw msg => (ns, Throw msg)
      | Ret n =>
          match node_id n with
          | None => (ns, Throw "Cannot read properties of null (reading 'replace')")
          | Some i =>
              load_nodes registry (mset i n ns)
                (match id_number i with
                 | Some k => if (maxId <? k)%N then k else maxId
                 | None => maxId
                 end) data
          end
      end
  end.

(** [fromJSON(data)].  When a node cannot be built the exception leaves the
    graph cleared, with the nodes before it. *)
Definition fromJSON (e : editor) (data : workflow_json) : editor * outcome unit * list invocation :=
  let '(e1, tr) := clear e in
  match load_nodes (nodeRegistry e1) (nodes e1) 0 (default [] (wj_nodes data)) with
  | (ns, Throw msg) => (with_nodes e1 ns, Throw msg, tr)
  | (ns, Ret maxId) =>
      let e2 := Editor ns
                  (connections e1 ++ (connection_fromJSON <$> default [] (wj_connections data)))
                  (nodeRegistry e1) maxId (callbacks e1) in
      (e2, Ret tt, tr ++ emit e2 "onChange" (PChange "load" None))
  end.

(** [registerNodes(classes)] *)
Definition registerNodes (e : editor) (classes : list node_class) : editor :=
  with_registry e (foldl (λ r cls, oset (nc_nodeType cls) cls r) (nodeRegistry e) classes).
