(* ===== verification/EditorInv.v ===== *)
(** * Well-formed graphs

    The invariant of the editor and its preservation by each operation of
    [Editor]. *)

From S2P Require Import Prelude JsMap JsValue Socket Connection Control Node Editor.

(** ** Generated ids *)

Lemma pretty_N_char_digit y :
  (y < 10)%N → digit_val (pretty_N_char y) = y ∧ is_digit (pretty_N_char y) = true.
Proof.
  intros H.
  assert (y = 0 ∨ y = 1 ∨ y = 2 ∨ y = 3 ∨ y = 4 ∨ y = 5 ∨ y = 6 ∨ y = 7 ∨ y = 8 ∨ y = 9)%N by lia.
  destruct_or!; subst; by vm_compute.
Qed.

Lemma parse_digits_pretty_go x s :
  parse_digits 0 (pretty_N_go x s) = parse_digits x s.
Proof.
  revert s. induction (N.lt_wf_0 x) as [x _ IH]; intros s.
  destruct (decide (0 < x)%N) as [Hx|Hx].
  - rewrite pretty_N_go_step by done. rewrite IH; [|apply N.div_lt; lia]. simpl.
    destruct (pretty_N_char_digit (x `mod` 10)) as [-> _]; [by apply N.mod_lt|].
    f_equal. symmetry. by apply N.div_mod.
  - assert (x = 0)%N as -> by lia. by rewrite pretty_N_go_0.
Qed.

Lemma digits_of_pretty_go x s :
  digits_of (pretty_N_go x s) = pretty_N_go x (digits_of s).
Proof.
  revert s. induction (N.lt_wf_0 x) as [x _ IH]; intros s.
  destruct (decide (0 < x)%N) as [Hx|Hx].
  - rewrite (pretty_N_go_step x s), (pretty_N_go_step x (digits_of s)) by done.
    rewrite IH; [|apply N.div_lt; lia]. simpl.
    destruct (pretty_N_char_digit (x `mod` 10)) as [_ ->]; [by apply N.mod_lt|done].
  - assert (x = 0)%N as -> by lia. by rewrite !pretty_N_go_0.
Qed.

Lemma digits_of_pretty (i : N) : digits_of (pretty i) = pretty i.
Proof.
  unfold pretty, pretty_N. case_decide; [done|]. by rewrite digits_of_pretty_go.
Qed.

Lemma parse_digits_pretty (i : N) : parse_digits 0 (pretty i) = i.
Proof.
  unfold pretty, pretty_N. case_decide; [by subst|]. by rewrite parse_digits_pretty_go.
Qed.

Lemma pretty_N_nonempty (i : N) : pretty i ≠ "".
Proof.
  intros H. pose proof (parse_digits_pretty i) as Hp. rewrite H in Hp. simpl in Hp. by subst i.
Qed.

(** The digits of a generated id are the counter it came from. *)
Lemma id_number_fresh i : id_number (fresh_id i) = Some i.
Proof.
  unfold id_number, fresh_id. change (digits_of ("n_" +:+ pretty i)) with (digits_of (pretty i)).
  rewrite digits_of_pretty, bool_decide_false by apply pretty_N_nonempty.
  by rewrite parse_digits_pretty.
Qed.

Lemma fresh_id_inj i j : fresh_id i = fresh_id j → i = j.
Proof. intros H. apply (f_equal id_number) in H. rewrite !id_number_fresh in H. congruence. Qed.

(** ** The invariant *)

(** A connection between existing, compatible sockets of two different nodes,
    under the id of its end points. *)
Definition conn_ok (ns : list (string * node)) (c : connection) : Prop :=
  conn_id c = generateId (source c) (sourceHandle c) (target c) (targetHandle c) ∧
  source c ≠ target c ∧
  ∃ s t po pi,
    jget (source c) ns = Some s ∧ jget (target c) ns = Some t ∧
    jget (sourceHandle c) (outputs s) = Some po ∧ jget (targetHandle c) (inputs t) = Some pi ∧
    isCompatible (port_socket po) (Some (port_socket pi)) = true.

Record editor_wf (e : editor) : Prop := {
  wf_nodes : NoDup (jkeys (nodes e));
  wf_ids : ∀ k n, jget k (nodes e) = Some n → node_id n = Some k ∧ k ≠ "";
  wf_counter : ∀ k i, k ∈ jkeys (nodes e) → id_number k = Some i → (i ≤ idCounter e)%N;
  wf_conns : ∀ c, c ∈ connections e → conn_ok (nodes e) c;
  wf_conn_ids : NoDup (conn_id <$> connections e);
}.

(** Every node is an instance of the class registered for its type. *)
Definition typed (reg : list (string * node_class)) (n : node) : Prop :=
  ∃ cls, jget (node_type n) reg = Some cls ∧ instance_of cls n.

Definition registry_ok (reg : list (string * node_class)) : Prop :=
  ∀ k cls, jget k reg = Some cls →
    class_ok cls ∧ node_type (nc_new cls) = k ∧ node_id (nc_new cls) = None.

Lemma new_editor_wf reg : editor_wf (new_editor reg).
Proof.
  split; simpl; [apply NoDup_nil_2|done| | |apply NoDup_nil_2].
  - by intros ?? ?%not_elem_of_nil.
  - by intros ? ?%not_elem_of_nil.
Qed.

(** The id of the next node is not in use. *)
Lemma fresh_id_unused e i :
  editor_wf e → (idCounter e < i)%N → jget (fresh_id i) (nodes e) = None.
Proof.
  intros Hwf Hi. apply not_elem_of_jkeys. intros Hk.
  pose proof (wf_counter e Hwf _ _ Hk (id_number_fresh i)). lia.
Qed.

Lemma fresh_id_nonempty i : fresh_id i ≠ "".
Proof. done. Qed.

(** Connections survive when their end points keep their sockets. *)
Lemma conn_ok_mono ns ns' c :
  (∀ k n, jget k ns = Some n → k = source c ∨ k = target c →
     ∃ n', jget k ns' = Some n' ∧ inputs n' = inputs n ∧ outputs n' = outputs n) →
  conn_ok ns c → conn_ok ns' c.
Proof.
  intros H (Hid & Hne & s & t & po & pi & Hs & Ht & Hpo & Hpi & Hc).
  destruct (H _ _ Hs) as (s' & Hs' & Hi & Ho); [by left|].
  destruct (H _ _ Ht) as (t' & Ht' & Hi' & Ho'); [by right|].
  split; [done|]. split; [done|]. exists s', t', po, pi. by rewrite Ho, Hi'.
Qed.

(** ** Preservation *)

(** Adding or replacing a node under a key no connection has ends at, or with
    the sockets it had before. *)
Lemma wf_mset e i n cnt :
  editor_wf e → i ≠ "" → node_id n = Some i →
  (∀ k, id_number i = Some k → (k ≤ cnt)%N) → (idCounter e ≤ cnt)%N →
  (∀ n', jget i (nodes e) = Some n' → inputs n = inputs n' ∧ outputs n = outputs n') →
  editor_wf (with_counter (with_nodes e (mset i n (nodes e))) cnt).
Proof.
  intros [Hd Hids Hcnt Hconn Hcid] Hi Hn Hk Hle Hsock. split; simpl.
  - by apply NoDup_jkeys_mset.
  - intros k n'. rewrite jget_mset. case_bool_decide; [|apply Hids]. intros [= <-]. by subst.
  - intros k j Hin Hj. apply elem_of_jkeys in Hin as [n' Hin]. rewrite jget_mset in Hin.
    case_bool_decide; [subst; by apply Hk|]. etrans; [|done]. eapply Hcnt; [|done].
    apply elem_of_jkeys. by eexists.
  - intros c Hc. eapply conn_ok_mono; [|by apply Hconn].
    intros k n' Hkn _. rewrite jget_mset. case_bool_decide; [subst|by eauto].
    exists n. by destruct (Hsock _ Hkn).
  - done.
Qed.

(** Changing a node in place without touching its id and sockets. *)
Lemma wf_jalter e i f :
  editor_wf e →
  (∀ n, jget i (nodes e) = Some n →
     node_id (f n) = node_id n ∧ inputs (f n) = inputs n ∧ outputs (f n) = outputs n) →
  editor_wf (with_nodes e (jalter f i (nodes e))).
Proof.
  intros [Hd Hids Hcnt Hconn Hcid] Hf. split; simpl; try done.
  - by rewrite jkeys_jalter.
  - intros k n. rewrite jget_jalter. case_bool_decide; [|apply Hids]. subst.
    destruct (jget i (nodes e)) as [n'|] eqn:E; [|done]. intros [= <-].
    destruct (Hf _ eq_refl) as [-> _]. by apply Hids.
  - by rewrite jkeys_jalter.
  - intros c Hc. eapply conn_ok_mono; [|by apply Hconn].
    intros k n Hkn _. rewrite jget_jalter, Hkn. case_bool_decide; [|by eauto]. subst.
    exists (f n). by destruct (Hf _ Hkn) as (_ & ? & ?).
Qed.

(** Removing a node together with every connection at it. *)
Lemma wf_remove e i :
  editor_wf e →
  editor_wf (with_nodes
    (with_connections e (bfilter (λ c, negb (involvesNode c i)) (connections e)))
    (jdel i (nodes e))).
Proof.
  intros [Hd Hids Hcnt Hconn Hcid]. split; simpl.
  - by apply NoDup_jkeys_jdel.
  - intros k n. rewrite jget_jdel. case_bool_decide; [done|apply Hids].
  - intros k j Hin. apply Hcnt. apply elem_of_jkeys in Hin as [n Hin]. rewrite jget_jdel in Hin.
    apply elem_of_jkeys. case_bool_decide; [done|by eexists].
  - intros c [Hc Hi]%elem_of_bfilter. eapply conn_ok_mono; [|by apply Hconn].
    intros k n Hk Hor. rewrite jget_jdel. case_bool_decide; [|by eauto]. subst.
    unfold involvesNode in Hi. rewrite negb_true_iff, orb_false_iff, !bool_decide_eq_false in Hi.
    naive_solver.
  - by apply bfilter_fmap_NoDup.
Qed.

Lemma wf_sub_connections e cs :
  editor_wf e → sublist cs (connections e) → editor_wf (with_connections e cs).
Proof.
  intros [Hd Hids Hcnt Hconn Hcid] Hs. split; simpl; try done.
  - intros c Hc. apply Hconn. by eapply elem_of_sublist.
  - eapply sublist_NoDup; [done|]. by apply fmap_sublist.
Qed.

Lemma wf_add_connection e c :
  editor_wf e → conn_ok (nodes e) c → conn_id c ∉ conn_id <$> connections e →
  editor_wf (with_connections e (connections e ++ [c])).
Proof.
  intros [Hd Hids Hcnt Hconn Hcid] Hc Hn. split; simpl; try done.
  - intros c' [?|[->|[]%not_elem_of_nil]%elem_of_cons]%elem_of_app; [by apply Hconn|done].
  - rewrite fmap_app. apply NoDup_app. split_and!; [done| |apply NoDup_singleton].
    intros i Hi [->|[]%not_elem_of_nil]%elem_of_cons. done.
Qed.

Lemma remove_first_sublist {A} (f : A → bool) l : sublist (remove_first f l) l.
Proof. induction l; simpl; [done|]. destruct (f _); by constructor. Qed.

(** ** Operations *)

Lemma addNode_class_spec e cls pos e' n tr :
  node_id (nc_new cls) = None → addNode e (inl cls) pos = (e', n, tr) →
  let i := fresh_id (idCounter e + 1) in
  n = with_position (with_id (nc_new cls) (Some i)) pos ∧
  e' = with_counter (with_nodes e (mset i n (nodes e))) (idCounter e + 1) ∧
  tr = emit e' "onNodeAdd" (PNode n).
Proof. unfold addNode. intros ->. simpl. intros [= <- <- <-]. done. Qed.

Lemma addNode_instance_spec e n i pos :
  node_id n = Some i → i ≠ "" →
  let n' := with_position (with_id n (Some i)) pos in
  let e' := with_nodes e (mset i n' (nodes e)) in
  addNode e (inr n) pos = (e', n', emit e' "onNodeAdd" (PNode n')).
Proof. unfold addNode. intros -> Hi. simpl. by rewrite bool_decide_false. Qed.

Lemma addNode_class_wf e cls pos e' n tr :
  editor_wf e → node_id (nc_new cls) = None → addNode e (inl cls) pos = (e', n, tr) →
  editor_wf e'.
Proof.
  intros Hwf Hid Hadd. destruct (addNode_class_spec _ _ _ _ _ _ Hid Hadd) as (-> & -> & _).
  apply wf_mset; try done.
  - intros k. rewrite id_number_fresh. intros [= <-]. lia.
  - lia.
  - intros n'. rewrite fresh_id_unused by (done || lia). done.
Qed.

Lemma removeNode_wf e i : editor_wf e → editor_wf (removeNode e i).1.1.
Proof.
  intros Hwf. unfold removeNode. destruct (jget i (nodes e)); [|done]. exact (wf_remove e i Hwf).
Qed.

Lemma updateNodePosition_wf e i p : editor_wf e → editor_wf (updateNodePosition e i p).1.1.
Proof.
  intros Hwf. unfold updateNodePosition. destruct (jget i (nodes e)); [|done]. by apply wf_jalter.
Qed.

Lemma setNodeMeta_wf e i m : editor_wf e → editor_wf (setNodeMeta e i m).1.1.
Proof.
  intros Hwf. unfold setNodeMeta. destruct (jget i (nodes e)); [|done]. by apply wf_jalter.
Qed.

Lemma setNodeLabel_wf e i l : editor_wf e → editor_wf (setNodeLabel e i l).1.1.
Proof.
  intros Hwf. unfold setNodeLabel. destruct (jget i (nodes e)); [|done]. by apply wf_jalter.
Qed.

(** When [addConnection] answers with a connection, what it checked. *)
Lemma addConnection_Some e s sh t th e' c tr :
  addConnection e s sh t th = (e', Some c, tr) →
  c = new_connection s sh t th ∧ e' = with_connections e (connections e ++ [c]) ∧
  conn_ok (nodes e) c ∧ conn_id c ∉ conn_id <$> connections e ∧
  tr = emit e' "onConnectionAdd" (PConnection c).
Proof.
  unfold addConnection.
  destruct (jget s (nodes e)) as [sn|] eqn:Es; [|done].
  destruct (jget t (nodes e)) as [tn|] eqn:Et; [|done].
  destruct (jget sh (outputs sn)) as [po|] eqn:Eo; simpl; [|done].
  destruct (jget th (inputs tn)) as [pi|] eqn:Ei; simpl; [|done].
  destruct (negb _) eqn:Ec; [done|]. destruct (existsb _ _) eqn:Ex; [done|].
  destruct (bool_decide_reflect (s = t)); [done|].
  intros [= <- <- <-]. split_and!; [done|done| | |done].
  - split; [done|]. split; [done|]. exists sn, tn, po, pi. by split_and!; try apply negb_false_iff.
  - intros (c & Hid & Hin)%list_elem_of_fmap.
    rewrite existsb_false_iff in Ex. specialize (Ex c Hin). apply bool_decide_eq_false in Ex.
    apply Ex. by rewrite <- Hid.
Qed.

Lemma addConnection_None e s sh t th e' tr :
  addConnection e s sh t th = (e', None, tr) → e' = e ∧ tr = [].
Proof.
  unfold addConnection. repeat (case_match; [|by intros [= <- <-]] || case_match); naive_solver.
Qed.

Lemma addConnection_wf e s sh t th : editor_wf e → editor_wf (addConnection e s sh t th).1.1.
Proof.
  intros Hwf. destruct (addConnection e s sh t th) as [[e' [c|]] tr] eqn:E; simpl.
  - apply addConnection_Some in E as (-> & -> & Hok & Hn & _). by apply wf_add_connection.
  - by apply addConnection_None in E as [-> _].
Qed.

Lemma removeConnection_wf e i : editor_wf e → editor_wf (removeConnection e i).1.1.
Proof.
  intros Hwf. unfold removeConnection. case_match; [|done].
  apply wf_sub_connections; [done|]. apply remove_first_sublist.
Qed.

Lemma clear_wf e : editor_wf (clear e).1.
Proof.
  split; simpl; [apply NoDup_nil_2|done| | |apply NoDup_nil_2].
  - by intros ?? ?%not_elem_of_nil.
  - by intros ? ?%not_elem_of_nil.
Qed.

#[export] Hint Resolve new_editor_wf removeNode_wf updateNodePosition_wf setNodeMeta_wf
  setNodeLabel_wf addConnection_wf removeConnection_wf clear_wf : js.
