(* ===== verification/EditorJson.v ===== *)
(** * Saving and loading a graph

    [toJSON]/[fromJSON] of the editor: which snapshots load, what loading
    guarantees, and the round trip. *)

From S2P Require Import Prelude JsMap JsValue Socket Connection Control Node Editor EditorInv.

(** A node the registry knows, with the metadata every node has. *)
Definition node_ok (reg : list (string * node_class)) (n : node) : Prop :=
  typed reg n ∧ meta_ok (node_meta n).

Definition nodes_ok (reg : list (string * node_class)) (ns : list (string * node)) : Prop :=
  ∀ k n, jget k ns = Some n → node_ok reg n.

(** Metadata that survives being spread over the defaults of a connection. *)
Definition conn_meta_ok (c : connection) : Prop :=
  ospread default_conn_meta (conn_meta c) = conn_meta c.

Lemma new_connection_meta_ok s sh t th : conn_meta_ok (new_connection s sh t th).
Proof. reflexivity. Qed.

(** ** Loading nodes *)

Definition id_max (m : N) (k : string) : N :=
  match id_number k with
  | Some i => if (m <? i)%N then i else m
  | None => m
  end.

Lemma id_max_ge m k : (m ≤ id_max m k)%N.
Proof. unfold id_max. destruct (id_number k); [|lia]. destruct (N.ltb_spec m n); lia. Qed.

Lemma id_max_bound m k i : id_number k = Some i → (i ≤ id_max m k)%N.
Proof. unfold id_max. intros ->. destruct (N.ltb_spec m i); lia. Qed.

Lemma foldl_id_max m ks :
  (m ≤ foldl id_max m ks)%N ∧ ∀ k i, k ∈ ks → id_number k = Some i → (i ≤ foldl id_max m ks)%N.
Proof.
  revert m. induction ks as [|k ks IH]; intros m; simpl.
  - split; [lia|]. by intros ?? ?%not_elem_of_nil.
  - destruct (IH (id_max m k)) as [H1 H2]. pose proof (id_max_ge m k). split; [lia|].
    intros k' i [->|Hk]%elem_of_cons Hi; [|by eapply H2].
    pose proof (id_max_bound m k i Hi). lia.
Qed.

(** A successful load puts each node under its own id, in order, and the
    counter at the largest number in an id. *)
Lemma load_nodes_ok reg acc m data ns m' :
  load_nodes reg acc m data = (ns, Ret m') →
  ∃ loaded,
    Forall2 (λ d n, node_fromJSON d reg = Ret n.2 ∧ node_id n.2 = Some n.1) data loaded ∧
    ns = foldl (λ a kn, mset kn.1 kn.2 a) acc loaded ∧ m' = foldl id_max m loaded.*1.
Proof.
  revert acc m. induction data as [|d data IH]; intros acc m; simpl.
  { intros [= <- <-]. by exists []. }
  destruct (node_fromJSON d reg) as [n|] eqn:En; [|done].
  destruct (node_id n) as [i|] eqn:Ei; [|done].
  intros (l & Hl & -> & ->)%IH. exists ((i, n) :: l). split_and!; [by constructor|done|done].
Qed.

Lemma load_nodes_total reg acc m data loaded :
  Forall2 (λ d n, node_fromJSON d reg = Ret n.2 ∧ node_id n.2 = Some n.1) data loaded →
  load_nodes reg acc m data =
    (foldl (λ a kn, mset kn.1 kn.2 a) acc loaded, Ret (foldl id_max m loaded.*1)).
Proof.
  intros H. revert acc m. induction H as [|d [k n] data l [Hd Hi] _ IH]; intros acc m; csimpl; [done|].
  csimpl in *. rewrite Hd, Hi. apply IH.
Qed.

Lemma foldl_mset_app (acc l : list (string * node)) :
  NoDup (jkeys (acc ++ l)) → foldl (λ a kn, mset kn.1 kn.2 a) acc l = acc ++ l.
Proof.
  revert acc. induction l as [|[k n] l IH]; intros acc; csimpl; [by rewrite app_nil_r|].
  intros Hd. rewrite mset_fresh.
  - rewrite IH; rewrite <- app_assoc; done.
  - apply not_elem_of_jkeys. unfold jkeys in *. rewrite fmap_app in Hd.
    apply NoDup_app in Hd as (_ & Hd & _). intros Hk. apply (Hd _ Hk). csimpl. left.
Qed.

(** ** The round trip *)

Lemma connection_roundtrip ns c :
  conn_ok ns c → conn_meta_ok c → connection_fromJSON (connection_toJSON c) = c.
Proof.
  intros (Hid & _) Hm. unfold connection_fromJSON, connection_toJSON. simpl. rewrite Hm.
  destruct c as [i s sh t th m]; simpl in *. case_bool_decide; [|done]. f_equal. by rewrite Hid.
Qed.

Lemma saved_connections e :
  (∀ c, c ∈ connections e → conn_ok (nodes e) c) → (∀ c, c ∈ connections e → conn_meta_ok c) →
  connection_fromJSON <$> (connection_toJSON <$> connections e) = connections e.
Proof.
  intros Hconn Hcm. rewrite <- list_fmap_compose. rewrite <- (list_fmap_id (connections e)) at 2.
  apply list_fmap_ext. intros i c Hc%list_elem_of_lookup_2.
  by apply (connection_roundtrip (nodes e)); [apply Hconn|apply Hcm].
Qed.

(** [b] is [a] read back: same id, label and sockets. *)
Definition reloaded (reg : list (string * node_class)) (a b : node) : Prop :=
  node_id b = node_id a ∧ node_label b = node_label a ∧
  inputs b = inputs a ∧ outputs b = outputs a ∧ node_ok reg b.

(** Each node reloads to one that serializes the same and has its sockets. *)
Lemma nodes_reload reg ns :
  registry_ok reg → NoDup (jkeys ns) →
  (∀ k n, (k, n) ∈ ns → node_ok reg n ∧ node_id n = Some k ∧ node_label n ≠ "") →
  ∃ ns',
    Forall2 (λ d n, node_fromJSON d reg = Ret n.2 ∧ node_id n.2 = Some n.1)
      (node_toJSON <$> jvals ns) ns' ∧
    jkeys ns' = jkeys ns ∧ node_toJSON <$> jvals ns' = node_toJSON <$> jvals ns ∧
    Forall2 (λ a b, reloaded reg a.2 b.2) ns ns'.
Proof.
  intros Hreg. unfold jkeys, jvals. induction ns as [|[k n] ns IH]; intros Hd H.
  { exists []. by split_and!. }
  csimpl in *. apply NoDup_cons in Hd as [_ Hd].
  destruct IH as (ns' & H1 & H2 & H3 & H4); [done|intros; apply H; by right|].
  destruct (H k n) as ([(cls & Hcls & Hi) Hm] & Hid & Hl); [left|].
  destruct (Hreg _ _ Hcls) as (Hok & _ & _).
  destruct (node_roundtrip n cls reg) as (n' & Hn' & Hj & Hi' & Hid' & Hty & Hlb & Hmt); [done..|].
  exists ((k, n') :: ns'). csimpl. rewrite H2, H3, Hj. split_and!; try done.
  - constructor; [|done]. csimpl. split; [done|]. congruence.
  - constructor; [|done]. csimpl. split_and!; try done.
    + by rewrite (io_inputs _ _ Hi), (io_inputs _ _ Hi').
    + by rewrite (io_outputs _ _ Hi), (io_outputs _ _ Hi').
    + split; [exists cls; by rewrite Hty|]. by rewrite Hmt.
Qed.

Lemma Forall2_jget {A B} (P : A → B → Prop) (m : list (string * A)) (m' : list (string * B)) k a :
  jkeys m' = jkeys m → Forall2 (λ a b, P a.2 b.2) m m' → jget k m = Some a →
  ∃ b, jget k m' = Some b ∧ P a b.
Proof.
  unfold jkeys. intros Hk H. induction H as [|[k1 a1] [k2 b1] m m' HP _ IH]; csimpl in *; [done|].
  injection Hk as -> Hk. case_bool_decide; [intros [= <-]; by eauto|by apply IH].
Qed.

Lemma Forall2_jget_r {A B} (P : A → B → Prop) (m : list (string * A)) (m' : list (string * B)) k b :
  jkeys m' = jkeys m → Forall2 (λ a b, P a.2 b.2) m m' → jget k m' = Some b →
  ∃ a, jget k m = Some a ∧ P a b.
Proof.
  unfold jkeys. intros Hk H. induction H as [|[k1 a1] [k2 b1] m m' HP _ IH]; csimpl in *; [done|].
  injection Hk as -> Hk. case_bool_decide; [intros [= <-]; by eauto|by apply IH].
Qed.

(** A graph the editor can have: well formed, every node typed by the registry. *)
Record graph_ok (e : editor) : Prop := {
  go_wf : editor_wf e;
  go_nodes : nodes_ok (nodeRegistry e) (nodes e);
  go_conns : ∀ c, c ∈ connections e → conn_meta_ok c;
}.

Lemma fromJSON_toJSON e e0 :
  registry_ok (nodeRegistry e) → nodeRegistry e0 = nodeRegistry e → graph_ok e →
  (∀ k n, jget k (nodes e) = Some n → node_label n ≠ "") →
  ∃ e' tr, fromJSON e0 (toJSON e) = (e', Ret tt, tr) ∧ toJSON e' = toJSON e ∧
    graph_ok e' ∧ nodeRegistry e' = nodeRegistry e ∧ connections e' = connections e ∧
    jkeys (nodes e') = jkeys (nodes e).
Proof.
  intros Hreg Hreg0 [Hwf Hok Hcm] Hlbl. pose proof Hwf as [Hd Hids _ Hconn Hcid].
  destruct (nodes_reload (nodeRegistry e) (nodes e)) as (ns' & Hl & Hk & Hj & Hsock); [done..| |].
  { intros k n Hin%elem_jget; [|done]. split; [by eapply Hok|]. split; [by apply Hids|by eapply Hlbl]. }
  unfold fromJSON, clear. simpl. rewrite Hreg0. unfold getNodes.
  rewrite (load_nodes_total _ _ _ _ _ Hl).
  rewrite (foldl_mset_app [] ns') by (simpl; by rewrite Hk). simpl.
  rewrite (saved_connections e) by done. eexists _, _. split; [done|]. split; [|split; [|done]].
  { unfold toJSON, getNodes. simpl. by rewrite Hj. }
  split; simpl; [|intros k n Hn|done].
  - split; simpl; [by rewrite Hk| | | |done].
    + intros k n Hn. destruct (Forall2_jget_r (reloaded _) _ _ _ _ Hk Hsock Hn) as (a & Ha & -> & _).
      by apply Hids.
    + intros k i Hin Hi. apply (foldl_id_max 0 ns'.*1) with k; done.
    + intros c Hc. eapply conn_ok_mono; [|by apply Hconn]. intros k n Hn _.
      destruct (Forall2_jget (reloaded _) _ _ _ _ Hk Hsock Hn) as (b & Hb & _ & _ & ? & ? & _). eauto.
  - by destruct (Forall2_jget_r (reloaded _) _ _ _ _ Hk Hsock Hn) as (a & _ & _ & _ & _ & _ & ?).
Qed.

(** ** Loading any valid snapshot *)

Lemma node_fromJSON_ok reg d n :
  registry_ok reg → node_fromJSON d reg = Ret n → node_ok reg n ∧ node_type n = nj_type d.
Proof.
  intros Hreg. unfold node_fromJSON. destruct (jget (nj_type d) reg) as [cls|] eqn:Ec; [|done].
  destruct (Hreg _ _ Ec) as ([_ Hm] & Hty & _).
  set (f := with_meta _ _).
  assert (instance_of cls f) as Hf by (eapply instance_of_eqv; [apply instance_of_fresh|done..]).
  assert (meta_ok (node_meta f)) as Hmf.
  { unfold f. simpl. rewrite Hm. apply meta_ok_ospread, meta_ok_default. }
  assert (∀ n', instance_of cls n' → node_meta n' = node_meta f →
            node_ok reg n' ∧ node_type n' = nj_type d) as Hgo.
  { intros n' Hi Hmn. assert (node_type n' = nj_type d) as Ht by (by rewrite (io_type _ _ Hi)).
    split; [|done]. split; [exists cls; by rewrite Ht|by rewrite Hmn]. }
  destruct (nj_config d) as [c|]; intros [= <-].
  - apply Hgo; [by apply instance_of_setConfig|]. unfold setConfig. by destruct (hiddenDefaults f).
  - by apply Hgo.
Qed.

(** Every node builds, ids are distinct, and the connections fit the nodes. *)
Definition snapshot_valid (reg : list (string * node_class)) (data : workflow_json) : Prop :=
  ∃ loaded,
    Forall2 (λ d n, node_fromJSON d reg = Ret n.2 ∧ node_id n.2 = Some n.1)
      (default [] (wj_nodes data)) loaded ∧
    NoDup (jkeys loaded) ∧ "" ∉ jkeys loaded ∧
    let cs := connection_fromJSON <$> default [] (wj_connections data) in
    (∀ c, c ∈ cs → conn_ok loaded c ∧ conn_meta_ok c) ∧ NoDup (conn_id <$> cs).

Lemma fromJSON_valid e data :
  registry_ok (nodeRegistry e) → snapshot_valid (nodeRegistry e) data →
  ∃ e' tr, fromJSON e data = (e', Ret tt, tr ++ emit e' "onChange" (PChange "load" None)) ∧
    graph_ok e' ∧ nodeRegistry e' = nodeRegistry e ∧ callbacks e' = callbacks e.
Proof.
  intros Hreg (l & Hl & Hd & Hne & Hcs & Hci). unfold fromJSON, clear. simpl.
  rewrite (load_nodes_total _ _ _ _ _ Hl), (foldl_mset_app [] l) by done. simpl.
  eexists _, _. split; [done|]. split; [|done].
  assert (∀ k n, jget k l = Some n → node_id n = Some k ∧ node_ok (nodeRegistry e) n) as Hn.
  { intros k n Hkn%jget_elem. apply list_elem_of_lookup in Hkn as [i Hi].
    destruct (Forall2_lookup_r _ _ _ _ _ Hl Hi) as (d & _ & Hd' & Hid). split; [done|].
    by eapply node_fromJSON_ok. }
  split; simpl; [|intros k n Hk; by apply (Hn k)|intros c Hc; by apply Hcs].
  split; simpl; [done| | |intros c Hc; by apply Hcs|done].
  - intros k n Hk. split; [by apply Hn|]. intros ->. apply Hne, elem_of_jkeys. by eexists.
  - intros k i Hk Hi. by apply (foldl_id_max 0 l.*1) with k.
Qed.

(** What a node saves builds a node of its class, under its id. *)
Lemma node_rebuilds reg n :
  registry_ok reg → node_ok reg n →
  ∃ n', node_fromJSON (node_toJSON n) reg = Ret n' ∧ node_id n' = node_id n ∧
    inputs n' = inputs n ∧ outputs n' = outputs n.
Proof.
  intros Hreg [(cls & Hc & Hi) _].
  assert (∃ n', node_fromJSON (node_toJSON n) reg = Ret n' ∧ node_id n' = node_id n) as (n' & Hn' & Hid).
  { unfold node_fromJSON. simpl. rewrite Hc. eexists. split; [done|].
    unfold setConfig, BaseNode_setConfig. by destruct (hiddenDefaults _). }
  exists n'. destruct (node_fromJSON_ok reg _ _ Hreg Hn') as [[(cls' & Hc' & Hi') _] Ht].
  simpl in Ht. rewrite Ht, Hc in Hc'. injection Hc' as <-.
  split_and!; [done|done| |].
  - by rewrite (io_inputs _ _ Hi), (io_inputs _ _ Hi').
  - by rewrite (io_outputs _ _ Hi), (io_outputs _ _ Hi').
Qed.

(** What an editor saves is a snapshot its registry can build. *)
Lemma saved_valid e :
  registry_ok (nodeRegistry e) → graph_ok e → snapshot_valid (nodeRegistry e) (toJSON e).
Proof.
  intros Hreg [[Hd Hids _ Hconn Hcid] Hok Hcm].
  assert (∃ ns', Forall2 (λ d n, node_fromJSON d (nodeRegistry e) = Ret n.2 ∧ node_id n.2 = Some n.1)
            (node_toJSON <$> jvals (nodes e)) ns' ∧ jkeys ns' = jkeys (nodes e) ∧
            Forall2 (λ a b, inputs b.2 = inputs a.2 ∧ outputs b.2 = outputs a.2) (nodes e) ns')
    as (ns' & Hl & Hk & Hs).
  { assert (∀ k n, (k, n) ∈ nodes e → node_ok (nodeRegistry e) n ∧ node_id n = Some k) as H.
    { intros k n Hin%elem_jget; [|done]. split; [by eapply Hok|by apply Hids]. }
    clear -Hreg H. unfold jkeys, jvals. induction (nodes e) as [|[k n] ns IH]; csimpl; [by exists []|].
    destruct IH as (ns' & H1 & H2 & H3); [intros; apply H; by right|].
    destruct (H k n) as [Hn Hid]; [left|].
    destruct (node_rebuilds _ _ Hreg Hn) as (n' & Hn' & Hid' & ? & ?).
    exists ((k, n') :: ns'). csimpl. rewrite H2. split_and!; [|done|by constructor].
    constructor; [|done]. csimpl. split; [done|]. congruence. }
  exists ns'. simpl. unfold getNodes. rewrite Hk. split_and!; [done|done| | |].
  - intros (n & Hn)%elem_of_jkeys. by apply Hids in Hn as [_ ?].
  - rewrite (saved_connections e); [|done..]. intros c Hc. split; [|by apply Hcm].
    eapply conn_ok_mono; [|by apply Hconn]. intros k n Hn _.
    destruct (Forall2_jget (λ a b, inputs b = inputs a ∧ outputs b = outputs a) _ _ _ _ Hk Hs Hn)
      as (b & Hb & ? & ?). eauto.
  - by rewrite (saved_connections e).
Qed.

(** What is left after a load that meets a node type nobody registered. *)
Lemma fromJSON_unknown e good bad rest conns loaded v :
  Forall2 (λ d n, node_fromJSON d (nodeRegistry e) = Ret n.2 ∧ node_id n.2 = Some n.1) good loaded →
  jget (nj_type bad) (nodeRegistry e) = None →
  ∃ e' tr,
    fromJSON e (WorkflowJson v (Some (good ++ bad :: rest)) conns) =
      (e', Throw ("Unknown node type: " +:+ nj_type bad), tr) ∧
    nodes e' = foldl (λ a kn, mset kn.1 kn.2 a) [] loaded ∧ connections e' = [] ∧
    idCounter e' = 0%N ∧ tr = (clear e).2.
Proof.
  intros Hg Hb. unfold fromJSON, clear. simpl.
  assert (∀ acc m, load_nodes (nodeRegistry e) acc m (good ++ bad :: rest) =
            (foldl (λ a kn, mset kn.1 kn.2 a) acc loaded,
             Throw ("Unknown node type: " +:+ nj_type bad))) as Hload.
  { induction Hg as [|d [k n] good l [Hd Hi] _ IH]; intros acc m; csimpl.
    - unfold node_fromJSON. by rewrite Hb.
    - csimpl in *. rewrite Hd, Hi. apply IH. }
  rewrite Hload. eexists _, _. done.
Qed.
