(* ===== verification/Adapter.v ===== *)
(** * The adapter between the editor and the UI (core/adapter.js)

    [WorkflowAdapter] wraps a [WorkflowEditor] and keeps [state], a copy of the
    graph as plain objects that the components render.  It subscribes to
    [onChange]: every event but a node move rebuilds the copy from the editor,
    a move patches the one entry.  [nodeTypeRegistry] is a registry of the
    Odoo web client, outside this repository; its contents, the list of
    registered keys and entries, are an argument. *)

From S2P Require Import Prelude JsMap JsValue Socket Connection Control Node Editor.

(** An entry is a class, or a definition object with a [class] field; the other
    fields of the definition are display data. *)
Inductive registry_entry :=
| RawClass (cls : node_class)
| DefEntry (cls : node_class) (data : jsobj).

Abbreviation odoo_registry := (list (string * registry_entry)).

(** [entry.class || entry] *)
Definition entry_class (en : registry_entry) : node_class :=
  match en with RawClass cls | DefEntry cls _ => cls end.

(** A node and a connection as the UI sees them. *)
Record ui_node := UiNode {
  ui_id : option string;
  ui_type : string;
  ui_title : string;
  ui_titleIsCustom : bool;
  ui_x : num;
  ui_y : num;
  ui_icon : string;
  ui_category : string;
  ui_inputs : list (string * jsval);
  ui_outputs : list (string * jsval);
  ui_disabled : bool;
}.

Record ui_connection := UiConnection {
  uc_id : string;
  uc_source : string;
  uc_sourceHandle : string;
  uc_target : string;
  uc_targetHandle : string;
}.

Record adapter := Adapter {
  ad_editor : editor;
  state_nodes : list ui_node;
  state_connections : list ui_connection;
}.

Definition with_editor (a : adapter) (e : editor) : adapter :=
  Adapter e (state_nodes a) (state_connections a).

(** ** The copy *)

(** [_socketsToUI] *)
Definition socketsToUI (sockets : list (string * port)) : list (string * jsval) :=
  foldl (λ acc kp, oset kp.1 (port_label kp.2) acc) [] sockets.

Definition node_to_ui (n : node) : ui_node :=
  let ui := oprop (node_meta n) "ui" in
  UiNode (node_id n) (node_type n) (node_label n)
    (truthy ui && truthy (prop ui "titleIsCustom"))
    (pos_x (node_position n)) (pos_y (node_position n))
    (node_icon n) (node_category n)
    (socketsToUI (inputs n)) (socketsToUI (outputs n))
    (strict_eq (oprop (node_meta n) "disabled") (JBool true)).

Definition connection_to_ui (c : connection) : ui_connection :=
  UiConnection (conn_id c) (source c) (sourceHandle c) (target c) (targetHandle c).

Definition getNodesForUI (e : editor) : list ui_node := node_to_ui <$> getNodes e.
Definition getConnectionsForUI (e : editor) : list ui_connection :=
  connection_to_ui <$> getConnections e.

(** [_syncState], reading the graph of [e]. *)
Definition syncState (a : adapter) (e : editor) : adapter :=
  Adapter (ad_editor a) (getNodesForUI e) (getConnectionsForUI e).

(** The callback the adapter subscribes to [onChange]. *)
Definition adapter_callback : nat := 0.

Definition onChange_handler (a : adapter) (inv : invocation) : adapter :=
  if Nat.eqb (inv_callback inv) adapter_callback then
    match inv_payload inv with
    | PChange event _ => if event =s "onNodeMove" then a else syncState a (inv_editor inv)
    | _ => syncState a (inv_editor inv)
    end
  else a.

(** Run an editor operation: its callbacks in order, then its result. *)
Definition run {R} (a : adapter) (r : editor * R * list invocation) : adapter * R :=
  let '(e, v, tr) := r in
  (foldl onChange_handler (with_editor a e) tr, v).

(** ** Node classes *)

Definition getNodeClass (reg : odoo_registry) (type : string) : option node_class :=
  entry_class <$> jget type reg.

(** [_buildNodeRegistryFromOdoo] *)
Definition buildNodeRegistry (reg : odoo_registry) : list (string * node_class) :=
  foldl (λ acc ke, oset ke.1 (entry_class ke.2) acc) [] reg.

(** The constructor. *)
Definition new_adapter (reg : odoo_registry) : adapter :=
  Adapter (on (new_editor (buildNodeRegistry reg)) "onChange" adapter_callback) [] [].

Definition refreshNodeRegistry (reg : odoo_registry) (a : adapter) : adapter :=
  with_editor a (with_registry (ad_editor a) (buildNodeRegistry reg)).

(** ** Nodes *)

(** [addNode(type, position)] *)
Definition addNode (reg : odoo_registry) (a : adapter) (type : string) (pos : position)
    : adapter * option string :=
  match getNodeClass reg type with
  | None => (a, None)
  | Some cls =>
      let '(a, n) := run a (Editor.addNode (ad_editor a) (inl cls) pos) in
      (a, match node_id n with
          | Some i => if i =s "" then None else Some i
          | None => None
          end)
  end.

(** [addNodeWithId(type, position, forcedId, config)] *)
Definition addNodeWithId (reg : odoo_registry) (a : adapter) (type : string) (pos : position)
    (forcedId : string) (config : option jsobj) : adapter * option string :=
  match getNodeClass reg type with
  | None => (a, None)
  | Some cls =>
      let n := with_id (nc_new cls) (Some forcedId) in
      let n := match config with Some c => setConfig n c | None => n end in
      let '(a, _) := run a (Editor.addNode (ad_editor a) (inr n) pos) in
      let a := match id_number forcedId with
               | Some k => with_editor a (with_counter (ad_editor a) (N.max (idCounter (ad_editor a)) k))
               | None => a
               end in
      (a, Some forcedId)
  end.

Definition removeNode (a : adapter) (nodeId : string) : adapter * bool :=
  run a (Editor.removeNode (ad_editor a) nodeId).

(** [node.x = ...; node.y = ...] on the first entry with this id. *)
Fixpoint patch_position (nodeId : string) (pos : position) (l : list ui_node) : list ui_node :=
  match l with
  | [] => []
  | u :: l =>
      if bool_decide (ui_id u = Some nodeId)
      then UiNode (ui_id u) (ui_type u) (ui_title u) (ui_titleIsCustom u) (pos_x pos) (pos_y pos)
             (ui_icon u) (ui_category u) (ui_inputs u) (ui_outputs u) (ui_disabled u) :: l
      else u :: patch_position nodeId pos l
  end.

(** [updatePosition(nodeId, position)] *)
Definition updatePosition (a : adapter) (nodeId : string) (pos : position) : adapter * bool :=
  match getNode (ad_editor a) nodeId with
  | None => (a, false)
  | Some n =>
      if same_position (node_position n) pos then (a, true)
      else
        let '(a, result) := run a (updateNodePosition (ad_editor a) nodeId pos) in
        (Adapter (ad_editor a) (patch_position nodeId pos (state_nodes a)) (state_connections a), result)
  end.

Definition getNodeConfig (a : adapter) (nodeId : string) : jsobj :=
  match getNode (ad_editor a) nodeId with
  | None => []
  | Some n => getConfig n
  end.

Definition getNodeMeta (a : adapter) (nodeId : string) : jsobj :=
  Editor.getNodeMeta (ad_editor a) nodeId.

Definition setNodeMeta (a : adapter) (nodeId : string) (metaPatch : jsobj) : adapter * bool :=
  run a (Editor.setNodeMeta (ad_editor a) nodeId metaPatch).

(** [setNodeLabel(nodeId, label)] *)
Definition setNodeLabel (a : adapter) (nodeId label : string) : adapter * bool :=
  let '(a, result) := run a (Editor.setNodeLabel (ad_editor a) nodeId label) in
  if result then (syncState a (ad_editor a), true) else (a, false).

(** [setNodeConfig(nodeId, config)] *)
Definition setNodeConfig (a : adapter) (nodeId : string) (config : jsobj) : adapter * bool :=
  match getNode (ad_editor a) nodeId with
  | None => (a, false)
  | Some _ =>
      let a := with_editor a (with_nodes (ad_editor a)
                 (jalter (λ n, setConfig n config) nodeId (nodes (ad_editor a)))) in
      (syncState a (ad_editor a), true)
  end.

(** The type-specific fields [getNodeControls] copies from a control. *)
Definition kind_fields (k : control_kind) : jsobj :=
  match k with
  | BaseKind | CheckboxKind | AuthKind | BodyTypeKind | QueryParamsKind _ => []
  | TextKind p m => [("placeholder", p); ("multiline", m)]
  | SelectKind o => [("options", o)]
  | KeyValueKind kp vp _ => [("keyPlaceholder", kp); ("valuePlaceholder", vp)]
  | NumberKind mn mx st => [("min", mn); ("max", mx); ("step", st)]
  | CodeKind _ _ p => [("placeholder", p)]
  end.

(** [getNodeControls(nodeId)] *)
Definition control_info (key : string) (c : control) : jsobj :=
  let f k := (k, oprop (kind_fields (ctl_kind c)) k) in
  [("key", JStr key); ("type", JStr (ctl_type c)); ("label", ctl_label c); ("value", getValue c);
   ("section", ctl_section c); ("visibleWhen", ctl_visibleWhen c);
   ("suggestions", JArr (ctl_suggestions c)); ("valueSuggestions", JArr (ctl_valueSuggestions c));
   ("expressionSuggestions", JArr (ctl_expressionSuggestions c));
   ("suggestionsByKey", ctl_suggestionsByKey c);
   f "placeholder"; f "multiline"; f "options"; f "keyPlaceholder"; f "valuePlaceholder";
   f "min"; f "max"; f "step"].

Definition getNodeControls (a : adapter) (nodeId : string) : list jsobj :=
  match getNode (ad_editor a) nodeId with
  | None => []
  | Some n => (λ kc, control_info kc.1 kc.2) <$> controls n
  end.

(** [setControlValue(nodeId, controlKey, value)] *)
Definition setControlValue (a : adapter) (nodeId controlKey : string) (value : jsval) : adapter * bool :=
  match getNode (ad_editor a) nodeId with
  | None => (a, false)
  | Some n =>
      if jhas controlKey (controls n) then
        (with_editor a (with_nodes (ad_editor a)
           (jalter (λ n, with_controls n (jalter (λ c, setValue c value) controlKey (controls n)))
              nodeId (nodes (ad_editor a)))), true)
      else (a, false)
  end.

(** ** Connections and serialization *)

Definition addConnection (a : adapter) (s sh t th : string) : adapter * option connection :=
  run a (Editor.addConnection (ad_editor a) s sh t th).

Definition removeConnection (a : adapter) (connectionId : string) : adapter * bool :=
  run a (Editor.removeConnection (ad_editor a) connectionId).

Definition clear (a : adapter) : adapter :=
  let '(e, tr) := Editor.clear (ad_editor a) in (run a (e, tt, tr)).1.

Definition toJSON (a : adapter) : workflow_json := Editor.toJSON (ad_editor a).

Definition fromJSON (a : adapter) (data : workflow_json) : adapter * outcome unit :=
  run a (Editor.fromJSON (ad_editor a) data).
