(* ===== verification/AdapterInv.v ===== *)
(** * The adapter's invariant

    The graph stays well formed and the UI copy stays equal to it, whatever
    sequence of adapter operations runs. *)

From S2P Require Import Prelude JsMap JsValue Socket Connection Control Node Editor EditorInv EditorJson Adapter.

(** ** The copy after a batch of callbacks *)

Definition in_sync (a : adapter) (e : editor) : Prop :=
  state_nodes a = getNodesForUI e ∧ state_connections a = getConnectionsForUI e.

(** The adapter listens to every change, and to moves only through it. *)
Definition subscribed (e : editor) : Prop :=
  adapter_callback ∈ default [] (jget "onChange" (callbacks e)) ∧
  adapter_callback ∉ default [] (jget "onNodeMove" (callbacks e)).

Lemma handlers_editor a tr : ad_editor (foldl onChange_handler a tr) = ad_editor a.
Proof.
  revert a. induction tr as [|i tr IH]; intros a; simpl; [done|]. rewrite IH.
  unfold onChange_handler. repeat case_match; done.
Qed.

(** A payload the adapter answers with a rebuild. *)
Definition rebuilds (p : payload) : Prop := ∀ d, p ≠ PChange "onNodeMove" d.

Lemma handler_rebuild a i :
  inv_callback i = adapter_callback → rebuilds (inv_payload i) →
  in_sync (onChange_handler a i) (inv_editor i).
Proof.
  unfold onChange_handler. intros -> H. rewrite Nat.eqb_refl.
  destruct (inv_payload i); try done. case_bool_decide; [|done]. subst. by edestruct H.
Qed.

Lemma handlers_sync a e tr :
  (∀ i, i ∈ tr → inv_editor i = e ∧ rebuilds (inv_payload i)) →
  in_sync a e ∨ (∃ i, i ∈ tr ∧ inv_callback i = adapter_callback) →
  in_sync (foldl onChange_handler a tr) e.
Proof.
  revert a. induction tr as [|i tr IH]; intros a Hall Hor; simpl.
  { destruct Hor as [?|(i & []%not_elem_of_nil & _)]. done. }
  apply IH; [intros; apply Hall; by right|].
  destruct (Hall i) as [He Hp]; [left|].
  destruct (decide (inv_callback i = adapter_callback)) as [Hcb|Hcb].
  { left. rewrite <- He. by apply handler_rebuild. }
  assert (onChange_handler a i = a) as ->.
  { unfold onChange_handler. by rewrite (proj2 (Nat.eqb_neq _ _) Hcb). }
  destruct Hor as [?|(j & [->|Hj]%elem_of_cons & Hcb')]; [by left|done|right; eauto].
Qed.

Lemma elem_of_emit e ev data i :
  i ∈ emit e ev data →
  inv_editor i = e ∧ (inv_payload i = data ∨ (ev ≠ "onChange" ∧ inv_payload i = PChange ev (Some data))).
Proof.
  unfold emit. rewrite elem_of_app. intros [H|H].
  - apply list_elem_of_fmap in H as (cb & -> & _). simpl. auto.
  - case_bool_decide; [by apply not_elem_of_nil in H|].
    apply list_elem_of_fmap in H as (cb & -> & _). simpl. auto.
Qed.

Lemma emit_reaches e ev data :
  subscribed e → ∃ i, i ∈ emit e ev data ∧ inv_callback i = adapter_callback.
Proof.
  intros [H _]. unfold emit. setoid_rewrite elem_of_app.
  destruct (bool_decide_reflect (ev = "onChange")) as [->|Hne].
  - exists (Invocation adapter_callback data e). split; [left|done].
    by apply (list_elem_of_fmap_2 (λ cb, Invocation cb data e)).
  - exists (Invocation adapter_callback (PChange ev (Some data)) e). split; [right|done].
    by apply (list_elem_of_fmap_2 (λ cb, Invocation cb (PChange ev (Some data)) e)).
Qed.

(** An operation that ends by emitting a rebuilding event leaves a fresh copy. *)
Lemma run_sync {R} a e (v : R) tr ev data :
  subscribed e → ev ≠ "onNodeMove" → rebuilds data →
  let a' := (run a (e, v, tr ++ emit e ev data)).1 in
  ad_editor a' = e ∧ in_sync a' e.
Proof.
  intros Hsub Hev Hd. simpl. rewrite handlers_editor. split; [done|].
  rewrite foldl_app. apply handlers_sync; [|right; by apply emit_reaches].
  intros i Hi. destruct (elem_of_emit _ _ _ _ Hi) as [-> [->|[_ ->]]]; split; try done.
  intros d [= ?]. done.
Qed.

Lemma run_sync_nil {R} a e (v : R) ev data :
  subscribed e → ev ≠ "onNodeMove" → rebuilds data →
  let a' := (run a (e, v, emit e ev data)).1 in
  ad_editor a' = e ∧ in_sync a' e.
Proof. apply (run_sync a e v []). Qed.

(** A move reaches the adapter's callback but does not rebuild. *)
Lemma handlers_move a e n p :
  subscribed e →
  foldl onChange_handler a (emit e "onNodeMove" (PMove n p)) = a.
Proof.
  intros [_ Hn]. unfold emit. rewrite bool_decide_false by done.
  rewrite foldl_app.
  assert (∀ cbs a, adapter_callback ∉ cbs →
    foldl onChange_handler a ((λ cb, Invocation cb (PMove n p) e) <$> cbs) = a) as H1.
  { intros cbs. induction cbs as [|cb cbs IH]; intros a' Hc; csimpl; [done|].
    apply not_elem_of_cons in Hc as [Hc1 Hc]. unfold onChange_handler at 2. simpl.
    rewrite (proj2 (Nat.eqb_neq _ _)) by done. by apply IH. }
  rewrite H1 by done. generalize (default [] (jget "onChange" (callbacks e))).
  intros cbs. induction cbs as [|cb cbs IH]; csimpl; [done|].
  unfold onChange_handler at 2. simpl. by destruct (cb =? adapter_callback)%nat.
Qed.

(** The patched entry is what a rebuild would have produced. *)
Lemma patch_position_spec i pos (ns : list (string * node)) :
  NoDup (jkeys ns) → (∀ k n, (k, n) ∈ ns → node_id n = Some k) →
  patch_position i pos (node_to_ui <$> jvals ns) =
    node_to_ui <$> jvals (jalter (λ n, with_position n pos) i ns).
Proof.
  unfold jkeys, jvals, jalter. induction ns as [|[k n] ns IH]; csimpl; [done|].
  intros [Hn Hd]%NoDup_cons Hid. rewrite (Hid k n) by left.
  destruct (bool_decide_reflect (Some k = Some i)) as [[= ->]|Hk]; csimpl.
  - rewrite bool_decide_true by done. csimpl.
    assert (jalter (λ n, with_position n pos) i ns = ns) as E
      by (apply jalter_absent; by apply not_elem_of_jkeys).
    unfold jalter in E. rewrite E. unfold node_to_ui at 2. simpl.
    by rewrite (Hid i n) by left.
  - rewrite bool_decide_false by congruence. csimpl. f_equal. apply IH; [done|].
    intros; apply Hid; by right.
Qed.

(** ** The invariant *)

(** What the program relies on of the registry's contents: keys are unique, and
    an entry's class builds nodes of that type, without an id. *)
Definition odoo_ok (reg : odoo_registry) : Prop :=
  NoDup (jkeys reg) ∧
  ∀ k en, jget k reg = Some en →
    class_ok (entry_class en) ∧ node_type (nc_new (entry_class en)) = k ∧
    node_id (nc_new (entry_class en)) = None.

Record adapter_inv (reg : odoo_registry) (a : adapter) : Prop := {
  ai_registry : nodeRegistry (ad_editor a) = buildNodeRegistry reg;
  ai_graph : graph_ok (ad_editor a);
  ai_subscribed : subscribed (ad_editor a);
  ai_sync : in_sync a (ad_editor a);
}.

Lemma jget_buildNodeRegistry reg k :
  NoDup (jkeys reg) → jget k (buildNodeRegistry reg) = getNodeClass reg k.
Proof.
  intros Hd. unfold buildNodeRegistry, getNodeClass.
  assert (∀ acc, foldl (λ acc ke, oset ke.1 (entry_class ke.2) acc) acc reg =
            ospread acc ((λ ke, (ke.1, entry_class ke.2)) <$> reg)) as ->.
  { clear Hd. unfold ospread. induction reg as [|[k1 e1] reg IH]; intros acc; csimpl; [done|]. apply IH. }
  rewrite jget_ospread by (by rewrite jkeys_map). rewrite jget_map.
  by destruct (entry_class <$> jget k reg).
Qed.

Lemma odoo_registry_ok reg : odoo_ok reg → registry_ok (buildNodeRegistry reg).
Proof.
  intros [Hd H] k cls. rewrite jget_buildNodeRegistry by done. unfold getNodeClass.
  destruct (jget k reg) as [en|] eqn:E; [|done]. intros [= <-]. by apply H.
Qed.

Lemma nodes_ok_jalter reg f i ns :
  (∀ n, node_ok reg n → node_ok reg (f n)) → nodes_ok reg ns → nodes_ok reg (jalter f i ns).
Proof.
  intros Hf H k n. rewrite jget_jalter. case_bool_decide; [|by apply H].
  destruct (jget k ns) as [n'|] eqn:E; [|done]. intros [= <-]. by eapply Hf, H.
Qed.

Lemma nodes_ok_mset reg i n ns : node_ok reg n → nodes_ok reg ns → nodes_ok reg (mset i n ns).
Proof. intros Hn H k n'. rewrite jget_mset. case_bool_decide; [by intros [= <-]|apply H]. Qed.

Lemma nodes_ok_jdel reg i ns : nodes_ok reg ns → nodes_ok reg (jdel i ns).
Proof. intros H k n'. rewrite jget_jdel. case_bool_decide; [done|apply H]. Qed.

(** A change of label, position, id or metadata keeps a node typed. *)
Lemma node_ok_change reg n n' :
  node_ok reg n →
  node_type n' = node_type n → node_icon n' = node_icon n → node_category n' = node_category n →
  inputs n' = inputs n → outputs n' = outputs n → controls n' = controls n →
  hiddenDefaults n' = hiddenDefaults n → meta_ok (node_meta n') → node_ok reg n'.
Proof.
  intros [(cls & Hc & Hi) _] Ht ?????? Hm. split; [|done]. exists cls. rewrite Ht.
  split; [done|]. by eapply instance_of_eqv.
Qed.

Lemma node_ok_setConfig reg n c : node_ok reg n → node_ok reg (setConfig n c).
Proof.
  intros [(cls & Hc & Hi) Hm]. split.
  - exists cls. split; [|by apply instance_of_setConfig].
    unfold setConfig. by destruct (hiddenDefaults n).
  - unfold setConfig. by destruct (hiddenDefaults n).
Qed.

Lemma node_ok_setControl reg n k v :
  node_ok reg n → node_ok reg (with_controls n (jalter (λ c, setValue c v) k (controls n))).
Proof.
  intros [(cls & Hc & Hi) Hm]. split; [|done]. exists cls. split; [done|].
  destruct Hi as [?????[Hk Hh]]. split; try done. split; [|done]. simpl. by rewrite jkeys_jalter.
Qed.

Lemma merged_meta_ok prev patch : meta_ok prev → meta_ok (merged_meta prev patch).
Proof.
  intros H. unfold merged_meta. case_match; auto using meta_ok_oset, meta_ok_ospread.
Qed.

Section preservation.
Context (reg : odoo_registry) (Hreg : odoo_ok reg).
Implicit Types (a : adapter) (e : editor).

Lemma getNodeClass_typed e type cls :
  nodeRegistry e = buildNodeRegistry reg → getNodeClass reg type = Some cls →
  jget type (nodeRegistry e) = Some cls ∧ class_ok cls ∧
  node_type (nc_new cls) = type ∧ node_id (nc_new cls) = None.
Proof using Hreg.
  intros He Hc. pose proof Hreg as [Hd H]. rewrite He, jget_buildNodeRegistry by done.
  split; [done|]. unfold getNodeClass in Hc. destruct (jget type reg) as [en|] eqn:E; [|done].
  injection Hc as <-. by apply H.
Qed.

Lemma fresh_instance_ok e type cls n :
  nodeRegistry e = buildNodeRegistry reg → getNodeClass reg type = Some cls →
  instance_of cls n → node_meta n = default_meta → node_ok (nodeRegistry e) n.
Proof using Hreg.
  intros He Hc Hi Hm. destruct (getNodeClass_typed _ _ _ He Hc) as (Hj & _ & Ht & _).
  split; [|rewrite Hm; apply meta_ok_default]. exists cls.
  by rewrite (io_type _ _ Hi), Ht.
Qed.

(** The invariant from its parts, for an operation that rebuilds the copy. *)
Lemma inv_rebuild {R} a e (v : R) tr ev data :
  adapter_inv reg a → nodeRegistry e = nodeRegistry (ad_editor a) →
  callbacks e = callbacks (ad_editor a) → graph_ok e →
  ev ≠ "onNodeMove" → rebuilds data →
  adapter_inv reg (run a (e, v, tr ++ emit e ev data)).1.
Proof using Type.
  intros [Hr Hg Hs _] Her Hec Hge Hev Hd.
  assert (subscribed e) as Hse by (unfold subscribed; by rewrite Hec).
  destruct (run_sync a e v tr ev data Hse Hev Hd) as [He Hsync].
  split; rewrite He; [congruence|done|done|done].
Qed.

Lemma inv_run_id {R} a (v : R) : adapter_inv reg a → adapter_inv reg (run a (ad_editor a, v, [])).1.
Proof using Type. by destruct a. Qed.

Lemma addNode_inv a type pos : adapter_inv reg a → adapter_inv reg (addNode reg a type pos).1.
Proof using Hreg.
  intros H. unfold addNode. destruct (getNodeClass reg type) as [cls|] eqn:Hc; [|done].
  destruct (Editor.addNode _ _ _) as [[e n] tr] eqn:E. cbn -[run].
  pose proof H as [Hr [Hwf Hn Hcm] _ _].
  destruct (getNodeClass_typed _ _ _ Hr Hc) as (_ & Hok & _ & Hid).
  pose proof (addNode_class_wf _ _ _ _ _ _ Hwf Hid E) as Hwf'.
  pose proof (addNode_class_spec _ _ _ _ _ _ Hid E) as (-> & -> & ->). clear E.
  match goal with |- context [run a ?r] => destruct (run a r) as [a' n'] eqn:Ea end.
  simpl. change a' with ((a', n').1). rewrite <- Ea.
  apply (inv_rebuild a _ _ []); try done.
  split; [done| |done]. simpl. apply nodes_ok_mset; [|done].
  eapply fresh_instance_ok; [done..| |by apply Hok].
  by eapply instance_of_eqv; [apply instance_of_fresh|..].
Qed.

Lemma addNodeWithId_inv a type pos i config :
  adapter_inv reg a → i ≠ "" → jget i (nodes (ad_editor a)) = None →
  adapter_inv reg (addNodeWithId reg a type pos i config).1.
Proof using Hreg.
  intros H Hi Hfresh. unfold addNodeWithId.
  destruct (getNodeClass reg type) as [cls|] eqn:Hc; [|done].
  pose proof H as [Hr [Hwf Hn Hcm] Hsub _].
  destruct (getNodeClass_typed _ _ _ Hr Hc) as (_ & Hok & _ & Hid).
  set (n := match config with Some _ => _ | None => _ end).
  assert (instance_of cls n ∧ node_id n = Some i ∧ node_meta n = default_meta) as (Hin & Hni & Hnm).
  { assert (instance_of cls (with_id (nc_new cls) (Some i))) as Hi0
      by (by eapply instance_of_eqv; [apply instance_of_fresh|..]).
    unfold n. destruct config as [c|]; [|split_and!; [done|done|by apply Hok]].
    split_and!; [by apply instance_of_setConfig| |]; unfold setConfig; destruct (hiddenDefaults _);
      by try apply Hok. }
  rewrite (addNode_instance_spec _ _ _ _ Hni Hi).
  set (n' := with_position _ _). set (e := with_nodes _ _).
  destruct (run_sync_nil a e n' "onNodeAdd" (PNode n')) as [He Hsync]; [done..|].
  destruct (run a _) as [a' r] eqn:Ea. cbn [fst] in *.
  set (cnt := match id_number i with Some k => N.max (idCounter e) k | None => idCounter e end).
  assert (graph_ok (with_counter e cnt)) as Hg.
  { split; [|simpl; apply nodes_ok_mset; [|done]|done].
    - apply wf_mset; [done..| | |].
      + unfold cnt. intros k ->. lia.
      + unfold cnt. destruct (id_number i); simpl; lia.
      + by rewrite Hfresh.
    - eapply fresh_instance_ok; [done..| |done]. by eapply instance_of_eqv. }
  unfold cnt in Hg. destruct (id_number i); split; simpl; rewrite ?He; try done.
Qed.

Lemma removeNode_inv a i : adapter_inv reg a → adapter_inv reg (removeNode a i).1.
Proof using Type.
  intros H. unfold removeNode. pose proof H as [_ [Hwf Hn Hcm] _ _].
  pose proof (removeNode_wf _ i Hwf) as Hwf'. unfold Editor.removeNode in *.
  destruct (jget i (nodes (ad_editor a))); [|by apply inv_run_id].
  apply inv_rebuild; try done. split; [done|by apply nodes_ok_jdel|].
  intros c [Hc _]%elem_of_bfilter. by apply Hcm.
Qed.

Lemma jalter_graph_ok e f i :
  graph_ok e →
  (∀ n, node_ok (nodeRegistry e) n → node_ok (nodeRegistry e) (f n)) →
  (∀ n, node_id (f n) = node_id n ∧ inputs (f n) = inputs n ∧ outputs (f n) = outputs n) →
  graph_ok (with_nodes e (jalter f i (nodes e))).
Proof using Type.
  intros [Hwf Hn Hcm] Hf Hs. split; [by apply wf_jalter|by apply nodes_ok_jalter|done].
Qed.

Lemma node_ok_with_position e n p :
  node_ok (nodeRegistry e) n → node_ok (nodeRegistry e) (with_position n p).
Proof using Type. intros H. eapply node_ok_change; [done..|]. apply H. Qed.

Lemma updatePosition_inv a i pos : adapter_inv reg a → adapter_inv reg (updatePosition a i pos).1.
Proof using Type.
  intros H. unfold updatePosition, updateNodePosition, getNode.
  destruct (jget i (nodes (ad_editor a))) as [n|] eqn:E; [|done].
  destruct (same_position _ _); [done|]. pose proof H as [Hr Hg Hs [Hsn Hsc]].
  unfold run. set (e := with_nodes _ _).
  rewrite handlers_move by done. simpl.
  pose proof Hg as [[Hd Hids _ _ _] _ _].
  split; simpl; [done| |done|split; [|done]].
  - apply jalter_graph_ok; [done|intros; by apply node_ok_with_position|done].
  - rewrite Hsn. apply patch_position_spec; [done|]. intros k m Hin%elem_jget; [|done]. by apply Hids.
Qed.

Lemma setNodeMeta_inv a i m : adapter_inv reg a → adapter_inv reg (setNodeMeta a i m).1.
Proof using Type.
  intros H. unfold setNodeMeta, Editor.setNodeMeta.
  destruct (jget i (nodes (ad_editor a))) as [n|] eqn:E; [|by apply inv_run_id].
  pose proof H as [Hr Hg Hs _]. apply (inv_rebuild a _ _ []); try done.
  pose proof Hg as [Hwf Hn Hcm]. split; [by apply wf_jalter| |done]. simpl.
  intros k n'. rewrite jget_jalter. case_bool_decide; [|by apply Hn]. subst. rewrite E.
  intros [= <-]. eapply node_ok_change; [by eapply Hn|done..|]. simpl.
  apply merged_meta_ok. by apply (Hn i).
Qed.

Lemma setNodeLabel_inv a i l : adapter_inv reg a → adapter_inv reg (setNodeLabel a i l).1.
Proof using Type.
  intros H. unfold setNodeLabel, Editor.setNodeLabel.
  destruct (jget i (nodes (ad_editor a))) as [n|] eqn:E; [|by destruct a].
  pose proof H as [Hr Hg Hs _]. unfold run. cbn -[emit]. rewrite handlers_editor. cbn -[emit].
  assert (graph_ok (with_nodes (ad_editor a)
            (jalter (λ n, with_label n l) i (nodes (ad_editor a))))) as Hg'.
  { apply jalter_graph_ok; [done| |done]. intros m Hm. eapply node_ok_change; [done..|]. apply Hm. }
  split; simpl; rewrite handlers_editor; done.
Qed.

Lemma setNodeConfig_inv a i c : adapter_inv reg a → adapter_inv reg (setNodeConfig a i c).1.
Proof using Type.
  intros H. unfold setNodeConfig, getNode.
  destruct (jget i (nodes (ad_editor a))) as [n|] eqn:E; [|done].
  pose proof H as [Hr Hg Hs _]. split; simpl; [done| |done|done].
  apply jalter_graph_ok; [done|intros; by apply node_ok_setConfig|].
  intros m. unfold setConfig. by destruct (hiddenDefaults m).
Qed.

(** The copy shows no control values, so it needs no rebuild. *)
Lemma control_not_shown e i k v :
  getNodesForUI e = getNodesForUI (with_nodes e
    (jalter (λ m, with_controls m (jalter (λ c, setValue c v) k (controls m))) i (nodes e))).
Proof using Type.
  unfold getNodesForUI, getNodes, jvals, jalter. simpl.
  rewrite <- !list_fmap_compose. apply list_fmap_ext. intros j [k' m] _. simpl.
  by case_bool_decide.
Qed.

Lemma setControlValue_inv a i k v : adapter_inv reg a → adapter_inv reg (setControlValue a i k v).1.
Proof using Type.
  intros H. unfold setControlValue, getNode.
  destruct (jget i (nodes (ad_editor a))) as [n|] eqn:E; [|done].
  destruct (jhas k (controls n)); [|done].
  pose proof H as [Hr Hg Hs [Hsn Hsc]]. split; simpl; [done| |done|split; [|done]].
  - apply jalter_graph_ok; [done|intros; by apply node_ok_setControl|done].
  - etrans; [exact Hsn|apply control_not_shown].
Qed.

Lemma addConnection_inv a s sh t th :
  adapter_inv reg a → adapter_inv reg (addConnection a s sh t th).1.
Proof using Type.
  intros H. pose proof H as [_ [Hwf Hn Hcm] _ _]. unfold addConnection.
  pose proof (addConnection_wf _ s sh t th Hwf) as Hwf'.
  destruct (Editor.addConnection _ _ _ _ _) as [[e' [c|]] tr] eqn:E.
  - apply addConnection_Some in E as (-> & -> & Hok & Hnew & ->).
    apply (inv_rebuild a _ _ []); try done. split; [done|done|].
    intros c [Hc|[->|[]%not_elem_of_nil]%elem_of_cons]%elem_of_app; [by apply Hcm|].
    apply new_connection_meta_ok.
  - apply addConnection_None in E as [-> ->]. by apply inv_run_id.
Qed.

Lemma removeConnection_inv a i : adapter_inv reg a → adapter_inv reg (removeConnection a i).1.
Proof using Type.
  intros H. pose proof H as [_ [Hwf Hn Hcm] _ _]. unfold removeConnection.
  pose proof (removeConnection_wf _ i Hwf) as Hwf'. unfold Editor.removeConnection in *.
  destruct (find_first _ _); [|by apply inv_run_id].
  apply (inv_rebuild a _ _ []); try done. split; [done|done|].
  intros c' Hc. apply Hcm. eapply elem_of_sublist; [done|]. apply remove_first_sublist.
Qed.

Lemma clear_inv a : adapter_inv reg a → adapter_inv reg (clear a).
Proof using Type.
  intros H. unfold clear, Editor.clear. apply (inv_rebuild a _ _ []); try done.
  split; [apply (clear_wf (ad_editor a))|done|by intros ? ?%not_elem_of_nil].
Qed.

Lemma fromJSON_inv a data :
  adapter_inv reg a → snapshot_valid (buildNodeRegistry reg) data →
  adapter_inv reg (fromJSON a data).1 ∧ (fromJSON a data).2 = Ret tt.
Proof using Hreg.
  intros H Hv. pose proof H as [Hr _ _ _]. unfold fromJSON.
  destruct (fromJSON_valid (ad_editor a) data) as (e' & tr & -> & Hg & Her & Hec);
    [rewrite Hr; by apply odoo_registry_ok|by rewrite Hr|].
  split; [|done]. by apply inv_rebuild.
Qed.
End preservation.
