(* ===== verification/Nodes.v ===== *)
(** * The built-in node classes (nodes/*.js)

    One class per node type: its static properties and the node its constructor
    builds, by the same calls of [addInput], [addOutput] and [addControl]. *)

From S2P Require Import Prelude JsMap JsValue Socket Control Node EditorInv.

(** [{ value, label }], an option of a select. *)
Definition option_row (value label : string) : jsval :=
  JObj [("value", JStr value); ("label", JStr label)].

(** A class whose instances [build] makes from what [super()] leaves. *)
Definition define_class (nodeType label icon category description : string)
    (build : node → node) : node_class :=
  NodeClass nodeType label icon category description ""
    (build (BaseNode_new nodeType label icon category)).

(** Placeholders with quotes and a dash, spelled by character. *)
Definition dq : string := String (Ascii.ascii_of_nat 34) "".
Definition em_dash : string :=
  String (Ascii.ascii_of_nat 226) (String (Ascii.ascii_of_nat 128) (String (Ascii.ascii_of_nat 148) "")).
Definition schema_placeholder : string :=
  "{" +:+ dq +:+ "field" +:+ dq +:+ ": {" +:+ dq +:+ "type" +:+ dq +:+ ": " +:+ dq +:+ "string" +:+ dq +:+
  ", " +:+ dq +:+ "minLength" +:+ dq +:+ ": 1}}".
Definition body_placeholder : string :=
  "{" +:+ dq +:+ "key" +:+ dq +:+ ": " +:+ dq +:+ "value" +:+ dq +:+ "}".

Definition ManualTriggerNode : node_class :=
  define_class "manual_trigger" "Manual Trigger" "fa-play" "trigger" "Manually start a workflow execution" (λ n,
    let n := addOutput n "output" DataSocket JNull in
    n).

Definition HttpRequestNode : node_class :=
  define_class "http" "HTTP Request" "fa-globe" "integration" "Make HTTP API calls to external services" (λ n,
    let n := addInput n "data" DataSocket (JStr "Input Data") JUndef in
    let n := addOutput n "response" DataSocket (JStr "Response") in
    let n := addOutput n "error" ErrorSocket (JStr "Error") in
    let n := addControl n "method" (SelectControl_new "method"
      [("label", JStr "Method"); ("options", JArr [
         option_row "GET" "GET";
         option_row "POST" "POST";
         option_row "PUT" "PUT";
         option_row "PATCH" "PATCH";
         option_row "DELETE" "DELETE"]); ("default", JStr "GET")]) in
    let n := addControl n "url" (TextInputControl_new "url"
      [("label", JStr "URL"); ("placeholder", JStr "https://api.example.com/endpoint")]) in
    let n := addControl n "headers" (KeyValueControl_new "headers"
      [("label", JStr "Headers"); ("keyPlaceholder", JStr "Header name"); ("valuePlaceholder", JStr "Header value")]) in
    let n := addControl n "body" (TextInputControl_new "body"
      [("label", JStr "Request Body"); ("placeholder", JStr body_placeholder); ("multiline", JBool true)]) in
    n).

Definition ConnectorRequestNode : node_class :=
  define_class "connector_request" "Connector Request" "fa-plug" "integration" "Managed HTTP call via a reusable connector" (λ n,
    let n := addInput n "data" DataSocket (JStr "Input Data") JUndef in
    let n := addOutput n "response" DataSocket (JStr "Response") in
    let n := addOutput n "error" ErrorSocket (JStr "Error") in
    let n := addControl n "operation_code" (TextInputControl_new "operation_code"
      [("label", JStr "Operation Code"); ("placeholder", JStr "e.g. create_order"); ("help", JStr "Stable logical identifier for this API call. Used to look up backend config.")]) in
    let n := addControl n "url" (TextInputControl_new "url"
      [("label", JStr "URL Override"); ("placeholder", JStr "Leave empty to use endpoint preset")]) in
    let n := addControl n "method" (SelectControl_new "method"
      [("label", JStr "Method Override"); ("options", JArr [
         option_row "" (em_dash +:+ " Use endpoint preset " +:+ em_dash);
         option_row "GET" "GET";
         option_row "POST" "POST";
         option_row "PUT" "PUT";
         option_row "PATCH" "PATCH";
         option_row "DELETE" "DELETE"]); ("default", JStr "")]) in
    let n := addControl n "timeout" (TextInputControl_new "timeout"
      [("label", JStr "Timeout Override (s)"); ("placeholder", JStr "Leave empty for endpoint/connector default"); ("inputType", JStr "number")]) in
    n).

Definition DataValidationNode : node_class :=
  define_class "validation" "Data Validation" "fa-check-circle" "transform" "Validate data against rules" (λ n,
    let n := addInput n "data" DataSocket (JStr "Input Data") JUndef in
    let n := addOutput n "valid" DataSocket (JStr "Valid Data") in
    let n := addOutput n "invalid" ErrorSocket (JStr "Validation Errors") in
    let n := addControl n "requiredFields" (TextInputControl_new "requiredFields"
      [("label", JStr "Required Fields"); ("placeholder", JStr "field1, field2, field3")]) in
    let n := addControl n "schema" (TextInputControl_new "schema"
      [("label", JStr "Validation Schema (JSON)"); ("placeholder", JStr schema_placeholder); ("multiline", JBool true)]) in
    let n := addControl n "customRules" (KeyValueControl_new "customRules"
      [("label", JStr "Custom Rules"); ("keyPlaceholder", JStr "Field path"); ("valuePlaceholder", JStr "Regex pattern")]) in
    n).

Definition SetDataNode : node_class :=
  define_class "set_data" "Set Data" "fa-pencil" "transform" "Set or transform data fields" (λ n,
    let n := addInput n "data" DataSocket (JStr "Input Data") JUndef in
    let n := addOutput n "output" DataSocket JNull in
    let n := addControl n "fields" (KeyValueControl_new "fields"
      [("label", JStr "Fields to Set"); ("keyPlaceholder", JStr "Field name"); ("valuePlaceholder", JStr "Value or {{ expression }}")]) in
    let n := addControl n "keepOnlySet" (SelectControl_new "keepOnlySet"
      [("label", JStr "Output Mode"); ("options", JArr [
         option_row "merge" "Merge with input";
         option_row "replace" "Only set fields"]); ("default", JStr "merge")]) in
    n).

Definition VariableNode : node_class :=
  define_class "variable" "Set Variable" "fa-cube" "data" "Set or get workflow variables" (λ n,
    let n := addInput n "trigger" DataSocket (JStr "Trigger") JUndef in
    let n := addOutput n "output" DataSocket JNull in
    let n := addControl n "operation" (SelectControl_new "operation"
      [("label", JStr "Operation"); ("options", JArr [
         option_row "set" "Set";
         option_row "get" "Get";
         option_row "append" "Append to Array";
         option_row "merge" "Merge Object";
         option_row "increment" "Increment";
         option_row "delete" "Delete"]); ("defaultValue", JStr "set")]) in
    let n := addControl n "variableName" (TextInputControl_new "variableName"
      [("label", JStr "Variable Name"); ("placeholder", JStr "e.g., result.order_lines")]) in
    let n := addControl n "value" (TextInputControl_new "value"
      [("label", JStr "Value (supports expressions)"); ("placeholder", JStr "{{ _json.data }} or static value"); ("multiline", JBool true)]) in
    n).

Definition CodeNode : node_class :=
  define_class "code" "Code" "fa-code" "transform" "Execute Python code (set result for output)" (λ n,
    let n := addInput n "data" DataSocket (JStr "") JUndef in
    let n := addOutput n "output" DataSocket JNull in
    let n := addControl n "code" (CodeControl_new "code"
      [("label", JStr "Python Code"); ("height", JInt 250); ("placeholder", JStr "result = _json.get('value')"); ("language", JStr "python")]) in
    n).

Definition LoopNode : node_class :=
  define_class "loop" "Loop Over Items" "fa-repeat" "flow" "Iterate over array items in batches" (λ n,
    let n := addInput n "data" DataSocket (JStr "Data") JUndef in
    let n := addOutput n "done" DataSocket (JStr "Done") in
    let n := addOutput n "loop" DataSocket (JStr "Loop") in
    let n := addControl n "inputItems" (TextInputControl_new "inputItems"
      [("label", JStr "Input Items"); ("placeholder", JStr "{{ _json.response.data.items }}")]) in
    let n := addControl n "batchSize" (TextInputControl_new "batchSize"
      [("label", JStr "Batch Size"); ("placeholder", JStr "1")]) in
    let n := addControl n "reset" (SelectControl_new "reset"
      [("label", JStr "Reset"); ("options", JArr [
         option_row "false" "No";
         option_row "true" "Yes"]); ("defaultValue", JStr "false")]) in
    n).

Definition IfNode : node_class :=
  define_class "if" "If" "split" "flow" "Route data based on condition" (λ n,
    let n := addInput n "data" DataSocket (JStr "Data") JUndef in
    let n := addOutput n "true" DataSocket (JStr "True") in
    let n := addOutput n "false" DataSocket (JStr "False") in
    let n := addControl n "leftOperand" (TextInputControl_new "leftOperand"
      [("label", JStr "Left Operand"); ("placeholder", JStr "{{ _vars.count }} or {{ _json.status }}")]) in
    let n := addControl n "operator" (SelectControl_new "operator"
      [("label", JStr "Operator"); ("options", JArr [
         option_row "eq" "Equals (==)";
         option_row "neq" "Not Equals (!=)";
         option_row "gt" "Greater Than (>)";
         option_row "gte" "Greater or Equal (>=)";
         option_row "lt" "Less Than (<)";
         option_row "lte" "Less or Equal (<=)";
         option_row "contains" "Contains";
         option_row "startsWith" "Starts With";
         option_row "endsWith" "Ends With";
         option_row "empty" "Is Empty";
         option_row "notEmpty" "Is Not Empty";
         option_row "truthy" "Is Truthy";
         option_row "falsy" "Is Falsy"]); ("defaultValue", JStr "eq")]) in
    let n := addControl n "rightOperand" (TextInputControl_new "rightOperand"
      [("label", JStr "Right Operand"); ("placeholder", JStr "Value to compare against")]) in
    n).

Definition SwitchNode : node_class :=
  define_class "switch" "Switch" "fa-random" "flow" "Route data based on matching cases" (λ n,
    let n := addInput n "data" DataSocket (JStr "Data") JUndef in
    let n := addOutput n "case_1" DataSocket (JStr "Case 1") in
    let n := addOutput n "case_2" DataSocket (JStr "Case 2") in
    let n := addOutput n "case_3" DataSocket (JStr "Case 3") in
    let n := addOutput n "default" DataSocket (JStr "Default") in
    let n := addControl n "switchValue" (TextInputControl_new "switchValue"
      [("label", JStr "Switch Value"); ("placeholder", JStr "{{ _json.status }}")]) in
    let n := addControl n "case1" (TextInputControl_new "case1"
      [("label", JStr "Case 1"); ("placeholder", JStr "Value to match")]) in
    let n := addControl n "case2" (TextInputControl_new "case2"
      [("label", JStr "Case 2"); ("placeholder", JStr "Value to match")]) in
    let n := addControl n "case3" (TextInputControl_new "case3"
      [("label", JStr "Case 3"); ("placeholder", JStr "Value to match")]) in
    n).

Definition NoOpNode : node_class :=
  define_class "noop" "Replace Me" "fa-circle-o" "flow" "Placeholder node" (λ n,
    let n := addInput n "data" DataSocket (JStr "Data") JUndef in
    let n := addOutput n "result" DataSocket JNull in
    n).

Definition builtin_classes : list node_class :=
  [ManualTriggerNode; HttpRequestNode; ConnectorRequestNode; DataValidationNode; SetDataNode;
   VariableNode; CodeNode; LoopNode; IfNode; SwitchNode; NoOpNode].

(** What the building steps keep of a fresh node. *)
Definition fresh_ok (n : node) : Prop :=
  obj_ok (controls n) ∧ node_meta n = default_meta ∧ node_id n = None.

Lemma fresh_ok_base ty l i c : fresh_ok (BaseNode_new ty l i c).
Proof. split; [apply obj_ok_nil|done]. Qed.

Lemma fresh_ok_input n k s l m : fresh_ok n → fresh_ok (addInput n k s l m).
Proof. done. Qed.

Lemma fresh_ok_output n k s l : fresh_ok n → fresh_ok (addOutput n k s l).
Proof. done. Qed.

Lemma fresh_ok_control n k c : fresh_ok n → fresh_ok (addControl n k c).
Proof. intros (? & ? & ?). split; [by apply obj_ok_oset|done]. Qed.

#[export] Hint Resolve fresh_ok_base fresh_ok_input fresh_ok_output fresh_ok_control : js.

Lemma fresh_ok_class cls : fresh_ok (nc_new cls) → class_ok cls ∧ node_id (nc_new cls) = None.
Proof. by intros (? & ? & ?). Qed.

(** Every built-in class can be instantiated, saved and loaded. *)
Lemma builtin_classes_ok cls :
  cls ∈ builtin_classes → fresh_ok (nc_new cls) ∧ node_type (nc_new cls) = nc_nodeType cls.
Proof.
  revert cls. apply Forall_forall. unfold builtin_classes.
  repeat (constructor; [split; [unfold nc_new; simpl; auto 20 with js|reflexivity]|]). constructor.
Qed.
