(* ===== verification/AdapterRun.v ===== *)
(** * Runs of the adapter

    The sequences of calls the rest of the program can make on the adapter, as
    a step relation, and what holds in every state they reach: the graph is
    well formed, the copy the components render equals it, saving and loading
    lose nothing. *)

From S2P Require Import Prelude JsMap JsValue Socket Connection Control Node Editor EditorInv EditorJson Adapter AdapterInv Nodes.

(** ** Calls *)

Inductive adapter_op :=
| OpAddNode (type : string) (pos : position)
| OpAddNodeWithId (type : string) (pos : position) (forcedId : string) (config : option jsobj)
| OpRemoveNode (nodeId : string)
| OpUpdatePosition (nodeId : string) (pos : position)
| OpSetNodeMeta (nodeId : string) (patch : jsobj)
| OpSetNodeLabel (nodeId label : string)
| OpSetNodeConfig (nodeId : string) (config : jsobj)
| OpSetControlValue (nodeId controlKey : string) (value : jsval)
| OpAddConnection (s sh t th : string)
| OpRemoveConnection (connectionId : string)
| OpRefreshRegistry
| OpClear
| OpLoad (data : workflow_json).

Section runs.
Context (reg : odoo_registry).

Definition exec_op (a : adapter) (o : adapter_op) : adapter :=
  match o with
  | OpAddNode ty p => (addNode reg a ty p).1
  | OpAddNodeWithId ty p i c => (addNodeWithId reg a ty p i c).1
  | OpRemoveNode i => (removeNode a i).1
  | OpUpdatePosition i p => (updatePosition a i p).1
  | OpSetNodeMeta i m => (setNodeMeta a i m).1
  | OpSetNodeLabel i l => (setNodeLabel a i l).1
  | OpSetNodeConfig i c => (setNodeConfig a i c).1
  | OpSetControlValue i k v => (setControlValue a i k v).1
  | OpAddConnection s sh t th => (addConnection a s sh t th).1
  | OpRemoveConnection i => (removeConnection a i).1
  | OpRefreshRegistry => refreshNodeRegistry reg a
  | OpClear => clear a
  | OpLoad d => (fromJSON a d).1
  end.

(** The two calls with an obligation: a forced id is new (it names a node that
    was removed), a snapshot is one the registry can build. *)
Definition allowed (a : adapter) (o : adapter_op) : Prop :=
  match o with
  | OpAddNodeWithId _ _ i _ => i ≠ "" ∧ jget i (nodes (ad_editor a)) = None
  | OpLoad d => snapshot_valid (buildNodeRegistry reg) d
  | _ => True
  end.

Inductive step : adapter → adapter → Prop :=
| step_op a o : allowed a o → step a (exec_op a o).

Definition reachable (a : adapter) : Prop := rtc step (new_adapter reg) a.

Lemma new_adapter_inv : adapter_inv reg (new_adapter reg).
Proof using Type.
  split; simpl; [done| |split; simpl; [left|set_solver]|done].
  split; simpl; [|done|by intros ? ?%not_elem_of_nil].
  pose proof (new_editor_wf (buildNodeRegistry reg)) as []. by split.
Qed.

Context (Hreg : odoo_ok reg).

Lemma exec_op_inv a o : adapter_inv reg a → allowed a o → adapter_inv reg (exec_op a o).
Proof using Hreg.
  intros H Ha. destruct o; simpl in *.
  - by apply addNode_inv.
  - destruct Ha. by apply addNodeWithId_inv.
  - by apply removeNode_inv.
  - by apply updatePosition_inv.
  - by apply setNodeMeta_inv.
  - by apply setNodeLabel_inv.
  - by apply setNodeConfig_inv.
  - by apply setControlValue_inv.
  - by apply addConnection_inv.
  - by apply removeConnection_inv.
  - destruct H as [Hr [Hwf Hn Hc] Hs Hy]. split; simpl; [done| |done|done].
    split; simpl; [by destruct Hwf; split|by rewrite <- Hr|done].
  - by apply clear_inv.
  - by apply fromJSON_inv.
Qed.

Lemma reachable_inv a : reachable a → adapter_inv reg a.
Proof using Hreg.
  unfold reachable. generalize new_adapter_inv. intros H0 H.
  induction H as [a|a b c [a' o Ha] _ IH]; [done|]. by apply IH, exec_op_inv.
Qed.
End runs.

(** Running a script of calls none of which has an obligation. *)
Definition unconditional (o : adapter_op) : bool :=
  match o with OpAddNodeWithId _ _ _ _ | OpLoad _ => false | _ => true end.

Definition run_ops (reg : odoo_registry) (os : list adapter_op) : adapter :=
  foldl (exec_op reg) (new_adapter reg) os.

Lemma run_ops_reachable reg os : forallb unconditional os = true → reachable reg (run_ops reg os).
Proof.
  unfold reachable, run_ops. generalize (new_adapter reg).
  induction os as [|o os IH]; intros a; simpl; [done|].
  intros [Ho Hos]%andb_true_iff. eapply rtc_l; [|by apply IH].
  constructor. by destruct o.
Qed.

(** The registry of the built-in classes. *)
Definition builtin_registry : odoo_registry :=
  (λ cls, (nc_nodeType cls, RawClass cls)) <$> builtin_classes.

Lemma builtin_registry_ok : odoo_ok builtin_registry.
Proof.
  split; [vm_compute; repeat constructor; set_solver|].
  intros k en (cls & [= -> ->] & Hin)%jget_elem%list_elem_of_fmap.
  destruct (builtin_classes_ok cls Hin) as [[Hok Hid]%fresh_ok_class Hty]. done.
Qed.

(** A trigger connected to an HTTP request that is connected to a loop. *)
Definition demo_ops : list adapter_op :=
  [OpAddNode "manual_trigger" (Position 0 0); OpAddNode "http" (Position 1 0);
   OpAddNode "loop" (Position 1 1); OpAddConnection "n_1" "output" "n_2" "data";
   OpAddConnection "n_2" "response" "n_3" "data"; OpUpdatePosition "n_2" (Position 1 1);
   OpSetNodeLabel "n_2" "Fetch"].

Definition demo : adapter := run_ops builtin_registry demo_ops.

Lemma demo_reachable : reachable builtin_registry demo.
Proof. by apply run_ops_reachable. Qed.

(** Two nodes of the same class that serialize alike look alike. *)
Lemma node_to_ui_ext reg a b :
  registry_ok reg → typed reg a → typed reg b → node_toJSON a = node_toJSON b →
  node_to_ui a = node_to_ui b.
Proof.
  intros _ (ca & Ha & [_ Hia Hca Hina Houa _]) (cb & Hb & [_ Hib Hcb Hinb Houb _]) Hj.
  unfold node_toJSON in Hj. injection Hj as Hid Hty Hl Hp _ Hm.
  rewrite Hty in Ha. rewrite Ha in Hb. injection Hb as <-.
  unfold node_to_ui. congruence.
Qed.

Lemma jvals_lookup {V} (m : list (string * V)) j z :
  NoDup (jkeys m) → jvals m !! j = Some z → ∃ k, jget k m = Some z.
Proof.
  unfold jvals. rewrite list_lookup_fmap. intros Hd Hz.
  destruct (m !! j) as [[k z']|] eqn:Ez; [|done]. injection Hz as <-. exists k.
  apply elem_jget; [done|]. by eapply list_elem_of_lookup_2.
Qed.

(** The same for whole node tables. *)
Lemma nodes_ui_ext reg ns ns' :
  registry_ok reg → NoDup (jkeys ns) → NoDup (jkeys ns') →
  nodes_ok reg ns → nodes_ok reg ns' →
  node_toJSON <$> jvals ns = node_toJSON <$> jvals ns' →
  node_to_ui <$> jvals ns = node_to_ui <$> jvals ns'.
Proof.
  intros Hr Hd Hd' Hn Hn' Hj. apply list_eq. intros i. rewrite !list_lookup_fmap.
  apply (f_equal (λ l, l !! i)) in Hj. rewrite !list_lookup_fmap in Hj.
  destruct (jvals ns !! i) as [n|] eqn:E1, (jvals ns' !! i) as [n'|] eqn:E2; try done.
  simpl in *. f_equal. injection Hj as Hj.
  destruct (jvals_lookup _ _ _ Hd E1) as [k1 Hk1], (jvals_lookup _ _ _ Hd' E2) as [k2 Hk2].
  eapply node_to_ui_ext; [done|by apply (Hn k1)|by apply (Hn' k2)|].
  unfold node_toJSON. congruence.
Qed.

(** A successful load runs the callbacks and ends with a [load] event. *)
Lemma fromJSON_run a data e' tr :
  Editor.fromJSON (ad_editor a) data = (e', Ret tt, tr) →
  ∃ tr', fromJSON a data = run a (e', Ret tt, tr' ++ emit e' "onChange" (PChange "load" None)) ∧
    callbacks e' = callbacks (ad_editor a).
Proof.
  intros He. unfold fromJSON. rewrite He. unfold Editor.fromJSON, Editor.clear in He. simpl in He.
  destruct (load_nodes _ _ _ _) as [ns [m|]]; [|done]. injection He as <- <-. by eexists.
Qed.

(** What a load of a saved graph gives, whatever the loading adapter held. *)
Lemma load_saved reg a b :
  odoo_ok reg → adapter_inv reg a →
  nodeRegistry (ad_editor b) = nodeRegistry (ad_editor a) → subscribed (ad_editor b) →
  (∀ k n, jget k (nodes (ad_editor a)) = Some n → node_label n ≠ "") →
  (fromJSON b (toJSON a)).2 = Ret tt ∧
  let b' := (fromJSON b (toJSON a)).1 in
  toJSON b' = toJSON a ∧ state_nodes b' = state_nodes a ∧
  state_connections b' = state_connections a.
Proof.
  intros Hreg [Hra Hga Hsa [Hna Hca]] Hrb Hsb Hl. pose proof (odoo_registry_ok reg Hreg) as Hrok.
  destruct (fromJSON_toJSON (ad_editor a) (ad_editor b)) as (e' & tr & He & Hj & Hg & Hr & Hc & Hk);
    [by rewrite Hra|done|done|done|].
  destruct (fromJSON_run _ _ _ _ He) as (tr' & Hrun & Hcb).
  unfold toJSON at 1 2. rewrite Hrun. split; [done|].
  destruct (run_sync b e' (Ret tt) tr' "onChange" (PChange "load" None)) as [Hed [Hsn Hsc]];
    [unfold subscribed; by rewrite Hcb|done|done|].
  split_and!; [unfold toJSON; by rewrite Hed| |].
  - rewrite Hsn, Hna. unfold getNodesForUI, getNodes.
    destruct Hga as [Hwfa Hna' _], Hg as [Hwf' Hn' _]. rewrite Hr in Hn'.
    eapply nodes_ui_ext; [|apply Hwf'|apply Hwfa|done|done|by injection Hj]. by rewrite Hra.
  - rewrite Hsc, Hca. unfold getConnectionsForUI, getConnections. by rewrite Hc.
Qed.

(** ** The copy in any run

    What keeps the copy in step needs little of the graph: that each node is
    stored under its own id, once, and that the adapter hears every change.
    Every call keeps this, whatever its arguments. *)

Definition well_keyed (ns : list (string * node)) : Prop :=
  NoDup (jkeys ns) ∧ ∀ k n, (k, n) ∈ ns → node_id n = Some k.

Definition tracked (e : editor) : Prop := subscribed e ∧ well_keyed (nodes e).

Lemma elem_of_mset {V} k (v : V) m k' v' :
  (k', v') ∈ mset k v m → (k', v') = (k, v) ∨ (k', v') ∈ m.
Proof.
  induction m as [|[k1 v1] m IH]; simpl.
  - intros [?|[]%not_elem_of_nil]%elem_of_cons. by left.
  - case_bool_decide; rewrite !elem_of_cons; naive_solver.
Qed.

Lemma well_keyed_mset k n ns : node_id n = Some k → well_keyed ns → well_keyed (mset k n ns).
Proof.
  intros Hk [Hd H]. split; [by apply NoDup_jkeys_mset|].
  intros k' n' [[= -> ->]|Hin]%elem_of_mset; [done|by apply H].
Qed.

Lemma well_keyed_jdel k ns : well_keyed ns → well_keyed (jdel k ns).
Proof. intros [Hd H]. split; [by apply NoDup_jkeys_jdel|]. intros k' n' [Hin _]%elem_of_bfilter. by apply H. Qed.

Lemma well_keyed_jalter f k ns : (∀ n, node_id (f n) = node_id n) → well_keyed ns → well_keyed (jalter f k ns).
Proof.
  intros Hf [Hd H]. split; [by rewrite jkeys_jalter|]. intros k' n' Hin.
  apply list_elem_of_fmap in Hin as ([k1 n1] & Heq & Hin). simpl in Heq.
  case_bool_decide; simplify_eq; rewrite ?Hf; by apply H.
Qed.

Lemma well_keyed_load_nodes reg ns m data : well_keyed ns → well_keyed (load_nodes reg ns m data).1.
Proof.
  revert ns m. induction data as [|d data IH]; intros ns m H; simpl; [done|].
  destruct (node_fromJSON d reg) as [n|]; [|done].
  destruct (node_id n) as [i|] eqn:Hi; [|done]. apply IH. by apply well_keyed_mset.
Qed.

Lemma tracked_nodes e ns : tracked e → well_keyed ns → tracked (with_nodes e ns).
Proof. by intros [? _]. Qed.

Lemma addNode_tracked e cn pos : tracked e → tracked (Editor.addNode e cn pos).1.1.
Proof.
  intros [Hs Hk]. unfold Editor.addNode.
  destruct (node_id _) as [i|]; [case_bool_decide|]; (split; [done|]); by apply well_keyed_mset.
Qed.

(** A run whose callbacks all see the editor it ends with. *)
Lemma run_tracked {R} a e (v : R) tr ev data :
  tracked e → ev ≠ "onNodeMove" → rebuilds data →
  let a' := (run a (e, v, tr ++ emit e ev data)).1 in
  tracked (ad_editor a') ∧ in_sync a' (ad_editor a').
Proof.
  intros Ht Hev Hd a'. destruct (run_sync a e v tr ev data (proj1 Ht) Hev Hd) as [He Hy].
  unfold a'. by rewrite He.
Qed.

(** Whether the copy is in step after a call that began in step iff [b]. *)
Definition load_returned (a : adapter) (o : adapter_op) (b : bool) : bool :=
  match o with
  | OpLoad d => match (fromJSON a d).2 with Ret _ => true | Throw _ => false end
  | _ => b
  end.

Fixpoint last_load_returned (reg : odoo_registry) (a : adapter) (os : list adapter_op) (b : bool) : bool :=
  match os with
  | [] => b
  | o :: os => last_load_returned reg (exec_op reg a o) os (load_returned a o b)
  end.

Section any_run.
Context (reg : odoo_registry).
Implicit Types a : adapter.

Definition op_good a' (b : bool) : Prop :=
  tracked (ad_editor a') ∧ (b = true → in_sync a' (ad_editor a')).

Lemma updatePosition_good a i pos b :
  tracked (ad_editor a) → (b = true → in_sync a (ad_editor a)) →
  op_good (updatePosition a i pos).1 b.
Proof using Type.
  intros Ht Hb. pose proof Ht as [Hs [Hd Hk]]. unfold updatePosition, updateNodePosition, getNode.
  destruct (jget i (nodes (ad_editor a))) as [n|] eqn:E; [|done].
  destruct (same_position _ _); [done|]. unfold run. rewrite handlers_move by done. split; simpl.
  - apply tracked_nodes; [done|]. by apply well_keyed_jalter.
  - intros [Hn Hc]%Hb. split; [|done]. rewrite Hn. by apply patch_position_spec.
Qed.

Lemma setControlValue_good a i k v b :
  tracked (ad_editor a) → (b = true → in_sync a (ad_editor a)) →
  op_good (setControlValue a i k v).1 b.
Proof using Type.
  intros Ht Hb. pose proof Ht as [Hs Hk]. unfold setControlValue, getNode.
  destruct (jget i (nodes (ad_editor a))) as [n|] eqn:E; [|done].
  destruct (jhas k (controls n)); [|done]. split; simpl.
  - apply tracked_nodes; [done|]. by apply well_keyed_jalter.
  - intros [Hn Hc]%Hb. split; [|done]. etrans; [exact Hn|apply control_not_shown].
Qed.

Lemma fromJSON_good a d b :
  tracked (ad_editor a) → op_good (fromJSON a d).1 (load_returned a (OpLoad d) b).
Proof using Type.
  intros [Hs _]. unfold load_returned.
  destruct (Editor.fromJSON (ad_editor a) d) as [[e' r] tr] eqn:E.
  assert (tracked e') as Ht.
  { split; [|]; unfold Editor.fromJSON, Editor.clear in E; cbn -[load_nodes emit] in E;
      pose proof (well_keyed_load_nodes (nodeRegistry (ad_editor a)) [] 0 (default [] (wj_nodes d))) as Hk;
      destruct (load_nodes _ _ _ _) as [ns [m|]]; injection E as <- <- _; try done;
      apply Hk; (split; [constructor|by intros ?? ?%not_elem_of_nil]). }
  destruct r as [[]|msg].
  - destruct (fromJSON_run a d e' tr E) as (tr' & -> & _). unfold op_good.
    destruct (run_tracked a e' (Ret tt) tr' "onChange" (PChange "load" None)); [done..|]. by split.
  - unfold fromJSON. rewrite E. simpl. split; [by rewrite handlers_editor|done].
Qed.

(** The calls that end by emitting a rebuilding event. *)
Lemma rebuild_good {R} a e (v : R) tr ev data b :
  tracked e → ev ≠ "onNodeMove" → rebuilds data →
  op_good (run a (e, v, tr ++ emit e ev data)).1 b.
Proof using Type. intros. destruct (run_tracked a e v tr ev data); [done..|]. by split. Qed.

Lemma addNode_good a type pos b :
  tracked (ad_editor a) → (b = true → in_sync a (ad_editor a)) → op_good (addNode reg a type pos).1 b.
Proof using Type.
  intros Ht Hb. unfold addNode. destruct (getNodeClass reg type) as [cls|]; [|done].
  pose proof (addNode_tracked (ad_editor a) (inl cls) pos Ht) as Ht'.
  unfold Editor.addNode in *. destruct (match node_id _ with Some _ => _ | None => _ end) as [e i].
  match goal with |- context [run a ?r] => destruct (run a r) as [a' n'] eqn:Ea end.
  simpl. change a' with ((a', n').1). rewrite <- Ea. by apply (rebuild_good a _ _ []).
Qed.

Lemma addNodeWithId_good a type pos i c b :
  tracked (ad_editor a) → (b = true → in_sync a (ad_editor a)) →
  op_good (addNodeWithId reg a type pos i c).1 b.
Proof using Type.
  intros Ht Hb. unfold addNodeWithId. destruct (getNodeClass reg type) as [cls|]; [|done].
  set (n := match c with Some _ => _ | None => _ end).
  pose proof (addNode_tracked (ad_editor a) (inr n) pos Ht) as Ht'.
  unfold Editor.addNode in *. destruct (match node_id _ with Some _ => _ | None => _ end) as [e j].
  match goal with |- context [run a ?r] => destruct (run a r) as [a' n'] eqn:Ea end.
  assert (op_good a' b) as [? ?]
    by (change a' with ((a', n').1); rewrite <- Ea; by apply (rebuild_good a _ _ [])).
  by destruct (id_number i).
Qed.

Lemma relabel_good a f i b :
  tracked (ad_editor a) → (∀ n, node_id (f n) = node_id n) →
  let e := with_nodes (ad_editor a) (jalter f i (nodes (ad_editor a))) in
  op_good (syncState (with_editor a e) e) b.
Proof using Type. intros Ht Hf. split; [|done]. apply tracked_nodes; [done|]. apply well_keyed_jalter, Ht. done. Qed.

Lemma setNodeLabel_good a i l b :
  tracked (ad_editor a) → (b = true → in_sync a (ad_editor a)) → op_good (setNodeLabel a i l).1 b.
Proof using Type.
  intros Ht Hb. unfold setNodeLabel, Editor.setNodeLabel.
  destruct (jget i (nodes (ad_editor a))) as [n|]; [|by destruct a].
  unfold run. cbn -[emit]. split; simpl; [|done]. rewrite handlers_editor. simpl.
  by apply (relabel_good a (λ n, with_label n l)).
Qed.

Lemma setNodeConfig_good a i c b :
  tracked (ad_editor a) → (b = true → in_sync a (ad_editor a)) → op_good (setNodeConfig a i c).1 b.
Proof using Type.
  intros Ht Hb. unfold setNodeConfig, getNode.
  destruct (jget i (nodes (ad_editor a))) as [n|]; [|done].
  apply (relabel_good a (λ n, setConfig n c)); [done|].
  intros m. unfold setConfig. by destruct (hiddenDefaults m).
Qed.

Lemma removeNode_good a i b :
  tracked (ad_editor a) → (b = true → in_sync a (ad_editor a)) → op_good (removeNode a i).1 b.
Proof using Type.
  intros [Hs Hk] Hb. unfold removeNode, Editor.removeNode.
  destruct (jget i (nodes (ad_editor a))); [|by destruct a].
  apply rebuild_good; [|done..]. split; [done|]. by apply well_keyed_jdel.
Qed.

Lemma setNodeMeta_good a i m b :
  tracked (ad_editor a) → (b = true → in_sync a (ad_editor a)) → op_good (setNodeMeta a i m).1 b.
Proof using Type.
  intros [Hs Hk] Hb. unfold setNodeMeta, Editor.setNodeMeta.
  destruct (jget i (nodes (ad_editor a))); [|by destruct a].
  apply (rebuild_good a _ _ []); [|done..]. split; [done|]. by apply well_keyed_jalter.
Qed.

Lemma connections_good a b :
  tracked (ad_editor a) → (b = true → in_sync a (ad_editor a)) →
  (∀ s sh t th, op_good (addConnection a s sh t th).1 b) ∧ (∀ i, op_good (removeConnection a i).1 b).
Proof using Type.
  intros Ht Hb. split.
  - intros s sh t th. unfold addConnection.
    destruct (Editor.addConnection _ _ _ _ _) as [[e' [c|]] tr] eqn:E.
    + apply addConnection_Some in E as (-> & -> & _ & _ & ->). by apply (rebuild_good a _ _ []).
    + apply addConnection_None in E as [-> ->]. by destruct a.
  - intros i. unfold removeConnection, Editor.removeConnection.
    destruct (find_first _ _); [|by destruct a]. by apply (rebuild_good a _ _ []).
Qed.

Lemma exec_op_good a o b :
  tracked (ad_editor a) → (b = true → in_sync a (ad_editor a)) →
  op_good (exec_op reg a o) (load_returned a o b).
Proof using Type.
  intros Ht Hb. destruct o; simpl; auto using addNode_good, addNodeWithId_good, removeNode_good,
    updatePosition_good, setNodeMeta_good, setNodeLabel_good, setNodeConfig_good, setControlValue_good.
  - by apply (connections_good a b).
  - by apply (connections_good a b).
  - by split.
  - unfold clear, Editor.clear. apply (rebuild_good a _ tt []); [|done..]. split; [apply Ht|].
    split; [constructor|by intros ?? ?%not_elem_of_nil].
  - by apply (fromJSON_good a data b).
Qed.

Lemma run_from_sync a os b :
  tracked (ad_editor a) → (b = true → in_sync a (ad_editor a)) →
  last_load_returned reg a os b = true →
  let a' := foldl (exec_op reg) a os in in_sync a' (ad_editor a').
Proof using Type.
  revert a b. induction os as [|o os IH]; intros a b Ht Hb; simpl; [done|].
  destruct (exec_op_good a o b Ht Hb) as [Ht' Hb']. by apply IH.
Qed.

Lemma run_ops_sync os :
  last_load_returned reg (new_adapter reg) os true = true →
  in_sync (run_ops reg os) (ad_editor (run_ops reg os)).
Proof using Type.
  intros H. eapply run_from_sync; [| |exact H]; [|done].
  split; [split; simpl; [left|set_solver]|]. split; [constructor|by intros ?? ?%not_elem_of_nil].
Qed.
End any_run.

(** ** Properties *)

(** C1: after any sequence of calls whatever, forced ids in use and snapshots
    with anything in them included, the adapter's state is the graph, unless the
    last load of the sequence threw: every node and connection of the editor
    appears once, in order and with its current title, position, sockets and
    disabled flag. *)
Theorem adapter_state_in_sync reg os :
  last_load_returned reg (new_adapter reg) os true = true →
  let a := run_ops reg os in
  state_nodes a = node_to_ui <$> getNodes (ad_editor a) ∧
  state_connections a = connection_to_ui <$> getConnections (ad_editor a).
Proof. intros H. by apply run_ops_sync. Qed.

(** Moves around a load of a snapshot with a dangling connection, and a second
    node under the id of the first. *)
Definition rough_ops : list adapter_op :=
  demo_ops ++
  [OpLoad (WorkflowJson "1.0" (Some [NodeJson (Some "n_1") "noop" None None None None])
     (Some [ConnectionJson None "n_1" "output" "n_9" "data" None]));
   OpAddNodeWithId "http" (Position 1 1) "n_1" None; OpUpdatePosition "n_1" (Position 0 1)].

Lemma adapter_state_in_sync_witness :
  let a := run_ops builtin_registry rough_ops in
  state_nodes a = node_to_ui <$> getNodes (ad_editor a) ∧
  length (state_nodes a) = 1 ∧ length (state_connections a) = 1.
Proof.
  split; [|vm_compute; done].
  refine (proj1 (adapter_state_in_sync builtin_registry rough_ops _)). vm_compute. reflexivity.
Defined.

(** C2: in every state reached by calls whose forced ids are free and whose
    loads are of well-formed snapshots, node ids are unique and non-empty, and
    every connection joins an output and an input that exist, of compatible
    types, on two different nodes, under an id no other connection has.  What is
    saved from such a state is again a well-formed snapshot: its nodes build, its
    ids are distinct, its connections fit, so that loading it is such a call. *)
Theorem adapter_graph_well_formed reg a :
  odoo_ok reg → reachable reg a →
  let e := ad_editor a in
  NoDup (jkeys (nodes e)) ∧ NoDup (conn_id <$> connections e) ∧
  (∀ k n, jget k (nodes e) = Some n → node_id n = Some k ∧ k ≠ "") ∧
  (∀ c, c ∈ connections e →
     source c ≠ target c ∧
     ∃ s t po pi, getNode e (source c) = Some s ∧ getNode e (target c) = Some t ∧
       jget (sourceHandle c) (outputs s) = Some po ∧ jget (targetHandle c) (inputs t) = Some pi ∧
       isCompatible (port_socket po) (Some (port_socket pi)) = true) ∧
  (∀ b, reachable reg b → reachable reg (fromJSON b (toJSON a)).1).
Proof.
  intros Hreg H. destruct (reachable_inv reg Hreg a H) as [Hr Hg _ _].
  pose proof Hg as [[Hd Hids _ Hc Hcd] _ _].
  split_and!; [done..| |].
  - intros c Hin. by destruct (Hc c Hin) as (_ & ? & ?).
  - intros b Hb. eapply rtc_r; [exact Hb|]. apply (step_op reg b (OpLoad (toJSON a))). simpl.
    rewrite <- Hr. apply saved_valid; [|done]. rewrite Hr. by apply odoo_registry_ok.
Qed.

Lemma adapter_graph_well_formed_witness :
  NoDup (jkeys (nodes (ad_editor demo))) ∧ length (connections (ad_editor demo)) = 2.
Proof.
  split; [|vm_compute; reflexivity].
  exact (proj1 (adapter_graph_well_formed _ _ builtin_registry_ok demo_reachable)).
Defined.

(** C5: loading a saved workflow, into any reachable editor with the same
    registry, succeeds, saves back to the same snapshot and shows the same
    nodes and connections, provided no node has an empty label. *)
Theorem save_load_roundtrip reg a b :
  odoo_ok reg → reachable reg a → reachable reg b →
  (∀ k n, jget k (nodes (ad_editor a)) = Some n → node_label n ≠ "") →
  (fromJSON b (toJSON a)).2 = Ret tt ∧
  let b' := (fromJSON b (toJSON a)).1 in
  toJSON b' = toJSON a ∧ state_nodes b' = state_nodes a ∧
  state_connections b' = state_connections a.
Proof.
  intros Hreg Ha Hb Hl.
  pose proof (reachable_inv reg Hreg a Ha) as Hia. pose proof (reachable_inv reg Hreg b Hb) as [Hrb _ Hsb _].
  apply (load_saved reg); try done. pose proof Hia as [Hra _ _ _]. congruence.
Qed.

Lemma save_load_roundtrip_witness :
  toJSON (fromJSON (new_adapter builtin_registry) (toJSON demo)).1 = toJSON demo.
Proof.
  refine (proj1 (proj2 (save_load_roundtrip _ _ _ builtin_registry_ok demo_reachable
    (run_ops_reachable builtin_registry [] eq_refl) _))).
  assert (Forall (λ n, node_label n ≠ "") (jvals (nodes (ad_editor demo)))) as H
    by (vm_compute; by repeat constructor).
  intros k n Hk%jget_elem. rewrite Forall_forall in H. apply H.
  by apply (list_elem_of_fmap_2 snd _ (k, n)).
Defined.

(** adding a node of a registered type answers with an id no node has, puts
    a fresh instance of the class there, and leaves the rest of the graph
    alone; an unknown type changes nothing. *)
Theorem addNode_fresh reg a type pos :
  odoo_ok reg → reachable reg a →
  match getNodeClass reg type with
  | None => addNode reg a type pos = (a, None)
  | Some cls =>
      let i := fresh_id (idCounter (ad_editor a) + 1) in
      let e' := ad_editor (addNode reg a type pos).1 in
      (addNode reg a type pos).2 = Some i ∧ getNode (ad_editor a) i = None ∧
      nodes e' = nodes (ad_editor a) ++
        [(i, with_position (with_id (nc_new cls) (Some i)) pos)] ∧
      connections e' = connections (ad_editor a)
  end.
Proof.
  intros Hreg H. destruct (reachable_inv reg Hreg a H) as [Hr [Hwf _ _] _ _].
  unfold addNode. destruct (getNodeClass reg type) as [cls|] eqn:Hc; [|done].
  destruct (getNodeClass_typed reg Hreg _ _ _ Hr Hc) as (_ & _ & _ & Hid).
  destruct (Editor.addNode _ _ _) as [[e n] tr] eqn:E.
  apply addNode_class_spec in E as (-> & -> & _); [|done].
  assert (jget (fresh_id (idCounter (ad_editor a) + 1)) (nodes (ad_editor a)) = None) as Hnew
    by (apply fresh_id_unused; [done|lia]).
  simpl. rewrite handlers_editor. simpl. by rewrite mset_fresh.
Qed.

Lemma addNode_fresh_witness :
  (addNode builtin_registry demo "noop" (Position 0 0)).2 = Some "n_4".
Proof.
  refine (eq_trans (proj1 (addNode_fresh builtin_registry demo "noop" (Position 0 0)
    builtin_registry_ok demo_reachable)) _). vm_compute. reflexivity.
Defined.

(** C38: a connection is accepted exactly when both nodes and both sockets
    exist, the sockets are compatible, the nodes differ and no connection has
    its id; then it is appended, otherwise the adapter does not change. *)
Theorem addConnection_exact a s sh t th :
  let e := ad_editor a in
  let ok := ∃ ns nt po pi,
    getNode e s = Some ns ∧ getNode e t = Some nt ∧
    jget sh (outputs ns) = Some po ∧ jget th (inputs nt) = Some pi ∧
    isCompatible (port_socket po) (Some (port_socket pi)) = true ∧ s ≠ t ∧
    generateId s sh t th ∉ conn_id <$> connections e in
  (ok ∧ (addConnection a s sh t th).2 = Some (new_connection s sh t th) ∧
   connections (ad_editor (addConnection a s sh t th).1) =
     connections e ++ [new_connection s sh t th]) ∨
  (¬ ok ∧ addConnection a s sh t th = (a, None)).
Proof.
  simpl. unfold addConnection.
  destruct (Editor.addConnection (ad_editor a) s sh t th) as [[e' [c|]] tr] eqn:E.
  - left. apply addConnection_Some in E as (-> & -> & (_ & Hne & ns & nt & po & pi & ?) & Hnew & _).
    destruct_and!. split; [by exists ns, nt, po, pi; split_and!|].
    split; [done|]. simpl. by rewrite handlers_editor.
  - right. split; [|apply addConnection_None in E as [-> ->]; by destruct a].
    intros (ns & nt & po & pi & Hs & Ht & Ho & Hi & Hc & Hne & Hnew).
    unfold Editor.addConnection, getNode in *. rewrite Hs, Ht, Ho, Hi in E. simpl in E.
    rewrite Hc, (bool_decide_false (s = t)) in E by done. simpl in E.
    destruct (existsb _ _) eqn:Ex; [|done]. apply existsb_true_iff in Ex as (c & Hcin & Hcid).
    bsimpl. apply Hnew. rewrite <- Hcid. by apply list_elem_of_fmap_2.
Qed.

(** removing a node answers whether it was there, removes it and exactly
    the connections at it, and keeps every other node and connection. *)
Theorem removeNode_exact reg a i :
  odoo_ok reg → reachable reg a →
  let a' := (removeNode a i).1 in
  (removeNode a i).2 = jhas i (nodes (ad_editor a)) ∧
  (∀ k, getNode (ad_editor a') k = if k =s i then None else getNode (ad_editor a) k) ∧
  (∀ c, c ∈ connections (ad_editor a') ↔
     c ∈ connections (ad_editor a) ∧ source c ≠ i ∧ target c ≠ i).
Proof.
  intros Hreg H. destruct (reachable_inv reg Hreg a H) as [_ [[Hd _ _ Hc _] _ _] _ _].
  unfold removeNode, Editor.removeNode, getNode, jhas.
  destruct (jget i (nodes (ad_editor a))) as [n|] eqn:E; simpl; rewrite ?handlers_editor; simpl;
    (split; [done|]); split.
  - intros k. by rewrite jget_jdel.
  - intros c. rewrite elem_of_bfilter, negb_true_iff. unfold involvesNode.
    rewrite orb_false_iff, !bool_decide_eq_false. done.
  - intros k. case_bool_decide; congruence.
  - intros c. split; [|tauto]. intros Hin. split; [done|].
    destruct (Hc c Hin) as (_ & _ & s & t & _ & _ & Hs & Ht & _). split; intros <-; congruence.
Qed.

Lemma removeNode_exact_witness :
  (removeNode demo "n_2").2 = true ∧
  ∀ k, getNode (ad_editor (removeNode demo "n_2").1) k =
    if k =s "n_2" then None else getNode (ad_editor demo) k.
Proof.
  split; [vm_compute; reflexivity|].
  exact (proj1 (proj2 (removeNode_exact builtin_registry demo "n_2"
    builtin_registry_ok demo_reachable))).
Defined.

(** a snapshot with a node type nobody registered makes the load throw
    after the old graph is gone: the editor keeps the nodes before the unknown
    one and no connection, while the adapter's state is empty. *)
Theorem load_unknown_type reg a good bad rest conns loaded v :
  odoo_ok reg → reachable reg a →
  Forall2 (λ d n, node_fromJSON d (buildNodeRegistry reg) = Ret n.2 ∧ node_id n.2 = Some n.1)
    good loaded →
  getNodeClass reg (nj_type bad) = None →
  let data := WorkflowJson v (Some (good ++ bad :: rest)) conns in
  let a' := (fromJSON a data).1 in
  (fromJSON a data).2 = Throw ("Unknown node type: " +:+ nj_type bad) ∧
  nodes (ad_editor a') = foldl (λ m kn, mset kn.1 kn.2 m) [] loaded ∧
  connections (ad_editor a') = [] ∧ state_nodes a' = [] ∧ state_connections a' = [].
Proof.
  intros Hreg H Hg Hb. destruct (reachable_inv reg Hreg a H) as [Hr _ Hs _].
  rewrite <- Hr in Hg. rewrite <- jget_buildNodeRegistry, <- Hr in Hb by apply Hreg.
  destruct (fromJSON_unknown (ad_editor a) good bad rest conns loaded v Hg Hb)
    as (e' & tr & He & Hn & Hc & _ & ->).
  simpl. unfold fromJSON. rewrite He. cbn -[Editor.clear]. rewrite handlers_editor. cbn -[Editor.clear].
  destruct (handlers_sync (with_editor a e') (Editor.clear (ad_editor a)).1
    (Editor.clear (ad_editor a)).2) as [Hsn Hsc]; [| |split_and!; [done..|exact Hsn|exact Hsc]].
  - intros i [-> [->|[[] _]]]%elem_of_emit; by split.
  - right. by apply emit_reaches.
Qed.

(** A snapshot whose second node has a type that no class has. *)
Definition bad_snapshot : workflow_json :=
  WorkflowJson "1.0"
    (Some [NodeJson (Some "n_1") "noop" None None None None;
           NodeJson (Some "n_2") "gone" None None None None]) None.

Lemma load_unknown_type_witness :
  let a' := (fromJSON demo bad_snapshot).1 in
  length (nodes (ad_editor a')) = 1 ∧ state_nodes a' = [].
Proof.
  destruct (load_unknown_type builtin_registry demo
    [NodeJson (Some "n_1") "noop" None None None None]
    (NodeJson (Some "n_2") "gone" None None None None) [] None
    [("n_1", with_id (nc_new NoOpNode) (Some "n_1"))] "1.0"
    builtin_registry_ok demo_reachable) as (_ & Hn & _ & Hs & _).
  - constructor; [|constructor]. split; vm_compute; reflexivity.
  - vm_compute. reflexivity.
  - exact (conj (f_equal length Hn) Hs).
Defined.
