(* ===== verification/AdapterEquiv.v ===== *)
(** * Graphs up to order

    Undoing a removal puts the node and its connections back at the end, so an
    undone graph equals the old one up to the order of its parts.  Here a graph
    is seen as the lists it saves: what each adapter operation does to them,
    and the equivalence of adapters whose lists are permutations. *)

From S2P Require Import Prelude JsMap JsValue Socket Connection Control Node Editor EditorInv EditorJson Adapter AdapterInv.

(** The nodes as they are saved, and the connections. *)
Definition snap (a : adapter) : list node_json := node_toJSON <$> getNodes (ad_editor a).
Definition conns (a : adapter) : list connection := connections (ad_editor a).

Definition has_id (i : string) (d : node_json) : bool := bool_decide (nj_id d = Some i).

Definition json_at (p : position) (d : node_json) : node_json :=
  NodeJson (nj_id d) (nj_type d) (nj_label d) (Some p) (nj_config d) (nj_meta d).

Definition json_move (i : string) (p : position) (d : node_json) : node_json :=
  if has_id i d then json_at p d else d.

(** Node tables whose nodes carry their key. *)
Definition keyed (ns : list (string * node)) : Prop := ∀ k n, (k, n) ∈ ns → node_id n = Some k.

Lemma keyed_cons k n ns : keyed ((k, n) :: ns) → node_id n = Some k ∧ keyed ns.
Proof. intros H. split; [apply H; left|intros k' n' ?; apply H; by right]. Qed.

Lemma json_jdel i ns :
  keyed ns →
  node_toJSON <$> jvals (jdel i ns) = bfilter (λ d, negb (has_id i d)) (node_toJSON <$> jvals ns).
Proof.
  unfold jvals, jdel. induction ns as [|[k n] ns IH]; csimpl; [done|].
  intros [Hk Hns]%keyed_cons. unfold has_id at 1. simpl. rewrite Hk.
  repeat case_bool_decide; simplify_eq; csimpl; by rewrite IH.
Qed.

Lemma json_jalter i p ns :
  keyed ns →
  node_toJSON <$> jvals (jalter (λ n, with_position n p) i ns) =
    json_move i p <$> (node_toJSON <$> jvals ns).
Proof.
  unfold jvals, jalter. induction ns as [|[k n] ns IH]; csimpl; [done|].
  intros [Hk Hns]%keyed_cons. rewrite <- IH by done. f_equal.
  unfold json_move, has_id. simpl. rewrite Hk. repeat case_bool_decide; simplify_eq; done.
Qed.

Section equiv.
Context (reg : odoo_registry) (Hreg : odoo_ok reg).
Implicit Types (a b : adapter).

(** ** The saved lists *)

Lemma inv_keyed a : adapter_inv reg a → keyed (nodes (ad_editor a)).
Proof using Type.
  intros [_ [[Hd Hids _ _ _] _ _] _ _] k n Hin%elem_jget; [by apply Hids|done].
Qed.

Lemma elem_of_snap a d :
  adapter_inv reg a →
  d ∈ snap a ↔ ∃ i n, jget i (nodes (ad_editor a)) = Some n ∧ d = node_toJSON n ∧ nj_id d = Some i.
Proof using Type.
  intros [_ [[Hd Hids _ _ _] _ _] _ _]. unfold snap, getNodes, jvals.
  rewrite <- list_fmap_compose, list_elem_of_fmap. split.
  - intros ([i n] & -> & Hin). exists i, n. apply elem_jget in Hin; [|done].
    split_and!; [done..|]. simpl. by apply Hids.
  - intros (i & n & Hn & -> & Hi). exists (i, n). split; [done|]. by apply jget_elem.
Qed.

Lemma snap_lookup a i :
  adapter_inv reg a →
  (∃ d, d ∈ snap a ∧ nj_id d = Some i) ↔ is_Some (jget i (nodes (ad_editor a))).
Proof using Type.
  intros H. setoid_rewrite elem_of_snap; [|done]. split.
  - intros (d & (k & n & Hn & -> & Hk) & Hi). rewrite Hk in Hi. injection Hi as <-. by eexists.
  - intros [n Hn]. exists (node_toJSON n). pose proof H as [_ [[_ Hids _ _ _] _ _] _ _].
    split; [|by apply Hids]. exists i, n. split_and!; [done..|]. by apply Hids.
Qed.

Lemma snap_fresh a i :
  adapter_inv reg a → jget i (nodes (ad_editor a)) = None →
  ∀ d, d ∈ snap a → has_id i d = false.
Proof using Type.
  intros H Hi d Hd. apply bool_decide_eq_false. intros E.
  destruct (proj1 (snap_lookup a i H)) as [n Hn]; [by exists d|congruence].
Qed.

Lemma snap_removeNode a i :
  adapter_inv reg a →
  snap (removeNode a i).1 = bfilter (λ d, negb (has_id i d)) (snap a) ∧
  conns (removeNode a i).1 = bfilter (λ c, negb (involvesNode c i)) (conns a).
Proof using Type.
  intros H. pose proof H as [_ [[Hd Hids _ Hc _] _ _] _ _].
  unfold snap, conns, removeNode, Editor.removeNode.
  destruct (jget i (nodes (ad_editor a))) as [n|] eqn:E; simpl; rewrite ?handlers_editor; simpl.
  - split; [|done]. by apply json_jdel, inv_keyed.
  - split; symmetry; apply bfilter_all.
    + intros d Hin. by rewrite (snap_fresh a i).
    + intros c Hin. destruct (Hc c Hin) as (_ & _ & s & t & _ & _ & Hs & Ht & _).
      unfold involvesNode. rewrite !bool_decide_false; [done|congruence..].
Qed.

Lemma snap_updatePosition a i p :
  adapter_inv reg a →
  snap (updatePosition a i p).1 = json_move i p <$> snap a ∧
  conns (updatePosition a i p).1 = conns a.
Proof using Type.
  intros H. pose proof H as [_ _ Hs _]. pose proof (inv_keyed a H) as Hk.
  unfold snap, conns, updatePosition, updateNodePosition, getNode, getNodes.
  destruct (jget i (nodes (ad_editor a))) as [n|] eqn:E; simpl.
  - destruct (same_position (node_position n) p) eqn:Ep; simpl.
    + apply same_position_true in Ep. rewrite <- json_jalter by done. split; [|done].
      f_equal. f_equal. symmetry. unfold jalter. rewrite <- (list_fmap_id (nodes (ad_editor a))) at 2.
      apply Forall_fmap_ext_1, Forall_forall. intros [k m] Hin. csimpl.
      case_bool_decide; [|done]. subst. pose proof H as [_ [[Hd _ _ _ _] _ _] _ _].
      apply elem_jget in Hin; [|done]. rewrite E in Hin. injection Hin as <-. by destruct n.
    + rewrite handlers_move by done. simpl. split; [by apply json_jalter|done].
  - split; [|done]. rewrite <- json_jalter by done. by rewrite jalter_absent.
Qed.

(** A class's instance as [addNodeWithId] puts it in the graph. *)
Definition placed (cls : node_class) (i : string) (c : jsobj) (p : position) : node :=
  with_position (with_id (setConfig (with_id (nc_new cls) (Some i)) c) (Some i)) p.

Lemma snap_addNodeWithId a ty p i c cls :
  adapter_inv reg a → getNodeClass reg ty = Some cls → i ≠ "" →
  jget i (nodes (ad_editor a)) = None →
  let a' := (addNodeWithId reg a ty p i (Some c)).1 in
  snap a' = snap a ++ [node_toJSON (placed cls i c p)] ∧ conns a' = conns a.
Proof using Type.
  intros H Hc Hi Hfresh. unfold addNodeWithId. rewrite Hc.
  set (n := setConfig _ c).
  assert (node_id n = Some i) as Hn by (unfold n, setConfig; by destruct (hiddenDefaults _)).
  rewrite (addNode_instance_spec _ _ _ _ Hn Hi). cbn -[emit].
  assert (∀ b k, snap (with_editor b (with_counter (ad_editor b) k)) = snap b ∧
                 conns (with_editor b (with_counter (ad_editor b) k)) = conns b) as Hcnt by done.
  set (b := foldl _ _ _).
  assert (nodes (ad_editor b) = nodes (ad_editor a) ++ [(i, placed cls i c p)] ∧
          connections (ad_editor b) = connections (ad_editor a)) as [Hbn Hbc].
  { unfold b. rewrite handlers_editor. simpl. by rewrite mset_fresh. }
  assert (snap b = snap a ++ [node_toJSON (placed cls i c p)] ∧ conns b = conns a) as Hb.
  { unfold snap, conns, getNodes, jvals. rewrite Hbn, Hbc. by rewrite !fmap_app. }
  destruct (id_number i); simpl; [by rewrite (proj1 (Hcnt _ _)), (proj2 (Hcnt _ _))|done].
Qed.

(** ** Connections over the saved lists *)

(** The check of [addConnection], on saved nodes: the end points fit, and the
    connection is new. *)
Definition fits (ns : list node_json) (s sh t th : string) : Prop :=
  (∃ ds dt ks kt po pi,
    ds ∈ ns ∧ nj_id ds = Some s ∧ dt ∈ ns ∧ nj_id dt = Some t ∧
    getNodeClass reg (nj_type ds) = Some ks ∧ getNodeClass reg (nj_type dt) = Some kt ∧
    jget sh (outputs (nc_new ks)) = Some po ∧ jget th (inputs (nc_new kt)) = Some pi ∧
    isCompatible (port_socket po) (Some (port_socket pi)) = true) ∧
  s ≠ t.

Definition acceptable (ns : list node_json) (cs : list connection) (s sh t th : string) : Prop :=
  fits ns s sh t th ∧ generateId s sh t th ∉ conn_id <$> cs.

Lemma fits_perm ns ns' s sh t th : ns ≡ₚ ns' → fits ns s sh t th → fits ns' s sh t th.
Proof using Type. unfold fits. intros Hn. by setoid_rewrite Hn. Qed.

(** An accepted connection is one that fits the nodes. *)
Lemma node_class_of a i n :
  adapter_inv reg a → jget i (nodes (ad_editor a)) = Some n →
  ∃ cls, getNodeClass reg (node_type n) = Some cls ∧
    inputs n = inputs (nc_new cls) ∧ outputs n = outputs (nc_new cls).
Proof using Hreg.
  intros [Hr [_ Hn _] _ _] E. destruct (Hn _ _ E) as [(cls & Hc & Hi) _].
  exists cls. rewrite Hr, jget_buildNodeRegistry in Hc by apply Hreg.
  split; [done|]. split; apply Hi.
Qed.

Lemma conn_ok_fits a c :
  adapter_inv reg a →
  conn_ok (nodes (ad_editor a)) c ↔
  fits (snap a) (source c) (sourceHandle c) (target c) (targetHandle c) ∧
  conn_id c = generateId (source c) (sourceHandle c) (target c) (targetHandle c).
Proof using Hreg.
  intros H. split.
  - intros (Hid & Hne & s & t & po & pi & Hs & Ht & Hpo & Hpi & Hc). split; [|done]. split; [|done].
    destruct (node_class_of _ _ _ H Hs) as (ks & Hks & _ & Hos).
    destruct (node_class_of _ _ _ H Ht) as (kt & Hkt & Hit & _).
    pose proof H as [_ [[_ Hids _ _ _] _ _] _ _].
    exists (node_toJSON s), (node_toJSON t), ks, kt, po, pi. rewrite <- Hos, <- Hit.
    destruct (Hids _ _ Hs) as [His _], (Hids _ _ Ht) as [Hit' _].
    split_and!; try done; (apply elem_of_snap; [done|]);
      [by exists (source c), s|by exists (target c), t].
  - intros [[(ds & dt & ks & kt & po & pi & Hds & Hs & Hdt & Ht & Hks & Hkt & Hpo & Hpi & Hc) Hne] Hid].
    split; [done|]. split; [done|].
    apply elem_of_snap in Hds as (i & n & Hn & -> & Hi); [|done].
    apply elem_of_snap in Hdt as (j & m & Hm & -> & Hj); [|done].
    rewrite Hs in Hi. rewrite Ht in Hj. injection Hi as <-. injection Hj as <-.
    destruct (node_class_of _ _ _ H Hn) as (ks' & Hks' & _ & Hos).
    destruct (node_class_of _ _ _ H Hm) as (kt' & Hkt' & Hit & _).
    simpl in Hks, Hkt. rewrite Hks' in Hks. rewrite Hkt' in Hkt. simplify_eq.
    exists n, m, po, pi. by rewrite Hos, Hit.
Qed.

Lemma snap_addConnection a s sh t th :
  adapter_inv reg a → acceptable (snap a) (conns a) s sh t th →
  snap (addConnection a s sh t th).1 = snap a ∧
  conns (addConnection a s sh t th).1 = conns a ++ [new_connection s sh t th].
Proof using Hreg.
  intros H [Hfit Hnew].
  destruct (proj2 (conn_ok_fits a (new_connection s sh t th) H)) as
    (_ & _ & ns & nt & po & pi & Hs & Ht & Hpo & Hpi & Hc); [done|].
  unfold snap, conns, addConnection, Editor.addConnection. simpl in *.
  rewrite Hs, Ht, Hpo, Hpi. simpl. rewrite Hc. simpl.
  assert (existsb (λ c, conn_id c =s generateId s sh t th) (connections (ad_editor a)) = false) as ->.
  { apply existsb_false_iff. intros c Hin. apply bool_decide_eq_false. intros E. apply Hnew.
    rewrite <- E. by apply list_elem_of_fmap_2. }
  rewrite bool_decide_false by apply Hfit. simpl. by rewrite handlers_editor.
Qed.

Lemma remove_first_bfilter i (cs : list connection) :
  NoDup (conn_id <$> cs) →
  remove_first (λ c, conn_id c =s i) cs = bfilter (λ c, negb (conn_id c =s i)) cs.
Proof using Type.
  induction cs as [|c cs IH]; csimpl; [done|]. intros [Hn Hd]%NoDup_cons.
  case_bool_decide as E; simpl; [|by rewrite IH].
  symmetry. apply bfilter_all. intros c' Hc'. rewrite bool_decide_false; [done|].
  intros E'. apply Hn. rewrite E, <- E'. by apply list_elem_of_fmap_2.
Qed.

Lemma snap_removeConnection a i :
  adapter_inv reg a →
  snap (removeConnection a i).1 = snap a ∧
  conns (removeConnection a i).1 = bfilter (λ c, negb (conn_id c =s i)) (conns a).
Proof using Type.
  intros [_ [[_ _ _ _ Hcd] _ _] _ _]. unfold snap, conns, removeConnection, Editor.removeConnection.
  destruct (find_first _ _) as [c|] eqn:E; simpl; rewrite ?handlers_editor; simpl.
  - split; [done|]. by apply remove_first_bfilter.
  - split; [done|]. symmetry. apply bfilter_all. intros c Hc.
    rewrite find_first_None in E. by rewrite (E c Hc).
Qed.

(** ** The equivalence *)

Definition same_graph a b : Prop :=
  (adapter_inv reg a ↔ adapter_inv reg b) ∧ snap a ≡ₚ snap b ∧ conns a ≡ₚ conns b.

#[export] Instance same_graph_equivalence : Equivalence same_graph.
Proof using Type.
  split.
  - by intros a.
  - intros a b (? & ? & ?). by split_and!; symmetry.
  - intros a b c (? & ? & ?) (? & ? & ?). split_and!; by etrans.
Qed.

Lemma same_graph_intro a b :
  adapter_inv reg a → adapter_inv reg b → snap a ≡ₚ snap b → conns a ≡ₚ conns b → same_graph a b.
Proof using Type. intros. by split_and!. Qed.

Lemma same_graph_fresh a b i :
  adapter_inv reg b → same_graph a b → jget i (nodes (ad_editor b)) = None →
  jget i (nodes (ad_editor a)) = None.
Proof using Type.
  intros Hb (Hi & Hs & _) Hn. apply eq_None_not_Some. rewrite <- snap_lookup by tauto.
  intros (d & Hd & Hid). rewrite Hs in Hd.
  assert (is_Some (jget i (nodes (ad_editor b)))) as [? ?]; [|congruence].
  apply snap_lookup; [done|]. by exists d.
Qed.
End equiv.

Lemma bfilter_perm {A} (f : A → bool) (l k : list A) : l ≡ₚ k → bfilter f l ≡ₚ bfilter f k.
Proof.
  induction 1; simpl; repeat destruct (f _); try done;
    [by constructor|by constructor|by etrans].
Qed.
