(* ===== verification/JsString.v ===== *)
(** * Strings

    The string methods the program uses, on byte strings: [trim] and
    [toLowerCase] act on ASCII characters, as the keys and type names they are
    applied to are ASCII. *)

From S2P Require Import Prelude JsMap JsValue.

Definition is_space (c : ascii) : bool :=
  let n := Ascii.N_of_ascii c in (n =? 32)%N || ((9 <=? n)%N && (n <=? 13)%N).

Fixpoint trim_start (s : string) : string :=
  match s with
  | EmptyString => EmptyString
  | String c s' => if is_space c then trim_start s' else s
  end.

Fixpoint trim_end (s : string) : string :=
  match s with
  | EmptyString => EmptyString
  | String c s' =>
      match trim_end s' with
      | EmptyString => if is_space c then EmptyString else String c EmptyString
      | t => String c t
      end
  end.

(** [s.trim()] *)
Definition trim (s : string) : string := trim_end (trim_start s).

Definition lower_char (c : ascii) : ascii :=
  let n := Ascii.N_of_ascii c in
  if (65 <=? n)%N && (n <=? 90)%N then Ascii.ascii_of_N (n + 32) else c.

Definition upper_char (c : ascii) : ascii :=
  let n := Ascii.N_of_ascii c in
  if (97 <=? n)%N && (n <=? 122)%N then Ascii.ascii_of_N (n - 32) else c.

(** [s.toLowerCase()] *)
Fixpoint toLowerCase (s : string) : string :=
  match s with
  | EmptyString => EmptyString
  | String c s => String (lower_char c) (toLowerCase s)
  end.

(** [s.endsWith(t)] and [s.slice(0, -t.length)], together. *)
Fixpoint strip_suffix (t s : string) : option string :=
  if s =s t then Some EmptyString
  else match s with
       | EmptyString => None
       | String c s => String c <$> strip_suffix t s
       end.

(** [s.split(c)] *)
Fixpoint split_on (c : ascii) (s : string) : list string :=
  match s with
  | EmptyString => [EmptyString]
  | String d s =>
      match split_on c s with
      | [] => [String d EmptyString]
      | w :: ws => if bool_decide (c = d) then EmptyString :: w :: ws else String d w :: ws
      end
  end.

(** [l.join(sep)] *)
Fixpoint join (sep : string) (l : list string) : string :=
  match l with
  | [] => ""
  | [s] => s
  | s :: l => s +:+ sep +:+ join sep l
  end.

(** Whether [String(v).trim()] is empty. An array is printed with commas
    between its elements, [null] and [undefined] elements as nothing. *)
Fixpoint prints_blank (v : jsval) : bool :=
  match v with
  | JStr s => trim s =s ""
  | JArr [] => true
  | JArr [x] => is_nullish x || prints_blank x
  | _ => false
  end.

Lemma trim_start_idem s : trim_start (trim_start s) = trim_start s.
Proof.
  induction s as [|c s IH]; simpl; [done|]. destruct (is_space c) eqn:E; [done|]. simpl. by rewrite E.
Qed.

Lemma trim_end_idem s : trim_end (trim_end s) = trim_end s.
Proof.
  induction s as [|c s IH]; simpl; [done|].
  destruct (trim_end s) as [|d t] eqn:E; simpl in *.
  - destruct (is_space c) eqn:Ec; simpl; [done|]. by rewrite Ec.
  - by rewrite IH.
Qed.

Lemma trim_start_trim_end s : trim_start s = s → trim_start (trim_end s) = trim_end s.
Proof.
  destruct s as [|c s]; simpl; [done|]. destruct (is_space c) eqn:E; [|].
  - intros H. exfalso.
    assert (∀ s, String.length (trim_start s) ≤ String.length s)%nat as Hl.
    { clear. induction s as [|c s IH]; simpl; [lia|]. destruct (is_space c); simpl; lia. }
    specialize (Hl s). rewrite H in Hl. simpl in Hl. lia.
  - intros _. destruct (trim_end s); simpl; by rewrite E.
Qed.

Lemma trim_idem s : trim (trim s) = trim s.
Proof.
  unfold trim. rewrite (trim_start_trim_end (trim_start s)) by apply trim_start_idem.
  apply trim_end_idem.
Qed.

Lemma str_app_length (a b : string) : String.length (a +:+ b) = (String.length a + String.length b)%nat.
Proof. induction a as [|x a IH]; simpl; [done|]. by rewrite IH. Qed.

(** [chunk.charAt(0).toUpperCase() + chunk.slice(1)] *)
Definition capitalize (s : string) : string :=
  match s with
  | EmptyString => EmptyString
  | String c s => String (upper_char c) s
  end.

(** [String(v)], given how numbers are printed. *)
Section js_String.
Context (num_toString : num → string).

Fixpoint js_String (v : jsval) : string :=
  match v with
  | JUndef => "undefined"
  | JNull => "null"
  | JBool true => "true"
  | JBool false => "false"
  | JNum n => num_toString n
  | JStr s => s
  | JArr l => join "," ((λ x, if is_nullish x then "" else js_String x) <$> l)
  | JObj _ => "[object Object]"
  end.
End js_String.
