(* ===== verification/Regex.v ===== *)
(** * Regular expressions

    The patterns of the program that are more than a test of characters, as
    expressions that are matched by derivatives, against their usual meaning. *)

From S2P Require Import Prelude JsString.

Inductive re :=
| Never
| Empty
| Char (f : ascii → bool)
| Either (a b : re)
| Then (a b : re)
| Many (a : re).

(** What an expression means. *)
Inductive in_re : re → string → Prop :=
| in_Empty : in_re Empty ""
| in_Char f c : f c = true → in_re (Char f) (String c "")
| in_Left a b s : in_re a s → in_re (Either a b) s
| in_Right a b s : in_re b s → in_re (Either a b) s
| in_Then a b s t : in_re a s → in_re b t → in_re (Then a b) (s +:+ t)
| in_Done a : in_re (Many a) ""
| in_More a s t : in_re a s → in_re (Many a) t → in_re (Many a) (s +:+ t).

Fixpoint nullable (r : re) : bool :=
  match r with
  | Never | Char _ => false
  | Empty | Many _ => true
  | Either a b => nullable a || nullable b
  | Then a b => nullable a && nullable b
  end.

(** Sequences and choices, without what never matches. *)
Definition re_then (a b : re) : re :=
  match a with Never => Never | Empty => b | _ => match b with Never => Never | _ => Then a b end end.
Definition re_either (a b : re) : re :=
  match a, b with Never, _ => b | _, Never => a | _, _ => Either a b end.

Fixpoint deriv (c : ascii) (r : re) : re :=
  match r with
  | Never | Empty => Never
  | Char f => if f c then Empty else Never
  | Either a b => re_either (deriv c a) (deriv c b)
  | Then a b =>
      if nullable a then re_either (re_then (deriv c a) b) (deriv c b) else re_then (deriv c a) b
  | Many a => re_then (deriv c a) (Many a)
  end.

Fixpoint matches (r : re) (s : string) : bool :=
  match s with EmptyString => nullable r | String c s => matches (deriv c r) s end.

Lemma in_Never s : ¬ in_re Never s.
Proof. by inversion 1. Qed.

Lemma in_then_inv a b u : in_re (Then a b) u → ∃ s t, u = s +:+ t ∧ in_re a s ∧ in_re b t.
Proof. inversion 1; subst; eauto. Qed.

Lemma in_either_inv a b s : in_re (Either a b) s ↔ in_re a s ∨ in_re b s.
Proof. split; [inversion 1; auto|]. intros [?|?]; by constructor. Qed.

Lemma in_re_then a b s : in_re (re_then a b) s ↔ in_re (Then a b) s.
Proof.
  assert (∀ x, in_re (Then Never x) s ↔ in_re Never s) as H1.
  { intros x. split; [intros (?&?&_&H&_)%in_then_inv|intros H]; by apply in_Never in H. }
  assert (∀ x, in_re (Then x Never) s ↔ in_re Never s) as H2.
  { intros x. split; [intros (?&?&_&_&H)%in_then_inv|intros H]; by apply in_Never in H. }
  assert (∀ x, in_re (Then Empty x) s ↔ in_re x s) as H3.
  { intros x. split; [intros (?&t&->&H&?)%in_then_inv; by inversion H|intros H; exact (in_Then Empty x "" s in_Empty H)]. }
  destruct a; simpl; rewrite ?H1, ?H3; try done; destruct b; rewrite ?H2; done.
Qed.

Lemma in_re_either a b s : in_re (re_either a b) s ↔ in_re (Either a b) s.
Proof.
  rewrite in_either_inv. pose proof (in_Never s). destruct a; simpl; try tauto; destruct b; rewrite ?in_either_inv; tauto.
Qed.

Lemma nullable_spec r : nullable r = true ↔ in_re r "".
Proof.
  induction r as [| |f|a IHa b IHb|a IHa b IHb|a IHa]; simpl.
  - split; [done|intros []%in_Never].
  - split; [constructor|done].
  - split; [done|inversion 1].
  - rewrite orb_true_iff, IHa, IHb. by rewrite in_either_inv.
  - rewrite andb_true_iff, IHa, IHb. split; [intros [? ?]; exact (in_Then a b "" "" ltac:(done) ltac:(done))|].
    intros (s & t & E & ? & ?)%in_then_inv. by destruct s, t.
  - split; [constructor|done].
Qed.

Lemma in_many_cons a c s : in_re (Many a) (String c s) → ∃ u v, s = u +:+ v ∧ in_re a (String c u) ∧ in_re (Many a) v.
Proof.
  remember (Many a) as r eqn:Er. remember (String c s) as w eqn:Ew. intros H. revert a c s Er Ew.
  induction H as [| | | | |a|a u t Ha _ Hm IHm]; intros a' c' s' Er Ew; try done.
  injection Er as ->. destruct u as [|d u]; simpl in Ew; [by apply (IHm a')|]. injection Ew as -> <-. eauto.
Qed.

Lemma deriv_spec c r s : in_re (deriv c r) s ↔ in_re r (String c s).
Proof.
  revert s. induction r as [| |f|a IHa b IHb|a IHa b IHb|a IHa]; intros s; simpl.
  - split; intros []%in_Never.
  - split; [intros []%in_Never|inversion 1].
  - destruct (f c) eqn:E.
    + split; [inversion 1; subst; by constructor|]. inversion 1; subst. constructor.
    + split; [intros []%in_Never|]. inversion 1; subst. congruence.
  - rewrite in_re_either, !in_either_inv. by rewrite IHa, IHb.
  - assert (in_re (Then (deriv c a) b) s ↔ ∃ u v, s = u +:+ v ∧ in_re a (String c u) ∧ in_re b v) as H1.
    { split; [intros (u & v & -> & H & ?)%in_then_inv; apply IHa in H; eauto|].
      intros (u & v & -> & H & ?). apply IHa in H. by constructor. }
    assert (in_re (Then a b) (String c s) ↔
      (in_re a "" ∧ in_re b (String c s)) ∨ ∃ u v, s = u +:+ v ∧ in_re a (String c u) ∧ in_re b v) as H2.
    { split.
      - intros (u & v & E & ? & ?)%in_then_inv. destruct u as [|d u]; [change (String c s = v) in E; subst; by left|].
        change (String c s = String d (u +:+ v)) in E. injection E as <- ->. right. eauto.
      - intros [[? ?]|(u & v & -> & ? & ?)]; [exact (in_Then a b "" _ ltac:(done) ltac:(done))|].
        exact (in_Then a b (String c u) v ltac:(done) ltac:(done)). }
    rewrite H2, <- nullable_spec. destruct (nullable a).
    + rewrite in_re_either, in_either_inv, in_re_then, H1, IHb. tauto.
    + rewrite in_re_then, H1. split; [by right|]. intros [[? _]|?]; done.
  - rewrite in_re_then. split.
    + intros (u & v & -> & H & ?)%in_then_inv. apply IHa in H. exact (in_More a (String c u) v ltac:(done) ltac:(done)).
    + intros (u & v & -> & H & ?)%in_many_cons. apply IHa in H. by constructor.
Qed.

(** Matching by derivatives is the meaning. *)
Lemma matches_spec r s : matches r s = true ↔ in_re r s.
Proof. revert r. induction s as [|c s IH]; intros r; simpl; [apply nullable_spec|]. by rewrite IH, deriv_spec. Qed.

(** ** Common patterns *)

Fixpoint lit (s : string) : re :=
  match s with EmptyString => Empty | String c s => Then (Char (λ d, bool_decide (d = c))) (lit s) end.
Definition some_of (a : re) : re := Then a (Many a).
Definition maybe (a : re) : re := Either a Empty.
Definition anything : re := Many (Char (λ _, true)).
Definition spaces : re := Many (Char is_space).
