(* ===== verification/History.v ===== *)
(** * Undo and redo (core/history.js)

    [HistoryManager] keeps two stacks of actions, each a pair of closures over
    the program's state.  Here the state is a type [W] and a closure is a
    function on it that may throw.  The manager itself is a record; its
    operations thread it and, for [undo] and [redo], the world.  The stacks are
    the program's arrays, the top at the end.  An action run by [undo] or [redo]
    cannot record ([_recording] is off), so it acts on the world only.  The
    [timestamp] field of a stored action is never read and is left out. *)

From S2P Require Import Prelude JsMap JsValue.

Record action (W : Type) := Action {
  description : string;
  act_undo : W → W * outcome unit;
  act_redo : W → W * outcome unit;
}.
Arguments Action {_}.
Arguments description {_}.
Arguments act_undo {_}.
Arguments act_redo {_}.

Record history (W : Type) := History {
  undoStack : list (action W);
  redoStack : list (action W);
  maxSize : nat;
  recording : bool;
  hist_callbacks : list nat;
  currentBatch : option (list (action W));
}.
Arguments History {_}.
Arguments undoStack {_}.
Arguments redoStack {_}.
Arguments maxSize {_}.
Arguments recording {_}.
Arguments hist_callbacks {_}.
Arguments currentBatch {_}.

(** A call of a subscriber: the callback and what it is told. *)
Record notification := Notification {
  nt_callback : nat;
  nt_canUndo : bool;
  nt_canRedo : bool;
}.

(** [Array.prototype.pop] *)
Fixpoint pop {A} (l : list A) : option (list A * A) :=
  match l with
  | [] => None
  | x :: l =>
      match pop l with
      | None => Some ([], x)
      | Some (l', y) => Some (x :: l', y)
      end
  end.

Lemma pop_snoc {A} (l : list A) x : pop (l ++ [x]) = Some (l, x).
Proof. induction l as [|y l IH]; simpl; [done|]. by rewrite IH. Qed.

Lemma pop_None {A} (l : list A) : pop l = None ↔ l = [].
Proof. induction l using rev_ind; [done|]. rewrite pop_snoc. split; [done|]. by destruct l. Qed.

Lemma pop_Some {A} (l l' : list A) x : pop l = Some (l', x) ↔ l = l' ++ [x].
Proof.
  split; [|intros ->; apply pop_snoc]. induction l using rev_ind; [done|].
  rewrite pop_snoc. by intros [= -> ->].
Qed.

(** Run closures one after the other; an exception stops the loop. *)
Fixpoint run_all {W} (fs : list (W → W * outcome unit)) (w : W) : W * outcome unit :=
  match fs with
  | [] => (w, Ret tt)
  | f :: fs =>
      match f w with
      | (w, Ret _) => run_all fs w
      | (w, Throw msg) => (w, Throw msg)
      end
  end.

Section operations.
Context {W : Type}.
Implicit Types (h : history W) (a : action W) (w : W).

(** [new HistoryManager(options)]; [options.maxSize || 50]. *)
Definition new_history (size : option nat) : history W :=
  History [] []
    (match size with Some (S n) => S n | _ => 50 end) true [] None.

Definition with_stacks h (u r : list (action W)) : history W :=
  History u r (maxSize h) (recording h) (hist_callbacks h) (currentBatch h).
Definition with_recording h (b : bool) : history W :=
  History (undoStack h) (redoStack h) (maxSize h) b (hist_callbacks h) (currentBatch h).
Definition with_batch h (b : option (list (action W))) : history W :=
  History (undoStack h) (redoStack h) (maxSize h) (recording h) (hist_callbacks h) b.
Definition with_hist_callbacks h (cbs : list nat) : history W :=
  History (undoStack h) (redoStack h) (maxSize h) (recording h) cbs (currentBatch h).

Definition canUndo h : bool := negb (bool_decide (length (undoStack h) = 0)).
Definition canRedo h : bool := negb (bool_decide (length (redoStack h) = 0)).

(** [onChange(callback)]; the returned function is [hist_off]. *)
Definition hist_onChange h (cb : nat) : history W :=
  with_hist_callbacks h (hist_callbacks h ++ [cb]).
Definition hist_off h (cb : nat) : history W :=
  with_hist_callbacks h (bfilter (λ c, negb (Nat.eqb c cb)) (hist_callbacks h)).

(** [_notify()] *)
Definition notify h : list notification :=
  (λ cb, Notification cb (canUndo h) (canRedo h)) <$> hist_callbacks h.

Definition startBatch h : history W := with_batch h (Some []).

(** [push(action)] *)
Definition push h a : history W * list notification :=
  if negb (recording h) then (h, [])
  else
    match currentBatch h with
    | Some batch => (with_batch h (Some (batch ++ [a])), [])
    | None =>
        let u := undoStack h ++ [a] in
        let u := if (maxSize h <? length u)%nat then tail u else u in
        let h := with_stacks h u [] in
        (h, notify h)
    end.

(** The action a batch becomes. *)
Definition batch_action (descr : string) (batch : list (action W)) : action W :=
  Action descr (run_all (act_undo <$> reverse batch)) (run_all (act_redo <$> batch)).

(** [commitBatch(description)] *)
Definition commitBatch h (descr : string) : history W * list notification :=
  match currentBatch h with
  | None | Some [] => (with_batch h None, [])
  | Some batch => push (with_batch h None) (batch_action descr batch)
  end.

(** [undo()]: the flag is restored even when the action throws, but the
    action is then on neither stack. *)
Definition undo h w : history W * W * outcome bool * list notification :=
  match pop (undoStack h) with
  | None => (h, w, Ret false, [])
  | Some (u, a) =>
      let h := with_stacks h u (redoStack h) in
      match act_undo a w with
      | (w, Throw msg) => (with_recording h true, w, Throw msg, [])
      | (w, Ret _) =>
          let h := with_recording (with_stacks h u (redoStack h ++ [a])) true in
          (h, w, Ret true, notify h)
      end
  end.

(** [redo()] *)
Definition redo h w : history W * W * outcome bool * list notification :=
  match pop (redoStack h) with
  | None => (h, w, Ret false, [])
  | Some (r, a) =>
      let h := with_stacks h (undoStack h) r in
      match act_redo a w with
      | (w, Throw msg) => (with_recording h true, w, Throw msg, [])
      | (w, Ret _) =>
          let h := with_recording (with_stacks h (undoStack h ++ [a]) r) true in
          (h, w, Ret true, notify h)
      end
  end.

Definition hist_clear h : history W * list notification :=
  let h := with_stacks h [] [] in (h, notify h).

Definition pause h : history W := with_recording h false.
Definition resume h : history W := with_recording h true.
End operations.

(** ** Runs *)

Inductive hist_op (W : Type) :=
| HPush (a : action W)
| HStartBatch
| HCommitBatch (descr : string)
| HUndo
| HRedo
| HClear
| HPause
| HResume.
Arguments HPush {_}.
Arguments HStartBatch {_}.
Arguments HCommitBatch {_}.
Arguments HUndo {_}.
Arguments HRedo {_}.
Arguments HClear {_}.
Arguments HPause {_}.
Arguments HResume {_}.

Definition hist_step {W} (hw : history W * W) (o : hist_op W) : history W * W :=
  let '(h, w) := hw in
  match o with
  | HPush a => ((push h a).1, w)
  | HStartBatch => (startBatch h, w)
  | HCommitBatch d => ((commitBatch h d).1, w)
  | HUndo => let '(h, w, _, _) := undo h w in (h, w)
  | HRedo => let '(h, w, _, _) := redo h w in (h, w)
  | HClear => ((hist_clear h).1, w)
  | HPause => (pause h, w)
  | HResume => (resume h, w)
  end.

Section bounds.
Context {W : Type}.
Implicit Types (h : history W) (w : W).

(** The two stacks never hold more than [maxSize] actions between them. *)
Definition bounded h : Prop :=
  (0 < maxSize h ∧ length (undoStack h) + length (redoStack h) ≤ maxSize h)%nat.

Lemma push_bounded h a : bounded h → bounded (push h a).1.
Proof.
  intros [H1 H2]. unfold push, bounded. destruct (negb _); [done|].
  destruct (currentBatch h); [done|]. simpl. split; [done|].
  rewrite length_app. simpl. destruct (Nat.ltb_spec (maxSize h) (length (undoStack h) + 1)).
  - destruct (undoStack h) as [|x u]; simpl in *; [lia|]. rewrite length_app. simpl. lia.
  - rewrite length_app. simpl. lia.
Qed.

Lemma undo_bounded h w : bounded h → bounded (undo h w).1.1.1.
Proof.
  intros [H1 H2]. unfold undo, bounded. destruct (pop _) as [[u a]|] eqn:E; [|done].
  apply pop_Some in E. rewrite E, length_app in H2. simpl in H2.
  destruct (act_undo a w) as [w' []]; simpl; rewrite ?length_app; simpl; lia.
Qed.

Lemma redo_bounded h w : bounded h → bounded (redo h w).1.1.1.
Proof.
  intros [H1 H2]. unfold redo, bounded. destruct (pop _) as [[u a]|] eqn:E; [|done].
  apply pop_Some in E. rewrite E, length_app in H2. simpl in H2.
  destruct (act_redo a w) as [w' []]; simpl; rewrite ?length_app; simpl; lia.
Qed.

Lemma commitBatch_bounded h d : bounded h → bounded (commitBatch h d).1.
Proof.
  intros H. unfold commitBatch. destruct (currentBatch h) as [[|a b]|]; [done| |done].
  by apply push_bounded.
Qed.

Lemma hist_step_bounded h w o : bounded h → bounded (hist_step (h, w) o).1.
Proof.
  intros H. destruct o; simpl; try done.
  - by apply push_bounded.
  - by apply commitBatch_bounded.
  - pose proof (undo_bounded h w H). by destruct (undo h w) as [[[] ?] ?].
  - pose proof (redo_bounded h w H). by destruct (redo h w) as [[[] ?] ?].
  - split; simpl; [apply H|lia].
Qed.

Lemma new_history_bounded size : bounded (new_history (W := W) size).
Proof. unfold bounded. destruct size as [[|n]|]; simpl; lia. Qed.
End bounds.
