(* ===== verification/HistoryTimeline.v ===== *)
(** * The history manager implements a timeline

    The contract of undo and redo: the world moves along a line of states.  A
    [timeline] is the states before and after the present one; [session] are
    the runs of the manager by a client that pushes an action after performing
    it; the theorems say the manager and the world follow the timeline.  States
    are compared by an equivalence [R] of the client's choice. *)

From S2P Require Import Prelude JsMap JsValue History.

(** States oldest first before the present; next state last after it. *)
Record timeline (W : Type) := Timeline {
  past : list W;
  present : W;
  future : list W;
}.
Arguments Timeline {_}.
Arguments past {_}.
Arguments present {_}.
Arguments future {_}.

Section timeline_ops.
Context {W : Type}.

Definition t_undo (t : timeline W) : timeline W :=
  match pop (past t) with
  | None => t
  | Some (p, w) => Timeline p w (future t ++ [present t])
  end.

Definition t_redo (t : timeline W) : timeline W :=
  match pop (future t) with
  | None => t
  | Some (f, w) => Timeline (past t ++ [present t]) w f
  end.

(** A new present; the future is gone and the oldest state beyond [max] too. *)
Definition t_commit (max : nat) (t : timeline W) (w : W) : timeline W :=
  let p := past t ++ [present t] in
  Timeline (if (max <? length p)%nat then tail p else p) w [].
End timeline_ops.

Section refinement.
Context {W : Type} (R : relation W) `{!Equivalence R}.
Implicit Types (h : history W) (w : W) (a : action W) (t : timeline W).

(** [f] takes every state like [w] to one like [w'], without an exception. *)
Definition leads (f : W → W * outcome unit) w w' : Prop :=
  ∀ x, R x w → ∃ y, f x = (y, Ret tt) ∧ R y w'.

(** [a] was performed from [w] to [w']: it can be undone and redone. *)
Definition inverts a w w' : Prop :=
  leads (act_undo a) w' w ∧ leads (act_redo a) w w'.

Lemma leads_proper f w v w' : R w v → leads f w w' → leads f v w'.
Proof using Equivalence0. intros Hwv H x Hx. apply H. by rewrite Hx. Qed.

Lemma leads_proper_r f w w' v : R w' v → leads f w w' → leads f w v.
Proof using Equivalence0. intros Hwv H x Hx. destruct (H x Hx) as (y & ? & Hy). exists y. split; [done|]. by rewrite Hy. Qed.

(** Where an action leads matters up to the equivalence only. *)
Lemma inverts_proper a w v w' v' : R w v → R w' v' → inverts a w w' → inverts a v v'.
Proof using Equivalence0.
  intros Hv Hv' [Hu Hr]. split.
  - eapply leads_proper; [exact Hv'|]. by eapply leads_proper_r.
  - eapply leads_proper; [exact Hv|]. by eapply leads_proper_r.
Qed.

(** A list of actions performed one after the other. *)
Inductive performs : list (action W) → W → W → Prop :=
| performs_nil w : performs [] w w
| performs_cons a l w w1 w' : inverts a w w1 → performs l w1 w' → performs (a :: l) w w'.

Lemma run_all_app (fs gs : list (W → W * outcome unit)) w :
  run_all (fs ++ gs) w =
    match run_all fs w with
    | (w, Ret _) => run_all gs w
    | (w, Throw msg) => (w, Throw msg)
    end.
Proof using Type.
  revert w. induction fs as [|f fs IH]; intros w; simpl; [done|].
  destruct (f w) as [w1 [|]]; [apply IH|done].
Qed.

Lemma leads_app fs gs w w1 w' :
  leads (run_all fs) w w1 → leads (run_all gs) w1 w' → leads (run_all (fs ++ gs)) w w'.
Proof using Type.
  intros Hf Hg x Hx. destruct (Hf x Hx) as (y & Hy & Hyw).
  rewrite run_all_app, Hy. by apply Hg.
Qed.

Lemma leads_one f w w' : leads f w w' → leads (run_all [f]) w w'.
Proof using Type. intros H x Hx. destruct (H x Hx) as (y & Hy & ?). exists y. simpl. by rewrite Hy. Qed.

(** A batch undoes in reverse order and redoes in order, as one action. *)
Lemma batch_inverts d l w w' : performs l w w' → inverts (batch_action d l) w w'.
Proof using Type.
  intros H. unfold inverts, batch_action. simpl.
  induction H as [w|a l w w1 w' [Hu Hr] _ [IHu IHr]].
  - split; intros x Hx; by exists x.
  - rewrite reverse_cons, fmap_app. split; [|rewrite fmap_cons].
    + eapply leads_app; [done|]. by apply leads_one.
    + apply (leads_app [act_redo a] _ _ w1); [by apply leads_one|done].
Qed.

(** ** The simulation *)

Inductive undo_chain : list (action W) → list W → W → Prop :=
| undo_chain_nil w : undo_chain [] [] w
| undo_chain_snoc u p a w0 w :
    undo_chain u p w0 → inverts a w0 w → undo_chain (u ++ [a]) (p ++ [w0]) w.

Inductive redo_chain : list (action W) → list W → W → Prop :=
| redo_chain_nil w : redo_chain [] [] w
| redo_chain_snoc r f a w w1 :
    redo_chain r f w1 → inverts a w w1 → redo_chain (r ++ [a]) (f ++ [w1]) w.

Definition refines (hw : history W * W) t : Prop :=
  R hw.2 (present t) ∧
  undo_chain (undoStack hw.1) (past t) (present t) ∧
  redo_chain (redoStack hw.1) (future t) (present t).

Lemma undo_chain_inv u p w :
  undo_chain u p w →
  (u = [] ∧ p = []) ∨
  ∃ u' a p' w0, u = u' ++ [a] ∧ p = p' ++ [w0] ∧ undo_chain u' p' w0 ∧ inverts a w0 w.
Proof using Type. destruct 1; [by left|right]. eauto 10. Qed.

Lemma redo_chain_inv r f w :
  redo_chain r f w →
  (r = [] ∧ f = []) ∨
  ∃ r' a f' w1, r = r' ++ [a] ∧ f = f' ++ [w1] ∧ redo_chain r' f' w1 ∧ inverts a w w1.
Proof using Type. destruct 1; [by left|right]. eauto 10. Qed.

Lemma undo_chain_length u p w : undo_chain u p w → length u = length p.
Proof using Type. induction 1; [done|]. rewrite !length_app. simpl. lia. Qed.

(** Forgetting the oldest action. *)
Lemma undo_chain_tail u p w : undo_chain u p w → undo_chain (tail u) (tail p) w.
Proof using Type.
  induction 1 as [w|u p a w0 w Hc IH Hi]; [constructor|].
  destruct u as [|a0 u], p as [|p0 p].
  - constructor.
  - apply undo_chain_length in Hc. done.
  - apply undo_chain_length in Hc. done.
  - simpl in *. by constructor.
Qed.

Lemma refines_undo h w t :
  refines (h, w) t →
  ∃ h' w', undo h w = (h', w', Ret (canUndo h), if canUndo h then notify h' else []) ∧
    refines (h', w') (t_undo t) ∧
    (canUndo h = true → recording h' = true).
Proof using Type.
  intros (Hw & Hu & Hr). simpl in *. unfold undo, t_undo, canUndo.
  destruct (undo_chain_inv _ _ _ Hu) as [[E ->]|(u & a & p & w0 & E & -> & Hc & Hi)]; rewrite E.
  - exists h, w. simpl. split; [done|]. split; [by split|done].
  - rewrite !pop_snoc. destruct (proj1 Hi w Hw) as (y & Hy & Hy0). rewrite Hy.
    rewrite length_app, bool_decide_false by (simpl; lia). simpl.
    eexists _, _. split; [done|]. split; [|done]. split; [done|]. simpl. split; [done|].
    by constructor.
Qed.

Lemma refines_redo h w t :
  refines (h, w) t →
  ∃ h' w', redo h w = (h', w', Ret (canRedo h), if canRedo h then notify h' else []) ∧
    refines (h', w') (t_redo t) ∧
    (canRedo h = true → recording h' = true).
Proof using Type.
  intros (Hw & Hu & Hr). simpl in *. unfold redo, t_redo, canRedo.
  destruct (redo_chain_inv _ _ _ Hr) as [[E ->]|(r & a & f & w1 & E & -> & Hc & Hi)]; rewrite E.
  - exists h, w. simpl. split; [done|]. split; [by split|done].
  - rewrite !pop_snoc. destruct (proj2 Hi w Hw) as (y & Hy & Hy0). rewrite Hy.
    rewrite length_app, bool_decide_false by (simpl; lia). simpl.
    eexists _, _. split; [done|]. split; [|done]. split; [done|]. simpl. split; [|done].
    by constructor.
Qed.

Lemma refines_push h t a w' :
  undo_chain (undoStack h) (past t) (present t) → inverts a (present t) w' →
  recording h = true → currentBatch h = None →
  refines ((push h a).1, w') (t_commit (maxSize h) t w').
Proof using Equivalence0.
  intros Hu Hi Hrec Hb. unfold push, t_commit. rewrite Hrec, Hb. simpl.
  split; simpl; [reflexivity|]. split; [|constructor].
  assert (undo_chain (undoStack h ++ [a]) (past t ++ [present t]) w') as Hc by (by constructor).
  rewrite !length_app, (undo_chain_length _ _ _ Hu).
  destruct (_ <? _)%nat; [by apply undo_chain_tail|done].
Qed.

(** Pushing inside a batch only collects. *)
Lemma push_collect h b l :
  recording h = true → currentBatch h = Some b →
  foldl (λ h a, (push h a).1) h l = with_batch h (Some (b ++ l)).
Proof using Type.
  revert h b. induction l as [|a l IH]; intros h b Hr Hb; simpl.
  - rewrite app_nil_r. destruct h; simpl in *. by subst.
  - unfold push at 2. rewrite Hr, Hb. simpl. rewrite (IH _ (b ++ [a])) by done.
    unfold with_batch. simpl. by rewrite <- app_assoc.
Qed.

(** What the store does around a group of edits. *)
Definition run_batch h (d : string) (l : list (action W)) : history W :=
  (commitBatch (foldl (λ h a, (push h a).1) (startBatch h) l) d).1.

Lemma run_batch_push h d a l :
  recording h = true → currentBatch h = None →
  run_batch h d (a :: l) = (push h (batch_action d (a :: l))).1.
Proof using Type.
  intros Hr Hb. unfold run_batch. rewrite (push_collect _ []) by done.
  unfold commitBatch. simpl. f_equal. f_equal. destruct h; simpl in *. by subst.
Qed.

(** ** Sessions of a client *)

Inductive session : history W * W → timeline W → Prop :=
| ses_start h w :
    undoStack h = [] → redoStack h = [] → recording h = true → currentBatch h = None →
    session (h, w) (Timeline [] w [])
| ses_do h w t a w' :
    session (h, w) t → inverts a (present t) w' →
    session ((push h a).1, w') (t_commit (maxSize h) t w')
| ses_batch h w t d a l w' :
    session (h, w) t → performs (a :: l) (present t) w' →
    session (run_batch h d (a :: l), w') (t_commit (maxSize h) t w')
| ses_undo h w t : session (h, w) t → session (hist_step (h, w) HUndo) (t_undo t)
| ses_redo h w t : session (h, w) t → session (hist_step (h, w) HRedo) (t_redo t).

Lemma session_refines hw t :
  session hw t → refines hw t ∧ recording hw.1 = true ∧ currentBatch hw.1 = None.
Proof using Equivalence0.
  induction 1 as [h w Hu Hr Hrec Hb|h w t a w' Hs (IH & Hr & Hb) Hi|h w t d a l w' Hs (IH & Hr & Hb) Hp
    |h w t Hs (IH & Hr & Hb)|h w t Hs (IH & Hr & Hb)]; simpl in *.
  - split; [|done]. split; [simpl; reflexivity|]. simpl. rewrite Hu, Hr. split; constructor.
  - split; [apply refines_push; [apply IH|done..]|]. unfold push. by rewrite Hr, Hb.
  - rewrite run_batch_push by done.
    split; [apply refines_push; [apply IH|by apply batch_inverts|done..]|].
    unfold push. by rewrite Hr, Hb.
  - destruct (refines_undo _ _ _ IH) as (h' & w1 & E & Hf & _). rewrite E. split; [done|].
    unfold undo in E. destruct (pop _) as [[u a]|]; [|by injection E as <- <-].
    destruct (act_undo a w) as [? []]; by injection E as <- <-.
  - destruct (refines_redo _ _ _ IH) as (h' & w1 & E & Hf & _). rewrite E. split; [done|].
    unfold redo in E. destruct (pop _) as [[u a]|]; [|by injection E as <- <-].
    destruct (act_redo a w) as [? []]; by injection E as <- <-.
Qed.

(** ** Going back and forth *)

Lemma t_redo_undo t : past t ≠ [] → t_redo (t_undo t) = t.
Proof using Type.
  destruct t as [p w f]. unfold t_undo, t_redo. simpl. intros Hp.
  destruct p as [|w0 p _] using rev_ind; [done|]. rewrite pop_snoc. simpl. by rewrite pop_snoc.
Qed.

Lemma t_undo_past t : length (past (t_undo t)) = pred (length (past t)).
Proof using Type.
  destruct t as [p w f]. unfold t_undo. simpl. destruct p as [|w0 p _] using rev_ind; [done|].
  rewrite pop_snoc, length_app. simpl. lia.
Qed.

Lemma t_undo_redo_iter (k : nat) t : (k ≤ length (past t))%nat → Nat.iter k t_redo (Nat.iter k t_undo t) = t.
Proof using Type.
  revert t. induction k as [|k IH]; intros t Hk; [done|].
  rewrite Nat.iter_succ_r. change (Nat.iter (S k) t_undo t) with (t_undo (Nat.iter k t_undo t)).
  rewrite t_redo_undo; [apply IH; lia|].
  assert (∀ j, length (past (Nat.iter j t_undo t)) = length (past t) - j)%nat as Hl.
  { intros j. induction j as [|j IHj]; simpl; [lia|]. rewrite t_undo_past, IHj. lia. }
  intros E. specialize (Hl k). rewrite E in Hl. simpl in Hl. lia.
Qed.

Lemma session_iter k hw t :
  session hw t →
  session (Nat.iter k (λ hw, hist_step hw HUndo) hw) (Nat.iter k t_undo t) ∧
  session (Nat.iter k (λ hw, hist_step hw HRedo) hw) (Nat.iter k t_redo t).
Proof using Type.
  intros H. induction k as [|k [IHu IHr]]; simpl; [done|].
  destruct (Nat.iter k _ hw) as [hu wu], (Nat.iter k (λ hw, hist_step hw HRedo) hw) as [hr wr].
  split; [by apply (ses_undo hu)|by apply (ses_redo hr)].
Qed.
End refinement.

Lemma session_lengths {W} (R : relation W) `{!Equivalence R} hw t :
  session R hw t →
  R hw.2 (present t) ∧ length (undoStack hw.1) = length (past t) ∧
  length (redoStack hw.1) = length (future t).
Proof.
  intros ((Hw & Hu & Hr) & _ & _)%session_refines; [|done]. split; [done|].
  split; [by eapply undo_chain_length|]. clear -Hr.
  induction Hr; [done|]. rewrite !length_app. simpl. lia.
Qed.

(** ** Properties *)

Lemma push_maxSize {W} (h : history W) a : maxSize (push h a).1 = maxSize h.
Proof. unfold push. destruct (negb _); [done|]. by destruct (currentBatch h). Qed.

Lemma hist_step_maxSize {W} (h : history W) w o : maxSize (hist_step (h, w) o).1 = maxSize h.
Proof.
  destruct o; simpl; try done.
  - apply push_maxSize.
  - unfold commitBatch. destruct (currentBatch h) as [[]|]; try done. by rewrite push_maxSize.
  - unfold undo. destruct (pop _) as [[u a]|]; [|done]. by destruct (act_undo a w) as [? []].
  - unfold redo. destruct (pop _) as [[u a]|]; [|done]. by destruct (act_redo a w) as [? []].
Qed.

(** whatever is pushed, batched, undone, redone, cleared, paused or
    resumed, and whichever actions throw, the undo and redo stacks together
    hold at most [maxSize] actions: 50 when no size is given. *)
Theorem history_bounded {W} (size : option nat) (w : W) (ops : list (hist_op W)) :
  let h := (foldl hist_step (new_history size, w) ops).1 in
  (length (undoStack h) + length (redoStack h) ≤ maxSize (new_history (W := W) size))%nat.
Proof.
  assert (∀ ops (h : history W) (w : W), bounded h → let h' := (foldl hist_step (h, w) ops).1 in
            bounded h' ∧ maxSize h' = maxSize h) as Hgen.
  { clear. intros ops. induction ops as [|o ops IH]; intros h w H; cbn [foldl]; [done|].
    pose proof (hist_step_bounded h w o H) as Hb. pose proof (hist_step_maxSize h w o) as Hm.
    destruct (hist_step (h, w) o) as [h1 w1]. simpl in *. rewrite <- Hm. by apply IH. }
  destruct (Hgen ops (new_history size) w (new_history_bounded size)) as [[_ H] Hm].
  simpl in *. by rewrite <- Hm.
Qed.

(** C4: in every session (actions performed and pushed, alone or in batches,
    undone and redone in any order) the manager implements the timeline: the
    world is its present state, the stacks are as long as its past and future,
    and undo and redo answer, without an exception, whether there was a state
    to go to. *)
Theorem history_refines_timeline {W} (R : relation W) `{!Equivalence R} h w t :
  session R (h, w) t →
  R w (present t) ∧
  length (undoStack h) = length (past t) ∧ length (redoStack h) = length (future t) ∧
  (undo h w).1.2 = Ret (negb (bool_decide (length (past t) = 0))) ∧
  (redo h w).1.2 = Ret (negb (bool_decide (length (future t) = 0))) ∧
  R (undo h w).1.1.2 (present (t_undo t)) ∧ R (redo h w).1.1.2 (present (t_redo t)).
Proof.
  intros Hs. pose proof (session_lengths R _ _ Hs) as (Hw & Hlu & Hlr).
  apply session_refines in Hs as (Hf & _ & _); [|done]. simpl in *.
  destruct (refines_undo R _ _ _ Hf) as (h1 & w1 & -> & [Hu1 _] & _).
  destruct (refines_redo R _ _ _ Hf) as (h2 & w2 & -> & [Hr2 _] & _). simpl.
  unfold canUndo, canRedo. by rewrite Hlu, Hlr.
Qed.

(** A counter and the action that adds to it. *)
Definition add_action (z : Z) : action Z :=
  Action "add" (λ w, ((w - z)%Z, Ret tt)) (λ w, ((w + z)%Z, Ret tt)).

Lemma add_action_inverts z w : inverts eq (add_action z) w (w + z)%Z.
Proof. split; intros x ->; eexists; (split; [done|]); lia. Qed.

(** Add 5, then 2 and 3 as a batch, then undo the batch. *)
Definition demo_session : history Z * Z :=
  hist_step (run_batch (push (new_history (Some 2)) (add_action 5)).1 "batch"
    [add_action 2; add_action 3], 10%Z) HUndo.

Lemma demo_session_ok : session eq demo_session (Timeline [0%Z] 5%Z [10%Z]).
Proof.
  apply (ses_undo eq _ _ (Timeline [0%Z; 5%Z] 10%Z [])).
  apply (ses_batch eq (push (new_history (Some 2)) (add_action 5)).1 5%Z (Timeline [0%Z] 5%Z [])).
  - apply (ses_do eq (new_history (Some 2)) 0%Z (Timeline [] 0%Z [])); [by constructor|].
    apply (add_action_inverts 5 0).
  - econstructor; [apply (add_action_inverts 2 5)|].
    econstructor; [apply (add_action_inverts 3 7)|constructor].
Qed.

Lemma history_refines_timeline_witness : demo_session.2 = 5%Z.
Proof. exact (proj1 (history_refines_timeline eq _ _ _ demo_session_ok)). Defined.

(** undoing [k] actions and redoing [k] brings the world back, for any
    [k] up to the number of actions on the undo stack. *)
Theorem undo_redo_roundtrip {W} (R : relation W) `{!Equivalence R} h w t (k : nat) :
  session R (h, w) t → (k ≤ length (undoStack h))%nat →
  let back := Nat.iter k (λ hw, hist_step hw HUndo) (h, w) in
  let forth := Nat.iter k (λ hw, hist_step hw HRedo) back in
  R forth.2 w ∧ length (undoStack forth.1) = length (undoStack h) ∧
  length (redoStack forth.1) = length (redoStack h) ∧
  length (undoStack back.1) = (length (undoStack h) - k)%nat.
Proof.
  intros Hs Hk. simpl.
  pose proof (session_lengths R _ _ Hs) as (Hw & Hlu & Hlr). simpl in *.
  destruct (session_iter R k _ _ Hs) as [Hb _].
  pose proof (proj2 (session_iter R k _ _ Hb)) as Hf. rewrite t_undo_redo_iter in Hf by lia.
  pose proof (session_lengths R _ _ Hb) as (_ & Hbu & _).
  pose proof (session_lengths R _ _ Hf) as (Hfw & Hfu & Hfr).
  split_and!; [by rewrite Hfw, Hw|by rewrite Hfu|by rewrite Hfr|].
  rewrite Hbu, Hlu. clear. induction k as [|k IH]; simpl; [lia|]. rewrite t_undo_past, IH. lia.
Qed.

Lemma undo_redo_roundtrip_witness :
  (Nat.iter 1 (λ hw, hist_step hw HRedo)
    (Nat.iter 1 (λ hw, hist_step hw HUndo) demo_session)).2 = 5%Z.
Proof.
  exact (proj1 (undo_redo_roundtrip eq demo_session.1 demo_session.2 _ 1 demo_session_ok
    (le_n 1))).
Defined.

(** an action whose undo throws is on neither stack afterwards, recording
    is on again, the redo stack is as before and nobody is notified; the world
    is whatever the action left. *)
Theorem undo_throws {W} (h : history W) w w' u a msg :
  undoStack h = u ++ [a] → act_undo a w = (w', Throw msg) →
  undo h w = (History u (redoStack h) (maxSize h) true (hist_callbacks h) (currentBatch h),
              w', Throw msg, []).
Proof. intros Hu Ha. unfold undo. by rewrite Hu, pop_snoc, Ha. Qed.

Lemma undo_throws_witness :
  undo (History [Action "boom" (λ w, (w, Throw "boom")) (λ w, (w, Ret tt))] [add_action 1] 50
          false [] None) 7%Z =
    (History [] [add_action 1] 50 true [] None, 7%Z, Throw "boom", []).
Proof.
  exact (undo_throws (History [Action "boom" (λ w, (w, Throw "boom")) (λ w, (w, Ret tt))]
    [add_action 1] 50 false [] None) 7%Z 7%Z [] _ "boom" eq_refl eq_refl).
Defined.
