(* ===== verification/Commands.v ===== *)
(** * Undoable commands (the factory functions of core/history.js)

    Each function builds the pair of closures for one edit of the graph, over
    the adapter.  The closures ignore what the adapter answers; none of the
    calls they make throws. *)

From S2P Require Import Prelude JsMap JsValue Socket Connection Control Node Editor EditorInv EditorJson Adapter AdapterInv AdapterEquiv History HistoryTimeline.

(** What a command remembers of a node. *)
Record node_data := NodeData {
  nd_id : string;
  nd_type : string;
  nd_position : position;
  nd_config : jsobj;
}.

(** What it remembers of a connection: the fields of a connection or of its
    copy in the adapter's state. *)
Record conn_data := ConnData {
  cd_id : string;
  cd_source : string;
  cd_sourceHandle : string;
  cd_target : string;
  cd_targetHandle : string;
}.

Definition conn_data_of (c : connection) : conn_data :=
  ConnData (conn_id c) (source c) (sourceHandle c) (target c) (targetHandle c).

Definition conn_data_of_ui (c : ui_connection) : conn_data :=
  ConnData (uc_id c) (uc_source c) (uc_sourceHandle c) (uc_target c) (uc_targetHandle c).

Record node_move := NodeMove {
  mv_nodeId : string;
  mv_oldPosition : position;
  mv_newPosition : position;
}.

Section commands.
Context (reg : odoo_registry).

(** A closure that calls the adapter and drops the answer. *)
Definition call {R} (f : adapter → adapter * R) (a : adapter) : adapter * outcome unit :=
  ((f a).1, Ret tt).

Definition restore_node (d : node_data) (a : adapter) : adapter :=
  (addNodeWithId reg a (nd_type d) (nd_position d) (nd_id d) (Some (nd_config d))).1.

Definition restore_connection (a : adapter) (c : conn_data) : adapter :=
  (addConnection a (cd_source c) (cd_sourceHandle c) (cd_target c) (cd_targetHandle c)).1.

Definition createAddNodeAction (d : node_data) : action adapter :=
  Action ("Add " +:+ nd_type d +:+ " node")
    (call (λ a, removeNode a (nd_id d)))
    (λ a, (restore_node d a, Ret tt)).

Definition createRemoveNodeAction (d : node_data) (related : list conn_data) : action adapter :=
  Action ("Remove " +:+ nd_type d +:+ " node")
    (λ a, (foldl restore_connection (restore_node d a) related, Ret tt))
    (call (λ a, removeNode a (nd_id d))).

Definition createMoveNodeAction (nodeId : string) (oldPos newPos : position) : action adapter :=
  Action "Move node"
    (call (λ a, updatePosition a nodeId oldPos))
    (call (λ a, updatePosition a nodeId newPos)).

Definition createMoveNodesAction (moves : list node_move) : action adapter :=
  Action "Move nodes"
    (λ a, (foldl (λ a m, (updatePosition a (mv_nodeId m) (mv_oldPosition m)).1) a moves, Ret tt))
    (λ a, (foldl (λ a m, (updatePosition a (mv_nodeId m) (mv_newPosition m)).1) a moves, Ret tt)).

Definition createAddConnectionAction (c : conn_data) : action adapter :=
  Action "Add connection"
    (call (λ a, removeConnection a (cd_id c)))
    (λ a, (restore_connection a c, Ret tt)).

Definition createRemoveConnectionAction (c : conn_data) : action adapter :=
  Action "Remove connection"
    (λ a, (restore_connection a c, Ret tt))
    (call (λ a, removeConnection a (cd_id c))).
End commands.

(** ** Commands invert edits

    When a command is built for the edit that led from [w] to [w'], undoing it
    leads from any graph like [w'] to one like [w], and redoing it back.  Graphs
    are compared by what they save, up to order. *)

Section inversion.
Context (reg : odoo_registry) (Hreg : odoo_ok reg).
Notation "a ≡g b" := (same_graph reg a b) (at level 70).
Notation inv := (adapter_inv reg).
Implicit Types (w x : adapter).

(** A restored node, as it is saved. *)
Definition restored_json (cls : node_class) (d : node_data) : node_json :=
  node_toJSON (placed cls (nd_id d) (nd_config d) (nd_position d)).

Lemma restored_json_id cls d : nj_id (restored_json cls d) = Some (nd_id d).
Proof using Type. done. Qed.

(** [x] is like [w] and [w] satisfies the invariant. *)
Lemma same_graph_inv x w : inv w → x ≡g w → inv x.
Proof using Type. intros ? (? & _). tauto. Qed.

Lemma leads_same f w w' :
  inv w → inv w' →
  (∀ x, inv x → snap x ≡ₚ snap w → conns x ≡ₚ conns w →
     ∃ y, f x = (y, Ret tt) ∧ inv y ∧ snap y ≡ₚ snap w' ∧ conns y ≡ₚ conns w') →
  leads (same_graph reg) f w w'.
Proof using Type.
  intros Hw Hw' Hf x (Hi & Hs & Hc). destruct (Hf x) as (y & -> & ? & ? & ?); [tauto|done|done|].
  exists y. split; [done|]. by apply same_graph_intro.
Qed.

(** The part of an edit that puts a node with a new id into the graph. *)
Definition adds_node (cls : node_class) (d : node_data) w w' : Prop :=
  getNodeClass reg (nd_type d) = Some cls ∧ nd_id d ≠ "" ∧
  jget (nd_id d) (nodes (ad_editor w)) = None ∧
  snap w' ≡ₚ snap w ++ [restored_json cls d].

(** Removing it again. *)
Lemma adds_node_undo cls d w w' x :
  inv w → adds_node cls d w w' → inv x → snap x ≡ₚ snap w' →
  inv (removeNode x (nd_id d)).1 ∧ snap (removeNode x (nd_id d)).1 ≡ₚ snap w.
Proof using Hreg.
  intros Hw (Hc & Hne & Hf & Hs) Hx Hsx. split; [by apply removeNode_inv|].
  destruct (snap_removeNode reg x (nd_id d) Hx) as [-> _].
  rewrite (bfilter_perm _ _ _ Hsx), (bfilter_perm _ _ _ Hs), bfilter_app. simpl.
  unfold has_id at 2. rewrite restored_json_id, bool_decide_true by done. simpl.
  rewrite app_nil_r. rewrite bfilter_all; [done|].
  intros e He. by rewrite (snap_fresh reg w (nd_id d)).
Qed.

(** Restoring it. *)
Lemma adds_node_redo cls d w w' x :
  inv w → adds_node cls d w w' → inv x → snap x ≡ₚ snap w → conns x ≡ₚ conns w →
  inv (restore_node reg d x) ∧ snap (restore_node reg d x) ≡ₚ snap w' ∧
  conns (restore_node reg d x) = conns x.
Proof using Hreg.
  intros Hw (Hc & Hne & Hf & Hs) Hx Hsx Hcx. unfold restore_node.
  assert (jget (nd_id d) (nodes (ad_editor x)) = None) as Hfx.
  { apply (same_graph_fresh reg x w); [done| |done]. by apply same_graph_intro. }
  destruct (snap_addNodeWithId reg x (nd_type d) (nd_position d) (nd_id d) (nd_config d) cls)
    as [-> ->]; [done..|].
  split; [by apply addNodeWithId_inv|]. split; [|done]. by rewrite Hs, Hsx.
Qed.

(** Connections of a well-formed graph do not touch a missing node. *)
Lemma conns_untouched w i :
  inv w → jget i (nodes (ad_editor w)) = None →
  ∀ c, c ∈ conns w → involvesNode c i = false.
Proof using Type.
  intros [_ [[_ _ _ Hc _] _ _] _ _] Hi c Hin.
  destruct (Hc c Hin) as (_ & _ & s & t & _ & _ & Hs & Ht & _).
  unfold involvesNode. rewrite !bool_decide_false; [done|congruence..].
Qed.

Lemma add_node_inverts cls d w w' :
  inv w → inv w' → adds_node cls d w w' → conns w' ≡ₚ conns w →
  inverts (same_graph reg) (createAddNodeAction reg d) w w'.
Proof using Hreg.
  intros Hw Hw' Ha Hcw. split; apply leads_same; try done; intros x Hx Hsx Hcx.
  - exists (removeNode x (nd_id d)).1. split; [done|].
    destruct (adds_node_undo cls d w w' x) as [Hi Hs]; [done..|]. split_and!; [done..|].
    destruct (snap_removeNode reg x (nd_id d) Hx) as [_ ->].
    rewrite (bfilter_perm _ _ _ Hcx), (bfilter_perm _ _ _ Hcw).
    rewrite bfilter_all; [done|]. intros c Hc. rewrite (conns_untouched w); [done|done|apply Ha|done].
  - exists (restore_node reg d x). split; [done|].
    destruct (adds_node_redo cls d w w' x) as (? & ? & ->); [done..|]. split_and!; [done..|].
    by rewrite Hcx.
Qed.

(** Restoring connections that all fit and are not there yet. *)
Lemma restore_connections x w base cs :
  inv w → inv x → snap x ≡ₚ snap w → conns x ≡ₚ base → conns w ≡ₚ base ++ cs →
  (∀ c, c ∈ cs → c = new_connection (source c) (sourceHandle c) (target c) (targetHandle c)) →
  let y := foldl restore_connection x (conn_data_of <$> cs) in
  inv y ∧ snap y ≡ₚ snap w ∧ conns y ≡ₚ conns w.
Proof using Hreg.
  intros Hw. revert x base. induction cs as [|c cs IH]; intros x base Hx Hs Hc Hcw Hnew; csimpl.
  { rewrite app_nil_r in Hcw. split_and!; [done..|]. by rewrite Hc, Hcw. }
  assert (c ∈ conns w) as Hin by (rewrite Hcw; set_solver).
  pose proof Hw as [_ [[_ _ _ Hcok Hcd] _ _] _ _]. pose proof (Hcok c Hin) as Hok.
  apply (conn_ok_fits reg Hreg w c Hw) in Hok as [Hfit Hid].
  assert (conn_id c ∉ conn_id <$> base) as Hfresh.
  { change (connections (ad_editor w)) with (conns w) in Hcd. rewrite Hcw, fmap_app in Hcd.
    apply NoDup_app in Hcd as (_ & Hcd & _). intros Hb. apply (Hcd _ Hb). left. }
  destruct (snap_addConnection reg Hreg x (source c) (sourceHandle c) (target c) (targetHandle c))
    as [Es Ec]; [done|split; [by eapply fits_perm; [symmetry|]|by rewrite Hc, <- Hid]|].
  rewrite <- (Hnew c) in Ec by left.
  apply (IH _ (base ++ [c])); unfold restore_connection; simpl.
  - by apply addConnection_inv.
  - by rewrite Es.
  - by rewrite Ec, Hc.
  - by rewrite <- app_assoc.
  - intros; apply Hnew; by right.
Qed.

(** Undoing the removal of a node [d] whose saved form is what a restored
    node saves, with the connections [cs] at it. *)
Lemma remove_node_inverts cls d cs w w' :
  inv w → inv w' → adds_node cls d w' w → conns w ≡ₚ conns w' ++ cs →
  (∀ c, c ∈ cs → involvesNode c (nd_id d) = true ∧
     c = new_connection (source c) (sourceHandle c) (target c) (targetHandle c)) →
  inverts (same_graph reg) (createRemoveNodeAction reg d (conn_data_of <$> cs)) w w'.
Proof using Hreg.
  intros Hw Hw' Ha Hcw Hcs. split; apply leads_same; try done; intros x Hx Hsx Hcx.
  - destruct (adds_node_redo cls d w' w x) as (Hi & Hs & Hc); [done..|].
    eexists. split; [done|].
    apply (restore_connections _ w (conns w') cs); [done|done|done|by rewrite Hc|done|].
    intros c Hin. by apply Hcs.
  - exists (removeNode x (nd_id d)).1. split; [done|].
    destruct (adds_node_undo cls d w' w x) as [Hi Hs]; [done..|]. split_and!; [done..|].
    destruct (snap_removeNode reg x (nd_id d) Hx) as [_ ->].
    rewrite (bfilter_perm _ _ _ Hcx), (bfilter_perm _ _ _ Hcw), bfilter_app.
    rewrite bfilter_all, bfilter_none; [by rewrite app_nil_r| |].
    + intros c Hc. by rewrite (proj1 (Hcs c Hc)).
    + intros c Hc. rewrite (conns_untouched w'); [done|done|apply Ha|done].
Qed.

(** Moving distinct nodes from where they are. *)
Definition move_all (pos : node_move → position) (ms : list node_move) (x : adapter) : adapter :=
  foldl (λ a m, (updatePosition a (mv_nodeId m) (pos m)).1) x ms.

Lemma snap_move_all pos ms x :
  inv x →
  inv (move_all pos ms x) ∧
  snap (move_all pos ms x) =
    foldl (λ l m, json_move (mv_nodeId m) (pos m) <$> l) (snap x) ms ∧
  conns (move_all pos ms x) = conns x.
Proof using Type.
  unfold move_all. revert x. induction ms as [|m ms IH]; intros x Hx; simpl; [done|].
  destruct (snap_updatePosition reg x (mv_nodeId m) (pos m) Hx) as [<- <-].
  apply IH. by apply updatePosition_inv.
Qed.

Lemma foldl_move_perm pos ms (l k : list node_json) :
  l ≡ₚ k →
  foldl (λ l m, json_move (mv_nodeId m) (pos m) <$> l) l ms ≡ₚ
  foldl (λ l m, json_move (mv_nodeId m) (pos m) <$> l) k ms.
Proof using Type.
  revert l k. induction ms as [|m ms IH]; intros l k H; simpl; [done|].
  apply IH. by rewrite H.
Qed.

(** The moves of one node seen alone. *)
Definition json_moves (pos : node_move → position) (ms : list node_move) (d : node_json) : node_json :=
  foldl (λ d m, json_move (mv_nodeId m) (pos m) d) d ms.

Lemma foldl_move_map pos ms (l : list node_json) :
  foldl (λ l m, json_move (mv_nodeId m) (pos m) <$> l) l ms = json_moves pos ms <$> l.
Proof using Type.
  unfold json_moves. revert l. induction ms as [|m ms IH]; intros l; simpl; [by rewrite list_fmap_id|].
  rewrite IH. by rewrite <- list_fmap_compose.
Qed.

Lemma json_moves_other pos ms d :
  (∀ m, m ∈ ms → nj_id d ≠ Some (mv_nodeId m)) → json_moves pos ms d = d.
Proof using Type.
  unfold json_moves. induction ms as [|m ms IH]; intros H; simpl; [done|].
  unfold json_move at 2, has_id. rewrite bool_decide_false by (apply H; left).
  apply IH. intros; apply H; by right.
Qed.

(** Over distinct nodes only the last position counts. *)
Lemma json_moves_eq pos ms d :
  NoDup (mv_nodeId <$> ms) →
  (∃ m, m ∈ ms ∧ nj_id d = Some (mv_nodeId m) ∧ json_moves pos ms d = json_at (pos m) d) ∨
  ((∀ m, m ∈ ms → nj_id d ≠ Some (mv_nodeId m)) ∧ json_moves pos ms d = d).
Proof using Type.
  intros Hd. destruct (decide (Exists (λ m, nj_id d = Some (mv_nodeId m)) ms)) as [He|He].
  - left. apply Exists_exists in He as (m & Hm & Hid). exists m. split_and!; [done..|].
    apply list_elem_of_split in Hm as (l1 & l2 & ->).
    rewrite fmap_app in Hd. csimpl in Hd. apply NoDup_app in Hd as (_ & Hd1 & [Hd2 _]%NoDup_cons).
    unfold json_moves. rewrite foldl_app. simpl.
    fold (json_moves pos l1 d). rewrite json_moves_other.
    + unfold json_move, has_id. rewrite bool_decide_true by done.
      apply json_moves_other. simpl. intros m' Hm'. rewrite Hid. intros [= E].
      apply Hd2. rewrite E. by apply list_elem_of_fmap_2.
    + intros m' Hm' E. rewrite Hid in E. injection E as E. apply (Hd1 (mv_nodeId m')).
      * by apply list_elem_of_fmap_2.
      * rewrite <- E. left.
  - right. assert (∀ m, m ∈ ms → nj_id d ≠ Some (mv_nodeId m)) as H
      by (intros m Hm E; apply He, Exists_exists; eauto).
    split; [done|]. by apply json_moves_other.
Qed.

Lemma move_nodes_inverts ms w w' :
  inv w → inv w' → NoDup (mv_nodeId <$> ms) →
  (∀ m d, m ∈ ms → d ∈ snap w → nj_id d = Some (mv_nodeId m) →
     nj_position d = Some (mv_oldPosition m)) →
  snap w' ≡ₚ json_moves mv_newPosition ms <$> snap w → conns w' ≡ₚ conns w →
  inverts (same_graph reg) (createMoveNodesAction ms) w w'.
Proof using Type.
  intros Hw Hw' Hd Hold Hs Hc. split; apply leads_same; try done; intros x Hx Hsx Hcx.
  - destruct (snap_move_all mv_oldPosition ms x Hx) as (Hi & Es & Ec).
    eexists. split; [done|]. unfold move_all in *. split; [done|]. rewrite Es, Ec.
    split; [|by rewrite Hcx]. rewrite (foldl_move_perm _ _ _ _ Hsx), (foldl_move_perm _ _ _ _ Hs).
    rewrite foldl_move_map, <- list_fmap_compose. rewrite <- (list_fmap_id (snap w)) at 2.
    apply Permutation_refl', Forall_fmap_ext_1, Forall_forall. intros d Hin. simpl.
    destruct (json_moves_eq mv_newPosition ms d Hd) as [(m & Hm & Hid & ->)|[Hno ->]].
    + destruct (json_moves_eq mv_oldPosition ms (json_at (mv_newPosition m) d) Hd)
        as [(m' & Hm' & Hid' & ->)|[Hno _]]; [|by destruct (Hno m Hm)].
      simpl in Hid'. pose proof (Hold m' d Hm' Hin Hid') as Hp. destruct d; simpl in *. by subst.
    + by apply json_moves_other.
  - destruct (snap_move_all mv_newPosition ms x Hx) as (Hi & Es & Ec).
    eexists. split; [done|]. unfold move_all in *. split; [done|]. rewrite Es, Ec.
    split; [|by rewrite Hcx]. by rewrite (foldl_move_perm _ _ _ _ Hsx), foldl_move_map.
Qed.

(** A single move is a list of one. *)
Lemma move_node_inverts i p q w w' :
  inv w → inv w' → (∀ d, d ∈ snap w → nj_id d = Some i → nj_position d = Some p) →
  snap w' ≡ₚ json_move i q <$> snap w → conns w' ≡ₚ conns w →
  inverts (same_graph reg) (createMoveNodeAction i p q) w w'.
Proof using Type.
  intros Hw Hw' Hp Hs Hc.
  apply (move_nodes_inverts [NodeMove i p q] w w' Hw Hw'); [by apply NoDup_singleton| |done|done].
  intros m d [->|[]%not_elem_of_nil]%elem_of_cons. apply Hp.
Qed.

(** A connection that was added, or removed. *)
Lemma connection_moves c w w' :
  inv w → inv w' → snap w' ≡ₚ snap w → conns w' ≡ₚ conns w ++ [c] →
  c = new_connection (source c) (sourceHandle c) (target c) (targetHandle c) →
  leads (same_graph reg) (call (λ a, removeConnection a (cd_id (conn_data_of c)))) w' w ∧
  leads (same_graph reg) (λ a, (restore_connection a (conn_data_of c), Ret tt)) w w'.
Proof using Hreg.
  intros Hw Hw' Hs Hc Hnew. split; apply leads_same; try done; intros x Hx Hsx Hcx.
  - eexists. split; [done|]. simpl. split; [by apply removeConnection_inv|].
    destruct (snap_removeConnection reg x (conn_id c) Hx) as [-> ->].
    split; [by rewrite Hsx, Hs|].
    rewrite (bfilter_perm _ _ _ Hcx), (bfilter_perm _ _ _ Hc), bfilter_app. simpl.
    rewrite bool_decide_true by done. simpl. rewrite app_nil_r, bfilter_all; [done|].
    intros c' Hc'. rewrite bool_decide_false; [done|]. intros E.
    destruct Hw' as [_ [[_ _ _ _ Hcd] _ _] _ _].
    change (connections (ad_editor w')) with (conns w') in Hcd.
    rewrite Hc, fmap_app in Hcd. apply NoDup_app in Hcd as (_ & Hcd & _).
    apply (Hcd (conn_id c')); [by apply list_elem_of_fmap_2|rewrite E; left].
  - eexists. split; [done|].
    apply (restore_connections x w' (conns w) [c]); [done|done|by rewrite Hsx, Hs|done|done|].
    intros c' [->|[]%not_elem_of_nil]%elem_of_cons. done.
Qed.

Lemma add_connection_inverts c w w' :
  inv w → inv w' → snap w' ≡ₚ snap w → conns w' ≡ₚ conns w ++ [c] →
  c = new_connection (source c) (sourceHandle c) (target c) (targetHandle c) →
  inverts (same_graph reg) (createAddConnectionAction (conn_data_of c)) w w'.
Proof using Hreg. intros. by apply connection_moves. Qed.

Lemma remove_connection_inverts c w w' :
  inv w → inv w' → snap w ≡ₚ snap w' → conns w ≡ₚ conns w' ++ [c] →
  c = new_connection (source c) (sourceHandle c) (target c) (targetHandle c) →
  inverts (same_graph reg) (createRemoveConnectionAction (conn_data_of c)) w w'.
Proof using Hreg.
  intros Hw Hw' Hs Hc Hn. destruct (connection_moves c w' w) as [? ?]; [done..|]. by split.
Qed.
End inversion.
