(* ===== verification/Connector.v ===== *)
(** * Connector request configurations (utils/connector_request_config.js)

    Before a snapshot is sent to the backend, the configuration of its connector
    nodes is stripped of the settings that mean "use the preset". *)

From S2P Require Import Prelude JsMap JsValue JsString Node.

Definition CONNECTOR_RELATION_KEYS : list string :=
  ["connector_id"; "workspace_id"; "endpoint_id"; "auth_profile_id"].

(** One row counts when it is an object with a key and is not switched off. *)
Definition enabled_row (row : jsval) : bool :=
  if negb (is_plain_object row) then false
  else
    let key := match prop row "key" with JStr k => trim k | _ => "" end in
    if key =s "" then false else negb (strict_eq (prop row "enabled") (JBool false)).

Definition hasEnabledKeyValueEntries (rows : jsval) : bool :=
  match rows with
  | JArr l => existsb enabled_row l
  | _ => false
  end.

Definition isBlankBodyConfig (bodyConfig : jsval) : bool :=
  if negb (is_plain_object bodyConfig) then true
  else
    let contentType :=
      match prop bodyConfig "content_type" with
      | JStr s => toLowerCase (trim s)
      | _ => "none"
      end in
    if (contentType =s "") || (contentType =s "none") then true
    else if (contentType =s "form_data") || (contentType =s "urlencoded")
    then negb (hasEnabledKeyValueEntries (prop bodyConfig "form_data"))
    else false.

(** [value === undefined || value === null || value === "" || value === 0] *)
Definition unset_relation (v : jsval) : bool :=
  is_nullish v || strict_eq v (JStr "") || strict_eq v (JInt 0).

(** [!String(v || "").trim()] *)
Definition blank_text (v : jsval) : bool := negb (truthy v) || prints_blank v.

(** [if (test(config[key])) delete config[key]] *)
Definition drop_if (test : jsval → bool) (config : jsobj) (key : string) : jsobj :=
  if test (oprop config key) then jdel key config else config.

Definition sanitizeConnectorRequestConfig (rawConfig : jsval) : jsobj :=
  match rawConfig with
  | JObj o =>
      let config := ospread [] o in
      let config := foldl (drop_if unset_relation) config CONNECTOR_RELATION_KEYS in
      let config := drop_if blank_text config "url" in
      let config := drop_if blank_text config "method" in
      let config := drop_if (λ v, negb (hasEnabledKeyValueEntries v)) config "headers" in
      let config := drop_if (λ v, negb (hasEnabledKeyValueEntries v)) config "query_params" in
      let config := drop_if isBlankBodyConfig config "body_config" in
      drop_if (λ v, is_nullish v || strict_eq v (JStr "")) config "timeout"
  | _ => []
  end.

(** The step on one node of a snapshot. *)
Definition sanitize_node (d : node_json) : node_json :=
  if nj_type d =s "connector_request"
  then NodeJson (nj_id d) (nj_type d) (nj_label d) (nj_position d)
         (Some (sanitizeConnectorRequestConfig (match nj_config d with Some c => JObj c | None => JUndef end)))
         (nj_meta d)
  else d.

(** ** What is dropped *)

(** The test each key is dropped by. *)
Definition drop_tests : list (string * (jsval → bool)) :=
  ((λ k, (k, unset_relation)) <$> CONNECTOR_RELATION_KEYS) ++
  [("url", blank_text); ("method", blank_text);
   ("headers", λ v, negb (hasEnabledKeyValueEntries v));
   ("query_params", λ v, negb (hasEnabledKeyValueEntries v));
   ("body_config", isBlankBodyConfig);
   ("timeout", λ v, is_nullish v || strict_eq v (JStr ""))].

Lemma sanitize_drops o :
  sanitizeConnectorRequestConfig (JObj o) =
    foldl (λ c kt, drop_if kt.2 c kt.1) (ospread [] o) drop_tests.
Proof.
  unfold sanitizeConnectorRequestConfig, drop_tests, CONNECTOR_RELATION_KEYS.
  cbn [fmap list_fmap app foldl fst snd]. reflexivity.
Qed.

Lemma jget_drop_if test config key k :
  jget k (drop_if test config key) =
    if (k =s key) && test (oprop config key) then None else jget k config.
Proof.
  unfold drop_if. destruct (test _); [|by rewrite andb_false_r]. rewrite andb_true_r. apply jget_jdel.
Qed.

Lemma jget_drops tests config k :
  NoDup (jkeys tests) →
  jget k (foldl (λ c kt, drop_if kt.2 c kt.1) config tests) =
    match jget k config, jget k tests with
    | Some v, Some test => if test v then None else Some v
    | r, _ => r
    end.
Proof.
  unfold jkeys. revert config. induction tests as [|[k1 t1] tests IH]; intros config; csimpl.
  { by destruct (jget k config). }
  intros [Hn Hd]%NoDup_cons. rewrite IH by done. rewrite jget_drop_if.
  destruct (bool_decide_reflect (k = k1)) as [->|Hk]; csimpl.
  - unfold oprop.
    assert (jget k1 tests = None) as -> by (by apply not_elem_of_jkeys).
    destruct (jget k1 config) as [v|] eqn:E; csimpl; [by destruct (t1 v)|by destruct (t1 JUndef)].
  - done.
Qed.

Lemma NoDup_drop_tests : NoDup (jkeys drop_tests).
Proof. apply (bool_decide_unpack _). by vm_compute. Qed.

Lemma jget_sanitize o k :
  NoDup (jkeys o) →
  jget k (sanitizeConnectorRequestConfig (JObj o)) =
    match jget k o, jget k drop_tests with
    | Some v, Some test => if test v then None else Some v
    | r, _ => r
    end.
Proof.
  intros Hd. rewrite sanitize_drops, jget_drops by apply NoDup_drop_tests.
  rewrite jget_ospread by done. by destruct (jget k o).
Qed.

Lemma drop_if_sublist test config key : sublist (drop_if test config key) config.
Proof. unfold drop_if. destruct (test _); [apply bfilter_sublist|done]. Qed.

Lemma drops_sublist tests config :
  sublist (foldl (λ c kt, drop_if kt.2 c kt.1) config tests) config.
Proof.
  revert config. induction tests as [|[k t] tests IH]; intros config; simpl; [done|].
  etrans; [apply IH|apply drop_if_sublist].
Qed.

Lemma obj_ok_drops tests config :
  obj_ok config → obj_ok (foldl (λ c kt, drop_if kt.2 c kt.1) config tests).
Proof.
  revert config. induction tests as [|[k t] tests IH]; intros config H; simpl; [done|].
  apply IH. unfold drop_if. destruct (t _); auto with js.
Qed.

Lemma sanitize_obj_ok o : obj_ok o → obj_ok (sanitizeConnectorRequestConfig (JObj o)).
Proof. intros H. rewrite sanitize_drops. apply obj_ok_drops. auto with js. Qed.

Lemma sanitize_sublist o : obj_ok o → sublist (sanitizeConnectorRequestConfig (JObj o)) o.
Proof.
  intros H. rewrite sanitize_drops. etrans; [apply drops_sublist|]. by rewrite ospread_nil_l.
Qed.

Lemma sublist_full {A} (l k : list A) : sublist l k → (length k ≤ length l)%nat → l = k.
Proof.
  induction 1 as [|x l k Hs IH|x l k Hs IH]; simpl; [done| |].
  - intros. f_equal. apply IH. lia.
  - apply sublist_length in Hs. lia.
Qed.

(** A function that only drops by tests on values drops nothing the second time. *)
Lemma drops_idempotent (f : jsobj → jsobj) (tests : list (string * (jsval → bool))) o :
  (∀ o, obj_ok o → obj_ok (f o)) → (∀ o, obj_ok o → sublist (f o) o) →
  (∀ o k, NoDup (jkeys o) →
     jget k (f o) = match jget k o, jget k tests with
                    | Some v, Some test => if test v then None else Some v
                    | r, _ => r
                    end) →
  obj_ok o → f (f o) = f o.
Proof.
  intros Hok Hsub Hg Ho. apply sublist_full; [by apply Hsub, Hok|].
  assert (jkeys (f o) ≡ₚ jkeys (f (f o))) as Hp.
  { apply NoDup_Permutation; [auto with js..|]. intros k. rewrite !elem_of_jkeys.
    rewrite (Hg (f o)), (Hg o) by auto with js.
    destruct (jget k o) as [v|], (jget k tests) as [t|]; try tauto.
    destruct (t v) eqn:E; [tauto|]. rewrite E. tauto. }
  apply Permutation_length in Hp. unfold jkeys in Hp. rewrite !length_fmap in Hp. lia.
Qed.

Lemma sanitize_again o :
  obj_ok o →
  sanitizeConnectorRequestConfig (JObj (sanitizeConnectorRequestConfig (JObj o))) =
  sanitizeConnectorRequestConfig (JObj o).
Proof.
  apply (drops_idempotent (λ o, sanitizeConnectorRequestConfig (JObj o)) drop_tests);
    [exact sanitize_obj_ok|exact sanitize_sublist|exact jget_sanitize].
Qed.

(** ** Properties *)

(** sanitizing the configuration of a connector drops a setting exactly
    when there is a rule for it that holds of its value, leaves the others with
    their values and in their order, and does nothing when it is repeated: a
    snapshot that was saved before is not stripped further. *)
Theorem sanitize_exact o :
  obj_ok o →
  let out := sanitizeConnectorRequestConfig (JObj o) in
  sublist out o ∧ sanitizeConnectorRequestConfig (JObj out) = out ∧
  ∀ k, jget k out = match jget k o, jget k drop_tests with
                    | Some v, Some test => if test v then None else Some v
                    | r, _ => r
                    end.
Proof.
  intros Ho out. split; [by apply sanitize_sublist|]. split; [by apply sanitize_again|].
  intros k. by apply jget_sanitize, obj_ok_NoDup.
Qed.

Lemma sanitize_exact_witness :
  let o := [("url", JStr "  "); ("connector_id", JInt 0); ("method", JStr "GET"); ("timeout", JInt 30)] in
  sanitizeConnectorRequestConfig (JObj o) = [("method", JStr "GET"); ("timeout", JInt 30)] ∧
  sanitizeConnectorRequestConfig (JObj (sanitizeConnectorRequestConfig (JObj o))) =
    sanitizeConnectorRequestConfig (JObj o).
Proof.
  intros o. split; [vm_compute; reflexivity|].
  assert (obj_ok o) as Ho by (split; apply (bool_decide_unpack _); vm_compute; exact I).
  exact (proj1 (proj2 (sanitize_exact o Ho))).
Defined.
