(* ===== verification/Store.v ===== *)
(** * The store: state (store/workflow_store.js)

    The service every component of the editor talks to.  The record [store]
    gathers what the program keeps in the closure of [start] and in its reactive
    [state]: the adapter, the history manager, the two read-only views, the user
    interface, the execution progress and the pinned data.  Promise-returning
    functions are split at their [await]: a request (what is sent) and a
    response (what the answer changes), so that other actions can run between
    the two.  Backend answers are values of [jsval]. *)

From S2P Require Import Prelude JsMap JsValue JsNumber JsString Socket Connection Control Node Editor Adapter History Commands Connector.

(** ** The user interface *)

Record panels_state := Panels {
  configOpen : bool;
  configNodeId : option string;
  menuOpen : bool;
  historyOpen : bool;
  executionLogOpen : bool;
}.

Definition with_menuOpen (p : panels_state) (x : bool) : panels_state :=
  Panels (configOpen p) (configNodeId p) x (historyOpen p) (executionLogOpen p).
Definition with_historyOpen (p : panels_state) (x : bool) : panels_state :=
  Panels (configOpen p) (configNodeId p) (menuOpen p) x (executionLogOpen p).
Definition with_executionLogOpen (p : panels_state) (x : bool) : panels_state :=
  Panels (configOpen p) (configNodeId p) (menuOpen p) (historyOpen p) x.
Definition with_config (p : panels_state) (o : bool) (i : option string) : panels_state :=
  Panels o i (menuOpen p) (historyOpen p) (executionLogOpen p).

Record node_menu := NodeMenu {
  nm_visible : bool;
  nm_x : num;
  nm_y : num;
  nm_canvasX : num;
  nm_canvasY : num;
  nm_variant : string;
  nm_connectionContext : jsval;
}.

Record hovered := Hovered {
  hc_id : option string;
  hc_midpoint : position;
  hc_canvasMidpoint : option position;
}.

(** [viewport] is the pair of [pan] and [zoom]; a view flag is its [active] with its id. *)
Record ui_state := UiState {
  selection : list string * list string;
  pan : position;
  zoom : num;
  focusNodeRequest : option (string * N);
  panels : panels_state;
  hoveredConnection : hovered;
  readonly : bool;
  saving : bool;
  executing : bool;
  ui_historyPreview : bool * jsval;
  ui_executionView : bool * jsval;
  ui_history : bool * bool;
  nodeMenu : node_menu;
}.

Definition with_selection (u : ui_state) (x : list string * list string) : ui_state :=
  UiState x (pan u) (zoom u) (focusNodeRequest u) (panels u) (hoveredConnection u) (readonly u) (saving u) (executing u) (ui_historyPreview u) (ui_executionView u) (ui_history u) (nodeMenu u).
Definition with_pan (u : ui_state) (x : position) : ui_state :=
  UiState (selection u) x (zoom u) (focusNodeRequest u) (panels u) (hoveredConnection u) (readonly u) (saving u) (executing u) (ui_historyPreview u) (ui_executionView u) (ui_history u) (nodeMenu u).
Definition with_zoom (u : ui_state) (x : num) : ui_state :=
  UiState (selection u) (pan u) x (focusNodeRequest u) (panels u) (hoveredConnection u) (readonly u) (saving u) (executing u) (ui_historyPreview u) (ui_executionView u) (ui_history u) (nodeMenu u).
Definition with_focus (u : ui_state) (x : option (string * N)) : ui_state :=
  UiState (selection u) (pan u) (zoom u) x (panels u) (hoveredConnection u) (readonly u) (saving u) (executing u) (ui_historyPreview u) (ui_executionView u) (ui_history u) (nodeMenu u).
Definition with_panels (u : ui_state) (x : panels_state) : ui_state :=
  UiState (selection u) (pan u) (zoom u) (focusNodeRequest u) x (hoveredConnection u) (readonly u) (saving u) (executing u) (ui_historyPreview u) (ui_executionView u) (ui_history u) (nodeMenu u).
Definition with_hovered (u : ui_state) (x : hovered) : ui_state :=
  UiState (selection u) (pan u) (zoom u) (focusNodeRequest u) (panels u) x (readonly u) (saving u) (executing u) (ui_historyPreview u) (ui_executionView u) (ui_history u) (nodeMenu u).
Definition with_readonly (u : ui_state) (x : bool) : ui_state :=
  UiState (selection u) (pan u) (zoom u) (focusNodeRequest u) (panels u) (hoveredConnection u) x (saving u) (executing u) (ui_historyPreview u) (ui_executionView u) (ui_history u) (nodeMenu u).
Definition with_saving (u : ui_state) (x : bool) : ui_state :=
  UiState (selection u) (pan u) (zoom u) (focusNodeRequest u) (panels u) (hoveredConnection u) (readonly u) x (executing u) (ui_historyPreview u) (ui_executionView u) (ui_history u) (nodeMenu u).
Definition with_executing (u : ui_state) (x : bool) : ui_state :=
  UiState (selection u) (pan u) (zoom u) (focusNodeRequest u) (panels u) (hoveredConnection u) (readonly u) (saving u) x (ui_historyPreview u) (ui_executionView u) (ui_history u) (nodeMenu u).
Definition with_ui_historyPreview (u : ui_state) (x : bool * jsval) : ui_state :=
  UiState (selection u) (pan u) (zoom u) (focusNodeRequest u) (panels u) (hoveredConnection u) (readonly u) (saving u) (executing u) x (ui_executionView u) (ui_history u) (nodeMenu u).
Definition with_ui_executionView (u : ui_state) (x : bool * jsval) : ui_state :=
  UiState (selection u) (pan u) (zoom u) (focusNodeRequest u) (panels u) (hoveredConnection u) (readonly u) (saving u) (executing u) (ui_historyPreview u) x (ui_history u) (nodeMenu u).
Definition with_ui_history (u : ui_state) (x : bool * bool) : ui_state :=
  UiState (selection u) (pan u) (zoom u) (focusNodeRequest u) (panels u) (hoveredConnection u) (readonly u) (saving u) (executing u) (ui_historyPreview u) (ui_executionView u) x (nodeMenu u).
Definition with_nodeMenu (u : ui_state) (x : node_menu) : ui_state :=
  UiState (selection u) (pan u) (zoom u) (focusNodeRequest u) (panels u) (hoveredConnection u) (readonly u) (saving u) (executing u) (ui_historyPreview u) (ui_executionView u) (ui_history u) x.

Definition closed_menu : node_menu := NodeMenu false 0 0 0 0 "default" JNull.
Definition no_hover : hovered := Hovered None origin None.

(** [DEFAULT_UI_STATE] *)
Definition DEFAULT_UI_STATE : ui_state :=
  UiState ([], []) origin 1%Qc None (Panels false None false false false) no_hover
    false false false (false, JNull) (false, JNull) (false, false) closed_menu.

(** ** The store *)

(** [historyPreview] or [executionView]: whether it is on, what it shows, and
    the graph to go back to. *)
Record preview := Preview {
  pv_active : bool;
  pv_id : jsval;
  pv_original : option workflow_json;
}.

Definition no_preview : preview := Preview false JNull None.

Record store := Store {
  st_adapter : adapter;
  st_history : history adapter;
  versionHash : jsval;
  workflowId : jsval;
  autoSave : bool;
  focusNodeRequestSeq : N;
  historyPreview : preview;
  executionView : preview;
  st_ui : ui_state;
  executionProgress : option jsobj;
  nodeTypes : list jsval;
  pinData : jsobj;
  workflowMetadata : jsobj;
  dimensions : jsobj;
}.

Definition with_adapter (s : store) (x : adapter) : store :=
  Store x (st_history s) (versionHash s) (workflowId s) (autoSave s) (focusNodeRequestSeq s) (historyPreview s) (executionView s) (st_ui s) (executionProgress s) (nodeTypes s) (pinData s) (workflowMetadata s) (dimensions s).
Definition with_history (s : store) (x : history adapter) : store :=
  Store (st_adapter s) x (versionHash s) (workflowId s) (autoSave s) (focusNodeRequestSeq s) (historyPreview s) (executionView s) (st_ui s) (executionProgress s) (nodeTypes s) (pinData s) (workflowMetadata s) (dimensions s).
Definition with_versionHash (s : store) (x : jsval) : store :=
  Store (st_adapter s) (st_history s) x (workflowId s) (autoSave s) (focusNodeRequestSeq s) (historyPreview s) (executionView s) (st_ui s) (executionProgress s) (nodeTypes s) (pinData s) (workflowMetadata s) (dimensions s).
Definition with_workflowId (s : store) (x : jsval) : store :=
  Store (st_adapter s) (st_history s) (versionHash s) x (autoSave s) (focusNodeRequestSeq s) (historyPreview s) (executionView s) (st_ui s) (executionProgress s) (nodeTypes s) (pinData s) (workflowMetadata s) (dimensions s).
Definition with_autoSave (s : store) (x : bool) : store :=
  Store (st_adapter s) (st_history s) (versionHash s) (workflowId s) x (focusNodeRequestSeq s) (historyPreview s) (executionView s) (st_ui s) (executionProgress s) (nodeTypes s) (pinData s) (workflowMetadata s) (dimensions s).
Definition with_focusSeq (s : store) (x : N) : store :=
  Store (st_adapter s) (st_history s) (versionHash s) (workflowId s) (autoSave s) x (historyPreview s) (executionView s) (st_ui s) (executionProgress s) (nodeTypes s) (pinData s) (workflowMetadata s) (dimensions s).
Definition with_historyPreview (s : store) (x : preview) : store :=
  Store (st_adapter s) (st_history s) (versionHash s) (workflowId s) (autoSave s) (focusNodeRequestSeq s) x (executionView s) (st_ui s) (executionProgress s) (nodeTypes s) (pinData s) (workflowMetadata s) (dimensions s).
Definition with_executionView (s : store) (x : preview) : store :=
  Store (st_adapter s) (st_history s) (versionHash s) (workflowId s) (autoSave s) (focusNodeRequestSeq s) (historyPreview s) x (st_ui s) (executionProgress s) (nodeTypes s) (pinData s) (workflowMetadata s) (dimensions s).
Definition with_ui (s : store) (x : ui_state) : store :=
  Store (st_adapter s) (st_history s) (versionHash s) (workflowId s) (autoSave s) (focusNodeRequestSeq s) (historyPreview s) (executionView s) x (executionProgress s) (nodeTypes s) (pinData s) (workflowMetadata s) (dimensions s).
Definition with_progress (s : store) (x : option jsobj) : store :=
  Store (st_adapter s) (st_history s) (versionHash s) (workflowId s) (autoSave s) (focusNodeRequestSeq s) (historyPreview s) (executionView s) (st_ui s) x (nodeTypes s) (pinData s) (workflowMetadata s) (dimensions s).
Definition with_nodeTypes (s : store) (x : list jsval) : store :=
  Store (st_adapter s) (st_history s) (versionHash s) (workflowId s) (autoSave s) (focusNodeRequestSeq s) (historyPreview s) (executionView s) (st_ui s) (executionProgress s) x (pinData s) (workflowMetadata s) (dimensions s).
Definition with_pinData (s : store) (x : jsobj) : store :=
  Store (st_adapter s) (st_history s) (versionHash s) (workflowId s) (autoSave s) (focusNodeRequestSeq s) (historyPreview s) (executionView s) (st_ui s) (executionProgress s) (nodeTypes s) x (workflowMetadata s) (dimensions s).
Definition with_metadata (s : store) (x : jsobj) : store :=
  Store (st_adapter s) (st_history s) (versionHash s) (workflowId s) (autoSave s) (focusNodeRequestSeq s) (historyPreview s) (executionView s) (st_ui s) (executionProgress s) (nodeTypes s) (pinData s) x (dimensions s).
Definition with_dimensions (s : store) (x : jsobj) : store :=
  Store (st_adapter s) (st_history s) (versionHash s) (workflowId s) (autoSave s) (focusNodeRequestSeq s) (historyPreview s) (executionView s) (st_ui s) (executionProgress s) (nodeTypes s) (pinData s) (workflowMetadata s) x.

(** What an action does besides changing the store. *)
Inductive effect :=
| Trigger (event : string) (detail : jsval)
| Notify (text type : string).

(** The subscriber the store registers with the history manager. *)
Definition store_callback : nat := 0.

Definition new_store (reg : odoo_registry) : store :=
  Store (new_adapter reg) (hist_onChange (new_history None) store_callback) JNull JNull true 0
    no_preview no_preview DEFAULT_UI_STATE None [] [] [] [].

(** [history.onChange((info) => ...)]: the flags of the toolbar. *)
Definition on_history_change (s : store) (n : notification) : store :=
  if Nat.eqb (nt_callback n) store_callback
  then with_ui s (with_ui_history (st_ui s) (nt_canUndo n, nt_canRedo n)) else s.

Definition set_history (s : store) (r : history adapter * list notification) : store :=
  foldl on_history_change (with_history s r.1) r.2.

(** [history.push(action)] *)
Definition record_action (s : store) (a : action adapter) : store :=
  set_history s (push (st_history s) a).

(** Shorthand for updates of the user interface. *)
Definition on_ui (f : ui_state → ui_state) (s : store) : store := with_ui s (f (st_ui s)).
Definition on_panels (f : panels_state → panels_state) : store → store :=
  on_ui (λ u, with_panels u (f (panels u))).

(** ** Selectors *)

Definition getNode (s : store) (nodeId : string) : option ui_node :=
  find_first (λ n, bool_decide (ui_id n = Some nodeId)) (state_nodes (st_adapter s)).
Definition getConnection (s : store) (connId : string) : option ui_connection :=
  find_first (λ c, uc_id c =s connId) (state_connections (st_adapter s)).
Definition ui_position (n : ui_node) : position := Position (ui_x n) (ui_y n).

Definition hasUnsavedChanges (s : store) : bool := canUndo (st_history s).

(** ** Graph actions *)

Definition clearExecution (s : store) : store := with_progress s None.

(** Run an adapter operation on the store. *)
Definition on_adapter {R} (s : store) (f : adapter → adapter * R) : store * R :=
  let '(a, r) := f (st_adapter s) in (with_adapter s a, r).

(** The step of [addNode] that adds one node and records it. *)
Definition add_and_record (reg : odoo_registry) (s : store) (type : string) (pos : position)
    (nodeId : string) : store :=
  record_action s (createAddNodeAction reg
    (NodeData nodeId type pos (Adapter.getNodeConfig (st_adapter s) nodeId))).

(** The step that connects and records when the connection was accepted. *)
Definition connect_and_record (s : store) (src sh tgt th : string) : store :=
  let '(s, conn) := on_adapter s (λ a, Adapter.addConnection a src sh tgt th) in
  match conn with
  | Some c => record_action s (createAddConnectionAction (conn_data_of c))
  | None => s
  end.

Definition LOOP_OFFSET_Y : num := num_of_Z 160.

(** [addNode(type, position)]; a loop comes with a placeholder in its cycle. *)
Definition addNode (reg : odoo_registry) (s : store) (type : string) (pos : position)
    : store * option string :=
  match on_adapter s (λ a, Adapter.addNode reg a type pos) with
  | (s, None) => (s, None)
  | (s, Some nodeId) =>
      let s := clearExecution s in
      let s := add_and_record reg s type pos nodeId in
      if type =s "loop" then
        let noopPos := Position (pos_x pos + num_of_Z 80)%Qc (pos_y pos + LOOP_OFFSET_Y)%Qc in
        match on_adapter s (λ a, Adapter.addNode reg a "noop" noopPos) with
        | (s, None) => (s, Some nodeId)
        | (s, Some noopId) =>
            let s := add_and_record reg s "noop" noopPos noopId in
            let s := connect_and_record s nodeId "loop" noopId "data" in
            let s := connect_and_record s noopId "result" nodeId "data" in
            (s, Some nodeId)
        end
      else (s, Some nodeId)
  end.

(** [moveNode(nodeId, position)] *)
Definition moveNode (s : store) (nodeId : string) (pos : position) : store :=
  match getNode s nodeId with
  | Some n =>
      let oldPosition := ui_position n in
      if same_position oldPosition pos then s
      else
        let s := (on_adapter s (λ a, updatePosition a nodeId pos)).1 in
        record_action s (createMoveNodeAction nodeId oldPosition pos)
  | None => (on_adapter s (λ a, updatePosition a nodeId pos)).1
  end.

(** The loop of [moveNodes] and [moveNodesTransient]: the nodes that exist and
    are elsewhere are moved; the moves made are collected. *)
Fixpoint move_entries (s : store) (updates : list (string * position)) : store * list node_move :=
  match updates with
  | [] => (s, [])
  | (nodeId, pos) :: updates =>
      match getNode s nodeId with
      | None => move_entries s updates
      | Some n =>
          let oldPosition := ui_position n in
          if same_position oldPosition pos then move_entries s updates
          else
            let s := (on_adapter s (λ a, updatePosition a nodeId pos)).1 in
            let '(s, moves) := move_entries s updates in
            (s, NodeMove nodeId oldPosition pos :: moves)
      end
  end.

(** [moveNodes(updates)] *)
Definition moveNodes (s : store) (updates : list (string * position)) : store :=
  match move_entries s updates with
  | (s, []) => s
  | (s, moves) => record_action s (createMoveNodesAction moves)
  end.

(** [moveNodesTransient(updates)] *)
Definition moveNodesTransient (s : store) (updates : list (string * position)) : store :=
  (move_entries s updates).1.

(** [recordMoveNodes(nodeMoves)] *)
Definition recordMoveNodes (s : store) (moves : list node_move) : store :=
  match moves with
  | [] => s
  | _ => record_action s (createMoveNodesAction moves)
  end.

(** [removeNode(nodeId)] *)
Definition removeNode (reg : odoo_registry) (s : store) (nodeId : string) : store * bool :=
  match getNode s nodeId with
  | None => (s, false)
  | Some n =>
      let s := clearExecution s in
      let s := with_pinData s (jdel nodeId (pinData s)) in
      let related := bfilter (λ c, (uc_source c =s nodeId) || (uc_target c =s nodeId))
                       (state_connections (st_adapter s)) in
      let config := Adapter.getNodeConfig (st_adapter s) nodeId in
      let d := NodeData (default "" (ui_id n)) (ui_type n) (ui_position n) config in
      let s := (on_adapter s (λ a, Adapter.removeNode a nodeId)).1 in
      (record_action s (createRemoveNodeAction reg d (conn_data_of_ui <$> related)), true)
  end.

(** [addConnection(source, sourceHandle, target, targetHandle)] *)
Definition addConnection (s : store) (src sh tgt th : string) : store * option string :=
  match on_adapter s (λ a, Adapter.addConnection a src sh tgt th) with
  | (s, Some c) =>
      let s := clearExecution s in
      (record_action s (createAddConnectionAction (conn_data_of c)), Some (conn_id c))
  | (s, None) => (s, None)
  end.

(** [removeConnection(connectionId)] *)
Definition removeConnection (s : store) (connectionId : string) : store * bool :=
  match getConnection s connectionId with
  | None => (s, false)
  | Some c =>
      let s := clearExecution s in
      let s := (on_adapter s (λ a, Adapter.removeConnection a connectionId)).1 in
      (record_action s (createRemoveConnectionAction (conn_data_of_ui c)), true)
  end.

(** ** Batches, undo and redo *)

Definition beginBatch (s : store) : store := with_history s (History.startBatch (st_history s)).

Definition endBatch (s : store) (descr : string) : store :=
  set_history s (commitBatch (st_history s) descr).

(** [undo()]: a warning when there was nothing to undo. *)
Definition undo (s : store) : store * outcome bool * list effect :=
  let '(h, a, r, ns) := History.undo (st_history s) (st_adapter s) in
  (set_history (with_adapter s a) (h, ns), r,
   match r with Ret false => [Notify "Nothing to undo." "warning"] | _ => [] end).

Definition redo (s : store) : store * outcome bool * list effect :=
  let '(h, a, r, ns) := History.redo (st_history s) (st_adapter s) in
  (set_history (with_adapter s a) (h, ns), r,
   match r with Ret false => [Notify "Nothing to redo." "warning"] | _ => [] end).

(** ** Selection, viewport and panels *)

Definition select (s : store) (nodeIds connectionIds : list string) : store :=
  on_ui (λ u, with_selection u (unique nodeIds, unique connectionIds)) s.

(** [focusNode(nodeId)] *)
Definition focusNode (s : store) (nodeId : string) : store :=
  if nodeId =s "" then s
  else
    let s := on_ui (λ u, with_selection u ([nodeId], [])) s in
    let s := with_focusSeq s (focusNodeRequestSeq s + 1) in
    on_ui (λ u, with_focus u (Some (nodeId, focusNodeRequestSeq s))) s.

Definition setViewport (s : store) (p : option position) (z : option num) : store :=
  on_ui (λ u, with_zoom (with_pan u (default (pan u) p)) (default (zoom u) z)) s.

(** [Math.max(0.1, Math.min(2, level))] *)
Definition MIN_ZOOM : num := Q2Qc (QArith_base.Qmake 1 10).
Definition MAX_ZOOM : num := num_of_Z 2.
Definition clamp_zoom (level : num) : num := num_max MIN_ZOOM (num_min MAX_ZOOM level).

Definition zoomTo (s : store) (level : num) : store := on_ui (λ u, with_zoom u (clamp_zoom level)) s.
Definition zoomBy (s : store) (delta : num) : store :=
  on_ui (λ u, with_zoom u (clamp_zoom (zoom u + delta)%Qc)) s.
Definition panBy (s : store) (dx dy : num) : store :=
  on_ui (λ u, with_pan u (Position (pos_x (pan u) + dx)%Qc (pos_y (pan u) + dy)%Qc)) s.
Definition resetViewport (s : store) : store := on_ui (λ u, with_zoom (with_pan u origin) 1%Qc) s.

Definition setReadonly (s : store) (v : bool) : store := on_ui (λ u, with_readonly u v) s.
Definition setSaving (s : store) (v : bool) : store := on_ui (λ u, with_saving u v) s.
Definition setExecuting (s : store) (v : bool) : store := on_ui (λ u, with_executing u v) s.

(** [bootstrapDimensions(config)] and [updateDimensionConfig(configPatch)]; the
    state is the configuration, the sizes are read off it. *)
Definition bootstrapDimensions (s : store) (config : jsobj) : store := with_dimensions s (ospread [] config).
Definition updateDimensionConfig (s : store) (configPatch : jsobj) : store :=
  bootstrapDimensions s (ospread (ospread [] (dimensions s)) configPatch).

Definition setNodeTypes (s : store) (types : jsval) : store := with_nodeTypes s (as_array types).

(** [openPanel(panelType, context)] *)
Definition openPanel (s : store) (panelType : string) (nodeId : option string) : store :=
  if panelType =s "config" then on_panels (λ p, with_config p true nodeId) s
  else if panelType =s "menu" then on_panels (λ p, with_menuOpen p true) s
  else if panelType =s "history" then on_panels (λ p, with_historyOpen p true) s
  else if panelType =s "executionLog" then on_panels (λ p, with_executionLogOpen p true) s
  else s.

(** [closePanel(panelType)] *)
Definition closePanel (s : store) (panelType : string) : store :=
  if panelType =s "config" then on_panels (λ p, with_config p false None) s
  else if panelType =s "menu" then on_panels (λ p, with_menuOpen p false) s
  else if panelType =s "history" then on_panels (λ p, with_historyOpen p false) s
  else if panelType =s "executionLog" then on_panels (λ p, with_executionLogOpen p false) s
  else s.

(** [setHoveredConnection({ id, midpoint, canvasMidpoint })]; an empty id is no id. *)
Definition setHoveredConnection (s : store) (id : option string) (midpoint canvasMidpoint : option position)
    : store :=
  match id with
  | Some i =>
      if i =s "" then on_ui (λ u, with_hovered u no_hover) s
      else on_ui (λ u, with_hovered u (Hovered (Some i) (default origin midpoint) canvasMidpoint)) s
  | None => on_ui (λ u, with_hovered u no_hover) s
  end.

Definition openNodeMenu (s : store) (x y canvasX canvasY : num) (variant : option string)
    (connectionContext : option jsval) : store :=
  on_ui (λ u, with_nodeMenu u
    (NodeMenu true x y canvasX canvasY (default "default" variant) (default JNull connectionContext))) s.

Definition closeNodeMenu (s : store) : store := on_ui (λ u, with_nodeMenu u closed_menu) s.

(** ** Node flags *)

(** [toggleDisable(nodeId)] *)
Definition toggleDisable (s : store) (nodeId : string) : store * list effect :=
  let currentMeta := Adapter.getNodeMeta (st_adapter s) nodeId in
  let isDisabled := negb (truthy (oprop currentMeta "disabled")) in
  let s := (on_adapter s (λ a, Adapter.setNodeMeta a nodeId [("disabled", JBool isDisabled)])).1 in
  (s, [Trigger "NODE:DISABLED_CHANGED" (JObj [("nodeId", JStr nodeId); ("disabled", JBool isDisabled)]);
       Trigger "save" JUndef]).

Definition isNodeDisabled (s : store) (nodeId : string) : bool :=
  strict_eq (oprop (Adapter.getNodeMeta (st_adapter s) nodeId) "disabled") (JBool true).
