(* ===== verification/StoreExec.v ===== *)
(** * The store: execution, views and persistence (store/workflow_store.js)

    The execution progress is a plain object the program fills with
    [Object.assign], so it is an object here too.  Node ids inside backend
    answers are strings; [as_strings] reads a list of them. *)

From S2P Require Import Prelude JsMap JsValue JsString Socket Connection Control Node Editor Adapter History Commands Connector Store.

Definition as_string (v : jsval) : option string := if v is JStr s then Some s else None.
Definition as_strings (v : jsval) : list string := omap as_string (as_array v).

(** ** Execution progress *)

(** [createFreshProgress(runId)] *)
Definition createFreshProgress (runId : jsval) : jsobj :=
  [("runId", runId); ("status", JStr "running"); ("nodeStatuses", JObj []);
   ("executedOrder", JArr []); ("executedConnectionIds", JArr []); ("executedConnections", JArr []);
   ("executionEvents", JArr []); ("nodeResults", JArr []); ("nodeOutputs", JNull);
   ("error", JNull); ("errorNodeId", JNull); ("outputData", JNull); ("inputData", JObj []);
   ("contextSnapshot", JNull); ("executionCount", JNull); ("durationSeconds", JNull);
   ("nodeCountExecuted", JNull)].

Definition normalizeInputData (v : jsval) : jsval :=
  match v with JArr _ | JObj _ => v | _ => JObj [] end.

(** [buildNodeStatusesFromResults(nodeResults)] *)
Definition buildNodeStatusesFromResults (nodeResults : list jsval) : jsobj :=
  foldl (λ statuses r,
    match prop r "node_id" with
    | JStr k =>
        if k =s "" then statuses
        else oset k (JStr (if truthy (prop r "error_message") then "error" else "success")) statuses
    | _ => statuses
    end) [] nodeResults.

(** [buildNodeResultsFromOutputs(nodeOutputs, executedOrder)]: one result per
    node, in the order of its last execution. *)
Definition result_order (nodeOutputs : jsobj) (executedOrder : list string) : list string :=
  let source := match executedOrder with [] => jkeys nodeOutputs | _ => executedOrder end in
  reverse (unique (reverse source)).

Definition node_result (nodeOutputs : jsobj) (nodeId : string) : jsval :=
  let output := js_or (oprop nodeOutputs nodeId) (JObj []) in
  JObj [("node_id", JStr nodeId); ("output_data", prop output "json");
        ("error_message", js_or (prop output "error") JNull);
        ("title", prop output "title"); ("meta", js_or (prop output "meta") JNull)].

Definition buildNodeResultsFromOutputs (nodeOutputs : jsval) (executedOrder : jsval) : list jsval :=
  let outputs := entries (js_or nodeOutputs (JObj [])) in
  node_result outputs <$> result_order outputs (as_strings executedOrder).

(** [nodeStatuses[k] = v] on a progress. *)
Definition set_status (k : string) (v : jsval) (p : jsobj) : jsobj :=
  oset "nodeStatuses" (JObj (oset k v (entries (oprop p "nodeStatuses")))) p.

(** [p[key].push(v)] *)
Definition push_field (key : string) (v : jsval) (p : jsobj) : jsobj :=
  oset key (JArr (as_array (oprop p key) ++ [v])) p.

(** The ids [setExecutionResult] derives when they are missing. *)
Definition derive_connection_ids (p : jsobj) : jsobj :=
  match oprop p "executedConnectionIds", oprop p "executedConnections" with
  | JArr (_ :: _), _ => p
  | _, JArr (c :: cs) =>
      oset "executedConnectionIds"
        (JArr (bfilter truthy
           ((λ e, if truthy e then prop e "connection_id" else JUndef) <$> (c :: cs)))) p
  | _, _ => p
  end.

(** [setExecutionResult(fields)] *)
Definition setExecutionResult (s : store) (fields : jsobj) : store :=
  let p := default (createFreshProgress JNull) (executionProgress s) in
  let p := ospread p fields in
  let p := match oprop fields "nodeResults" with
           | JArr (r :: rs) =>
               oset "nodeStatuses"
                 (JObj (ospread (entries (oprop p "nodeStatuses"))
                          (buildNodeStatusesFromResults (r :: rs)))) p
           | _ => p
           end in
  let p := derive_connection_ids p in
  let s := with_progress s (Some p) in
  if strict_eq (oprop p "status") (JStr "completed") || strict_eq (oprop p "status") (JStr "failed")
  then on_panels (λ q, with_executionLogOpen q true) s else s.

(** [replaceExecutionResult(fields)] *)
Definition replaceExecutionResult (s : store) (fields : jsobj) : store :=
  let runId := js_or (oprop fields "runId") JNull in
  setExecutionResult (with_progress s (Some (createFreshProgress runId))) fields.

(** ** Events from the bus *)

(** One entry of [completed_nodes]. *)
Definition complete_node (p : jsobj) (n : jsval) : jsobj :=
  match prop n "node_id" with
  | JStr k =>
      if k =s "" then p
      else
        let order := as_array (oprop p "executedOrder") in
        let p := if strict_eq (default JUndef (last order)) (JStr k) then p
                 else push_field "executedOrder" (JStr k) p in
        set_status k (js_or (prop n "status") (JStr "success")) p
  | _ => p
  end.

(** One entry of [connections]. *)
Definition route_connection (p : jsobj) (c : jsval) : jsobj :=
  match c with
  | JObj _ | JArr _ =>
      let p := if truthy (prop c "connection_id")
               then push_field "executedConnectionIds" (prop c "connection_id") p else p in
      push_field "executedConnections" c p
  | _ => p
  end.

Definition replace_array (key : string) (v : jsval) (p : jsobj) : jsobj :=
  if is_array v then oset key v p else p.

(** The body of [onExecutionProgress] once the event is accepted. *)
Definition apply_progress (p : jsobj) (payload : jsval) : jsobj :=
  let p := foldl complete_node p (as_array (prop payload "completed_nodes")) in
  let p := foldl route_connection p (as_array (prop payload "connections")) in
  let p := match prop payload "next_running_node_id" with
           | JStr k => if k =s "" then p else set_status k (JStr "running") p
           | _ => p
           end in
  if truthy (prop payload "status") then
    let p := oset "status" (prop payload "status") p in
    let p := oset "error" (js_or (prop payload "error") JNull) p in
    let p := replace_array "executedOrder" (prop payload "executed_order") p in
    let p := replace_array "executedConnectionIds" (prop payload "executed_connection_ids") p in
    replace_array "executedConnections" (prop payload "executed_connections") p
  else p.

(** [onExecutionProgress(payload)] *)
Definition onExecutionProgress (s : store) (payload : jsval) : store :=
  if negb (truthy payload) then s
  else
    let p := default (createFreshProgress (prop payload "run_id")) (executionProgress s) in
    let s := with_progress s (Some p) in
    if truthy (oprop p "runId") && truthy (prop payload "run_id")
       && negb (strict_eq (oprop p "runId") (prop payload "run_id"))
    then s
    else with_progress s (Some (apply_progress p payload)).

(** The step of [replaceExecutionNodeResult] on one list. *)
Definition same_result (normalized item : jsval) : bool :=
  if truthy (prop normalized "node_run_id")
  then strict_eq (prop item "node_run_id") (prop normalized "node_run_id")
  else strict_eq (prop item "node_id") (prop normalized "node_id") &&
       strict_eq (prop item "sequence") (prop normalized "sequence") &&
       strict_eq (prop item "iteration") (prop normalized "iteration").

Definition replaceItems (normalized : jsval) (items : list jsval) : list jsval :=
  let matches item := match item with JObj _ | JArr _ => same_result normalized item | _ => false end in
  ((λ item, if matches item then normalized else item) <$> items) ++
  (if existsb matches items then [] else [normalized]).

(** [replaceExecutionNodeResult(nodeResult)] *)
Definition replaceExecutionNodeResult (s : store) (nodeResult : jsval) : store * outcome unit :=
  match nodeResult, prop nodeResult "node_id" with
  | JObj o, JStr k =>
      if k =s "" then (s, Throw "replaceExecutionNodeResult requires nodeResult.node_id")
      else
        let p := default (createFreshProgress JNull) (executionProgress s) in
        let normalized := JObj (ospread [] o) in
        let p := oset "nodeResults"
                   (JArr (replaceItems normalized (as_array (js_or (oprop p "nodeResults") (JArr []))))) p in
        let p := oset "executionEvents"
                   (JArr (replaceItems normalized (as_array (js_or (oprop p "executionEvents") (JArr []))))) p in
        let p := set_status k
                   (JStr (if truthy (prop normalized "error_message") then "error" else "success")) p in
        (with_progress s (Some p), Ret tt)
  | _, _ => (s, Throw "replaceExecutionNodeResult requires nodeResult.node_id")
  end.

(** ** Read-only views *)

(** The resets both views make on entry. *)
Definition enter_view (u : ui_state) : ui_state :=
  let u := with_hovered (with_selection (with_readonly u true) ([], [])) no_hover in
  with_nodeMenu (with_panels u (with_config (panels u) false None)) closed_menu.

Definition leave_view (u : ui_state) : ui_state :=
  with_hovered (with_selection (with_readonly u false) ([], [])) no_hover.

(** [adapter.fromJSON(snapshot)] *)
Definition load_graph (s : store) (snapshot : workflow_json) : store * outcome unit :=
  on_adapter s (λ a, Adapter.fromJSON a snapshot).

(** [if (view.active && restoreOriginal && view.originalSnapshot) adapter.fromJSON(...)] *)
Definition restore_original (s : store) (v : preview) (restoreOriginal : bool) : store * outcome unit :=
  match pv_original v with
  | Some o => if pv_active v && restoreOriginal then load_graph s o else (s, Ret tt)
  | None => (s, Ret tt)
  end.

(** [endHistoryPreview({ restoreOriginal })] *)
Definition endHistoryPreview (s : store) (restoreOriginal : bool) : store * outcome unit :=
  match restore_original s (historyPreview s) restoreOriginal with
  | (s, Throw msg) => (s, Throw msg)
  | (s, Ret _) =>
      let s := with_historyPreview s no_preview in
      (on_ui (λ u, leave_view (with_ui_historyPreview u (false, JNull))) s, Ret tt)
  end.

(** [endExecutionView({ restoreOriginal, clearExecution })] *)
Definition endExecutionView (s : store) (restoreOriginal clear : bool) : store * outcome unit :=
  match restore_original s (executionView s) restoreOriginal with
  | (s, Throw msg) => (s, Throw msg)
  | (s, Ret _) =>
      let s := with_executionView s no_preview in
      let s := on_ui (λ u, with_readonly (with_ui_executionView u (false, JNull)) false) s in
      let s := if clear then clearExecution s else s in
      (on_ui leave_view s, Ret tt)
  end.

(** The view that becomes active: the graph of now is kept the first time. *)
Definition activate (s : store) (v : preview) (id : jsval) : preview :=
  Preview true (js_or id JNull)
    (if pv_active v then pv_original v else Some (Adapter.toJSON (st_adapter s))).

(** [startHistoryPreview(revisionId, snapshot)] *)
Definition startHistoryPreview (s : store) (revisionId : jsval) (snapshot : option workflow_json)
    : store * outcome unit :=
  match snapshot with
  | None => (s, Ret tt)
  | Some snap =>
      match (if pv_active (executionView s) then endExecutionView s true true else (s, Ret tt)) with
      | (s, Throw msg) => (s, Throw msg)
      | (s, Ret _) =>
          let s := with_historyPreview s (activate s (historyPreview s) revisionId) in
          let s := on_ui (λ u, enter_view (with_ui_historyPreview u (true, js_or revisionId JNull))) s in
          load_graph s snap
      end
  end.

(** [startExecutionView(runId, snapshot, executionData)] *)
Definition startExecutionView (s : store) (runId : jsval) (snapshot : option workflow_json)
    (executionData : option jsobj) : store * outcome unit :=
  match snapshot with
  | None => (s, Ret tt)
  | Some snap =>
      match (if pv_active (historyPreview s) then endHistoryPreview s true else (s, Ret tt)) with
      | (s, Throw msg) => (s, Throw msg)
      | (s, Ret _) =>
          let s := with_executionView s (activate s (executionView s) runId) in
          let s := on_ui (λ u, with_ui_executionView u (true, js_or runId JNull)) s in
          let s := on_panels (λ p, with_executionLogOpen p true) s in
          let s := on_ui enter_view s in
          match load_graph s snap with
          | (s, Throw msg) => (s, Throw msg)
          | (s, Ret _) =>
              (match executionData with
               | Some d => replaceExecutionResult s d
               | None => s
               end, Ret tt)
          end
      end
  end.

(** [copyExecutionToEditor()] *)
Definition copyExecutionToEditor (s : store) : store * outcome unit :=
  if pv_active (executionView s) then endExecutionView s true false else (s, Ret tt).

(** [a || b || null] and the like over the fields of an answer. *)
Definition first_of (r : jsval) (keys : list string) (d : jsval) : jsval :=
  foldr (λ k acc, js_or (prop r k) acc) d keys.

(** [debugExecution(runData)] *)
Definition debugExecution (s : store) (runData : jsval) : store * outcome unit :=
  if negb (is_array (prop runData "node_results"))
  then (s, Throw "debugExecution requires runData with node_results")
  else
    match (if pv_active (executionView s) then endExecutionView s true true else (s, Ret tt)) with
    | (s, Throw msg) => (s, Throw msg)
    | (s, Ret _) =>
        (replaceExecutionResult s
           [("runId", first_of runData ["run_id"; "id"] JNull);
            ("status", first_of runData ["status"] (JStr "completed"));
            ("error", first_of runData ["error"; "error_message"] JNull);
            ("errorNodeId", first_of runData ["error_node_id"] JNull);
            ("executedOrder", first_of runData ["executed_order"] (JArr []));
            ("executedConnectionIds", first_of runData ["executed_connection_ids"] (JArr []));
            ("executedConnections", first_of runData ["executed_connections"] (JArr []));
            ("executionEvents", first_of runData ["execution_events"] (JArr []));
            ("nodeResults", first_of runData ["node_results"] (JArr []));
            ("inputData", first_of runData ["input_data"] (JObj []));
            ("contextSnapshot", first_of runData ["context_snapshot"] JNull)], Ret tt)
    end.

(** ** Pinned data *)

(** Digits at the start of a string. *)
Fixpoint leading_digits (s : string) : string :=
  match s with
  | EmptyString => EmptyString
  | String c s => if is_digit c then String c (leading_digits s) else EmptyString
  end.

Definition parse_unsigned (s : string) : option Z :=
  let d := leading_digits s in
  if d =s "" then None else Some (Z.of_N (parse_digits 0 d)).

(** [parseInt(v, 10)]; [None] is [NaN]. *)
Definition parseInt (v : jsval) : option Z :=
  match v with
  | JNum n => Some (Z.quot (QArith_base.Qnum (this n)) (Z.pos (QArith_base.Qden (this n))))
  | JStr s =>
      match trim_start s with
      | String "-" s => Z.opp <$> parse_unsigned s
      | String "+" s => parse_unsigned s
      | s => parse_unsigned s
      end
  | _ => None
  end.

Definition pin_event (nodeId : jsval) (pinned : bool) : effect :=
  Trigger "PIN_DATA:CHANGED" (JObj [("nodeId", nodeId); ("pinned", JBool pinned)]).

(** The value [pinNodeData] stores. *)
Definition stored_pin (pinValue : jsval) : option jsval :=
  match pinValue with
  | JObj _ | JArr _ => Some (JObj (ospread [] (entries pinValue)))
  | _ => match parseInt pinValue with
         | Some z => if (z <=? 0)%Z then None else Some (JInt z)
         | None => None
         end
  end.

Definition saved_pins (metadata : jsobj) : jsobj :=
  ospread [] (entries (js_or (oprop metadata "pin_data") (JObj []))).

(** [pinNodeData(nodeId, pinValue)]; the second message also prints the value. *)
Definition pinNodeData (s : store) (nodeId : string) (pinValue : jsval)
    : store * outcome unit * list effect :=
  if (nodeId =s "") || is_nullish pinValue
  then (s, Throw "pinNodeData requires nodeId and pinValue", [])
  else
    match stored_pin pinValue with
    | None => (s, Throw "Invalid nodeRunId for pinNodeData", [])
    | Some v =>
        let s := with_pinData s (oset nodeId v (pinData s)) in
        let next := oset nodeId v (saved_pins (workflowMetadata s)) in
        let s := with_metadata s (oset "pin_data" (JObj next) (ospread [] (workflowMetadata s))) in
        (s, Ret tt, [pin_event (JStr nodeId) true])
    end.

(** [unpinNodeData(nodeId)] *)
Definition unpinNodeData (s : store) (nodeId : string) : store * list effect :=
  let s := with_pinData s (jdel nodeId (pinData s)) in
  let metadata := ospread [] (workflowMetadata s) in
  let next := jdel nodeId (saved_pins metadata) in
  let metadata := match next with
                  | [] => jdel "pin_data" metadata
                  | _ => oset "pin_data" (JObj next) metadata
                  end in
  (with_metadata s (jdel "pinData" metadata), [pin_event (JStr nodeId) false]).

(** [clearAllPinData()] *)
Definition clearAllPinData (s : store) : store * list effect :=
  let s := with_pinData s [] in
  (with_metadata s (jdel "pinData" (jdel "pin_data" (ospread [] (workflowMetadata s)))),
   [pin_event JNull false]).

Definition isNodePinned (s : store) (nodeId : string) : bool := jhas nodeId (pinData s).

(** ** Saving and loading *)

(** A snapshot with the metadata kept beside the graph. *)
Record full_snapshot := FullSnapshot {
  fs_graph : workflow_json;
  fs_metadata : jsobj;
}.

(** [sanitizeConnectorRequestSnapshot], on the graph of a snapshot. *)
Definition sanitizeConnectorRequestSnapshot (w : workflow_json) : workflow_json :=
  WorkflowJson (wj_version w) (option_map (map sanitize_node) (wj_nodes w)) (wj_connections w).

(** [buildFullSnapshot()] *)
Definition buildFullSnapshot (s : store) : full_snapshot :=
  let metadata := jdel "pinData" (ospread [] (workflowMetadata s)) in
  let metadata := match pinData s with
                  | [] => jdel "pin_data" metadata
                  | pins => oset "pin_data" (JObj (ospread [] pins)) metadata
                  end in
  FullSnapshot (sanitizeConnectorRequestSnapshot (Adapter.toJSON (st_adapter s))) metadata.

(** What [saveWorkflow] sends: the workflow, the snapshot and the version it is
    based on. *)
Definition saveWorkflow_request (s : store) : jsval * full_snapshot * jsval :=
  (workflowId s, buildFullSnapshot s, versionHash s).

(** After the answer. *)
Definition saveWorkflow_response (s : store) (newHash : jsval) : store * list effect :=
  let s := with_versionHash s newHash in
  (set_history s (hist_clear (st_history s)), [Trigger "refresh" JUndef]).

(** Before [load_workflow] is called. *)
Definition loadWorkflow_request (s : store) : store :=
  let s := clearExecution s in
  let s := on_panels (λ p, with_executionLogOpen p false) s in
  on_ui (λ u, with_ui_executionView (with_executing u false) (false, JNull)) s.

(** The answer of [load_workflow]; the snapshot is decoded JSON. *)
Record load_answer := LoadAnswer {
  la_snapshot : full_snapshot;
  la_versionHash : jsval;
  la_autoSave : jsval;
}.

(** The pins in the metadata of a snapshot, under either name. *)
Definition restored_pins (metadata : jsobj) : jsobj :=
  match js_or (oprop metadata "pin_data") (oprop metadata "pinData") with
  | JObj o => ospread [] o
  | JArr l => ospread [] (entries (JArr l))
  | _ => []
  end.

(** After the answer. *)
Definition loadWorkflow_response (s : store) (id : jsval) (d : load_answer) : store * outcome unit :=
  match load_graph s (fs_graph (la_snapshot d)) with
  | (s, Throw msg) => (s, Throw msg)
  | (s, Ret _) =>
      let s := with_workflowId (with_versionHash s (la_versionHash d)) id in
      let s := with_autoSave s (negb (strict_eq (la_autoSave d) (JBool false))) in
      let metadata := fs_metadata (la_snapshot d) in
      let s := with_metadata s metadata in
      (with_pinData s (restored_pins metadata), Ret tt)
  end.

Definition getAutoSave (s : store) : bool := autoSave s.
Definition setAutoSave (s : store) (value : jsval) : store := with_autoSave s (truthy value).

(** ** Running a workflow *)

(** The part of [executeWorkflow] and [executeFromNode] before the first [await]. *)
Definition start_execution (s : store) (inputData : jsval) : store :=
  with_progress s (Some (oset "inputData" (normalizeInputData inputData) (createFreshProgress JNull))).

Definition executeWorkflow_request (s : store) (inputData : jsval) : store * outcome jsobj :=
  if negb (truthy (workflowId s)) then (s, Throw "No workflow ID loaded")
  else (start_execution s inputData,
        Ret [("workflow_id", workflowId s); ("input_data", normalizeInputData inputData)]).

Definition executeFromNode_request (s : store) (startNodeId inputData : jsval) : store * outcome jsobj :=
  if negb (truthy (workflowId s)) then (s, Throw "No workflow ID loaded")
  else if negb (truthy startNodeId) then (s, Throw "Start node ID is required")
  else (start_execution s inputData,
        Ret [("workflow_id", workflowId s); ("node_id", startNodeId);
             ("input_data", normalizeInputData inputData)]).

(** The fields taken from the run record, then from the answer. *)
Definition either (run result : jsval) (k : string) (d : jsval) : jsval :=
  js_or (prop run k) (js_or (prop result k) d).

(** After the run record is fetched. *)
Definition execution_run (s : store) (inputData result run : jsval) : store * list effect :=
  let safeInput := normalizeInputData inputData in
  match run with
  | JObj _ | JArr _ =>
      if truthy (prop run "jsonrpc") then
        (setExecutionResult s
           [("runId", prop result "run_id"); ("status", js_or (prop result "status") (JStr "failed"));
            ("error", js_or (prop result "error") (JStr "Failed to load run details"));
            ("inputData", safeInput)], [])
      else
        (setExecutionResult s
           [("runId", first_of run ["run_id"; "id"] (prop result "run_id"));
            ("status", either run result "status" (JStr "completed"));
            ("error", first_of run ["error"; "error_message"] (js_or (prop result "error") JNull));
            ("errorNodeId", js_or (prop run "error_node_id") JNull);
            ("outputData", js_or (prop run "output_data") JNull);
            ("executedOrder", either run result "executed_order" (JArr []));
            ("executedConnectionIds", either run result "executed_connection_ids" (JArr []));
            ("executedConnections", either run result "executed_connections" (JArr []));
            ("executionCount", js_or (prop run "execution_count") JNull);
            ("durationSeconds", either run result "duration_seconds" JNull);
            ("nodeCountExecuted", js_or (prop run "node_count_executed") JNull);
            ("inputData", js_or (prop run "input_data") safeInput);
            ("contextSnapshot", either result run "context_snapshot" JNull);
            ("executionEvents", either run result "execution_events" (JArr []));
            ("nodeResults", js_or (prop run "node_results") (JArr []))],
         [Trigger "refresh" JUndef])
  | _ =>
      (setExecutionResult s
         [("runId", prop result "run_id"); ("status", js_or (prop result "status") (JStr "failed"));
          ("error", js_or (prop result "error") (JStr "Failed to load run details"));
          ("inputData", safeInput)], [])
  end.

(** After the answer: either the run record has to be fetched, or the outcome is
    known. *)
Definition execution_response (s : store) (inputData result : jsval) : store + jsval :=
  if truthy (prop result "run_id") then inr (prop result "run_id")
  else if truthy (prop result "error") then
    inl (setExecutionResult s
           [("status", js_or (prop result "status") (JStr "failed")); ("error", prop result "error");
            ("inputData", normalizeInputData inputData)])
  else inl s.

(** [executeFromNode] repeats the same code after its answer. *)
Definition executeFromNode_response : store → jsval → jsval → store + jsval := execution_response.
Definition executeFromNode_run : store → jsval → jsval → jsval → store * list effect := execution_run.

(** [executeUntilNode]: before the call, after an answer, after an exception. *)
Definition executeUntilNode_request (s : store) (targetNodeId inputData configOverrides : jsval)
    : store * outcome (jsobj * full_snapshot) :=
  if negb (truthy (workflowId s)) then (s, Throw "No workflow ID loaded")
  else if negb (truthy targetNodeId) then (s, Throw "Target node ID is required")
  else
    let s := start_execution s inputData in
    (s, Ret ([("workflow_id", workflowId s); ("target_node_id", targetNodeId);
              ("input_data", normalizeInputData inputData); ("config_overrides", configOverrides)],
             buildFullSnapshot s)).

Definition executeUntilNode_response (s : store) (inputData result : jsval) : store :=
  let status := prop result "status" in
  if strict_eq status (JStr "completed") || strict_eq status (JStr "failed") then
    setExecutionResult s
      [("status", status); ("error", js_or (prop result "error") JNull);
       ("errorNodeId", js_or (prop result "error_node_id") JNull);
       ("executedOrder", js_or (prop result "executed_order") (JArr []));
       ("executedConnectionIds", js_or (prop result "executed_connection_ids") (JArr []));
       ("executedConnections", js_or (prop result "executed_connections") (JArr []));
       ("executionCount", js_or (prop result "execution_count") JNull);
       ("durationSeconds", js_or (prop result "duration_seconds") JNull);
       ("nodeCountExecuted", js_or (prop result "node_count_executed") JNull);
       ("inputData", normalizeInputData inputData);
       ("executionEvents", js_or (prop result "execution_events") (JArr []));
       ("nodeResults", JArr (buildNodeResultsFromOutputs (prop result "node_outputs")
                              (prop result "executed_order")));
       ("nodeOutputs", js_or (prop result "node_outputs") JNull);
       ("contextSnapshot", js_or (prop result "context_snapshot") JNull)]
  else s.

Definition executeUntilNode_failure (s : store) (inputData : jsval) (message : string) : store :=
  setExecutionResult s
    [("status", JStr "failed"); ("error", JStr (if message =s "" then "Execution failed" else message));
     ("inputData", inputData)].
