(* ===== verification/StoreInv.v ===== *)
(** * Editing through the store

    The graph actions of the store keep the adapter's invariant, and each of
    them records a command that inverts it: undo after an edit gives the graph
    back, up to the order of its parts. *)

From S2P Require Import Prelude JsMap JsValue Socket Connection Control Node Editor EditorInv EditorJson Adapter AdapterInv AdapterEquiv AdapterRun Nodes History HistoryTimeline Commands Connector Store.

(** ** Recording *)

Lemma set_history_adapter s r : st_adapter (set_history s r) = st_adapter s.
Proof.
  destruct r as [h ns]. unfold set_history. simpl.
  change (st_adapter s) with (st_adapter (with_history s h)). generalize (with_history s h).
  induction ns as [|n ns IH]; intros s'; simpl; [done|]. rewrite IH.
  unfold on_history_change. by destruct (Nat.eqb _ _).
Qed.

Lemma set_history_history s r : st_history (set_history s r) = r.1.
Proof.
  destruct r as [h ns]. unfold set_history. simpl.
  change h with (st_history (with_history s h)) at 2. generalize (with_history s h).
  induction ns as [|n ns IH]; intros s'; simpl; [done|]. rewrite IH.
  unfold on_history_change. by destruct (Nat.eqb _ _).
Qed.

Lemma record_adapter s act : st_adapter (record_action s act) = st_adapter s.
Proof. apply set_history_adapter. Qed.

Lemma record_history s act : st_history (record_action s act) = (push (st_history s) act).1.
Proof. apply set_history_history. Qed.

#[export] Hint Rewrite set_history_adapter set_history_history record_adapter record_history : js.

Section edits.
Context (reg : odoo_registry) (Hreg : odoo_ok reg).
Notation inv := (adapter_inv reg).
Notation inverts_graph := (inverts (same_graph reg)).
Implicit Types (s : store).

(** What is known of a store between two actions: the adapter's invariant, and
    a timeline the history follows. *)
Definition store_ok s (t : timeline adapter) : Prop :=
  inv (st_adapter s) ∧ (0 < maxSize (st_history s))%nat ∧
  session (same_graph reg) (st_history s, st_adapter s) t.

(** The outcome of an edit: nothing recorded and the same graph, or one
    command recorded that inverts what happened. *)
Definition edited s s' : Prop :=
  inv (st_adapter s') ∧
  ((st_history s' = st_history s ∧ st_adapter s' = st_adapter s) ∨
   ∃ act, st_history s' = (push (st_history s) act).1 ∧
     inverts_graph act (st_adapter s) (st_adapter s')).

Lemma edited_same s s' :
  inv (st_adapter s) → st_history s' = st_history s → st_adapter s' = st_adapter s → edited s s'.
Proof using Type. intros ? ? E. split; [by rewrite E|by left]. Qed.

Lemma edited_record s s1 act :
  st_history s1 = st_history s → inv (st_adapter s1) →
  inverts_graph act (st_adapter s) (st_adapter s1) → edited s (record_action s1 act).
Proof using Type.
  intros Hh Hi Ha. split; [by rewrite record_adapter|]. right. exists act.
  by rewrite record_history, record_adapter, Hh.
Qed.

(** ** Reading the graph through the copy *)

Lemma ui_lookup a i :
  inv a →
  find_first (λ n, bool_decide (ui_id n = Some i)) (state_nodes a) =
    node_to_ui <$> jget i (nodes (ad_editor a)).
Proof using Type.
  intros Ha. pose proof (inv_keyed reg a Ha) as Hk. destruct Ha as [_ _ _ [-> _]].
  unfold getNodesForUI, getNodes, jvals. induction (nodes (ad_editor a)) as [|[k n] ns IH]; csimpl; [done|].
  apply keyed_cons in Hk as [Hn Hk]. rewrite Hn.
  repeat case_bool_decide; simplify_eq; [done|]. by apply IH.
Qed.

Lemma ui_connection_lookup a i :
  inv a →
  find_first (λ c, uc_id c =s i) (state_connections a) =
    connection_to_ui <$> find_first (λ c, conn_id c =s i) (conns a).
Proof using Type.
  intros [_ _ _ [_ ->]]. unfold getConnectionsForUI, getConnections, conns.
  induction (connections (ad_editor a)) as [|c cs IH]; csimpl; [done|]. by destruct (_ =s _).
Qed.

(** A node whose label and metadata are the defaults of its class. *)
Definition plain_node (n : node) : Prop :=
  node_meta n = default_meta ∧
  ∀ cls, getNodeClass reg (node_type n) = Some cls → node_label n = node_label (nc_new cls).

(** Such a node is saved the way [addNodeWithId] would rebuild it. *)
Lemma rebuilt_json cls i n p :
  class_ok cls → instance_of cls n → node_meta n = default_meta →
  node_label n = node_label (nc_new cls) → node_id n = Some i → node_position n = p →
  node_toJSON (placed cls i (getConfig n) p) = node_toJSON n.
Proof using Type.
  intros Hok Hi Hm Hl Hid Hp.
  set (f := with_id (nc_new cls) (Some i)).
  assert (getConfig (setConfig f (getConfig n)) = getConfig n) as Hcfg.
  { apply getConfig_setConfig; [|by eapply obj_ok_instance]. destruct Hi as [_ _ _ _ _ Hk]. exact Hk. }
  assert (∀ {A} (g : node → A), (∀ x c, g (with_controls x c) = g x) →
            (∀ x h, g (with_hidden x h) = g x) → g (setConfig f (getConfig n)) = g f) as Hg.
  { intros A g H1 H2. unfold setConfig, BaseNode_setConfig.
    destruct (hiddenDefaults f); by rewrite ?H2, ?H1. }
  unfold node_toJSON, placed. fold f. f_equal; try done.
  - simpl. rewrite (Hg _ node_type) by done. symmetry. apply Hi.
  - simpl. f_equal. by rewrite (Hg _ node_label) by done.
  - simpl. by rewrite Hp.
  - f_equal. exact Hcfg.
  - simpl. f_equal. rewrite (Hg _ node_meta) by done. simpl. rewrite Hm. apply Hok.
Qed.

(** ** The actions *)

Lemma on_adapter_spec {R} s (f : adapter → adapter * R) :
  (on_adapter s f) = (with_adapter s (f (st_adapter s)).1, (f (st_adapter s)).2).
Proof using Type. unfold on_adapter. by destruct (f (st_adapter s)). Qed.

(** Adding a node: the instance goes to the end of the table. *)
Lemma addNode_nodes a type pos cls :
  inv a → getNodeClass reg type = Some cls →
  let i := fresh_id (idCounter (ad_editor a) + 1) in
  let a' := (Adapter.addNode reg a type pos).1 in
  (Adapter.addNode reg a type pos).2 = Some i ∧ jget i (nodes (ad_editor a)) = None ∧
  nodes (ad_editor a') = nodes (ad_editor a) ++ [(i, with_position (with_id (nc_new cls) (Some i)) pos)] ∧
  connections (ad_editor a') = connections (ad_editor a).
Proof using Hreg.
  intros Ha Hc i a'. pose proof Ha as [Hr [Hwf _ _] _ _].
  destruct (getNodeClass_typed reg Hreg _ _ _ Hr Hc) as (_ & Hok & Hty & Hid).
  assert (jget i (nodes (ad_editor a)) = None) as Hnew by (apply fresh_id_unused; [done|lia]).
  subst a'. unfold Adapter.addNode. rewrite Hc.
  destruct (Editor.addNode _ _ _) as [[e m] tr] eqn:E.
  apply addNode_class_spec in E as (-> & -> & _); [|done].
  simpl. rewrite handlers_editor. simpl. by rewrite mset_fresh.
Qed.

(** The same, seen on the saved lists. *)
Lemma addNode_adds a type pos cls :
  inv a → getNodeClass reg type = Some cls →
  ∃ i, (Adapter.addNode reg a type pos).2 = Some i ∧
    let a' := (Adapter.addNode reg a type pos).1 in
    inv a' ∧ conns a' = conns a ∧
    adds_node reg cls (NodeData i type pos (Adapter.getNodeConfig a' i)) a a'.
Proof using Hreg.
  intros Ha Hc. pose proof (addNode_inv reg Hreg a type pos Ha) as Ha'.
  pose proof Ha as [Hr _ _ _].
  destruct (getNodeClass_typed reg Hreg _ _ _ Hr Hc) as (_ & Hok & Hty & Hid).
  destruct (addNode_nodes a type pos cls Ha Hc) as (H1 & Hnew & H2 & H3).
  set (i := fresh_id (idCounter (ad_editor a) + 1)) in *.
  set (n := with_position (with_id (nc_new cls) (Some i)) pos) in *.
  exists i. split; [done|]. split; [done|]. split; [done|].
  split; [done|]. split; [done|]. split; [done|].
  unfold snap, getNodes, jvals. rewrite H2, !fmap_app. simpl.
  unfold restored_json, Adapter.getNodeConfig, getNode, Editor.getNode. simpl.
  rewrite H2, jget_app, Hnew. simpl. rewrite bool_decide_true by done.
  rewrite (rebuilt_json cls i n); [done|done| |by apply Hok|done..].
  by eapply instance_of_eqv; [apply instance_of_fresh|..].
Qed.

Lemma addNode_edited s type pos :
  inv (st_adapter s) → type ≠ "loop" → edited s (addNode reg s type pos).1.
Proof using Hreg.
  intros Hs Hl. unfold addNode. rewrite on_adapter_spec.
  destruct (getNodeClass reg type) as [cls|] eqn:Hc.
  - destruct (addNode_adds (st_adapter s) type pos cls Hs Hc) as (i & -> & Hi & Hcs & Ha).
    rewrite (bool_decide_false (type = "loop")) by done. simpl. unfold add_and_record.
    apply edited_record; [done|done|]. simpl. apply (add_node_inverts reg Hreg cls); try done.
    by rewrite Hcs.
  - unfold Adapter.addNode. rewrite Hc. simpl. apply edited_same; [done|done|]. by destruct s.
Qed.

Lemma snap_position a i n d :
  inv a → jget i (nodes (ad_editor a)) = Some n → d ∈ snap a → nj_id d = Some i →
  nj_position d = Some (node_position n).
Proof using Type.
  intros Ha Hn Hd Hid. apply (elem_of_snap reg) in Hd as (k & m & Hm & -> & Hk); [|done].
  rewrite Hk in Hid. injection Hid as ->. rewrite Hn in Hm. by injection Hm as <-.
Qed.

Lemma ui_position_node n : ui_position (node_to_ui n) = node_position n.
Proof using Type. unfold ui_position. simpl. by destruct (node_position n). Qed.

Lemma moveNode_edited s i pos : inv (st_adapter s) → edited s (moveNode s i pos).
Proof using Type.
  intros Hs. unfold moveNode, getNode. rewrite ui_lookup by done.
  destruct (jget i (nodes (ad_editor (st_adapter s)))) as [n|] eqn:E; simpl.
  - rewrite ui_position_node. destruct (same_position _ _); [by apply edited_same|].
    rewrite on_adapter_spec. destruct (snap_updatePosition reg (st_adapter s) i pos Hs) as [Hsn Hcn].
    pose proof (updatePosition_inv reg (st_adapter s) i pos Hs) as Hi.
    apply edited_record; [done|done|]. simpl.
    apply move_node_inverts; try done; [|by rewrite Hsn|by rewrite Hcn].
    intros d. by apply snap_position.
  - rewrite on_adapter_spec. unfold updatePosition, Editor.getNode. rewrite E. simpl.
    apply edited_same; [done|done|]. by destruct s.
Qed.

Lemma addConnection_edited s src sh tgt th :
  inv (st_adapter s) → edited s (addConnection s src sh tgt th).1.
Proof using Hreg.
  intros Hs. unfold addConnection. rewrite on_adapter_spec.
  pose proof (addConnection_inv reg (st_adapter s) src sh tgt th Hs) as Hi. revert Hi.
  unfold Adapter.addConnection. destruct (Editor.addConnection _ _ _ _ _) as [[e [c|]] tr] eqn:E.
  - apply addConnection_Some in E as (-> & -> & Hok & Hnew & _). intros Hi. simpl in *.
    apply edited_record; [done|done|]. simpl.
    apply add_connection_inverts; try done; unfold snap, conns; simpl; by rewrite handlers_editor.
  - apply addConnection_None in E as [-> ->]. intros _. simpl.
    apply edited_same; [done|done|]. simpl. by destruct (st_adapter s).
Qed.

(** A connection without metadata of its own. *)
Definition plain_conn (c : connection) : Prop := conn_meta c = default_conn_meta.

Lemma plain_conn_new a c :
  inv a → c ∈ conns a → plain_conn c →
  c = new_connection (source c) (sourceHandle c) (target c) (targetHandle c).
Proof using Type.
  intros [_ [[_ _ _ Hok _] _ _] _ _] Hin Hp. destruct (Hok c Hin) as (Hid & _).
  unfold plain_conn, new_connection in *. destruct c; simpl in *. congruence.
Qed.

Lemma bfilter_split i (cs : list connection) c :
  NoDup (conn_id <$> cs) → find_first (λ c, conn_id c =s i) cs = Some c →
  cs ≡ₚ bfilter (λ c, negb (conn_id c =s i)) cs ++ [c].
Proof using Type.
  intros Hd Hf. rewrite (bfilter_Permutation (λ c, conn_id c =s i) cs) at 1. f_equiv.
  revert Hd Hf. induction cs as [|c' cs IH]; csimpl; [done|].
  intros [Hn Hd]%NoDup_cons. case_bool_decide as E; [|by apply IH]. intros [= ->].
  rewrite bfilter_none; [done|]. intros c2 Hc2. apply bool_decide_eq_false. intros E2.
  apply Hn. rewrite E, <- E2. by apply list_elem_of_fmap_2.
Qed.

Lemma removeConnection_edited s i :
  inv (st_adapter s) → (∀ c, c ∈ conns (st_adapter s) → conn_id c = i → plain_conn c) →
  edited s (removeConnection s i).1.
Proof using Hreg.
  intros Hs Hp. unfold removeConnection, getConnection. rewrite ui_connection_lookup by done.
  destruct (find_first _ (conns (st_adapter s))) as [c|] eqn:E; [|by apply edited_same].
  simpl. rewrite on_adapter_spec. simpl.
  destruct (find_first_Some _ _ _ E) as [Hin Hid]. bsimpl.
  change (conn_data_of_ui (connection_to_ui c)) with (conn_data_of c).
  destruct (snap_removeConnection reg (st_adapter s) i Hs) as [Hsn Hcn].
  pose proof (removeConnection_inv reg (st_adapter s) i Hs) as Hi.
  apply edited_record; [done|done|]. simpl. pose proof Hs as [_ [[_ _ _ _ Hcd] _ _] _ _].
  apply remove_connection_inverts; try done; [by rewrite Hsn| |].
  - rewrite Hcn. by apply bfilter_split.
  - by apply (plain_conn_new (st_adapter s)); [done|done|apply Hp].
Qed.

Lemma json_jdel_split i n ns :
  keyed ns → NoDup (jkeys ns) → jget i ns = Some n →
  node_toJSON <$> jvals ns ≡ₚ
    bfilter (λ d, negb (has_id i d)) (node_toJSON <$> jvals ns) ++ [node_toJSON n].
Proof using Type.
  unfold jvals, jkeys. induction ns as [|[k m] ns IH]; csimpl; [done|].
  intros [Hk Hns]%keyed_cons [Hn Hd]%NoDup_cons. unfold has_id at 1. simpl. rewrite Hk.
  case_bool_decide as E; [intros [= <-]; subst|].
  - rewrite bool_decide_true by done. csimpl.
    rewrite bfilter_all; [by rewrite Permutation_app_comm|].
    intros d Hd'. apply list_elem_of_fmap in Hd' as (n' & -> & Hn').
    apply list_elem_of_fmap in Hn' as ([k' n''] & -> & Hin). unfold has_id. simpl.
    rewrite (Hns _ _ Hin), bool_decide_false; [done|]. intros [= ->]. apply Hn.
    by apply (list_elem_of_fmap_2 fst _ (k, n'')).
  - intros Hg. rewrite bool_decide_false by congruence. csimpl. by rewrite <- IH.
Qed.

Lemma removeNode_edited s i :
  inv (st_adapter s) →
  (∀ n, jget i (nodes (ad_editor (st_adapter s))) = Some n → plain_node n) →
  (∀ c, c ∈ conns (st_adapter s) → involvesNode c i = true → plain_conn c) →
  edited s (removeNode reg s i).1.
Proof using Hreg.
  intros Hs Hpn Hpc. unfold removeNode, getNode. rewrite ui_lookup by done.
  destruct (jget i (nodes (ad_editor (st_adapter s)))) as [n|] eqn:E; [|by apply edited_same].
  pose proof Hs as [Hr [[Hd Hids _ _ Hcd] Hn _] _ [_ Hsc]].
  destruct (Hids _ _ E) as [Hid Hne]. destruct (Hpn n eq_refl) as [Hm Hl].
  destruct (Hn _ _ E) as [(cls & Hcls & Hi) _].
  rewrite Hr, jget_buildNodeRegistry in Hcls by apply Hreg.
  destruct (getNodeClass_typed reg Hreg _ _ _ Hr Hcls) as (_ & Hok & _ & _).
  csimpl. rewrite ui_position_node, on_adapter_spec. simpl. rewrite Hid. simpl.
  set (related := bfilter (λ c, involvesNode c i) (conns (st_adapter s))).
  assert (conn_data_of_ui <$> bfilter (λ c, (uc_source c =s i) || (uc_target c =s i))
            (state_connections (st_adapter s)) = conn_data_of <$> related) as ->.
  { rewrite Hsc. unfold related, conns, getConnectionsForUI, getConnections. clear.
    induction (connections (ad_editor (st_adapter s))) as [|c cs IH]; csimpl; [done|].
    unfold involvesNode at 1. destruct (_ || _); csimpl; by rewrite IH. }
  unfold Adapter.getNodeConfig, Editor.getNode. simpl. rewrite E.
  destruct (snap_removeNode reg (st_adapter s) i Hs) as [Hsn Hcn].
  pose proof (removeNode_inv reg (st_adapter s) i Hs) as Hi'.
  apply edited_record; [done|done|]. simpl.
  apply (remove_node_inverts reg Hreg cls); try done.
  - split; [done|]. split; [done|]. split.
    + apply eq_None_not_Some. rewrite <- (snap_lookup reg) by done. intros (d & Hin & Hidd).
      rewrite Hsn in Hin. apply elem_of_bfilter in Hin as [_ Hin]. unfold has_id in Hin. simpl in Hidd.
      by rewrite Hidd, bool_decide_true in Hin.
    + rewrite Hsn. unfold restored_json. simpl.
      rewrite (rebuilt_json cls i n); [|done..|by apply Hl|done|done].
      by apply json_jdel_split; [apply (inv_keyed reg)|..].
  - rewrite Hcn. apply bfilter_Permutation.
  - intros c [Hin Hc]%elem_of_bfilter. split; [done|]. by apply (plain_conn_new (st_adapter s)); [done|done|apply Hpc].
Qed.

Lemma move_entries_spec us s s' ms :
  inv (st_adapter s) → NoDup (jkeys us) → move_entries s us = (s', ms) →
  st_history s' = st_history s ∧ st_adapter s' = move_all mv_newPosition ms (st_adapter s) ∧
  NoDup (mv_nodeId <$> ms) ∧ (∀ m, m ∈ ms → mv_nodeId m ∈ jkeys us) ∧
  (∀ m d, m ∈ ms → d ∈ snap (st_adapter s) → nj_id d = Some (mv_nodeId m) →
     nj_position d = Some (mv_oldPosition m)).
Proof using Hreg.
  unfold jkeys. revert s s' ms.
  induction us as [|[i p] us IH]; intros s s' ms Hs Hd E; csimpl in *.
  { injection E as <- <-. split_and!; try done; set_solver. }
  apply NoDup_cons in Hd as [Hn Hd]. unfold getNode in E. rewrite ui_lookup in E by done.
  assert (∀ s' ms, move_entries s us = (s', ms) → st_history s' = st_history s ∧
    st_adapter s' = move_all mv_newPosition ms (st_adapter s) ∧
    NoDup (mv_nodeId <$> ms) ∧ (∀ m, m ∈ ms → mv_nodeId m ∈ i :: us.*1) ∧
    (∀ m d, m ∈ ms → d ∈ snap (st_adapter s) → nj_id d = Some (mv_nodeId m) →
       nj_position d = Some (mv_oldPosition m))) as Hskip.
  { intros s1 ms1 E1. destruct (IH s s1 ms1 Hs Hd E1) as (? & ? & ? & H & ?).
    split_and!; try done. intros m Hm. right. by apply H. }
  destruct (jget i (nodes (ad_editor (st_adapter s)))) as [n|] eqn:En; csimpl in E; [|by apply Hskip].
  rewrite ui_position_node in E. destruct (same_position _ _); [by apply Hskip|].
  rewrite on_adapter_spec in E. simpl in E.
  destruct (move_entries _ us) as [s2 ms2] eqn:E2. injection E as <- <-.
  destruct (IH (with_adapter s (updatePosition (st_adapter s) i p).1) s2 ms2) as (H1 & H2 & H3 & H4 & H5);
    [by apply updatePosition_inv|done|done|].
  simpl in *. destruct (snap_updatePosition reg (st_adapter s) i p Hs) as [Hsn _].
  split_and!; [done|done| | |].
  - csimpl. constructor; [|done]. intros Hin. apply list_elem_of_fmap in Hin as (m & -> & Hm).
    apply Hn. by apply H4.
  - intros m [->|Hm]%elem_of_cons; [left|right; by apply H4].
  - intros m d [->|Hm]%elem_of_cons Hin Hid; [by eapply snap_position|].
    apply H5; [done| |done]. rewrite Hsn. apply list_elem_of_fmap. exists d. split; [|done].
    unfold json_move, has_id. rewrite bool_decide_false; [done|]. rewrite Hid. intros [= <-].
    apply Hn. by apply H4.
Qed.

Lemma moveNodes_edited s us :
  inv (st_adapter s) → NoDup (jkeys us) → edited s (moveNodes s us).
Proof using Hreg.
  intros Hs Hd. unfold moveNodes. destruct (move_entries s us) as [s' ms] eqn:E.
  destruct (move_entries_spec us s s' ms Hs Hd E) as (Hh & Ha & Hnd & _ & Hold).
  destruct (snap_move_all reg mv_newPosition ms (st_adapter s) Hs) as (Hi & Hsn & Hcn).
  destruct ms as [|m ms]; [by apply edited_same|].
  apply edited_record; [done|by rewrite Ha|]. rewrite Ha.
  apply move_nodes_inverts; try done; [|by rewrite Hcn]. by rewrite Hsn, foldl_move_map.
Qed.

(** Adding a loop is a run of recorded edits. *)
Lemma connect_and_record_edited s src sh tgt th :
  inv (st_adapter s) → edited s (connect_and_record s src sh tgt th).
Proof using Hreg.
  intros Hs. pose proof (addConnection_edited s src sh tgt th Hs) as H. revert H.
  unfold connect_and_record, addConnection. rewrite on_adapter_spec.
  destruct (Adapter.addConnection _ _ _ _ _) as [a [c|]]; simpl; [|done].
  unfold edited. by rewrite !record_history, !record_adapter.
Qed.

Lemma add_and_record_edited s type pos i :
  inv (st_adapter s) → (Adapter.addNode reg (st_adapter s) type pos).2 = Some i →
  edited s (add_and_record reg (with_adapter s (Adapter.addNode reg (st_adapter s) type pos).1)
              type pos i).
Proof using Hreg.
  intros Hs Hi. destruct (getNodeClass reg type) as [cls|] eqn:Hc.
  - destruct (addNode_adds (st_adapter s) type pos cls Hs Hc) as (i' & Hi' & Hinv & Hcs & Ha).
    rewrite Hi in Hi'. injection Hi' as <-.
    apply edited_record; [done|done|]. simpl. apply (add_node_inverts reg Hreg cls); try done.
    by rewrite Hcs.
  - unfold Adapter.addNode in Hi. by rewrite Hc in Hi.
Qed.

Lemma edited_ext s s1 s' :
  st_adapter s1 = st_adapter s → st_history s1 = st_history s → edited s1 s' → edited s s'.
Proof using Type. unfold edited. by intros -> ->. Qed.

Lemma addNode_edits s type pos :
  inv (st_adapter s) → rtc edited s (addNode reg s type pos).1.
Proof using Hreg.
  intros Hs. destruct (decide (type = "loop")) as [->|Hl]; [|by apply rtc_once, addNode_edited].
  unfold addNode. rewrite on_adapter_spec.
  destruct (Adapter.addNode reg (st_adapter s) "loop" pos).2 as [i|] eqn:Ei.
  2:{ unfold Adapter.addNode in *. destruct (getNodeClass reg "loop") as [cls|] eqn:Hc.
      - destruct (addNode_adds (st_adapter s) "loop" pos cls Hs Hc) as (? & E & _).
        unfold Adapter.addNode in E. rewrite Hc in E. congruence.
      - simpl. apply rtc_once, edited_same; [done|done|]. by destruct s. }
  set (s1 := clearExecution _). set (s2 := add_and_record reg s1 "loop" pos i).
  assert (edited s s2) as H2.
  { eapply (edited_ext _ (with_progress s None)); [done|done|].
    apply (add_and_record_edited (with_progress s None)); done. }
  eapply rtc_l; [exact H2|]. destruct H2 as [Hi2 _].
  rewrite bool_decide_true by done. set (p := Position _ _). rewrite on_adapter_spec.
  destruct (Adapter.addNode reg (st_adapter s2) "noop" p).2 as [j|] eqn:Ej.
  2:{ apply rtc_once, edited_same; [done|done|]. simpl.
      unfold Adapter.addNode in *. destruct (getNodeClass reg "noop") as [cls|] eqn:Hc; [|done].
      destruct (addNode_adds (st_adapter s2) "noop" p cls Hi2 Hc) as (? & E & _).
      unfold Adapter.addNode in E. rewrite Hc in E. congruence. }
  set (s3 := add_and_record _ _ _ _ _).
  assert (edited s2 s3) as H3 by (by apply add_and_record_edited).
  eapply rtc_l; [exact H3|]. destruct H3 as [Hi3 _].
  pose proof (connect_and_record_edited s3 i "loop" j "data" Hi3) as H4.
  eapply rtc_l; [exact H4|]. destruct H4 as [Hi4 _].
  apply rtc_once. simpl. by apply connect_and_record_edited.
Qed.

(** ** Undo after an edit *)

Lemma store_ok_edited s s' t : store_ok s t → edited s s' → ∃ t', store_ok s' t'.
Proof using Type.
  intros (Hs & Hm & Hses) [Hi [[Eh Ea]|(act & Eh & Hinv)]].
  - exists t. split; [done|]. by rewrite Eh, Ea.
  - pose proof (session_lengths (same_graph reg) _ _ Hses) as (Hw & _). simpl in Hw.
    exists (t_commit (maxSize (st_history s)) t (st_adapter s')). split; [done|]. rewrite Eh.
    split; [by rewrite push_maxSize|]. eapply ses_do; [exact Hses|]. destruct Hinv as [Hu Hr].
    split; [by eapply leads_proper_r; [apply _|..]|by eapply leads_proper; [apply _|..]].
Qed.

(** Undo takes back the command that was recorded last. *)
Lemma pushed_undo (R : relation adapter) `{!Reflexive R} s s' act w :
  recording (st_history s) = true → currentBatch (st_history s) = None → (0 < maxSize (st_history s))%nat →
  st_history s' = (push (st_history s) act).1 → leads R (act_undo act) (st_adapter s') w →
  (undo s').1.2 = Ret true ∧ R (st_adapter (undo s').1.1) w.
Proof using Type.
  intros Hrec Hb Hm Eh Hu.
  assert (∃ u0, undoStack (st_history s') = u0 ++ [act]) as [u0 Eu].
  { rewrite Eh. unfold push. rewrite Hrec, Hb. simpl. destruct (Nat.ltb_spec (maxSize (st_history s))
      (length (undoStack (st_history s) ++ [act]))); [|by eexists].
    destruct (undoStack (st_history s)) as [|x l]; simpl in *; [lia|by eexists]. }
  destruct (Hu (st_adapter s')) as (y & Hy & Hys); [reflexivity|].
  unfold undo, History.undo. rewrite Eu, pop_snoc, Hy. simpl. split; [done|].
  by rewrite set_history_adapter.
Qed.

Lemma edited_undo s s' t :
  store_ok s t → edited s s' →
  (st_history s' = st_history s ∧ st_adapter s' = st_adapter s) ∨
  ((undo s').1.2 = Ret true ∧ same_graph reg (st_adapter (undo s').1.1) (st_adapter s)).
Proof using Type.
  intros (Hs & Hm & Hses) [Hi [?|(act & Eh & Hu & _)]]; [by left|right].
  apply session_refines in Hses as (_ & Hrec & Hb); [|apply _]. simpl in *.
  by eapply pushed_undo.
Qed.
End edits.
