(* ===== verification/StoreRun.v ===== *)
(** * Runs of the store

    Sequences of edits, undos and redos through the store, and the theorems
    about them. *)

From S2P Require Import Prelude JsMap JsValue Socket Connection Control Node Editor EditorInv EditorJson Adapter AdapterInv AdapterEquiv AdapterRun Nodes History HistoryTimeline Commands Connector Store StoreInv.

(** The graph actions that record one command. *)
Inductive store_edit :=
| EAddNode (type : string) (pos : position)
| EMoveNode (nodeId : string) (pos : position)
| EMoveNodes (updates : list (string * position))
| ERemoveNode (nodeId : string)
| EAddConnection (src sh tgt th : string)
| ERemoveConnection (connectionId : string).

Definition exec_edit (reg : odoo_registry) (s : store) (e : store_edit) : store :=
  match e with
  | EAddNode ty p => (addNode reg s ty p).1
  | EMoveNode i p => moveNode s i p
  | EMoveNodes us => moveNodes s us
  | ERemoveNode i => (removeNode reg s i).1
  | EAddConnection a b c d => (addConnection s a b c d).1
  | ERemoveConnection i => (removeConnection s i).1
  end.

(** Edits that can be undone without loss: the keys of an update are distinct
    (it is an object), a removed node has the label and metadata of its class,
    a removed connection no metadata of its own; a loop is several edits. *)
Definition lossless (reg : odoo_registry) (s : store) (e : store_edit) : Prop :=
  match e with
  | EAddNode ty _ => ty ≠ "loop"
  | EMoveNodes us => NoDup (jkeys us)
  | ERemoveNode i =>
      (∀ n, jget i (nodes (ad_editor (st_adapter s))) = Some n → plain_node reg n) ∧
      (∀ c, c ∈ conns (st_adapter s) → involvesNode c i = true → plain_conn c)
  | ERemoveConnection i => ∀ c, c ∈ conns (st_adapter s) → conn_id c = i → plain_conn c
  | _ => True
  end.

(** Stores reached from a fresh one; [sr_other] is any action that touches
    neither the graph nor the history (selection, viewport, panels, progress). *)
Inductive store_run (reg : odoo_registry) : store → Prop :=
| sr_new : store_run reg (new_store reg)
| sr_edit s e : store_run reg s → lossless reg s e → store_run reg (exec_edit reg s e)
| sr_loop s pos : store_run reg s → store_run reg (addNode reg s "loop" pos).1
| sr_undo s : store_run reg s → store_run reg (undo s).1.1
| sr_redo s : store_run reg s → store_run reg (redo s).1.1
| sr_other s s' :
    store_run reg s → st_adapter s' = st_adapter s → st_history s' = st_history s → store_run reg s'.

Section runs.
Context (reg : odoo_registry) (Hreg : odoo_ok reg).

Lemma exec_edit_edited s e :
  adapter_inv reg (st_adapter s) → lossless reg s e → edited reg s (exec_edit reg s e).
Proof using Hreg.
  intros Hs He. destruct e; simpl in *.
  - by apply addNode_edited.
  - by apply moveNode_edited.
  - by apply moveNodes_edited.
  - destruct He. by apply removeNode_edited.
  - by apply addConnection_edited.
  - by apply removeConnection_edited.
Qed.

Lemma same_graph_inv_l a b : adapter_inv reg b → same_graph reg a b → adapter_inv reg a.
Proof using Type. intros ? (? & _). tauto. Qed.

(** Present states of a session satisfy the invariant. *)
Definition timeline_inv (t : timeline adapter) : Prop :=
  Forall (adapter_inv reg) (past t) ∧ adapter_inv reg (present t) ∧ Forall (adapter_inv reg) (future t).

Lemma timeline_inv_undo t : timeline_inv t → timeline_inv (t_undo t).
Proof using Type.
  intros (Hp & Hn & Hf). unfold t_undo. destruct (pop (past t)) as [[p w]|] eqn:E; [|done].
  apply pop_Some in E. rewrite E, Forall_app, Forall_singleton in Hp. destruct Hp.
  split_and!; simpl; [done|done|]. by rewrite Forall_app, Forall_singleton.
Qed.

Lemma timeline_inv_redo t : timeline_inv t → timeline_inv (t_redo t).
Proof using Type.
  intros (Hp & Hn & Hf). unfold t_redo. destruct (pop (future t)) as [[p w]|] eqn:E; [|done].
  apply pop_Some in E. rewrite E, Forall_app, Forall_singleton in Hf. destruct Hf.
  split_and!; simpl; [|done|done]. by rewrite Forall_app, Forall_singleton.
Qed.

Lemma undo_spec s :
  st_history (undo s).1.1 = (hist_step (st_history s, st_adapter s) HUndo).1 ∧
  st_adapter (undo s).1.1 = (hist_step (st_history s, st_adapter s) HUndo).2.
Proof using Type.
  unfold undo, hist_step. destruct (History.undo _ _) as [[[h a] r] ns]. simpl.
  by rewrite set_history_adapter, set_history_history.
Qed.

Lemma redo_spec s :
  st_history (redo s).1.1 = (hist_step (st_history s, st_adapter s) HRedo).1 ∧
  st_adapter (redo s).1.1 = (hist_step (st_history s, st_adapter s) HRedo).2.
Proof using Type.
  unfold redo, hist_step. destruct (History.redo _ _) as [[[h a] r] ns]. simpl.
  by rewrite set_history_adapter, set_history_history.
Qed.

Definition run_ok s : Prop :=
  ∃ t, store_ok reg s t ∧ timeline_inv t.

Lemma store_ok_edited_inv s s' :
  run_ok s → edited reg s s' → run_ok s'.
Proof using Type.
  intros (t & (Hs & Hm & Hses) & Hp & Hn & Hf) [Hi [[Eh Ea]|(act & Eh & Hinv)]].
  - exists t. split; [|done]. split; [done|]. by rewrite Eh, Ea.
  - pose proof (session_lengths (same_graph reg) _ _ Hses) as (Hw & _). simpl in Hw.
    exists (t_commit (maxSize (st_history s)) t (st_adapter s')).
    split; [split; [done|]; rewrite Eh; split; [by rewrite push_maxSize|]|].
    + eapply ses_do; [exact Hses|]. destruct Hinv as [Hu Hr].
      split; [by eapply leads_proper_r; [apply _|..]|by eapply leads_proper; [apply _|..]].
    + split_and!; simpl; [|done|done].
      assert (Forall (adapter_inv reg) (past t ++ [present t])) as Hall
        by (by rewrite Forall_app, Forall_singleton).
      destruct (_ <? _)%nat; [|done]. destruct (past t ++ [present t]); simpl; [done|].
      by apply Forall_cons in Hall as [_ ?].
Qed.

Lemma run_ok_step s s' o f :
  run_ok s →
  (∀ t, session (same_graph reg) (st_history s, st_adapter s) t →
     session (same_graph reg) (hist_step (st_history s, st_adapter s) o) (f t)) →
  (∀ t, timeline_inv t → timeline_inv (f t)) →
  st_history s' = (hist_step (st_history s, st_adapter s) o).1 →
  st_adapter s' = (hist_step (st_history s, st_adapter s) o).2 → run_ok s'.
Proof using Type.
  intros (t & (Hs & Hm & Hses) & Ht) Hstep Hinv Eh Ea. exists (f t).
  pose proof (Hstep t Hses) as Hses'. specialize (Hinv t Ht).
  pose proof (session_lengths (same_graph reg) _ _ Hses') as (Hw & _).
  split; [|done]. split; [|split].
  - rewrite Ea. eapply same_graph_inv_l; [|exact Hw]. apply Hinv.
  - rewrite Eh, hist_step_maxSize. done.
  - rewrite Eh, Ea. by destruct (hist_step _ _).
Qed.

Lemma store_run_ok s : store_run reg s → run_ok s.
Proof using Hreg.
  induction 1 as [|s e _ IH He|s pos _ IH|s _ IH|s _ IH|s s' _ IH Ea Eh].
  - pose proof (new_adapter_inv reg) as Hi. exists (Timeline [] (new_adapter reg) []).
    split; [|by split_and!]. split; [done|]. split; [simpl; lia|]. by constructor.
  - eapply store_ok_edited_inv; [exact IH|]. destruct IH as (t & (Hs & _) & _).
    by apply exec_edit_edited.
  - assert (rtc (edited reg) s (addNode reg s "loop" pos).1) as Hrtc
      by (destruct IH as (t & (Hs & _) & _); by apply addNode_edits).
    clear -IH Hrtc. induction Hrtc as [|x y z Hxy _ IHr]; [done|].
    apply IHr. by eapply store_ok_edited_inv.
  - destruct (undo_spec s) as [Eh Ea].
    by apply (run_ok_step s _ HUndo t_undo); [done|intros; by apply ses_undo|apply timeline_inv_undo|..].
  - destruct (redo_spec s) as [Eh Ea].
    by apply (run_ok_step s _ HRedo t_redo); [done|intros; by apply ses_redo|apply timeline_inv_redo|..].
  - destruct IH as (t & (Hs & Hm & Hses) & Ht). exists t. unfold store_ok. by rewrite Ea, Eh.
Qed.
End runs.

(** ** Properties *)

(** after any sequence of edits that can be undone without loss
    ([lossless]), undos and redos through the store the graph is well formed and
    the state the components render equals it. *)
Theorem store_graph_in_sync reg s :
  odoo_ok reg → store_run reg s →
  editor_wf (ad_editor (st_adapter s)) ∧
  state_nodes (st_adapter s) = node_to_ui <$> getNodes (ad_editor (st_adapter s)) ∧
  state_connections (st_adapter s) = connection_to_ui <$> getConnections (ad_editor (st_adapter s)).
Proof.
  intros Hreg (t & ([_ [Hwf _ _] _ [Hn Hc]] & _) & _)%store_run_ok; [|done]. done.
Qed.

(** A store with a trigger connected to a request, the request moved. *)
Definition store_demo : store :=
  foldl (exec_edit builtin_registry) (new_store builtin_registry)
    [EAddNode "manual_trigger" (Position 0 0); EAddNode "http" (Position 1 0);
     EAddConnection "n_1" "output" "n_2" "data"; EMoveNode "n_2" (Position 1 1)].

Lemma store_demo_run : store_run builtin_registry store_demo.
Proof.
  unfold store_demo. cbn [foldl].
  apply (sr_edit _ _ (EMoveNode _ _)); [|done].
  apply (sr_edit _ _ (EAddConnection _ _ _ _)); [|done].
  apply (sr_edit _ _ (EAddNode _ _)); [|done].
  apply (sr_edit _ _ (EAddNode _ _)); [|done]. constructor.
Qed.

Lemma store_graph_in_sync_witness : editor_wf (ad_editor (st_adapter store_demo)).
Proof. exact (proj1 (store_graph_in_sync _ _ builtin_registry_ok store_demo_run)). Defined.

(** The removal of the demo's request can be undone without loss. *)
Lemma demo_removal_lossless : lossless builtin_registry store_demo (ERemoveNode "n_2").
Proof.
  split.
  - assert (Forall (λ kn, plain_node builtin_registry kn.2)
              (nodes (ad_editor (st_adapter store_demo)))) as H.
    { vm_compute. repeat constructor; intros cls [= <-]; reflexivity. }
    intros n Hn%jget_elem. rewrite Forall_forall in H. exact (H _ Hn).
  - assert (Forall plain_conn (conns (st_adapter store_demo))) as H by (vm_compute; by repeat constructor).
    intros c Hc _. rewrite Forall_forall in H. by apply H.
Qed.

(** after any such sequence, undoing [k] recorded edits and redoing [k]
    gives the graph back, up to the order of its nodes and connections. *)
Theorem store_undo_redo reg s (k : nat) :
  odoo_ok reg → store_run reg s → (k ≤ length (undoStack (st_history s)))%nat →
  let back := Nat.iter k (λ s, (undo s).1.1) s in
  let forth := Nat.iter k (λ s, (redo s).1.1) back in
  same_graph reg (st_adapter forth) (st_adapter s).
Proof.
  intros Hreg (t & (_ & _ & Hses) & _)%store_run_ok Hk; [|done]. simpl.
  assert (∀ j x, st_history (Nat.iter j (λ s, (undo s).1.1) x) =
              (Nat.iter j (λ hw, hist_step hw HUndo) (st_history x, st_adapter x)).1 ∧
            st_adapter (Nat.iter j (λ s, (undo s).1.1) x) =
              (Nat.iter j (λ hw, hist_step hw HUndo) (st_history x, st_adapter x)).2) as Hu.
  { intros j x. induction j as [|j [IH1 IH2]]; [done|]. simpl.
    destruct (undo_spec (Nat.iter j (λ s, (undo s).1.1) x)) as [-> ->]. rewrite IH1, IH2.
    by rewrite <- surjective_pairing. }
  assert (∀ j x, st_adapter (Nat.iter j (λ s, (redo s).1.1) x) =
              (Nat.iter j (λ hw, hist_step hw HRedo) (st_history x, st_adapter x)).2 ∧
            st_history (Nat.iter j (λ s, (redo s).1.1) x) =
              (Nat.iter j (λ hw, hist_step hw HRedo) (st_history x, st_adapter x)).1) as Hr.
  { intros j x. induction j as [|j [IH1 IH2]]; [done|]. simpl.
    destruct (redo_spec (Nat.iter j (λ s, (redo s).1.1) x)) as [-> ->]. rewrite IH1, IH2.
    by rewrite <- surjective_pairing. }
  rewrite (proj1 (Hr k _)). destruct (Hu k s) as [-> ->].
  destruct (session_iter (same_graph reg) k _ _ Hses) as [Hb _].
  pose proof (session_lengths (same_graph reg) _ _ Hses) as (Hw & Hl & _). simpl in *.
  pose proof (proj2 (session_iter (same_graph reg) k _ _ Hb)) as Hf.
  rewrite t_undo_redo_iter in Hf by lia.
  pose proof (session_lengths (same_graph reg) _ _ Hf) as (Hfw & _).
  destruct (Nat.iter k (λ hw, hist_step hw HUndo) _) as [h1 w1]. simpl in *. by rewrite Hfw, Hw.
Qed.

Lemma store_undo_redo_witness :
  same_graph builtin_registry
    (st_adapter (Nat.iter 3 (λ s, (redo s).1.1) (Nat.iter 3 (λ s, (undo s).1.1) store_demo)))
    (st_adapter store_demo).
Proof.
  apply (store_undo_redo builtin_registry store_demo 3 builtin_registry_ok store_demo_run).
  apply (bool_decide_unpack _). vm_compute. exact I.
Defined.

(** The label of a node in the graph. *)
Definition label_of (s : store) (i : string) : option string :=
  node_label <$> jget i (nodes (ad_editor (st_adapter s))).

(** undoing the removal of a node loses its name and its disabled flag:
    the command remembers id, type, position and configuration only. *)
Theorem undo_remove_loses_label :
  let s0 := store_demo in
  let s1 := with_adapter s0 (Adapter.setNodeLabel (st_adapter s0) "n_2" "Fetch").1 in
  let s2 := (toggleDisable s1 "n_2").1 in
  let s3 := (undo (removeNode builtin_registry s2 "n_2").1).1.1 in
  label_of s2 "n_2" = Some "Fetch" ∧ isNodeDisabled s2 "n_2" = true ∧
  label_of s3 "n_2" = Some "HTTP Request" ∧ isNodeDisabled s3 "n_2" = false.
Proof. vm_compute. done. Qed.

(** a loop is added with its placeholder and the two connections of its
    cycle, as four history entries: one undo only removes the last connection,
    four give the empty graph back. *)
Theorem add_loop_creates_cycle :
  let s := (addNode builtin_registry (new_store builtin_registry) "loop" (Position 0 0)).1 in
  let e := ad_editor (st_adapter s) in
  jkeys (nodes e) = ["n_1"; "n_2"] ∧
  conn_id <$> connections e =
    [generateId "n_1" "loop" "n_2" "data"; generateId "n_2" "result" "n_1" "data"] ∧
  length (undoStack (st_history s)) = 4 ∧
  length (connections (ad_editor (st_adapter (undo s).1.1))) = 1 ∧
  nodes (ad_editor (st_adapter (Nat.iter 4 (λ s, (undo s).1.1) s))) = [] ∧
  connections (ad_editor (st_adapter (Nat.iter 4 (λ s, (undo s).1.1) s))) = [].
Proof. vm_compute. done. Qed.
