(* ===== verification/StoreViews.v ===== *)
(** * Read-only views, saving and execution progress

    Properties of the parts of the store that are not graph edits: the two
    views and the way back from them, saving and loading with pinned data, and
    the progress of an execution. *)

From S2P Require Import Prelude JsMap JsValue JsString Socket Connection Control Node Editor EditorInv EditorJson Adapter AdapterInv AdapterEquiv AdapterRun Nodes History HistoryTimeline Commands Connector Store StoreInv StoreRun StoreExec.

(** ** Views *)

(** What opens, closes or resets views: the operations of the store with the
    answers they get, the two parts of loading a workflow among them. *)
Inductive view_op :=
| VStartHistory (revisionId : jsval) (snapshot : option workflow_json)
| VEndHistory (restore : bool)
| VStartExecution (runId : jsval) (snapshot : option workflow_json) (data : option jsobj)
| VEndExecution (restore clear : bool)
| VCopyToEditor
| VDebug (runData : jsval)
| VLoad
| VLoaded (id : jsval) (d : load_answer).

Definition view_step (s : store) (o : view_op) : store :=
  match o with
  | VStartHistory r w => (startHistoryPreview s r w).1
  | VEndHistory b => (endHistoryPreview s b).1
  | VStartExecution r w d => (startExecutionView s r w d).1
  | VEndExecution b c => (endExecutionView s b c).1
  | VCopyToEditor => (copyExecutionToEditor s).1
  | VDebug d => (debugExecution s d).1
  | VLoad => loadWorkflow_request s
  | VLoaded i d => (loadWorkflow_response s i d).1
  end.

(** Leaving a view makes the editor editable; this tells whether a view is left
    while the other one is on. *)
Definition leaves_under_other (s : store) (o : view_op) : bool :=
  match o with
  | VEndHistory _ => pv_active (executionView s)
  | VEndExecution _ _ => pv_active (historyPreview s)
  | _ => false
  end.
Fixpoint never_under_other (s : store) (os : list view_op) : bool :=
  match os with
  | [] => true
  | o :: os => negb (leaves_under_other s o) && never_under_other (view_step s o) os
  end.
Definition no_load (o : view_op) : bool := match o with VLoad => false | _ => true end.

(** At most one view is on; the flags of the user interface say which; while
    one is on the editor is read-only and there is a graph to go back to. *)
Record views_ok (s : store) : Prop := {
  vo_exclusive : pv_active (historyPreview s) && pv_active (executionView s) = false;
  vo_history : (ui_historyPreview (st_ui s)).1 = pv_active (historyPreview s);
  vo_execution : (ui_executionView (st_ui s)).1 = pv_active (executionView s);
  vo_readonly : pv_active (historyPreview s) || pv_active (executionView s) = true →
                readonly (st_ui s) = true;
  vo_hp_original : is_Some (pv_original (historyPreview s)) ↔ pv_active (historyPreview s) = true;
  vo_ev_original : is_Some (pv_original (executionView s)) ↔ pv_active (executionView s) = true;
}.

(** The part of the store [views_ok] looks at. *)
Definition same_views (s s' : store) : Prop :=
  historyPreview s' = historyPreview s ∧ executionView s' = executionView s ∧
  ui_historyPreview (st_ui s') = ui_historyPreview (st_ui s) ∧
  ui_executionView (st_ui s') = ui_executionView (st_ui s) ∧
  readonly (st_ui s') = readonly (st_ui s).

Lemma views_ok_same s s' : same_views s s' → views_ok s → views_ok s'.
Proof. intros (H1 & H2 & H3 & H4 & H5) []. split; rewrite ?H1, ?H2, ?H3, ?H4, ?H5; done. Qed.

Lemma load_graph_views s w : same_views s (load_graph s w).1.
Proof. unfold load_graph. rewrite on_adapter_spec. done. Qed.

Lemma restore_original_views s v b : same_views s (restore_original s v b).1.
Proof.
  unfold restore_original. destruct (pv_original v); [|done].
  destruct (_ && _); [apply load_graph_views|done].
Qed.

Lemma setExecutionResult_views s f : same_views s (setExecutionResult s f).
Proof. unfold setExecutionResult. destruct (_ || _); done. Qed.

Lemma replaceExecutionResult_views s f : same_views s (replaceExecutionResult s f).
Proof. unfold replaceExecutionResult. apply (setExecutionResult_views (with_progress s _)). Qed.

(** Leaving the history preview, when it does not throw. *)
Lemma endHistoryPreview_spec s b :
  let '(s1, r) := restore_original s (historyPreview s) b in
  endHistoryPreview s b =
    match r with
    | Throw msg => (s1, Throw msg)
    | Ret _ =>
        (on_ui (λ u, leave_view (with_ui_historyPreview u (false, JNull)))
           (with_historyPreview s1 no_preview), Ret tt)
    end.
Proof.
  unfold endHistoryPreview. by destruct (restore_original s (historyPreview s) b) as [s1 [|]].
Qed.

Lemma endHistoryPreview_views s b :
  views_ok s → pv_active (executionView s) = false →
  views_ok (endHistoryPreview s b).1 ∧ executionView (endHistoryPreview s b).1 = executionView s ∧
  ((endHistoryPreview s b).2 = Ret tt → pv_active (historyPreview (endHistoryPreview s b).1) = false).
Proof.
  intros H Hev. pose proof (endHistoryPreview_spec s b) as E.
  pose proof (restore_original_views s (historyPreview s) b) as Hv.
  destruct (restore_original s (historyPreview s) b) as [s1 [u|msg]]; rewrite E; cbn [fst snd] in *;
    pose proof (views_ok_same _ _ Hv H) as Hok; destruct Hv as (_ & Hv2 & _).
  2:{ done. }
  rewrite <- Hv2 in Hev. destruct Hok as [_ _ H3 _ _ H6].
  split; [|done]. split; simpl; try done; by rewrite Hev.
Qed.

Lemma endExecutionView_views s b c :
  views_ok s → pv_active (historyPreview s) = false →
  views_ok (endExecutionView s b c).1 ∧ historyPreview (endExecutionView s b c).1 = historyPreview s ∧
  ((endExecutionView s b c).2 = Ret tt → pv_active (executionView (endExecutionView s b c).1) = false).
Proof.
  intros H Hhp. unfold endExecutionView.
  pose proof (restore_original_views s (executionView s) b) as Hv.
  destruct (restore_original s (executionView s) b) as [s1 [u|msg]]; cbn [fst snd] in *;
    pose proof (views_ok_same _ _ Hv H) as Hok; destruct Hv as (Hv1 & _).
  2:{ done. }
  rewrite <- Hv1 in Hhp. destruct Hok as [_ H2 _ _ H5 _].
  split; [|by destruct c]. split; destruct c; simpl; try done; by rewrite Hhp.
Qed.

(** Entering a view, while the other one is off. *)
Lemma activate_original s v i : is_Some (pv_original v) ↔ pv_active v = true →
  is_Some (pv_original (activate s v i)).
Proof. intros H. unfold activate. simpl. destruct (pv_active v); [by apply H|by eexists]. Qed.

Lemma startHistoryPreview_views s r w : views_ok s → views_ok (startHistoryPreview s r w).1.
Proof.
  intros H. unfold startHistoryPreview. destruct w as [w|]; [|done].
  assert (∃ s1 o, (if pv_active (executionView s) then endExecutionView s true true else (s, Ret tt)) = (s1, o) ∧
    views_ok s1 ∧ (o = Ret tt → pv_active (executionView s1) = false)) as (s1 & o & -> & H1 & Hoff).
  { destruct (pv_active (executionView s)) eqn:E; [|by exists s, (Ret tt)].
    destruct (endExecutionView_views s true true) as (Hok & _ & Hx); [done| |].
    { pose proof (vo_exclusive s H) as He. rewrite E, andb_true_r in He. done. }
    destruct (endExecutionView s true true) as [s1 o]. by exists s1, o. }
  destruct o as [[]|]; [|done]. specialize (Hoff eq_refl).
  match goal with |- views_ok (load_graph ?x w).1 => set (s2 := x) end.
  apply (views_ok_same s2); [apply load_graph_views|].
  destruct H1 as [_ _ H3 _ H5 H6]. unfold s2. split; simpl; try done.
  split; [done|]. intros _. by apply (activate_original s1 (historyPreview s1) r).
Qed.

Lemma startExecutionView_views s r w d : views_ok s → views_ok (startExecutionView s r w d).1.
Proof.
  intros H. unfold startExecutionView. destruct w as [w|]; [|done].
  assert (∃ s1 o, (if pv_active (historyPreview s) then endHistoryPreview s true else (s, Ret tt)) = (s1, o) ∧
    views_ok s1 ∧ (o = Ret tt → pv_active (historyPreview s1) = false)) as (s1 & o & -> & H1 & Hoff).
  { destruct (pv_active (historyPreview s)) eqn:E; [|by exists s, (Ret tt)].
    destruct (endHistoryPreview_views s true) as (Hok & _ & Hx); [done| |].
    { pose proof (vo_exclusive s H) as He. by rewrite E in He. }
    destruct (endHistoryPreview s true) as [s1 o]. by exists s1, o. }
  destruct o as [[]|]; [|done]. specialize (Hoff eq_refl).
  match goal with |- context [load_graph ?x w] => set (s2 := x) end.
  assert (views_ok s2) as H2.
  { destruct H1 as [_ Hh _ _ H5 H6]. unfold s2. split; simpl; try done.
    - by rewrite Hoff.
    - split; [done|]. intros _. by apply (activate_original s1 (executionView s1) r). }
  pose proof (load_graph_views s2 w) as Hl. destruct (load_graph s2 w) as [s3 [[]|]]; cbn [fst] in *;
    (eapply views_ok_same in H2; [|exact Hl]); [|done].
  destruct d; [|done]. eapply views_ok_same; [apply replaceExecutionResult_views|done].
Qed.

(** *** Every operation as a sequence of small changes *)

(** What happens to the views; [calm] is that no view is left while the other is
    on, [loads] that a workflow may be loaded. *)
Inductive view_change (calm loads : bool) (s s' : store) : Prop :=
| vc_same : same_views s s' → view_change calm loads s s'
| vc_left_history :
    (calm = true → pv_active (executionView s) = false) →
    historyPreview s' = no_preview → executionView s' = executionView s →
    (ui_historyPreview (st_ui s')).1 = false → ui_executionView (st_ui s') = ui_executionView (st_ui s) →
    view_change calm loads s s'
| vc_left_execution :
    (calm = true → pv_active (historyPreview s) = false) →
    executionView s' = no_preview → historyPreview s' = historyPreview s →
    (ui_executionView (st_ui s')).1 = false → ui_historyPreview (st_ui s') = ui_historyPreview (st_ui s) →
    view_change calm loads s s'
| vc_open_history :
    pv_active (executionView s) = false → executionView s' = executionView s →
    pv_active (historyPreview s') = true → is_Some (pv_original (historyPreview s')) →
    (ui_historyPreview (st_ui s')).1 = true → ui_executionView (st_ui s') = ui_executionView (st_ui s) →
    readonly (st_ui s') = true → view_change calm loads s s'
| vc_open_execution :
    pv_active (historyPreview s) = false → historyPreview s' = historyPreview s →
    pv_active (executionView s') = true → is_Some (pv_original (executionView s')) →
    (ui_executionView (st_ui s')).1 = true → ui_historyPreview (st_ui s') = ui_historyPreview (st_ui s) →
    readonly (st_ui s') = true → view_change calm loads s s'
| vc_load :
    loads = true → historyPreview s' = historyPreview s → executionView s' = executionView s →
    ui_historyPreview (st_ui s') = ui_historyPreview (st_ui s) → (ui_executionView (st_ui s')).1 = false →
    readonly (st_ui s') = readonly (st_ui s) → view_change calm loads s s'.

(** Never are both views on, and a view has a graph to return to exactly while it
    is on. *)
Record views_core (s : store) : Prop := {
  vk_exclusive : pv_active (historyPreview s) && pv_active (executionView s) = false;
  vk_history : is_Some (pv_original (historyPreview s)) ↔ pv_active (historyPreview s) = true;
  vk_execution : is_Some (pv_original (executionView s)) ↔ pv_active (executionView s) = true;
}.
(** The flag of the revisions is right and that of the runs is never on by mistake. *)
Definition flags_sound (s : store) : Prop :=
  (ui_historyPreview (st_ui s)).1 = pv_active (historyPreview s) ∧
  ((ui_executionView (st_ui s)).1 = true → pv_active (executionView s) = true).
Definition run_flag_exact (s : store) : Prop := (ui_executionView (st_ui s)).1 = pv_active (executionView s).
Definition view_readonly (s : store) : Prop :=
  pv_active (historyPreview s) || pv_active (executionView s) = true → readonly (st_ui s) = true.

Lemma change_core calm loads s s' : view_change calm loads s s' → views_core s → views_core s'.
Proof.
  intros Hc [H1 H2 H3]. destruct Hc as [(E1 & E2 & _)|_ E1 E2|_ E1 E2|E0 E1 E2 E3|E0 E1 E2 E3|_ E1 E2];
    split; rewrite ?E1, ?E2, ?E0; simpl; rewrite ?andb_false_r; try done;
    first [by split|by split; [intros [? [=]]|]|by rewrite <- E0].
Qed.

Lemma change_flags calm loads s s' : view_change calm loads s s' → flags_sound s → flags_sound s'.
Proof.
  unfold flags_sound. intros Hc [H1 H2].
  destruct Hc as [(E1 & E2 & E3 & E4 & _)|_ E1 E2 E3 E4|_ E1 E2 E3 E4|_ E1 E2 _ E3 E4|_ E1 E2 _ E3 E4|_ E1 E2 E3 E4];
    rewrite ?E1, ?E2, ?E3, ?E4; done.
Qed.

Lemma change_run_flag calm s s' : view_change calm false s s' → run_flag_exact s → run_flag_exact s'.
Proof.
  unfold run_flag_exact. intros Hc H.
  destruct Hc as [(E1 & E2 & E3 & E4 & _)|_ E1 E2 E3 E4|_ E1 E2 E3 E4|_ E1 E2 _ E3 E4|_ E1 E2 _ E3 E4|?];
    rewrite ?E1, ?E2, ?E3, ?E4; done.
Qed.

Lemma change_readonly loads s s' : view_change true loads s s' → view_readonly s → view_readonly s'.
Proof.
  unfold view_readonly. intros Hc H.
  destruct Hc as [(E1 & E2 & _ & _ & E5)|E0 E1 E2|E0 E1 E2|?|?|_ E1 E2 _ _ E5]; try done;
    rewrite ?E1, ?E2, ?E5; try done; by rewrite E0.
Qed.

(** Opening and leaving, from the code. *)
Lemma left_history calm loads s b :
  (calm = true → pv_active (executionView s) = false) →
  view_change calm loads s (endHistoryPreview s b).1 ∧
  ((endHistoryPreview s b).2 = Ret tt → pv_active (historyPreview (endHistoryPreview s b).1) = false).
Proof.
  intros Hc. rewrite (surjective_pairing (endHistoryPreview s b)). pose proof (endHistoryPreview_spec s b) as E.
  pose proof (restore_original_views s (historyPreview s) b) as Hv.
  destruct (restore_original s (historyPreview s) b) as [s1 [u|msg]]; rewrite E; cbn [fst snd] in *; [|by split; [apply vc_same|]].
  destruct Hv as (_ & V2 & _ & V4 & _). split; [|done]. by apply vc_left_history.
Qed.

Lemma left_execution calm loads s b c :
  (calm = true → pv_active (historyPreview s) = false) →
  view_change calm loads s (endExecutionView s b c).1 ∧
  ((endExecutionView s b c).2 = Ret tt → pv_active (executionView (endExecutionView s b c).1) = false).
Proof.
  intros Hc. unfold endExecutionView. pose proof (restore_original_views s (executionView s) b) as Hv.
  destruct (restore_original s (executionView s) b) as [s1 [u|msg]]; cbn [fst snd] in *; [|by split; [apply vc_same|]].
  destruct Hv as (V1 & _ & V3 & _). split; [|by destruct c]. by apply vc_left_execution; destruct c.
Qed.

Lemma opened_history calm loads s r w :
  views_core s → rtc (view_change calm loads) s (startHistoryPreview s r w).1.
Proof.
  intros H. unfold startHistoryPreview. destruct w as [w|]; [|done].
  assert (∃ s1 o, (if pv_active (executionView s) then endExecutionView s true true else (s, Ret tt)) = (s1, o) ∧
    view_change calm loads s s1 ∧ (o = Ret tt → pv_active (executionView s1) = false)) as (s1 & o & -> & H1 & Hoff).
  { destruct (pv_active (executionView s)) eqn:E; [|by exists s, (Ret tt); split_and!; [|apply vc_same|]].
    destruct (left_execution calm loads s true true) as [Hc Hx].
    { pose proof (vk_exclusive s H) as He. rewrite E, andb_true_r in He. done. }
    destruct (endExecutionView s true true) as [s1 o]. by exists s1, o. }
  pose proof (change_core _ _ _ _ H1 H) as Hk. destruct o as [[]|]; [|by apply rtc_once]. specialize (Hoff eq_refl).
  match goal with |- rtc _ _ (load_graph ?x w).1 => set (s2 := x) end.
  apply (rtc_l _ _ s1); [done|]. apply (rtc_l _ _ s2); [|apply rtc_once, vc_same, load_graph_views].
  apply vc_open_history; try done. apply (activate_original s1 (historyPreview s1) r), Hk.
Qed.

Lemma opened_execution calm loads s r w d :
  views_core s → rtc (view_change calm loads) s (startExecutionView s r w d).1.
Proof.
  intros H. unfold startExecutionView. destruct w as [w|]; [|done].
  assert (∃ s1 o, (if pv_active (historyPreview s) then endHistoryPreview s true else (s, Ret tt)) = (s1, o) ∧
    view_change calm loads s s1 ∧ (o = Ret tt → pv_active (historyPreview s1) = false)) as (s1 & o & -> & H1 & Hoff).
  { destruct (pv_active (historyPreview s)) eqn:E; [|by exists s, (Ret tt); split_and!; [|apply vc_same|]].
    destruct (left_history calm loads s true) as [Hc Hx].
    { pose proof (vk_exclusive s H) as He. by rewrite E in He. }
    destruct (endHistoryPreview s true) as [s1 o]. by exists s1, o. }
  pose proof (change_core _ _ _ _ H1 H) as Hk. destruct o as [[]|]; [|by apply rtc_once]. specialize (Hoff eq_refl).
  match goal with |- context [load_graph ?x w] => set (s2 := x) end.
  apply (rtc_l _ _ s1); [done|]. apply (rtc_l _ _ s2).
  { apply vc_open_execution; try done. apply (activate_original s1 (executionView s1) r), Hk. }
  pose proof (load_graph_views s2 w) as Hl. destruct (load_graph s2 w) as [s3 [[]|]]; cbn [fst] in *;
    (eapply rtc_l; [apply vc_same, Hl|]); [|done]. destruct d; [|done].
  apply rtc_once, vc_same, replaceExecutionResult_views.
Qed.

Lemma step_changes s o :
  views_core s → rtc (view_change (negb (leaves_under_other s o)) (negb (no_load o))) s (view_step s o).
Proof.
  intros H. pose proof (vk_exclusive s H) as He. destruct o as [r w|b|r w d|b c| |d| |i d]; cbn [leaves_under_other no_load view_step].
  - by apply opened_history.
  - apply rtc_once, left_history. apply negb_true_iff.
  - by apply opened_execution.
  - apply rtc_once, left_execution. apply negb_true_iff.
  - unfold copyExecutionToEditor. destruct (pv_active (executionView s)) eqn:E; [|done].
    apply rtc_once, left_execution. by rewrite andb_true_r in He.
  - unfold debugExecution. destruct (negb (is_array _)); [done|]. destruct (pv_active (executionView s)) eqn:E;
      [|apply rtc_once, vc_same, replaceExecutionResult_views]. rewrite andb_true_r in He.
    pose proof (proj1 (left_execution (negb false) (negb true) s true true (λ _, He))) as Hl.
    destruct (endExecutionView s true true) as [s1 [|]]; [|by apply rtc_once].
    eapply rtc_l; [exact Hl|]. apply rtc_once, vc_same, replaceExecutionResult_views.
  - apply rtc_once. by apply vc_load.
  - apply rtc_once, vc_same. unfold loadWorkflow_response. pose proof (load_graph_views s (fs_graph (la_snapshot d))) as Hl.
    by destruct (load_graph s _) as [s1 [|]].
Qed.

(** Any invariant of the changes is one of the operations. *)
Lemma step_invariant (I : store → Prop) s o :
  (∀ x x', view_change (negb (leaves_under_other s o)) (negb (no_load o)) x x' → I x → I x') →
  views_core s → I s → I (view_step s o).
Proof. intros HI H. pose proof (step_changes s o H) as Hs. induction Hs as [|x y z Hxy _ IH]; eauto. Qed.

Lemma views_run s os :
  views_core s →
  let s' := foldl view_step s os in
  views_core s' ∧ (flags_sound s → flags_sound s') ∧
  (run_flag_exact s → forallb no_load os = true → run_flag_exact s') ∧
  (view_readonly s → never_under_other s os = true → view_readonly s').
Proof.
  revert s. induction os as [|o os IH]; intros s Hk; [done|]. cbn [foldl forallb never_under_other].
  destruct (IH (view_step s o)) as (H1 & H2 & H3 & H4); [by apply step_invariant; [intros *; apply change_core|..]|].
  split_and!; [done|..].
  - intros Hf. apply H2, step_invariant; [intros *; apply change_flags|done..].
  - intros Hf [E1 E2]%andb_prop. apply H3; [|done]. apply step_invariant; [|done..]. rewrite E1. intros *. apply change_run_flag.
  - intros Hf [E1 E2]%andb_prop. apply H4; [|done]. apply step_invariant; [|done..]. rewrite E1. intros *. apply change_readonly.
Qed.

Lemma new_store_views reg : views_ok (new_store reg).
Proof. split; simpl; try done; split; done || by intros []. Qed.

(** ** The way back *)

Lemma fromJSON_keeps a w :
  nodeRegistry (ad_editor (Adapter.fromJSON a w).1) = nodeRegistry (ad_editor a) ∧
  callbacks (ad_editor (Adapter.fromJSON a w).1) = callbacks (ad_editor a).
Proof.
  unfold Adapter.fromJSON, Editor.fromJSON, Editor.clear. simpl.
  destruct (load_nodes _ _ _ _) as [ns [m|]]; simpl; by rewrite handlers_editor.
Qed.

(** [s] shows a preview entered from the store [s0]. *)
Definition previewing (s0 s : store) : Prop :=
  historyPreview s = Preview true (pv_id (historyPreview s)) (Some (Adapter.toJSON (st_adapter s0))) ∧
  pv_active (executionView s) = false ∧
  nodeRegistry (ad_editor (st_adapter s)) = nodeRegistry (ad_editor (st_adapter s0)) ∧
  callbacks (ad_editor (st_adapter s)) = callbacks (ad_editor (st_adapter s0)).

Lemma startHistoryPreview_off s r w :
  pv_active (executionView s) = false →
  (startHistoryPreview s r (Some w)).1 =
    (load_graph (on_ui (λ u, enter_view (with_ui_historyPreview u (true, js_or r JNull)))
       (with_historyPreview s (activate s (historyPreview s) r))) w).1.
Proof. intros H. unfold startHistoryPreview. by rewrite H. Qed.

Lemma previewing_start s r w :
  pv_active (historyPreview s) = false → pv_active (executionView s) = false →
  previewing s (startHistoryPreview s r (Some w)).1.
Proof.
  intros Hh He. rewrite startHistoryPreview_off by done. unfold load_graph. rewrite on_adapter_spec.
  split; [|split; [done|apply fromJSON_keeps]]. simpl. unfold activate. by rewrite Hh.
Qed.

Lemma previewing_again s0 s r w :
  previewing s0 s → previewing s0 (startHistoryPreview s r (Some w)).1.
Proof.
  intros (Hp & He & Hr & Hc). rewrite startHistoryPreview_off by done.
  unfold load_graph. rewrite on_adapter_spec.
  split; [|split; [done|]].
  - simpl. unfold activate. by rewrite Hp.
  - rewrite <- Hr, <- Hc. apply fromJSON_keeps.
Qed.

(** ** Properties of the views *)

(** C24: Whatever the order in which revisions and runs are opened and closed, runs
    are copied to the editor or debugged, workflows are loaded, and whichever
    snapshots fail to load: never are both read-only views on, a view has a graph to
    return to exactly while it is on, the flag that the components see for the
    preview of a revision is right, and the flag for a run is only on while the run
    is shown.  As long as no workflow is loaded the flag for a run is exact.  As long
    as no view is left while the other one is on, the editor is read-only while a
    view is on.  (A load while a run is shown drops its flag,
    [load_keeps_stale_view]; leaving one view under the other makes the editor
    editable, which the history panel does, [HistoryPanel.late_history_unlocks].) *)
Theorem views_exclusive reg os :
  let s := foldl view_step (new_store reg) os in
  views_core s ∧ flags_sound s ∧
  (forallb no_load os = true → run_flag_exact s) ∧
  (never_under_other (new_store reg) os = true → view_readonly s).
Proof.
  destruct (new_store_views reg) as [V1 V2 V3 V4 V5 V6].
  destruct (views_run (new_store reg) os) as (H1 & H2 & H3 & H4); [done|]. split_and!; auto. apply H2. by split.
Qed.

(** A revision that does not load, then a run that is left, then another. *)
Lemma views_exclusive_witness :
  let os := [VStartHistory (JInt 3) (Some bad_snapshot);
             VStartExecution (JInt 7) (Some (Adapter.toJSON demo)) None; VEndExecution true true;
             VStartExecution (JInt 8) (Some (Adapter.toJSON demo)) None] in
  let s := foldl view_step (new_store builtin_registry) os in
  run_flag_exact s ∧ view_readonly s ∧ pv_active (executionView s) = true ∧ pv_active (historyPreview s) = false.
Proof.
  intros os s. destruct (views_exclusive builtin_registry os) as (_ & _ & Hr & Ho).
  split; [apply Hr; vm_compute; reflexivity|]. split; [apply Ho; vm_compute; reflexivity|].
  split; vm_compute; reflexivity.
Defined.

(** C26: after any number of revision previews, even of snapshots that fail to
    load, leaving the preview brings back the graph that was edited before it:
    it saves the same and looks the same, and is editable again. *)
Theorem preview_returns reg s r w previews :
  odoo_ok reg → adapter_inv reg (st_adapter s) →
  (∀ k n, jget k (nodes (ad_editor (st_adapter s))) = Some n → node_label n ≠ "") →
  pv_active (historyPreview s) = false → pv_active (executionView s) = false →
  let start s rw := (startHistoryPreview s rw.1 (Some rw.2)).1 in
  let s1 := foldl start (start s (r, w)) previews in
  let s2 := (endHistoryPreview s1 true).1 in
  (endHistoryPreview s1 true).2 = Ret tt ∧
  Adapter.toJSON (st_adapter s2) = Adapter.toJSON (st_adapter s) ∧
  state_nodes (st_adapter s2) = state_nodes (st_adapter s) ∧
  state_connections (st_adapter s2) = state_connections (st_adapter s) ∧
  readonly (st_ui s2) = false ∧ historyPreview s2 = no_preview.
Proof.
  intros Hreg Hs Hl Hh He. cbn zeta.
  assert (previewing s (foldl (λ s rw, (startHistoryPreview s rw.1 (Some rw.2)).1)
    (startHistoryPreview s r (Some w)).1 previews)) as Hp.
  { assert (previewing s (startHistoryPreview s r (Some w)).1) as H0 by (by apply previewing_start).
    revert H0. generalize ((startHistoryPreview s r (Some w)).1).
    induction previews as [|[r' w'] ps IH]; intros x Hx; [done|]. by apply IH, previewing_again. }
  cbn [fst snd]. revert Hp. generalize (foldl (λ s rw, (startHistoryPreview s rw.1 (Some rw.2)).1)
    (startHistoryPreview s r (Some w)).1 previews).
  intros s1 (Hp & He1 & Hr & Hc). unfold endHistoryPreview, restore_original. rewrite Hp. simpl.
  unfold load_graph. rewrite on_adapter_spec.
  destruct (load_saved reg (st_adapter s) (st_adapter s1)) as (Hret & Hj & Hn & Hcn); [done..| |done|].
  { pose proof Hs as [_ _ [? ?] _]. unfold subscribed. by rewrite Hc. }
  rewrite Hret. simpl. done.
Qed.

Lemma preview_returns_witness :
  let start s rw := (startHistoryPreview s rw.1 (Some rw.2)).1 in
  let s1 := foldl start (start store_demo (JInt 1, bad_snapshot)) [(JInt 2, WorkflowJson "1.0" None None)] in
  Adapter.toJSON (st_adapter (endHistoryPreview s1 true).1) = Adapter.toJSON (st_adapter store_demo).
Proof.
  assert (adapter_inv builtin_registry (st_adapter store_demo)) as Hi.
  { destruct (store_run_ok builtin_registry builtin_registry_ok store_demo store_demo_run)
      as (t & (H & _) & _). exact H. }
  assert (Forall (λ n, node_label n ≠ "") (jvals (nodes (ad_editor (st_adapter store_demo))))) as Hl
    by (vm_compute; by repeat constructor).
  refine (proj1 (proj2 (preview_returns builtin_registry store_demo (JInt 1) bad_snapshot
    [(JInt 2, WorkflowJson "1.0" None None)] builtin_registry_ok Hi _ eq_refl eq_refl))).
  intros k n Hk%jget_elem. rewrite Forall_forall in Hl. apply Hl.
  by apply (list_elem_of_fmap_2 snd _ (k, n)).
Defined.

(** The workflow with id [i] and one node of type [ty], as the backend sends it. *)
Definition answer (ty : string) : load_answer :=
  LoadAnswer (FullSnapshot (WorkflowJson "1.0"
    (Some [NodeJson (Some "n_1") ty None None None None]) None) []) JNull JNull.

Definition node_types (s : store) : list string := node_type <$> getNodes (ad_editor (st_adapter s)).

(** loading a workflow while a run is shown resets the flag the components
    see but not the view itself: showing and leaving a run of the new workflow
    then puts the graph of the old workflow into the editor. *)
Theorem load_keeps_stale_view :
  let s0 := (loadWorkflow_response (new_store builtin_registry) (JInt 1) (answer "http")).1 in
  let s1 := (startExecutionView s0 (JInt 7) (Some (Adapter.toJSON (st_adapter s0))) None).1 in
  let s2 := (loadWorkflow_response (loadWorkflow_request s1) (JInt 2) (answer "loop")).1 in
  let s3 := (startExecutionView s2 (JInt 8) (Some (Adapter.toJSON (st_adapter s2))) None).1 in
  let s4 := (endExecutionView s3 true true).1 in
  workflowId s4 = JInt 2 ∧ node_types s2 = ["loop"] ∧ node_types s4 = ["http"] ∧
  ui_executionView (st_ui s2) = (false, JNull) ∧ pv_active (executionView s2) = true.
Proof. vm_compute. done. Qed.
