(* ===== verification/StoreProgress.v ===== *)
(** * Saving, pinned data and execution progress

    What a save sends and an answer changes, the round trip of pinned data, and
    the execution progress built from events and results. *)

From S2P Require Import Prelude JsMap JsValue JsNumber JsString Socket Connection Control Node Editor Adapter AdapterInv AdapterRun Nodes History Commands Connector Store StoreInv StoreExec.

(** ** Saving *)

(** an answer to a save marks everything as saved, also the edits made
    after the request was sent: here a node is added in between, the snapshot
    that was sent does not have it, and nothing is left to save. *)
Theorem save_forgets_later_edits :
  let s0 := new_store builtin_registry in
  let sent := (saveWorkflow_request s0).1.2 in
  let s1 := (addNode builtin_registry s0 "http" (Position 0 0)).1 in
  let s2 := (saveWorkflow_response s1 (JStr "v2")).1 in
  hasUnsavedChanges s1 = true ∧ hasUnsavedChanges s2 = false ∧
  wj_nodes (fs_graph sent) = Some [] ∧ length (getNodes (ad_editor (st_adapter s2))) = 1.
Proof. vm_compute. done. Qed.

(** ** Pinned data *)

(** What [buildFullSnapshot] writes under the two names of the pinned data. *)
Lemma snapshot_pins s :
  jget "pinData" (fs_metadata (buildFullSnapshot s)) = None ∧
  oprop (fs_metadata (buildFullSnapshot s)) "pin_data" =
    match pinData s with [] => JUndef | pins => JObj (ospread [] pins) end.
Proof.
  unfold buildFullSnapshot, oprop. simpl. generalize (ospread [] (workflowMetadata s)). intros m.
  destruct (pinData s) as [|kv pins].
  - rewrite !jget_jdel. done.
  - rewrite !jget_oset, !jget_jdel. done.
Qed.

(** pinned data survives saving and loading: a store that loads the
    snapshot another one saved has exactly its pins, and nothing under the
    older name of the field. *)
Theorem pins_roundtrip s s0 id hash auto :
  obj_ok (pinData s) →
  (load_graph s0 (fs_graph (buildFullSnapshot s))).2 = Ret tt →
  let s1 := (loadWorkflow_response s0 id (LoadAnswer (buildFullSnapshot s) hash auto)).1 in
  pinData s1 = pinData s ∧ (∀ k, isNodePinned s1 k = isNodePinned s k) ∧
  jget "pinData" (workflowMetadata s1) = None.
Proof.
  intros Hp Hload. destruct (snapshot_pins s) as [H1 H2].
  unfold loadWorkflow_response. cbn [la_snapshot la_versionHash la_autoSave].
  destruct (load_graph s0 (fs_graph (buildFullSnapshot s))) as [s2 [[]|]]; [|done].
  assert (restored_pins (fs_metadata (buildFullSnapshot s)) = pinData s) as E.
  { unfold restored_pins. rewrite H2. unfold oprop. rewrite H1.
    destruct (pinData s) as [|kv l]; [done|].
    rewrite (ospread_nil_l (kv :: l)) by done. by apply (ospread_nil_l (kv :: l)). }
  cbn -[restored_pins buildFullSnapshot]. unfold isNodePinned. cbn -[restored_pins buildFullSnapshot].
  by rewrite E.
Qed.

(** A store with a pin, and the same graph in a second store. *)
Lemma pins_roundtrip_witness :
  let s := (pinNodeData (new_store builtin_registry) "n_1" (JStr "42")).1.1 in
  let s1 := (loadWorkflow_response (new_store builtin_registry) (JInt 1)
               (LoadAnswer (buildFullSnapshot s) JNull JNull)).1 in
  pinData s1 = [("n_1", JInt 42)].
Proof.
  assert (obj_ok [("n_1", JInt 42)]) as Hok by (apply (obj_ok_oset "n_1" _ []), obj_ok_nil).
  exact (proj1 (pins_roundtrip (pinNodeData (new_store builtin_registry) "n_1" (JStr "42")).1.1
    (new_store builtin_registry) (JInt 1) JNull JNull Hok eq_refl)).
Defined.

(** ** Results by node *)

(** the results of a partial run list each executed node once, in the
    order of its last execution: running one more node moves it to the end. *)
Theorem result_order_last outputs order x :
  NoDup (result_order outputs (order ++ [x])) ∧
  (∀ y, y ∈ result_order outputs (order ++ [x]) ↔ y ∈ order ++ [x]) ∧
  result_order outputs (order ++ [x]) =
    bfilter (λ y, negb (y =s x)) (reverse (unique (reverse order))) ++ [x].
Proof.
  assert (∀ l, l ≠ [] → result_order outputs l = reverse (unique (reverse l))) as Hr
    by (by intros [|]).
  rewrite Hr by (by destruct order). unfold unique. split; [|split].
  - eapply NoDup_Permutation_proper; [apply reverse_Permutation|apply NoDup_unique_from].
  - intros y. rewrite elem_of_reverse, elem_of_unique_from, elem_of_reverse. set_solver.
  - rewrite reverse_snoc. simpl. rewrite reverse_cons, unique_from_cons. f_equal.
    symmetry. apply bfilter_reverse.
Qed.

(** ** Events *)

(** events of another run leave the progress alone once the run that is
    followed is known. *)
Theorem other_run_ignored s p payload :
  executionProgress s = Some p → truthy (oprop p "runId") = true →
  truthy (prop payload "run_id") = true →
  strict_eq (oprop p "runId") (prop payload "run_id") = false →
  onExecutionProgress s payload = s.
Proof.
  intros Hp Hr Hpr Hne. unfold onExecutionProgress.
  destruct (negb (truthy payload)); [done|]. rewrite Hp. simpl. rewrite Hr, Hpr, Hne. simpl.
  destruct s; simpl in *. by subst.
Qed.

Lemma other_run_ignored_witness :
  let s := onExecutionProgress (new_store builtin_registry) (JObj [("run_id", JStr "r1")]) in
  onExecutionProgress s (JObj [("run_id", JStr "r2"); ("status", JStr "failed")]) = s.
Proof.
  exact (other_run_ignored
    (onExecutionProgress (new_store builtin_registry) (JObj [("run_id", JStr "r1")]))
    (createFreshProgress (JStr "r1"))
    (JObj [("run_id", JStr "r2"); ("status", JStr "failed")]) eq_refl eq_refl eq_refl eq_refl).
Defined.

(** No two neighbours are equal. *)
Fixpoint no_repeat (l : list jsval) : bool :=
  match l with
  | x :: (y :: _) as l' => negb (strict_eq x y) && no_repeat l'
  | _ => true
  end.

Definition order_of (p : jsobj) : list jsval := as_array (oprop p "executedOrder").

Lemma no_repeat_snoc l x :
  no_repeat l = true → strict_eq (default JUndef (last l)) x = false → no_repeat (l ++ [x]) = true.
Proof.
  induction l as [|y l IH]; [done|]. destruct l as [|z l].
  - simpl. by intros _ ->.
  - intros [H1 H2]%andb_true_iff Hl.
    change (negb (strict_eq y z) && no_repeat ((z :: l) ++ [x]) = true).
    rewrite H1. simpl. by apply IH.
Qed.

Lemma order_set_status k v p : order_of (set_status k v p) = order_of p.
Proof. unfold order_of, set_status, oprop. by rewrite jget_oset, bool_decide_false. Qed.

Lemma order_push_other key v p : key ≠ "executedOrder" → order_of (push_field key v p) = order_of p.
Proof. intros H. unfold order_of, push_field, oprop. by rewrite jget_oset, bool_decide_false. Qed.

Lemma order_complete p n : no_repeat (order_of p) = true → no_repeat (order_of (complete_node p n)) = true.
Proof.
  intros H. unfold complete_node. destruct (prop n "node_id") as [| | | |k| |]; try done.
  destruct (k =s ""); [done|]. rewrite order_set_status.
  destruct (strict_eq (default JUndef (last (as_array (oprop p "executedOrder")))) (JStr k)) eqn:E; [done|].
  unfold order_of, push_field, oprop at 1. rewrite jget_oset, bool_decide_true by done. simpl.
  by apply no_repeat_snoc.
Qed.

Lemma order_route p c : order_of (route_connection p c) = order_of p.
Proof.
  unfold route_connection. destruct c; try done;
    rewrite order_push_other by done; by destruct (truthy _); rewrite ?order_push_other.
Qed.

Lemma order_foldl {A} (f : jsobj → A → jsobj) l p :
  (∀ p x, no_repeat (order_of p) = true → no_repeat (order_of (f p x)) = true) →
  no_repeat (order_of p) = true → no_repeat (order_of (foldl f p l)) = true.
Proof. intros Hf. revert p. induction l; intros p Hp; simpl; auto. Qed.

Lemma order_oset key v p : key ≠ "executedOrder" → order_of (oset key v p) = order_of p.
Proof. intros H. unfold order_of, oprop. by rewrite jget_oset, bool_decide_false. Qed.

(** while a run streams its progress, the list of executed nodes never
    names the same node twice in a row, however the events split the run
    (a final event that brings its own list replaces it). *)
Theorem progress_order_no_repeat s payloads :
  executionProgress s = None →
  Forall (λ e, is_array (prop e "executed_order") = false) payloads →
  match executionProgress (foldl onExecutionProgress s payloads) with
  | Some p => no_repeat (order_of p) = true
  | None => True
  end.
Proof.
  intros Hs. assert (match executionProgress s with Some p => no_repeat (order_of p) = true | None => True end)
    as H0 by (by rewrite Hs). clear Hs. intros Hall. revert s H0.
  induction Hall as [|e es He _ IH]; intros s H0; simpl; [done|]. apply IH. clear IH es.
  unfold onExecutionProgress. destruct (negb (truthy e)); [done|]. simpl.
  assert (no_repeat (order_of (default (createFreshProgress (prop e "run_id")) (executionProgress s))) = true)
    as Hp by (by destruct (executionProgress s)).
  revert Hp. generalize (default (createFreshProgress (prop e "run_id")) (executionProgress s)).
  intros p Hp. destruct (_ && _); simpl; [done|]. unfold apply_progress.
  set (p1 := foldl complete_node p _).
  assert (no_repeat (order_of p1) = true) as H1 by (apply order_foldl; [apply order_complete|done]).
  set (p2 := foldl route_connection p1 _).
  assert (no_repeat (order_of p2) = true) as H2.
  { apply order_foldl; [|done]. intros q c Hq. by rewrite order_route. }
  set (p3 := match prop e "next_running_node_id" with JStr _ => _ | _ => _ end).
  assert (no_repeat (order_of p3) = true) as H3.
  { unfold p3. destruct (prop e "next_running_node_id"); try done.
    destruct (_ =s _); [done|]. by rewrite order_set_status. }
  destruct (truthy (prop e "status")); [|done]. unfold replace_array. rewrite He.
  destruct (is_array (prop e "executed_connection_ids")), (is_array (prop e "executed_connections"));
    by rewrite !order_oset.
Qed.

Lemma progress_order_no_repeat_witness :
  let done i := JObj [("completed_nodes", JArr [JObj [("node_id", JStr i)]])] in
  match executionProgress (foldl onExecutionProgress (new_store builtin_registry)
          [done "n_1"; done "n_1"; done "n_2"]) with
  | Some p => no_repeat (order_of p) = true
  | None => True
  end.
Proof.
  apply progress_order_no_repeat; [reflexivity|]. repeat constructor.
Defined.

(** ** Viewport and selection *)

Lemma clamp_zoom_bounds z : (MIN_ZOOM ≤ clamp_zoom z ∧ clamp_zoom z ≤ MAX_ZOOM)%Qc.
Proof.
  unfold clamp_zoom, num_max, num_min.
  assert (MIN_ZOOM ≤ MAX_ZOOM)%Qc by (by vm_compute).
  repeat case_bool_decide; split; qc_lra.
Qed.

(** Zooming to a level or by a step always lands between 10% and 200%,
    and a level in that range is kept. *)
Lemma zoom_clamped s z :
  let inside v := (MIN_ZOOM ≤ v ∧ v ≤ MAX_ZOOM)%Qc in
  inside (zoom (st_ui (zoomTo s z))) ∧ inside (zoom (st_ui (zoomBy s z))) ∧
  (inside z → zoom (st_ui (zoomTo s z)) = z).
Proof.
  simpl. split; [apply clamp_zoom_bounds|]. split; [apply clamp_zoom_bounds|].
  intros [H1 H2]. unfold clamp_zoom, num_max, num_min.
  repeat case_bool_decide; try done; qc_lra.
Qed.
