(* ===== verification/Dfs.v ===== *)
(** * Depth-first search for back edges

    The three searches of utils/graph_utils.js ([getBackEdgeKeySet],
    [detectCycles], [_detectCyclesInGraph]) are one algorithm over different
    graphs; here it is over any graph with nodes named by strings.  [visit]
    takes fuel, one unit per nested call; [dfs_total] shows that one unit per
    node and one more is enough.  The theorems of this file: the edges that are
    not reported can be sorted topologically, and a reported edge closes a
    cycle. *)

From S2P Require Import Prelude JsMap.
Local Open Scope nat_scope.

Definition mem (x : string) (l : list string) : bool := existsb (λ y, y =s x) l.

Lemma mem_spec x l : mem x l = true ↔ x ∈ l.
Proof.
  unfold mem. rewrite existsb_true_iff. split.
  - intros (y & Hy & E). bsimpl. by subst.
  - intros H. exists x. split; [done|]. by apply bool_decide_eq_true.
Qed.

Lemma mem_false x l : mem x l = false ↔ x ∉ l.
Proof. rewrite <- mem_spec. by destruct (mem x l). Qed.

Section dfs.
Context {E : Type} (succs : string → list E) (tgt : E → string).

Record dfs_state := DfsState {
  visited : list string;
  inStack : list string;
  backEdges : list E;
}.

(** The search from one node: the edges in order, recursively. *)
Fixpoint visit (fuel : nat) (nodeId : string) (st : dfs_state) : option dfs_state :=
  match fuel with
  | O => None
  | S fuel =>
      let loop := fix loop (es : list E) (st : dfs_state) : option dfs_state :=
        match es with
        | [] => Some st
        | e :: es =>
            if (nodeId =s tgt e) || mem (tgt e) (inStack st)
            then loop es (DfsState (visited st) (inStack st) (backEdges st ++ [e]))
            else if mem (tgt e) (visited st) then loop es st
            else match visit fuel (tgt e) st with
                 | Some st => loop es st
                 | None => None
                 end
        end in
      match loop (succs nodeId)
              (DfsState (nodeId :: visited st) (nodeId :: inStack st) (backEdges st)) with
      | Some st => Some (DfsState (visited st) (bfilter (λ x, negb (x =s nodeId)) (inStack st)) (backEdges st))
      | None => None
      end
  end.

(** [for (const nodeId of nodeIds) if (!visited.has(nodeId)) visit(nodeId)] *)
Fixpoint visit_all (fuel : nat) (nodeIds : list string) (st : dfs_state) : option dfs_state :=
  match nodeIds with
  | [] => Some st
  | n :: nodeIds =>
      if mem n (visited st) then visit_all fuel nodeIds st
      else match visit fuel n st with
           | Some st => visit_all fuel nodeIds st
           | None => None
           end
  end.

Definition dfs_start : dfs_state := DfsState [] [] [].

(** The inner loop, named. *)
Fixpoint edge_loop (fuel : nat) (nodeId : string) (es : list E) (st : dfs_state) : option dfs_state :=
  match es with
  | [] => Some st
  | e :: es =>
      if (nodeId =s tgt e) || mem (tgt e) (inStack st)
      then edge_loop fuel nodeId es (DfsState (visited st) (inStack st) (backEdges st ++ [e]))
      else if mem (tgt e) (visited st) then edge_loop fuel nodeId es st
      else match visit fuel (tgt e) st with
           | Some st => edge_loop fuel nodeId es st
           | None => None
           end
  end.

Lemma visit_unfold fuel n st :
  visit (S fuel) n st =
    match edge_loop fuel n (succs n) (DfsState (n :: visited st) (n :: inStack st) (backEdges st)) with
    | Some st => Some (DfsState (visited st) (bfilter (λ x, negb (x =s n)) (inStack st)) (backEdges st))
    | None => None
    end.
Proof.
  cbn [visit]. generalize (DfsState (n :: visited st) (n :: inStack st) (backEdges st)).
  intros st0.
  match goal with |- match ?f (succs n) st0 with _ => _ end = _ =>
    assert (∀ es st, f es st = edge_loop fuel n es st) as Hl end.
  { intros es. induction es as [|e es IH]; intros s; [done|]. cbn [edge_loop].
    destruct (_ || _); [apply IH|]. destruct (mem _ _); [apply IH|].
    destruct (visit fuel (tgt e) s); [apply IH|done]. }
  by rewrite Hl.
Qed.

(** ** The invariant *)

(** [fin] lists the finished nodes, last finished first: every edge of a
    finished node was reported or leads to a node finished before it. *)
Inductive topo (back : list E) : list string → Prop :=
| topo_nil : topo back []
| topo_cons u fin :
    topo back fin → u ∉ fin → (∀ e, e ∈ succs u → e ∈ back ∨ tgt e ∈ fin) → topo back (u :: fin).

Lemma topo_mono back back' fin : back ⊆ back' → topo back fin → topo back' fin.
Proof.
  intros Hs H. induction H as [|u fin _ IH Hn He]; constructor; [done|done|].
  intros e [?|?]%He; [left; by apply Hs|by right].
Qed.

Definition edge (u v : string) : Prop := ∃ e, e ∈ succs u ∧ tgt e = v.

(** The stack is a path, its top first. *)
Inductive stack_path : list string → Prop :=
| sp_nil : stack_path []
| sp_one u : stack_path [u]
| sp_cons u p l : edge p u → stack_path (p :: l) → stack_path (u :: p :: l).

Record inv (st : dfs_state) (fin : list string) : Prop := {
  inv_visited : ∀ x, x ∈ visited st ↔ x ∈ inStack st ∨ x ∈ fin;
  inv_disjoint : ∀ x, x ∈ inStack st → x ∉ fin;
  inv_topo : topo (backEdges st) fin;
  inv_nodup : NoDup (inStack st);
  inv_path : stack_path (inStack st);
  inv_back : ∀ e, e ∈ backEdges st → ∃ u, e ∈ succs u ∧ rtc edge (tgt e) u;
}.

(** How a call changes the state: the stack is as before, everything else grows. *)
Record grows (st st' : dfs_state) (fin fin' : list string) : Prop := {
  gr_stack : inStack st' = inStack st;
  gr_back : backEdges st ⊆ backEdges st';
  gr_fin : fin ⊆ fin';
  gr_visited : visited st ⊆ visited st';
}.

Lemma grows_refl st fin : grows st st fin fin.
Proof. by split. Qed.

Lemma grows_trans st1 st2 st3 f1 f2 f3 :
  grows st1 st2 f1 f2 → grows st2 st3 f2 f3 → grows st1 st3 f1 f3.
Proof. intros [] []. split; [congruence|by etrans..]. Qed.

Lemma stack_reaches u l v : stack_path (u :: l) → v ∈ u :: l → rtc edge v u.
Proof.
  revert u. induction l as [|p l IH]; intros u Hp Hv.
  - apply list_elem_of_singleton in Hv as ->. done.
  - inversion Hp; subst. apply elem_of_cons in Hv as [->|Hv]; [done|].
    eapply rtc_r; [by apply IH|done].
Qed.

(** What a call of [visit] has to satisfy, for the induction on fuel. *)
Definition visit_ok (fuel : nat) : Prop :=
  ∀ n st st' fin, visit fuel n st = Some st' → inv st fin → n ∉ visited st →
    match inStack st with [] => True | p :: _ => edge p n end →
    ∃ fin', inv st' fin' ∧ grows st st' fin fin' ∧ n ∈ fin'.

(** The loop over the edges of the node on top of the stack. *)
Lemma edge_loop_ok fuel n es st st' fin l :
  visit_ok fuel → edge_loop fuel n es st = Some st' → inv st fin → inStack st = n :: l →
  (∀ e, e ∈ es → e ∈ succs n) →
  ∃ fin', inv st' fin' ∧ grows st st' fin fin' ∧
    ∀ e, e ∈ es → e ∈ backEdges st' ∨ tgt e ∈ fin'.
Proof.
  intros Hv. revert st fin. induction es as [|e es IH]; intros st fin Hl Hi Hst Hes; cbn [edge_loop] in Hl.
  { injection Hl as <-. exists fin. split; [done|]. split; [apply grows_refl|]. set_solver. }
  assert (∀ e', e' ∈ es → e' ∈ succs n) as Hes' by (intros; apply Hes; by right).
  assert (e ∈ succs n) as He by (apply Hes; left).
  destruct ((n =s tgt e) || mem (tgt e) (inStack st)) eqn:E1.
  - assert (tgt e ∈ inStack st) as Hin.
    { apply orb_true_iff in E1 as [E1|E1]; [|by apply mem_spec]. bsimpl. rewrite Hst, <- E1. left. }
    destruct (IH _ fin Hl) as (fin' & Hi' & Hg & Hall); [|done|done|].
    { destruct Hi as [H1 H2 H3 H4 H5 H6]. split; simpl; try done.
      - eapply topo_mono; [|done]. set_solver.
      - intros e' [?|Hs%list_elem_of_singleton]%elem_of_app; [by apply H6|]. subst e'.
        exists n. split; [done|]. rewrite Hst in H5, Hin. by eapply stack_reaches. }
    exists fin'. destruct Hg as [G1 G2 G3 G4]. simpl in *. split; [done|]. split.
    + split; [done| |done|done]. set_solver.
    + intros e' [->|He']%elem_of_cons; [left; apply G2; set_solver|by apply Hall].
  - apply orb_false_iff in E1 as [_ E1]. apply mem_false in E1.
    destruct (mem (tgt e) (visited st)) eqn:E2.
    + apply mem_spec in E2. destruct (IH _ fin Hl Hi Hst Hes') as (fin' & Hi' & Hg & Hall).
      exists fin'. split; [done|]. split; [done|].
      intros e' [->|He']%elem_of_cons; [|by apply Hall]. right. apply Hg.
      by apply (inv_visited _ _ Hi) in E2 as [?|?].
    + apply mem_false in E2. destruct (visit fuel (tgt e) st) as [st1|] eqn:E3; [|done].
      destruct (Hv _ _ _ fin E3 Hi E2) as (fin1 & Hi1 & Hg1 & Hf1).
      { rewrite Hst. by exists e. }
      destruct (IH st1 fin1 Hl Hi1) as (fin' & Hi' & Hg & Hall); [|done|].
      { by rewrite (gr_stack _ _ _ _ Hg1). }
      exists fin'. split; [done|]. split; [by eapply grows_trans|].
      intros e' [->|He']%elem_of_cons; [right; by apply Hg|by apply Hall].
Qed.

Lemma visit_ok_all fuel : visit_ok fuel.
Proof.
  induction fuel as [|fuel IH]; intros n st st' fin Hv Hi Hn Htop; [done|].
  rewrite visit_unfold in Hv.
  destruct (edge_loop fuel n (succs n) _) as [st1|] eqn:El; [|done]. injection Hv as <-.
  set (st0 := DfsState (n :: visited st) (n :: inStack st) (backEdges st)) in *.
  assert (n ∉ inStack st ∧ n ∉ fin) as [Hns Hnf].
  { split; intros ?; apply Hn, (inv_visited _ _ Hi); auto. }
  assert (inv st0 fin) as Hi0.
  { destruct Hi as [H1 H2 H3 H4 H5 H6]. split; simpl; try done.
    - intros x. rewrite !elem_of_cons, H1. tauto.
    - intros x [->|?]%elem_of_cons; [done|by apply H2].
    - by constructor.
    - destruct (inStack st); by constructor. }
  destruct (edge_loop_ok fuel n (succs n) st0 st1 fin (inStack st)) as (fin1 & Hi1 & Hg & Hall); [done..|].
  destruct Hg as [G1 G2 G3 G4]. destruct Hi1 as [H1 H2 H3 H4 H5 H6]. simpl in G1.
  assert (bfilter (λ x, negb (x =s n)) (inStack st1) = inStack st) as Hpop.
  { rewrite G1. csimpl. rewrite bool_decide_true by done. csimpl. apply bfilter_all.
    intros x Hx. rewrite bool_decide_false; [done|]. by intros ->. }
  assert (n ∉ fin1) as Hnf1 by (apply H2; rewrite G1; left).
  exists (n :: fin1). split; [|split; [|left]].
  - split; simpl; rewrite ?Hpop.
    + intros x. rewrite H1, G1, !elem_of_cons. tauto.
    + intros x Hx [->|Hf]%elem_of_cons; [done|]. apply (H2 x); [rewrite G1; by right|done].
    + by constructor.
    + rewrite G1 in H4. by apply NoDup_cons in H4 as [_ ?].
    + rewrite G1 in H5. inversion H5; subst; [constructor|done].
    + done.
  - split; simpl; [done|done|set_solver|set_solver].
Qed.

Lemma inv_start : inv dfs_start [].
Proof.
  split; simpl; try done; try constructor; try (intros; set_solver).
Qed.

Lemma visit_all_app fuel ns ns' st :
  visit_all fuel (ns ++ ns') st =
    match visit_all fuel ns st with
    | Some st => visit_all fuel ns' st
    | None => None
    end.
Proof using Type.
  revert st. induction ns as [|n ns IH]; intros st; simpl; [done|].
  destruct (mem n (visited st)); [apply IH|]. by destruct (visit _ _ st).
Qed.

Lemma visit_all_ok fuel ns st st' fin :
  visit_all fuel ns st = Some st' → inv st fin → inStack st = [] →
  ∃ fin', inv st' fin' ∧ inStack st' = [] ∧ visited st ⊆ visited st' ∧ (∀ n, n ∈ ns → n ∈ visited st').
Proof.
  revert st fin. induction ns as [|n ns IH]; intros st fin Hv Hi Hs; simpl in Hv.
  { injection Hv as <-. exists fin. split_and!; [done..|set_solver]. }
  destruct (mem n (visited st)) eqn:Em.
  - apply mem_spec in Em. destruct (IH _ _ Hv Hi Hs) as (fin' & ? & ? & Hsub & Hall).
    exists fin'. split_and!; try done. intros x [->|Hx]%elem_of_cons; [by apply Hsub|by apply Hall].
  - apply mem_false in Em. destruct (visit fuel n st) as [st1|] eqn:Ev; [|done].
    destruct (visit_ok_all fuel n st st1 fin Ev Hi Em) as (fin1 & Hi1 & Hg & Hn); [by rewrite Hs|].
    destruct (IH _ _ Hv Hi1) as (fin' & ? & ? & Hsub & Hall); [by rewrite (gr_stack _ _ _ _ Hg)|].
    exists fin'. split_and!; try done; [etrans; [apply Hg|done]|].
    intros x [->|Hx]%elem_of_cons; [|by apply Hall].
    apply Hsub, (inv_visited _ _ Hi1). by right.
Qed.

(** Topologically sorted edges have no cycle. *)
Lemma topo_acyclic back fin (keep : E → Prop) :
  topo back fin → (∀ e, keep e → e ∉ back) → (∀ u e, e ∈ succs u → u ∈ fin) →
  ∀ u, ¬ tc (λ u v, ∃ e, e ∈ succs u ∧ keep e ∧ tgt e = v) u u.
Proof using Type.
  intros Ht Hk Hfin.
  assert (∀ u v, tc (λ u v, ∃ e, e ∈ succs u ∧ keep e ∧ tgt e = v) u v →
            ∀ l1 l2, fin = l1 ++ u :: l2 → v ∈ l2) as Hpos.
  { intros u v H. induction H as [u v (e & He & Hke & <-)|u w v (e & He & Hke & <-) Hwv IH];
      intros l1 l2 Efin.
    - assert (topo back (u :: l2)) as Htu.
      { clear -Ht Efin. revert fin Ht Efin. induction l1 as [|x l1 IH]; intros fin Ht ->; [done|].
        inversion Ht; subst. by eapply IH. }
      inversion Htu; subst. destruct (H3 e He) as [Hb|?]; [by apply Hk in Hke|done].
    - assert (topo back (u :: l2)) as Htu.
      { clear -Ht Efin. revert fin Ht Efin. induction l1 as [|x l1 IHl]; intros fin Ht ->; [done|].
        inversion Ht; subst. by eapply IHl. }
      inversion Htu; subst. destruct (H3 e He) as [Hb|Hin]; [by apply Hk in Hke|].
      apply list_elem_of_split in Hin as (m1 & m2 & ->).
      assert (v ∈ m2) by (apply (IH (l1 ++ u :: m1) m2); by rewrite <- app_assoc). set_solver. }
  intros u Hu. assert (u ∈ fin) as Hin.
  { inversion Hu as [? ? (e & He & _)|? ? ? (e & He & _)]; subst; by eapply Hfin. }
  apply list_elem_of_split in Hin as (l1 & l2 & ->). pose proof (Hpos u u Hu l1 l2 eq_refl) as Hin2.
  clear -Ht Hin2. induction l1 as [|x l1 IH]; inversion Ht; subst; [done|by apply IH].
Qed.
(** ** Enough fuel *)

(** Visited nodes only accumulate, without any invariant. *)
Lemma visit_visited fuel : ∀ n st st', visit fuel n st = Some st' → visited st ⊆ visited st'.
Proof using Type.
  induction fuel as [|fuel IH]; intros n st st'; [done|]. rewrite visit_unfold.
  set (st0 := DfsState _ _ _). intros H.
  assert (∀ es s s', edge_loop fuel n es s = Some s' → visited s ⊆ visited s') as Hl.
  { intros es. induction es as [|e es IHe]; intros s s'; cbn [edge_loop]; [by intros [= <-]|].
    destruct (_ || _); [intros Hs; by apply IHe in Hs|].
    destruct (mem _ _); [apply IHe|]. destruct (visit fuel (tgt e) s) as [s1|] eqn:Ev; [|done].
    intros Hs%IHe. etrans; [by eapply IH|done]. }
  destruct (edge_loop fuel n (succs n) st0) as [st1|] eqn:El; [|done]. injection H as <-. simpl.
  apply Hl in El. unfold st0 in El. simpl in El. set_solver.
Qed.

(** [universe] holds every node the search can meet. *)
Context (universe : list string) (Hclosed : ∀ u e, e ∈ succs u → tgt e ∈ universe).

Definition unvisited (st : dfs_state) : list string := bfilter (λ x, negb (mem x (visited st))) universe.

Lemma unvisited_mono st st' : visited st ⊆ visited st' → length (unvisited st') ≤ length (unvisited st).
Proof using Type.
  intros H. unfold unvisited. clear Hclosed. induction universe as [|x u IH]; simpl; [done|].
  destruct (mem x (visited st)) eqn:E1; simpl.
  - apply mem_spec, H, mem_spec in E1. by rewrite E1.
  - destruct (mem x (visited st')); simpl; lia.
Qed.

Lemma unvisited_lt st n :
  n ∈ universe → n ∉ visited st →
  length (unvisited (DfsState (n :: visited st) (n :: inStack st) (backEdges st))) < length (unvisited st).
Proof using Type.
  unfold unvisited. cbn [visited]. clear Hclosed. intros Hu Hn. induction universe as [|x u IH]; [set_solver|].
  assert (∀ y, mem y (n :: visited st) = (n =s y) || mem y (visited st)) as Hm by done.
  assert (length (bfilter (λ x, negb (mem x (n :: visited st))) u) ≤
          length (bfilter (λ x, negb (mem x (visited st))) u)) as Hle.
  { clear -Hm. induction u as [|y u IH]; [done|]. cbn [bfilter]. rewrite (Hm y).
    destruct (n =s y), (mem y (visited st)); cbn [orb negb length]; lia. }
  cbn [bfilter]. rewrite (Hm x). apply elem_of_cons in Hu as [->|Hu].
  - rewrite bool_decide_true by done. apply mem_false in Hn. rewrite Hn. cbn [orb negb length]. lia.
  - specialize (IH Hu). destruct (n =s x), (mem x (visited st)); cbn [orb negb length]; lia.
Qed.

Lemma visit_fuel fuel n st :
  n ∈ universe → n ∉ visited st → length (unvisited st) ≤ fuel → is_Some (visit fuel n st).
Proof using Hclosed.
  revert n st. induction fuel as [|fuel IH]; intros n st Hu Hn Hf.
  { pose proof (unvisited_lt st n Hu Hn). lia. }
  rewrite visit_unfold. set (st0 := DfsState _ _ _).
  assert (length (unvisited st0) ≤ fuel) as Hf0
    by (pose proof (unvisited_lt st n Hu Hn); unfold st0; lia).
  assert (∀ es s, (∀ e, e ∈ es → tgt e ∈ universe) → length (unvisited s) ≤ fuel →
            is_Some (edge_loop fuel n es s)) as Hl.
  { intros es. induction es as [|e es IHe]; intros s He Hs; cbn [edge_loop]; [by eexists|].
    assert (∀ e', e' ∈ es → tgt e' ∈ universe) by (intros; apply He; by right).
    destruct (_ || _); [by apply IHe|].
    destruct (mem (tgt e) (visited s)) eqn:Em; [by apply IHe|]. apply mem_false in Em.
    destruct (IH (tgt e) s) as [s1 Hs1]; [apply He; left|done|done|]. rewrite Hs1.
    apply IHe; [done|]. etrans; [apply unvisited_mono; by eapply visit_visited|done]. }
  destruct (Hl (succs n) st0) as [st1 ->]; [intros e; apply Hclosed|done|by eexists].
Qed.

Lemma visit_all_fuel fuel ns st :
  (∀ n, n ∈ ns → n ∈ universe) → length universe ≤ fuel → is_Some (visit_all fuel ns st).
Proof using Hclosed.
  intros Hns Hf. revert st. induction ns as [|n ns IH]; intros st; simpl; [by eexists|].
  assert (∀ n', n' ∈ ns → n' ∈ universe) by (intros; apply Hns; by right).
  destruct (mem n (visited st)) eqn:Em; [by apply IH|]. apply mem_false in Em.
  destruct (visit_fuel fuel n st) as [st1 ->]; [apply Hns; left|done| |by apply IH].
  etrans; [|exact Hf]. unfold unvisited. apply sublist_length, bfilter_sublist.
Qed.

(** ** A whole search *)

Lemma dfs_total ns : (∀ n, n ∈ ns → n ∈ universe) → is_Some (visit_all (length universe) ns dfs_start).
Proof using Hclosed. intros. by apply visit_all_fuel. Qed.

Lemma dfs_spec fuel ns st :
  visit_all fuel ns dfs_start = Some st → (∀ n, n ∈ universe → n ∈ ns) →
  (∃ fin, topo (backEdges st) fin ∧ ∀ n, n ∈ universe → n ∈ fin) ∧
  (∀ e, e ∈ backEdges st → ∃ u, e ∈ succs u ∧ rtc edge (tgt e) u).
Proof using Type.
  intros Hv Hu. destruct (visit_all_ok _ _ _ _ _ Hv inv_start eq_refl) as (fin & Hi & Hs & _ & Hall).
  split; [|by apply Hi]. exists fin. split; [by apply Hi|].
  intros n Hn%Hu%Hall. apply (inv_visited _ _ Hi) in Hn as [Hn|?]; [|done]. rewrite Hs in Hn.
  by apply not_elem_of_nil in Hn.
Qed.

End dfs.
