(* ===== verification/Services.v ===== *)
(** * Services and helpers

    The order in which overridden services start and the function that remembers
    one result (utils/editor_util.js), the hook that follows a registry
    (utils/registry_hook.js), the registry of libraries (utils/lib_registry.js), and
    the service that hands the notifications of the backend to the store
    (services/workflow_bus_service.js).  The registries of Odoo are arguments. *)

From S2P Require Import Prelude JsMap JsValue Node Editor Adapter Store StoreExec Dfs.
Local Open Scope nat_scope.

(** ** Topological order (utils/editor_util.js) *)

Section topological.
Context (elems : list string) (getDependencies : string → list string).

(** [visited] and [result]. *)
Record sorting := Sorting { so_visited : list string; so_result : list string }.

(** [for (const dep of deps) visit(dep)] *)
Fixpoint visit_each (visit : string → sorting → option sorting) (ns : list string) (st : sorting) : option sorting :=
  match ns with
  | [] => Some st
  | n :: ns => match visit n st with Some st => visit_each visit ns st | None => None end
  end.

(** [visit(n)], with fuel for nested calls. *)
Fixpoint visit_service (fuel : nat) (n : string) (st : sorting) : option sorting :=
  match fuel with
  | O => None
  | S fuel =>
      if mem n (so_visited st) then Some st
      else
        let st := Sorting (n :: so_visited st) (so_result st) in
        if negb (mem n elems) then Some st
        else match visit_each (visit_service fuel) (getDependencies n) st with
             | Some st => Some (Sorting (so_visited st) (so_result st ++ [n]))
             | None => None
             end
  end.

(** [topologicalSort(elems, getDependencies)]: a nested call more than there are
    elements is enough. *)
Definition topologicalSort : option (list string) :=
  so_result <$> visit_each (visit_service (S (length elems))) elems (Sorting [] []).
End topological.

(** [useServicesOverrides(overrides)]: each override with its dependencies; [start]
    is what a service becomes when it is started among the services so far. *)
Section overrides.
Context {V : Type} (overrides : list (string * list string)) (start : string → list (string * V) → V).

Definition overridden_dependencies (name : string) : list string := default [] (jget name overrides).

Definition start_services (order : list string) (services : list (string * V)) : list (string * V) :=
  foldl (λ services servName, oset servName (start servName services) services) services order.

Definition useServicesOverrides : option (list (string * V)) :=
  (λ order, start_services order []) <$> topologicalSort (jkeys overrides) overridden_dependencies.
End overrides.

(** ** [memoizeOnce] *)

Section memoize.
Context {K A V : Type} `{EqDecision K} (callback : option K → A → V).

(** The remembered key and value; [None] is [undefined]. *)
Record memory_cell := MemoryCell { me_key : option K; me_value : option V }.
Definition no_memory : memory_cell := MemoryCell None None.

Definition memoized (m : memory_cell) (k : option K) (args : A) : memory_cell * option V :=
  if decide (me_key m = k) then (m, me_value m)
  else let v := callback k args in (MemoryCell k (Some v), Some v).

(** The results of a sequence of calls. *)
Fixpoint memoized_calls (m : memory_cell) (calls : list (option K * A)) : list (option V) :=
  match calls with
  | [] => []
  | (k, args) :: calls => let '(m, v) := memoized m k args in v :: memoized_calls m calls
  end.
End memoize.

(** ** Following a registry (utils/registry_hook.js) *)

Section registry.
Context {V : Type}.

Inductive registry_operation := AddEntry | DeleteEntry.

Fixpoint key_index (k : string) (l : list (string * V)) : option nat :=
  match l with
  | [] => None
  | kv :: l => if kv.1 =s k then Some 0 else S <$> key_index k l
  end.

(** The listener: the entries it keeps, after an event, with what the registry holds
    by then; nothing if the registry lacks what it says it added. *)
Definition registry_listener (entries : list (string * V)) (op : registry_operation) (key : string) (newEntries : list (string * V))
    : option (list (string * V)) :=
  match op, key_index key entries with
  | AddEntry, None =>
      match key_index key newEntries with
      | Some newIndex =>
          match newEntries !! newIndex with
          | Some newEntry =>
              Some (if newIndex =? length newEntries - 1 then entries ++ [newEntry]
                    else take newIndex entries ++ newEntry :: drop newIndex entries)
          | None => None
          end
      | None => None
      end
  | DeleteEntry, Some index => Some (take index entries ++ drop (S index) entries)
  | _, _ => Some entries
  end.
End registry.

(** ** Libraries (utils/lib_registry.js) *)

(** A definition: the name of its global and what [get()] gives. *)
Record lib_definition := LibDefinition { ld_globalName : string; ld_get : jsval }.

(** [getLib(libName)]: the instance, and whether it warns. *)
Definition getLib (libs : list (string * lib_definition)) (libName : string) : jsval * bool :=
  match jget libName libs with
  | None => (JNull, true)
  | Some lib => (ld_get lib, negb (truthy (ld_get lib)))
  end.
Definition hasLib (libs : list (string * lib_definition)) (libName : string) : bool :=
  if jhas libName libs then truthy (getLib libs libName).1 else false.
Definition getLibDefinition (libs : list (string * lib_definition)) (libName : string) : option lib_definition := jget libName libs.
Definition getRegisteredLibs (libs : list (string * lib_definition)) : list string := jkeys libs.

(** ** Notifications (services/workflow_bus_service.js) *)

(** What a notification of the progress of a run does to the editor, if there is one. *)
Definition bus_progress (editor : option store) (payload : jsval) : option store :=
  (λ s, onExecutionProgress s payload) <$> editor.

(** ** Properties *)

Section topological_facts.
Context (elems : list string) (deps : string → list string).

Abbreviation dep := (λ a b, b ∈ deps a).

(** Visited, but not put out yet. *)
Definition open_node (st : sorting) (x : string) : Prop := x ∈ so_visited st ∧ x ∈ elems ∧ x ∉ so_result st.

(** A dependency comes before what depends on it, unless it depends on it in turn. *)
Definition in_order (r : list string) : Prop :=
  ∀ l1 u l2, r = l1 ++ u :: l2 → ∀ d, d ∈ deps u → d ∈ elems → d ∈ l1 ∨ rtc dep d u.

Record sorting_ok (st : sorting) : Prop := {
  so_within : ∀ x, x ∈ so_result st → x ∈ so_visited st ∧ x ∈ elems;
  so_nodup : NoDup (so_result st);
  so_order : in_order (so_result st);
}.

(** What a visit does. *)
Definition visited_well (n : string) (st st' : sorting) : Prop :=
  so_visited st ⊆ so_visited st' ∧ n ∈ so_visited st' ∧
  (sorting_ok st → (∀ x, open_node st x → rtc dep x n) →
   sorting_ok st' ∧ ∀ x, open_node st' x ↔ open_node st x).

(** The measure of [Dfs]. *)
Definition unmet (st : sorting) : list string := unvisited (E := unit) elems (DfsState (so_visited st) [] []).

Lemma unmet_mono st st' : so_visited st ⊆ so_visited st' → length (unmet st') ≤ length (unmet st).
Proof using Type. intros H. by apply unvisited_mono. Qed.

Lemma unmet_lt st n r :
  n ∈ elems → n ∉ so_visited st → length (unmet (Sorting (n :: so_visited st) r)) < length (unmet st).
Proof using Type. intros Hn Hv. exact (unvisited_lt (E := unit) elems (DfsState (so_visited st) [] []) n Hn Hv). Qed.

(** A loop of visits, given what each of them does. *)
Lemma visit_each_well fuel ns :
  (∀ n st, length (unmet st) < fuel → ∃ st', visit_service elems deps fuel n st = Some st' ∧ visited_well n st st') →
  ∀ st, length (unmet st) < fuel →
  ∃ st', visit_each (visit_service elems deps fuel) ns st = Some st' ∧ so_visited st ⊆ so_visited st'
    ∧ (∀ n, n ∈ ns → n ∈ so_visited st')
    ∧ (sorting_ok st → (∀ x n, open_node st x → n ∈ ns → rtc dep x n) →
       sorting_ok st' ∧ ∀ x, open_node st' x ↔ open_node st x).
Proof using Type.
  intros Hv. induction ns as [|n ns IH]; intros st Hf; cbn [visit_each].
  { exists st. split_and!; [done..| |]; [by intros ? ?%not_elem_of_nil|done]. }
  destruct (Hv n st Hf) as (st1 & -> & Hsub & Hn & Hok).
  destruct (IH st1) as (st2 & -> & Hsub2 & Hns & Hok2); [by eapply Nat.le_lt_trans; [apply unmet_mono|]|].
  exists st2. split_and!; [done|by etrans|by intros x [->|?]%elem_of_cons; [apply Hsub2|apply Hns]|].
  intros Hst Ho. destruct Hok as [Hst1 Ho1]; [done|intros; apply Ho; [done|left]|].
  destruct Hok2 as [Hst2 Ho2]; [done| |by split; [|intros x; rewrite Ho2]].
  intros x m Hx%Ho1 Hm. apply Ho; [done|by right].
Qed.

(** Putting out a node whose dependencies are out or open. *)
Lemma put_out st n :
  sorting_ok st → open_node st n → (∀ d, d ∈ deps n → d ∈ elems → d ∈ so_result st ∨ rtc dep d n) →
  sorting_ok (Sorting (so_visited st) (so_result st ++ [n])).
Proof using Type.
  intros [H1 H2 H3] (Hv & He & Hr) Hd. split; cbn [so_visited so_result].
  - intros x [?|Hx]%elem_of_app; [by apply H1|]. by apply list_elem_of_singleton in Hx as ->.
  - apply NoDup_app. split_and!; [done| |apply NoDup_singleton]. by intros x Hx ->%list_elem_of_singleton.
  - intros l1 u l2 E d Hdu Hde. destruct l2 as [|y l2 _] using rev_ind.
    + apply app_inj_tail in E as [E ->]. rewrite <- E. by apply Hd.
    + rewrite app_comm_cons, app_assoc in E. apply app_inj_tail in E as [E _]. by eapply H3.
Qed.

Lemma visit_service_well fuel :
  ∀ n st, length (unmet st) < fuel → ∃ st', visit_service elems deps fuel n st = Some st' ∧ visited_well n st st'.
Proof using Type.
  induction fuel as [|fuel IH]; intros n st Hf; [lia|]. cbn [visit_service].
  destruct (mem n (so_visited st)) eqn:Em.
  { exists st. apply mem_spec in Em. by split_and!. }
  apply mem_false in Em. set (st0 := Sorting (n :: so_visited st) (so_result st)).
  assert (so_visited st ⊆ so_visited st0 ∧ n ∈ so_visited st0) as [Hsub0 Hn0] by (split; cbn; set_solver).
  destruct (mem n elems) eqn:Ee; cbn [negb].
  - apply mem_spec in Ee. destruct (visit_each_well fuel (deps n) IH st0) as (st1 & -> & Hsub & Hall & Hok).
    { pose proof (unmet_lt st n (so_result st) Ee Em). unfold st0. lia. }
    eexists. split; [done|]. split_and!; [cbn; by etrans|cbn; by apply Hsub|]. intros Hst Ho.
    assert (∀ x, open_node st0 x ↔ open_node st x ∨ x = n) as Hopen0.
    { intros x. unfold open_node. cbn. rewrite elem_of_cons. split; [tauto|]. intros [?| ->]; [tauto|].
      split_and!; [by left|done|]. by intros []%(so_within _ Hst). }
    destruct Hok as [Hst1 Hopen1].
    { destruct Hst as [H1 H2 H3]. split; [|done..]. intros x Hx. destruct (H1 x Hx). split; [by right|done]. }
    { intros x d [Hx| ->]%Hopen0 Hd; [|by apply rtc_once]. eapply rtc_r; [by apply Ho|done]. }
    assert (open_node st1 n) as Hn by (apply Hopen1, Hopen0; by right).
    split.
    + apply put_out; [done..|]. intros d Hd Hde. destruct (decide (d ∈ so_result st1)) as [|Hdr]; [by left|right].
      assert (open_node st1 d) as [Hx| ->]%Hopen1%Hopen0; [|by apply Ho|done]. split_and!; [by apply Hall|done..].
    + intros x. destruct Hn as (? & ? & Hnr). unfold open_node at 1. cbn. rewrite elem_of_app, list_elem_of_singleton.
      assert (x ∈ so_visited st1 ∧ x ∈ elems ∧ x ∉ so_result st1 ↔ open_node st x ∨ x = n) as Hx.
      { rewrite <- Hopen0. apply Hopen1. }
      split; [intros (? & ? & ?); destruct (proj1 Hx) as [?| ->]; naive_solver|]. intros Hox.
      destruct (proj2 Hx (or_introl Hox)) as (? & ? & ?). split_and!; [done..|]. intros [?| ->]; [done|]. by apply Em, Hox.
  - apply mem_false in Ee. exists st0. split; [done|]. split_and!; [done..|]. intros Hst Ho. split.
    + destruct Hst as [H1 H2 H3]. split; [|done..]. intros x Hx. destruct (H1 x Hx). split; [by right|done].
    + intros x. unfold open_node. cbn. rewrite elem_of_cons. naive_solver.
Qed.

(** The sort ends for any dependencies, puts out every element once and nothing else,
    and puts it after its dependencies, save those that depend on it in turn. *)
Theorem topological_sorted :
  ∃ r, topologicalSort elems deps = Some r ∧ NoDup r ∧ (∀ x, x ∈ r ↔ x ∈ elems) ∧ in_order r.
Proof using Type.
  unfold topologicalSort.
  destruct (visit_each_well (S (length elems)) elems (visit_service_well _) (Sorting [] [])) as (st & -> & _ & Hall & Hok).
  { apply Nat.lt_succ_r. apply sublist_length, bfilter_sublist. }
  destruct Hok as [[H1 H2 H3] Ho].
  { split; [by intros ? ?%not_elem_of_nil|constructor|by intros [] ?]. }
  { by intros x n [Hx%not_elem_of_nil _]. }
  exists (so_result st). split_and!; [done..| |done]. intros x. split; [by intros []%H1|]. intros Hx.
  destruct (decide (x ∈ so_result st)) as [|Hr]; [done|]. exfalso.
  assert (open_node st x) as [Hv%not_elem_of_nil _]%Ho; [|done]. split_and!; [by apply Hall|done..].
Qed.
End topological_facts.

(** *** Overridden services *)

Section override_facts.
Context {V : Type} (overrides : list (string * list string)) (start : string → list (string * V) → V).

Lemma start_services_snoc order u services :
  start_services start (order ++ [u]) services
  = oset u (start u (start_services start order services)) (start_services start order services).
Proof using Type. unfold start_services. by rewrite foldl_snoc. Qed.

Lemma started_keys order x : x ∈ jkeys (start_services start order []) ↔ x ∈ order.
Proof using Type.
  induction order as [|u order IH] using rev_ind; [done|].
  rewrite start_services_snoc, jkeys_oset_elem, elem_of_app, list_elem_of_singleton, IH. tauto.
Qed.

Lemma started_value l1 u l2 :
  u ∉ l2 → jget u (start_services start (l1 ++ u :: l2) []) = Some (start u (start_services start l1 [])).
Proof using Type.
  induction l2 as [|x l2 IH] using rev_ind; intros Hu.
  - by rewrite start_services_snoc, jget_oset_eq.
  - rewrite app_comm_cons, app_assoc, start_services_snoc, jget_oset_ne by set_solver. apply IH. set_solver.
Qed.

(** Every overridden service is started once, among services that already hold the
    new instances of the overridden ones it depends on - all of them when no two
    services depend on each other. *)
Theorem overrides_started_in_order :
  ∃ services, useServicesOverrides overrides start = Some services ∧
    (∀ u, is_Some (jget u services) ↔ u ∈ jkeys overrides) ∧
    ∀ u, u ∈ jkeys overrides → ∃ before,
      jget u services = Some (start u before) ∧
      ∀ d, d ∈ overridden_dependencies overrides u → d ∈ jkeys overrides →
        ¬ rtc (λ a b, b ∈ overridden_dependencies overrides a) d u →
        ∃ earlier, jget d before = Some (start d earlier).
Proof using Type.
  destruct (topological_sorted (jkeys overrides) (overridden_dependencies overrides)) as (r & Hr & Hnd & Hin & Hord).
  unfold useServicesOverrides. rewrite Hr. eexists. split; [done|]. split.
  - intros u. by rewrite <- elem_of_jkeys, started_keys, Hin.
  - intros u Hu%Hin. apply list_elem_of_split in Hu as (l1 & l2 & ->). exists (start_services start l1 []).
    assert (u ∉ l2) by (apply NoDup_app in Hnd as (_ & _ & Hnd); by apply NoDup_cons in Hnd as [? _]).
    split; [by apply started_value|]. intros d Hd Hde Hcyc.
    destruct (Hord l1 u l2 eq_refl d Hd Hde) as [Hl|]; [|done].
    apply list_elem_of_split in Hl as (k1 & k2 & ->). eexists. apply started_value.
    apply NoDup_app in Hnd as (Hnd & _ & _). apply NoDup_app in Hnd as (_ & _ & Hnd). by apply NoDup_cons in Hnd as [? _].
Qed.
End override_facts.

(** *** Remembering one result *)

(** A function of its first argument gives the same with the memory, unless it is
    first called without one: then it is not called at all. *)
Theorem memoized_exact {K A V} `{EqDecision K} (f : option K → V) (calls : list (option K * A)) :
  match calls with
  | (None, _) :: _ => head (memoized_calls (λ k (_ : A), f k) no_memory calls) = Some None
  | _ => memoized_calls (λ k (_ : A), f k) no_memory calls = (λ c, Some (f c.1)) <$> calls
  end.
Proof.
  assert (∀ calls m, me_value m = Some (f (me_key m)) →
            memoized_calls (λ k (_ : A), f k) m calls = (λ c, Some (f c.1)) <$> calls) as H.
  { clear calls. intros calls. induction calls as [|[k a] calls IH]; intros m Hm; [done|]. cbn [memoized_calls memoized].
    unfold memoized. case_decide as Hk; cbn.
    - rewrite IH by done. rewrite Hm. by subst.
    - by rewrite IH. }
  destruct calls as [|[[k|] a] calls]; [done| |done]. cbn [memoized_calls]. unfold memoized at 1. cbn [me_key no_memory].
  rewrite decide_False by done. cbn. by rewrite H.
Qed.

(** *** Following a registry *)

Section registry_facts.
Context {V : Type}.
Implicit Types (r : list (string * V)).

Lemma key_index_app_new k l1 (v : V) l2 : k ∉ jkeys l1 → key_index k (l1 ++ (k, v) :: l2) = Some (length l1).
Proof.
  induction l1 as [|[k' w] l1 IH]; intros H; cbn; [by rewrite bool_decide_true|].
  rewrite bool_decide_false by set_solver. rewrite IH by set_solver. done.
Qed.

Lemma key_index_None k r : k ∉ jkeys r → key_index k r = None.
Proof.
  induction r as [|[k' w] r IH]; intros H; cbn; [done|].
  rewrite bool_decide_false by set_solver. by rewrite IH by set_solver.
Qed.

(** What the registry of Odoo may do: a new entry at any place (by its sequence), or
    the removal of one. *)
Inductive registry_change : list (string * V) → registry_operation → string → list (string * V) → Prop :=
| entry_added l1 k v l2 : k ∉ jkeys (l1 ++ l2) → registry_change (l1 ++ l2) AddEntry k (l1 ++ (k, v) :: l2)
| entry_deleted l1 k v l2 : k ∉ jkeys l1 → registry_change (l1 ++ (k, v) :: l2) DeleteEntry k (l1 ++ l2).

(** The hook shows what the registry holds, through any such changes. *)
Theorem registry_followed r op k r' :
  registry_change r op k r' → registry_listener r op k r' = Some r'.
Proof.
  intros H. destruct H as [l1 k v l2 Hk|l1 k v l2 Hk]; unfold registry_listener.
  - rewrite key_index_None by done. rewrite key_index_app_new by (unfold jkeys in *; rewrite fmap_app in Hk; set_solver).
    rewrite lookup_app_r, Nat.sub_diag by lia. cbn [lookup list_lookup]. rewrite length_app. cbn [length].
    destruct (Nat.eqb_spec (length l1) (length l1 + S (length l2) - 1)) as [E|_].
    + destruct l2; [by rewrite app_nil_r|]. cbn in E. lia.
    + by rewrite take_app_length, drop_app_length.
  - rewrite key_index_app_new by done. f_equal.
    rewrite take_app_length. replace (S (length l1)) with (length (l1 ++ [(k, v)])) by (rewrite length_app; cbn; lia).
    replace (l1 ++ (k, v) :: l2) with ((l1 ++ [(k, v)]) ++ l2) by (by rewrite <- app_assoc). by rewrite drop_app_length.
Qed.

(** An entry that is replaced under its key (an addition that is forced) is not
    taken over. *)
Theorem replaced_entry_kept k (v w : V) : registry_listener [(k, v)] AddEntry k [(k, w)] = Some [(k, v)].
Proof. unfold registry_listener. cbn. by rewrite bool_decide_true. Qed.
End registry_facts.

(** *** Libraries *)

(** A library is there exactly when it is registered and loaded, and then [getLib]
    gives it without a warning. *)
Theorem hasLib_exact libs name :
  hasLib libs name = true ↔ ∃ lib, jget name libs = Some lib ∧ truthy (ld_get lib) = true ∧ getLib libs name = (ld_get lib, false).
Proof.
  unfold hasLib, getLib, jhas. destruct (jget name libs) as [lib|]; cbn; [|naive_solver].
  split; [intros H; exists lib; by rewrite H|]. by intros (lib' & [= <-] & ? & _).
Qed.
