(* ===== verification/GraphUtils.v ===== *)
(** * Graph utilities (utils/graph_utils.js)

    Which nodes come before a node, when the graph has loops: the connections
    that close a cycle are found by depth-first search and left out, the rest
    is walked backwards.  A connection is the record of the fields read here, a
    missing one being the empty string. *)

From S2P Require Import Prelude JsMap JsValue Dfs.
Local Open Scope nat_scope.

Record gconn := GConn {
  gc_id : string;
  gc_source : string;
  gc_sourceHandle : string;
  gc_sourceSocket : string;
  gc_target : string;
  gc_targetHandle : string;
  gc_targetSocket : string;
}.

#[export] Instance gconn_eq_dec : EqDecision gconn.
Proof. solve_decision. Defined.

(** [connection && connection.source && connection.target] *)
Definition has_ends (c : gconn) : bool := negb (gc_source c =s "") && negb (gc_target c =s "").

Definition normalizeConnections (cs : list gconn) : list gconn := bfilter has_ends cs.

Definition str_or (a b : string) : string := if a =s "" then b else a.

Definition getConnectionKey (c : gconn) : string :=
  if negb (gc_id c =s "") then gc_id c
  else gc_source c +:+ "=>" +:+ str_or (gc_sourceHandle c) (gc_sourceSocket c) +:+ "=>" +:+
       gc_target c +:+ "=>" +:+ str_or (gc_targetHandle c) (gc_targetSocket c).

(** [if (!m.has(k)) m.set(k, []); m.get(k).push(v)] *)
Definition push_to {V} (k : string) (v : V) (m : list (string * list V)) : list (string * list V) :=
  mset k (default [] (jget k m) ++ [v]) m.

Definition buildForwardAdjacency (cs : list gconn) : list (string * list gconn) :=
  foldl (λ adj c, push_to (gc_source c) c adj) [] (normalizeConnections cs).

Definition buildReverseAdjacency (cs : list gconn) : list (string * list string) :=
  foldl (λ adj c, push_to (gc_target c) (gc_source c) adj) [] (normalizeConnections cs).

(** The ids of all end points, in the order a [Set] keeps them. *)
Definition end_points (cs : list gconn) : list string :=
  unique (cs ≫= λ c, [gc_source c; gc_target c]).

(** The [inDegree] map. *)
Definition in_degrees (cs : list gconn) : list (string * nat) :=
  foldl (λ m c,
    let m := mset (gc_source c) (default 0 (jget (gc_source c) m)) m in
    mset (gc_target c) (S (default 0 (jget (gc_target c) m))) m) [] cs.

(** The searches from the roots and from the other nodes. *)
Definition back_search (cs : list gconn) : option (dfs_state (E := gconn)) :=
  let adjacency := buildForwardAdjacency cs in
  let succs n := default [] (jget n adjacency) in
  let nodeIds := end_points cs in
  let degrees := in_degrees cs in
  let roots := bfilter (λ n, Nat.eqb (default 0 (jget n degrees)) 0) nodeIds in
  match visit_all succs gc_target (length nodeIds) roots dfs_start with
  | Some st => visit_all succs gc_target (length nodeIds) nodeIds st
  | None => None
  end.

(** [getBackEdgeKeySet(connections)]; the search always ends ([back_search_total]). *)
Definition getBackEdgeKeySet (cs : list gconn) : list string :=
  match normalizeConnections cs with
  | [] => []
  | normalized =>
      match back_search normalized with
      | Some st => unique (getConnectionKey <$> backEdges st)
      | None => []
      end
  end.

(** [getStructuralConnections(connections)] *)
Definition getStructuralConnections (cs : list gconn) : list gconn :=
  let normalized := normalizeConnections cs in
  let backEdgeKeys := getBackEdgeKeySet normalized in
  bfilter (λ c, if gc_source c =s gc_target c then false
                else negb (mem (getConnectionKey c) backEdgeKeys)) normalized.

(** [getStructuralParentIds(workflow, nodeId)] *)
Definition getStructuralParentIds (cs : list gconn) (nodeId : string) : list string :=
  if nodeId =s "" then []
  else default [] (jget nodeId (buildReverseAdjacency (getStructuralConnections cs))).

(** The loop over the parents of the node taken from the queue. *)
Fixpoint add_parents (parents : list string) (visited preds queue : list string)
    : list string * list string * list string :=
  match parents with
  | [] => (visited, preds, queue)
  | p :: parents =>
      if mem p visited then add_parents parents visited preds queue
      else add_parents parents (visited ++ [p]) (preds ++ [p]) (queue ++ [p])
  end.

(** [while (queue.length)]; one unit of fuel per node taken from the queue. *)
Fixpoint walk_back (fuel : nat) (adj : list (string * list string)) (visited preds queue : list string)
    : option (list string) :=
  match queue with
  | [] => Some preds
  | current :: queue =>
      match fuel with
      | O => None
      | S fuel =>
          let '(visited, preds, queue) :=
            add_parents (default [] (jget current adj)) visited preds queue in
          walk_back fuel adj visited preds queue
      end
  end.

(** [getStructuralPredecessorIds(workflow, nodeId)] *)
Definition getStructuralPredecessorIds (cs : list gconn) (nodeId : string) : option (list string) :=
  if nodeId =s "" then Some []
  else
    let structural := getStructuralConnections cs in
    walk_back (S (length structural)) (buildReverseAdjacency structural) [nodeId] [] [nodeId].

(** A result of a node, under its id. *)
Abbreviation node_result_t := (string * jsval)%type.

(** [getLatestNodeResultsByNodeIds(nodeResults, nodeIds)], results paired with
    their node id. *)
Definition getLatestNodeResultsByNodeIds (results : list node_result_t) (nodeIds : list string)
    : list node_result_t :=
  foldl (λ m r, if mem r.1 nodeIds then mset r.1 r.2 (jdel r.1 m) else m) [] results.

(** [getLatestNodeResultForNodeIds(nodeResults, nodeIds)] *)
Definition getLatestNodeResultForNodeIds (results : list node_result_t) (nodeIds : list string)
    : option node_result_t :=
  find_first (λ r, mem r.1 nodeIds) (reverse results).

(** ** Adjacency *)

Lemma jget_push_to {V} k k' (v : V) m :
  default [] (jget k (push_to k' v m)) = default [] (jget k m) ++ (if k =s k' then [v] else []).
Proof.
  unfold push_to. rewrite jget_mset. case_bool_decide; [by subst|]. by rewrite app_nil_r.
Qed.

Lemma jget_adjacency {V} (key : gconn → string) (val : gconn → V) cs k :
  default [] (jget k (foldl (λ adj c, push_to (key c) (val c) adj) [] cs)) =
    val <$> bfilter (λ c, k =s key c) cs.
Proof.
  assert (∀ adj, default [] (jget k (foldl (λ adj c, push_to (key c) (val c) adj) adj cs)) =
            default [] (jget k adj) ++ (val <$> bfilter (λ c, k =s key c) cs)) as ->; [|done].
  induction cs as [|c cs IH]; intros adj; csimpl; [by rewrite app_nil_r|].
  rewrite IH, jget_push_to, <- app_assoc. f_equal. by case_bool_decide.
Qed.

Lemma elem_of_forward cs u c :
  c ∈ default [] (jget u (buildForwardAdjacency cs)) ↔ c ∈ normalizeConnections cs ∧ gc_source c = u.
Proof.
  unfold buildForwardAdjacency. rewrite (jget_adjacency gc_source id), list_fmap_id.
  rewrite elem_of_bfilter, bool_decide_eq_true. split; by intros [? ->] || by intros [? <-].
Qed.

Lemma elem_of_reverse_adj cs v u :
  u ∈ default [] (jget v (buildReverseAdjacency cs)) ↔
  ∃ c, c ∈ normalizeConnections cs ∧ gc_source c = u ∧ gc_target c = v.
Proof.
  unfold buildReverseAdjacency. rewrite (jget_adjacency gc_target gc_source), list_elem_of_fmap.
  split.
  - intros (c & -> & [Hc Ht]%elem_of_bfilter). bsimpl. by exists c.
  - intros (c & Hc & <- & <-). exists c. split; [done|]. apply elem_of_bfilter.
    split; [done|]. by apply bool_decide_eq_true.
Qed.

Lemma elem_of_end_points cs n : n ∈ end_points cs ↔ ∃ c, c ∈ cs ∧ (n = gc_source c ∨ n = gc_target c).
Proof.
  unfold end_points, unique. rewrite elem_of_unique_from, list_elem_of_bind. set_solver.
Qed.

Lemma normalize_idem cs : normalizeConnections (normalizeConnections cs) = normalizeConnections cs.
Proof. apply bfilter_all. by intros c [_ ?]%elem_of_bfilter. Qed.

(** ** The search *)

Section search.
Context (cs : list gconn) (Hcs : normalizeConnections cs = cs).

Definition succs_of (u : string) : list gconn := default [] (jget u (buildForwardAdjacency cs)).

Lemma elem_of_succs u c : c ∈ succs_of u ↔ c ∈ cs ∧ gc_source c = u.
Proof using Hcs. unfold succs_of. by rewrite elem_of_forward, Hcs. Qed.

Lemma succs_closed u c : c ∈ succs_of u → gc_target c ∈ end_points cs.
Proof using Hcs. rewrite elem_of_succs, elem_of_end_points. naive_solver. Qed.

(** The two loops are one over the roots and then all nodes. *)
Lemma back_search_visit :
  ∃ ns, back_search cs = visit_all succs_of gc_target (length (end_points cs)) ns dfs_start ∧
    ∀ n, n ∈ ns ↔ n ∈ end_points cs.
Proof using Type.
  exists (bfilter (λ n, Nat.eqb (default 0 (jget n (in_degrees cs))) 0) (end_points cs) ++ end_points cs).
  split; [by rewrite visit_all_app|]. intros n. rewrite elem_of_app, elem_of_bfilter. tauto.
Qed.

Lemma back_search_total : is_Some (back_search cs).
Proof using Hcs.
  destruct back_search_visit as (ns & -> & Hns).
  apply (dfs_total succs_of gc_target (end_points cs)); [apply succs_closed|]. intros n. apply Hns.
Qed.

(** An arrow of the graph. *)
Definition arrow (l : list gconn) (u v : string) : Prop :=
  ∃ c, c ∈ l ∧ gc_source c = u ∧ gc_target c = v.

Lemma edge_arrow u v : edge succs_of gc_target u v ↔ arrow cs u v.
Proof using Hcs. unfold edge, arrow. setoid_rewrite elem_of_succs. naive_solver. Qed.

Lemma back_search_spec st :
  back_search cs = Some st →
  (∃ fin, topo succs_of gc_target (backEdges st) fin ∧ ∀ n, n ∈ end_points cs → n ∈ fin) ∧
  (∀ c, c ∈ backEdges st → c ∈ cs ∧ rtc (arrow cs) (gc_target c) (gc_source c)).
Proof using Hcs.
  destruct back_search_visit as (ns & -> & Hns). intros Hv.
  destruct (dfs_spec succs_of gc_target (end_points cs) _ _ _ Hv) as [Ht Hb]; [intros n; apply Hns|].
  split; [done|]. intros c Hc. destruct (Hb c Hc) as (u & Hu & Hr).
  apply elem_of_succs in Hu as [Hin <-]. split; [done|].
  eapply rtc_subrel; [|exact Hr]. intros x y. by rewrite edge_arrow.
Qed.
End search.

(** What the keys of the back edges are. *)
Lemma back_keys cs :
  ∃ back,
    (∀ k, k ∈ getBackEdgeKeySet (normalizeConnections cs) ↔ ∃ c, c ∈ back ∧ getConnectionKey c = k) ∧
    (∀ c, c ∈ back → c ∈ normalizeConnections cs ∧
       rtc (arrow (normalizeConnections cs)) (gc_target c) (gc_source c)) ∧
    ∃ fin, topo (succs_of (normalizeConnections cs)) gc_target back fin ∧
      ∀ n, n ∈ end_points (normalizeConnections cs) → n ∈ fin.
Proof.
  unfold getBackEdgeKeySet. rewrite normalize_idem.
  destruct (normalizeConnections cs) as [|c0 l] eqn:E.
  - exists []. split_and!; [set_solver..|]. exists []. split; [constructor|]. set_solver.
  - assert (normalizeConnections (c0 :: l) = c0 :: l) as Hn by (rewrite <- E; apply normalize_idem).
    destruct (back_search_total (c0 :: l) Hn) as [st Hst]. rewrite Hst.
    destruct (back_search_spec (c0 :: l) Hn st Hst) as [Ht Hb].
    exists (backEdges st). split; [|done]. intros k. unfold unique.
    rewrite elem_of_unique_from, list_elem_of_fmap. set_solver.
Qed.

Lemma elem_of_structural cs c :
  c ∈ getStructuralConnections cs ↔
  c ∈ normalizeConnections cs ∧ gc_source c ≠ gc_target c ∧
  getConnectionKey c ∉ getBackEdgeKeySet (normalizeConnections cs).
Proof.
  unfold getStructuralConnections. rewrite elem_of_bfilter. case_bool_decide; [naive_solver|].
  rewrite negb_true_iff, mem_false. tauto.
Qed.

Lemma structural_acyclic_aux cs u : ¬ tc (arrow (getStructuralConnections cs)) u u.
Proof.
  destruct (back_keys cs) as (back & Hk & Hb & fin & Ht & Hfin).
  pose proof (topo_acyclic (succs_of (normalizeConnections cs)) gc_target back fin
    (λ c, c ∈ getStructuralConnections cs) Ht) as Hac.
  intros Hu. apply (Hac) with u.
  - intros c (_ & _ & Hc)%elem_of_structural Hin. apply Hc, Hk. by exists c.
  - intros v c. rewrite elem_of_succs by apply normalize_idem. intros [Hc <-].
    apply Hfin, elem_of_end_points. eauto.
  - clear -Hu. revert Hu. generalize u at 1 3. intros v Hv.
    assert (∀ a b, arrow (getStructuralConnections cs) a b →
      ∃ e, e ∈ succs_of (normalizeConnections cs) a ∧ e ∈ getStructuralConnections cs ∧ gc_target e = b) as Hs.
    { intros a b (c & Hc & <- & <-). exists c. split; [|done].
      rewrite elem_of_succs by apply normalize_idem. split; [|done]. by apply elem_of_structural in Hc as [? _]. }
    induction Hv as [a b H|a b d H _ IH]; [by apply tc_once, Hs|]. eapply tc_l; [by apply Hs|done].
Qed.

(** ** Walking back *)

Lemma add_parents_spec ps visited preds queue :
  ∃ new, add_parents ps visited preds queue = (visited ++ new, preds ++ new, queue ++ new) ∧
    NoDup new ∧ (∀ x, x ∈ new → x ∈ ps ∧ x ∉ visited) ∧ (∀ x, x ∈ ps → x ∈ visited ++ new).
Proof.
  revert visited preds queue. induction ps as [|p ps IH]; intros v pr q; simpl.
  { exists []. rewrite !app_nil_r. split_and!; [done|constructor|set_solver|set_solver]. }
  destruct (mem p v) eqn:E.
  - apply mem_spec in E. destruct (IH v pr q) as (new & -> & H1 & H2 & H3). exists new.
    split_and!; [done|done|set_solver|]. intros x [->|Hx]%elem_of_cons; [set_solver|by apply H3].
  - apply mem_false in E. destruct (IH (v ++ [p]) (pr ++ [p]) (q ++ [p])) as (new & -> & H1 & H2 & H3).
    exists (p :: new). rewrite <- !app_assoc. simpl in *. split_and!; [done| | |].
    + constructor; [|done]. intros Hp. apply H2 in Hp as [_ Hp]. set_solver.
    + intros x [->|Hx]%elem_of_cons; [split; [left|done]|]. apply H2 in Hx as [? ?]. set_solver.
    + intros x [->|Hx]%elem_of_cons; [set_solver|]. specialize (H3 x Hx). set_solver.
Qed.

Section walk.
Context (adj : list (string * list string)) (start : string).
Context (sources : list string).
Context (Hsources : ∀ v u, u ∈ default [] (jget v adj) → u ∈ sources).

Definition parent (u v : string) : Prop := u ∈ default [] (jget v adj).

(** Nodes found so far, and what is still to do. *)
Record walk_inv (visited preds queue : list string) : Prop := {
  wi_visited : visited = start :: preds;
  wi_nodup : NoDup visited;
  wi_queue : ∀ x, x ∈ queue → x ∈ visited;
  wi_closed : ∀ x, x ∈ visited → x ∉ queue → ∀ u, parent u x → u ∈ visited;
  wi_reach : ∀ x, x ∈ visited → rtc parent x start;
}.

Definition pending (visited : list string) : list string := bfilter (λ x, negb (mem x visited)) sources.

Lemma pending_add visited new :
  NoDup new → (∀ x, x ∈ new → x ∈ sources ∧ x ∉ visited) →
  length (pending (visited ++ new)) + length new ≤ length (pending visited).
Proof using Type.
  intros Hd Hn. unfold pending. clear Hsources.
  assert (∀ l, NoDup new → (∀ x, x ∈ new → x ∉ visited) → (∀ x, x ∈ new → x ∈ l) →
    length (bfilter (λ x, negb (mem x (visited ++ new))) l) + length new ≤
    length (bfilter (λ x, negb (mem x visited)) l)) as H; [|apply H; [done|by apply Hn..]].
  clear Hn. induction Hd as [|x new Hx Hd IH]; intros l _ Hv Hl.
  - rewrite app_nil_r. simpl. lia.
  - assert (x ∈ l) as Hxl by (apply Hl; left).
    assert (∀ y, y ∈ new → y ∉ visited) as Hv' by (intros; apply Hv; by right).
    assert (∀ y, y ∈ new → y ∈ l) as Hl' by (intros; apply Hl; by right).
    specialize (IH l Hd Hv' Hl').
    assert (length (bfilter (λ y, negb (mem y (visited ++ x :: new))) l) <
            length (bfilter (λ y, negb (mem y (visited ++ new))) l)) as Hlt.
    { assert (∀ y, mem y (visited ++ x :: new) = (x =s y) || mem y (visited ++ new)) as Hm.
      { intros y. unfold mem. rewrite !existsb_app. simpl. destruct (x =s y); by rewrite ?orb_true_r. }
      assert (mem x (visited ++ new) = false) as Hnx
        by (apply mem_false; specialize (Hv x); set_solver).
      assert (∀ l, length (bfilter (λ y, negb (mem y (visited ++ x :: new))) l) ≤
            length (bfilter (λ y, negb (mem y (visited ++ new))) l)) as Hle.
      { intros k. induction k as [|y k IHk]; [done|]. cbn [bfilter]. rewrite Hm.
        destruct (x =s y), (mem y (visited ++ new)); cbn [orb negb length]; lia. }
      clear IH Hl Hl'. induction l as [|y l IHl]; [set_solver|]. cbn [bfilter]. rewrite Hm.
      specialize (Hle l). apply elem_of_cons in Hxl as [->|Hxl].
      - rewrite bool_decide_true, Hnx by done. cbn [orb negb length]. lia.
      - specialize (IHl Hxl). destruct (x =s y), (mem y (visited ++ new)); cbn [orb negb length]; lia. }
    simpl. lia.
Qed.

Lemma ancestors_closed (visited : list string) x s :
  (∀ x, x ∈ visited → ∀ u, parent u x → u ∈ visited) → rtc parent x s → s ∈ visited → x ∈ visited.
Proof using Type. intros Hc H. induction H as [|x y s Hxy _ IH]; [done|]. intros Hs. by eapply Hc; [apply IH|]. Qed.

(** Taking one node from the queue. *)
Lemma walk_inv_step visited preds x queue new :
  walk_inv visited preds (x :: queue) → NoDup new →
  (∀ y, y ∈ new → y ∈ default [] (jget x adj) ∧ y ∉ visited) →
  (∀ y, y ∈ default [] (jget x adj) → y ∈ visited ++ new) →
  walk_inv (visited ++ new) (preds ++ new) (queue ++ new).
Proof using Type.
  intros [Hv Hd Hq Hc Hr] Hnd Hnew Hall. split.
  - by rewrite Hv.
  - apply NoDup_app. split_and!; [done| |done]. intros y Hy Hn. by apply Hnew in Hn as [_ ?].
  - intros y [Hy|Hy]%elem_of_app; apply elem_of_app; [left; apply Hq; by right|by right].
  - intros y Hy Hny u Hu. rewrite elem_of_app in Hny.
    apply elem_of_app in Hy as [Hy|Hy]; [|tauto].
    destruct (decide (y = x)) as [->|Hne]; [by apply Hall|].
    apply elem_of_app. left. apply (Hc y); [done| |done]. rewrite elem_of_cons. tauto.
  - intros y [Hy|Hy]%elem_of_app; [by apply Hr|]. eapply rtc_l; [apply (Hnew y Hy)|].
    apply Hr, Hq. left.
Qed.

Lemma walk_back_spec fuel visited preds queue :
  walk_inv visited preds queue → length queue + length (pending visited) ≤ fuel →
  ∃ out, walk_back fuel adj visited preds queue = Some out ∧ NoDup (start :: out) ∧
    ∀ x, x ∈ start :: out ↔ rtc parent x start.
Proof using Hsources.
  revert visited preds queue. induction fuel as [|fuel IH]; intros v pr [|x q] Hi Hf; cbn [walk_back].
  1,3: exists pr; destruct Hi as [-> Hd _ Hc Hr]; split_and!; [done|done|];
    intros y; split; [apply Hr|]; intros Hy;
    apply (ancestors_closed _ y start); [|done|left]; intros z Hz; apply Hc; [done|set_solver].
  - simpl in Hf. lia.
  - destruct (add_parents_spec (default [] (jget x adj)) v pr q) as (new & -> & Hnd & Hnew & Hall).
    apply IH; [by eapply walk_inv_step|].
    assert (length (pending (v ++ new)) + length new ≤ length (pending v)) as Hp.
    { apply pending_add; [done|]. intros y Hy. destruct (Hnew y Hy). split; [by eapply Hsources|done]. }
    rewrite length_app. simpl in Hf. lia.
Qed.
End walk.

Lemma structural_normal cs : normalizeConnections (getStructuralConnections cs) = getStructuralConnections cs.
Proof.
  apply bfilter_all. intros c (Hc & _)%elem_of_structural. by apply elem_of_bfilter in Hc as [_ ?].
Qed.

Lemma parent_arrow cs u v :
  parent (buildReverseAdjacency (getStructuralConnections cs)) u v ↔ arrow (getStructuralConnections cs) u v.
Proof. unfold parent. by rewrite elem_of_reverse_adj, structural_normal. Qed.

(** ** Properties *)

(** the structural connections of any graph have no cycle, so walking the
    predecessors of a node never comes back to it. *)
Theorem structural_acyclic cs u : ¬ tc (arrow (getStructuralConnections cs)) u u.
Proof. apply structural_acyclic_aux. Qed.

(** only connections on a cycle are left out: when connections have
    distinct keys, one that is dropped leads back from its target to its
    source, and a graph without cycles keeps all its connections. *)
Theorem structural_minimal cs :
  (∀ c c', c ∈ normalizeConnections cs → c' ∈ normalizeConnections cs →
     getConnectionKey c = getConnectionKey c' → c = c') →
  (∀ c, c ∈ normalizeConnections cs → c ∉ getStructuralConnections cs →
     rtc (arrow (normalizeConnections cs)) (gc_target c) (gc_source c)) ∧
  ((∀ u, ¬ tc (arrow (normalizeConnections cs)) u u) →
   getStructuralConnections cs = normalizeConnections cs).
Proof.
  intros Hkeys. destruct (back_keys cs) as (back & Hk & Hb & _).
  assert (∀ c, c ∈ normalizeConnections cs → c ∉ getStructuralConnections cs →
     rtc (arrow (normalizeConnections cs)) (gc_target c) (gc_source c)) as Hcyc.
  { intros c Hc Hn. rewrite elem_of_structural in Hn.
    destruct (decide (gc_source c = gc_target c)) as [->|Hne]; [done|].
    destruct (decide (getConnectionKey c ∈ getBackEdgeKeySet (normalizeConnections cs))) as [Hin|Hin];
      [|tauto].
    apply Hk in Hin as (c' & Hc' & Hkey). destruct (Hb c' Hc') as [Hin' Hr].
    by rewrite (Hkeys c c'). }
  split; [done|]. intros Hac. unfold getStructuralConnections at 1. apply bfilter_all.
  intros c Hc. destruct (decide (c ∈ getStructuralConnections cs)) as [Hs|Hs].
  - by apply elem_of_bfilter in Hs as [_ ?].
  - exfalso. apply (Hac (gc_source c)). eapply tc_rtc_r; [|by apply Hcyc]. apply tc_once. by exists c.
Qed.

(** The predecessors of a node are found by a walk that ends, each once,
    and they are exactly the other nodes from which it can be reached along
    structural connections. *)
Lemma predecessors_exact cs n :
  n ≠ "" →
  ∃ out, getStructuralPredecessorIds cs n = Some out ∧ NoDup out ∧
    ∀ x, x ∈ out ↔ tc (arrow (getStructuralConnections cs)) x n.
Proof.
  intros Hn. unfold getStructuralPredecessorIds. rewrite bool_decide_false by done.
  set (l := getStructuralConnections cs). set (adj := buildReverseAdjacency l).
  destruct (walk_back_spec adj n (gc_source <$> l)) with (fuel := S (length l)) (visited := [n])
    (preds := @nil string) (queue := [n]) as (out & Hw & Hd & Hx).
  - intros v u Hu. apply (parent_arrow cs) in Hu as (c & Hc & <- & _). by apply list_elem_of_fmap_2.
  - split; [done|apply NoDup_singleton|done|set_solver|]. by intros x ->%list_elem_of_singleton.
  - simpl. pose proof (sublist_length _ _ (bfilter_sublist (λ x, negb (mem x [n])) (gc_source <$> l))) as Hl.
    rewrite length_fmap in Hl. unfold pending. lia.
  - exists out. apply NoDup_cons in Hd as [Hno Hd]. split_and!; [done..|].
    assert (∀ x y, rtc (parent adj) x y ↔ rtc (arrow l) x y) as Heq.
    { intros x y. split; apply rtc_subrel; intros a b; apply (parent_arrow cs). }
    intros x. split.
    + intros Hin. assert (rtc (arrow l) x n) as Hr by (apply Heq, Hx; by right).
      apply rtc_tc in Hr as [->|?]; [done|done].
    + intros Ht. assert (x ∈ n :: out) as [->|?]%elem_of_cons; [|by apply structural_acyclic_aux in Ht|done].
      apply Hx, Heq. by apply tc_rtc.
Qed.

(** A trigger, a loop with its body, and what follows the loop. *)
Definition gc (i s t : string) : gconn := GConn i s "" "" t "" "".
Definition loop_graph : list gconn :=
  [gc "1" "start" "loop"; gc "2" "loop" "body"; gc "3" "body" "loop"; gc "4" "loop" "end"].

Lemma structural_minimal_witness :
  rtc (arrow (normalizeConnections loop_graph)) "loop" "body".
Proof.
  refine (proj1 (structural_minimal loop_graph _) (gc "3" "body" "loop") _ _).
  - assert (Forall (λ c, Forall (λ c', getConnectionKey c = getConnectionKey c' → c = c') loop_graph)
              loop_graph) as H.
    { repeat constructor; vm_compute; intros; done. }
    intros c c' Hc Hc'. rewrite Forall_forall in H. pose proof (H c Hc) as H'.
    rewrite Forall_forall in H'. by apply H'.
  - apply (bool_decide_unpack _). vm_compute. exact I.
  - apply (bool_decide_unpack _). vm_compute. exact I.
Defined.

Lemma predecessors_exact_witness :
  getStructuralPredecessorIds loop_graph "end" = Some ["loop"; "start"] ∧
  tc (arrow (getStructuralConnections loop_graph)) "start" "end".
Proof.
  assert (getStructuralPredecessorIds loop_graph "end" = Some ["loop"; "start"]) as E
    by (vm_compute; reflexivity).
  split; [exact E|].
  destruct (predecessors_exact loop_graph "end") as (out & Hout & _ & Hx); [discriminate|].
  rewrite E in Hout. injection Hout as <-. apply Hx. right. left.
Defined.

(** ** The latest results *)

(** The last result of a node, if any. *)
Definition last_result (k : string) (results : list node_result_t) : option jsval :=
  snd <$> find_first (λ r, r.1 =s k) (reverse results).

Lemma latest_snoc results nodeIds r :
  getLatestNodeResultsByNodeIds (results ++ [r]) nodeIds =
    (if mem r.1 nodeIds
     then mset r.1 r.2 (jdel r.1 (getLatestNodeResultsByNodeIds results nodeIds))
     else getLatestNodeResultsByNodeIds results nodeIds).
Proof. unfold getLatestNodeResultsByNodeIds. by rewrite foldl_app. Qed.

Lemma last_result_snoc k results r :
  last_result k (results ++ [r]) = if r.1 =s k then Some r.2 else last_result k results.
Proof. unfold last_result. rewrite reverse_snoc. simpl. by destruct (r.1 =s k). Qed.

(** Of the results of the given nodes the latest of each node is kept,
    once per node, and the most recent of them all comes last. *)
Lemma latest_results_exact results nodeIds :
  NoDup (jkeys (getLatestNodeResultsByNodeIds results nodeIds)) ∧
  (∀ k, jget k (getLatestNodeResultsByNodeIds results nodeIds) =
     if mem k nodeIds then last_result k results else None) ∧
  last (getLatestNodeResultsByNodeIds results nodeIds) = getLatestNodeResultForNodeIds results nodeIds.
Proof.
  induction results as [|r results IH] using rev_ind.
  { split_and!; [constructor|intros k; by destruct (mem _ _)|done]. }
  destruct IH as (IH1 & IH2 & IH3). rewrite latest_snoc.
  unfold getLatestNodeResultForNodeIds. rewrite reverse_snoc. simpl.
  destruct (mem r.1 nodeIds) eqn:E.
  - split_and!; [auto with js| |].
    + intros k. rewrite jget_mset, last_result_snoc, jget_jdel, IH2.
      repeat case_bool_decide; subst; try done. by rewrite E.
    + rewrite mset_fresh by (rewrite jget_jdel; by case_bool_decide). rewrite last_snoc. by destruct r.
  - split_and!; [done| |done]. intros k. rewrite IH2, last_result_snoc.
    case_bool_decide; [subst; by rewrite E|done].
Qed.
