(* ===== verification/Dagre.v ===== *)
(** * Dagre graphs and cycles (class WorkflowGraph of utils/graph_utils.js)

    The layout itself is computed by Dagre, a library outside the program; the
    class [Dagre] names the operations of its graphs that the program calls and
    [DagreLaws] what its documentation says of them.  The program's own part in
    this file: finding the edges that close cycles and taking them out for the
    layout. *)

From S2P Require Import Prelude JsMap JsValue Control Dfs.

(** The label of a node: its size, and its place. *)
Record glabel := GLabel { gl_width : num; gl_height : num; gl_x : num; gl_y : num }.

Class Dagre := {
  dgraph : Type;
  g_new : dgraph;
  g_graph : dgraph → jsobj;
  g_setGraph : jsobj → dgraph → dgraph;
  g_nodes : dgraph → list string;
  g_node : dgraph → string → option glabel;
  g_setNode : string → glabel → dgraph → dgraph;
  g_edges : dgraph → list (string * string);
  g_edge_label : dgraph → string * string → jsobj;
  g_setEdge : string → string → option jsobj → dgraph → dgraph;  (* [None]: the default label *)
  g_removeEdge : string → string → dgraph → dgraph;
  g_successors : dgraph → string → list string;
  g_predecessors : dgraph → string → list string;
  g_components : dgraph → list (list string);  (* graphlib.alg.components *)
  g_layout : dgraph → dgraph;                  (* dagre.layout *)
}.

(** Documented behaviour of graphlib and of [dagre.layout]. *)
Class DagreLaws `{Dagre} := {
  new_nodes : g_nodes g_new = [];
  new_node : ∀ n, g_node g_new n = None;
  nodes_nodup : ∀ g, NoDup (g_nodes g);
  setGraph_nodes : ∀ g o, g_nodes (g_setGraph o g) = g_nodes g;
  setGraph_node : ∀ g o n, g_node (g_setGraph o g) n = g_node g n;
  setGraph_succ : ∀ g o u, g_successors (g_setGraph o g) u = g_successors g u;
  setNode_nodes : ∀ g n l x, x ∈ g_nodes (g_setNode n l g) ↔ x = n ∨ x ∈ g_nodes g;
  setNode_node : ∀ g n l x, g_node (g_setNode n l g) x = if x =s n then Some l else g_node g x;
  (* an edge brings its ends, without a label *)
  setEdge_nodes : ∀ g a b l x, x ∈ g_nodes (g_setEdge a b l g) ↔ x = a ∨ x = b ∨ x ∈ g_nodes g;
  setEdge_node : ∀ g a b l x, g_node (g_setEdge a b l g) x = g_node g x;
  succ_target : ∀ g u v, v ∈ g_successors g u → v ∈ g_nodes g;
  succ_source : ∀ g u v, v ∈ g_successors g u → u ∈ g_nodes g;
  edges_succ : ∀ g e, e ∈ g_edges g ↔ e.2 ∈ g_successors g e.1;
  remove_nodes : ∀ g a b, g_nodes (g_removeEdge a b g) = g_nodes g;
  remove_node : ∀ g a b n, g_node (g_removeEdge a b g) n = g_node g n;
  remove_succ : ∀ g a b u v,
    v ∈ g_successors (g_removeEdge a b g) u ↔ v ∈ g_successors g u ∧ ¬ (u = a ∧ v = b);
  (* the components are a partition of the nodes *)
  components_partition : ∀ g, concat (g_components g) ≡ₚ g_nodes g;
  (* the layout places the nodes *)
  layout_nodes : ∀ g, g_nodes (g_layout g) = g_nodes g;
  layout_node : ∀ g n l, g_node g n = Some l →
    ∃ x y, g_node (g_layout g) n = Some (GLabel (gl_width l) (gl_height l) x y);
}.

(** [graph.node(n)], of which a property is read next. *)
Definition node_label_of `{Dagre} (g : dgraph) (key n : string) : outcome glabel :=
  match g_node g n with
  | Some l => Ret l
  | None => Throw ("Cannot read properties of undefined (reading '" +:+ key +:+ "')")
  end.

Section cycles.
Context `{Dagre}.

(** ** Finding cycles *)

(** The edges of a node, as the search reports them. *)
Definition out_edges (g : dgraph) (u : string) : list (string * string) :=
  (λ v, (u, v)) <$> g_successors g u.

(** [detectCycles()]: from the nodes without predecessors, then from the rest. *)
Definition detectCycles (g : dgraph) : option (list (string * string)) :=
  let allNodes := g_nodes g in
  let roots := bfilter (λ n, Nat.eqb (length (g_predecessors g n)) 0) allNodes in
  match visit_all (out_edges g) snd (length allNodes) roots dfs_start with
  | Some st => backEdges <$> visit_all (out_edges g) snd (length allNodes) allNodes st
  | None => None
  end.

(** [_detectCyclesInGraph(graph)]: from every node in turn. *)
Definition detectCyclesInGraph (g : dgraph) : option (list (string * string)) :=
  backEdges <$> visit_all (out_edges g) snd (length (g_nodes g)) (g_nodes g) dfs_start.

(** [hasCycles()], given the edges found before. *)
Definition hasCycles (found : list (string * string)) (g : dgraph) : bool :=
  let back := match found with [] => default [] (detectCycles g) | _ => found end in
  match back with [] => false | _ => true end.

(** ** Laying out *)

Definition remove_edges (es : list (string * string)) (g : dgraph) : dgraph :=
  foldl (λ g e, g_removeEdge e.1 e.2 g) g es.

Definition set_edges (es : list (string * string)) (g : dgraph) : dgraph :=
  foldl (λ g e, g_setEdge e.1 e.2 None g) g es.

(** [Object.assign(graph.graph(), options); graph.setGraph(...)] *)
Definition assign_options (options : jsobj) (g : dgraph) : dgraph :=
  g_setGraph (ospread (g_graph g) options) g.

(** What Dagre is run on, and the edges put back after it; the searches always
    end ([detectCycles_spec]). *)
Definition layout_input (options : jsobj) (g : dgraph) : dgraph :=
  let g := assign_options options g in
  remove_edges (default [] (detectCycles g)) g.

(** [layout(options)]: the graph it leaves and the positions. *)
Definition layout (options : jsobj) (g : dgraph) : dgraph * outcome (list (string * position)) :=
  let backEdges := default [] (detectCycles (assign_options options g)) in
  let g := set_edges backEdges (g_layout (layout_input options g)) in
  (g, placed ← mapM (λ n, l ← node_label_of g "x" n; mret (n, Position (gl_x l) (gl_y l))) (g_nodes g);
      mret (ospread [] placed)).

(** [getNodePosition(nodeId)] *)
Definition getNodePosition (g : dgraph) (n : string) : option position :=
  (λ l, Position (gl_x l) (gl_y l)) <$> g_node g n.

(** ** Cycles: theorems *)

Context {HL : DagreLaws}.

Lemma elem_of_out_edges g u e : e ∈ out_edges g u ↔ e.1 = u ∧ e.2 ∈ g_successors g u.
Proof using Type.
  unfold out_edges. rewrite list_elem_of_fmap. split.
  - by intros (v & -> & Hv).
  - intros [<- Hv]. exists e.2. by destruct e.
Qed.

Lemma out_closed g u e : e ∈ out_edges g u → e.2 ∈ g_nodes g.
Proof using HL. intros [_ Hv]%elem_of_out_edges. by eapply succ_target. Qed.

Lemma search_total g ns :
  (∀ n, n ∈ ns → n ∈ g_nodes g) →
  is_Some (visit_all (out_edges g) snd (length (g_nodes g)) ns dfs_start).
Proof using HL. intros Hn. apply dfs_total; [|done]. intros u e. apply out_closed. Qed.

(** Both searches are one over lists that cover the nodes. *)
Lemma detectCycles_search g :
  ∃ ns, (∀ n, n ∈ ns ↔ n ∈ g_nodes g) ∧
    detectCycles g = backEdges <$> visit_all (out_edges g) snd (length (g_nodes g)) ns dfs_start.
Proof using Type.
  exists (bfilter (λ n, Nat.eqb (length (g_predecessors g n)) 0) (g_nodes g) ++ g_nodes g).
  split; [intros n; rewrite elem_of_app, elem_of_bfilter; tauto|].
  unfold detectCycles. rewrite visit_all_app. by destruct (visit_all _ _ _ _ _).
Qed.

Definition g_edge (g : dgraph) (u v : string) : Prop := v ∈ g_successors g u.

Lemma remove_edges_succ es g u v :
  v ∈ g_successors (remove_edges es g) u ↔ v ∈ g_successors g u ∧ (u, v) ∉ es.
Proof using HL.
  revert g. induction es as [|[a b] es IH]; intros g; simpl; [set_solver|].
  rewrite IH, remove_succ, not_elem_of_cons. simpl. split.
  - intros [[? Hn] ?]. split_and!; [done| |done]. intros [= -> ->]. by apply Hn.
  - intros (? & Hn & ?). split_and!; [done| |done]. intros [-> ->]. by apply Hn.
Qed.

(** What a search over all nodes reports. *)
Lemma search_acyclic g ns st :
  (∀ n, n ∈ ns ↔ n ∈ g_nodes g) →
  visit_all (out_edges g) snd (length (g_nodes g)) ns dfs_start = Some st →
  (∀ u, ¬ tc (g_edge (remove_edges (backEdges st) g)) u u) ∧
  (∀ e, e ∈ backEdges st → g_edge g e.1 e.2 ∧ rtc (g_edge g) e.2 e.1).
Proof using HL.
  intros Hns Hv.
  destruct (dfs_spec (out_edges g) snd (g_nodes g) _ _ _ Hv) as [(fin & Ht & Hfin) Hb];
    [intros n; apply Hns|]. split.
  - intros u Hu. apply (topo_acyclic (out_edges g) snd (backEdges st) fin (λ e, e ∉ backEdges st) Ht) with u.
    + done.
    + intros x e [<- He]%elem_of_out_edges. apply Hfin. by eapply succ_source.
    + assert (∀ x y, g_edge (remove_edges (backEdges st) g) x y →
               ∃ e, e ∈ out_edges g x ∧ e ∉ backEdges st ∧ e.2 = y) as Hs.
      { intros x y [Hxy Hn]%remove_edges_succ. exists (x, y). by rewrite elem_of_out_edges. }
      clear -Hu Hs. revert Hu. generalize u at 1 3. intros v Hv.
      induction Hv as [x y Hxy|x y z Hxy _ IH]; [by apply tc_once, Hs|].
      eapply tc_l; [by apply Hs|done].
  - intros e He. destruct (Hb e He) as (u & [<- Hs]%elem_of_out_edges & Hr). split; [done|].
    eapply rtc_subrel; [|exact Hr]. intros x y (e' & [<- He']%elem_of_out_edges & <-). done.
Qed.

Lemma detectCycles_spec g :
  ∃ back, detectCycles g = Some back ∧
    (∀ u, ¬ tc (g_edge (remove_edges back g)) u u) ∧
    (∀ e, e ∈ back → g_edge g e.1 e.2 ∧ rtc (g_edge g) e.2 e.1).
Proof using HL.
  destruct (detectCycles_search g) as (ns & Hns & ->).
  destruct (search_total g ns) as [st Hst]; [intros n; apply Hns|]. rewrite Hst.
  exists (backEdges st). split; [done|]. by eapply search_acyclic.
Qed.

Lemma detectCyclesInGraph_spec g :
  ∃ back, detectCyclesInGraph g = Some back ∧
    (∀ u, ¬ tc (g_edge (remove_edges back g)) u u) ∧
    (∀ e, e ∈ back → g_edge g e.1 e.2 ∧ rtc (g_edge g) e.2 e.1).
Proof using HL.
  unfold detectCyclesInGraph. destruct (search_total g (g_nodes g)) as [st Hst]; [done|]. rewrite Hst.
  exists (backEdges st). split; [done|]. by eapply search_acyclic.
Qed.

End cycles.

(** ** A graph as lists *)

(** Nodes with their labels and edges, laid out on a line, each node a component
    of its own: an instance of the interface. *)
Record lgraph := LGraph {
  lg_options : jsobj;
  lg_nodes : list (string * option glabel);
  lg_edges : list (string * string);
}.

Definition lg_has (g : lgraph) (n : string) : bool := jhas n (lg_nodes g).

Definition lg_touch (n : string) (m : list (string * option glabel)) : list (string * option glabel) :=
  mset n (mjoin (jget n m)) m.

#[export] Instance list_dagre : Dagre := {|
  dgraph := lgraph;
  g_new := LGraph [] [] [];
  g_graph := lg_options;
  g_setGraph o g := LGraph o (lg_nodes g) (lg_edges g);
  g_nodes g := unique (jkeys (lg_nodes g));
  g_node g n := mjoin (jget n (lg_nodes g));
  g_setNode n l g := LGraph (lg_options g) (mset n (Some l) (lg_nodes g)) (lg_edges g);
  g_edges g := bfilter (λ e, lg_has g e.1 && lg_has g e.2) (lg_edges g);
  g_edge_label _ _ := [];
  g_setEdge a b _ g :=
    LGraph (lg_options g) (lg_touch b (lg_touch a (lg_nodes g))) (lg_edges g ++ [(a, b)]);
  g_removeEdge a b g := LGraph (lg_options g) (lg_nodes g)
    (bfilter (λ e, negb ((e.1 =s a) && (e.2 =s b))) (lg_edges g));
  g_successors g u := snd <$> bfilter (λ e, (e.1 =s u) && (lg_has g e.1 && lg_has g e.2)) (lg_edges g);
  g_predecessors g v := fst <$> bfilter (λ e, (e.2 =s v) && (lg_has g e.1 && lg_has g e.2)) (lg_edges g);
  g_components g := (λ n, [n]) <$> unique (jkeys (lg_nodes g));
  g_layout g := LGraph (lg_options g)
    (imap (λ i '(n, l),
       (n, (λ l, GLabel (gl_width l) (gl_height l) (num_of_Z (200 * Z.of_nat i)) 0) <$> l))
       (lg_nodes g))
    (lg_edges g);
|}.

Lemma lg_has_elem g n : lg_has g n = true ↔ n ∈ jkeys (lg_nodes g).
Proof. unfold lg_has, jhas. rewrite elem_of_jkeys. destruct (jget n _); naive_solver. Qed.

Lemma elem_of_unique l x : x ∈ unique l ↔ x ∈ l.
Proof. unfold unique. rewrite elem_of_unique_from. set_solver. Qed.

Lemma lg_touch_keys n m x : x ∈ jkeys (lg_touch n m) ↔ x = n ∨ x ∈ jkeys m.
Proof.
  unfold lg_touch. rewrite !elem_of_jkeys, jget_mset. case_bool_decide as E; [naive_solver|tauto].
Qed.

Lemma lg_touch_get n m x : mjoin (jget x (lg_touch n m)) = mjoin (jget x m).
Proof. unfold lg_touch. rewrite jget_mset. case_bool_decide as E; [by subst|done]. Qed.

Lemma list_successors g u v :
  v ∈ g_successors (Dagre := list_dagre) g u ↔
  (u, v) ∈ lg_edges g ∧ u ∈ jkeys (lg_nodes g) ∧ v ∈ jkeys (lg_nodes g).
Proof.
  simpl. rewrite list_elem_of_fmap, <- !lg_has_elem. split.
  - intros ([a b] & -> & [He Hf]%elem_of_bfilter). simpl in *. bsimpl. by subst.
  - intros (He & Hu & Hv). exists (u, v). split; [done|]. apply elem_of_bfilter. simpl.
    by rewrite bool_decide_true, Hu, Hv.
Qed.

Lemma list_layout_keys (f : nat → option glabel → option glabel) m :
  jkeys (imap (λ i '(n, l), (n, f i l)) m) = jkeys m.
Proof.
  unfold jkeys. revert f. induction m as [|[n l] m IH]; intros f; csimpl; [done|]. f_equal.
  apply (IH (λ i, f (S i))).
Qed.

Lemma list_layout_get (f : nat → option glabel → option glabel) m n l :
  jget n m = Some l → ∃ i, jget n (imap (λ i '(n, l), (n, f i l)) m) = Some (f i l).
Proof.
  revert f. induction m as [|[n' l'] m IH]; intros f; csimpl; [done|].
  case_bool_decide; [intros [= ->]; by exists O|]. intros Hg.
  destruct (IH (λ i, f (S i)) Hg) as [i Hi]. by exists (S i).
Qed.

#[export] Instance list_dagre_laws : DagreLaws (H := list_dagre).
Proof.
  split; try done.
  - intros g. apply NoDup_unique_from.
  - intros g n l x. simpl. rewrite !elem_of_unique, !elem_of_jkeys, jget_mset.
    case_bool_decide as E; [naive_solver|tauto].
  - intros g n l x. simpl. rewrite jget_mset. by case_bool_decide.
  - intros g a b l x. simpl. rewrite !elem_of_unique, !lg_touch_keys. tauto.
  - intros g a b l x. simpl. by rewrite !lg_touch_get.
  - intros g u v (_ & _ & Hv)%list_successors. simpl. by apply elem_of_unique.
  - intros g u v (_ & Hu & _)%list_successors. simpl. by apply elem_of_unique.
  - intros g [a b]. rewrite list_successors, <- !lg_has_elem. simpl. rewrite elem_of_bfilter. simpl.
    by rewrite andb_true_iff.
  - intros g a b u v. rewrite !list_successors. simpl. rewrite elem_of_bfilter. simpl.
    rewrite negb_true_iff, andb_false_iff, !bool_decide_eq_false.
    destruct (decide (u = a)), (decide (v = b)); naive_solver.
  - intros g. simpl. induction (unique _) as [|n ns IH]; csimpl; [done|]. by rewrite IH.
  - intros g. simpl. f_equal. apply list_layout_keys.
  - intros g n l Hl. simpl in *. destruct (jget n (lg_nodes g)) as [o|] eqn:E; [|done]. simpl in Hl. subst o.
    eapply list_layout_get in E as [i ->]. simpl. eauto.
Qed.

(** ** Properties *)

(** the graph that [layout] hands to Dagre has no cycle, and only edges
    that lie on a cycle are taken out for it; the same search over a part of a
    graph always ends and also leaves no cycle. *)
Theorem layout_input_acyclic `{Dagre} `{!DagreLaws} options g :
  (∀ u, ¬ tc (g_edge (layout_input options g)) u u) ∧
  (∀ u v, g_edge g u v → ¬ g_edge (layout_input options g) u v → rtc (g_edge g) v u) ∧
  (∃ back, detectCyclesInGraph g = Some back ∧ ∀ u, ¬ tc (g_edge (remove_edges back g)) u u).
Proof.
  destruct (detectCycles_spec (assign_options options g)) as (back & Hb & Hac & Hcyc).
  assert (∀ u v, g_edge (assign_options options g) u v ↔ g_edge g u v) as Hs
    by (intros u v; unfold g_edge; unfold assign_options; by rewrite setGraph_succ).
  unfold layout_input. rewrite Hb. simpl. split; [done|]. split.
  - intros u v Huv Hn. destruct (decide ((u, v) ∈ back)) as [Hin|Hin].
    + destruct (Hcyc _ Hin) as [_ Hr]. eapply rtc_subrel; [|exact Hr]. intros x y. by rewrite Hs.
    + exfalso. apply Hn. apply remove_edges_succ. split; [by apply Hs|done].
  - destruct (detectCyclesInGraph_spec g) as (b & -> & Ha & _). eauto.
Qed.

(** Three nodes, the last two of them on a cycle. *)
Definition loop_graph : lgraph :=
  g_setEdge "c" "b" None (g_setEdge "b" "c" None (g_setEdge "a" "b" None g_new)).

Lemma layout_input_acyclic_witness :
  detectCycles loop_graph = Some [("c", "b")] ∧ ∀ u, ¬ tc (g_edge (layout_input [] loop_graph)) u u.
Proof.
  split; [vm_compute; reflexivity|].
  exact (proj1 (layout_input_acyclic [] loop_graph)).
Defined.
