(* ===== verification/Layout.v ===== *)
(** * Automatic layout (class WorkflowGraph of utils/graph_utils.js)

    Building the Dagre graph of a workflow, and laying out a graph that falls
    into several parts: each part is laid out by itself and the parts are
    stacked across the direction of the flow. *)

From S2P Require Import Prelude JsMap JsValue JsNumber Control Dfs GraphUtils Dagre.

(** ** The graph of a workflow *)

(** A node as the layout sees it; a coordinate may be missing. *)
Record gnode := GNode { gn_id : string; gn_x : option num; gn_y : option num }.

Definition or_zero (x : option num) : num := default 0%Qc x.

(** The [inDegree] object. *)
Definition node_degrees (nodes : list gnode) (connections : list gconn) : list (string * nat) :=
  foldl (λ m c, oset (gc_target c) (default 0%nat (jget (gc_target c) m) + 1)%nat m)
    (foldl (λ m n, oset (gn_id n) 0%nat m) [] nodes) connections.

(** The comparison: roots first, then by [y], then by [x]. *)
Definition goes_before (deg : list (string * nat)) (a b : gnode) : bool :=
  let aIsRoot := Nat.eqb (default 0%nat (jget (gn_id a) deg)) 0 in
  let bIsRoot := Nat.eqb (default 0%nat (jget (gn_id b) deg)) 0 in
  if aIsRoot && negb bIsRoot then true
  else if negb aIsRoot && bIsRoot then false
  else
    let yDiff := (or_zero (gn_y a) - or_zero (gn_y b))%Qc in
    let diff := if bool_decide (yDiff = 0%Qc) then (or_zero (gn_x a) - or_zero (gn_x b))%Qc else yDiff in
    bool_decide (diff < 0)%Qc.

Definition sortedNodes (nodes : list gnode) (connections : list gconn) : list gnode :=
  sort_by (goes_before (node_degrees nodes connections)) nodes.

Definition default_options : jsobj :=
  [("rankdir", JStr "LR"); ("nodesep", JInt 120); ("ranksep", JInt 160); ("edgesep", JInt 120);
   ("marginx", JInt 50); ("marginy", JInt 50)].

Record bbox := Bbox { minX : num; minY : num; maxX : num; maxY : num }.

(** [node.width || 180] and [node.height || 80] *)
Definition or_size (x d : num) : num := if bool_decide (x = 0%Qc) then d else x.

(** The rectangle that a node of a size covers at a place. *)
Definition box_at (p : position) (width height : num) : bbox :=
  let halfW := half (or_size width (num_of_Z 180)) in
  let halfH := half (or_size height (num_of_Z 80)) in
  Bbox (pos_x p - halfW) (pos_y p - halfH) (pos_x p + halfW) (pos_y p + halfH).

Definition label_box (l : glabel) : bbox :=
  box_at (Position (gl_x l) (gl_y l)) (gl_width l) (gl_height l).

Definition join_box (a b : bbox) : bbox :=
  Bbox (num_min (minX a) (minX b)) (num_min (minY a) (minY b))
    (num_max (maxX a) (maxX b)) (num_max (maxY a) (maxY b)).

(** The extent of a box across the flow. *)
Definition low (vertical : bool) (b : bbox) : num := if vertical then minX b else minY b.
Definition high (vertical : bool) (b : bbox) : num := if vertical then maxX b else maxY b.
Definition extent (vertical : bool) (b : bbox) : num := (high vertical b - low vertical b)%Qc.

Definition SUBGRAPH_SPACING : num := num_of_Z 160.
Definition MARGIN_START : num := num_of_Z 50.

Definition isVerticalFlow (options : jsobj) : bool := strict_eq (oprop options "rankdir") (JStr "TB").

Section layout.
Context `{Dagre}.

(** [WorkflowGraph.fromNodes(nodes, connections)] *)
Definition fromNodes (nodes : list gnode) (connections : list gconn) : dgraph :=
  let g := g_setGraph default_options g_new in
  let g := foldl (λ g n, g_setNode (gn_id n)
    (GLabel (num_of_Z 180) (num_of_Z 80) (or_zero (gn_x n)) (or_zero (gn_y n))) g) g
    (sortedNodes nodes connections) in
  foldl (λ g c, g_setEdge (gc_source c) (gc_target c) None g) g connections.

(** [{ ...undefined }] as a label.  A size that is missing is read as one that
    is 0, by [||] here and by Dagre, and the place is written by the layout. *)
Definition empty_label : glabel := GLabel 0 0 0 0.

(** Copying the nodes of a part that the graph has. *)
Definition copy_nodes (g : dgraph) (nodeIds : list string) (sub : dgraph) : dgraph :=
  foldl (λ sub n, if mem n (g_nodes g) then g_setNode n (default empty_label (g_node g n)) sub
                  else sub) sub nodeIds.

(** Copying the edges inside a part. *)
Definition copy_edges (g : dgraph) (nodeIds : list string) (sub : dgraph) : dgraph :=
  foldl (λ sub e, if mem e.1 nodeIds && mem e.2 nodeIds
                  then g_setEdge e.1 e.2 (Some (g_edge_label g e)) sub else sub) sub (g_edges g).

(** [createSubgraph(nodeIds)] *)
Definition createSubgraph (g : dgraph) (nodeIds : list string) : dgraph :=
  copy_edges g nodeIds (copy_nodes g nodeIds (g_setGraph (ospread [] (g_graph g)) g_new)).

Definition node_box (g : dgraph) (n : string) : outcome bbox :=
  l ← node_label_of g "width" n; mret (label_box l).

(** [getBoundingBox(graph)]; the infinities the loop starts from are the box of
    the first node. *)
Definition getBoundingBox (g : dgraph) : outcome bbox :=
  match g_nodes g with
  | [] => Ret (Bbox 0 0 0 0)
  | n :: ns => b ← node_box g n; bs ← mapM (node_box g) ns; mret (foldl join_box b bs)
  end.

Record component := Component {
  comp_ids : list string;
  comp_graph : dgraph;
  comp_box : bbox;
}.

(** One part of the graph, laid out by itself. *)
Definition layout_component (options : jsobj) (g : dgraph) (nodeIds : list string)
    : outcome component :=
  let subgraph := assign_options options (createSubgraph g nodeIds) in
  let backEdges := default [] (detectCyclesInGraph subgraph) in
  let subgraph := set_edges backEdges (g_layout (remove_edges backEdges subgraph)) in
  box ← getBoundingBox subgraph;
  mret (Component nodeIds subgraph box).

(** The offsets the parts get, one after the other. *)
Fixpoint offsets (vertical : bool) (currentOffset : num) (cs : list component)
    : list (component * num) :=
  match cs with
  | [] => []
  | c :: cs =>
      (c, currentOffset) ::
      offsets vertical (currentOffset + (extent vertical (comp_box c) + SUBGRAPH_SPACING))%Qc cs
  end.

(** Where a node with a label goes in a part with an offset. *)
Definition shifted (vertical : bool) (co : component * num) (l : glabel) : position :=
  let d := (co.2 - low vertical (comp_box co.1))%Qc in
  if vertical then Position (gl_x l + d)%Qc (gl_y l) else Position (gl_x l) (gl_y l + d)%Qc.

Definition place_component (vertical : bool) (co : component * num)
    : outcome (list (string * position)) :=
  mapM (λ n, l ← node_label_of (comp_graph co.1) "x" n; mret (n, shifted vertical co l))
    (comp_ids co.1).

(** [layoutWithSplitting(options)]: the positions. *)
Definition layoutWithSplitting (options : jsobj) (g : dgraph) : outcome (list (string * position)) :=
  let vertical := isVerticalFlow options in
  match g_components g with
  | [] | [_] => (layout options g).2
  | components =>
      cs ← mapM (layout_component options g) components;
      let cs := sort_by (λ a b, bool_decide (low vertical (comp_box a) < low vertical (comp_box b))%Qc) cs in
      placed ← mapM (place_component vertical) (offsets vertical MARGIN_START cs);
      mret (ospread [] (concat placed))
  end.
End layout.

(** ** Boxes *)

(** [a] lies inside [b]. *)
Definition inside (a b : bbox) : Prop :=
  (minX b ≤ minX a)%Qc ∧ (minY b ≤ minY a)%Qc ∧ (maxX a ≤ maxX b)%Qc ∧ (maxY a ≤ maxY b)%Qc.

#[export] Instance inside_preorder : PreOrder inside.
Proof.
  split.
  - intros a. split_and!; qc_lra.
  - intros a b c (?&?&?&?) (?&?&?&?). split_and!; qc_lra.
Qed.

Lemma inside_join a b : inside a (join_box a b) ∧ inside b (join_box a b).
Proof.
  unfold inside, join_box. simpl.
  destruct (num_min_spec (minX a) (minX b)), (num_min_spec (minY a) (minY b)),
    (num_max_spec (maxX a) (maxX b)), (num_max_spec (maxY a) (maxY b)). by split_and!.
Qed.

Lemma inside_joins bs b : inside b (foldl join_box b bs) ∧ ∀ b', b' ∈ bs → inside b' (foldl join_box b bs).
Proof.
  revert b. induction bs as [|b1 bs IH]; intros b; simpl.
  - split; [done|by intros ? ?%not_elem_of_nil].
  - destruct (IH (join_box b b1)) as [H1 H2], (inside_join b b1) as [J1 J2].
    split; [by etrans|]. intros b' [->|Hb]%elem_of_cons; [by etrans|by apply H2].
Qed.

Lemma inside_extent v a b : inside a b → (low v b ≤ low v a)%Qc ∧ (high v a ≤ high v b)%Qc.
Proof. intros (?&?&?&?). by destruct v. Qed.

Lemma or_size_pos x d : (0 ≤ x)%Qc → (0 ≤ d)%Qc → (0 ≤ or_size x d)%Qc.
Proof. unfold or_size. by case_bool_decide. Qed.

Lemma box_at_extent v p w h : (0 ≤ w)%Qc → (0 ≤ h)%Qc → (0 ≤ extent v (box_at p w h))%Qc.
Proof.
  intros Hw Hh. apply (or_size_pos _ (num_of_Z 180)) in Hw; [|by vm_compute].
  apply (or_size_pos _ (num_of_Z 80)) in Hh; [|by vm_compute].
  unfold extent, high, low, box_at, half. destruct v; simpl; qc_lra.
Qed.

(** [b] begins beyond [a] and the spacing. *)
Definition apart (v : bool) (a b : bbox) : Prop := (high v a + SUBGRAPH_SPACING ≤ low v b)%Qc.

Section layout_laws.
Context `{Dagre} {HL : DagreLaws}.

(** ** The graph of one part *)

(** A graph with these nodes, whose labels have these sizes. *)
Definition carries (ids : list string) (size : string → glabel) (g : dgraph) : Prop :=
  (∀ x, x ∈ g_nodes g ↔ x ∈ ids) ∧
  ∀ n, n ∈ ids → ∃ l, g_node g n = Some l ∧
    gl_width l = gl_width (size n) ∧ gl_height l = gl_height (size n).

Lemma carries_setGraph ids size o g : carries ids size g → carries ids size (g_setGraph o g).
Proof using HL.
  intros [Hn Hl]. split; [by rewrite setGraph_nodes|]. setoid_rewrite setGraph_node. done.
Qed.

Lemma carries_remove ids size es g : carries ids size g → carries ids size (remove_edges es g).
Proof using HL.
  revert g. induction es as [|e es IH]; intros g Hg; [done|]. apply (IH (g_removeEdge e.1 e.2 g)).
  destruct Hg as [Hn Hl]. split; [by rewrite remove_nodes|]. setoid_rewrite remove_node. done.
Qed.

Lemma carries_setEdge ids size a b l g :
  a ∈ ids → b ∈ ids → carries ids size g → carries ids size (g_setEdge a b l g).
Proof using HL.
  intros Ha Hb [Hn Hl]. split.
  - intros x. rewrite setEdge_nodes, Hn. naive_solver.
  - setoid_rewrite setEdge_node. done.
Qed.

Lemma carries_set_edges ids size es g :
  (∀ e, e ∈ es → e.1 ∈ ids ∧ e.2 ∈ ids) → carries ids size g → carries ids size (set_edges es g).
Proof using HL.
  revert g. induction es as [|e es IH]; intros g He Hg; [done|]. apply (IH (g_setEdge e.1 e.2 None g)).
  - intros e' He'. apply He. by right.
  - apply carries_setEdge; [apply (He e); left..|done].
Qed.

Lemma carries_layout ids size g : carries ids size g → carries ids size (g_layout g).
Proof using HL.
  intros [Hn Hl]. split; [by rewrite layout_nodes|]. intros n Hin.
  destruct (Hl n Hin) as (l & Hg & Hw & Hh). destruct (layout_node g n l Hg) as (x & y & ->). eauto.
Qed.

Lemma carries_copy_edges ids size g sub :
  carries ids size sub → carries ids size (copy_edges g ids sub).
Proof using HL.
  unfold copy_edges. generalize (g_edges g). intros es. revert sub.
  induction es as [|e es IH]; intros sub Hs; simpl; [done|]. apply IH.
  destruct (mem e.1 ids && mem e.2 ids) eqn:E; [|done]. bsimpl.
  apply carries_setEdge; [by apply mem_spec..|done].
Qed.

Lemma copy_nodes_carries g ids sub :
  (∀ n, n ∈ ids → n ∈ g_nodes g) → g_nodes sub = [] →
  carries ids (λ n, default empty_label (g_node g n)) (copy_nodes g ids sub).
Proof using HL.
  intros Hids Hsub.
  assert (∀ ids sub, (∀ n, n ∈ ids → n ∈ g_nodes g) →
    (∀ x, x ∈ g_nodes (copy_nodes g ids sub) ↔ x ∈ ids ∨ x ∈ g_nodes sub) ∧
    (∀ n, n ∈ ids ∨ g_node sub n = Some (default empty_label (g_node g n)) →
       g_node (copy_nodes g ids sub) n = Some (default empty_label (g_node g n)))) as Hc.
  { clear -HL. intros ids. unfold copy_nodes.
    induction ids as [|n ids IH]; intros sub Hids; cbn [foldl]; [split; [set_solver|intros n [Hn|]; set_solver]|].
    rewrite (proj2 (mem_spec n (g_nodes g))) by (apply Hids; left).
    edestruct (IH (g_setNode n (default empty_label (g_node g n)) sub)) as [H1 H2];
      [intros; apply Hids; by right|].
    split.
    - intros x. rewrite H1, setNode_nodes. set_solver.
    - intros m Hm. apply H2. rewrite setNode_node. case_bool_decide; [right; by subst|].
      destruct Hm as [Hm|Hm]; [|by right]. left. set_solver. }
  destruct (Hc ids sub Hids) as [H1 H2]. split.
  - intros x. rewrite H1, Hsub. set_solver.
  - intros n Hn. eexists. split; [by apply H2; left|done].
Qed.

Lemma createSubgraph_carries g ids :
  (∀ n, n ∈ ids → n ∈ g_nodes g) →
  carries ids (λ n, default empty_label (g_node g n)) (createSubgraph g ids).
Proof using HL.
  intros Hids. apply carries_copy_edges, copy_nodes_carries; [done|]. by rewrite setGraph_nodes, new_nodes.
Qed.

Lemma back_edges_inside g es e :
  detectCyclesInGraph g = Some es → e ∈ es → e.1 ∈ g_nodes g ∧ e.2 ∈ g_nodes g.
Proof using HL.
  intros Hd He. destruct (detectCyclesInGraph_spec g) as (back & Hb & _ & Hin).
  assert (es = back) as -> by congruence. destruct (Hin e He) as [Hs _].
  split; [by eapply succ_source|by eapply succ_target].
Qed.

(** The box of a graph contains the boxes of its nodes. *)
Lemma boundingBox_spec ids size g :
  carries ids size g → (∀ n, n ∈ ids → (0 ≤ gl_width (size n))%Qc ∧ (0 ≤ gl_height (size n))%Qc) →
  ∃ b, getBoundingBox g = Ret b ∧ (∀ v, (0 ≤ extent v b)%Qc) ∧
    ∀ n l, n ∈ ids → g_node g n = Some l → inside (label_box l) b.
Proof using HL.
  intros [Hn Hl] Hsize. set (lab n := default empty_label (g_node g n)).
  assert (∀ n, n ∈ g_nodes g → node_box g n = Ret (label_box (lab n))) as Hbox.
  { intros n (l & Hg & _)%Hn%Hl. unfold node_box, node_label_of, lab. by rewrite Hg. }
  unfold getBoundingBox. destruct (g_nodes g) as [|n ns] eqn:E.
  { exists (Bbox 0 0 0 0). split_and!; [done|by intros []; vm_compute|].
    intros n l Hin. apply Hn in Hin. set_solver. }
  rewrite (Hbox n) by left. rewrite (mapM_Ret _ (λ n, label_box (lab n))) by (intros; apply Hbox; by right).
  destruct (inside_joins ((λ n, label_box (lab n)) <$> ns) (label_box (lab n))) as [J1 J2].
  eexists. split; [done|]. split.
  - intros v. destruct (inside_extent v _ _ J1) as [L R].
    assert (0 ≤ extent v (label_box (lab n)))%Qc; [|unfold extent in *; qc_lra].
    destruct (Hl n) as (l & Hg & Hw & Hh); [apply Hn; left|]. unfold lab. rewrite Hg.
    apply box_at_extent; simpl; [rewrite Hw|rewrite Hh]; apply Hsize, Hn; left.
  - intros m l Hm Hg. assert (label_box l = label_box (lab m)) as -> by (unfold lab; by rewrite Hg).
    apply Hn, elem_of_cons in Hm as [->|Hm]; [done|]. apply J2, list_elem_of_fmap. eauto.
Qed.

(** The layout of Dagre for one part: that of its graph without the edges that close
    cycles, which are put back afterwards. *)
Definition component_layout (options : jsobj) (g : dgraph) (ids : list string) : dgraph :=
  let sub := assign_options options (createSubgraph g ids) in
  g_layout (remove_edges (default [] (detectCyclesInGraph sub)) sub).

Lemma set_edges_node es g n : g_node (set_edges es g) n = g_node g n.
Proof using HL.
  revert g. induction es as [|e es IH]; intros g; [done|]. etrans; [apply IH|]. apply setEdge_node.
Qed.

(** What is known of a part after its layout. *)
Record comp_ok (ids : list string) (size : string → glabel) (c : component) : Prop := {
  co_ids : comp_ids c = ids;
  co_carries : carries ids size (comp_graph c);
  co_extent : ∀ v, (0 ≤ extent v (comp_box c))%Qc;
  co_inside : ∀ n l, n ∈ ids → g_node (comp_graph c) n = Some l → inside (label_box l) (comp_box c);
}.

Lemma layout_component_ok options g ids :
  (∀ n, n ∈ ids → n ∈ g_nodes g) →
  (∀ n, n ∈ ids → (0 ≤ gl_width (default empty_label (g_node g n)))%Qc ∧
                  (0 ≤ gl_height (default empty_label (g_node g n)))%Qc) →
  ∃ c, layout_component options g ids = Ret c ∧ comp_ok ids (λ n, default empty_label (g_node g n)) c ∧
    ∀ n, g_node (comp_graph c) n = g_node (component_layout options g ids) n.
Proof using HL.
  intros Hids Hsize. unfold layout_component. cbv zeta.
  set (sub := assign_options options (createSubgraph g ids)).
  assert (carries ids (λ n, default empty_label (g_node g n)) sub) as Hsub
    by (by apply carries_setGraph, createSubgraph_carries).
  destruct (detectCyclesInGraph_spec sub) as (back & Hb & _).
  replace (default [] (detectCyclesInGraph sub)) with back by (by rewrite Hb).
  set (sub' := set_edges back (g_layout (remove_edges back sub))).
  assert (carries ids (λ n, default empty_label (g_node g n)) sub') as Hsub'.
  { apply carries_set_edges; [|by apply carries_layout, carries_remove].
    intros e He. destruct (back_edges_inside _ _ e Hb He). by rewrite <- !(proj1 Hsub). }
  destruct (boundingBox_spec _ _ _ Hsub' Hsize) as (b & -> & Hext & Hin).
  eexists. split; [done|]. split; [by split|]. intros n. cbn [comp_graph]. unfold sub', component_layout. cbv zeta.
  fold sub. rewrite Hb. apply set_edges_node.
Qed.

(** ** Stacking the parts *)

Lemma offsets_fst v cur cs : (offsets v cur cs).*1 = cs.
Proof using Type. revert cur. induction cs as [|c cs IH]; intros cur; csimpl; [done|]. by rewrite IH. Qed.

Lemma offsets_ge v cur cs co :
  Forall (λ c, (0 ≤ extent v (comp_box c))%Qc) cs → co ∈ offsets v cur cs → (cur ≤ co.2)%Qc.
Proof using Type.
  assert (0 ≤ SUBGRAPH_SPACING)%Qc by (by vm_compute).
  intros Hall. revert cur. induction Hall as [|c cs Hc Hall IH]; intros cur; simpl; [by intros ?%not_elem_of_nil|].
  intros [->|Hco%IH]%elem_of_cons; simpl; qc_lra.
Qed.

(** Later parts begin beyond the earlier ones and the spacing. *)
Lemma offsets_sorted v cur cs i j ci cj :
  Forall (λ c, (0 ≤ extent v (comp_box c))%Qc) cs →
  offsets v cur cs !! i = Some ci → offsets v cur cs !! j = Some cj → (i < j)%nat →
  (ci.2 + extent v (comp_box ci.1) + SUBGRAPH_SPACING ≤ cj.2)%Qc.
Proof using Type.
  intros Hall. revert cur i j. induction Hall as [|c cs Hc Hall IH]; intros cur i j; simpl; [done|].
  destruct i as [|i], j as [|j]; simpl; try lia.
  - intros [= <-] Hj%list_elem_of_lookup_2 _. simpl. apply offsets_ge in Hj; [qc_lra|done].
  - intros Hi Hj Hij. eapply IH; [done|done|lia].
Qed.

Lemma box_shifted v co l w h :
  gl_width l = w → gl_height l = h →
  low v (box_at (shifted v co l) w h) = (low v (label_box l) + (co.2 - low v (comp_box co.1)))%Qc ∧
  high v (box_at (shifted v co l) w h) = (high v (label_box l) + (co.2 - low v (comp_box co.1)))%Qc.
Proof using Type.
  intros <- <-. unfold label_box, shifted. destruct v; simpl;
    generalize (minX (comp_box co.1)), (minY (comp_box co.1)), (half (or_size (gl_width l) (num_of_Z 180))),
      (half (or_size (gl_height l) (num_of_Z 80))); intros; split; ring.
Qed.

(** Nodes of parts with offsets in this order are apart. *)
Lemma parts_apart v cs size i j ci cj n m ln lm :
  Forall (λ c, comp_ok (comp_ids c) size c) cs →
  offsets v MARGIN_START cs !! i = Some ci → offsets v MARGIN_START cs !! j = Some cj → (i < j)%nat →
  n ∈ comp_ids ci.1 → m ∈ comp_ids cj.1 →
  g_node (comp_graph ci.1) n = Some ln → g_node (comp_graph cj.1) m = Some lm →
  apart v (box_at (shifted v ci ln) (gl_width (size n)) (gl_height (size n)))
          (box_at (shifted v cj lm) (gl_width (size m)) (gl_height (size m))).
Proof using Type.
  intros Hall Hi Hj Hij Hn Hm Hln Hlm.
  assert (∀ k co, offsets v MARGIN_START cs !! k = Some co → comp_ok (comp_ids co.1) size co.1) as Hok.
  { intros k co Hk. rewrite Forall_forall in Hall. apply Hall. rewrite <- (offsets_fst v MARGIN_START cs).
    apply list_elem_of_fmap. exists co. split; [done|]. by eapply list_elem_of_lookup_2. }
  pose proof (Hok _ _ Hi) as Oi. pose proof (Hok _ _ Hj) as Oj.
  destruct (proj2 (co_carries _ _ _ Oi) n Hn) as (l & Hl & Hw & Hh). assert (l = ln) as -> by congruence.
  destruct (proj2 (co_carries _ _ _ Oj) m Hm) as (l & Hl' & Hw' & Hh'). assert (l = lm) as -> by congruence.
  destruct (box_shifted v ci ln _ _ Hw Hh) as [_ Eh], (box_shifted v cj lm _ _ Hw' Hh') as [El _].
  unfold apart. rewrite Eh, El.
  destruct (inside_extent v _ _ (co_inside _ _ _ Oi n ln Hn Hln)) as [_ I1].
  destruct (inside_extent v _ _ (co_inside _ _ _ Oj m lm Hm Hlm)) as [I2 _].
  assert (ci.2 + extent v (comp_box ci.1) + SUBGRAPH_SPACING ≤ cj.2)%Qc as Hoff.
  { eapply offsets_sorted; [|done..]. eapply Forall_impl; [done|]. intros c Hc. by apply (co_extent _ _ _ Hc). }
  unfold extent in Hoff. qc_lra.
Qed.

(** The positions of one part. *)
Definition part_of (v : bool) (co : component * num) : list (string * position) :=
  (λ n, (n, shifted v co (default empty_label (g_node (comp_graph co.1) n)))) <$> comp_ids co.1.

Lemma place_component_ok v size co :
  comp_ok (comp_ids co.1) size co.1 →
  place_component v co = Ret (part_of v co).
Proof using Type.
  intros Ho. apply mapM_Ret. intros n Hn. destruct (proj2 (co_carries _ _ _ Ho) n Hn) as (l & Hl & _).
  unfold node_label_of. by rewrite Hl.
Qed.


(** The parts, laid out and in order. *)
Lemma splitting_parts options g :
  let size n := default empty_label (g_node g n) in
  (∀ n, n ∈ g_nodes g → (0 ≤ gl_width (size n))%Qc ∧ (0 ≤ gl_height (size n))%Qc) →
  (2 ≤ length (g_components g))%nat →
  ∃ cs, (comp_ids <$> cs) ≡ₚ g_components g ∧ Forall (λ c, comp_ok (comp_ids c) size c) cs ∧
    Forall (λ c, ∀ n, g_node (comp_graph c) n = g_node (component_layout options g (comp_ids c)) n) cs ∧
    layoutWithSplitting options g =
      Ret (ospread [] (concat (part_of (isVerticalFlow options) <$>
             offsets (isVerticalFlow options) MARGIN_START cs))).
Proof using HL.
  intros size Hsize Hlen. set (v := isVerticalFlow options).
  assert (∀ ids, ids ∈ g_components g → ∀ n, n ∈ ids → n ∈ g_nodes g) as Hin.
  { intros ids Hids n Hn. rewrite <- components_partition. apply elem_of_concat. eauto. }
  destruct (mapM_ex (layout_component options g) (λ ids c, comp_ok ids size c ∧
      ∀ n, g_node (comp_graph c) n = g_node (component_layout options g ids) n) (g_components g))
    as (cs & Hcs & Hall).
  { intros ids Hids. apply layout_component_ok; [by apply Hin|]. intros n Hn. by apply Hsize, (Hin ids). }
  exists (sort_by (λ a b, bool_decide (low v (comp_box a) < low v (comp_box b))%Qc) cs).
  assert (comp_ids <$> cs = g_components g) as Hids.
  { clear -Hall. induction Hall as [|ids c l k [Hc _] _ IH]; csimpl; [done|]. by rewrite IH, (co_ids _ _ _ Hc). }
  assert (Forall (λ c, comp_ok (comp_ids c) size c) cs) as Hok.
  { clear -Hall. induction Hall as [|ids c l k [Hc _] _ IH]; constructor; [|done]. by rewrite (co_ids _ _ _ Hc). }
  assert (Forall (λ c, ∀ n, g_node (comp_graph c) n = g_node (component_layout options g (comp_ids c)) n) cs) as Hlaid.
  { clear -Hall. induction Hall as [|ids c l k [Hc Hl] _ IH]; constructor; [|done]. by rewrite (co_ids _ _ _ Hc). }
  split; [by rewrite sort_by_perm, Hids|]. split; [by rewrite sort_by_perm|]. split; [by rewrite sort_by_perm|].
  assert (∀ co, co ∈ offsets v MARGIN_START (sort_by (λ a b, bool_decide (low v (comp_box a) < low v (comp_box b))%Qc) cs) →
     place_component v co = Ret (part_of v co)) as Hplace.
  { intros co Hco. apply (place_component_ok v size). apply (list_elem_of_fmap_2 fst) in Hco.
    rewrite offsets_fst, sort_by_perm in Hco. rewrite Forall_forall in Hok. by apply Hok. }
  unfold layoutWithSplitting. destruct (g_components g) as [|c1 [|c2 comps]] eqn:E; [simpl in Hlen; lia..|].
  rewrite Hcs. cbn [mbind outcome_bind]. fold v.
  by rewrite (mapM_Ret _ (part_of v)).
Qed.

Lemma part_of_keys v cur cs : (concat (part_of v <$> offsets v cur cs)).*1 = concat (comp_ids <$> cs).
Proof using Type.
  revert cur. induction cs as [|c cs IH]; intros cur; csimpl; [done|]. rewrite fmap_app, IH. f_equal.
  unfold part_of. rewrite <- list_fmap_compose. apply list_fmap_id.
Qed.

Lemma NoDup_concat_lookup (ls : list (list string)) i j a b x :
  NoDup (concat ls) → ls !! i = Some a → ls !! j = Some b → x ∈ a → x ∈ b → i = j.
Proof using Type.
  revert i j. induction ls as [|l ls IH]; intros i j; simpl; [done|].
  intros (_ & Hd & Hnd)%NoDup_app.
  assert (∀ k c, ls !! k = Some c → x ∈ c → x ∈ concat ls) as Hc.
  { intros k c Hk Hx. apply elem_of_concat. exists c. split; [done|]. by eapply list_elem_of_lookup_2. }
  destruct i as [|i], j as [|j]; simpl; intros Hi Hj Ha Hb; simplify_eq; [done| | |].
  - exfalso. by eapply Hd, Hc.
  - exfalso. by eapply Hd, Hc.
  - f_equal. by eapply IH.
Qed.

(** A place moved across the flow. *)
Definition moved_across (v : bool) (d : num) (p : position) : position :=
  if v then Position (pos_x p + d)%Qc (pos_y p) else Position (pos_x p) (pos_y p + d)%Qc.

(** All nodes get a place: that of Dagre's layout of their part, the part moved as a
    whole across the flow; and parts are apart. *)
Lemma splitting_spec options g :
  let size n := default empty_label (g_node g n) in
  let node_at n p := box_at p (gl_width (size n)) (gl_height (size n)) in
  let v := isVerticalFlow options in
  (∀ n, n ∈ g_nodes g → (0 ≤ gl_width (size n))%Qc ∧ (0 ≤ gl_height (size n))%Qc) →
  (2 ≤ length (g_components g))%nat →
  ∃ res, layoutWithSplitting options g = Ret res ∧
    (∀ n, is_Some (jget n res) ↔ n ∈ g_nodes g) ∧
    (∀ ids, ids ∈ g_components g → ∃ d, ∀ n, n ∈ ids →
       jget n res = moved_across v d <$> getNodePosition (component_layout options g ids) n) ∧
    ∀ i j ci cj n m p q, g_components g !! i = Some ci → g_components g !! j = Some cj → i ≠ j →
      n ∈ ci → m ∈ cj → jget n res = Some p → jget m res = Some q →
      apart v (node_at n p) (node_at m q) ∨ apart v (node_at m q) (node_at n p).
Proof using HL.
  intros size node_at v Hsize Hlen.
  destruct (splitting_parts options g Hsize Hlen) as (cs & Hids & Hok & Hlaid & Hres). fold v in Hres.
  set (placed := concat (part_of v <$> offsets v MARGIN_START cs)) in *.
  assert (jkeys placed ≡ₚ g_nodes g) as Hkeys.
  { unfold jkeys, placed. rewrite part_of_keys, Hids. apply components_partition. }
  assert (NoDup (jkeys placed)) as Hnd by (rewrite Hkeys; apply nodes_nodup).
  assert (∀ n, jget n (ospread [] placed) = jget n placed) as Hget.
  { intros n. rewrite jget_ospread by done. by destruct (jget n placed). }
  assert (∀ n p, jget n (ospread [] placed) = Some p → ∃ k co l, offsets v MARGIN_START cs !! k = Some co ∧
    n ∈ comp_ids co.1 ∧ g_node (comp_graph co.1) n = Some l ∧ p = shifted v co l) as Hplaced.
  { intros n p. rewrite Hget. intros Hp%jget_elem. apply elem_of_concat in Hp as (part & Hp & Hpart).
    apply list_elem_of_fmap in Hpart as (co & -> & Hco).
    apply list_elem_of_fmap in Hp as (n' & [= -> ->] & Hn).
    assert (comp_ok (comp_ids co.1) size co.1) as Ho.
    { rewrite Forall_forall in Hok. apply Hok. rewrite <- (offsets_fst v MARGIN_START cs). by apply list_elem_of_fmap_2. }
    destruct (proj2 (co_carries _ _ _ Ho) n' Hn) as (l & Hl & _).
    apply list_elem_of_lookup in Hco as [k Hk]. exists k, co, l. rewrite Hl. done. }
  exists (ospread [] placed). split; [done|].
  assert (∀ n, is_Some (jget n (ospread [] placed)) ↔ n ∈ g_nodes g) as Hall
    by (intros n; rewrite Hget, <- elem_of_jkeys; by rewrite Hkeys).
  split; [done|]. split.
  { intros ids Hin. rewrite <- Hids in Hin. apply list_elem_of_fmap in Hin as (c & -> & Hc).
    assert (∃ co, co ∈ offsets v MARGIN_START cs ∧ co.1 = c) as (co & Hco & <-).
    { rewrite <- (offsets_fst v MARGIN_START cs) in Hc. apply list_elem_of_fmap in Hc as (co & -> & Hco). eauto. }
    exists (co.2 - low v (comp_box co.1))%Qc. intros n Hn. rewrite Hget.
    rewrite Forall_forall in Hok, Hlaid. destruct (proj2 (co_carries _ _ _ (Hok _ Hc)) n Hn) as (l & Hl & _).
    unfold getNodePosition. rewrite <- (Hlaid _ Hc), Hl. simpl.
    rewrite (elem_jget n (shifted v co l) placed); [unfold shifted, moved_across; by destruct v|done|].
    apply elem_of_concat. exists (part_of v co). split; [|by apply list_elem_of_fmap_2].
    apply list_elem_of_fmap. exists n. split; [|done]. by rewrite Hl. }
  intros i j ci cj n m p q Hci Hcj Hij Hn Hm Hp Hq.
  destruct (Hplaced n p Hp) as (k & co & l & Hk & Hnk & Hl & ->).
  destruct (Hplaced m q Hq) as (k' & co' & l' & Hk' & Hmk & Hl' & ->).
  destruct (decide (k < k')%nat); [left; by eapply parts_apart|].
  destruct (decide (k' < k)%nat); [right; by eapply parts_apart|].
  exfalso. assert (k' = k) as -> by lia. assert (co' = co) as -> by congruence.
  assert (NoDup (concat (g_components g))) as Hndc by (rewrite components_partition; apply nodes_nodup).
  assert (comp_ids co.1 ∈ g_components g) as Hc.
  { rewrite <- Hids, <- (offsets_fst v MARGIN_START cs), <- list_fmap_compose.
    apply list_elem_of_fmap. exists co. split; [done|]. by eapply list_elem_of_lookup_2. }
  apply list_elem_of_lookup in Hc as [c Hc]. apply Hij. transitivity c.
  - by eapply (NoDup_concat_lookup _ i c ci (comp_ids co.1) n).
  - by eapply (NoDup_concat_lookup _ c j (comp_ids co.1) cj m).
Qed.

(** ** A graph in one part *)

Lemma detectCycles_inside g es e :
  detectCycles g = Some es → e ∈ es → e.1 ∈ g_nodes g ∧ e.2 ∈ g_nodes g.
Proof using HL.
  intros Hd He. destruct (detectCycles_spec g) as (back & Hb & _ & Hin).
  assert (es = back) as -> by congruence. destruct (Hin e He) as [Hs _].
  split; [by eapply succ_source|by eapply succ_target].
Qed.

Lemma layout_places options g :
  (∀ n, n ∈ g_nodes g → is_Some (g_node g n)) →
  ∃ res, (layout options g).2 = Ret res ∧ (∀ n, is_Some (jget n res) ↔ n ∈ g_nodes g) ∧
    ∀ n, n ∈ g_nodes g → jget n res = getNodePosition (g_layout (layout_input options g)) n.
Proof using HL.
  intros Hlab. set (size n := default empty_label (g_node g n)).
  assert (carries (g_nodes g) size g) as Hg.
  { split; [done|]. intros n [l Hl]%Hlab. exists l. unfold size. by rewrite Hl. }
  unfold layout, layout_input. cbv zeta. set (g1 := assign_options options g).
  assert (carries (g_nodes g) size g1) as Hg1 by (by apply carries_setGraph).
  destruct (detectCycles_spec g1) as (back & Hb & _).
  replace (default [] (detectCycles g1)) with back by (by rewrite Hb).
  set (g2 := set_edges back (g_layout (remove_edges back g1))).
  assert (carries (g_nodes g) size g2) as [Hn2 Hl2].
  { apply carries_set_edges; [|by apply carries_layout, carries_remove].
    intros e He. destruct (detectCycles_inside _ _ e Hb He). by rewrite <- !(proj1 Hg1). }
  set (place n := let l := default empty_label (g_node g2 n) in (n, Position (gl_x l) (gl_y l))).
  simpl. rewrite (mapM_Ret _ place).
  2:{ intros n (l & Hl & _)%Hn2%Hl2. unfold node_label_of, place. by rewrite Hl. }
  assert (jkeys (place <$> g_nodes g2) = g_nodes g2) as Hk.
  { unfold jkeys. rewrite <- list_fmap_compose. apply list_fmap_id. }
  assert (NoDup (jkeys (place <$> g_nodes g2))) as Hnd by (rewrite Hk; apply nodes_nodup).
  eexists. split; [done|]. split; intros n.
  - rewrite jget_ospread by done.
    transitivity (n ∈ jkeys (place <$> g_nodes g2)); [|by rewrite Hk].
    rewrite elem_of_jkeys. by destruct (jget n _).
  - intros Hn. rewrite jget_ospread by done. destruct (Hl2 n Hn) as (l & Hl & _).
    rewrite (elem_jget n (Position (gl_x l) (gl_y l)) (place <$> g_nodes g2)); [|done|].
    + unfold getNodePosition. unfold g2 in Hl. rewrite set_edges_node in Hl. by rewrite Hl.
    + apply list_elem_of_fmap. exists n. split; [unfold place; by rewrite Hl|by apply Hn2].
Qed.

(** ** Graphs of workflows *)

Lemma fromNodes_node nodes conns n l :
  g_node (fromNodes nodes conns) n = Some l →
  gl_width l = num_of_Z 180 ∧ gl_height l = num_of_Z 80.
Proof using HL.
  unfold fromNodes. generalize (sortedNodes nodes conns). intros ns. revert l. induction conns as [|c cs IH] using rev_ind; intros l.
  - simpl. revert l. induction ns as [|x ns IH] using rev_ind; intros l; simpl.
    + by rewrite setGraph_node, new_node.
    + rewrite foldl_snoc, setNode_node. case_bool_decide; [by intros [= <-]|apply IH].
  - rewrite foldl_snoc, setEdge_node. apply IH.
Qed.

Lemma fromNodes_nodes nodes conns x :
  x ∈ g_nodes (fromNodes nodes conns) ↔
  x ∈ gn_id <$> nodes ∨ ∃ c, c ∈ conns ∧ (x = gc_source c ∨ x = gc_target c).
Proof using HL.
  transitivity (x ∈ gn_id <$> sortedNodes nodes conns ∨ ∃ c, c ∈ conns ∧ (x = gc_source c ∨ x = gc_target c)).
  2:{ unfold sortedNodes. by rewrite sort_by_perm. }
  unfold fromNodes. generalize (sortedNodes nodes conns). intros ns. induction conns as [|c cs IH] using rev_ind.
  - simpl. induction ns as [|y ns IH] using rev_ind; simpl.
    + rewrite setGraph_nodes, new_nodes. set_solver.
    + rewrite foldl_snoc, setNode_nodes, IH, fmap_app. set_solver.
  - rewrite foldl_snoc, setEdge_nodes, IH. set_solver.
Qed.

Lemma fromNodes_labelled nodes conns x :
  x ∈ gn_id <$> nodes → is_Some (g_node (fromNodes nodes conns) x).
Proof using HL.
  intros Hx. assert (x ∈ gn_id <$> sortedNodes nodes conns) as Hs by (unfold sortedNodes; by rewrite sort_by_perm).
  revert Hs. unfold fromNodes. generalize (sortedNodes nodes conns). clear -HL. intros ns Hs.
  induction conns as [|c cs IH] using rev_ind.
  - simpl. induction ns as [|y ns IH] using rev_ind; simpl; [set_solver|].
    rewrite foldl_snoc, setNode_node. case_bool_decide; [done|]. apply IH. set_solver.
  - rewrite foldl_snoc, setEdge_node. apply IH.
Qed.
End layout_laws.

(** ** The order of the nodes *)

Section order.
Context (deg : list (string * nat)).

Definition is_root (n : gnode) : bool := Nat.eqb (default 0%nat (jget (gn_id n) deg)) 0.

Lemma goes_before_spec a b :
  goes_before deg a b = true ↔
  (is_root a = true ∧ is_root b = false) ∨
  (is_root a = is_root b ∧
   ((or_zero (gn_y a) < or_zero (gn_y b))%Qc ∨
    (or_zero (gn_y a) = or_zero (gn_y b) ∧ (or_zero (gn_x a) < or_zero (gn_x b))%Qc))).
Proof using Type.
  unfold goes_before. fold (is_root a) (is_root b).
  generalize (or_zero (gn_x a)), (or_zero (gn_x b)), (or_zero (gn_y a)), (or_zero (gn_y b)).
  intros xa xb ya yb.
  assert ((if bool_decide (ya - yb = 0)%Qc then xa - xb else ya - yb)%Qc < 0 ↔
          ya < yb ∨ ya = yb ∧ xa < xb)%Qc as Hd.
  { case_bool_decide as Hy; split.
    - intros Hx. right. split; qc_lra.
    - intros [Hlt|[He Hlt]]; qc_lra.
    - intros Hx. left. qc_lra.
    - intros [Hlt|[He Hlt]]; [qc_lra|]. destruct Hy. subst. ring. }
  destruct (is_root a), (is_root b); simpl; rewrite ?bool_decide_eq_true, ?Hd; naive_solver.
Qed.

Lemma goes_before_false a b :
  goes_before deg b a = false ↔
  (is_root b = true → is_root a = true) ∧
  (is_root a = is_root b →
   (or_zero (gn_y a) < or_zero (gn_y b))%Qc ∨
   (or_zero (gn_y a) = or_zero (gn_y b) ∧ (or_zero (gn_x a) ≤ or_zero (gn_x b))%Qc)).
Proof using Type.
  rewrite <- not_true_iff_false, goes_before_spec.
  generalize (or_zero (gn_x a)), (or_zero (gn_x b)), (or_zero (gn_y a)), (or_zero (gn_y b)).
  intros xa xb ya yb.
  assert (¬ (yb < ya ∨ yb = ya ∧ xb < xa)%Qc ↔ (ya < yb ∨ ya = yb ∧ xa ≤ xb)%Qc) as Hd.
  { destruct (Qc_dec ya yb) as [[Hy|Hy]|Hy]; split.
    - by left.
    - intros _ [?|[? ?]]; qc_lra.
    - intros Hn. destruct Hn. by left.
    - intros [?|[? ?]]; qc_lra.
    - intros Hn. right. split; [done|]. apply Qcnot_lt_le. intros ?. apply Hn. right. by split.
    - intros [?|[_ ?]] [?|[_ ?]]; qc_lra. }
  destruct (is_root a), (is_root b); naive_solver.
Qed.

Lemma goes_before_asym a b : goes_before deg a b = true → goes_before deg b a = false.
Proof using Type.
  rewrite goes_before_spec, goes_before_false. intros [[-> ->]|[-> Hlt]]; [done|]. split; [done|].
  intros _. destruct Hlt as [?|[? ?]]; [by left|]. right. split; [done|]. by apply Qclt_le_weak.
Qed.

Lemma goes_before_ntrans a b c :
  goes_before deg b a = false → goes_before deg c b = false → goes_before deg c a = false.
Proof using Type.
  rewrite !goes_before_false. intros [R1 H1] [R2 H2]. split; [tauto|]. intros Hr.
  assert (is_root a = is_root b) as Ha by (destruct (is_root a), (is_root b), (is_root c); naive_solver).
  specialize (H1 Ha). rewrite <- Hr, Ha in H2. specialize (H2 eq_refl).
  destruct H1 as [?|[? ?]], H2 as [?|[? ?]].
  1,2,3: left; qc_lra. right. split; qc_lra.
Qed.
End order.

(** The degree of a node counts the connections that end there. *)
Lemma node_degrees_count nodes conns k :
  default 0%nat (jget k (node_degrees nodes conns)) = length (bfilter (λ c, k =s gc_target c) conns).
Proof.
  unfold node_degrees. induction conns as [|c conns IH] using rev_ind.
  - simpl. induction nodes as [|n nodes IH] using rev_ind; [done|].
    rewrite foldl_snoc, jget_oset. by case_bool_decide.
  - rewrite foldl_snoc, jget_oset, bfilter_app, length_app. simpl.
    case_bool_decide as E; [by subst; simpl; rewrite IH|]. simpl. rewrite IH. lia.
Qed.

(** No connection ends at the node. *)
Definition no_incoming (conns : list gconn) (n : gnode) : Prop := ∀ c, c ∈ conns → gc_target c ≠ gn_id n.

Lemma is_root_spec nodes conns n : is_root (node_degrees nodes conns) n = true ↔ no_incoming conns n.
Proof.
  unfold is_root. rewrite Nat.eqb_eq, node_degrees_count, length_zero_iff_nil. split.
  - intros Hnil c Hc Heq. assert (c ∈ bfilter (λ c, gn_id n =s gc_target c) conns) as H.
    { apply elem_of_bfilter. split; [done|]. by apply bool_decide_eq_true. }
    rewrite Hnil in H. set_solver.
  - intros Hno. apply bfilter_none. intros c Hc. apply bool_decide_eq_false. intros Heq. by apply (Hno c).
Qed.

(** ** Properties *)

(** The size that [fromNodes] gives to every node. *)
Definition node_at (p : position) : bbox := box_at p (num_of_Z 180) (num_of_Z 80).

Lemma fromNodes_size `{Dagre} `{!DagreLaws} nodes conns n p :
  let l := default empty_label (g_node (fromNodes nodes conns) n) in
  (0 ≤ gl_width l)%Qc ∧ (0 ≤ gl_height l)%Qc ∧ box_at p (gl_width l) (gl_height l) = node_at p.
Proof.
  destruct (g_node (fromNodes nodes conns) n) as [l|] eqn:E; simpl; [|by split_and!; vm_compute].
  apply fromNodes_node in E as [-> ->]. by split_and!; vm_compute.
Qed.

(** The places are those of Dagre: the layout of the whole graph if it is in one
    part, and otherwise that of each part, moved as a whole across the flow. *)
Definition follows_dagre `{Dagre} (options : jsobj) (g : dgraph) (res : list (string * position)) : Prop :=
  match g_components g with
  | [] | [_] => ∀ n, n ∈ g_nodes g → jget n res = getNodePosition (g_layout (layout_input options g)) n
  | parts =>
      ∀ ids, ids ∈ parts → ∃ d, ∀ n, n ∈ ids →
        jget n res = moved_across (isVerticalFlow options) d <$> getNodePosition (component_layout options g ids) n
  end.

(** The automatic layout of a workflow whose connections join its nodes
    returns, with a position for every node and for nothing else; cycles and
    isolated nodes included. *)
Lemma layout_places_all `{Dagre} `{!DagreLaws} options nodes conns :
  (∀ c, c ∈ conns → gc_source c ∈ gn_id <$> nodes ∧ gc_target c ∈ gn_id <$> nodes) →
  ∃ res, layoutWithSplitting options (fromNodes nodes conns) = Ret res ∧
    (∀ n, is_Some (jget n res) ↔ n ∈ gn_id <$> nodes) ∧ follows_dagre options (fromNodes nodes conns) res.
Proof.
  intros Hc. assert (∀ x, x ∈ g_nodes (fromNodes nodes conns) ↔ x ∈ gn_id <$> nodes) as Hn.
  { intros x. rewrite fromNodes_nodes. split; [|by left]. intros [?|(c & Hin & [->| ->])]; [done|by apply Hc..]. }
  setoid_rewrite <- Hn. destruct (decide (2 ≤ length (g_components (fromNodes nodes conns)))%nat) as [Hl|Hl].
  - destruct (splitting_spec options (fromNodes nodes conns)) as (res & Hres & Hk & Hf & _); [|done|].
    { intros n _. destruct (fromNodes_size nodes conns n (Position 0 0)) as (? & ? & _). done. }
    exists res. split; [done|]. split; [done|]. unfold follows_dagre.
    destruct (g_components (fromNodes nodes conns)) as [|c1 [|c2 cs]]; [simpl in Hl; lia..|done].
  - unfold layoutWithSplitting, follows_dagre.
    destruct (g_components (fromNodes nodes conns)) as [|c1 [|c2 cs]]; [| |simpl in Hl; lia].
    all: apply layout_places; intros n; rewrite Hn; apply fromNodes_labelled.
Qed.

Definition conn_of (a b : string) : gconn := GConn "" a "output" "" b "input" "".

Lemma layout_places_all_witness :
  let nodes := [GNode "a" None None; GNode "b" None None] in
  let conns := [conn_of "a" "b"; conn_of "b" "a"] in
  ∃ res, layoutWithSplitting [] (fromNodes nodes conns) = Ret res ∧
    ∀ n, is_Some (jget n res) ↔ n ∈ gn_id <$> nodes.
Proof.
  intros nodes conns. destruct (layout_places_all [] nodes conns) as (res & Hres & Hk & _); [|by exists res].
  intros c Hc. repeat (apply elem_of_cons in Hc as [->|Hc]; [by split; apply (bool_decide_unpack _); vm_compute|]).
  by apply not_elem_of_nil in Hc.
Defined.

(** Parts of a disconnected workflow never overlap in the automatic layout:
    two nodes of different parts are at least the spacing apart across the
    direction of the flow, each taken with its whole rectangle. *)
Lemma layout_parts_apart `{Dagre} `{!DagreLaws} options nodes conns i j ci cj n m :
  let g := fromNodes nodes conns in
  g_components g !! i = Some ci → g_components g !! j = Some cj → i ≠ j → n ∈ ci → m ∈ cj →
  ∃ res p q, layoutWithSplitting options g = Ret res ∧ jget n res = Some p ∧ jget m res = Some q ∧
    (apart (isVerticalFlow options) (node_at p) (node_at q) ∨
     apart (isVerticalFlow options) (node_at q) (node_at p)).
Proof.
  intros g Hi Hj Hij Hn Hm.
  assert (2 ≤ length (g_components g))%nat as Hl.
  { pose proof (lookup_lt_Some _ _ _ Hi). pose proof (lookup_lt_Some _ _ _ Hj). lia. }
  destruct (splitting_spec options g) as (res & Hres & Hk & _ & Hap); [|done|].
  { intros x _. destruct (fromNodes_size nodes conns x (Position 0 0)) as (? & ? & _). done. }
  assert (∀ k c x, g_components g !! k = Some c → x ∈ c → x ∈ g_nodes g) as Hin.
  { intros k c x Hk' Hx. rewrite <- components_partition. apply elem_of_concat. exists c.
    split; [done|]. by eapply list_elem_of_lookup_2. }
  destruct (proj2 (Hk n) (Hin _ _ _ Hi Hn)) as [p Hp], (proj2 (Hk m) (Hin _ _ _ Hj Hm)) as [q Hq].
  exists res, p, q. split_and!; [done..|]. specialize (Hap _ _ _ _ _ _ _ _ Hi Hj Hij Hn Hm Hp Hq).
  destruct (fromNodes_size nodes conns n p) as (_ & _ & E1), (fromNodes_size nodes conns m q) as (_ & _ & E2).
  cbv zeta in E1, E2, Hap. fold g in E1, E2. by rewrite E1, E2 in Hap.
Qed.

Lemma layout_parts_apart_witness :
  let g := fromNodes [GNode "a" None None; GNode "b" None None] [] in
  ∃ res p q, layoutWithSplitting [] g = Ret res ∧ jget "a" res = Some p ∧ jget "b" res = Some q ∧
    (apart false (node_at p) (node_at q) ∨ apart false (node_at q) (node_at p)).
Proof.
  apply (layout_parts_apart [] [GNode "a" None None; GNode "b" None None] [] 0 1 ["a"] ["b"]).
  - vm_compute. reflexivity.
  - vm_compute. reflexivity.
  - lia.
  - left.
  - left.
Defined.

(** the nodes are handed to Dagre with those that no connection enters
    first, and within each group from top to bottom and then from left to
    right. *)
Theorem sortedNodes_order nodes conns :
  sortedNodes nodes conns ≡ₚ nodes ∧
  ∀ i j a b, sortedNodes nodes conns !! i = Some a → sortedNodes nodes conns !! j = Some b → (i < j)%nat →
    (no_incoming conns b → no_incoming conns a) ∧
    ((no_incoming conns a ↔ no_incoming conns b) →
     (or_zero (gn_y a) < or_zero (gn_y b))%Qc ∨
     (or_zero (gn_y a) = or_zero (gn_y b) ∧ (or_zero (gn_x a) ≤ or_zero (gn_x b))%Qc)).
Proof.
  split; [apply sort_by_perm|]. intros i j a b Hi Hj Hij.
  pose proof (sort_by_sorted (goes_before (node_degrees nodes conns))
    (goes_before_asym _) (goes_before_ntrans _) nodes) as Hs.
  assert (goes_before (node_degrees nodes conns) b a = false) as Hf.
  { apply (sorted_lookup _ _ _ _ _ _ Hs Hi Hj Hij). }
  apply goes_before_false in Hf. rewrite <- !(is_root_spec nodes). destruct Hf as [H1 H2].
  split; [done|]. intros Heq. apply H2. by apply Bool.eq_iff_eq_true.
Qed.
