(* ===== verification/DynamicNode.v ===== *)
(** * Node classes from the backend (utils/dynamic_node_factory.js)

    The backend sends a list of node types; for each a node class is made from
    its schemas and put in the registry, and types that are not in the list are
    taken out.  The registry belongs to the Odoo web client: [OdooRegistry] is
    the part of it that is used here.  [JSON.parse] of a schema sent as text and
    the printing of numbers are arguments. *)

From S2P Require Import Prelude JsMap JsValue JsString Socket Control Node Editor EditorInv Adapter AdapterInv Nodes.

(** A registry is the list of its entries. *)
Class OdooRegistry := {
  reg_add : ∀ {V}, string → V → list (string * V) → list (string * V);  (* with [force: true] *)
  reg_remove : ∀ {V}, string → list (string * V) → list (string * V);
}.

Class OdooRegistryLaws `{OdooRegistry} := {
  reg_add_get : ∀ {V} k k' (v : V) r, jget k (reg_add k' v r) = if k =s k' then Some v else jget k r;
  reg_remove_get : ∀ {V} k k' (r : list (string * V)),
    jget k (reg_remove k' r) = if k =s k' then None else jget k r;
  reg_add_nodup : ∀ {V} k (v : V) r, NoDup (jkeys r) → NoDup (jkeys (reg_add k v r));
  reg_remove_nodup : ∀ {V} k (r : list (string * V)), NoDup (jkeys r) → NoDup (jkeys (reg_remove k r));
}.

Definition DEFAULT_NODE_ICON : string := "fa-cube".
Definition DEFAULT_NODE_CATEGORY : string := "transform".
Definition DEFAULT_CATEGORY_ICON : string := "fa-cube".

Definition SOCKET_BY_NAME : list (string * socket) :=
  [("data", DataSocket); ("error", ErrorSocket); ("trigger", TriggerSocket)].

Definition CATEGORY_LABELS : list (string * string) :=
  [("trigger", "Triggers"); ("action", "Actions"); ("flow", "Flow Control"); ("data", "Data");
   ("integration", "Integrations"); ("transform", "Transform")].

Definition strings (l : list string) : jsval := JArr (JStr <$> l).

Definition HTTP_CONTROL_SUGGESTION_DEFAULTS : list (string * jsobj) :=
  [("url", [("suggestions", strings ["https://api.example.com"; "https://httpbin.org/anything"])]);
   ("query_params", [("suggestionsByKey", JObj
      [("limit", strings ["10"; "20"; "50"; "100"]); ("offset", strings ["0"; "10"; "20"]);
       ("page", strings ["1"; "2"; "3"]); ("sort", strings ["asc"; "desc"]);
       ("status", strings ["active"; "inactive"])])]);
   ("auth", [("suggestionsByKey", JObj
      [("header_name", strings ["Authorization"; "X-API-Key"]);
       ("key_name", strings ["X-API-Key"; "api_key"]);
       ("scope", strings ["read"; "write"; "read write"])])]);
   ("body_config", [("suggestionsByKey", JObj [("form_data_value", strings ["true"; "false"; "null"])])]);
   ("headers", [("suggestionsByKey", JObj
      [("Content-Type", strings ["application/json"; "application/x-www-form-urlencoded";
                                 "multipart/form-data"]);
       ("Accept", strings ["application/json"; "*/*"]);
       ("Authorization", strings ["Bearer "])])])].

(** ** Normalization *)

(** The loop that adds the metadata a control does not have yet. *)
Definition add_missing (control defaultMeta : jsobj) : jsobj :=
  foldl (λ c kv, if jhas kv.1 c then c else oset kv.1 kv.2 c) (ospread [] control) defaultMeta.

(** [withHttpSuggestionDefaults(nodeType, schema)], on a plain object *)
Definition withHttpSuggestionDefaults (nodeType : string) (schema : jsobj) : jsobj :=
  if negb (nodeType =s "http") then schema
  else
    foldl (λ merged kv,
      match oprop merged kv.1 with
      | JObj control => oset kv.1 (JObj (add_missing control kv.2)) merged
      | _ => merged
      end) (ospread [] schema) HTTP_CONTROL_SUGGESTION_DEFAULTS.

Definition getNodeTypeKey (entry : jsval) : string :=
  match entry with
  | JObj _ | JArr _ =>
      match js_or (prop entry "node_type") (js_or (prop entry "nodeType") (prop entry "key")) with
      | JStr key => trim key
      | _ => ""
      end
  | _ => ""
  end.

(** [humanizeKey(key)], on a string *)
Definition humanizeKey (key : string) : string :=
  join " " (capitalize <$> bfilter (λ w, negb (w =s "")) (split_on "_" key)).

Definition normalizeControlSchema (rawSchema : jsval) : jsobj :=
  match rawSchema with
  | JStr s => if s =s "" then [] else [("type", rawSchema)]
  | JObj o => o
  | _ => []
  end.

Definition normalizeSocketName (rawType : jsval) : string :=
  match rawType with
  | JStr s =>
      let normalized := toLowerCase (trim s) in
      let normalized := default normalized (strip_suffix "socket" normalized) in
      if normalized =s "" then "data" else normalized
  | _ => "data"
  end.

Definition resolveSocket (socketDefinition : jsval) : socket :=
  let socketType :=
    match socketDefinition with
    | JStr _ => normalizeSocketName socketDefinition
    | JObj o =>
        match oprop o "type", oprop o "socket" with
        | JStr t, _ => normalizeSocketName (JStr t)
        | _, JStr t => normalizeSocketName (JStr t)
        | _, _ => "data"
        end
    | _ => "data"
    end in
  default DataSocket (jget socketType SOCKET_BY_NAME).

Definition getDefaultValue (schema : jsobj) (fallback : jsval) : jsval :=
  if jhas "default" schema then oprop schema "default"
  else if jhas "defaultValue" schema then oprop schema "defaultValue"
  else fallback.

Definition normalizeControlType (rawType : jsval) : string :=
  match rawType with
  | JStr s => let normalized := toLowerCase (trim s) in if normalized =s "" then "text" else normalized
  | _ => "text"
  end.

Definition getSuggestionOptions (schema : jsobj) : jsobj :=
  let copy_array (k : string) (o : jsobj) := if is_array (oprop schema k) then oset k (oprop schema k) o else o in
  let options := copy_array "expressionSuggestions" (copy_array "valueSuggestions" (copy_array "suggestions" [])) in
  if is_plain_object (oprop schema "suggestionsByKey")
  then oset "suggestionsByKey" (oprop schema "suggestionsByKey") options else options.

(** [typeof v === "string" ? v : d] *)
Definition string_or (v : jsval) (d : string) : string := if v is JStr s then s else d.

(** [typeof v === "string" && v ? v : d] *)
Definition nonempty_or (v : jsval) (d : string) : string :=
  if v is JStr s then (if s =s "" then d else s) else d.

Definition with_section (c : control) (s : jsval) : control :=
  Control (ctl_key c) (ctl_type c) (ctl_label c) (ctl_value c) (ctl_suggestions c)
    (ctl_valueSuggestions c) (ctl_expressionSuggestions c) (ctl_suggestionsByKey c)
    s (ctl_visibleWhen c) (ctl_kind c).
Definition with_visibleWhen (c : control) (v : jsval) : control :=
  Control (ctl_key c) (ctl_type c) (ctl_label c) (ctl_value c) (ctl_suggestions c)
    (ctl_valueSuggestions c) (ctl_expressionSuggestions c) (ctl_suggestionsByKey c)
    (ctl_section c) v (ctl_kind c).

(** [control.type = ty] *)
Definition with_type (c : control) (ty : string) : control := with_kind c ty (ctl_kind c).

Section factory.
Context `{OdooRegistry}.
Context (json_parse : string → option jsval).   (* [None]: it throws *)
Context (num_toString : num → string).

Definition normalizeSchema (rawSchema : jsval) : jsobj :=
  match rawSchema with
  | JStr s =>
      if s =s "" then [] else match json_parse s with Some (JObj o) => o | _ => [] end
  | JObj o => o
  | _ => []
  end.

(** The loop body of [normalizeSelectOptions]. *)
Definition select_option (option : jsval) : list jsval :=
  let row (value label : jsval) :=
    [JObj [("value", JStr (js_String num_toString value)); ("label", JStr (js_String num_toString label))]] in
  match option with
  | JObj o =>
      let value := if jhas "value" o then oprop o "value" else oprop o "label" in
      let label := if jhas "label" o then oprop o "label" else oprop o "value" in
      if is_nullish value then [] else row value (js_nullish label value)
  | _ => if is_nullish option then [] else row option option
  end.

Definition normalizeSelectOptions (rawOptions : jsval) : list jsval := as_array rawOptions ≫= select_option.

(** The [switch] of [createControl]. *)
Definition control_of_type (controlKey controlType label placeholder : string) (schema : jsobj) : control :=
  let sugg := getSuggestionOptions schema in
  let labelled (o : jsobj) := ospread (("label", JStr label) :: o) sugg in
  if controlType =s "select" then
    SelectControl_new controlKey (labelled
      [("options", JArr (normalizeSelectOptions (oprop schema "options")));
       ("default", getDefaultValue schema JUndef)])
  else if controlType =s "number" then
    NumberControl_new controlKey (labelled
      [("min", oprop schema "min"); ("max", oprop schema "max"); ("step", oprop schema "step");
       ("default", getDefaultValue schema (JInt 0))])
  else if (controlType =s "boolean") || (controlType =s "checkbox") then
    CheckboxControl_new controlKey (labelled
      [("default", JBool (truthy (getDefaultValue schema (JBool false))))])
  else if controlType =s "keyvalue" then
    KeyValueControl_new controlKey (labelled
      [("keyPlaceholder", JStr (string_or (oprop schema "keyPlaceholder") "Key"));
       ("valuePlaceholder", JStr (string_or (oprop schema "valuePlaceholder") "Value"));
       ("default", getDefaultValue schema (JArr []))])
  else if controlType =s "code" then
    CodeControl_new controlKey (labelled
      [("language", JStr (string_or (oprop schema "language") "python"));
       ("height", if oprop schema "height" is JNum n then JNum n else JInt 200);
       ("placeholder", JStr placeholder); ("default", getDefaultValue schema (JStr ""))])
  else if controlType =s "auth" then
    AuthControl_new controlKey (labelled
      [("default", getDefaultValue schema (JObj [("type", JStr "none")]))])
  else if controlType =s "body_type" then
    BodyTypeControl_new controlKey (labelled
      [("default", getDefaultValue schema
          (JObj [("content_type", JStr "none"); ("body", JStr ""); ("form_data", JArr [])]))])
  else if controlType =s "query_params" then
    QueryParamsControl_new controlKey (labelled [("default", getDefaultValue schema (JArr []))])
  else if controlType =s "model_select" then
    with_type (TextInputControl_new controlKey (labelled
      [("placeholder", JStr placeholder); ("multiline", JBool false);
       ("default", getDefaultValue schema (JStr ""))])) "model_select"
  else if controlType =s "domain" then
    with_type (TextInputControl_new controlKey (labelled
      [("placeholder", JStr "[]"); ("multiline", JBool false);
       ("default", getDefaultValue schema (JStr "[]"))])) "domain"
  else if controlType =s "field_values" then
    with_type (TextInputControl_new controlKey (labelled
      [("placeholder", JStr "{}"); ("multiline", JBool false);
       ("default", getDefaultValue schema (JStr "{}"))])) "field_values"
  else
    let defaultMultiline := (controlType =s "text") || (controlType =s "json") in
    let control := TextInputControl_new controlKey (labelled
      [("placeholder", JStr placeholder);
       ("multiline", JBool (strict_eq (oprop schema "multiline") (JBool true) || defaultMultiline));
       ("default", getDefaultValue schema (JStr ""))]) in
    if controlType =s "expression" then with_type control "expression" else control.

Definition createControl (controlKey : string) (rawSchema : jsval) : control :=
  let schema := normalizeControlSchema rawSchema in
  let controlType := normalizeControlType (oprop schema "type") in
  let label := nonempty_or (oprop schema "label") (humanizeKey controlKey) in
  let placeholder := string_or (oprop schema "placeholder") "" in
  let control := control_of_type controlKey controlType label placeholder schema in
  let control :=
    if nonempty_or (oprop schema "section") "" =s "" then control
    else with_section control (oprop schema "section") in
  match oprop schema "visibleWhen" with
  | JObj _ | JArr _ => with_visibleWhen control (oprop schema "visibleWhen")
  | _ => control
  end.

(** ** Classes *)

Definition socketDefToLabel (socketDef : jsval) : jsval :=
  js_or (if socketDef is JObj o then oprop o "label" else JUndef) (JStr "").

Definition build_input (n : node) (kv : string * jsval) : node :=
  if kv.1 =s "" then n
  else
    let multiple := if kv.2 is JObj o then strict_eq (oprop o "multiple") (JBool true) else false in
    addInput n kv.1 (resolveSocket kv.2) (socketDefToLabel kv.2) (JBool multiple).

Definition build_output (n : node) (kv : string * jsval) : node :=
  if kv.1 =s "" then n else addOutput n kv.1 (resolveSocket kv.2) (socketDefToLabel kv.2).

Definition build_control (n : node) (kv : string * jsval) : node :=
  if kv.1 =s "" then n
  else
    let schema := normalizeControlSchema kv.2 in
    if truthy (oprop schema "hidden")
    then with_hidden n (Some (oset kv.1 (getDefaultValue schema (JStr "")) (default [] (hiddenDefaults n))))
    else addControl n kv.1 (createControl kv.1 kv.2).

(** The constructor of [DynamicNode], from what [super()] leaves. *)
Definition DynamicNode_new (base : node) (inputSchema outputSchema configSchema : jsobj) : node :=
  let n := with_hidden base (Some []) in
  let n := foldl build_input n inputSchema in
  let n := foldl build_output n outputSchema in
  foldl build_control n configSchema.

Definition createDynamicNodeClass (typeDef : jsval) : node_class :=
  let nodeType := getNodeTypeKey typeDef in
  let nodeLabel := nonempty_or (prop typeDef "name") (humanizeKey nodeType) in
  let nodeIcon := nonempty_or (prop typeDef "icon") DEFAULT_NODE_ICON in
  let nodeCategory := nonempty_or (prop typeDef "category") DEFAULT_NODE_CATEGORY in
  let nodeDescription := string_or (prop typeDef "description") "" in
  let configSchema := withHttpSuggestionDefaults nodeType (normalizeSchema (prop typeDef "config_schema")) in
  let inputSchema := normalizeSchema (prop typeDef "input_schema") in
  let outputSchema := normalizeSchema (prop typeDef "output_schema") in
  NodeClass nodeType nodeLabel nodeIcon nodeCategory nodeDescription (string_or (prop typeDef "group") "")
    (DynamicNode_new (BaseNode_new nodeType nodeLabel nodeIcon nodeCategory)
       inputSchema outputSchema configSchema).

(** ** The registries *)

Definition ensureCategory (categories : list (string * jsobj)) (categoryKey : jsval)
    : list (string * jsobj) :=
  match categoryKey with
  | JStr k =>
      if (k =s "") || jhas k categories then categories
      else reg_add k
             [("name", JStr (default (humanizeKey k) (jget k CATEGORY_LABELS)));
              ("icon", JStr DEFAULT_CATEGORY_ICON); ("description", JStr "")] categories
  | _ => categories
  end.

(** The entry of a class. *)
Definition dynamic_entry (cls : node_class) : registry_entry :=
  DefEntry cls
    [("name", JStr (nc_label cls)); ("icon", JStr (nc_icon cls)); ("category", JStr (nc_category cls));
     ("description", JStr (nc_description cls)); ("group", JStr (nc_group cls))].

(** The step of the first loop: the categories, the registry and [nextKeys]. *)
Definition register_one (st : list (string * jsobj) * odoo_registry * list string) (typeDef : jsval)
    : list (string * jsobj) * odoo_registry * list string :=
  let '(categories, reg, nextKeys) := st in
  let nodeType := getNodeTypeKey typeDef in
  if nodeType =s "" then st
  else
    let nextKeys := if bool_decide (nodeType ∈ nextKeys) then nextKeys else nextKeys ++ [nodeType] in
    let categories := ensureCategory categories (js_or (prop typeDef "category") (JStr DEFAULT_NODE_CATEGORY)) in
    (categories, reg_add nodeType (dynamic_entry (createDynamicNodeClass typeDef)) reg, nextKeys).

(** The second loop: types the backend did not send. *)
Definition drop_stale (nextKeys : list string) (reg : odoo_registry) : odoo_registry :=
  foldl (λ r k, if bool_decide (k ∈ nextKeys) then r else reg_remove k r) reg (jkeys reg).

Definition registerBackendNodeTypes (categories : list (string * jsobj)) (reg : odoo_registry)
    (typeDefs : jsval) : list (string * jsobj) * odoo_registry * list string :=
  let '(categories, reg, nextKeys) := foldl register_one (categories, reg, []) (as_array typeDefs) in
  (categories, drop_stale nextKeys reg, nextKeys).
End factory.

(** ** Fresh nodes *)

Section factory_facts.
Context (json_parse : string → option jsval) (num_toString : num → string).

Lemma foldl_ind {A B} (P : A → Prop) (f : A → B → A) l a :
  P a → (∀ a b, P a → P (f a b)) → P (foldl f a l).
Proof using Type. revert a. induction l as [|b l IH]; intros a Ha Hf; simpl; [done|]. apply IH; auto. Qed.

Definition typed (ty : string) (n : node) : Prop := fresh_ok n ∧ node_type n = ty.

Lemma DynamicNode_typed ty l i c ins outs cfg :
  typed ty (DynamicNode_new num_toString (BaseNode_new ty l i c) ins outs cfg).
Proof using Type.
  unfold DynamicNode_new. repeat apply foldl_ind.
  - split; [apply fresh_ok_base|done].
  - intros n [k d] [Hf Ht]. unfold build_input. destruct (_ =s _); split; auto with js.
  - intros n [k d] [Hf Ht]. unfold build_output. destruct (_ =s _); split; auto with js.
  - intros n [k d] [Hf Ht]. unfold build_control. destruct (_ =s _); [done|].
    destruct (truthy _); split; auto with js.
Qed.

Lemma createDynamicNodeClass_ok td :
  let cls := createDynamicNodeClass json_parse num_toString td in
  class_ok cls ∧ node_type (nc_new cls) = getNodeTypeKey td ∧ node_id (nc_new cls) = None.
Proof using Type.
  intros cls. destruct (DynamicNode_typed (getNodeTypeKey td)
    (nonempty_or (prop td "name") (humanizeKey (getNodeTypeKey td)))
    (nonempty_or (prop td "icon") DEFAULT_NODE_ICON) (nonempty_or (prop td "category") DEFAULT_NODE_CATEGORY)
    (normalizeSchema json_parse (prop td "input_schema")) (normalizeSchema json_parse (prop td "output_schema"))
    (withHttpSuggestionDefaults (getNodeTypeKey td) (normalizeSchema json_parse (prop td "config_schema"))))
    as [Hf Ht].
  apply (fresh_ok_class cls) in Hf as [Hc Hi]. done.
Qed.

(** ** Configurations *)

Definition hidden_def (d : jsval) : bool := truthy (oprop (normalizeControlSchema d) "hidden").

Lemma build_controls_get schema n k :
  NoDup (jkeys schema) →
  let n' := foldl (build_control num_toString) n schema in
  jget k (controls n') =
    (if k =s "" then jget k (controls n)
     else match jget k schema with
          | Some d => if hidden_def d then jget k (controls n) else Some (createControl num_toString k d)
          | None => jget k (controls n)
          end) ∧
  jget k (default [] (hiddenDefaults n')) =
    (if k =s "" then jget k (default [] (hiddenDefaults n))
     else match jget k schema with
          | Some d => if hidden_def d then Some (getDefaultValue (normalizeControlSchema d) (JStr ""))
                      else jget k (default [] (hiddenDefaults n))
          | None => jget k (default [] (hiddenDefaults n))
          end).
Proof using Type.
  revert n. induction schema as [|[k1 d1] schema IH]; intros n; [by destruct (k =s "")|].
  unfold jkeys. csimpl. intros [Hn Hd]%NoDup_cons. destruct (IH (build_control num_toString n (k1, d1)) Hd) as [-> ->].
  clear IH. unfold build_control. unfold hidden_def in *. csimpl.
  destruct (bool_decide_reflect (k = k1)) as [->|Hk].
  - apply not_elem_of_jkeys in Hn as ->. destruct (bool_decide_reflect (k1 = "")); [done|].
    destruct (truthy _); csimpl; rewrite ?jget_oset_eq; done.
  - destruct (bool_decide_reflect (k1 = "")); [done|].
    destruct (truthy _); csimpl; rewrite ?(jget_oset_ne k k1) by done; done.
Qed.

Lemma build_control_hidden schema n :
  is_Some (hiddenDefaults n) → is_Some (hiddenDefaults (foldl (build_control num_toString) n schema)).
Proof using Type.
  intros Hs. apply (foldl_ind (λ n, is_Some (hiddenDefaults n))); [done|]. intros m [k d] Hm.
  unfold build_control. destruct (_ =s _); [done|]. by destruct (truthy _).
Qed.

Lemma sockets_leave ins outs base :
  let n := foldl build_output (foldl build_input (with_hidden base (Some [])) ins) outs in
  controls n = controls base ∧ hiddenDefaults n = Some [].
Proof using Type.
  intros n. unfold n. apply (foldl_ind (λ n, controls n = controls base ∧ hiddenDefaults n = Some [])).
  - apply (foldl_ind (λ n, controls n = controls base ∧ hiddenDefaults n = Some [])); [done|].
    intros m [k d] Hm. unfold build_input. by destruct (_ =s _).
  - intros m [k d] Hm. unfold build_output. by destruct (_ =s _).
Qed.
End factory_facts.

(** ** The registries *)

Section registry_facts.
Context `{OdooRegistry} {HL : OdooRegistryLaws}.

Lemma drop_stale_get nextKeys reg k :
  jget k (drop_stale nextKeys reg) = if bool_decide (k ∈ nextKeys) then jget k reg else None.
Proof using HL.
  assert (∀ l r, jget k (foldl (λ (r : odoo_registry) k, if bool_decide (k ∈ nextKeys) then r else reg_remove k r) r l) =
    if bool_decide (k ∈ nextKeys) then jget k r else if bool_decide (k ∈ l) then None else jget k r) as Hl.
  { intros l. induction l as [|k1 l IH]; intros r; cbn [foldl].
    - rewrite (bool_decide_false (k ∈ [])) by set_solver. by destruct (bool_decide _).
    - rewrite IH. destruct (bool_decide_reflect (k1 ∈ nextKeys)) as [H1|H1].
      + destruct (bool_decide_reflect (k ∈ nextKeys)) as [H2|H2]; [done|].
        by rewrite (bool_decide_ext (k ∈ k1 :: l) (k ∈ l)) by set_solver.
      + rewrite reg_remove_get. destruct (bool_decide_reflect (k = k1)) as [->|Hk].
        * rewrite (bool_decide_false (k1 ∈ nextKeys)) by done. rewrite (bool_decide_true (k1 ∈ k1 :: l)) by left.
          by destruct (bool_decide (k1 ∈ l)).
        * by rewrite (bool_decide_ext (k ∈ k1 :: l) (k ∈ l)) by set_solver. }
  unfold drop_stale. rewrite Hl. case_bool_decide; [done|]. case_bool_decide as Hk; [done|].
  by apply not_elem_of_jkeys.
Qed.

Lemma drop_stale_nodup nextKeys reg : NoDup (jkeys reg) → NoDup (jkeys (drop_stale nextKeys reg)).
Proof using HL.
  intros Hd. unfold drop_stale. apply (foldl_ind (λ r : odoo_registry, NoDup (jkeys r))); [done|].
  intros r k Hr. case_bool_decide; [done|]. by apply reg_remove_nodup.
Qed.

Context (json_parse : string → option jsval) (num_toString : num → string).

(** The definition of a type that counts: the last one. *)
Definition last_def (tds : list jsval) (k : string) : option jsval :=
  find_first (λ td, getNodeTypeKey td =s k) (reverse tds).

Lemma last_def_snoc tds td k :
  last_def (tds ++ [td]) k = if getNodeTypeKey td =s k then Some td else last_def tds k.
Proof using Type. unfold last_def. by rewrite reverse_snoc. Qed.

Lemma register_loop tds categories reg :
  NoDup (jkeys reg) →
  let '(_, reg', keys) := foldl (register_one json_parse num_toString) (categories, reg, []) tds in
  NoDup (jkeys reg') ∧ NoDup keys ∧
  (∀ k, k ∈ keys ↔ k ≠ "" ∧ is_Some (last_def tds k)) ∧
  (∀ k, k ∈ keys → jget k reg' =
     (λ td, dynamic_entry (createDynamicNodeClass json_parse num_toString td)) <$> last_def tds k).
Proof using HL.
  intros Hd. induction tds as [|td tds IH] using rev_ind.
  { simpl. split_and!; [done|constructor| |set_solver]. intros k. split; [set_solver|]. by intros [_ []]. }
  rewrite foldl_snoc. destruct (foldl _ _ tds) as [[cats reg1] keys]. destruct IH as (H1 & H2 & H3 & H4).
  unfold register_one. destruct (bool_decide_reflect (getNodeTypeKey td = "")) as [He|He].
  - split_and!; [done|done| |].
    + intros k. rewrite H3, last_def_snoc, He. case_bool_decide; [naive_solver|done].
    + intros k Hk. rewrite H4, last_def_snoc, He by done. case_bool_decide; [|done].
      apply H3 in Hk as [? _]. congruence.
  - split_and!.
    + by apply reg_add_nodup.
    + case_bool_decide; [done|]. apply NoDup_app. split_and!; [done| |apply NoDup_singleton]. set_solver.
    + intros k. rewrite last_def_snoc. transitivity (k = getNodeTypeKey td ∨ k ∈ keys).
      { case_bool_decide; set_solver. }
      rewrite H3. case_bool_decide as Hk; [|naive_solver]. subst. naive_solver.
    + intros k Hk. rewrite reg_add_get, last_def_snoc.
      destruct (bool_decide_reflect (k = getNodeTypeKey td)) as [->|Hne]; [by rewrite bool_decide_true|].
      rewrite bool_decide_false by done. apply H4. case_bool_decide; [done|]. set_solver.
Qed.
End registry_facts.

(** A registry as the list of its entries in the order they were added. *)
#[export] Instance list_registry : OdooRegistry := {|
  reg_add V k v r := mset k v r;
  reg_remove V k r := jdel k r;
|}.

#[export] Instance list_registry_laws : OdooRegistryLaws.
Proof.
  split; simpl; intros.
  - apply jget_mset.
  - apply jget_jdel.
  - by apply NoDup_jkeys_mset.
  - by apply NoDup_jkeys_jdel.
Qed.

(** What registering does, all together. *)
Lemma register_all `{OdooRegistry} `{!OdooRegistryLaws} json_parse num_toString
    categories reg typeDefs :
  NoDup (jkeys reg) →
  let '(_, reg', keys) := registerBackendNodeTypes json_parse num_toString categories reg typeDefs in
  (∀ k, jget k reg' =
     if k =s "" then None
     else (λ td, dynamic_entry (createDynamicNodeClass json_parse num_toString td)) <$>
            last_def (as_array typeDefs) k) ∧
  NoDup keys ∧ (∀ k, k ∈ keys ↔ k ∈ jkeys reg') ∧ odoo_ok reg'.
Proof.
  intros Hd. unfold registerBackendNodeTypes.
  pose proof (register_loop json_parse num_toString (as_array typeDefs) categories reg Hd) as Hl.
  destruct (foldl _ _ _) as [[cats reg1] keys]. destruct Hl as (H1 & H2 & H3 & H4).
  assert (∀ k, jget k (drop_stale keys reg1) =
     if k =s "" then None
     else (λ td, dynamic_entry (createDynamicNodeClass json_parse num_toString td)) <$>
            last_def (as_array typeDefs) k) as Hget.
  { intros k. rewrite drop_stale_get. case_bool_decide as Hk.
    - rewrite H4 by done. apply H3 in Hk as [Hne _]. by rewrite bool_decide_false.
    - destruct (bool_decide_reflect (k = "")); [done|].
      destruct (last_def (as_array typeDefs) k) eqn:E; [|done]. destruct Hk. apply H3. rewrite E. eauto. }
  split_and!; [done|done| |].
  - intros k. rewrite H3, elem_of_jkeys, Hget. destruct (bool_decide_reflect (k = "")) as [->|Hk].
    + split; [by intros []|by intros []].
    + rewrite fmap_is_Some. tauto.
  - split; [by apply drop_stale_nodup|]. intros k en. rewrite Hget. case_bool_decide; [done|].
    destruct (last_def (as_array typeDefs) k) as [td|] eqn:E; [|done]. intros [= <-].
    apply find_first_Some in E as [_ Ek]. bsimpl. subst k.
    apply (createDynamicNodeClass_ok json_parse num_toString td).
Qed.

(** ** Properties *)

(** after the types of the backend are registered, the registry holds one
    class for each type the backend sent, made from the last definition with
    that key, and nothing else, whatever it held before; the returned keys are
    those of the registry, without repetition; and the registry is one that the
    adapter can rely on ([odoo_ok]). *)
Theorem registerBackendNodeTypes_exact `{OdooRegistry} `{!OdooRegistryLaws} json_parse num_toString
    categories reg typeDefs :
  NoDup (jkeys reg) →
  let '(_, reg', keys) := registerBackendNodeTypes json_parse num_toString categories reg typeDefs in
  (∀ k, jget k reg' =
     if k =s "" then None
     else (λ td, dynamic_entry (createDynamicNodeClass json_parse num_toString td)) <$>
            last_def (as_array typeDefs) k) ∧
  NoDup keys ∧ (∀ k, k ∈ keys ↔ k ∈ jkeys reg') ∧ odoo_ok reg'.
Proof. apply register_all. Qed.

(** An answer of the backend: two types, one sent twice. *)
Definition demo_types : jsval :=
  JArr [JObj [("node_type", JStr "record"); ("name", JStr "Record");
              ("config_schema", JObj [("model", JStr "model_select");
                 ("mode", JObj [("type", JStr "select"); ("hidden", JBool true); ("default", JStr "create")])])];
        JObj [("node_type", JStr " http "); ("config_schema", JObj [("url", JObj [("type", JStr "text")])])];
        JObj [("name", JStr "no key")];
        JObj [("node_type", JStr "record"); ("name", JStr "Record v2")]].

Lemma registerBackendNodeTypes_exact_witness :
  let '(_, reg', keys) :=
    registerBackendNodeTypes (λ _, None) (λ _, "") []
      [("old", RawClass NoOpNode)] demo_types in
  keys = ["record"; "http"] ∧ odoo_ok reg'.
Proof.
  pose proof (registerBackendNodeTypes_exact (λ _, None) (λ _, "") []
    [("old", RawClass NoOpNode)] demo_types (NoDup_singleton "old")) as Hx.
  assert ((registerBackendNodeTypes (λ _, None) (λ _, "") [] [("old", RawClass NoOpNode)] demo_types).2 =
          ["record"; "http"]) as Hk by (vm_compute; reflexivity).
  destruct (registerBackendNodeTypes _ _ _ _ _) as [[c r] ks].
  split; [exact Hk|exact (proj2 (proj2 (proj2 Hx)))].
Defined.

(** the configuration of a fresh node of a backend type has an entry for
    every setting of the schema and no other: the value of its control, or the
    default where the setting is hidden and has no control. *)
Theorem dynamic_config_exact num_toString ty label icon category ins outs schema k :
  NoDup (jkeys schema) →
  jget k (getConfig (DynamicNode_new num_toString (BaseNode_new ty label icon category) ins outs schema)) =
    if k =s "" then None
    else (λ d, if hidden_def d then getDefaultValue (normalizeControlSchema d) (JStr "")
               else getValue (createControl num_toString k d)) <$> jget k schema.
Proof.
  intros Hd. set (n := DynamicNode_new _ _ _ _ _).
  destruct (sockets_leave ins outs (BaseNode_new ty label icon category)) as [Hc Hh].
  destruct (build_controls_get num_toString schema
    (foldl build_output (foldl build_input (with_hidden (BaseNode_new ty label icon category) (Some [])) ins) outs)
    k Hd) as [Gc Gh]. rewrite Hc in Gc. rewrite Hh in Gh.
  change (foldl (build_control num_toString) (foldl build_output
    (foldl build_input (with_hidden (BaseNode_new ty label icon category) (Some [])) ins) outs) schema) with n in Gc, Gh.
  destruct (DynamicNode_typed num_toString ty label icon category ins outs schema) as [(Hok & _) _]. fold n in Hok.
  assert (jget k (BaseNode_getConfig n) = getValue <$> jget k (controls n)) as Hb.
  { unfold BaseNode_getConfig, control_values. rewrite ospread_nil_l by auto with js. apply jget_map. }
  assert (is_Some (hiddenDefaults n)) as [h Hn].
  { unfold n, DynamicNode_new. apply build_control_hidden. rewrite Hh. eauto. }
  unfold getConfig. rewrite Hn in Gh |- *. simpl default in Gh. rewrite jget_add_hidden, Hb, Gc, Gh.
  destruct (k =s ""); [done|]. destruct (jget k schema) as [d|]; [|done]. csimpl. by destruct (hidden_def d).
Qed.

Lemma dynamic_config_exact_witness :
  let n := DynamicNode_new (λ _, "") (BaseNode_new "record" "Record" "" "data") [] []
    [("model", JStr "model_select");
     ("mode", JObj [("type", JStr "select"); ("hidden", JBool true); ("default", JStr "create")])] in
  jget "mode" (getConfig n) = Some (JStr "create").
Proof.
  etransitivity; [apply (dynamic_config_exact (λ _, "") "record" "Record" "" "data" [] []
    [("model", JStr "model_select");
     ("mode", JObj [("type", JStr "select"); ("hidden", JBool true); ("default", JStr "create")])] "mode")|].
  - apply (bool_decide_unpack _). vm_compute. exact I.
  - vm_compute. reflexivity.
Defined.
