(* ===== verification/NodeRegistry.v ===== *)
(** * Lookups in the node registry (utils/node_registry.js) and loading it
      (store/workflow_store.js, [loadNodeTypes])

    What the node menu shows: the registered types with the display data the
    backend sent, grouped by category, and the types used last.  The registries
    are lists of entries, as in [DynamicNode]; [fuzzyLookup] belongs to the Odoo
    web client and is an argument. *)

From S2P Require Import Prelude JsMap JsValue JsString Control Node Nodes Editor EditorInv Adapter AdapterInv AdapterRun Store DynamicNode.

Record type_info := TypeInfo {
  ti_key : string;
  ti_class : node_class;
  ti_name : jsval;
  ti_icon : jsval;
  ti_category : jsval;
  ti_description : jsval;
  ti_group : jsval;
}.

Definition MAX_RECENT : nat := 10.

Section node_registry.
(** The JavaScript name of a class, which a bare class in the registry has as
    its [name]. *)
Context (class_name : node_class → string).

(** [value[k]] of a registry entry. *)
Definition entry_prop (value : registry_entry) (k : string) : jsval :=
  match value with
  | DefEntry _ data => oprop data k
  | RawClass cls =>
      if k =s "name" then JStr (class_name cls)
      else if k =s "icon" then JStr (nc_icon cls)
      else if k =s "category" then JStr (nc_category cls)
      else if k =s "description" then JStr (nc_description cls)
      else if k =s "group" then JStr (nc_group cls)
      else JUndef
  end.

(** The display data of a type: from the backend's entry ([JUndef] when there
    is none), the class, the registry entry, and a default. *)
Definition describe (key : string) (value : registry_entry) (entry : jsval) : type_info :=
  let cls := entry_class value in
  let pick k c d := js_or (prop entry k) (js_or (JStr c) (js_or (entry_prop value k) (JStr d))) in
  TypeInfo key cls (pick "name" (nc_label cls) key) (pick "icon" (nc_icon cls) "fa-cube")
    (pick "category" (nc_category cls) "action") (pick "description" (nc_description cls) "")
    (pick "group" (nc_group cls) "").

Definition getAllNodeTypes (reg : odoo_registry) (backendTypes : list jsval) : list type_info :=
  match backendTypes with
  | [] => (λ kv, describe kv.1 kv.2 JUndef) <$> reg
  | _ =>
      omap (λ entry,
        let key := getNodeTypeKey entry in
        if key =s "" then None
        else (λ value, describe key value entry) <$> jget key reg) backendTypes
  end.

Definition findBackendType (backendTypes : list jsval) (key : string) : option jsval :=
  find_first (λ entry, getNodeTypeKey entry =s key) backendTypes.

Definition getNodeType (reg : odoo_registry) (key : string) (backendTypes : list jsval) : option type_info :=
  (λ value, describe key value (default JUndef (findBackendType backendTypes key))) <$> jget key reg.

(** ** Categories *)

(** [value.sequence || 100]; a sequence is a number where there is one. *)
Definition category_sequence (value : jsobj) : num :=
  match oprop value "sequence" with
  | JNum n => if bool_decide (n = 0%Qc) then num_of_Z 100 else n
  | _ => num_of_Z 100
  end.

Definition getCategories (categories : list (string * jsobj)) : list (string * jsobj) :=
  sort_by (λ a b, bool_decide (category_sequence a.2 < category_sequence b.2)%Qc) categories.

Record group := Group { gr_key : string; gr_name : jsval; gr_icon : jsval; gr_nodes : list type_info }.

Definition in_category (key : string) (n : type_info) : bool := strict_eq (ti_category n) (JStr key).

Definition groupByCategory (categories : list (string * jsobj)) (nodes : list type_info) : list group :=
  let categories := getCategories categories in
  let grouped := omap (λ cat,
    match bfilter (in_category cat.1) nodes with
    | [] => None
    | catNodes => Some (Group cat.1 (oprop cat.2 "name") (oprop cat.2 "icon") catNodes)
    end) categories in
  match bfilter (λ n, negb (existsb (λ cat, in_category cat.1 n) categories)) nodes with
  | [] => grouped
  | uncategorized => grouped ++ [Group "default" (JStr "Other") (JStr "fa-cube") uncategorized]
  end.

Definition searchNodes (fuzzyLookup : string → list type_info → list type_info)
    (categories : list (string * jsobj)) (reg : odoo_registry)
    (searchValue : string) (category : jsval) (backendTypes : list jsval) : list group :=
  let nodes := getAllNodeTypes reg backendTypes in
  let nodes := if truthy category then bfilter (λ n, strict_eq (ti_category n) category) nodes else nodes in
  let nodes := if trim searchValue =s "" then nodes else fuzzyLookup searchValue nodes in
  groupByCategory categories nodes.

(** ** Types used last *)

Definition trackNodeUsage (recentNodeKeys : list string) (nodeKey : string) : list string :=
  take MAX_RECENT (nodeKey :: bfilter (λ k, negb (k =s nodeKey)) recentNodeKeys).

Definition pruneRecentNodes (recentNodeKeys validKeys : list string) : list string :=
  match validKeys with
  | [] => []
  | _ => bfilter (λ k, bool_decide (k ∈ validKeys)) recentNodeKeys
  end.

Definition clearRecentNodes : list string := [].

Definition getRecentNodes (reg : odoo_registry) (recentNodeKeys : list string) (limit : nat) : list type_info :=
  omap (λ k, getNodeType reg k []) (take limit recentNodeKeys).
End node_registry.

(** ** Loading *)

(** What is shared by the editors of a page. *)
Record page := Page {
  pg_categories : list (string * jsobj);
  pg_types : odoo_registry;
  pg_recent : list string;
}.

(** [loadNodeTypes()], after the answer of the backend. *)
Definition loadNodeTypes_response `{OdooRegistry} json_parse num_toString (g : page) (s : store) (result : jsval)
    : page * store :=
  let backendTypes := as_array result in
  let '(categories, reg, registeredKeys) :=
    registerBackendNodeTypes json_parse num_toString (pg_categories g) (pg_types g) (JArr backendTypes) in
  let g := Page categories reg (pruneRecentNodes (pg_recent g) registeredKeys) in
  (g, setNodeTypes (with_adapter s (refreshNodeRegistry reg (st_adapter s))) (JArr backendTypes)).

(** ** Facts *)

Lemma omap_groups_perm categories nodes :
  NoDup (jkeys categories) →
  concat (gr_nodes <$> omap (λ cat : string * jsobj,
      match bfilter (in_category cat.1) nodes with
      | [] => None
      | catNodes => Some (Group cat.1 (oprop cat.2 "name") (oprop cat.2 "icon") catNodes)
      end) categories) ≡ₚ bfilter (λ n, existsb (λ cat : string * jsobj, in_category cat.1 n) categories) nodes.
Proof.
  unfold jkeys. induction categories as [|[k o] cats IH]; csimpl.
  { intros _. by rewrite bfilter_none. }
  intros [Hn Hd]%NoDup_cons. specialize (IH Hd).
  assert (∀ n, in_category k n = true → existsb (λ cat, in_category cat.1 n) cats = false) as Hex.
  { intros n Hk. apply existsb_false_iff. intros [k' o'] Hin. unfold in_category, strict_eq in *. csimpl.
    destruct (ti_category n); try done. bsimpl. apply bool_decide_eq_false. intros ->. subst.
    apply Hn. by apply (list_elem_of_fmap_2 fst) in Hin. }
  transitivity (bfilter (in_category k) nodes ++ bfilter (λ n, existsb (λ cat, in_category cat.1 n) cats) nodes).
  { rewrite <- IH. by destruct (bfilter (in_category k) nodes). }
  clear IH. induction nodes as [|n nodes IHn]; csimpl; [done|].
  destruct (in_category k n) eqn:E; csimpl.
  - rewrite (Hex n E). by rewrite IHn.
  - destruct (existsb _ cats); csimpl; [|done]. by rewrite <- Permutation_middle, IHn.
Qed.

Definition recent_ok (l : list string) : Prop := NoDup l ∧ (length l ≤ MAX_RECENT)%nat.

Lemma trackNodeUsage_ok l k : recent_ok l → recent_ok (trackNodeUsage l k).
Proof.
  intros [Hd Hl]. unfold trackNodeUsage. split.
  - eapply sublist_NoDup; [|apply sublist_take]. constructor.
    + rewrite elem_of_bfilter, negb_true_iff, bool_decide_eq_false. tauto.
    + eapply sublist_NoDup; [exact Hd|apply bfilter_sublist].
  - rewrite length_take. lia.
Qed.

Lemma pruneRecentNodes_ok l ks : recent_ok l → recent_ok (pruneRecentNodes l ks).
Proof.
  intros [Hd Hl]. unfold pruneRecentNodes. destruct ks; [by split; [constructor|simpl; lia]|].
  pose proof (bfilter_sublist (λ k, bool_decide (k ∈ s :: ks)) l) as Hs.
  split; [by eapply sublist_NoDup|]. apply sublist_length in Hs. lia.
Qed.

(** ** Properties *)

(** grouping the types of the menu loses and repeats none: when categories
    have distinct keys, the groups together hold exactly the given types, no
    group is empty, and a type is in the group of its category, or in the last
    one when its category is not registered. *)
Theorem groupByCategory_partition categories nodes :
  NoDup (jkeys categories) →
  let groups := groupByCategory categories nodes in
  concat (gr_nodes <$> groups) ≡ₚ nodes ∧
  ∀ g, g ∈ groups → gr_nodes g ≠ [] ∧ ∀ n, n ∈ gr_nodes g →
    in_category (gr_key g) n = true ∨
    (gr_key g = "default" ∧ ∀ k, k ∈ jkeys categories → in_category k n = false).
Proof.
  intros Hd groups. unfold groups, groupByCategory. cbv zeta.
  pose proof (sort_by_perm (λ a b : string * jsobj,
    bool_decide (category_sequence a.2 < category_sequence b.2)%Qc) categories) as Hp.
  fold (getCategories categories) in Hp. set (cats := getCategories categories) in *.
  assert (NoDup (jkeys cats)) as Hdc by (unfold jkeys; by rewrite Hp).
  set (known n := existsb (λ cat : string * jsobj, in_category cat.1 n) cats).
  pose proof (omap_groups_perm cats nodes Hdc) as Hg. fold known in Hg.
  set (grouped := omap _ cats) in *.
  assert (∀ g, g ∈ grouped → gr_nodes g ≠ [] ∧ ∀ n, n ∈ gr_nodes g → in_category (gr_key g) n = true) as Hin.
  { intros g ([k o] & _ & Hb)%list_elem_of_omap.
    csimpl in Hb. destruct (bfilter (in_category k) nodes) as [|n0 ns] eqn:E; [done|].
    injection Hb as <-. split; [done|]. csimpl. intros n Hn. rewrite <- E in Hn. by apply elem_of_bfilter in Hn as [_ ?]. }
  assert (∀ n k, known n = false → k ∈ jkeys categories → in_category k n = false) as Hun.
  { intros n k Hk Hc. unfold known in Hk. rewrite existsb_false_iff in Hk.
    unfold jkeys in Hc. rewrite <- Hp in Hc. apply list_elem_of_fmap in Hc as (cat & -> & Hcat). by apply (Hk cat). }
  change (bfilter (λ n, negb (existsb (λ cat : string * jsobj, in_category cat.1 n) cats)) nodes)
    with (bfilter (λ n, negb (known n)) nodes).
  destruct (bfilter (λ n, negb (known n)) nodes) as [|u us] eqn:E.
  - split.
    + rewrite Hg. rewrite (bfilter_Permutation known nodes) at 2. by rewrite E.
    + intros g Hgr. destruct (Hin g Hgr) as [? Hn]. split; [done|]. intros n Hn'. left. by apply Hn.
  - split.
    + rewrite fmap_app, concat_app. csimpl. rewrite app_nil_r, Hg, <- E.
      rewrite Permutation_app_comm. symmetry. apply bfilter_Permutation.
    + intros g [Hgr|Hgr]%elem_of_app.
      * destruct (Hin g Hgr) as [? Hn]. split; [done|]. intros n Hn'. left. by apply Hn.
      * apply list_elem_of_singleton in Hgr as ->. split; [done|]. csimpl. intros n Hn. right. split; [done|].
        intros k Hk. rewrite <- E in Hn. apply elem_of_bfilter in Hn as [_ Hn]. apply negb_true_iff in Hn. by apply Hun.
Qed.

Definition demo_info (k c : string) : type_info :=
  TypeInfo k NoOpNode (JStr k) (JStr "") (JStr c) (JStr "") (JStr "").

Lemma groupByCategory_partition_witness :
  let categories := [("data", [("name", JStr "Data")]); ("flow", [("name", JStr "Flow")])] in
  let nodes := [demo_info "if" "flow"; demo_info "x" "other"; demo_info "code" "data"] in
  (gr_key <$> groupByCategory categories nodes) = ["data"; "flow"; "default"] ∧
  concat (gr_nodes <$> groupByCategory categories nodes) ≡ₚ nodes.
Proof.
  intros categories nodes. split; [vm_compute; reflexivity|].
  apply (groupByCategory_partition categories nodes).
  apply (bool_decide_unpack _). vm_compute. exact I.
Defined.

(** What happens to the list of types used last. *)
Inductive recent_op :=
| Track (key : string)
| Prune (validKeys : list string)
| ClearRecent.

Definition exec_recent (l : list string) (o : recent_op) : list string :=
  match o with
  | Track k => trackNodeUsage l k
  | Prune ks => pruneRecentNodes l ks
  | ClearRecent => clearRecentNodes
  end.

(** the list of types used last never repeats a type and never has more
    than ten, and the type used last comes first. *)
Theorem recent_bounded os k :
  let l := foldl exec_recent [] os in
  recent_ok l ∧ head (trackNodeUsage l k) = Some k.
Proof.
  split; [|done]. apply foldl_ind; [split; [constructor|simpl; lia]|].
  intros l [] Hl; simpl; auto using trackNodeUsage_ok, pruneRecentNodes_ok.
  split; [constructor|simpl; lia].
Qed.

(** when the types of the backend are loaded into an editor that has no
    nodes yet, the adapter is a fresh one over the new registry, which it can
    rely on, so what holds of every reachable adapter holds from then on; and
    the menu offers one entry for each type that the backend sent. *)
Theorem loadNodeTypes_ready `{OdooRegistry} `{!OdooRegistryLaws} class_name json_parse num_toString
    g old_reg result :
  NoDup (jkeys (pg_types g)) →
  let '(g', s') := loadNodeTypes_response json_parse num_toString g (new_store old_reg) result in
  odoo_ok (pg_types g') ∧ reachable (pg_types g') (st_adapter s') ∧
  ti_key <$> getAllNodeTypes class_name (pg_types g') (nodeTypes s') =
    bfilter (λ k, negb (k =s "")) (getNodeTypeKey <$> as_array result).
Proof.
  intros Hd. unfold loadNodeTypes_response.
  pose proof (register_all json_parse num_toString (pg_categories g) (pg_types g)
    (JArr (as_array result)) Hd) as Hr.
  destruct (registerBackendNodeTypes _ _ _ _ _) as [[cats reg] keys]. destruct Hr as (Hget & _ & _ & Hok).
  cbn [pg_types st_adapter setNodeTypes with_nodeTypes with_adapter nodeTypes as_array] in *.
  split; [done|]. split; [apply rtc_refl|].
  assert (∀ td k, td ∈ as_array result → getNodeTypeKey td = k → k ≠ "" → is_Some (jget k reg)) as Hreg.
  { intros td k Htd Hk Hne. rewrite Hget, bool_decide_false, fmap_is_Some by done. unfold last_def.
    destruct (find_first _ _) eqn:E; [done|]. rewrite find_first_None in E.
    specialize (E td). rewrite elem_of_reverse in E. specialize (E Htd). by rewrite bool_decide_true in E. }
  unfold getAllNodeTypes. destruct (as_array result) as [|td tds] eqn:Er.
  - assert (reg = []) as ->; [|done]. destruct reg as [|[k v] reg]; [done|]. specialize (Hget k).
    csimpl in Hget. rewrite bool_decide_true in Hget by done. by destruct (k =s "").
  - rewrite <- Er in *. clear Er td tds Hget Hok. generalize dependent (as_array result). intros l.
    induction l as [|td l IH]; intros Hl; csimpl; [done|].
    destruct (bool_decide_reflect (getNodeTypeKey td = "")) as [He|He]; csimpl.
    + apply IH. intros; eapply Hl; [by right|done..].
    + destruct (Hl td _ ltac:(left) eq_refl He) as [v Hv]. rewrite Hv. csimpl. f_equal.
      apply IH. intros; eapply Hl; [by right|done..].
Qed.

Lemma loadNodeTypes_ready_witness :
  let g := Page [] [] ["http"; "gone"] in
  let '(g', s') := loadNodeTypes_response (λ _, None) (λ _, "") g (new_store []) demo_types in
  odoo_ok (pg_types g') ∧ pg_recent g' = ["http"].
Proof.
  intros g. pose proof (loadNodeTypes_ready (λ _, "") (λ _, None) (λ _, "") g [] demo_types (NoDup_nil_2)) as Hx.
  assert (pg_recent (loadNodeTypes_response (λ _, None) (λ _, "") g (new_store []) demo_types).1 = ["http"]) as Hr
    by (vm_compute; reflexivity).
  destruct (loadNodeTypes_response _ _ _ _ _) as [g' s']. split; [exact (proj1 Hx)|exact Hr].
Defined.
