(* ===== verification/Expression.v ===== *)
(** * Expressions (utils/expression_utils.js)

    Paths into the data of a run, as text: what the data panel inserts when a
    field is dragged, how a path is parsed and resolved, and how the templates of
    a configuration value are previewed.  Regular expressions are written out as
    functions on byte strings.  Expressions that are not plain paths are run by
    the host ([new Function]); that evaluator is an argument, and so is the
    printing of numbers. *)

From S2P Require Import Prelude JsMap JsValue JsString.

(** ** Characters *)

(** [[a-zA-Z_]] *)
Definition ident_start (c : ascii) : bool :=
  let n := Ascii.N_of_ascii c in
  ((97 <=? n)%N && (n <=? 122)%N) || ((65 <=? n)%N && (n <=? 90)%N) || (n =? 95)%N.

(** [[a-zA-Z0-9_]], and [\w] *)
Definition word_char (c : ascii) : bool := ident_start c || is_digit c.

(** What [.] does not match. *)
Definition line_end (c : ascii) : bool :=
  let n := Ascii.N_of_ascii c in (n =? 10)%N || (n =? 13)%N.

Definition dot : ascii := "."%char.
Definition quote1 : ascii := "'"%char.
Definition quote2 : ascii := Ascii.ascii_of_nat 34.

(** The longest prefix of characters that satisfy a test, and the rest. *)
Fixpoint span (f : ascii → bool) (s : string) : string * string :=
  match s with
  | EmptyString => (EmptyString, EmptyString)
  | String c s' => if f c then let '(a, b) := span f s' in (String c a, b) else (EmptyString, s)
  end.

(** [s] without a prefix. *)
Fixpoint strip_prefix (p s : string) : option string :=
  match p, s with
  | EmptyString, _ => Some s
  | String c p', String d s' => if bool_decide (c = d) then strip_prefix p' s' else None
  | _, _ => None
  end.

Fixpoint string_all (f : ascii → bool) (s : string) : bool :=
  match s with EmptyString => true | String c s => f c && string_all f s end.

(** The longest tail of characters that satisfy a test, and what is before. *)
Fixpoint split_tail (f : ascii → bool) (s : string) : string * string :=
  if string_all f s then ("", s)
  else match s with
       | EmptyString => ("", "")
       | String c s => let '(a, g) := split_tail f s in (String c a, g)
       end.

(** [s.includes(t)] *)
Fixpoint includes (t s : string) : bool :=
  match strip_prefix t s with
  | Some _ => true
  | None => match s with EmptyString => false | String _ s => includes t s end
  end.

(** ** Paths *)

Definition NAMESPACES : list string :=
  ["_json"; "_vars"; "_loop"; "_node"; "_input"; "_execution"; "_workflow"; "_now"; "_today"].

(** [/^\d+$/] *)
Definition is_index (part : string) : bool := negb (part =s "") && string_all is_digit part.

(** One step of [generateExpressionPath]. *)
Definition print_part (part : string) : string :=
  if is_index part then "[" +:+ part +:+ "]"
  else if negb (string_all word_char part) then "['" +:+ part +:+ "']"
  else "." +:+ part.

Definition generateExpressionPath (pathParts : list string) (root : string) : string :=
  foldl (λ path part, path +:+ print_part part) root pathParts.

Definition dquote : string := String quote2 "".

Definition generateNodeSelectorExpressionPath (nodeId : string) (pathParts : list string) : string :=
  if nodeId =s "" then generateExpressionPath pathParts "_json"
  else generateExpressionPath pathParts ("_node[" +:+ dquote +:+ nodeId +:+ dquote +:+ "].json").

Definition wrapExpression (expression : string) : string := "{{ " +:+ expression +:+ " }}".

(** [[a-zA-Z_][a-zA-Z0-9_]*] at the start *)
Definition match_ident (s : string) : option (string * string) :=
  match s with
  | String c s' =>
      if ident_start c then let '(a, b) := span word_char s' in Some (String c a, b) else None
  | EmptyString => None
  end.

(** [q], characters other than [q], [q] and [\]], after an opening bracket *)
Definition match_quoted (q : ascii) (s : string) : option (string * string) :=
  match s with
  | String c s' =>
      if bool_decide (c = q) then
        let '(a, b) := span (λ d, negb (bool_decide (d = q))) s' in
        if a =s "" then None
        else (λ rest, (a, rest)) <$> strip_prefix (String q "]") b
      else None
  | EmptyString => None
  end.

(** The bracket forms: an index, a name in single and in double quotes. *)
Definition match_bracket (s : string) : option (string * string) :=
  match strip_prefix "[" s with
  | None => None
  | Some s' =>
      let '(digits, rest) := span is_digit s' in
      match (if digits =s "" then None else strip_prefix "]" rest) with
      | Some rest => Some (digits, rest)
      | None =>
          match match_quoted quote1 s' with
          | Some r => Some r
          | None => match_quoted quote2 s'
          end
      end
  end.

(** The regular expression of [parseExpressionPath] at the start of a string. *)
Definition match_part (s : string) : option (string * string) :=
  match (match strip_prefix "." s with
         | Some s' => match match_ident s' with Some r => Some r | None => match_ident s end
         | None => match_ident s
         end) with
  | Some r => Some r
  | None => match_bracket s
  end.

(** The loop over all matches; a character where none begins is skipped. One unit
    of fuel per character is enough ([scan_parts_fuel]). *)
Fixpoint scan_parts (fuel : nat) (s : string) : list string :=
  match fuel, s with
  | S fuel, String _ s' =>
      match match_part s with
      | Some (part, rest) => part :: scan_parts fuel rest
      | None => scan_parts fuel s'
      end
  | _, _ => []
  end.

(** The namespace, if there is one, and the path after it. *)
Definition parseExpressionPath (path : string) : option string * list string :=
  let '(namespace, cleanPath) :=
    match strip_prefix "_" path with
    | Some s =>
        let '(w, rest) := span word_char s in
        if w =s "" then (None, path) else (Some ("_" +:+ w), default rest (strip_prefix "." rest))
    | None => (None, path)
    end in
  (namespace, scan_parts (String.length cleanPath) cleanPath).

(** The walk along the parts. *)
Fixpoint navigate (current : jsval) (parts : list string) : jsval :=
  match parts with
  | [] => current
  | part :: parts => if is_nullish current then JUndef else navigate (prop current part) parts
  end.

Definition getValueByPath (data : jsval) (path : string) : jsval := navigate data (parseExpressionPath path).2.

(** What a namespace stands for. *)
Definition namespace_source (context : jsobj) (namespace : string) : jsval :=
  js_or (oprop context namespace)
    (if (namespace =s "_now") || (namespace =s "_today") then JNull else JObj []).

Definition resolveExpression (expression : string) (context : jsobj) : outcome jsval :=
  let '(namespace, parts) := parseExpressionPath expression in
  match namespace with
  | None => Throw ("Invalid expression namespace. Use one of: " +:+ join ", " NAMESPACES)
  | Some ns =>
      if bool_decide (ns ∈ NAMESPACES) then Ret (navigate (namespace_source context ns) parts)
      else Throw ("Unsupported namespace " +:+ ns +:+ ". Use one of: " +:+ join ", " NAMESPACES)
  end.

(** ** Templates *)

(** One step of a selector: a dot and a name, or a bracket. *)
Definition match_step (s : string) : option string :=
  match strip_prefix "." s with
  | Some s' => snd <$> match_ident s'
  | None => snd <$> match_bracket s
  end.

Fixpoint only_steps (fuel : nat) (s : string) : bool :=
  match s with
  | EmptyString => true
  | String _ _ =>
      match fuel, match_step s with
      | S fuel, Some rest => only_steps fuel rest
      | _, _ => false
      end
  end.

(** [SIMPLE_SELECTOR_PATTERN.test(expression.trim())] *)
Definition isSimpleSelectorExpression (expression : string) : bool :=
  match strip_prefix "_" (trim expression) with
  | None => false
  | Some s =>
      let '(w, rest) := span word_char s in
      bool_decide ("_" +:+ w ∈ NAMESPACES) && only_steps (String.length rest) rest
  end.

Definition containsSupportedNamespaceReference (expression : string) : bool :=
  existsb (λ ns, includes ns expression) NAMESPACES.

Definition isExpressionMode (value : string) : bool := if strip_prefix "=" value is Some _ then true else false.

Definition stripExpressionPrefix (value : string) : string := default value (strip_prefix "=" value).

(** [ensureExpressionPrefix(value)], on text *)
Definition ensureExpressionPrefix (text : string) : string :=
  if isExpressionMode text then text else "=" +:+ text.

(** [(.+?)\}\}]: the shortest text before the closing braces. *)
Fixpoint match_close (s : string) : option (string * string) :=
  match s with
  | EmptyString => None
  | String c s' =>
      if line_end c then None
      else
        match strip_prefix "}}" s' with
        | Some rest => Some (String c EmptyString, rest)
        | None => (λ r, (String c r.1, r.2)) <$> match_close s'
        end
  end.

Record template := Template { tm_full : string; tm_expression : string; tm_start : nat; tm_end : nat }.

(** The matches from a position on; fuel as before ([scan_templates_fuel]). *)
Fixpoint scan_templates (fuel pos : nat) (s : string) : list template :=
  match fuel, s with
  | S fuel, String _ s' =>
      match (match strip_prefix "{{" s with Some r => match_close r | None => None end) with
      | Some (body, rest) =>
          let full := "{{" +:+ body +:+ "}}" in
          Template full (trim body) pos (pos + String.length full)
            :: scan_templates fuel (pos + String.length full) rest
      | None => scan_templates fuel (S pos) s'
      end
  | _, _ => []
  end.

Definition extractExpressions (value : string) : list template := scan_templates (String.length value) 0 value.

Definition hasExpressions (value : string) : bool := match extractExpressions value with [] => false | _ => true end.

(** ** Preview *)

(** [_typeLabel(value)] *)
Definition typeLabel (value : jsval) : option string :=
  match value with
  | JNull | JUndef => Some "null"
  | JBool _ => Some "bool"
  | JNum n => Some (if (QArith_base.Qden (this n) =? 1)%positive then "int" else "float")
  | JStr _ => Some "str"
  | JArr _ => Some "list"
  | JObj _ => Some "object"
  end.

(** The replacement text of [replace]: [$$], [$&], [$`] and [$'] are expanded. *)
Fixpoint expand_dollars (matched before after s : string) : string :=
  match s with
  | String "$" (String "$" s) => String "$" (expand_dollars matched before after s)
  | String "$" (String "&" s) => matched +:+ expand_dollars matched before after s
  | String "$" (String "`" s) => before +:+ expand_dollars matched before after s
  | String "$" (String "'" s) => after +:+ expand_dollars matched before after s
  | String c s => String c (expand_dollars matched before after s)
  | EmptyString => EmptyString
  end.

(** [s.replace(t, r)]: the first occurrence of [t]. *)
Fixpoint replace_first (before t r s : string) : string :=
  match strip_prefix t s with
  | Some after => before +:+ expand_dollars t before after r +:+ after
  | None =>
      match s with
      | EmptyString => before
      | String c s => replace_first (before +:+ String c EmptyString) t r s
      end
  end.

Record evaluation := Evaluation { ev_value : jsval; ev_error : option string; ev_type : option string }.

Section preview.
Context (num_toString : num → string).
(** [evaluatePreviewExpression(expression, context)], run by the host *)
Context (evaluatePreviewExpression : string → jsobj → outcome jsval).

Definition resolvePreviewTemplate (expression : string) (context : jsobj) : outcome jsval :=
  if isSimpleSelectorExpression expression then resolveExpression expression context
  else evaluatePreviewExpression expression context.

(** The loop over the templates of mixed content. *)
Fixpoint replace_all (context : jsobj) (templates : list template) (result : string) : outcome string :=
  match templates with
  | [] => Ret result
  | tmpl :: templates =>
      match resolvePreviewTemplate (tm_expression tmpl) context with
      | Throw msg => Throw msg
      | Ret value =>
          let stringValue := match value with JUndef => "" | _ => js_String num_toString value end in
          replace_all context templates (replace_first "" (tm_full tmpl) stringValue result)
      end
  end.

Definition evaluateExpression (rawExpression : string) (context : jsobj) : evaluation :=
  if negb (isExpressionMode rawExpression)
  then Evaluation (JStr rawExpression) None (typeLabel (JStr rawExpression))
  else
    let expressionSource := stripExpressionPrefix rawExpression in
    let mixed templates :=
      match replace_all context templates expressionSource with
      | Ret result => Evaluation (JStr result) None (Some "str")
      | Throw msg => Evaluation JNull (Some msg) None
      end in
    match extractExpressions expressionSource with
    | [] =>
        if trim expressionSource =s "" then Evaluation (JStr "") None (Some "str")
        else Evaluation (JStr expressionSource) None (typeLabel (JStr expressionSource))
    | [tmpl] =>
        if tm_full tmpl =s expressionSource then
          match resolvePreviewTemplate (tm_expression tmpl) context with
          | Ret value => Evaluation value None (typeLabel value)
          | Throw msg =>
              if containsSupportedNamespaceReference (tm_expression tmpl) then Evaluation JUndef None None
              else Evaluation JNull (Some msg) None
          end
        else mixed [tmpl]
    | templates => mixed templates
    end.
End preview.

(** ** Strings *)

#[local] Arguments String.append : simpl nomatch.

Lemma str_app_nil (s : string) : s +:+ "" = s.
Proof. induction s as [|c s IH]; simpl; [done|]. by rewrite IH. Qed.

Lemma str_app_assoc (a b c : string) : (a +:+ b) +:+ c = a +:+ (b +:+ c).
Proof. induction a as [|x a IH]; simpl; [done|]. by rewrite IH. Qed.

Lemma substring_split v a n m : String.substring a n v +:+ String.substring (a + n) m v = String.substring a (n + m) v.
Proof.
  revert a n. induction v as [|c v IH]; intros a n.
  - destruct a, n; simpl; try done; by destruct m.
  - destruct a as [|a]; [|exact (IH a n)]. destruct n as [|n]; [done|].
    exact (f_equal (String c) (IH 0%nat n)).
Qed.

Lemma substring_middle pre s post n :
  n = String.length pre → String.substring n (String.length s) (pre +:+ s +:+ post) = s.
Proof.
  intros ->. induction pre as [|c pre IH]; simpl; [|exact IH].
  induction s as [|c s IH]; simpl; [by destruct post|]. by f_equal.
Qed.

Lemma substring_all s : String.substring 0 (String.length s) s = s.
Proof. induction s as [|c s IH]; simpl; [done|]. by f_equal. Qed.

(** The two parts of a text, cut out of it. *)
Lemma substring_take a b : String.substring 0 (String.length a) (a +:+ b) = a.
Proof. induction a as [|c a IH]; simpl; [by destruct b|]. by f_equal. Qed.
Lemma substring_drop a b : String.substring (String.length a) (String.length (a +:+ b)) (a +:+ b) = b.
Proof.
  assert (∀ n s, (String.length s ≤ n)%nat → String.substring 0 n s = s) as H.
  { intros n s. revert n. induction s as [|c s IH]; intros [|n]; simpl; try done; try lia. intros. f_equal. apply IH. lia. }
  assert (∀ m, (String.length b ≤ m)%nat → String.substring (String.length a) m (a +:+ b) = b) as Hm; [|apply Hm; rewrite str_app_length; lia].
  intros m Hl. induction a as [|c a IH]; simpl; [by apply H|exact IH].
Qed.

Lemma strip_prefix_app p s : strip_prefix p (p +:+ s) = Some s.
Proof. induction p as [|c p IH]; simpl; [done|]. by rewrite bool_decide_true. Qed.

Lemma string_all_app f a b : string_all f (a +:+ b) = string_all f a && string_all f b.
Proof. induction a as [|c a IH]; simpl; [done|]. by rewrite IH, andb_assoc. Qed.

Lemma split_tail_spec f s :
  s = (split_tail f s).1 +:+ (split_tail f s).2 ∧ string_all f (split_tail f s).2 = true ∧
  (∀ p c, (split_tail f s).1 = p +:+ String c "" → f c = false).
Proof.
  induction s as [|d s (IH1 & IH2 & IH3)].
  - split_and!; [done|done|]. intros [|x p] c; done.
  - cbn [split_tail]. destruct (string_all f (String d s)) eqn:E.
    + split_and!; [done|done|]. intros [|x p] c; done.
    + destruct (split_tail f s) as [a g]. cbn [fst snd] in *. split_and!; [exact (f_equal (String d) IH1)|done|].
      intros [|x p] c.
      * intros [= -> ->]. cbn [string_all] in E. change ("" +:+ g) with g in IH1. subst s. by rewrite IH2, andb_true_r in E.
      * intros [= -> Ha]. by eapply IH3.
Qed.

(** A tail is the longest when a character outside comes before it. *)
Lemma split_tail_app f p c g : f c = false → string_all f g = true → split_tail f (p +:+ String c g) = (p +:+ String c "", g).
Proof.
  intros Hc Hg. induction p as [|d p IH].
  - change ("" +:+ String c g) with (String c g). cbn [split_tail string_all]. rewrite Hc. cbn [andb].
    destruct g as [|e g]; [done|]. cbn [split_tail]. by rewrite Hg.
  - change (String d p +:+ String c g) with (String d (p +:+ String c g)). cbn [split_tail].
    assert (string_all f (String d (p +:+ String c g)) = false) as ->.
    { rewrite <- not_true_iff_false. cbn [string_all]. rewrite string_all_app. cbn [string_all]. rewrite Hc. intros (_ & [_ ?]%andb_prop)%andb_prop. done. }
    by rewrite IH.
Qed.

Lemma string_all_impl (f g : ascii → bool) s :
  (∀ c, f c = true → g c = true) → string_all f s = true → string_all g s = true.
Proof. intros H. induction s as [|c s IH]; simpl; [done|]. intros [? ?]%andb_true_iff. rewrite H, IH; done. Qed.

(** A test fails at the start of the string, or the string is empty. *)
Definition stops (f : ascii → bool) (s : string) : bool :=
  match s with EmptyString => true | String c _ => negb (f c) end.

Lemma span_app f a b : string_all f a = true → stops f b = true → span f (a +:+ b) = (a, b).
Proof.
  induction a as [|c a IH]; simpl.
  - intros _. destruct b as [|d b]; simpl; [done|]. by intros ->%negb_true_iff.
  - intros [-> Ha]%andb_true_iff Hb. by rewrite IH.
Qed.

(** ** Printing and parsing parts *)

Definition identifier (part : string) : bool :=
  match part with String c s => ident_start c && string_all word_char s | EmptyString => false end.

Definition other_than (q c : ascii) : bool := negb (bool_decide (c = q)).

(** A part that survives printing: an index, a name, or a key with other
    characters but without a single quote. *)
Definition path_part (part : string) : bool :=
  is_index part || identifier part ||
  (negb (string_all word_char part) && string_all (other_than quote1) part).

Lemma digit_word c : is_digit c = true → word_char c = true.
Proof. intros H. unfold word_char. by rewrite H, orb_true_r. Qed.

Lemma ident_not_digit c : ident_start c = true → is_digit c = false.
Proof. destruct c as [[] [] [] [] [] [] [] []]; by vm_compute. Qed.

Lemma identifier_word p : identifier p = true → string_all word_char p = true ∧ is_index p = false.
Proof.
  destruct p as [|c p]; simpl; [done|]. intros [Hc Hp]%andb_true_iff. split.
  - unfold word_char at 1. by rewrite Hc, Hp.
  - unfold is_index. simpl. by rewrite (ident_not_digit c Hc).
Qed.

Lemma match_ident_app p rest :
  identifier p = true → stops word_char rest = true → match_ident (p +:+ rest) = Some (p, rest).
Proof.
  destruct p as [|c p]; simpl; [done|]. intros [Hc Hp]%andb_true_iff Hr. by rewrite Hc, (span_app word_char).
Qed.

Lemma match_quoted_app q p rest :
  p ≠ "" → string_all (other_than q) p = true →
  match_quoted q (String q p +:+ String q ("]" +:+ rest)) = Some (p, rest).
Proof.
  intros Hne Hp. simpl. rewrite bool_decide_true by done.
  rewrite (span_app (other_than q)); [|done|simpl; unfold other_than; by rewrite bool_decide_true].
  rewrite bool_decide_false by done. rewrite bool_decide_true by done. done.
Qed.

Lemma match_bracket_quote1 s :
  match_bracket (String "[" (String quote1 s)) =
    match match_quoted quote1 (String quote1 s) with
    | Some r => Some r
    | None => match_quoted quote2 (String quote1 s)
    end.
Proof. reflexivity. Qed.

Lemma match_bracket_quote2 s :
  match_bracket (String "[" (String quote2 s)) = match_quoted quote2 (String quote2 s).
Proof. reflexivity. Qed.

(** A part printed with a dot, or in brackets. *)
Lemma print_part_forms p rest :
  path_part p = true → stops word_char rest = true →
  (print_part p = "." +:+ p ∧ identifier p = true ∧ match_ident (p +:+ rest) = Some (p, rest)) ∨
  (∃ s, print_part p = String "[" s ∧ match_bracket (print_part p +:+ rest) = Some (p, rest)).
Proof.
  intros Hp Hr. unfold print_part. destruct (is_index p) eqn:Hi.
  - right. eexists. split; [done|]. unfold is_index in Hi. apply andb_true_iff in Hi as [Hne Hd].
    unfold match_bracket. simpl. rewrite str_app_assoc.
    rewrite (span_app is_digit) by done. apply negb_true_iff in Hne. rewrite Hne. done.
  - unfold path_part in Hp. rewrite Hi in Hp. simpl in Hp. destruct (identifier p) eqn:Hid.
    + left. destruct (identifier_word p Hid) as [Hw _]. rewrite Hw. simpl.
      split; [done|]. split; [done|]. by apply match_ident_app.
    + right. simpl in Hp. apply andb_true_iff in Hp as [Hw Hq]. rewrite Hw. eexists. split; [done|].
      assert (p ≠ "") as Hne by (intros ->; done).
      change (("['" +:+ p +:+ "']") +:+ rest) with (String "[" (String quote1 ((p +:+ "']") +:+ rest))).
      rewrite str_app_assoc, match_bracket_quote1.
      change (String quote1 (p +:+ "']" +:+ rest)) with (String quote1 p +:+ String quote1 ("]" +:+ rest)).
      by rewrite (match_quoted_app quote1 p rest Hne Hq).
Qed.

Lemma print_part_stops p rest : path_part p = true → stops word_char (print_part p +:+ rest) = true.
Proof.
  intros Hp. unfold print_part. destruct (is_index p); [done|]. by destruct (string_all word_char p).
Qed.

Lemma match_part_print p rest :
  path_part p = true → stops word_char rest = true →
  match_part (print_part p +:+ rest) = Some (p, rest).
Proof.
  intros Hp Hr. destruct (print_part_forms p rest Hp Hr) as [(-> & _ & Hm)|(s & Hs & Hm)]; unfold match_part.
  - simpl. by rewrite Hm.
  - rewrite Hm. rewrite Hs. done.
Qed.

(** Without its dot, as after a namespace. *)
Lemma match_part_ident p rest :
  identifier p = true → stops word_char rest = true → match_part (p +:+ rest) = Some (p, rest).
Proof.
  intros Hp Hr. unfold match_part. rewrite (match_ident_app p rest Hp Hr).
  destruct p as [|c p]; [done|]. simpl. case_bool_decide as Hc; [|done]. by subst.
Qed.

Lemma match_step_print p rest :
  path_part p = true → stops word_char rest = true → match_step (print_part p +:+ rest) = Some rest.
Proof.
  intros Hp Hr. destruct (print_part_forms p rest Hp Hr) as [(-> & _ & Hm)|(s & Hs & Hm)]; unfold match_step.
  - simpl. by rewrite Hm.
  - rewrite Hm. rewrite Hs. done.
Qed.

(** The parts printed one after the other. *)
Fixpoint printed (parts : list string) : string :=
  match parts with [] => "" | p :: parts => print_part p +:+ printed parts end.

Lemma generate_printed parts root : generateExpressionPath parts root = root +:+ printed parts.
Proof.
  unfold generateExpressionPath. revert root.
  induction parts as [|p parts IH]; intros root; simpl; [by rewrite str_app_nil|].
  by rewrite IH, str_app_assoc.
Qed.

Definition path_parts (parts : list string) : Prop := Forall (λ p, path_part p = true) parts.

Lemma printed_stops parts : path_parts parts → stops word_char (printed parts) = true.
Proof. destruct 1 as [|p parts Hp _]; simpl; [done|]. by apply print_part_stops. Qed.

Lemma print_part_nonempty p : ∃ c s, print_part p = String c s.
Proof. unfold print_part. destruct (is_index p); [by eauto|]. destruct (string_all word_char p); by eauto. Qed.

Lemma scan_printed parts fuel :
  path_parts parts → (String.length (printed parts) ≤ fuel)%nat → scan_parts fuel (printed parts) = parts.
Proof.
  intros Hall. revert fuel. induction Hall as [|p parts Hp Hall IH]; intros fuel Hf; cbn [printed] in *.
  { by destruct fuel. }
  destruct (print_part_nonempty p) as (c & s & Hs).
  pose proof (match_part_print p (printed parts) Hp (printed_stops parts Hall)) as Hm.
  rewrite Hs in *. cbn [String.append String.length] in *. destruct fuel as [|fuel]; [lia|].
  cbn [scan_parts]. rewrite Hm. f_equal. apply IH. rewrite str_app_length in Hf. lia.
Qed.

Lemma scan_clean parts :
  path_parts parts →
  let clean := default (printed parts) (strip_prefix "." (printed parts)) in
  scan_parts (String.length clean) clean = parts.
Proof.
  intros Hall. destruct Hall as [|p parts Hp Hall]; [done|]. pose proof (printed_stops parts Hall) as Hst.
  destruct (print_part_forms p (printed parts) Hp Hst) as [(Hs & Hid & _)|(s & Hs & _)].
  - cbn [printed]. rewrite Hs. simpl. destruct p as [|c p]; [done|]. cbn [String.append String.length scan_parts].
    pose proof (match_part_ident (String c p) (printed parts) Hid Hst) as Hm. cbn [String.append] in Hm. rewrite Hm.
    f_equal. apply scan_printed; [done|]. rewrite str_app_length. lia.
  - assert (strip_prefix "." (printed (p :: parts)) = None) as Hn by (cbn [printed]; by rewrite Hs).
    rewrite Hn. apply (scan_printed (p :: parts)); [by constructor|done].
Qed.

Lemma parse_generated w parts :
  w ≠ "" → string_all word_char w = true → path_parts parts →
  parseExpressionPath (generateExpressionPath parts ("_" +:+ w)) = (Some ("_" +:+ w), parts).
Proof.
  intros Hne Hw Hall. rewrite generate_printed. unfold parseExpressionPath.
  rewrite str_app_assoc, strip_prefix_app, (span_app word_char) by (done || by apply printed_stops).
  rewrite bool_decide_false by done. f_equal. by apply scan_clean.
Qed.

(** An id that can stand in double quotes. *)
Definition node_key (nodeId : string) : bool := negb (nodeId =s "") && string_all (other_than quote2) nodeId.

Lemma match_node_key nodeId rest :
  node_key nodeId = true →
  match_bracket ("[" +:+ dquote +:+ nodeId +:+ dquote +:+ "]" +:+ rest) = Some (nodeId, rest).
Proof.
  intros [Hne Hq]%andb_true_iff. apply negb_true_iff, bool_decide_eq_false in Hne.
  change ("[" +:+ dquote +:+ nodeId +:+ dquote +:+ "]" +:+ rest) with
    (String "[" (String quote2 (nodeId +:+ dquote +:+ "]" +:+ rest))).
  rewrite match_bracket_quote2. by apply (match_quoted_app quote2 nodeId rest Hne Hq).
Qed.

Lemma node_path nodeId parts :
  nodeId ≠ "" →
  generateNodeSelectorExpressionPath nodeId parts =
    "_node" +:+ ("[" +:+ dquote +:+ nodeId +:+ dquote +:+ "]" +:+ printed ("json" :: parts)).
Proof.
  intros Hne. unfold generateNodeSelectorExpressionPath. rewrite bool_decide_false by done.
  rewrite generate_printed. simpl. f_equal. f_equal. f_equal. f_equal. f_equal. f_equal. f_equal.
  rewrite !str_app_assoc. done.
Qed.

Lemma parse_node_path nodeId parts :
  node_key nodeId = true → path_parts parts →
  parseExpressionPath (generateNodeSelectorExpressionPath nodeId parts) =
    (Some "_node", nodeId :: "json" :: parts).
Proof.
  intros Hk Hall. pose proof Hk as [Hne _]%andb_true_iff. apply negb_true_iff, bool_decide_eq_false in Hne.
  rewrite node_path by done. unfold parseExpressionPath.
  set (tail := "[" +:+ dquote +:+ nodeId +:+ dquote +:+ "]" +:+ printed ("json" :: parts)).
  change ("_node" +:+ tail) with ("_" +:+ ("node" +:+ tail)).
  rewrite strip_prefix_app, (span_app word_char) by done.
  assert (strip_prefix "." tail = None) as -> by done. rewrite bool_decide_false by done.
  simpl default. f_equal.
  assert (match_part tail = Some (nodeId, printed ("json" :: parts))) as Hm.
  { unfold match_part. rewrite <- (match_node_key nodeId (printed ("json" :: parts)) Hk). done. }
  assert (∃ c s, tail = String c s ∧ (String.length (printed ("json" :: parts)) ≤ String.length s)%nat) as (c & s & Et & Hl).
  { eexists _, _. split; [done|]. simpl. rewrite !str_app_length. simpl. lia. }
  rewrite Et in Hm |- *. cbn [String.length scan_parts]. rewrite Hm. f_equal.
  apply scan_printed; [by constructor|done].
Qed.

(** ** Templates around a path *)

(** A character that cannot end or break a template. *)
Definition template_char (c : ascii) : bool := negb (line_end c) && other_than "}" c.

Lemma strip_braces s t : stops (λ c, bool_decide (c = "}"%char)) (s +:+ t) = true → strip_prefix "}}" (s +:+ t) = None.
Proof.
  destruct (s +:+ t) as [|c u]; simpl; [done|]. intros H%negb_true_iff%bool_decide_eq_false.
  rewrite bool_decide_false; [done|]. by intros <-.
Qed.

Lemma match_close_app s rest :
  s ≠ "" → string_all template_char s = true → match_close (s +:+ "}}" +:+ rest) = Some (s, rest).
Proof.
  induction s as [|c s IH]; [done|]. intros _ [[Hc1 Hc2]%andb_true_iff Hs]%andb_true_iff.
  change (String c s +:+ "}}" +:+ rest) with (String c (s +:+ "}}" +:+ rest)).
  cbn [match_close]. apply negb_true_iff in Hc1 as ->.
  destruct s as [|d s]; [reflexivity|].
  rewrite (strip_braces (String d s) ("}}" +:+ rest)).
  - by rewrite IH.
  - simpl in Hs |- *. unfold template_char in Hs. by apply andb_true_iff in Hs as [[_ Hd]%andb_true_iff _].
Qed.

Lemma trim_end_space s : trim_end (s +:+ " ") = trim_end s.
Proof. induction s as [|c s IH]; [done|]. cbn [String.append trim_end]. by rewrite IH. Qed.

Lemma trim_end_app a b : trim_end b = b → b ≠ "" → trim_end (a +:+ b) = a +:+ b.
Proof.
  intros Hb Hne. induction a as [|c a IH]; [done|]. cbn [String.append trim_end]. rewrite IH.
  destruct (a +:+ b) eqn:E; [|done]. destruct a, b; done.
Qed.

(** A string that [trim] leaves alone at both ends. *)
Definition tight (s : string) : Prop := trim_start s = s ∧ trim_end s = s ∧ s ≠ "".

Lemma trim_spaces s : tight s → trim (" " +:+ s +:+ " ") = s.
Proof.
  intros (Hs & He & Hne). unfold trim.
  assert (trim_start (" " +:+ s +:+ " ") = s +:+ " ") as ->; [|by rewrite trim_end_space].
  change (trim_start (" " +:+ s +:+ " ")) with (trim_start (s +:+ " ")).
  destruct s as [|c s]; [done|]. simpl in *. destruct (is_space c) eqn:E; [|done].
  exfalso. assert (∀ t, (String.length (trim_start t) ≤ String.length t)%nat) as Hl.
  { clear. induction t as [|d t IH]; simpl; [lia|]. destruct (is_space d); simpl; lia. }
  specialize (Hl s). rewrite Hs in Hl. simpl in Hl. lia.
Qed.

Lemma word_not_space c : word_char c = true → is_space c = false ∧ template_char c = true.
Proof. destruct c as [[] [] [] [] [] [] [] []]; by vm_compute. Qed.

Lemma trim_end_word s : string_all word_char s = true → trim_end s = s.
Proof.
  induction s as [|c s IH]; simpl; [done|]. intros [Hc Hs]%andb_true_iff. rewrite IH by done.
  destruct s; [|done]. by rewrite (proj1 (word_not_space c Hc)).
Qed.

Lemma word_template s : string_all word_char s = true → string_all template_char s = true.
Proof. apply string_all_impl. intros c Hc. by apply word_not_space. Qed.

Lemma print_part_tight p : path_part p = true → trim_end (print_part p) = print_part p ∧ print_part p ≠ "".
Proof.
  intros Hp. unfold print_part. destruct (is_index p).
  - split; [|done]. by apply (trim_end_app ("[" +:+ p) "]").
  - destruct (string_all word_char p) eqn:Hw; cbn [negb].
    + split; [|done]. unfold path_part in Hp. destruct p as [|c p]; [done|].
      apply (trim_end_app "."); [by apply trim_end_word|done].
    + split; [|done]. apply (trim_end_app "['" (p +:+ "']")); [by apply trim_end_app|]. by destruct p.
Qed.

Lemma printed_tight root parts :
  trim_end root = root → root ≠ "" → path_parts parts →
  trim_end (root +:+ printed parts) = root +:+ printed parts.
Proof.
  intros Hr Hne Hall. revert root Hr Hne. induction Hall as [|p parts Hp Hall IH]; intros root Hr Hne; cbn [printed].
  - by rewrite str_app_nil.
  - rewrite <- str_app_assoc. destruct (print_part_tight p Hp) as [Ht Hn]. apply IH.
    + by apply trim_end_app.
    + by destruct root.
Qed.

Definition safe_parts (parts : list string) : Prop := Forall (λ p, string_all template_char p = true) parts.

Lemma printed_template parts : safe_parts parts → string_all template_char (printed parts) = true.
Proof.
  induction 1 as [|p parts Hp _ IH]; cbn [printed]; [done|]. rewrite string_all_app, IH, andb_true_r.
  unfold print_part. destruct (is_index p); [|destruct (string_all word_char p); cbn [negb]];
    rewrite !string_all_app, Hp; done.
Qed.

(** What the extraction finds in a wrapped path. *)
Lemma extract_wrapped path :
  tight path → string_all template_char path = true →
  ∃ stop, extractExpressions (wrapExpression path) = [Template (wrapExpression path) path 0 stop].
Proof.
  intros Ht Hp. unfold extractExpressions, wrapExpression.
  assert ("{{ " +:+ path +:+ " }}" = "{{" +:+ ((" " +:+ path +:+ " ") +:+ "}}" +:+ "")) as E.
  { rewrite !str_app_assoc. done. }
  assert (match_close ((" " +:+ path +:+ " ") +:+ "}}" +:+ "") = Some (" " +:+ path +:+ " ", "")) as Hm.
  { apply match_close_app; [done|]. rewrite !string_all_app, Hp. done. }
  exists (String.length ("{{" +:+ (" " +:+ path +:+ " ") +:+ "}}")). rewrite E at 1 2.
  set (body := (" " +:+ path +:+ " ") +:+ "}}" +:+ "") in *.
  transitivity (match (match strip_prefix "{{" ("{{" +:+ body) with Some r => match_close r | None => None end) with
      | Some (b, rest) =>
          Template ("{{" +:+ b +:+ "}}") (trim b) 0 (0 + String.length ("{{" +:+ b +:+ "}}"))
            :: scan_templates (S (String.length body)) (0 + String.length ("{{" +:+ b +:+ "}}")) rest
      | None => scan_templates (S (String.length body)) 1 (String "{" body)
      end); [done|].
  rewrite strip_prefix_app, Hm, trim_spaces by done. cbn [scan_templates]. f_equal. f_equal.
  by rewrite !str_app_assoc.
Qed.

(** ** Fuel

    A match never is empty, so the loops end before the string does. *)

Lemma span_length f s : (String.length (span f s).1 + String.length (span f s).2 = String.length s)%nat.
Proof. induction s as [|c s IH]; simpl; [done|]. destruct (f c); [|done]. destruct (span f s). simpl in *. lia. Qed.

Lemma strip_prefix_length p s r : strip_prefix p s = Some r → (String.length s = String.length p + String.length r)%nat.
Proof.
  revert s. induction p as [|c p IH]; intros [|d s]; simpl; try done; try (by intros [= <-]).
  case_bool_decide; [|done]. intros ?%IH. lia.
Qed.

Lemma match_ident_length s p r : match_ident s = Some (p, r) → (String.length r < String.length s)%nat.
Proof.
  destruct s as [|c s]; simpl; [done|]. destruct (ident_start c); [|done].
  pose proof (span_length word_char s) as Hl. destruct (span word_char s). intros [= <- <-]. simpl in Hl. lia.
Qed.

Lemma match_quoted_length q s p r : match_quoted q s = Some (p, r) → (String.length r < String.length s)%nat.
Proof.
  destruct s as [|c s]; cbn [match_quoted]; [done|]. case_bool_decide; [|done].
  pose proof (span_length (λ d, negb (bool_decide (d = q))) s) as Hl. destruct (span _ s) as [a b]. simpl in Hl.
  destruct (a =s ""); [done|]. destruct (strip_prefix (String q "]") b) eqn:E; [|done]. intros [= <- <-].
  apply strip_prefix_length in E. simpl in E |- *. lia.
Qed.

Lemma match_bracket_length s p r : match_bracket s = Some (p, r) → (String.length r < String.length s)%nat.
Proof.
  unfold match_bracket. destruct (strip_prefix "[" s) as [s'|] eqn:E; [|done]. apply strip_prefix_length in E. simpl in E.
  pose proof (span_length is_digit s') as Hl. destruct (span is_digit s') as [a b]. simpl in Hl.
  destruct (if a =s "" then None else strip_prefix "]" b) as [t|] eqn:Et.
  - intros [= <- <-]. destruct (a =s ""); [done|]. apply strip_prefix_length in Et. simpl in Et. lia.
  - destruct (match_quoted quote1 s') as [[]|] eqn:E1; intros Hr; [injection Hr as <- <-|];
      eapply match_quoted_length in E1 || eapply match_quoted_length in Hr; lia.
Qed.

Lemma match_part_length s p r : match_part s = Some (p, r) → (String.length r < String.length s)%nat.
Proof.
  unfold match_part. destruct (strip_prefix "." s) as [s'|] eqn:E.
  - apply strip_prefix_length in E. simpl in E.
    destruct (match_ident s') as [[]|] eqn:E1; [intros [= <- <-]; apply match_ident_length in E1; lia|].
    destruct (match_ident s) as [[]|] eqn:E2; [intros [= <- <-]; by apply match_ident_length in E2|].
    apply match_bracket_length.
  - destruct (match_ident s) as [[]|] eqn:E2; [intros [= <- <-]; by apply match_ident_length in E2|].
    apply match_bracket_length.
Qed.

(** More fuel than characters changes nothing. *)
Lemma scan_parts_fuel fuel fuel' s :
  (String.length s ≤ fuel)%nat → (String.length s ≤ fuel')%nat → scan_parts fuel s = scan_parts fuel' s.
Proof.
  revert fuel' s. induction fuel as [|fuel IH]; intros [|fuel'] [|c s] H1 H2; try done; try (simpl in *; lia).
  cbn [scan_parts]. destruct (match_part (String c s)) as [[p r]|] eqn:E.
  - apply match_part_length in E. cbn [String.length] in *. f_equal. apply IH; lia.
  - cbn [String.length] in *. apply IH; lia.
Qed.

Lemma match_close_length s b r : match_close s = Some (b, r) → (String.length r < String.length s)%nat.
Proof.
  revert b r. induction s as [|c s IH]; intros b r; cbn [match_close]; [done|]. destruct (line_end c); [done|].
  destruct (strip_prefix "}}" s) as [t|] eqn:E.
  - intros [= <- <-]. apply strip_prefix_length in E. simpl in *. lia.
  - destruct (match_close s) as [[b' r']|] eqn:E'; [|done]. intros [= <- <-]. specialize (IH _ _ eq_refl). simpl in *. lia.
Qed.

Lemma scan_templates_fuel fuel fuel' pos s :
  (String.length s ≤ fuel)%nat → (String.length s ≤ fuel')%nat →
  scan_templates fuel pos s = scan_templates fuel' pos s.
Proof.
  revert fuel' pos s. induction fuel as [|fuel IH]; intros [|fuel'] pos [|c s] H1 H2; try done; try (simpl in *; lia).
  cbn [scan_templates].
  destruct (match strip_prefix "{{" (String c s) with Some r => match_close r | None => None end) as [[b r]|] eqn:E.
  - destruct (strip_prefix "{{" (String c s)) as [t|] eqn:Et; [|done].
    apply strip_prefix_length in Et. apply match_close_length in E. cbn [String.length] in *. f_equal. apply IH; lia.
  - cbn [String.length] in *. apply IH; lia.
Qed.

(** ** Evaluating a path *)

Lemma only_steps_printed parts fuel :
  path_parts parts → (String.length (printed parts) ≤ fuel)%nat → only_steps fuel (printed parts) = true.
Proof.
  intros Hall. revert fuel. induction Hall as [|p parts Hp Hall IH]; intros fuel Hf; cbn [printed] in *.
  { by destruct fuel. }
  destruct (print_part_nonempty p) as (c & s & Hs).
  pose proof (match_step_print p (printed parts) Hp (printed_stops parts Hall)) as Hm.
  rewrite Hs in *. cbn [String.append String.length] in *. destruct fuel as [|fuel]; [lia|].
  cbn [only_steps]. rewrite Hm. apply IH. rewrite str_app_length in Hf. lia.
Qed.

Lemma trim_tight s : tight s → trim s = s.
Proof. intros (Hs & He & _). unfold trim. by rewrite Hs, He. Qed.

(** A path that is a namespace followed by steps. *)
Lemma simple_selector w rest :
  tight ("_" +:+ w +:+ rest) → string_all word_char w = true → stops word_char rest = true →
  "_" +:+ w ∈ NAMESPACES → only_steps (String.length rest) rest = true →
  isSimpleSelectorExpression ("_" +:+ w +:+ rest) = true.
Proof.
  intros Ht Hw Hr Hns Hs. unfold isSimpleSelectorExpression.
  rewrite trim_tight, strip_prefix_app, (span_app word_char) by done.
  rewrite Hs, andb_true_r. by apply bool_decide_eq_true.
Qed.

(** The preview of a value that is one template with a plain path. *)
Lemma evaluate_path num_toString eval path context v :
  tight path → string_all template_char path = true → isSimpleSelectorExpression path = true →
  resolveExpression path context = Ret v →
  evaluateExpression num_toString eval ("=" +:+ wrapExpression path) context = Evaluation v None (typeLabel v).
Proof.
  intros Ht Hc Hs Hr. destruct (extract_wrapped path Ht Hc) as [stop Hx].
  unfold evaluateExpression, isExpressionMode, stripExpressionPrefix.
  rewrite !strip_prefix_app. cbn [negb default from_option id]. unfold id. rewrite Hx.
  cbn [tm_full tm_expression]. rewrite bool_decide_true by done. unfold resolvePreviewTemplate. by rewrite Hs, Hr.
Qed.

Lemma underscore_tight w rest : trim_end (String "_" (w +:+ rest)) = String "_" (w +:+ rest) → tight ("_" +:+ w +:+ rest).
Proof. intros He. split; [done|]. split; [exact He|done]. Qed.

Lemma json_path_evaluates num_toString eval parts context :
  path_parts parts → safe_parts parts →
  let v := navigate (namespace_source context "_json") parts in
  evaluateExpression num_toString eval ("=" +:+ wrapExpression (generateExpressionPath parts "_json")) context =
    Evaluation v None (typeLabel v).
Proof.
  intros Hp Hs v. rewrite generate_printed.
  assert (tight ("_" +:+ "json" +:+ printed parts)) as Ht
    by (apply underscore_tight; by apply (printed_tight "_json")).
  apply evaluate_path.
  - done.
  - rewrite string_all_app, printed_template by done. done.
  - apply (simple_selector "json"); [done|done|by apply printed_stops| |by apply only_steps_printed].
    apply (bool_decide_unpack _). by vm_compute.
  - unfold resolveExpression. rewrite <- generate_printed.
    rewrite (parse_generated "json") by done. done.
Qed.

Lemma node_path_evaluates num_toString eval nodeId parts context :
  node_key nodeId = true → path_parts parts → safe_parts (nodeId :: parts) →
  let v := navigate (namespace_source context "_node") (nodeId :: "json" :: parts) in
  evaluateExpression num_toString eval
    ("=" +:+ wrapExpression (generateNodeSelectorExpressionPath nodeId parts)) context =
    Evaluation v None (typeLabel v).
Proof.
  intros Hk Hp Hs v. apply Forall_cons in Hs as [Hn Hs].
  pose proof Hk as [Hne _]%andb_true_iff. apply negb_true_iff, bool_decide_eq_false in Hne.
  assert (path_parts ("json" :: parts)) as Hp' by (by constructor).
  set (key := "[" +:+ dquote +:+ nodeId +:+ dquote +:+ "]").
  assert (generateNodeSelectorExpressionPath nodeId parts = "_" +:+ "node" +:+ (key +:+ printed ("json" :: parts))) as E.
  { rewrite node_path by done. unfold key. by rewrite !str_app_assoc. }
  assert (trim_end ("_node" +:+ key) = "_node" +:+ key) as Hkt.
  { unfold key. rewrite <- !str_app_assoc. by apply trim_end_app. }
  assert (tight ("_" +:+ "node" +:+ key +:+ printed ("json" :: parts))) as Ht.
  { apply underscore_tight. change (String "_" ("node" +:+ key +:+ printed ("json" :: parts))) with
      ("_node" +:+ (key +:+ printed ("json" :: parts))). rewrite <- str_app_assoc.
    apply printed_tight; done. }
  apply evaluate_path.
  - by rewrite E.
  - rewrite E. unfold key. rewrite !string_all_app, Hn, printed_template; [done|by constructor].
  - rewrite E. apply simple_selector; [done|done|done| |].
    + apply (bool_decide_unpack _). by vm_compute.
    + assert (match_step (key +:+ printed ("json" :: parts)) = Some (printed ("json" :: parts))) as Hm.
      { unfold match_step. assert (strip_prefix "." (key +:+ printed ("json" :: parts)) = None) as -> by done.
        unfold key. rewrite !str_app_assoc. by rewrite match_node_key. }
      assert (∃ c s, key +:+ printed ("json" :: parts) = String c s ∧
        (String.length (printed ("json" :: parts)) ≤ String.length s)%nat) as (c & s & Et & Hl).
      { eexists _, _. split; [done|]. rewrite str_app_length. lia. }
      rewrite Et in Hm |- *. cbn [String.length only_steps]. rewrite Hm. by apply only_steps_printed.
  - unfold resolveExpression. rewrite parse_node_path by done. done.
Qed.

(** ** Properties *)

(** a field that is dragged from the data panel into a setting evaluates to
    the value of that field: the path that is generated for it, as a template of
    an expression, is previewed as what walking along the keys gives, without an
    error, from the current data and from the output of a named node.  Keys are
    indices, names, or contain other characters but no quote, closing brace or
    line break. *)
Theorem dragged_field_evaluates num_toString eval nodeId parts context :
  node_key nodeId = true → path_parts parts → safe_parts (nodeId :: parts) →
  let preview path := evaluateExpression num_toString eval ("=" +:+ wrapExpression path) context in
  let json := navigate (namespace_source context "_json") parts in
  let output := navigate (namespace_source context "_node") (nodeId :: "json" :: parts) in
  preview (generateExpressionPath parts "_json") = Evaluation json None (typeLabel json) ∧
  preview (generateNodeSelectorExpressionPath nodeId parts) = Evaluation output None (typeLabel output).
Proof.
  intros Hk Hp Hs. split; [|by apply node_path_evaluates].
  apply Forall_cons in Hs as [_ Hs]. by apply json_path_evaluates.
Qed.

Definition demo_context : jsobj :=
  [("_json", JObj [("items", JArr [JObj [("first name", JStr "Ada")]])]);
   ("_node", JObj [("n_1", JObj [("json", JObj [("items", JArr [JObj [("first name", JStr "Alan")]])])])])].

Lemma dragged_field_evaluates_witness :
  evaluateExpression (λ _, "") (λ _ _, Throw "") "={{ _json.items[0]['first name'] }}" demo_context =
    Evaluation (JStr "Ada") None (Some "str").
Proof.
  refine (proj1 (dragged_field_evaluates (λ _, "") (λ _ _, Throw "") "n_1" ["items"; "0"; "first name"]
    demo_context _ _ _)).
  - vm_compute. reflexivity.
  - repeat constructor.
  - repeat constructor.
Defined.

(** A key that begins with a digit but is not a number is printed after a dot and
    loses its digits when the path is parsed. *)
Lemma digit_key_lost :
  path_part "2fa" = false ∧ generateExpressionPath ["2fa"] "_json" = "_json.2fa" ∧
  parseExpressionPath "_json.2fa" = (Some "_json", ["fa"]).
Proof. vm_compute. done. Qed.
