(* ===== verification/Dashboard.v ===== *)
(** * The dashboard (components/dashboard/)

    The numbers of runs by day that the backend counts ([_build_run_data] of
    models/ir_workflow.py), the chart that draws them
    (workflow_dashboard_stats.js) with the life of its drawing, the blocks around
    it, and the embedded lists (base/workflow_list.js).  The chart library and the
    colors of the theme are outside of the repository: a chart is what it is made
    from, a color is an argument. *)

From S2P Require Import Prelude JsMap JsValue JsString.

(** ** Runs by day (models/ir_workflow.py) *)

(** A run: the label of the day it started, if it has, and its status. *)
Record run := Run { run_day : option string; run_status : string }.

(** [{k: 0 for k in keys}] *)
Definition zeros (keys : list string) : list (string * nat) := foldl (λ d k, mset k 0 d) [] keys.

(** [if lbl in d: d[lbl] += 1] *)
Definition count_in (d : list (string * nat)) (lbl : string) : list (string * nat) :=
  match jget lbl d with Some n => mset lbl (S n) d | None => d end.

Record by_day := ByDay { completed_by_day : list (string * nat); failed_by_day : list (string * nat); cancelled_by_day : list (string * nat) }.

(** The body of the loop over the runs. *)
Definition count_run (c : by_day) (r : run) : by_day :=
  match run_day r with
  | None => c
  | Some lbl =>
      if (run_status r =s "completed") && jhas lbl (completed_by_day c)
      then ByDay (count_in (completed_by_day c) lbl) (failed_by_day c) (cancelled_by_day c)
      else if (run_status r =s "failed") && jhas lbl (failed_by_day c)
      then ByDay (completed_by_day c) (count_in (failed_by_day c) lbl) (cancelled_by_day c)
      else if (run_status r =s "cancelled") && jhas lbl (cancelled_by_day c)
      then ByDay (completed_by_day c) (failed_by_day c) (count_in (cancelled_by_day c) lbl)
      else c
  end.

(** [[{"label": k, "value": d[k]} for k in keys]] *)
Definition day_points (keys : list string) (d : list (string * nat)) : jsval :=
  JArr ((λ k, JObj [("label", JStr k); ("value", JInt (Z.of_nat (default 0 (jget k d))))]) <$> keys).

(** [_build_run_data(days)], for the labels of the days. *)
Definition build_run_data (keys : list string) (runs : list run) : jsval :=
  let c := foldl count_run (ByDay (zeros keys) (zeros keys) (zeros keys)) runs in
  JObj [("Completed", day_points keys (completed_by_day c)); ("Failed", day_points keys (failed_by_day c));
        ("Cancelled", day_points keys (cancelled_by_day c))].

(** ** The chart (workflow_dashboard_stats.js) *)

Section chart.
Context (num_toString : num → string) (getColor : nat → string) (hexToRGBA : string → num → string).

Record chart_props := ChartProps {
  cp_type : string; cp_data : jsval; cp_isSample : bool; cp_label : string;
  cp_colors : option (list jsval);
}.

(** A series of a stacked chart. *)
Record dataset := Dataset {
  ds_data : list jsval; ds_label : string; ds_backgroundColor : jsval; ds_formatted_data : list string;
}.

(** What the chart is made from; how axes and legends look is left out. *)
Inductive chart_config :=
| LineChart (labels points : list jsval) (label backgroundColor borderColor : string)
| BarChart (labels data : list jsval) (label : string) (backgroundColors : list string)
| StackedChart (labels : list jsval) (datasets : list dataset)
| EmptyConfig.

(** [v.k], which throws on [null] and [undefined]. *)
Definition field (v : jsval) (k : string) : outcome jsval :=
  if is_nullish v then Throw "TypeError: Cannot read properties of undefined" else Ret (prop v k).

(** The receiver of [map] and [forEach]. *)
Definition the_array (v : jsval) : outcome (list jsval) :=
  if v is JArr l then Ret l else Throw "TypeError: not an array".

(** [_getLineConfig()] *)
Definition getLineConfig (p : chart_props) (graphData : jsval) : outcome chart_config :=
  data ← the_array graphData;
  labels ← mapM (λ pt, field pt "x") data;
  Ret (LineChart labels data (cp_label p) (hexToRGBA (getColor 3) (Q2Qc (QArith_base.Qmake 5 100))) (hexToRGBA (getColor 3) (Q2Qc (QArith_base.Qmake 1 10)))).

Definition bar_color (isSample : bool) (pt : jsval) : string :=
  if isSample then "#ebebeb"
  else if strict_eq (prop pt "type") (JStr "past") then "#ccbdc8"
  else if strict_eq (prop pt "type") (JStr "future") then "#a5d8d7"
  else getColor 1.

(** [_getBarConfig()] *)
Definition getBarConfig (p : chart_props) (graphData : jsval) : outcome chart_config :=
  pts ← the_array graphData;
  data ← mapM (λ pt, field pt "value") pts;
  Ret (BarChart ((λ pt, prop pt "label") <$> pts) data (cp_label p) (bar_color (cp_isSample p) <$> pts)).

Definition stack_colors (p : chart_props) : list jsval :=
  if cp_isSample p then [JStr "#e7e7e7"; JStr "#dddddd"; JStr "#f0f0f0"; JStr "#fafafa"]
  else match cp_colors p with
       | Some colors => colors
       | None => [JStr (getColor 14); JStr "#a5d8d7"; JStr "#ebebeb"; JStr "#ebebeb"]
       end.

(** [if (!labels.includes(pt.label)) labels.push(pt.label)] *)
Definition push_label (labels : list jsval) (l : jsval) : list jsval :=
  if existsb (λ l', strict_eq l' l) labels then labels else labels ++ [l].

(** [`${code}: ${pt.formatted_value || pt.value}`] *)
Definition formatted (code : string) (pt : jsval) : string :=
  code +:+ ": " +:+ js_String num_toString (js_or (prop pt "formatted_value") (prop pt "value")).

(** One series: the labels after it and what is drawn of it. *)
Definition add_series (colors : list jsval) (acc : list jsval * list dataset) (kv : string * jsval) : outcome (list jsval * list dataset) :=
  pts ← the_array kv.2;
  new ← mapM (λ pt, field pt "label") pts;
  Ret (foldl push_label acc.1 new,
       acc.2 ++ [Dataset ((λ pt, prop pt "value") <$> pts) kv.1 (default JUndef (colors !! length acc.2)) (formatted kv.1 <$> pts)]).

Fixpoint add_all (colors : list jsval) (acc : list jsval * list dataset) (kvs : jsobj) : outcome (list jsval * list dataset) :=
  match kvs with
  | [] => Ret acc
  | kv :: kvs => acc ← add_series colors acc kv; add_all colors acc kvs
  end.

(** [_getStackedBarConfig()] *)
Definition getStackedBarConfig (p : chart_props) (graphData : jsval) : outcome chart_config :=
  if is_nullish graphData then Throw "TypeError: Cannot convert undefined or null to object"
  else '(labels, datasets) ← add_all (stack_colors p) ([], []) (entries graphData); Ret (StackedChart labels datasets).

(** [getChartConfig()], with [graphData] *)
Definition getChartConfig (p : chart_props) (activeToggle : string) : outcome chart_config :=
  let graphData := prop (cp_data p) activeToggle in
  if cp_type p =s "line" then getLineConfig p graphData
  else if cp_type p =s "bar" then getBarConfig p graphData
  else if cp_type p =s "stacked_bar" then getStackedBarConfig p graphData
  else Ret EmptyConfig.

(** The tooltip of a bar. *)
Definition tooltip_label (datasets : list dataset) (datasetIndex index : nat) : outcome jsval :=
  match datasets !! datasetIndex with
  | Some d => Ret (default JUndef (JStr <$> ds_formatted_data d !! index))
  | None => Throw "TypeError: Cannot read properties of undefined"
  end.

(** ** The life of the drawing *)

(** The component: its toggle and [this.chart], a number that names a chart; which
    charts the library has drawn and not destroyed. *)
Record stats := Stats { activeToggle : string; the_chart : option nat; made : nat; alive : list nat }.

Definition stats_setup (defaultToggle : string) : stats := Stats defaultToggle None 0 [].

Definition setToggle (w : stats) (key : string) : stats := Stats key (the_chart w) (made w) (alive w).

Definition destroy (c : option nat) (l : list nat) : list nat :=
  match c with Some c => bfilter (λ c', negb (bool_decide (c' = c))) l | None => l end.

(** [renderChart()]: a chart that cannot be made leaves the old one destroyed. *)
Definition renderChart (w : stats) (has_el : bool) (p : chart_props) : stats * outcome (option chart_config) :=
  let w' := Stats (activeToggle w) (the_chart w) (made w) (destroy (the_chart w) (alive w)) in
  if negb has_el then (w', Ret None)
  else match getChartConfig p (activeToggle w) with
       | Throw msg => (w', Throw msg)
       | Ret c => (Stats (activeToggle w) (Some (made w)) (S (made w)) (made w :: alive w'), Ret (Some c))
       end.

(** [onWillUnmount] *)
Definition stats_unmount (w : stats) : stats :=
  Stats (activeToggle w) None (made w) (destroy (the_chart w) (alive w)).

Inductive stats_event := Toggled (key : string) | Rendered (has_el : bool) (p : chart_props).

Definition stats_step (w : stats) (e : stats_event) : stats :=
  match e with Toggled key => setToggle w key | Rendered el p => (renderChart w el p).1 end.
End chart.

(** ** Blocks and numbers *)

(** [rootClass] and [bodyContainerClass] of a block, [rootClass] of the notebook. *)
Definition push_class (cs : list string) (c : string) : list string := if c =s "" then cs else cs ++ [c].
Definition block_rootClass (blockClass : string) : string :=
  join " " (push_class ["card"; "h-100"; "d-flex"; "flex-column"] blockClass).
Definition bodyContainerClass (scrollable : bool) (bodyClass : string) : string :=
  join " " (push_class ["flex-grow-1"; if scrollable then "o_wf_scrollable_panel" else "card-body"] bodyClass).
Definition notebook_rootClass (className : string) : string :=
  join " " (push_class ["o_dashboard_notebook"; "container-fluid"; "h-100"; "overflow-auto"; "p-0"] className).

(** [stats] of the summary: label, value and filter. *)
Definition summary_stats (d : jsval) : list (string * jsval * jsobj) :=
  [("Total Workflows", prop d "total_workflows", []);
   ("Published", prop d "published_workflows", [("state", JStr "published")]);
   ("Draft", prop d "draft_workflows", [("state", JStr "draft")]);
   ("Running Now", prop d "running_now", []);
   ("My Workflows", prop d "my_workflows", [("my", JBool true)])].

(** [navActions], [runChartToggleOptions] *)
Definition navActions : list (string * string) :=
  [("Workflows", "workflow_studio.action_ir_workflow"); ("Execution Logs", "workflow_studio.action_workflow_run");
   ("Node Types", "workflow_studio.action_workflow_type"); ("System Logs", "workflow_studio.action_ir_workflow_logging")].
Definition runChartToggleOptions : list (string * string) := [("7d", "7d"); ("14d", "14d"); ("30d", "30d")].

(** What the action service is asked: the action and the context. *)
Definition onNavigate (actionXmlId : jsval) (context : jsval) : jsval * jsval :=
  (js_or actionXmlId (JStr "workflow_studio.action_ir_workflow"), js_or context (JObj [])).

(** [onStatClick(filter)], when the parent gave [onNavigate] or not. *)
Definition onStatClick (has_onNavigate : bool) (filter : jsobj) : option (jsval * jsval) :=
  if has_onNavigate then Some (onNavigate JNull (JObj filter)) else None.

(** [failingList], [slowList] and the tab of the top workflows. *)
Definition failingList (data : jsval) : jsval := js_or (prop data "top_failing") (JArr []).
Definition slowList (data : jsval) : jsval := js_or (prop data "top_slow") (JArr []).

(** ** Embedded lists (base/workflow_list.js) *)

Record list_props := ListProps {
  lp_actionXmlId : string; lp_viewType : string; lp_context : jsval; lp_limit : option nat; lp_displayName : string;
}.

(** What the backend says of an action. *)
Record act_window := ActWindow {
  ac_type : string; ac_name : string; ac_display_name : string; ac_views : list (jsval * string);
  ac_domain : jsval; ac_help : jsval; ac_res_model : string; ac_searchViewId : option (list jsval);
}.

Record view_props := ViewProps {
  vp_context : jsval; vp_domain : jsval; vp_limit : nat; vp_noContentHelp : jsval; vp_resModel : string;
  vp_searchViewId : jsval; vp_type : string;
}.

Record workflow_list := WorkflowList {
  wl_action : option act_window; wl_views : list (jsval * string); wl_displayName : string;
  wl_viewProps : option view_props; wl_isLoaded : bool; wl_error : bool;
}.

Definition list_setup : workflow_list := WorkflowList None [] "" None false false.

Definition VIEW_RECORDS_LIMITS : list (string * nat) := [("kanban", 20); ("list", 40)].

(** The limit of [_prepareStaticViewProps]; zero counts as none. *)
Definition list_limit (p : list_props) : nat :=
  match lp_limit p with
  | Some (S n) => S n
  | _ => default 40 (jget (lp_viewType p) VIEW_RECORDS_LIMITS)
  end.

(** [_prepareStaticViewProps(context)] *)
Definition prepareStaticViewProps (p : list_props) (a : act_window) (context : jsval) : view_props :=
  ViewProps context (js_or (ac_domain a) (JArr [])) (list_limit p) (ac_help a) (ac_res_model a)
    (match ac_searchViewId a with Some l => default JUndef (head l) | None => JBool false end) (lp_viewType p).

(** The end of [_loadAction]. *)
Definition checked_action (p : list_props) (a : act_window) : outcome act_window :=
  if negb (ac_type a =s "ir.actions.act_window")
  then Throw ("Invalid action type " +:+ ac_type a +:+ ". Expected ir.actions.act_window")
  else if lp_displayName p =s "" then Ret a
  else Ret (ActWindow (ac_type a) (lp_displayName p) (lp_displayName p) (ac_views a) (ac_domain a) (ac_help a) (ac_res_model a) (ac_searchViewId a)).

(** [_loadEmbeddedView()] with the answer of [loadAction]; [context] is what
    [makeContext] makes of the prop. *)
Definition loadEmbeddedView (p : list_props) (context : jsval) (w : workflow_list) (answer : outcome act_window) : workflow_list * outcome unit :=
  match answer ≫= checked_action p with
  | Throw msg => (w, Throw msg)
  | Ret a =>
      (WorkflowList (Some a) (ac_views a) (if lp_displayName p =s "" then ac_name a else lp_displayName p)
         (Some (prepareStaticViewProps p a context)) true (wl_error w), Ret tt)
  end.

(** [onError] *)
Definition list_onError (w : workflow_list) : workflow_list :=
  WorkflowList (wl_action w) (wl_views w) (wl_displayName w) (wl_viewProps w) (wl_isLoaded w) true.

(** What [openView], [_createRecord] and [_selectRecord] ask the action service. *)
Inductive list_request := OpenView (a : act_window) (viewType : string) | OpenForm (res_id : option nat) (res_model : string) (view : jsval * string).

Definition form_view (a : act_window) : jsval * string :=
  default (JBool false, "form") (find_first (λ v, v.2 =s "form") (ac_views a)).

Definition no_action : outcome list_request := Throw "TypeError: Cannot read properties of undefined".

(** [doAction(undefined)] is the action service's matter. *)
Definition openView (p : list_props) (w : workflow_list) : option list_request :=
  (λ a, OpenView a (lp_viewType p)) <$> wl_action w.
Definition createRecord (w : workflow_list) : outcome list_request :=
  match wl_action w with Some a => Ret (OpenForm None (ac_res_model a) (form_view a)) | None => no_action end.
Definition selectRecord (w : workflow_list) (resId : nat) : outcome list_request :=
  match wl_action w with Some a => Ret (OpenForm (Some resId) (ac_res_model a) (form_view a)) | None => no_action end.

(** ** Properties *)

(** Runs with a status on a day. *)
Definition runs_of (status lbl : string) (runs : list run) : nat :=
  length (bfilter (λ r, (run_status r =s status) && bool_decide (run_day r = Some lbl)) runs).

(** The states of the three counters a list of runs leads to. *)
Definition counts (keys : list string) (d : list (string * nat)) (f : string → nat) : Prop :=
  ∀ k, jget k d = if bool_decide (k ∈ keys) then Some (f k) else None.

Lemma zeros_counts keys : counts keys (zeros keys) (λ _, 0).
Proof.
  unfold zeros. assert (∀ d ks, counts ks d (λ _, 0) → counts (ks ++ keys) (foldl (λ d k, mset k 0 d) d keys) (λ _, 0)) as H.
  { induction keys as [|k keys IH]; intros d ks Hd; [by rewrite app_nil_r|].
    rewrite cons_middle, app_assoc. apply IH. intros k'. rewrite jget_mset, (Hd k').
    repeat case_bool_decide; set_solver. }
  by apply (H [] []).
Qed.

Lemma count_in_counts keys d f lbl : counts keys d f → counts keys (count_in d lbl) (λ k, f k + if bool_decide (k = lbl) then 1 else 0).
Proof.
  intros Hd k. unfold count_in. rewrite (Hd lbl). case_bool_decide as Hl.
  - rewrite jget_mset, (Hd k). repeat case_bool_decide; subst; try done; f_equal; lia.
  - rewrite (Hd k). repeat case_bool_decide; subst; try done; f_equal; lia.
Qed.

Lemma counts_jhas keys d f lbl : counts keys d f → jhas lbl d = bool_decide (lbl ∈ keys).
Proof. intros Hd. unfold jhas. rewrite (Hd lbl). by case_bool_decide. Qed.

Lemma counts_ext keys d f g : (∀ k, k ∈ keys → f k = g k) → counts keys d f → counts keys d g.
Proof. intros H Hd k. rewrite (Hd k). case_bool_decide; [by rewrite H|done]. Qed.

(** One more run is counted under its day, when the day is shown. *)
Lemma runs_of_snoc status lbl runs r :
  runs_of status lbl (runs ++ [r])
  = runs_of status lbl runs + if (run_status r =s status) && bool_decide (run_day r = Some lbl) then 1 else 0.
Proof. unfold runs_of. rewrite bfilter_app, length_app. simpl. by destruct (_ && _). Qed.

(** One counter over one run. *)
Definition bump (status lbl : string) (r : run) (d : list (string * nat)) : list (string * nat) :=
  if (run_status r =s status) && jhas lbl d then count_in d lbl else d.

Lemma count_run_each c r lbl :
  run_day r = Some lbl →
  count_run c r = ByDay (bump "completed" lbl r (completed_by_day c)) (bump "failed" lbl r (failed_by_day c))
                    (bump "cancelled" lbl r (cancelled_by_day c)).
Proof.
  intros Hd. unfold count_run, bump. rewrite Hd. destruct c as [a b d], r as [day status]. cbn in *.
  repeat (case_bool_decide; simplify_eq; cbn); repeat case_match; done.
Qed.

Lemma bump_counts status keys lbl r d runs :
  run_day r = Some lbl → counts keys d (λ k, runs_of status k runs) →
  counts keys (bump status lbl r d) (λ k, runs_of status k (runs ++ [r])).
Proof.
  intros Hl Hd. unfold bump. rewrite (counts_jhas _ _ _ lbl Hd).
  destruct ((run_status r =s status) && bool_decide (lbl ∈ keys)) eqn:E.
  - apply andb_true_iff in E as [E _]. eapply counts_ext; [|by apply count_in_counts]. intros k Hk. cbn.
    rewrite runs_of_snoc, Hl, E. cbn. f_equal. repeat case_bool_decide; by simplify_eq.
  - eapply counts_ext; [|done]. intros k Hk. cbn. rewrite runs_of_snoc, Hl.
    destruct (run_status r =s status); cbn in E |- *; [|lia].
    apply bool_decide_eq_false in E. rewrite bool_decide_false; [lia|]. intros ?. by simplify_eq.
Qed.

Definition all_counts (keys : list string) (c : by_day) (runs : list run) : Prop :=
  counts keys (completed_by_day c) (λ k, runs_of "completed" k runs)
  ∧ counts keys (failed_by_day c) (λ k, runs_of "failed" k runs)
  ∧ counts keys (cancelled_by_day c) (λ k, runs_of "cancelled" k runs).

Lemma runs_counted keys runs :
  all_counts keys (foldl count_run (ByDay (zeros keys) (zeros keys) (zeros keys)) runs) runs.
Proof.
  induction runs as [|r runs IH] using rev_ind; [by repeat split; apply zeros_counts|].
  rewrite foldl_snoc. destruct IH as (Ha & Hb & Hc). destruct (run_day r) as [lbl|] eqn:El.
  - rewrite (count_run_each _ _ lbl El). by repeat split; apply bump_counts.
  - unfold count_run. rewrite El. repeat split; (eapply counts_ext; [|done]); intros k Hk; cbn;
      rewrite runs_of_snoc, El, andb_false_r; lia.
Qed.

(** The points of a counter. *)
Definition points_of (keys : list string) (f : string → nat) : list jsval :=
  (λ k, JObj [("label", JStr k); ("value", JInt (Z.of_nat (f k)))]) <$> keys.

Lemma day_points_exact keys d f : counts keys d f → day_points keys d = JArr (points_of keys f).
Proof.
  intros Hd. unfold day_points, points_of. f_equal. apply list_fmap_ext. intros i k Hk.
  rewrite (Hd k). apply list_elem_of_lookup_2 in Hk. by rewrite bool_decide_true by done.
Qed.

(** Series over the same distinct labels. *)
Lemma push_new_labels keys seen :
  NoDup (seen ++ keys) → foldl push_label (JStr <$> seen) (JStr <$> keys) = JStr <$> (seen ++ keys).
Proof.
  revert seen. induction keys as [|k keys IH]; intros seen H; [by rewrite app_nil_r|].
  rewrite fmap_cons. cbn [foldl]. unfold push_label at 2.
  replace (existsb _ _) with false.
  - change [JStr k] with (JStr <$> [k]). rewrite <- fmap_app, IH, <- app_assoc; [done|by rewrite <- app_assoc].
  - symmetry. apply existsb_false_iff. intros x (y & -> & Hy)%list_elem_of_fmap. cbn.
    apply bool_decide_eq_false. intros ->. apply NoDup_app in H as (_ & H & _). apply (H k Hy). left.
Qed.

Lemma push_old_labels ls keys : (∀ k, k ∈ keys → k ∈ ls) → foldl push_label (JStr <$> ls) (JStr <$> keys) = JStr <$> ls.
Proof.
  induction keys as [|k keys IH]; intros H; [done|]. rewrite fmap_cons. cbn [foldl]. unfold push_label at 2.
  replace (existsb _ _) with true; [apply IH; intros; apply H; by right|].
  symmetry. apply existsb_true_iff. exists (JStr k). split; [apply list_elem_of_fmap; exists k; split; [done|apply H; left]|].
  cbn. by apply bool_decide_eq_true.
Qed.

(** A series whose points are labelled with [keys]. *)
Definition labelled (keys : list string) (v : jsval) : Prop :=
  ∃ pts, v = JArr pts ∧ (λ pt, prop pt "label") <$> pts = JStr <$> keys.

(** What a series becomes. *)
Definition drawn (kv : string * jsval) (d : dataset) : Prop :=
  ds_label d = kv.1 ∧ ds_data d = (λ pt, prop pt "value") <$> as_array kv.2.

Section aligned.
Context (num_toString : num → string) (colors : list jsval) (keys : list string) (Hkeys : NoDup keys).

Lemma add_series_labelled seen ds kv :
  labelled keys kv.2 → seen = [] ∨ seen = keys →
  ∃ d, add_series num_toString colors (JStr <$> seen, ds) kv = Ret (JStr <$> keys, ds ++ [d]) ∧ drawn kv d.
Proof using Hkeys.
  destruct kv as [code v]. cbn [fst snd]. intros (pts & -> & Hl) Hs. unfold add_series. cbn [fst snd the_array mbind outcome_bind].
  rewrite (mapM_Ret (λ pt, field pt "label") (λ pt, prop pt "label")).
  - cbn [mbind outcome_bind]. rewrite Hl. replace (foldl push_label (JStr <$> seen) (JStr <$> keys)) with (JStr <$> keys).
    + eexists. split; [done|]. by split.
    + destruct Hs as [-> | ->]; symmetry; [by apply (push_new_labels keys [])|by apply push_old_labels].
  - intros pt Hpt. unfold field. replace (is_nullish pt) with false; [done|].
    apply (list_elem_of_fmap_2' (λ pt, prop pt "label") _ _ (prop pt "label")) in Hpt; [|done].
    rewrite Hl in Hpt. apply list_elem_of_fmap in Hpt as (k & Hk & _). by destruct pt.
Qed.

Lemma add_all_labelled seen ds kvs :
  (∀ kv, kv ∈ kvs → labelled keys kv.2) → seen = [] ∧ kvs ≠ [] ∨ seen = keys →
  ∃ ds', add_all num_toString colors (JStr <$> seen, ds) kvs = Ret (JStr <$> keys, ds ++ ds') ∧ Forall2 drawn kvs ds'.
Proof using Hkeys.
  revert seen ds. induction kvs as [|kv kvs IH]; intros seen ds H Hs.
  - destruct Hs as [[_ Hs]| ->]; [done|]. exists []. by rewrite app_nil_r.
  - destruct (add_series_labelled seen ds kv) as (d & Hd & Hdraw); [apply H; left|tauto|].
    cbn [add_all]. rewrite Hd. cbn. destruct (IH keys (ds ++ [d])) as (ds' & -> & Hds); [intros; apply H; by right|by right|].
    exists (d :: ds'). rewrite <- app_assoc. split; [done|by constructor].
Qed.
End aligned.

(** The chart of the runs by day: the labels are the days in order, the series are
    the three states of a run, and the bar of a state on a day is as high as the
    number of runs of that day that ended so. *)
Theorem runs_chart_exact num_toString getColor hexToRGBA isSample label colors toggle data keys runs :
  NoDup keys → prop data toggle = build_run_data keys runs →
  ∃ ds, getChartConfig num_toString getColor hexToRGBA (ChartProps "stacked_bar" data isSample label colors) toggle
        = Ret (StackedChart (JStr <$> keys) ds)
    ∧ ds_label <$> ds = ["Completed"; "Failed"; "Cancelled"]
    ∧ ds_data <$> ds = (λ status, (λ k, JInt (Z.of_nat (runs_of status k runs))) <$> keys) <$> ["completed"; "failed"; "cancelled"].
Proof.
  intros Hkeys Hdata. unfold getChartConfig. cbn. rewrite Hdata. unfold build_run_data.
  destruct (runs_counted keys runs) as (Ha & Hb & Hc).
  rewrite (day_points_exact _ _ _ Ha), (day_points_exact _ _ _ Hb), (day_points_exact _ _ _ Hc). unfold getStackedBarConfig. cbn [is_nullish entries].
  edestruct (add_all_labelled num_toString (stack_colors getColor (ChartProps "stacked_bar" data isSample label colors)) keys Hkeys [] []
               [("Completed", JArr (points_of keys (λ k, runs_of "completed" k runs))); ("Failed", JArr (points_of keys (λ k, runs_of "failed" k runs)));
                ("Cancelled", JArr (points_of keys (λ k, runs_of "cancelled" k runs)))])
    as (ds & Hds & Hdraw); [|by left|].
  - intros kv Hkv. assert (∃ f, kv.2 = JArr (points_of keys f)) as [f ->] by (set_unfold; naive_solver).
    eexists. split; [done|]. unfold points_of. by rewrite <- list_fmap_compose.
  - cbn [fmap list_fmap] in Hds. rewrite Hds. exists ds. split; [done|].
    repeat match goal with H : Forall2 _ (_ :: _) _ |- _ => apply Forall2_cons_inv_l in H as (? & ? & [? ?] & H & ->) end.
    apply Forall2_nil_inv_l in Hdraw as ->. cbn [fst snd as_array] in *. unfold points_of in *. rewrite !fmap_cons.
    split; [cbn [fmap list_fmap]; congruence|]. cbn [fmap list_fmap].
    repeat match goal with H : ds_data _ = _ |- _ => rewrite H; clear H end. by rewrite <- !list_fmap_compose.
Qed.

Definition june : list run :=
  [Run (Some "Jun 1") "completed"; Run (Some "Jun 2") "completed"; Run (Some "Jun 2") "failed"; Run (Some "May 3") "failed"].

(** Two days and four runs, one of them of an earlier day. *)
Lemma runs_chart_exact_witness :
  NoDup ["Jun 1"; "Jun 2"] ∧
  ∃ ds, getChartConfig (λ _, "") (λ _, "") (λ s _, s)
      (ChartProps "stacked_bar" (JObj [("7d", build_run_data ["Jun 1"; "Jun 2"] june)]) false "" None) "7d"
      = Ret (StackedChart [JStr "Jun 1"; JStr "Jun 2"] ds)
    ∧ ds_label <$> ds = ["Completed"; "Failed"; "Cancelled"]
    ∧ ds_data <$> ds = [[JInt 1; JInt 1]; [JInt 0; JInt 1]; [JInt 0; JInt 0]].
Proof.
  assert (NoDup ["Jun 1"; "Jun 2"]) as H by (repeat constructor; set_solver).
  split; [done|].
  exact (runs_chart_exact (λ _, "") (λ _, "") (λ s _, s) false "" None "7d" (JObj [("7d", build_run_data ["Jun 1"; "Jun 2"] june)])
           ["Jun 1"; "Jun 2"] june H eq_refl).
Defined.

(** A series that lacks a day is drawn under the wrong one: the labels of all series
    are joined, the values of each are only lined up. *)
Theorem stacked_misaligned num_toString getColor hexToRGBA :
  let point l v := JObj [("label", JStr l); ("value", JInt v)] in
  ∃ ds, getChartConfig num_toString getColor hexToRGBA
      (ChartProps "stacked_bar"
         (JObj [("7d", JObj [("Completed", JArr [point "Jun 1" 3%Z; point "Jun 2" 4%Z]); ("Failed", JArr [point "Jun 2" 9%Z])])]) false "" None) "7d"
      = Ret (StackedChart [JStr "Jun 1"; JStr "Jun 2"] ds)
    ∧ (λ d, (ds_label d, ds_data d !! 0, ds_data d !! 1)) <$> ds
      = [("Completed", Some (JInt 3%Z), Some (JInt 4%Z)); ("Failed", Some (JInt 9%Z), None)].
Proof. eexists. split; [vm_compute; reflexivity|reflexivity]. Qed.

(** Data in the shape that the comment at the top of the file gives - an array for
    each toggle - are not series: the stacked chart throws. *)
Theorem stacked_needs_series num_toString getColor hexToRGBA :
  ∃ msg, getChartConfig num_toString getColor hexToRGBA
      (ChartProps "stacked_bar" (JObj [("monthly", JArr [JObj [("x", JStr "Jun"); ("value", JInt 3%Z)]])]) false "" None) "monthly"
      = Throw msg.
Proof. by eexists. Qed.

(** A toggle that the data lack makes every chart throw. *)
Theorem unknown_toggle_throws num_toString getColor hexToRGBA p toggle :
  cp_type p ∈ ["line"; "bar"; "stacked_bar"] → prop (cp_data p) toggle = JUndef →
  ∃ msg, getChartConfig num_toString getColor hexToRGBA p toggle = Throw msg.
Proof.
  intros Ht Hd. unfold getChartConfig. rewrite Hd. destruct p as [t d s l c]. cbn in *.
  repeat (case_bool_decide; [by eexists|]). set_solver.
Qed.

(** The charts that are drawn and not destroyed: at most the current one. *)
Definition chart_ok (w : stats) : Prop := alive w = [] ∨ ∃ c, the_chart w = Some c ∧ alive w = [c].

Lemma destroy_current w : chart_ok w → destroy (the_chart w) (alive w) = [].
Proof.
  intros [-> | (c & -> & ->)]; [by destruct (the_chart w)|]. cbn. by rewrite bool_decide_true.
Qed.

Lemma stats_step_ok num_toString getColor hexToRGBA w e :
  chart_ok w → chart_ok (stats_step num_toString getColor hexToRGBA w e).
Proof.
  intros H. destruct e as [key|el p]; [done|]. unfold stats_step, renderChart. rewrite destroy_current by done.
  destruct el; cbn; [|by left]. destruct (getChartConfig _ _ _ _ _); [right; by eexists|by left].
Qed.

(** Whatever toggles and renderings happened - also those that threw half way, and
    those without an element to draw on - the component never keeps two charts, and
    leaves none behind. *)
Theorem no_chart_left num_toString getColor hexToRGBA defaultToggle es :
  let w := foldl (stats_step num_toString getColor hexToRGBA) (stats_setup defaultToggle) es in
  (length (alive w) ≤ 1)%nat ∧ alive (stats_unmount w) = [].
Proof.
  intros w. assert (chart_ok w) as H.
  { unfold w. induction es as [|e es IH] using rev_ind; [by left|]. rewrite foldl_snoc. by apply stats_step_ok. }
  split; [|by apply destroy_current]. destruct H as [-> | (c & _ & ->)]; cbn; lia.
Qed.

(** A rendering that succeeds draws the data of the active toggle. *)
Theorem rendered_is_toggled num_toString getColor hexToRGBA w p key c :
  (renderChart num_toString getColor hexToRGBA (setToggle w key) true p).2 = Ret (Some c) →
  getChartConfig num_toString getColor hexToRGBA p key = Ret c.
Proof. unfold renderChart. cbn. destruct (getChartConfig _ _ _ _ _); cbn; by intros [= ->]. Qed.

(** *** Embedded lists *)

(** A list is shown once its action is there, under the name it was given, with the
    views of the action and a limit that is never zero; an action of another kind
    throws and shows nothing. *)
Theorem list_loaded_exact p context w a :
  let '(w', r) := loadEmbeddedView p context w (Ret a) in
  if ac_type a =s "ir.actions.act_window"
  then r = Ret tt ∧ wl_isLoaded w' = true ∧ wl_views w' = ac_views a
    ∧ wl_displayName w' = (if lp_displayName p =s "" then ac_name a else lp_displayName p)
    ∧ (∃ v, wl_viewProps w' = Some v ∧ vp_resModel v = ac_res_model a ∧ (0 < vp_limit v)%nat)
    ∧ ac_name <$> wl_action w' = Some (wl_displayName w')
  else w' = w ∧ ∃ msg, r = Throw msg.
Proof.
  assert (0 < list_limit p)%nat as Hl.
  { unfold list_limit. destruct (lp_limit p) as [[|n]|]; [|lia|]; cbn; repeat (case_bool_decide; cbn; [lia|]); cbn; lia. }
  unfold loadEmbeddedView, checked_action. cbn. destruct (ac_type a =s _); cbn; [|by eauto].
  destruct (lp_displayName p =s "") eqn:E; cbn; rewrite ?E; repeat (split || eexists || done).
Qed.

(** Opening a record goes to a form: the first of the action's, or the default one. *)
Theorem opens_a_form w a id :
  wl_action w = Some a →
  ∃ v, selectRecord w id = Ret (OpenForm (Some id) (ac_res_model a) (v, "form"))
    ∧ createRecord w = Ret (OpenForm None (ac_res_model a) (v, "form"))
    ∧ ((v, "form") ∈ ac_views a ∨ v = JBool false).
Proof.
  intros Ha. unfold selectRecord, createRecord, form_view. rewrite Ha.
  destruct (find_first _ _) as [[v t]|] eqn:E; cbn.
  - apply find_first_Some in E as [Hin Ht]. cbn in *. bsimpl. subst. eauto.
  - eauto.
Qed.
