(* ===== verification/Dimensions.v ===== *)
(** * Sizes of nodes and places of sockets (core/dimensions.js)

    [DimensionConfig] computes from the number of sockets how high a node is and
    where each socket sits.  The fields of a configuration are numbers or
    absent, which is how the store and the canvas fill them.  The printing of
    numbers in styles is an argument. *)

From S2P Require Import Prelude JsMap JsValue JsNumber Node Adapter.

Definition NODE_WIDTH_SMALL : num := num_of_Z 120.
Definition NODE_WIDTH_NORMAL : num := num_of_Z 240.
Definition NODE_WIDTH_LARGE : num := num_of_Z 360.
Definition NODE_CHROME_MIN_HEIGHT : num := num_of_Z 68.
Definition NODE_BORDER_WIDTH : num := num_of_Z 2.
Definition SOCKET_PITCH : num := num_of_Z 24.
Definition SOCKET_HITBOX_SIZE : num := num_of_Z 10.
Definition SOCKET_MARKER_WIDTH : num := num_of_Z 5.
Definition SOCKET_MARKER_HEIGHT : num := num_of_Z 10.
Definition SOCKET_CLEARANCE_Y : num := num_of_Z 10.
Definition SOCKET_MIN_ROWS : num := num_of_Z 2.
Definition GRID_SIZE : num := num_of_Z 20.
Definition CONNECTION_HANDLE_SIZE : num := num_of_Z 20.
Definition CONNECTION_MIN_DELTA_Y : num := num_of_Z 60.

Inductive anchor_mode := BORDER_EDGE | MARKER_CENTER.

#[export] Instance anchor_mode_eq_dec : EqDecision anchor_mode.
Proof. solve_decision. Defined.

(** The argument of the constructor. *)
Record dim_options := DimOptions {
  o_nodeWidth : option num;
  o_nodeChromeMinHeight : option num;
  o_nodeBorderWidth : option num;
  o_socketPitch : option num;
  o_socketSpacing : option num;
  o_socketHitboxSize : option num;
  o_socketRadius : option num;
  o_socketMarkerWidth : option num;
  o_socketMarkerHeight : option num;
  o_socketClearanceY : option num;
  o_nodeBodyPadding : option num;
  o_socketMinRows : option num;
  o_socketAnchorMode : option anchor_mode;
  o_gridSize : option num;
}.

Definition no_options : dim_options :=
  DimOptions None None None None None None None None None None None None None None.

(** class [DimensionConfig] *)
Record DimensionConfig := Dims {
  nodeWidth : num;
  nodeChromeMinHeight : num;
  nodeBorderWidth : num;
  socketPitch : num;
  socketHitboxSize : num;
  socketMarkerWidth : num;
  socketMarkerHeight : num;
  socketClearanceY : num;
  socketMinRows : num;
  socketAnchorMode : anchor_mode;
  gridSize : num;
}.

(** [a ?? b] on fields that are absent or present. *)
Definition coalesce {A} (a b : option A) : option A := match a with Some _ => a | None => b end.

(** The constructor. *)
Definition new_dimensions (c : dim_options) : DimensionConfig :=
  Dims (default NODE_WIDTH_NORMAL (o_nodeWidth c))
    (default NODE_CHROME_MIN_HEIGHT (o_nodeChromeMinHeight c))
    (default NODE_BORDER_WIDTH (o_nodeBorderWidth c))
    (default SOCKET_PITCH (coalesce (o_socketPitch c) (o_socketSpacing c)))
    (default SOCKET_HITBOX_SIZE
       (coalesce (o_socketHitboxSize c) ((λ r, r * num_of_Z 2)%Qc <$> o_socketRadius c)))
    (default SOCKET_MARKER_WIDTH (o_socketMarkerWidth c))
    (default SOCKET_MARKER_HEIGHT (o_socketMarkerHeight c))
    (default SOCKET_CLEARANCE_Y (coalesce (o_socketClearanceY c) (o_nodeBodyPadding c)))
    (default SOCKET_MIN_ROWS (o_socketMinRows c))
    (default MARKER_CENTER (o_socketAnchorMode c))
    (default GRID_SIZE (o_gridSize c)).

Definition defaultDimensions : DimensionConfig := new_dimensions no_options.

(** [socketType === "input"] or not. *)
Inductive socket_type := InputSocket | OutputSocket.

Section methods.
Context (d : DimensionConfig).
Implicit Types (n : ui_node).

Definition getSocketKeys n (t : socket_type) : list string :=
  jkeys (match t with InputSocket => ui_inputs n | OutputSocket => ui_outputs n end).

Definition getSocketCount n (t : socket_type) : nat := length (getSocketKeys n t).

(** [keys.indexOf(key)] *)
Fixpoint indexOf (k : string) (l : list string) : option nat :=
  match l with
  | [] => None
  | x :: l => if x =s k then Some 0%nat else S <$> indexOf k l
  end.

(** An unknown socket counts as the first. *)
Definition getSocketIndex n (k : string) (t : socket_type) : nat :=
  default 0%nat (indexOf k (getSocketKeys n t)).

Definition num_of_nat (k : nat) : num := num_of_Z (Z.of_nat k).

Definition getSocketRowCount n : nat :=
  Nat.max (length (ui_inputs n)) (length (ui_outputs n)).

Definition getSocketLayoutRowCount n : num :=
  match getSocketRowCount n with
  | O => num_of_Z 0
  | k => num_max (num_of_nat k) (socketMinRows d)
  end.

Definition getSocketDrivenMinHeight n : num :=
  let rows := getSocketLayoutRowCount n in
  if bool_decide (rows = 0%Qc) then num_of_Z 0
  else (rows * socketPitch d + socketClearanceY d * num_of_Z 2)%Qc.

Definition getNodeMinHeight n : num :=
  num_max (nodeChromeMinHeight d) (getSocketDrivenMinHeight n).

Definition getSocketCenterX n (t : socket_type) : num :=
  let borderEdgeX := match t with InputSocket => ui_x n | OutputSocket => (ui_x n + nodeWidth d)%Qc end in
  match socketAnchorMode d with
  | BORDER_EDGE => borderEdgeX
  | MARKER_CENTER =>
      let markerHalfWidth := half (socketMarkerWidth d) in
      match t with
      | InputSocket => (borderEdgeX - markerHalfWidth)%Qc
      | OutputSocket => (borderEdgeX + markerHalfWidth)%Qc
      end
  end.

Definition getSocketCenterY n (k : string) (t : socket_type) : num :=
  let nodeHeight := getNodeMinHeight n in
  let socketCount := Nat.max (getSocketCount n t) 1 in
  let rowIndex := getSocketIndex n k t in
  let centeredIndex := (num_of_nat rowIndex - half (num_of_nat socketCount - 1))%Qc in
  (ui_y n + half nodeHeight + centeredIndex * socketPitch d)%Qc.

Definition getSocketPosition n (k : string) (t : socket_type) : position :=
  Position (getSocketCenterX n t) (getSocketCenterY n k t).

Definition dim_estimateNodeHeight n : num := getNodeMinHeight n.

(** The styles; [show] prints a number. *)
Context (show : num → string).

Definition px (x : num) : string := show x +:+ "px".

Definition getCSSProperties : list (string * string) :=
  [("--node-width", px (nodeWidth d)); ("--node-border-width", px (nodeBorderWidth d));
   ("--socket-pitch", px (socketPitch d)); ("--socket-hitbox-size", px (socketHitboxSize d));
   ("--socket-marker-width", px (socketMarkerWidth d));
   ("--socket-marker-height", px (socketMarkerHeight d)); ("--grid-size", px (gridSize d))].

Definition getNodeStyle n : string :=
  let styles := "left:" +:+ show (ui_x n) +:+ "px;top:" +:+ show (ui_y n) +:+ "px;" in
  let styles := foldl (λ acc kv, acc +:+ kv.1 +:+ ":" +:+ kv.2 +:+ ";") styles getCSSProperties in
  styles +:+ "min-height:" +:+ show (getNodeMinHeight n) +:+ "px;".

Definition getNodeWidthClass : string := "nw-" +:+ show (nodeWidth d).
End methods.

(** [detectConnectionType(sourcePos, targetPos)]: [isVerticalStack] and [isBackEdge]. *)
Record connection_type := ConnectionType { isVerticalStack : bool; isBackEdge : bool }.

Definition detectConnectionType (sourcePos targetPos : position) : connection_type :=
  let deltaX := (pos_x sourcePos - pos_x targetPos)%Qc in
  let deltaY := (pos_y targetPos - pos_y sourcePos)%Qc in
  let vertical := num_lt CONNECTION_MIN_DELTA_Y deltaY && num_lt 0%Qc deltaX in
  ConnectionType vertical (num_lt CONNECTION_HANDLE_SIZE deltaX && negb vertical).

(** ** Sockets lie inside their node *)

Lemma indexOf_lookup k l i : indexOf k l = Some i → l !! i = Some k.
Proof.
  revert i. induction l as [|x l IH]; intros i; simpl; [done|].
  case_bool_decide as E; [intros [= <-]; by subst|].
  destruct (indexOf k l) as [j|]; simpl; intros [= <-]. by apply IH.
Qed.

Lemma indexOf_elem k l : k ∈ l → ∃ i, indexOf k l = Some i ∧ (i < length l)%nat.
Proof.
  induction l as [|x l IH]; [by intros ?%not_elem_of_nil|]. simpl. intros Hk.
  case_bool_decide as E; [exists 0%nat; split; [done|lia]|].
  destruct IH as (i & -> & ?); [set_solver|]. exists (S i). split; [done|lia].
Qed.

Lemma getSocketIndex_bound n k t :
  k ∈ getSocketKeys n t → (getSocketIndex n k t < getSocketCount n t)%nat.
Proof. intros (i & E & ?)%indexOf_elem. unfold getSocketIndex. by rewrite E. Qed.

Lemma getSocketIndex_inj n k k' t :
  k ∈ getSocketKeys n t → k' ∈ getSocketKeys n t →
  getSocketIndex n k t = getSocketIndex n k' t → k = k'.
Proof.
  intros (i & E & _)%indexOf_elem (j & E' & _)%indexOf_elem.
  unfold getSocketIndex. rewrite E, E'. simpl. intros ->.
  apply indexOf_lookup in E, E'. congruence.
Qed.

Lemma getSocketCount_rows n t : (getSocketCount n t ≤ getSocketRowCount n)%nat.
Proof.
  unfold getSocketCount, getSocketKeys, getSocketRowCount, jkeys. destruct t; rewrite length_fmap; lia.
Qed.

Lemma num_of_nat_le a b : (a ≤ b)%nat → (num_of_nat a ≤ num_of_nat b)%Qc.
Proof. intros. apply num_of_Z_le. lia. Qed.

Lemma num_of_nat_S a : num_of_nat (S a) = (num_of_nat a + 1)%Qc.
Proof. unfold num_of_nat. rewrite Nat2Z.inj_succ. apply num_of_Z_add. Qed.

(** A node with sockets has a row for each, and their clearance. *)
Lemma getNodeMinHeight_rows d n t :
  (0 < getSocketCount n t)%nat → (0 ≤ socketPitch d)%Qc →
  (num_of_nat (getSocketCount n t) * socketPitch d + socketClearanceY d * num_of_Z 2 ≤ getNodeMinHeight d n)%Qc.
Proof.
  intros H Hp. pose proof (getSocketCount_rows n t) as Hr.
  unfold getNodeMinHeight, getSocketDrivenMinHeight, getSocketLayoutRowCount.
  destruct (getSocketRowCount n) as [|r] eqn:E; [lia|]. rewrite ?E in Hr.
  set (rows := num_max (num_of_nat (S r)) _). pose proof (proj1 (num_max_spec (num_of_nat (S r)) (socketMinRows d))) as H1.
  fold rows in H1. clearbody rows. pose proof (num_of_nat_le _ _ Hr) as H2.
  assert (rows ≠ 0%Qc).
  { apply num_pos_ne. rewrite num_of_nat_S in H1.
    pose proof (num_of_nat_le 0 r ltac:(lia)). change (num_of_nat 0) with 0%Qc in *. qc_lra. }
  rewrite bool_decide_false by done.
  assert (num_of_nat (getSocketCount n t) ≤ rows)%Qc as H3 by (by eapply Qcle_trans).
  pose proof (num_mul_le _ _ (socketPitch d) Hp H3).
  set (h := (rows * _ + _)%Qc). pose proof (proj2 (num_max_spec (nodeChromeMinHeight d) h)). subst h.
  qc_lra.
Qed.

(** The distance between two sockets of one side is the pitch times the number
    of rows between them. *)
Lemma socket_spacing d n k k' t :
  (getSocketCenterY d n k' t - getSocketCenterY d n k t)%Qc =
  ((num_of_nat (getSocketIndex n k' t) - num_of_nat (getSocketIndex n k t)) * socketPitch d)%Qc.
Proof. unfold getSocketCenterY. ring. Qed.

(** How far down a socket is from the top of its node. *)
Lemma socket_offset d n k t :
  (0 < getSocketCount n t)%nat →
  (getSocketCenterY d n k t - ui_y n)%Qc =
  (half (getNodeMinHeight d n - num_of_nat (getSocketCount n t) * socketPitch d) +
   (num_of_nat (getSocketIndex n k t) + decimal 1 2) * socketPitch d)%Qc.
Proof.
  intros H. unfold getSocketCenterY. rewrite Nat.max_l by lia. unfold half, decimal.
  set (m := Q2Qc (QArith_base.Qmake 1 2)). ring.
Qed.

(** Socket geometry that makes sense: nothing negative. *)
Definition sane_dimensions (d : DimensionConfig) : Prop :=
  (0 < socketPitch d)%Qc ∧ (0 ≤ socketClearanceY d)%Qc.

Lemma defaultDimensions_sane : sane_dimensions defaultDimensions.
Proof. by vm_compute. Qed.

(** Every socket keeps the clearance and half a pitch from the top and the
    bottom of its node, however many sockets there are, and two sockets of one
    side are at least a pitch apart. *)
Theorem sockets_inside_node d n k t :
  sane_dimensions d → k ∈ getSocketKeys n t →
  let y := getSocketCenterY d n k t in
  let margin := (socketClearanceY d + half (socketPitch d))%Qc in
  (ui_y n + margin ≤ y ∧ y ≤ ui_y n + getNodeMinHeight d n - margin)%Qc ∧
  ∀ k', k' ∈ getSocketKeys n t → k' ≠ k →
    (socketPitch d ≤ num_abs (getSocketCenterY d n k' t - y))%Qc.
Proof.
  intros [Hp Hc] Hk y margin. pose proof (getSocketIndex_bound _ _ _ Hk) as Hi.
  assert (0 ≤ socketPitch d)%Qc as Hp' by by apply Qclt_le_weak. split.
  - pose proof (socket_offset d n k t ltac:(lia)) as Ho. fold y in Ho.
    pose proof (getNodeMinHeight_rows d n t ltac:(lia) Hp') as Hh.
    pose proof (num_mul_le _ _ _ Hp' (num_of_nat_le _ _ (Hi : (S _ ≤ _)%nat))) as H1.
    pose proof (num_mul_le _ _ _ Hp' (num_of_nat_le 0 (getSocketIndex n k t) ltac:(lia))) as H2.
    rewrite num_of_nat_S in H1. change (num_of_nat 0) with 0%Qc in H2.
    subst margin. clearbody y. split; num_lra.
  - intros k' Hk' Hne. subst y. rewrite socket_spacing.
    assert (getSocketIndex n k' t ≠ getSocketIndex n k t) as Hd
      by (intros E; apply Hne; by apply getSocketIndex_inj in E).
    assert (∀ i j : nat, (i < j)%nat → (socketPitch d ≤ (num_of_nat j - num_of_nat i) * socketPitch d)%Qc) as H.
    { intros i j Hij. pose proof (num_mul_le _ _ _ Hp' (num_of_nat_le _ _ (Hij : (S i ≤ j)%nat))) as H1.
      rewrite num_of_nat_S in H1. qc_lra. }
    destruct (Nat.lt_total (getSocketIndex n k t) (getSocketIndex n k' t)) as [Hlt|[|Hlt]]; [|lia|];
      apply H in Hlt; unfold num_abs; case_bool_decide; qc_lra.
Qed.
