(* ===== verification/Geometry.v ===== *)
(** * Geometry of the canvas (components/editor_canvas/utils/geometry.js and
    view_utils.js)

    Points, rectangles, the grid, the transformation between the screen and the
    canvas, and the viewport that fits all nodes.  A DOM rectangle is its left
    and top edge and its size.  [distance] takes a square root and is not used
    by the program; it is left out.

    Then the paths of connections. *)

From S2P Require Import Prelude JsMap JsValue JsNumber Node Adapter JsString Dimensions.

Record rect := Rect { r_x : num; r_y : num; r_width : num; r_height : num }.

(** [{ panX, panY, zoom }] *)
Record viewport := Viewport { panX : num; panY : num; vzoom : num }.

Definition pointInRect (p : position) (r : rect) : bool :=
  num_le (r_x r) (pos_x p) && num_le (pos_x p) (r_x r + r_width r)%Qc &&
  num_le (r_y r) (pos_y p) && num_le (pos_y p) (r_y r + r_height r)%Qc.

Definition rectsIntersect (a b : rect) : bool :=
  negb (num_lt (r_x a + r_width a)%Qc (r_x b) || num_lt (r_x b + r_width b)%Qc (r_x a) ||
        num_lt (r_y a + r_height a)%Qc (r_y b) || num_lt (r_y b + r_height b)%Qc (r_y a)).

Definition snapToGrid (value gridSize : num) : num :=
  (num_of_Z (num_round (value / gridSize)) * gridSize)%Qc.

Definition snapPositionToGrid (p : position) (gridSize : num) : position :=
  Position (snapToGrid (pos_x p) gridSize) (snapToGrid (pos_y p) gridSize).

Definition clamp (value lo hi : num) : num := num_max lo (num_min hi value).

(** [screenToCanvas(ev, containerEl, viewport)]: the event by its client
    coordinates, the element by its rectangle. *)
Definition screenToCanvas (client : position) (r : rect) (v : viewport) : position :=
  Position ((pos_x client - r_x r - panX v) / vzoom v)%Qc ((pos_y client - r_y r - panY v) / vzoom v)%Qc.

Definition canvasToScreen (canvasX canvasY : num) (v : viewport) : position :=
  Position (canvasX * vzoom v + panX v)%Qc (canvasY * vzoom v + panY v)%Qc.

Definition getSelectionBox (startPoint endPoint : position) : rect :=
  Rect (num_min (pos_x startPoint) (pos_x endPoint)) (num_min (pos_y startPoint) (pos_y endPoint))
    (num_abs (pos_x endPoint - pos_x startPoint)%Qc) (num_abs (pos_y endPoint - pos_y startPoint)%Qc).

(** ** View utilities *)

(** [estimateNodeHeight(node, dims)] for a [DimensionConfig]; the fallback for
    other objects is [estimate_fallback]. *)
Definition estimateNodeHeight (n : ui_node) (d : DimensionConfig) : num := dim_estimateNodeHeight d n.

Definition estimate_fallback (n : ui_node) (o : dim_options) : num :=
  let rowCount := Nat.max (length (ui_inputs n)) (length (ui_outputs n)) in
  let pitch := default (num_of_Z 24) (coalesce (o_socketPitch o) (o_socketSpacing o)) in
  let clearance := default (num_of_Z 10) (coalesce (o_socketClearanceY o) (o_nodeBodyPadding o)) in
  let minRows := default (num_of_Z 2) (o_socketMinRows o) in
  let chrome := default (num_of_Z 68) (o_nodeChromeMinHeight o) in
  let layoutRows := match rowCount with O => num_of_Z 0 | k => num_max (num_of_nat k) minRows end in
  let driven := if bool_decide (layoutRows = 0%Qc) then num_of_Z 0
                else (layoutRows * pitch + clearance * num_of_Z 2)%Qc in
  num_max chrome driven.

Inductive fit_mode := Contain | CoverWidth | CoverHeight.

#[export] Instance fit_mode_eq_dec : EqDecision fit_mode.
Proof. solve_decision. Defined.

Definition getFitZoom (mode : fit_mode) (canvas : rect) (contentWidth contentHeight topOffsetPx : num) : num :=
  let availableHeight := num_max (r_height canvas - topOffsetPx)%Qc 1%Qc in
  let widthZoom := (r_width canvas / contentWidth)%Qc in
  let heightZoom := (availableHeight / contentHeight)%Qc in
  match mode with
  | CoverWidth => num_min widthZoom 1%Qc
  | CoverHeight => num_min heightZoom 1%Qc
  | Contain => num_min (num_min widthZoom heightZoom) 1%Qc
  end.

(** The options of a fit. *)
Record fit_options := FitOptions {
  fo_padding : option num;
  fo_mode : option fit_mode;
  fo_topOffsetPx : option num;
}.

(** The smallest rectangle around the nodes; there is a first one. *)
Record bounds := Bounds { b_minX : num; b_maxX : num; b_minY : num; b_maxY : num }.

Definition content_bounds (n : ui_node) (ns : list ui_node) (d : DimensionConfig) : bounds :=
  let right n := (ui_x n + nodeWidth d)%Qc in
  let bottom n := (ui_y n + estimateNodeHeight n d)%Qc in
  Bounds (foldl (λ m n, num_min m (ui_x n)) (ui_x n) ns) (foldl (λ m n, num_max m (right n)) (right n) ns)
    (foldl (λ m n, num_min m (ui_y n)) (ui_y n) ns) (foldl (λ m n, num_max m (bottom n)) (bottom n) ns).

(** [calculateFitView(nodes, dims, canvasRect, options)] *)
Definition calculateFitView (nodes : list ui_node) (d : DimensionConfig) (canvas : rect) (o : fit_options)
    : option viewport :=
  match nodes with
  | [] => None
  | n :: ns =>
      let padding := default (num_of_Z 50) (fo_padding o) in
      let mode := default Contain (fo_mode o) in
      let topOffsetPx := num_max 0%Qc (default 0%Qc (fo_topOffsetPx o)) in
      let b := content_bounds n ns d in
      let contentWidth := num_max (b_maxX b - b_minX b + padding * num_of_Z 2)%Qc 1%Qc in
      let contentHeight := num_max (b_maxY b - b_minY b + padding * num_of_Z 2)%Qc 1%Qc in
      let z := getFitZoom mode canvas contentWidth contentHeight topOffsetPx in
      let topOffsetWorld := (topOffsetPx / z)%Qc in
      let availableHeightWorld := num_max ((r_height canvas - topOffsetPx) / z)%Qc 1%Qc in
      let centerYOffset := half (availableHeightWorld - contentHeight)%Qc in
      let fitTopOffset := if bool_decide (mode = CoverWidth) then 0%Qc else centerYOffset in
      Some (Viewport (half (r_width canvas) - half (b_minX b + b_maxX b) * z)%Qc
              (- b_minY b + padding + topOffsetWorld + fitTopOffset)%Qc z)
  end.

Definition getNodeBounds (n : ui_node) (d : DimensionConfig) : rect :=
  Rect (ui_x n) (ui_y n) (nodeWidth d) (estimateNodeHeight n d).

(** ** Facts *)

Lemma pointInRect_spec p r :
  pointInRect p r = true ↔
  (r_x r ≤ pos_x p ∧ pos_x p ≤ r_x r + r_width r)%Qc ∧ (r_y r ≤ pos_y p ∧ pos_y p ≤ r_y r + r_height r)%Qc.
Proof. unfold pointInRect. rewrite !andb_true_iff, !num_le_true. tauto. Qed.

(** Two rectangles that are not inside out intersect exactly when they have a
    point in common. *)
Theorem rectsIntersect_common_point a b :
  (0 ≤ r_width a)%Qc → (0 ≤ r_height a)%Qc → (0 ≤ r_width b)%Qc → (0 ≤ r_height b)%Qc →
  rectsIntersect a b = true ↔ ∃ p, pointInRect p a = true ∧ pointInRect p b = true.
Proof.
  intros Hwa Hha Hwb Hhb. unfold rectsIntersect.
  rewrite negb_true_iff, !orb_false_iff, !num_lt_false. setoid_rewrite pointInRect_spec. split.
  - intros (((H1 & H2) & H3) & H4).
    exists (Position (num_max (r_x a) (r_x b)) (num_max (r_y a) (r_y b))). simpl.
    split_and!; num_cases.
  - intros (p & ((? & ?) & ? & ?) & (? & ?) & ? & ?). split_and!; qc_lra.
Qed.

(** Converting to the canvas and back is the identity, relative to the element. *)
Lemma screen_roundtrip client r v :
  vzoom v ≠ 0%Qc →
  let p := screenToCanvas client r v in
  canvasToScreen (pos_x p) (pos_y p) v = Position (pos_x client - r_x r)%Qc (pos_y client - r_y r)%Qc.
Proof.
  intros Hz. unfold canvasToScreen, screenToCanvas. simpl. rewrite !num_div_mul by done. f_equal; ring.
Qed.

Lemma canvas_roundtrip x y r v :
  vzoom v ≠ 0%Qc →
  let p := canvasToScreen x y v in
  screenToCanvas (Position (pos_x p + r_x r)%Qc (pos_y p + r_y r)%Qc) r v = Position x y.
Proof.
  intros Hz. unfold canvasToScreen, screenToCanvas. simpl.
  assert (∀ a b p : num, ((a * vzoom v + p + b - b - p) / vzoom v = a)%Qc) as H.
  { intros a b p. replace (a * vzoom v + p + b - b - p)%Qc with (a * vzoom v)%Qc by ring.
    by apply num_mul_div. }
  by rewrite !H.
Qed.

(** The grid point is the nearest one: within half a step, a multiple of the
    step, and snapping again changes nothing. *)
Lemma snap_near v g : (0 < g)%Qc → (num_abs (snapToGrid v g - v) ≤ half g)%Qc.
Proof.
  intros Hg. unfold snapToGrid. destruct (num_round_spec (v / g)) as [H1 H2].
  assert (v / g * g = v)%Qc as E by (apply num_div_mul; by apply num_pos_ne).
  apply (num_mul_le _ _ g) in H1; [|by apply Qclt_le_weak].
  apply Qclt_le_weak, (num_mul_le _ _ g) in H2; [|by apply Qclt_le_weak].
  set (k := num_of_Z _) in *. clearbody k. set (q := (v / g)%Qc) in *. clearbody q.
  unfold num_abs. subst v. case_bool_decide; num_lra.
Qed.

Lemma snap_multiple k g : g ≠ 0%Qc → snapToGrid (num_of_Z k * g) g = (num_of_Z k * g)%Qc.
Proof. intros. unfold snapToGrid. by rewrite num_mul_div, num_round_Z by done. Qed.

Lemma snap_idempotent v g : g ≠ 0%Qc → snapToGrid (snapToGrid v g) g = snapToGrid v g.
Proof. intros. unfold snapToGrid at 2 3. by apply snap_multiple. Qed.

Lemma clamp_bounds v lo hi : (lo ≤ hi)%Qc → (lo ≤ clamp v lo hi ∧ clamp v lo hi ≤ hi)%Qc.
Proof. intros. unfold clamp. split; num_cases. Qed.

Lemma clamp_id v lo hi : (lo ≤ v)%Qc → (v ≤ hi)%Qc → clamp v lo hi = v.
Proof. intros. unfold clamp. num_cases. Qed.

(** The selection box is the smallest rectangle around the two corners. *)
Lemma getSelectionBox_hull p q :
  let b := getSelectionBox p q in
  pointInRect p b = true ∧ pointInRect q b = true ∧
  ∀ r, pointInRect p r = true → pointInRect q r = true →
    ∀ x, pointInRect x b = true → pointInRect x r = true.
Proof.
  simpl. split; [|split].
  - apply pointInRect_spec. simpl. split_and!; num_cases.
  - apply pointInRect_spec. simpl. split_and!; num_cases.
  - intros r. rewrite !pointInRect_spec. intros [[??] [??]] [[??] [??]] x. rewrite !pointInRect_spec. simpl.
    intros [[??] [??]]. split_and!; num_cases.
Qed.

(** The two estimates of a height agree. *)
Lemma estimate_agree n o : estimateNodeHeight n (new_dimensions o) = estimate_fallback n o.
Proof.
  unfold estimateNodeHeight, dim_estimateNodeHeight, getNodeMinHeight, getSocketDrivenMinHeight,
    getSocketLayoutRowCount, getSocketRowCount, estimate_fallback, new_dimensions. cbn [socketPitch socketClearanceY socketMinRows nodeChromeMinHeight]. cbv zeta.
  by destruct (Nat.max _ _).
Qed.

(** ** Fitting the view *)

Lemma content_bounds_spec n ns d m :
  m ∈ n :: ns →
  (b_minX (content_bounds n ns d) ≤ ui_x m ∧ ui_x m + nodeWidth d ≤ b_maxX (content_bounds n ns d))%Qc ∧
  (b_minY (content_bounds n ns d) ≤ ui_y m ∧
   ui_y m + estimateNodeHeight m d ≤ b_maxY (content_bounds n ns d))%Qc.
Proof.
  intros Hm. unfold content_bounds. simpl.
  destruct (foldl_min_spec ui_x ns (ui_x n)) as [A1 A2], (foldl_min_spec ui_y ns (ui_y n)) as [B1 B2],
    (foldl_max_spec (λ n, ui_x n + nodeWidth d)%Qc ns (ui_x n + nodeWidth d)%Qc) as [C1 C2],
    (foldl_max_spec (λ n, ui_y n + estimateNodeHeight n d)%Qc ns (ui_y n + estimateNodeHeight n d)%Qc) as [D1 D2].
  apply elem_of_cons in Hm as [->|Hm]; [done|]. split_and!; auto.
Qed.

Lemma getFitZoom_pos mode canvas w h top :
  (0 < r_width canvas)%Qc → (0 < w)%Qc → (0 < h)%Qc →
  (0 < getFitZoom mode canvas w h top)%Qc ∧ (getFitZoom mode canvas w h top ≤ 1)%Qc.
Proof.
  intros Hc Hw Hh. unfold getFitZoom.
  set (a := num_max _ _). assert (0 < a)%Qc as Ha.
  { pose proof (proj2 (num_max_spec (r_height canvas - top) 1)). subst a. qc_lra. }
  assert (0 < r_width canvas / w)%Qc as H1 by (apply num_lt_div; [done|]; qc_lra).
  assert (0 < a / h)%Qc as H2 by (apply num_lt_div; [done|]; qc_lra).
  set (x := (r_width canvas / w)%Qc) in *. set (y := (a / h)%Qc) in *. clearbody x y. clear a Ha.
  destruct mode; split; num_cases.
Qed.

Lemma getFitZoom_width mode canvas w h top :
  mode ≠ CoverHeight → (0 < w)%Qc → (getFitZoom mode canvas w h top * w ≤ r_width canvas)%Qc.
Proof.
  intros Hm Hw.
  assert (getFitZoom mode canvas w h top ≤ r_width canvas / w)%Qc as H.
  { unfold getFitZoom. set (x := (r_width canvas / w)%Qc). set (y := (_ / h)%Qc). clearbody x y.
    destruct mode; [num_cases|num_cases|done]. }
  apply (num_mul_le _ _ w) in H; [|by apply Qclt_le_weak]. by rewrite num_div_mul in H by by apply num_pos_ne.
Qed.

(** Fitting the view never enlarges, and unless it fits the height only, every
    node lies between the left and the right edge of the canvas, with the
    padding to spare. *)
Theorem fit_view_horizontal nodes d canvas o v n :
  calculateFitView nodes d canvas o = Some v → n ∈ nodes →
  (0 < r_width canvas)%Qc → default Contain (fo_mode o) ≠ CoverHeight →
  let margin := (default (num_of_Z 50) (fo_padding o) * vzoom v)%Qc in
  (0 < vzoom v ∧ vzoom v ≤ 1)%Qc ∧
  (margin ≤ pos_x (canvasToScreen (ui_x n) (ui_y n) v))%Qc ∧
  (pos_x (canvasToScreen (ui_x n + nodeWidth d) (ui_y n) v) ≤ r_width canvas - margin)%Qc.
Proof.
  intros Hv Hn Hc Hm. destruct nodes as [|n0 ns]; [done|]. unfold calculateFitView in Hv.
  destruct (content_bounds_spec n0 ns d n Hn) as [[Hl Hr] _]. cbv zeta in Hv.
  set (b := content_bounds n0 ns d) in *. clearbody b.
  set (p := default (num_of_Z 50) (fo_padding o)) in *.
  set (w := num_max (b_maxX b - b_minX b + p * num_of_Z 2)%Qc 1%Qc) in *.
  set (h := num_max (b_maxY b - b_minY b + p * num_of_Z 2)%Qc 1%Qc) in *.
  assert (0 < w)%Qc as Hw by (pose proof (proj2 (num_max_spec (b_maxX b - b_minX b + p * num_of_Z 2) 1)); subst w; qc_lra).
  assert (0 < h)%Qc as Hh by (pose proof (proj2 (num_max_spec (b_maxY b - b_minY b + p * num_of_Z 2) 1)); subst h; qc_lra).
  set (top := num_max 0%Qc _) in *. set (mode := default Contain (fo_mode o)) in *.
  pose proof (getFitZoom_pos mode canvas w h top Hc Hw Hh) as [Hz1 Hz2].
  pose proof (getFitZoom_width mode canvas w h top Hm Hw) as Hzw.
  set (z := getFitZoom mode canvas w h top) in *. injection Hv as <-. unfold canvasToScreen.
  cbn [vzoom panX panY pos_x pos_y]. clearbody z.
  split; [done|].
  pose proof (num_mul_le _ _ z (Qclt_le_weak _ _ Hz1) (proj1 (num_max_spec (b_maxX b - b_minX b + p * num_of_Z 2) 1))) as H1.
  fold w in H1. clearbody w p.
  pose proof (num_mul_le _ _ z (Qclt_le_weak _ _ Hz1) Hl) as H2.
  pose proof (num_mul_le _ _ z (Qclt_le_weak _ _ Hz1) Hr) as H3.
  split; num_lra.
Qed.

(** A node with nothing in it, at a place. *)
Definition bare_node (i : string) (x y : Z) : ui_node :=
  UiNode (Some i) "noop" "" false (num_of_Z x) (num_of_Z y) "" "" [] [] false.

Definition plain_fit : fit_options := FitOptions None None None.

(** The vertical shift is computed in units of the canvas but applied in pixels
    of the screen: two nodes side by side on a canvas of 1000 by 800 pixels end
    up above the upper edge. *)
Theorem fit_view_hides_nodes :
  let nodes := [bare_node "a" 0 2000; bare_node "b" 3000 2000] in
  match calculateFitView nodes defaultDimensions (Rect 0 0 (num_of_Z 1000) (num_of_Z 800)) plain_fit with
  | None => False
  | Some v => forallb (λ n, num_lt (pos_y (canvasToScreen (ui_x n)
                (ui_y n + estimateNodeHeight n defaultDimensions) v)) 0%Qc) nodes = true
  end.
Proof. vm_compute. reflexivity. Qed.

(** * Connection paths (components/editor_canvas/utils/connection_path.js)

    The SVG paths drawn for a connection.  A path is a list of drawing commands,
    which [print_path] turns into the text of the [d] attribute; numbers are
    printed by the argument [show].  [getPathMidpoint] measures an SVG element of
    the browser and is left out. *)

Inductive segment :=
| MoveTo (p : position)
| LineTo (p : position)
| QuadTo (c p : position)
| CubicTo (c1 c2 p : position).

(** Where the pen is after a command. *)
Definition seg_end (s : segment) : position :=
  match s with MoveTo p | LineTo p | QuadTo _ p | CubicTo _ _ p => p end.

Definition getBezierPath (s t : position) : list segment :=
  let dx := num_abs (pos_x t - pos_x s)%Qc in
  let controlOffset := num_max (half dx) (num_of_Z 50) in
  [MoveTo s;
   CubicTo (Position (pos_x s + controlOffset)%Qc (pos_y s))
     (Position (pos_x t - controlOffset)%Qc (pos_y t)) t].

(** [path1], [path2] and the midpoint. *)
Definition getBackEdgePath (s t : position) : list segment * list segment * position :=
  let EDGE_PADDING_BOTTOM := num_of_Z 80 in
  let r := num_of_Z 20 in
  let rightX := (pos_x s + r)%Qc in
  let leftX := (pos_x t - r)%Qc in
  let bottomY := (num_max (pos_y s) (pos_y t) + EDGE_PADDING_BOTTOM)%Qc in
  let midBottomX := half (rightX + leftX)%Qc in
  ([MoveTo s;
    LineTo (Position rightX (pos_y s));
    QuadTo (Position (rightX + r)%Qc (pos_y s)) (Position (rightX + r)%Qc (pos_y s + r)%Qc);
    LineTo (Position (rightX + r)%Qc (bottomY - r)%Qc);
    QuadTo (Position (rightX + r)%Qc bottomY) (Position rightX bottomY);
    LineTo (Position midBottomX bottomY)],
   [MoveTo (Position midBottomX bottomY);
    LineTo (Position leftX bottomY);
    QuadTo (Position (leftX - r)%Qc bottomY) (Position (leftX - r)%Qc (bottomY - r)%Qc);
    LineTo (Position (leftX - r)%Qc (pos_y t + r)%Qc);
    QuadTo (Position (leftX - r)%Qc (pos_y t)) (Position leftX (pos_y t));
    LineTo t],
   Position midBottomX bottomY).

Definition getVerticalStackPath (s t : position) : list segment * list segment :=
  let r := num_of_Z 16 in
  let EDGE_OFFSET_X := num_of_Z 60 in
  let midX := half (pos_x s + pos_x t)%Qc in
  let midY := half (pos_y s + pos_y t)%Qc in
  let rightX := (num_max (pos_x s) (pos_x t) + EDGE_OFFSET_X)%Qc in
  let leftX := (num_min (pos_x s) (pos_x t) - EDGE_OFFSET_X)%Qc in
  ([MoveTo s;
    LineTo (Position (rightX - r)%Qc (pos_y s));
    QuadTo (Position rightX (pos_y s)) (Position rightX (pos_y s + r)%Qc);
    LineTo (Position rightX (midY - r)%Qc);
    QuadTo (Position rightX midY) (Position (rightX - r)%Qc midY);
    LineTo (Position midX midY)],
   [MoveTo (Position midX midY);
    LineTo (Position (leftX + r)%Qc midY);
    QuadTo (Position leftX midY) (Position leftX (midY + r)%Qc);
    LineTo (Position leftX (pos_y t - r)%Qc);
    QuadTo (Position leftX (pos_y t)) (Position (leftX + r)%Qc (pos_y t));
    LineTo t]).

(** ** The text of a path *)

Section print.
Context (show : num → string).

Definition print_point (p : position) : string := show (pos_x p) +:+ " " +:+ show (pos_y p).

Definition print_segment (s : segment) : string :=
  match s with
  | MoveTo p => "M " +:+ print_point p
  | LineTo p => "L " +:+ print_point p
  | QuadTo c p => "Q " +:+ print_point c +:+ ", " +:+ print_point p
  | CubicTo c1 c2 p => "C " +:+ print_point c1 +:+ ", " +:+ print_point c2 +:+ ", " +:+ print_point p
  end.

(** The commands are apart by a space or, in the longer templates, by a line
    break and the indentation of the source. *)
Definition newline : string := String "010" EmptyString.
Definition print_path (sep : string) (segs : list segment) : string := join sep (print_segment <$> segs).
Definition back_edge_sep : string := newline +:+ "            ".
Definition vertical_sep : string := newline +:+ "        ".

(** What [getConnectionPath] gives. *)
Record conn_path := ConnPath {
  cp_paths : list string;
  cp_isBackEdge : bool;
  cp_isVerticalStack : bool;
  cp_midpoint : option position;
}.

Definition getConnectionPath (s t : position) (ty : connection_type) : conn_path :=
  if isVerticalStack ty then
    let '(path1, path2) := getVerticalStackPath s t in
    ConnPath [print_path vertical_sep path1; print_path vertical_sep path2] false true
      (Some (Position (half (pos_x s + pos_x t)%Qc) (half (pos_y s + pos_y t)%Qc)))
  else if isBackEdge ty then
    let '(path1, path2, midpoint) := getBackEdgePath s t in
    ConnPath [print_path back_edge_sep path1; print_path back_edge_sep path2] true false (Some midpoint)
  else ConnPath [print_path " " (getBezierPath s t)] false false None.
End print.

(** ** What is drawn *)

(** The commands of a connection, before printing. *)
Definition connection_segments (s t : position) : list (list segment) :=
  let ty := detectConnectionType s t in
  if isVerticalStack ty then [(getVerticalStackPath s t).1; (getVerticalStackPath s t).2]
  else if isBackEdge ty then [(getBackEdgePath s t).1.1; (getBackEdgePath s t).1.2]
  else [getBezierPath s t].

(** The commands lead from [p] to [q]: they start by moving to [p]. *)
Definition leads_from_to (p q : position) (segs : list segment) : Prop :=
  head segs = Some (MoveTo p) ∧ seg_end <$> last segs = Some q.

(** Every straight line is horizontal or vertical, and not reversed: [pen] is
    where it starts. *)
Fixpoint right_angled (pen : position) (segs : list segment) : Prop :=
  match segs with
  | [] => True
  | s :: segs =>
      (if s is LineTo p then pos_x p = pos_x pen ∨ pos_y p = pos_y pen else True) ∧
      right_angled (seg_end s) segs
  end.

(** The path of a connection leads from the source socket to the target
    socket: one curve for a forward edge, two halves that meet in the midpoint
    where the toolbar is shown for the others, whose lines run parallel to the
    axes; and back edges and vertical stacks are exclusive. *)
Theorem connection_path_leads show s t :
  let ty := detectConnectionType s t in
  let r := getConnectionPath show s t ty in
  isVerticalStack ty && isBackEdge ty = false ∧
  cp_isVerticalStack r = isVerticalStack ty ∧ cp_isBackEdge r = isBackEdge ty ∧
  length (cp_paths r) = length (connection_segments s t) ∧
  match cp_midpoint r, connection_segments s t with
  | None, [path] => leads_from_to s t path
  | Some m, [path1; path2] =>
      leads_from_to s m path1 ∧ leads_from_to m t path2 ∧ right_angled s path1 ∧ right_angled m path2
  | _, _ => False
  end.
Proof.
  cbv zeta. unfold getConnectionPath, connection_segments.
  assert (isVerticalStack (detectConnectionType s t) && isBackEdge (detectConnectionType s t) = false) as E.
  { unfold detectConnectionType. simpl. by destruct (_ && num_lt 0 _), (num_lt CONNECTION_HANDLE_SIZE _). }
  split; [done|]. destruct (detectConnectionType s t) as [[] []]; simpl in *; try done;
    unfold leads_from_to; simpl; split_and!; first [done|by left|by right].
Qed.
