(* ===== verification/Culling.v ===== *)
(** * Which connections are drawn (components/editor_canvas/hooks/use_connection_culling.js)

    The hook keeps a cache of the path of each connection and draws the
    connections that have an end in view.  The view, the nodes and the
    connections are what its getters answer; the cache is the state. *)

From S2P Require Import Prelude JsMap JsValue JsNumber JsString Connection Node Adapter Dimensions Geometry.

#[local] Arguments String.append : simpl nomatch.

Definition MAX_NODE_WIDTH : num := num_of_Z 500.
Definition MAX_NODE_HEIGHT : num := num_of_Z 500.

Definition isNodeVisible (n : ui_node) (r : option rect) : bool :=
  match r with
  | None => true
  | Some r =>
      num_lt (ui_x n) (r_x r + r_width r)%Qc && num_lt (r_x r) (ui_x n + MAX_NODE_WIDTH)%Qc &&
      num_lt (ui_y n) (r_y r + r_height r)%Qc && num_lt (r_y r) (ui_y n + MAX_NODE_HEIGHT)%Qc
  end.

(** A connection with its path: [{ ...conn, ...pathDetails }]. *)
Record rendered := Rendered { rd_conn : ui_connection; rd_path : conn_path }.

(** [pathCache]: the latest key and path of each connection id. *)
Abbreviation path_cache := (list (string * (string * conn_path))).

Section culling.
Context (show : num → string).
Context (getSocketPosition : ui_node → string → socket_type → position).
Implicit Types (c : ui_connection) (cache : path_cache).

Definition path_key (connId : string) (s t : position) : string :=
  connId +:+ ":" +:+ show (pos_x s) +:+ "," +:+ show (pos_y s) +:+ ":" +:+
  show (pos_x t) +:+ "," +:+ show (pos_y t).

Definition getRenderedPath cache c (sourceNode targetNode : ui_node) : path_cache * conn_path :=
  let sourcePos := getSocketPosition sourceNode (uc_sourceHandle c) OutputSocket in
  let targetPos := getSocketPosition targetNode (uc_targetHandle c) InputSocket in
  let key := path_key (uc_id c) sourcePos targetPos in
  let compute :=
    let result := getConnectionPath show sourcePos targetPos (detectConnectionType sourcePos targetPos) in
    (mset (uc_id c) (key, result) cache, result) in
  match jget (uc_id c) cache with
  | Some (k, value) => if k =s key then (cache, value) else compute
  | None => compute
  end.

(** [nodeById]: later nodes with the same id replace earlier ones. *)
Definition nodeById (nodes : list ui_node) : list (string * ui_node) :=
  foldl (λ m n, match ui_id n with Some i => mset i n m | None => m end) [] nodes.

(** [visibleNodeIds] *)
Definition visibleNodeIds (nodes : list ui_node) (r : option rect) : list string :=
  omap ui_id (bfilter (λ n, isNodeVisible n r) nodes).

(** The loop of [renderedConnections]. *)
Fixpoint render_loop (byId : list (string * ui_node)) (visible : list string) cache
    (conns : list ui_connection) : path_cache * list rendered :=
  match conns with
  | [] => (cache, [])
  | c :: conns =>
      if bool_decide (uc_source c ∉ visible) && bool_decide (uc_target c ∉ visible)
      then render_loop byId visible cache conns
      else
        match jget (uc_source c) byId, jget (uc_target c) byId with
        | Some s, Some t =>
            let '(cache, p) := getRenderedPath cache c s t in
            let '(cache, rs) := render_loop byId visible cache conns in
            (cache, Rendered c p :: rs)
        | _, _ => render_loop byId visible cache conns
        end
  end.

Definition renderedConnections cache (nodes : list ui_node) (conns : list ui_connection) (r : option rect)
    : path_cache * list rendered :=
  render_loop (nodeById nodes) (visibleNodeIds nodes r) cache conns.

Definition visibleNodes (nodes : list ui_node) (r : option rect) : list ui_node :=
  bfilter (λ n, isNodeVisible n r) nodes.

(** ** The cache cannot be seen *)

(** What the connections look like without a cache. *)
Definition path_of c (s t : ui_node) : conn_path :=
  let sourcePos := getSocketPosition s (uc_sourceHandle c) OutputSocket in
  let targetPos := getSocketPosition t (uc_targetHandle c) InputSocket in
  getConnectionPath show sourcePos targetPos (detectConnectionType sourcePos targetPos).

Definition drawn (byId : list (string * ui_node)) (visible : list string) c : option rendered :=
  if bool_decide (uc_source c ∈ visible) || bool_decide (uc_target c ∈ visible) then
    s ← jget (uc_source c) byId; t ← jget (uc_target c) byId; Some (Rendered c (path_of c s t))
  else None.

Definition rendered_reference (nodes : list ui_node) (conns : list ui_connection) (r : option rect)
    : list rendered :=
  omap (drawn (nodeById nodes) (visibleNodeIds nodes r)) conns.

(** What is relied on of the printing of numbers: different numbers are printed
    differently, without the separators of the keys. *)
Definition show_ok : Prop :=
  (∀ x y, show x = show y → x = y) ∧ ∀ x, lacks "," (show x) = true ∧ lacks ":" (show x) = true.

(** Every entry is the path of the positions in its key. *)
Definition cache_ok cache : Prop :=
  ∀ i k p, jget i cache = Some (k, p) →
    ∃ s t, k = path_key i s t ∧ p = getConnectionPath show s t (detectConnectionType s t).

Lemma string_app_inv_l (s a b : string) : s +:+ a = s +:+ b → a = b.
Proof using Type. induction s as [|x s IH]; simpl; [done|]. by intros [= ?%IH]. Qed.

Context (Hshow : show_ok).

Lemma cut_inv sep (a b r r' : string) :
  lacks sep a = true → lacks sep b = true → a +:+ String sep r = b +:+ String sep r' → a = b ∧ r = r'.
Proof using Type.
  intros Ha Hb H%(f_equal (cut_at sep)). rewrite !cut_at_app in H by done. by simplify_eq.
Qed.

Lemma path_key_inj i s t s' t' : path_key i s t = path_key i s' t' → s = s' ∧ t = t'.
Proof using Hshow.
  destruct Hshow as [Hinj Hsep]. unfold path_key. intros H%string_app_inv_l. simpl in H.
  injection H as H. apply cut_inv in H as [H1 H]; [|apply Hsep..].
  apply cut_inv in H as [H2 H]; [|apply Hsep..]. apply cut_inv in H as [H3 H4]; [|apply Hsep..].
  apply Hinj in H1, H2, H3, H4. destruct s, t, s', t'. simpl in *. by subst.
Qed.

Lemma getRenderedPath_spec cache c s t :
  cache_ok cache →
  cache_ok (getRenderedPath cache c s t).1 ∧ (getRenderedPath cache c s t).2 = path_of c s t.
Proof using Hshow.
  intros Hc. unfold getRenderedPath.
  set (sp := getSocketPosition s _ _). set (tp := getSocketPosition t _ _). cbv zeta.
  set (res := getConnectionPath show sp tp _).
  assert (cache_ok (mset (uc_id c) (path_key (uc_id c) sp tp, res) cache)) as Hset.
  { intros i k p. rewrite jget_mset. case_bool_decide as E; [|apply Hc]. intros [= <- <-]. subst i. eauto. }
  destruct (jget (uc_id c) cache) as [[k p]|] eqn:E; [|by split].
  case_bool_decide as Ek; [|by split]. split; [done|]. simpl.
  destruct (Hc _ _ _ E) as (s' & t' & -> & ->). apply path_key_inj in Ek as [-> ->]. done.
Qed.

Lemma render_loop_spec byId visible conns cache :
  cache_ok cache →
  cache_ok (render_loop byId visible cache conns).1 ∧
  (render_loop byId visible cache conns).2 = omap (drawn byId visible) conns.
Proof using Hshow.
  revert cache. induction conns as [|c conns IH]; intros cache Hc; [done|]. csimpl.
  unfold drawn at 1. repeat case_bool_decide; try tauto; simpl; try by apply IH.
  all: destruct (jget (uc_source c) byId) as [s|]; simpl; [|by apply IH];
    destruct (jget (uc_target c) byId) as [t|]; simpl; [|by apply IH];
    destruct (getRenderedPath_spec cache c s t Hc) as [Hc' Hp];
    destruct (getRenderedPath cache c s t) as [cache' p]; simpl in *;
    destruct (IH cache' Hc') as [Hl Hr]; destruct (render_loop byId visible cache' conns);
    simpl in *; split; [done|by subst].
Qed.
End culling.

(** ** Properties *)

(** A way to print numbers that satisfies [show_ok], for examples. *)
Fixpoint show_positive (p : positive) : string :=
  match p with xH => "1" | xO p => "0" +:+ show_positive p | xI p => "1" +:+ show_positive p end.

Definition show_integer (z : Z) : string :=
  match z with Z0 => "0" | Zpos p => "+" +:+ show_positive p | Zneg p => "-" +:+ show_positive p end.

Definition show_num (x : num) : string :=
  show_integer (QArith_base.Qnum (this x)) +:+ "/" +:+ show_positive (QArith_base.Qden (this x)).

Lemma show_positive_nonempty p : show_positive p ≠ "".
Proof. by destruct p. Qed.

Lemma show_positive_inj p q : show_positive p = show_positive q → p = q.
Proof.
  revert q. induction p as [p IH|p IH|]; intros [q|q|]; simpl; try done.
  - intros [= ?%IH]. by subst.
  - intros [= H]. by destruct (show_positive_nonempty p).
  - intros [= ?%IH]. by subst.
  - intros [= H]. by destruct (show_positive_nonempty q).
Qed.

Lemma lacks_app c s t : lacks c (s +:+ t) = lacks c s && lacks c t.
Proof.
  unfold lacks. induction s as [|x s IH]; simpl; [done|]. case_bool_decide; [done|].
  destruct (cut_at c (s +:+ t)) as [[]|], (cut_at c s) as [[]|]; simpl in *; done.
Qed.

Lemma show_positive_lacks c p : c ≠ "0"%char → c ≠ "1"%char → lacks c (show_positive p) = true.
Proof.
  intros H0 H1. induction p as [p IH|p IH|]; simpl; unfold lacks in *; simpl;
    rewrite bool_decide_false by done; try done; by destruct (cut_at c (show_positive p)) as [[]|].
Qed.

Lemma lacks_cons c d s : c ≠ d → lacks c s = true → lacks c (String d s) = true.
Proof.
  intros Hd Hs. unfold lacks in *. simpl. rewrite bool_decide_false by done.
  by destruct (cut_at c s) as [[]|].
Qed.

Lemma show_integer_lacks c z :
  c ≠ "0"%char → c ≠ "1"%char → c ≠ "+"%char → c ≠ "-"%char → lacks c (show_integer z) = true.
Proof. intros. destruct z; simpl; apply lacks_cons; try done; by apply show_positive_lacks. Qed.

Lemma show_integer_inj a b : show_integer a = show_integer b → a = b.
Proof. destruct a, b; try done; intros [= H%show_positive_inj]; by subst. Qed.

Lemma show_num_ok : show_ok show_num.
Proof.
  split.
  - intros x y H. apply cut_inv in H as [H1%show_integer_inj H2%show_positive_inj];
      [|by apply show_integer_lacks..].
    apply Qc_is_canon. unfold QArith_base.Qeq. by rewrite H1, H2.
  - intros x. unfold show_num. rewrite !lacks_app, !show_integer_lacks, !show_positive_lacks by done.
    by split.
Qed.

(** One evaluation of [renderedConnections]: what the getters answer then. *)
Record frame := Frame {
  fr_socketPosition : ui_node → string → socket_type → position;
  fr_nodes : list ui_node;
  fr_connections : list ui_connection;
  fr_viewRect : option rect;
}.

Fixpoint render_frames (show : num → string) (cache : path_cache) (frames : list frame) : list (list rendered) :=
  match frames with
  | [] => []
  | f :: frames =>
      let '(cache, rs) :=
        renderedConnections show (fr_socketPosition f) cache (fr_nodes f) (fr_connections f) (fr_viewRect f) in
      rs :: render_frames show cache frames
  end.

(** C17: The cache is transparent: however the nodes, the connections, the sizes and
    the view change from frame to frame, what is drawn is what a hook without
    a cache draws. *)
Theorem culling_cache_transparent show frames :
  show_ok show →
  render_frames show [] frames =
    (λ f, rendered_reference show (fr_socketPosition f) (fr_nodes f) (fr_connections f) (fr_viewRect f)) <$> frames.
Proof.
  intros Hs. assert (cache_ok show []) as H by done. revert H. generalize (@nil (string * (string * conn_path))).
  induction frames as [|f frames IH]; intros cache Hc; [done|]. csimpl. unfold renderedConnections.
  destruct (render_loop_spec show (fr_socketPosition f) Hs (nodeById (fr_nodes f))
    (visibleNodeIds (fr_nodes f) (fr_viewRect f)) (fr_connections f) cache Hc) as [H1 H2].
  destruct (render_loop _ _ _ _ _ _) as [cache' rs]. simpl in *. by rewrite IH, H2.
Qed.

Lemma nodeById_spec nodes n i :
  NoDup (ui_id <$> nodes) → n ∈ nodes → ui_id n = Some i → jget i (nodeById nodes) = Some n.
Proof.
  unfold nodeById. generalize (@nil (string * ui_node)) as m.
  induction nodes as [|x nodes IH]; intros m; [by intros _ ?%not_elem_of_nil|]. csimpl.
  intros [Hx Hnd]%NoDup_cons [->|Hn]%elem_of_cons Hi; [|by apply IH].
  rewrite Hi. clear IH. assert (Some i ∉ ui_id <$> nodes) as Hni by congruence.
  assert (jget i (mset i x m) = Some x) as Hm by apply jget_mset_eq.
  revert Hm. generalize (mset i x m). clear -Hni. induction nodes as [|y nodes IH]; intros k Hk; [done|].
  csimpl. csimpl in Hni. apply not_elem_of_cons in Hni as [Hy Hni].
  destruct (ui_id y) as [j|] eqn:Ey; apply IH; try done. rewrite jget_mset_ne by congruence. done.
Qed.

(** A node no larger than the bound is visible as soon as one of its points is
    strictly inside the view. *)
Lemma isNodeVisible_bounds d n r p :
  (nodeWidth d ≤ MAX_NODE_WIDTH)%Qc → (estimateNodeHeight n d ≤ MAX_NODE_HEIGHT)%Qc →
  pointInRect p (getNodeBounds n d) = true →
  (r_x r < pos_x p ∧ pos_x p < r_x r + r_width r)%Qc → (r_y r < pos_y p ∧ pos_y p < r_y r + r_height r)%Qc →
  isNodeVisible n (Some r) = true.
Proof.
  rewrite pointInRect_spec. unfold getNodeBounds, isNodeVisible. cbn [r_x r_y r_width r_height].
  intros Hw Hh [[H1 H2] [H3 H4]] [H5 H6] [H7 H8]. rewrite !andb_true_iff, !num_lt_true.
  set (h := estimateNodeHeight n d) in *. clearbody h. split_and!; qc_lra.
Qed.

(** Nothing in view is left out: a connection between existing nodes, one of
    which shows a point inside the view, is drawn; and what is drawn are
    connections of the graph, in their order. *)
Theorem culling_complete show pos d nodes conns r c s t n p :
  NoDup (ui_id <$> nodes) → c ∈ conns →
  s ∈ nodes → ui_id s = Some (uc_source c) → t ∈ nodes → ui_id t = Some (uc_target c) →
  n = s ∨ n = t →
  (nodeWidth d ≤ MAX_NODE_WIDTH)%Qc → (estimateNodeHeight n d ≤ MAX_NODE_HEIGHT)%Qc →
  pointInRect p (getNodeBounds n d) = true →
  (r_x r < pos_x p ∧ pos_x p < r_x r + r_width r)%Qc → (r_y r < pos_y p ∧ pos_y p < r_y r + r_height r)%Qc →
  Rendered c (path_of show pos c s t) ∈ rendered_reference show pos nodes conns (Some r) ∧
  sublist (rd_conn <$> rendered_reference show pos nodes conns (Some r)) conns.
Proof.
  intros Hnd Hc Hs His Ht Hit Hn Hw Hh Hp Hx Hy. split.
  - unfold rendered_reference. apply list_elem_of_omap. exists c. split; [done|]. unfold drawn.
    rewrite (nodeById_spec nodes s (uc_source c) Hnd Hs His), (nodeById_spec nodes t (uc_target c) Hnd Ht Hit). simpl.
    pose proof (isNodeVisible_bounds d n r p Hw Hh Hp Hx Hy) as Hv.
    assert (∀ m j, m ∈ nodes → ui_id m = Some j → isNodeVisible m (Some r) = true →
              j ∈ visibleNodeIds nodes (Some r)) as Hvis.
    { intros m j ???. apply list_elem_of_omap. exists m. by rewrite elem_of_bfilter. }
    destruct Hn as [-> | ->]; [rewrite (bool_decide_true (uc_source c ∈ _))|
      rewrite (bool_decide_true (uc_target c ∈ _)), orb_true_r]; eauto.
  - clear. unfold rendered_reference. generalize (nodeById nodes), (visibleNodeIds nodes (Some r)).
    intros byId vis. induction conns as [|c conns IH]; [done|]. csimpl. unfold drawn at 1.
    destruct (_ || _); [|by constructor].
    destruct (jget (uc_source c) byId); simpl; [|by constructor].
    destruct (jget (uc_target c) byId); simpl; by constructor.
Qed.

(** ** Examples *)

Definition culling_nodes : list ui_node :=
  [UiNode (Some "a") "noop" "" false 0 0 "" "" [] [("out", JNull)] false;
   UiNode (Some "b") "noop" "" false (num_of_Z 400) 0 "" "" [("in", JNull)] [] false].
Definition culling_conns : list ui_connection := [UiConnection "c" "a" "out" "b" "in"].
Definition culling_rect : rect := Rect (num_of_Z 500) (num_of_Z 5) (num_of_Z 100) (num_of_Z 100).
Definition culling_frame (nodes : list ui_node) : frame :=
  Frame (getSocketPosition defaultDimensions) nodes culling_conns (Some culling_rect).

Lemma culling_cache_transparent_witness :
  show_ok show_num ∧
  render_frames show_num [] [culling_frame culling_nodes; culling_frame culling_nodes; culling_frame []] =
    (λ f, rendered_reference show_num (fr_socketPosition f) (fr_nodes f) (fr_connections f) (fr_viewRect f)) <$>
    [culling_frame culling_nodes; culling_frame culling_nodes; culling_frame []].
Proof. split; [exact show_num_ok|]. exact (culling_cache_transparent show_num _ show_num_ok). Defined.

Lemma culling_complete_witness :
  ∃ x, x ∈ rendered_reference show_num (getSocketPosition defaultDimensions) culling_nodes culling_conns
             (Some culling_rect).
Proof.
  eexists. eapply (culling_complete show_num (getSocketPosition defaultDimensions) defaultDimensions
    culling_nodes culling_conns culling_rect (UiConnection "c" "a" "out" "b" "in") _ _ _
    (Position (num_of_Z 510) (num_of_Z 10))).
  - by apply (bool_decide_unpack _).
  - by left.
  - by left.
  - reflexivity.
  - right. by left.
  - reflexivity.
  - by right.
  - by vm_compute.
  - by vm_compute.
  - by vm_compute.
  - split; by vm_compute.
  - split; by vm_compute.
Defined.
