(* ===== verification/ViewportHook.v ===== *)
(** * The viewport (components/editor_canvas/hooks/use_viewport.js)

    Zoom and pan, kept in the store when there is an editor and in the hook
    otherwise (viewer mode), and the visible rectangle.  A wheel event waits for
    the next animation frame: [onWheel] books it and [wheel_frame] is the frame.
    The root element is its rectangle, [None] while it is not mounted. *)

From S2P Require Import Prelude JsMap JsValue JsNumber Node Adapter AdapterRun Nodes Store Dimensions Geometry.

Record wheel_event := WheelEvent {
  we_overOverlay : bool;  (** over the menu, the toolbar or the controls *)
  we_deltaY : num;
  we_client : position;
}.

(** The hook; [vs_editor] is the service it was given, if any. *)
Record vstate := VState {
  vs_editor : option store;
  vs_localPan : position;
  vs_localZoom : num;
  vs_viewRect : rect;
  vs_scrollFrame : option wheel_event;
}.

Definition with_vs_editor (s : vstate) (e : option store) : vstate :=
  VState e (vs_localPan s) (vs_localZoom s) (vs_viewRect s) (vs_scrollFrame s).
Definition with_local (s : vstate) (p : position) (z : num) : vstate :=
  VState (vs_editor s) p z (vs_viewRect s) (vs_scrollFrame s).
Definition with_viewRect (s : vstate) (r : rect) : vstate :=
  VState (vs_editor s) (vs_localPan s) (vs_localZoom s) r (vs_scrollFrame s).
Definition with_scrollFrame (s : vstate) (f : option wheel_event) : vstate :=
  VState (vs_editor s) (vs_localPan s) (vs_localZoom s) (vs_viewRect s) f.

(** [useViewport({ editor, ..., initialViewport })] *)
Definition useViewport (editor : option store) (initialPan : option position) (initialZoom : option num)
    : vstate :=
  VState editor (default origin initialPan) (default 1%Qc initialZoom) (Rect 0 0 0 0) None.

Definition getViewport (s : vstate) : viewport :=
  match vs_editor s with
  | Some e => Viewport (pos_x (pan (st_ui e))) (pos_y (pan (st_ui e))) (zoom (st_ui e))
  | None => Viewport (pos_x (vs_localPan s)) (pos_y (vs_localPan s)) (vs_localZoom s)
  end.

(** [setViewport({ pan, zoom })] *)
Definition hook_setViewport (s : vstate) (p : option position) (z : option num) : vstate :=
  match vs_editor s with
  | Some e => with_vs_editor s (Some (setViewport e p z))
  | None => with_local s (default (vs_localPan s) p) (default (vs_localZoom s) z)
  end.

Section styles.
Context (show : num → string).

Definition getViewportTransformStyle (s : vstate) : string :=
  let v := getViewport s in
  "transform: translate(" +:+ show (panX v) +:+ "px, " +:+ show (panY v) +:+ "px) scale(" +:+
  show (vzoom v) +:+ "); transform-origin: 0 0;".

Definition getCanvasBackgroundStyle (s : vstate) : string :=
  let v := getViewport s in
  let gridSize := (num_of_Z 20 * vzoom v)%Qc in
  "background-size: " +:+ show gridSize +:+ "px " +:+ show gridSize +:+ "px; background-position: " +:+
  show (panX v) +:+ "px " +:+ show (panY v) +:+ "px;".
End styles.

Definition getCanvasPosition (s : vstate) (client : position) (root : rect) : position :=
  screenToCanvas client root (getViewport s).
Definition getScreenPosition (s : vstate) (canvasX canvasY : num) : position :=
  canvasToScreen canvasX canvasY (getViewport s).

Definition BUFFER : num := num_of_Z 300.

(** [updateViewRect()] *)
Definition visible_rect (v : viewport) (root : rect) : rect :=
  Rect (- panX v / vzoom v - BUFFER)%Qc (- panY v / vzoom v - BUFFER)%Qc
    (r_width root / vzoom v + BUFFER * num_of_Z 2)%Qc (r_height root / vzoom v + BUFFER * num_of_Z 2)%Qc.

Definition updateViewRect (s : vstate) (root : option rect) : vstate :=
  match root with
  | None => s
  | Some r => with_viewRect s (visible_rect (getViewport s) r)
  end.

(** [onWheel(ev)]; a second event before the frame is dropped. *)
Definition onWheel (s : vstate) (readonly : bool) (ev : wheel_event) : vstate :=
  if readonly then s
  else if we_overOverlay ev then s
  else match vs_scrollFrame s with
       | Some _ => s
       | None => with_scrollFrame s (Some ev)
       end.

Definition WHEEL_MIN : num := decimal 25 100.
Definition WHEEL_MAX : num := num_of_Z 2.

(** The zoom and pan a wheel event leads to. *)
Definition wheel_viewport (v : viewport) (ev : wheel_event) (root : rect) : viewport :=
  let delta := if num_lt 0%Qc (we_deltaY ev) then decimal 9 10 else decimal 11 10 in
  let newZoom := clamp (vzoom v * delta)%Qc WHEEL_MIN WHEEL_MAX in
  let mouseX := (pos_x (we_client ev) - r_x root)%Qc in
  let mouseY := (pos_y (we_client ev) - r_y root)%Qc in
  let factor := (newZoom / vzoom v)%Qc in
  Viewport (mouseX - (mouseX - panX v) * factor)%Qc (mouseY - (mouseY - panY v) * factor)%Qc newZoom.

Definition set_whole_viewport (s : vstate) (v : viewport) : vstate :=
  hook_setViewport s (Some (Position (panX v) (panY v))) (Some (vzoom v)).

(** The animation frame booked by [onWheel]. *)
Definition wheel_frame (s : vstate) (root : rect) : vstate :=
  match vs_scrollFrame s with
  | None => s
  | Some ev =>
      let s := with_scrollFrame s None in
      updateViewRect (set_whole_viewport s (wheel_viewport (getViewport s) ev root)) (Some root)
  end.

Definition getZoomPercentage (s : vstate) : Z := num_round (vzoom (getViewport s) * num_of_Z 100)%Qc.

Definition set_zoom (s : vstate) (z : num) : vstate :=
  match vs_editor s with
  | Some e => with_vs_editor s (Some (zoomTo e z))
  | None => hook_setViewport s None (Some z)
  end.

(** [Math.round(x * 10) / 10] *)
Definition to_tenths (x : num) : num := (num_of_Z (num_round (x * num_of_Z 10)) * decimal 1 10)%Qc.

Definition zoomIn (s : vstate) (root : option rect) : vstate :=
  let newZoom := num_min (to_tenths (vzoom (getViewport s) + decimal 1 10)%Qc) (num_of_Z 2) in
  updateViewRect (set_zoom s newZoom) root.

Definition zoomOut (s : vstate) (root : option rect) : vstate :=
  let newZoom := num_max (to_tenths (vzoom (getViewport s) - decimal 1 10)%Qc) (decimal 25 100) in
  updateViewRect (set_zoom s newZoom) root.

Definition resetZoom (s : vstate) (root : option rect) : vstate :=
  updateViewRect
    (match vs_editor s with
     | Some e => with_vs_editor s (Some (resetViewport e))
     | None => hook_setViewport s (Some (Position 0 0)) (Some 1%Qc)
     end) root.

Definition fitToView (s : vstate) (root : option rect) (dims : option DimensionConfig) (nodes : list ui_node)
    (o : fit_options) : vstate :=
  match root, dims with
  | Some r, Some d =>
      match calculateFitView nodes d r o with
      | None => s
      | Some v => updateViewRect (set_whole_viewport s v) root
      end
  | _, _ => s
  end.

(** The pan that puts the middle of a node in the middle of the canvas. *)
Definition pan_to (n : ui_node) (d : option DimensionConfig) (v : viewport) (r : rect) : position :=
  let nodeWidth := match d with Some d => nodeWidth d | None => num_of_Z 240 end in
  let nodeHeight := match d with Some d => dim_estimateNodeHeight d n | None => num_of_Z 72 end in
  Position (- ((ui_x n + half nodeWidth) * vzoom v) + half (r_width r))%Qc
    (- ((ui_y n + half nodeHeight) * vzoom v) + half (r_height r))%Qc.

Definition panToNode (s : vstate) (root : option rect) (dims : option DimensionConfig) (nodeId : string)
    (nodes : list ui_node) : vstate :=
  match root with
  | None => s
  | Some r =>
      if nodeId =s "" then s
      else match find_first (λ n, bool_decide (ui_id n = Some nodeId)) nodes with
           | None => s
           | Some n =>
               let v := getViewport s in
               updateViewRect (hook_setViewport s (Some (pan_to n dims v r)) (Some (vzoom v))) root
           end
  end.

(** ** What the operations do to the viewport *)

Lemma getViewport_updateViewRect s root : getViewport (updateViewRect s root) = getViewport s.
Proof. by destruct root. Qed.

Lemma getViewport_set s p z :
  getViewport (hook_setViewport s p z) =
    let v := getViewport s in
    Viewport (default (panX v) (pos_x <$> p)) (default (panY v) (pos_y <$> p)) (default (vzoom v) z).
Proof.
  unfold hook_setViewport, getViewport. destruct (vs_editor s) as [e|] eqn:E; simpl; rewrite ?E; by destruct p.
Qed.

Lemma getViewport_whole s v : getViewport (set_whole_viewport s v) = v.
Proof. unfold set_whole_viewport. rewrite getViewport_set. by destruct v. Qed.

Lemma getViewport_set_zoom s z :
  getViewport (set_zoom s z) =
    Viewport (panX (getViewport s)) (panY (getViewport s))
      (match vs_editor s with Some _ => clamp_zoom z | None => z end).
Proof.
  unfold set_zoom. destruct (vs_editor s) as [e|] eqn:E.
  - unfold getViewport. simpl. by rewrite E.
  - rewrite getViewport_set. done.
Qed.

#[export] Hint Rewrite getViewport_updateViewRect getViewport_set getViewport_whole getViewport_set_zoom : js.

(** ** Properties *)

Lemma wheel_zoom_bounds v ev root :
  (WHEEL_MIN ≤ vzoom (wheel_viewport v ev root) ∧ vzoom (wheel_viewport v ev root) ≤ WHEEL_MAX)%Qc.
Proof. apply clamp_bounds. by vm_compute. Qed.

(** Zooming with the wheel keeps the point of the canvas under the pointer
    where it is, and stays between 25% and 200%. *)
Theorem wheel_keeps_cursor s ev root :
  vs_scrollFrame s = Some ev → (0 < vzoom (getViewport s))%Qc →
  let s' := wheel_frame s root in
  getCanvasPosition s' (we_client ev) root = getCanvasPosition s (we_client ev) root ∧
  (WHEEL_MIN ≤ vzoom (getViewport s') ∧ vzoom (getViewport s') ≤ WHEEL_MAX)%Qc ∧
  vs_scrollFrame s' = None.
Proof.
  intros Hf Hz. unfold wheel_frame. rewrite Hf. cbv zeta.
  set (s0 := with_scrollFrame s None). assert (getViewport s0 = getViewport s) as E by done.
  unfold getCanvasPosition. autorewrite with js. rewrite E. set (v := getViewport s) in *.
  pose proof (wheel_zoom_bounds v ev root) as [H1 H2]. split; [|split; [done|by destruct s as [[]]]].
  unfold screenToCanvas. set (nz := vzoom (wheel_viewport v ev root)) in *.
  assert (0 < nz)%Qc as Hn by (assert (0 < WHEEL_MIN)%Qc by (by vm_compute); qc_lra).
  cbn [wheel_viewport panX panY]. change (clamp _ _ _) with nz. clearbody nz.
  assert (∀ a b p : num, ((a - b - (a - b - (a - b - p) * (nz / vzoom v))) / nz)%Qc = ((a - b - p) / vzoom v)%Qc) as H.
  { intros a b p. replace (a - b - (a - b - (a - b - p) * (nz / vzoom v)))%Qc
      with ((a - b - p) / vzoom v * nz)%Qc by (unfold Qcdiv; ring).
    by apply num_mul_div, num_pos_ne. }
  by rewrite !H.
Qed.

(** After [updateViewRect] the rectangle covers everything on the screen: a
    pointer over the canvas is at a canvas position inside it, with the whole
    buffer around. *)
Theorem view_rect_covers s root client :
  (0 < vzoom (getViewport s))%Qc → pointInRect client root = true →
  let s' := updateViewRect s (Some root) in
  let p := getCanvasPosition s' client root in
  pointInRect p (vs_viewRect s') = true ∧
  ∀ q, (num_abs (pos_x q - pos_x p) ≤ BUFFER)%Qc → (num_abs (pos_y q - pos_y p) ≤ BUFFER)%Qc →
    pointInRect q (vs_viewRect s') = true.
Proof.
  intros Hz Hp s' p.
  assert (∀ q, (num_abs (pos_x q - pos_x p) ≤ BUFFER)%Qc → (num_abs (pos_y q - pos_y p) ≤ BUFFER)%Qc →
            pointInRect q (vs_viewRect s') = true) as H; [|split; [|exact H]].
  - intros q. rewrite pointInRect_spec in Hp |- *. destruct Hp as [[A1 A2] [B1 B2]].
    unfold p, getCanvasPosition. subst s'. rewrite getViewport_updateViewRect. simpl.
    set (v := getViewport s) in *. unfold visible_rect, BUFFER. cbn [r_x r_y r_width r_height].
    assert (∀ c l w pn : num, (l ≤ c)%Qc → (c ≤ l + w)%Qc →
              ((- pn / vzoom v ≤ (c - l - pn) / vzoom v) ∧
               ((c - l - pn) / vzoom v ≤ - pn / vzoom v + w / vzoom v))%Qc) as H.
    { intros c l w pn H1 H2. set (k := (/ vzoom v)%Qc).
      assert (0 ≤ k)%Qc as Hk.
      { pose proof (num_le_div 1 (vzoom v) 0 Hz ltac:(by qc_lra)) as H0. unfold Qcdiv in H0.
        rewrite Qcmult_1_l in H0. exact H0. }
      pose proof (num_mul_le l c k Hk H1). pose proof (num_mul_le c (l + w) k Hk H2).
      unfold Qcdiv. fold k. clearbody k. split; qc_lra. }
    destruct (H _ _ _ (panX v) A1 A2), (H _ _ _ (panY v) B1 B2).
    set (x := ((pos_x client - r_x root - panX v) / vzoom v)%Qc) in *.
    set (y := ((pos_y client - r_y root - panY v) / vzoom v)%Qc) in *.
    set (l := (- panX v / vzoom v)%Qc) in *. set (t := (- panY v / vzoom v)%Qc) in *.
    set (w := (r_width root / vzoom v)%Qc) in *. set (h := (r_height root / vzoom v)%Qc) in *.
    clearbody x y l t w h. intros Hx Hy. split_and!; num_cases.
  - apply H; unfold num_abs; case_bool_decide; unfold BUFFER; num_lra.
Qed.

(** [panToNode] puts the middle of the node in the middle of the canvas and
    leaves the zoom. *)
Theorem panToNode_centers s root d nodeId nodes n :
  nodeId ≠ "" → find_first (λ n, bool_decide (ui_id n = Some nodeId)) nodes = Some n →
  let s' := panToNode s (Some root) (Some d) nodeId nodes in
  let b := getNodeBounds n d in
  getScreenPosition s' (r_x b + half (r_width b))%Qc (r_y b + half (r_height b))%Qc =
    Position (half (r_width root)) (half (r_height root)) ∧
  vzoom (getViewport s') = vzoom (getViewport s).
Proof.
  intros Hi Hf s' b. subst s'. unfold panToNode. rewrite bool_decide_false by done. rewrite Hf. cbv zeta.
  unfold getScreenPosition. autorewrite with js. cbv zeta.
  set (v := getViewport s). clearbody v. subst b. split; [|done].
  unfold getNodeBounds, canvasToScreen, estimateNodeHeight, pan_to.
  cbn [fmap option_fmap option_map default from_option id r_x r_y r_width r_height panX panY vzoom pos_x pos_y].
  set (h := dim_estimateNodeHeight d n). clearbody h.
  f_equal; ring.
Qed.

(** ** Runs *)

(** What can happen to the viewport.  [OStoreZoom] and [OStoreZoomBy] are the
    store's own actions. *)
Inductive view_op :=
| OWheel (readonly : bool) (ev : wheel_event)
| OFrame (root : rect)
| OUpdate (root : option rect)
| OZoomIn (root : option rect)
| OZoomOut (root : option rect)
| OReset (root : option rect)
| OFit (root : option rect) (dims : option DimensionConfig) (nodes : list ui_node) (o : fit_options)
| OPanTo (root : option rect) (dims : option DimensionConfig) (nodeId : string) (nodes : list ui_node)
| OSetPan (p : position)
| OStoreZoom (level : num)
| OStoreZoomBy (delta : num).

Definition view_step (s : vstate) (op : view_op) : vstate :=
  match op with
  | OWheel ro ev => onWheel s ro ev
  | OFrame root => wheel_frame s root
  | OUpdate root => updateViewRect s root
  | OZoomIn root => zoomIn s root
  | OZoomOut root => zoomOut s root
  | OReset root => resetZoom s root
  | OFit root dims nodes o => fitToView s root dims nodes o
  | OPanTo root dims i nodes => panToNode s root dims i nodes
  | OSetPan p => hook_setViewport s (Some p) None
  | OStoreZoom z => with_vs_editor s ((λ e, zoomTo e z) <$> vs_editor s)
  | OStoreZoomBy d => with_vs_editor s ((λ e, zoomBy e d) <$> vs_editor s)
  end.

(** A view is fitted only into a canvas that has a width. *)
Definition view_allowed (op : view_op) : Prop :=
  match op with OFit (Some r) _ _ _ => (0 < r_width r)%Qc | _ => True end.

(** Zooms that can be divided by. *)
Definition usable_zoom (z : num) : Prop := (0 < z ∧ z ≤ num_of_Z 2)%Qc.

Lemma clamp_zoom_usable z : usable_zoom (clamp_zoom z).
Proof. unfold usable_zoom, clamp_zoom, MIN_ZOOM, MAX_ZOOM. split; num_cases. Qed.

Lemma to_tenths_mono x y : (0 ≤ y)%Qc → (x ≤ y + decimal 1 20)%Qc → (to_tenths x ≤ y + decimal 1 10)%Qc.
Proof.
  intros Hy H. unfold to_tenths. destruct (num_round_spec (x * num_of_Z 10)) as [H1 _].
  set (k := num_of_Z (num_round _)) in *. clearbody k. num_lra.
Qed.

Lemma set_zoom_usable s z : (0 < z)%Qc → (z ≤ num_of_Z 2)%Qc → usable_zoom (vzoom (getViewport (set_zoom s z))).
Proof.
  intros ??. rewrite getViewport_set_zoom. simpl. destruct (vs_editor s); [apply clamp_zoom_usable|done].
Qed.

Lemma to_tenths_pos x : (0 < x)%Qc → (0 < to_tenths (x + decimal 1 10))%Qc.
Proof.
  intros Hx. unfold to_tenths. destruct (num_round_spec ((x + decimal 1 10) * num_of_Z 10)) as [_ H].
  set (k := num_round _) in *. destruct (Z.le_gt_cases k 0) as [Hk|Hk].
  - apply num_of_Z_le in Hk. set (q := num_of_Z k) in *. clearbody q. exfalso. num_lra.
  - pose proof (num_of_Z_le 1 k ltac:(lia)) as H1. set (q := num_of_Z k) in *. clearbody q. num_lra.
Qed.

Lemma view_step_usable s op :
  view_allowed op → usable_zoom (vzoom (getViewport s)) → usable_zoom (vzoom (getViewport (view_step s op))).
Proof.
  intros Ha Hz. destruct op; cbn [view_step].
  - unfold onWheel. by repeat case_match.
  - unfold wheel_frame. destruct (vs_scrollFrame s) as [ev|]; [|done]. cbv zeta. autorewrite with js.
    set (w := wheel_viewport _ _ _). destruct (wheel_zoom_bounds (getViewport (with_scrollFrame s None)) ev root) as [H1 H2].
    fold w in H1, H2. clearbody w. unfold usable_zoom, WHEEL_MIN, WHEEL_MAX in *. split; num_lra.
  - by rewrite getViewport_updateViewRect.
  - unfold zoomIn. rewrite getViewport_updateViewRect. destruct Hz as [Hz _]. apply to_tenths_pos in Hz.
    apply set_zoom_usable; num_cases.
  - unfold zoomOut. rewrite getViewport_updateViewRect. destruct Hz as [_ Hz].
    pose proof (to_tenths_mono (vzoom (getViewport s) - decimal 1 10) (decimal 19 10)) as Ht.
    apply set_zoom_usable; [num_cases|].
    assert (to_tenths (vzoom (getViewport s) - decimal 1 10) ≤ num_of_Z 2)%Qc.
    { assert (0 ≤ decimal 19 10)%Qc as H0 by (by vm_compute). specialize (Ht H0).
      set (y := to_tenths _) in *. clearbody y. assert (y ≤ decimal 19 10 + decimal 1 10)%Qc by (apply Ht; num_lra). num_lra. }
    set (y := to_tenths _) in *. clearbody y. num_cases.
  - unfold resetZoom. rewrite getViewport_updateViewRect. by destruct s as [[]].
  - unfold fitToView. destruct root as [r|]; [|done]. destruct dims as [d|]; [|done].
    destruct (calculateFitView nodes d r o) as [v|] eqn:E; [|done]. autorewrite with js.
    destruct nodes as [|n ns]; [done|]. unfold calculateFitView in E. cbv zeta in E.
    set (b := content_bounds n ns d) in *. clearbody b. injection E as <-. cbn [vzoom].
    set (w := num_max (b_maxX b - _ + _) 1). set (h := num_max (b_maxY b - _ + _) 1).
    destruct (getFitZoom_pos (default Contain (fo_mode o)) r w h (num_max 0 (default 0%Qc (fo_topOffsetPx o)))) as [H1 H2];
      [done|subst w; num_cases|subst h; num_cases|].
    set (z := getFitZoom _ _ _ _ _) in *. clearbody z. split; [done|num_lra].
  - unfold panToNode. destruct root as [r|]; [|done]. case_bool_decide; [done|].
    destruct (find_first _ _); [|done]. cbv zeta. autorewrite with js. done.
  - by rewrite getViewport_set.
  - unfold getViewport in *. simpl. destruct (vs_editor s); simpl in *; [apply clamp_zoom_usable|done].
  - unfold getViewport in *. simpl. destruct (vs_editor s); simpl in *; [apply clamp_zoom_usable|done].
Qed.

(** The zoom stays above zero and at most 200% whatever the user does, so that
    no coordinate is ever divided by zero. *)
Theorem zoom_stays_usable s ops :
  usable_zoom (vzoom (getViewport s)) → Forall view_allowed ops →
  usable_zoom (vzoom (getViewport (foldl view_step s ops))).
Proof.
  intros Hs Hops. revert s Hs. induction Hops as [|op ops Hop _ IH]; intros s Hs; simpl; [done|].
  by apply IH, view_step_usable.
Qed.

(** ** Examples *)

Definition screen : rect := Rect 0 0 (num_of_Z 1000) (num_of_Z 800).
Definition editor_view : vstate := useViewport (Some (new_store builtin_registry)) None None.
Definition wheel_up : wheel_event := WheelEvent false (num_of_Z (-1)) (Position (num_of_Z 300) (num_of_Z 200)).

Lemma zoom_stays_usable_witness :
  usable_zoom (vzoom (getViewport (foldl view_step editor_view
    [OWheel false wheel_up; OFrame screen; OFit (Some screen) (Some defaultDimensions) [bare_node "a" 0 0] plain_fit;
     OZoomOut (Some screen)]))).
Proof.
  apply zoom_stays_usable; [by vm_compute|]. repeat constructor.
Defined.

Lemma wheel_keeps_cursor_witness :
  getCanvasPosition (wheel_frame (onWheel editor_view false wheel_up) screen) (we_client wheel_up) screen =
  getCanvasPosition (onWheel editor_view false wheel_up) (we_client wheel_up) screen.
Proof.
  exact (proj1 (wheel_keeps_cursor (onWheel editor_view false wheel_up) wheel_up screen eq_refl
    ltac:(by vm_compute))).
Defined.

Lemma view_rect_covers_witness :
  pointInRect (getCanvasPosition (updateViewRect editor_view (Some screen)) (we_client wheel_up) screen)
    (vs_viewRect (updateViewRect editor_view (Some screen))) = true.
Proof.
  refine (proj1 (view_rect_covers editor_view screen (we_client wheel_up) _ _)); by vm_compute.
Defined.

Lemma panToNode_centers_witness :
  vzoom (getViewport (panToNode editor_view (Some screen) (Some defaultDimensions) "a" [bare_node "a" 5 5])) = 1%Qc.
Proof.
  exact (proj2 (panToNode_centers editor_view screen defaultDimensions "a" [bare_node "a" 5 5]
    (bare_node "a" 5 5) ltac:(done) eq_refl)).
Defined.

(** Fitting a wide graph goes below the 25% that zooming out stops at: zooming
    out then enlarges. *)
Theorem zoom_out_enlarges :
  let fitted := fitToView editor_view (Some screen) (Some defaultDimensions)
                  [bare_node "a" 0 0; bare_node "b" 10000 0] plain_fit in
  let out := zoomOut fitted (Some screen) in
  num_lt (vzoom (getViewport fitted)) (decimal 1 10) = true ∧
  num_lt (vzoom (getViewport fitted)) (vzoom (getViewport out)) = true ∧
  vzoom (getViewport out) = decimal 25 100.
Proof. vm_compute. done. Qed.
