(* ===== verification/StoreBatch.v ===== *)
(** * Batches of edits

    The store brackets a group of edits with [beginBatch] and [endBatch].  Edits
    inside a batch are collected; at its end they become one command.  A batch of
    edits that can each be undone is itself one such edit. *)

From S2P Require Import Prelude JsMap JsValue Connection Node Editor EditorInv Adapter AdapterInv AdapterEquiv History HistoryTimeline Commands Store StoreInv StoreRun.

Section batch.
Context (reg : odoo_registry) (Hreg : odoo_ok reg).
Notation inv := (adapter_inv reg).
Implicit Types (s : store).

(** Nothing is being collected and commands are recorded: the state of a store
    between two actions of the user. *)
Definition idle s : Prop :=
  inv (st_adapter s) ∧ recording (st_history s) = true ∧ currentBatch (st_history s) = None.

(** [s] is inside a batch that began in [s0]. *)
Definition collected s0 s : Prop :=
  ∃ l, inv (st_adapter s) ∧ st_history s = with_batch (st_history s0) (Some l) ∧
    performs (same_graph reg) l (st_adapter s0) (st_adapter s).

Lemma run_ok_idle s : run_ok reg s → idle s.
Proof using Type.
  intros (t & (Hi & _ & Hses) & _). apply session_refines in Hses as (_ & ? & ?); [|apply _]. done.
Qed.

Lemma performs_snoc l a w w1 w' :
  performs (same_graph reg) l w w1 → inverts (same_graph reg) a w1 w' →
  performs (same_graph reg) (l ++ [a]) w w'.
Proof using Type.
  intros Hp Ha. induction Hp as [w|b l w w2 w1 Hb _ IH]; simpl.
  - econstructor; [done|constructor].
  - econstructor; [done|by apply IH].
Qed.

Lemma begin_collected s : idle s → collected s (beginBatch s).
Proof using Type. intros (Hi & _ & _). exists []. split_and!; [done|done|constructor]. Qed.

Lemma edited_collected s0 s s' :
  idle s0 → collected s0 s → edited reg s s' → collected s0 s'.
Proof using Type.
  intros (_ & Hr & _) (l & Hi & Hh & Hp) [Hi' [[Eh Ea]|(act & Eh & Hinv)]].
  - exists l. rewrite Eh, Ea. done.
  - exists (l ++ [act]). split; [done|]. split; [|by eapply performs_snoc].
    rewrite Eh, Hh. unfold push. simpl. by rewrite Hr.
Qed.

Lemma edits_collected s0 s s' :
  idle s0 → collected s0 s → rtc (edited reg) s s' → collected s0 s'.
Proof using Type.
  intros H0 Hc Hr. induction Hr as [|x y z Hxy _ IH]; [done|]. apply IH. by eapply edited_collected.
Qed.

(** The end of a batch is one edit. *)
Lemma end_collected s0 s d : idle s0 → collected s0 s → edited reg s0 (endBatch s d).
Proof using Type.
  intros (_ & Hr & Hb) (l & Hi & Hh & Hp). unfold endBatch. split; [by rewrite set_history_adapter|].
  rewrite set_history_adapter, set_history_history, Hh. unfold commitBatch.
  assert (with_batch (with_batch (st_history s0) (Some l)) None = st_history s0) as E
    by (destruct (st_history s0); simpl in *; by subst).
  destruct l as [|a l]; simpl.
  - left. inversion Hp; subst. split; [|done]. exact E.
  - right. exists (batch_action d (a :: l)). rewrite E. split; [done|]. by apply batch_inverts.
Qed.

(** A loop of edits inside a batch. *)
Lemma foldl_collected {A} (f : store → A → store) (P : store → list A → Prop) s0 s l :
  idle s0 →
  (∀ s x l, inv (st_adapter s) → P s (x :: l) → rtc (edited reg) s (f s x) ∧ P (f s x) l) →
  collected s0 s → P s l → collected s0 (foldl f s l).
Proof using Type.
  intros H0 Hf. revert s. induction l as [|x l IH]; intros s Hc HP; simpl; [done|].
  destruct (Hf s x l) as [He HP']; [by destruct Hc as (? & ? & _)|done|].
  apply IH; [|done]. by eapply edits_collected.
Qed.

(** What the user sees of an edit: the graph of before is one undo away, or
    nothing happened to it. *)
Definition undoable s s' : Prop :=
  (st_history s' = st_history s ∧ st_adapter s' = st_adapter s) ∨
  ((undo s').1.2 = Ret true ∧ same_graph reg (st_adapter (undo s').1.1) (st_adapter s)).

Lemma edited_undoable s s' : run_ok reg s → edited reg s s' → undoable s s'.
Proof using Type. intros (t & Hok & _) He. by eapply edited_undo. Qed.

(** An edit seen through changes of the user interface. *)
Lemma edited_ui s s1 s2 :
  edited reg s s1 → st_history s2 = st_history s1 → st_adapter s2 = st_adapter s1 → edited reg s s2.
Proof using Type. unfold edited. by intros H -> ->. Qed.
End batch.

Lemma run_ok_select reg s ns cs : run_ok reg s → run_ok reg (select s ns cs).
Proof. done. Qed.
