(* ===== verification/StoreAnyRun.v ===== *)
(** * Editing without reserve

    Commands restore what they remember of a node, which is not its label and its
    metadata, and the configuration panel writes into nodes past the history.  The
    graph still stays well formed and rendered: undo and redo follow a timeline of
    shapes, the ids and types of the nodes and the ends of the connections, whatever
    is edited, removed or configured in between.

    Then runs of all actions together, and the calls of the service. *)

From S2P Require Import Prelude JsMap JsValue Socket Connection Control Node Editor EditorInv EditorJson Adapter AdapterInv Nodes AdapterRun AdapterEquiv JsString History HistoryTimeline Commands Connector Store StoreExec StoreInv StoreRun StoreBatch.

Lemma bfilter_fmap {A B} (f : B → bool) (g : A → B) l : bfilter f (g <$> l) = g <$> bfilter (λ x, f (g x)) l.
Proof. induction l as [|x l IH]; csimpl; [done|]. destruct (f (g x)); csimpl; by rewrite IH. Qed.

Section shape.
Context (reg : odoo_registry) (Hreg : odoo_ok reg).
Notation inv := (adapter_inv reg).
Implicit Types (a w x : adapter) (s : store).

(** ** Shapes *)

Definition node_shape (d : node_json) : option string * string := (nj_id d, nj_type d).
Definition nshape a : list (option string * string) := node_shape <$> snap a.
Definition cshape a : list conn_data := conn_data_of <$> conns a.

Definition same_shape a b : Prop := (inv a ↔ inv b) ∧ nshape a ≡ₚ nshape b ∧ cshape a ≡ₚ cshape b.

#[export] Instance same_shape_equivalence : Equivalence same_shape.
Proof using Type.
  split.
  - by intros a.
  - intros a b (? & ? & ?). by split_and!; symmetry.
  - intros a b c (? & ? & ?) (? & ? & ?). split_and!; by etrans.
Qed.

Lemma same_graph_shape a b : same_graph reg a b → same_shape a b.
Proof using Type. intros (Hi & Hs & Hc). unfold same_shape, nshape, cshape. by rewrite Hs, Hc. Qed.

Definition at_id (i : string) (p : option string * string) : bool := bool_decide (p.1 = Some i).
Definition touches (i : string) (c : conn_data) : bool := (cd_source c =s i) || (cd_target c =s i).

Lemma shape_removeNode a i :
  inv a →
  nshape (Adapter.removeNode a i).1 = bfilter (λ p, negb (at_id i p)) (nshape a) ∧
  cshape (Adapter.removeNode a i).1 = bfilter (λ c, negb (touches i c)) (cshape a).
Proof using Type.
  intros H. unfold nshape, cshape. destruct (snap_removeNode reg a i H) as [-> ->]. by rewrite !bfilter_fmap.
Qed.

Lemma shape_removeConnection a i :
  inv a →
  nshape (Adapter.removeConnection a i).1 = nshape a ∧
  cshape (Adapter.removeConnection a i).1 = bfilter (λ c, negb (cd_id c =s i)) (cshape a).
Proof using Type.
  intros H. unfold nshape, cshape. destruct (snap_removeConnection reg a i H) as [-> ->]. by rewrite bfilter_fmap.
Qed.

Lemma shape_updatePosition a i p :
  inv a → nshape (updatePosition a i p).1 = nshape a ∧ cshape (updatePosition a i p).1 = cshape a.
Proof using Type.
  intros H. unfold nshape, cshape. destruct (snap_updatePosition reg a i p H) as [-> ->]. split; [|done].
  rewrite <- list_fmap_compose. apply list_fmap_ext. intros k d _. simpl. unfold json_move. by destruct (has_id i d).
Qed.

Lemma placed_type cls i c p : node_type (placed cls i c p) = node_type (nc_new cls).
Proof using Type. unfold placed, setConfig, BaseNode_setConfig. by destruct (hiddenDefaults _). Qed.

Lemma shape_addNodeWithId a ty p i c cls :
  inv a → getNodeClass reg ty = Some cls → i ≠ "" → jget i (nodes (ad_editor a)) = None →
  let a' := (addNodeWithId reg a ty p i (Some c)).1 in
  nshape a' = nshape a ++ [(Some i, ty)] ∧ cshape a' = cshape a.
Proof using Hreg.
  intros H Hc Hi Hf. cbv zeta. unfold nshape, cshape. destruct (snap_addNodeWithId reg a ty p i c cls H Hc Hi Hf) as [-> ->].
  split; [|done]. rewrite fmap_app. f_equal. cbn [fmap list_fmap]. unfold node_shape. do 2 f_equal. cbn [node_toJSON nj_type].
  pose proof H as [Hr _ _ _]. destruct (getNodeClass_typed reg Hreg _ _ _ Hr Hc) as (_ & _ & Hty & _). by rewrite placed_type.
Qed.

Lemma shape_lookup a i : inv a → (∃ ty, (Some i, ty) ∈ nshape a) ↔ is_Some (jget i (nodes (ad_editor a))).
Proof using Type.
  intros H. rewrite <- (snap_lookup reg a i H). unfold nshape. split.
  - intros (ty & (d & E & Hd)%list_elem_of_fmap). exists d. split; [done|]. by injection E.
  - intros (d & Hd & Hi). exists (nj_type d). apply list_elem_of_fmap. exists d. split; [|done]. unfold node_shape. by rewrite Hi.
Qed.

Lemma shape_fresh a b i :
  inv a → inv b → nshape a ≡ₚ nshape b → jget i (nodes (ad_editor b)) = None → jget i (nodes (ad_editor a)) = None.
Proof using Type.
  intros Ha Hb Hs Hn. apply eq_None_not_Some. rewrite <- shape_lookup by done. intros (ty & Hin).
  rewrite Hs in Hin. assert (is_Some (jget i (nodes (ad_editor b)))) as [? ?]; [|congruence].
  apply shape_lookup; [done|]. by exists ty.
Qed.

(** Whether a connection fits can be told from the shapes. *)
Lemma fits_shape ns ns' i sh j th :
  node_shape <$> ns ≡ₚ node_shape <$> ns' → fits reg ns i sh j th → fits reg ns' i sh j th.
Proof using Type.
  intros Hs [(ds & dt & ks & kt & po & pi & Hds & Hsi & Hdt & Hti & Hks & Hkt & Hrest) Hne].
  assert (∀ d, d ∈ ns → ∃ d', d' ∈ ns' ∧ nj_id d' = nj_id d ∧ nj_type d' = nj_type d) as Hin.
  { intros d Hd. assert (node_shape d ∈ node_shape <$> ns') as Hin by (rewrite <- Hs; by apply list_elem_of_fmap_2).
    apply list_elem_of_fmap in Hin as (d' & E & Hd'). exists d'. unfold node_shape in E. injection E as -> ->. done. }
  destruct (Hin ds Hds) as (ds' & ? & Hi1 & Ht1), (Hin dt Hdt) as (dt' & ? & Hi2 & Ht2).
  split; [|done]. exists ds', dt', ks, kt, po, pi. rewrite Hi1, Hi2, Ht1, Ht2. done.
Qed.

Lemma cshape_ids a : cd_id <$> cshape a = conn_id <$> conns a.
Proof using Type. unfold cshape. by rewrite <- list_fmap_compose. Qed.

(** A connection of a graph of the same shape can be added where it is missing. *)
Lemma shape_restore x w c :
  inv x → inv w → nshape x ≡ₚ nshape w → c ∈ cshape w → cd_id c ∉ cd_id <$> cshape x →
  inv (restore_connection x c) ∧ nshape (restore_connection x c) = nshape x ∧
  cshape (restore_connection x c) = cshape x ++ [c].
Proof using Hreg.
  intros Hx Hw Hs (k & -> & Hk)%list_elem_of_fmap Hnew. pose proof Hw as [_ [[_ _ _ Hcok _] _ _] _ _].
  pose proof (Hcok k Hk) as Hok. apply (conn_ok_fits reg Hreg w k Hw) in Hok as [Hfit Hid].
  destruct (snap_addConnection reg Hreg x (source k) (sourceHandle k) (target k) (targetHandle k)) as [Es Ec].
  { done. }
  { split; [by eapply fits_shape; [symmetry; exact Hs|]|]. rewrite <- Hid. rewrite cshape_ids in Hnew. exact Hnew. }
  unfold restore_connection, nshape, cshape. simpl. split; [by apply addConnection_inv|]. rewrite Es, Ec, fmap_app. csimpl.
  split; [done|]. f_equal. f_equal. unfold new_connection, conn_data_of. simpl. by rewrite <- Hid.
Qed.

Lemma shape_restore_all x w base cs :
  inv x → inv w → nshape x ≡ₚ nshape w → cshape x ≡ₚ base → cshape w ≡ₚ base ++ cs →
  let y := foldl restore_connection x cs in inv y ∧ nshape y ≡ₚ nshape w ∧ cshape y ≡ₚ cshape w.
Proof using Hreg.
  intros Hx Hw. revert x base Hx. induction cs as [|c cs IH]; intros x base Hx Hs Hc Hcw; csimpl.
  { rewrite app_nil_r in Hcw. split_and!; [done..|]. by rewrite Hc, Hcw. }
  pose proof Hw as [_ [[_ _ _ _ Hcd] _ _] _ _].
  change (connections (ad_editor w)) with (conns w) in Hcd. rewrite <- cshape_ids, Hcw, fmap_app in Hcd.
  apply NoDup_app in Hcd as (_ & Hcd & _).
  destruct (shape_restore x w c) as (Hi & E1 & E2); [done|done|done|rewrite Hcw; set_solver| |].
  { rewrite Hc. intros Hb. apply (Hcd _ Hb). left. }
  apply (IH _ (base ++ [c])); [done|by rewrite E1|by rewrite E2, Hc|]. by rewrite <- app_assoc.
Qed.

(** ** Commands follow shapes *)

Lemma leads_shape f w w' :
  inv w → inv w' →
  (∀ x, inv x → nshape x ≡ₚ nshape w → cshape x ≡ₚ cshape w →
     ∃ y, f x = (y, Ret tt) ∧ inv y ∧ nshape y ≡ₚ nshape w' ∧ cshape y ≡ₚ cshape w') →
  leads same_shape f w w'.
Proof using Type.
  intros Hw Hw' Hf x (Hi & Hs & Hc). destruct (Hf x) as (y & -> & ? & ? & ?); [tauto|done|done|].
  exists y. split; [done|]. by split_and!.
Qed.

(** The part of an edit that puts a node with a new id into the graph. *)
Definition grows (d : node_data) w w' : Prop :=
  (∃ cls, getNodeClass reg (nd_type d) = Some cls) ∧ nd_id d ≠ "" ∧
  jget (nd_id d) (nodes (ad_editor w)) = None ∧ nshape w' ≡ₚ nshape w ++ [(Some (nd_id d), nd_type d)].

Lemma grows_undo d w w' x :
  inv w → grows d w w' → inv x → nshape x ≡ₚ nshape w' →
  inv (Adapter.removeNode x (nd_id d)).1 ∧ nshape (Adapter.removeNode x (nd_id d)).1 ≡ₚ nshape w.
Proof using Type.
  intros Hw (_ & Hne & Hf & Hs) Hx Hsx. split; [by apply removeNode_inv|].
  destruct (shape_removeNode x (nd_id d) Hx) as [-> _].
  rewrite (bfilter_perm _ _ _ Hsx), (bfilter_perm _ _ _ Hs), bfilter_app. cbn [bfilter].
  unfold at_id at 2. rewrite bool_decide_true by done. cbn [negb]. rewrite app_nil_r, bfilter_all; [done|].
  intros [i ty] Hin. unfold at_id. rewrite bool_decide_false; [done|]. simpl. intros ->.
  assert (is_Some (jget (nd_id d) (nodes (ad_editor w)))) as [? ?]; [|congruence].
  apply shape_lookup; [done|]. by exists ty.
Qed.

Lemma grows_redo d w w' x :
  inv w → grows d w w' → inv x → nshape x ≡ₚ nshape w →
  inv (restore_node reg d x) ∧ nshape (restore_node reg d x) ≡ₚ nshape w' ∧ cshape (restore_node reg d x) = cshape x.
Proof using Hreg.
  intros Hw ([cls Hc] & Hne & Hf & Hs) Hx Hsx. unfold restore_node.
  assert (jget (nd_id d) (nodes (ad_editor x)) = None) as Hfx by by apply (shape_fresh x w).
  destruct (shape_addNodeWithId x (nd_type d) (nd_position d) (nd_id d) (nd_config d) cls) as [-> ->]; [done..|].
  split; [by apply addNodeWithId_inv|]. split; [|done]. by rewrite Hs, Hsx.
Qed.

(** Connections do not touch a node that is not there. *)
Lemma cshape_untouched w i :
  inv w → jget i (nodes (ad_editor w)) = None → ∀ c, c ∈ cshape w → touches i c = false.
Proof using Type. intros Hw Hi c (k & -> & Hk)%list_elem_of_fmap. exact (conns_untouched reg w i Hw Hi k Hk). Qed.

Lemma add_node_shape d w w' :
  inv w → inv w' → grows d w w' → cshape w' ≡ₚ cshape w → inverts same_shape (createAddNodeAction reg d) w w'.
Proof using Hreg.
  intros Hw Hw' Ha Hcw. split; apply leads_shape; try done; intros x Hx Hsx Hcx.
  - exists (Adapter.removeNode x (nd_id d)).1. split; [done|]. destruct (grows_undo d w w' x) as [Hi Hs]; [done..|].
    split_and!; [done..|]. destruct (shape_removeNode x (nd_id d) Hx) as [_ ->].
    rewrite (bfilter_perm _ _ _ Hcx), (bfilter_perm _ _ _ Hcw), bfilter_all; [done|].
    intros c Hc. rewrite (cshape_untouched w); [done|done|apply Ha|done].
  - exists (restore_node reg d x). split; [done|]. destruct (grows_redo d w w' x) as (? & ? & ->); [done..|].
    split_and!; [done..|]. by rewrite Hcx.
Qed.

Lemma remove_node_shape d cs w w' :
  inv w → inv w' → grows d w' w → cshape w ≡ₚ cshape w' ++ cs → (∀ c, c ∈ cs → touches (nd_id d) c = true) →
  inverts same_shape (createRemoveNodeAction reg d cs) w w'.
Proof using Hreg.
  intros Hw Hw' Ha Hcw Hcs. split; apply leads_shape; try done; intros x Hx Hsx Hcx.
  - destruct (grows_redo d w' w x) as (Hi & Hs & Hc); [done..|]. eexists. split; [done|].
    apply (shape_restore_all _ w (cshape w') cs); [done|done|done|by rewrite Hc|done].
  - exists (Adapter.removeNode x (nd_id d)).1. split; [done|]. destruct (grows_undo d w' w x) as [Hi Hs]; [done..|].
    split_and!; [done..|]. destruct (shape_removeNode x (nd_id d) Hx) as [_ ->].
    rewrite (bfilter_perm _ _ _ Hcx), (bfilter_perm _ _ _ Hcw), bfilter_app, bfilter_all, bfilter_none; [by rewrite app_nil_r| |].
    + intros c Hc. by rewrite Hcs.
    + intros c Hc. rewrite (cshape_untouched w'); [done|done|apply Ha|done].
Qed.

Lemma connection_shape c w w' :
  inv w → inv w' → nshape w' ≡ₚ nshape w → cshape w' ≡ₚ cshape w ++ [c] →
  leads same_shape (call (λ a, Adapter.removeConnection a (cd_id c))) w' w ∧
  leads same_shape (λ a, (restore_connection a c, Ret tt)) w w'.
Proof using Hreg.
  intros Hw Hw' Hs Hc. split; apply leads_shape; try done; intros x Hx Hsx Hcx.
  - eexists. split; [done|]. split; [by apply removeConnection_inv|].
    destruct (shape_removeConnection x (cd_id c) Hx) as [-> ->]. split; [by rewrite Hsx, Hs|].
    rewrite (bfilter_perm _ _ _ Hcx), (bfilter_perm _ _ _ Hc), bfilter_app. cbn [bfilter].
    rewrite (bool_decide_true (cd_id c = cd_id c)) by done. cbn [negb]. rewrite app_nil_r, bfilter_all; [done|].
    intros c' Hc'. rewrite bool_decide_false; [done|]. intros E.
    destruct Hw' as [_ [[_ _ _ _ Hcd] _ _] _ _]. change (connections (ad_editor w')) with (conns w') in Hcd.
    rewrite <- cshape_ids, Hc, fmap_app in Hcd. apply NoDup_app in Hcd as (_ & Hcd & _).
    apply (Hcd (cd_id c')); [by apply list_elem_of_fmap_2|rewrite E; left].
  - eexists. split; [done|].
    apply (shape_restore_all x w' (cshape w) [c]); [done|done|by rewrite Hsx, Hs|done|done].
Qed.

(** Moves do not change the shape. *)
Lemma moves_shape pos ms x :
  inv x → inv (move_all pos ms x) ∧ nshape (move_all pos ms x) = nshape x ∧ cshape (move_all pos ms x) = cshape x.
Proof using Type.
  unfold move_all. revert x. induction ms as [|m ms IH]; intros x Hx; simpl; [done|].
  destruct (shape_updatePosition x (mv_nodeId m) (pos m) Hx) as [<- <-]. apply IH. by apply updatePosition_inv.
Qed.

Lemma move_nodes_shape ms w w' :
  inv w → inv w' → nshape w' ≡ₚ nshape w → cshape w' ≡ₚ cshape w → inverts same_shape (createMoveNodesAction ms) w w'.
Proof using Type.
  intros Hw Hw' Hs Hc. split; apply leads_shape; try done; intros x Hx Hsx Hcx.
  - destruct (moves_shape mv_oldPosition ms x Hx) as (Hi & Es & Ec). eexists. split; [done|]. unfold move_all in *.
    split; [done|]. by rewrite Es, Ec, Hsx, Hcx, Hs, Hc.
  - destruct (moves_shape mv_newPosition ms x Hx) as (Hi & Es & Ec). eexists. split; [done|]. unfold move_all in *.
    split; [done|]. by rewrite Es, Ec, Hsx, Hcx, Hs, Hc.
Qed.

(** ** What an edit through the store does *)

(** Nothing recorded and the same shape, or one command recorded that inverts what
    happened to it. *)
Definition reshaped s s' : Prop :=
  inv (st_adapter s') ∧
  ((st_history s' = st_history s ∧ same_shape (st_adapter s) (st_adapter s')) ∨
   ∃ act, st_history s' = (push (st_history s) act).1 ∧ inverts same_shape act (st_adapter s) (st_adapter s')).

Lemma reshaped_same s s' :
  inv (st_adapter s') → st_history s' = st_history s → nshape (st_adapter s') ≡ₚ nshape (st_adapter s) →
  cshape (st_adapter s') ≡ₚ cshape (st_adapter s) → inv (st_adapter s) → reshaped s s'.
Proof using Type. intros Hi Eh Hn Hc Hs. split; [done|]. left. split; [done|]. by split_and!. Qed.

Lemma reshaped_id s s' :
  inv (st_adapter s) → st_history s' = st_history s → st_adapter s' = st_adapter s → reshaped s s'.
Proof using Type. intros Hs Eh Ea. apply reshaped_same; by rewrite ?Ea. Qed.

Lemma reshaped_record s s1 act :
  st_history s1 = st_history s → inv (st_adapter s1) →
  inverts same_shape act (st_adapter s) (st_adapter s1) → reshaped s (record_action s1 act).
Proof using Type.
  intros Hh Hi Ha. split; [by rewrite record_adapter|]. right. exists act. by rewrite record_history, record_adapter, Hh.
Qed.

Lemma shape_addNode a type pos cls :
  inv a → getNodeClass reg type = Some cls →
  ∃ i, (Adapter.addNode reg a type pos).2 = Some i ∧
    let a' := (Adapter.addNode reg a type pos).1 in
    inv a' ∧ cshape a' = cshape a ∧ ∀ c, grows (NodeData i type pos c) a a'.
Proof using Hreg.
  intros Ha Hc. destruct (addNode_adds reg Hreg a type pos cls Ha Hc) as (i & Hi & Hinv & Hcs & Hcl & Hne & Hf & Hs).
  exists i. split; [done|]. split; [done|]. unfold cshape. split; [by rewrite Hcs|]. intros c. split; [by exists cls|].
  split; [done|]. split; [done|]. unfold nshape. rewrite Hs, fmap_app. f_equiv. cbn [fmap list_fmap]. unfold node_shape. rewrite restored_json_id.
  pose proof Ha as [Hr _ _ _]. destruct (getNodeClass_typed reg Hreg _ _ _ Hr Hc) as (_ & _ & Hty & _).
  unfold restored_json. cbn [node_toJSON nj_type nd_type nd_id nd_config nd_position]. by rewrite placed_type, Hty.
Qed.

Lemma add_and_record_reshaped s type pos i :
  inv (st_adapter s) → (Adapter.addNode reg (st_adapter s) type pos).2 = Some i →
  reshaped s (add_and_record reg (with_adapter s (Adapter.addNode reg (st_adapter s) type pos).1) type pos i).
Proof using Hreg.
  intros Hs Hi. destruct (getNodeClass reg type) as [cls|] eqn:Hc.
  - destruct (shape_addNode (st_adapter s) type pos cls Hs Hc) as (i' & Hi' & Hinv & Hcs & Ha).
    rewrite Hi in Hi'. injection Hi' as <-.
    apply reshaped_record; [done|done|]. simpl. apply add_node_shape; [done|done|apply Ha|]. by rewrite Hcs.
  - unfold Adapter.addNode in Hi. by rewrite Hc in Hi.
Qed.

Lemma addNode_reshaped s type pos : inv (st_adapter s) → type ≠ "loop" → reshaped s (addNode reg s type pos).1.
Proof using Hreg.
  intros Hs Hl. unfold addNode. rewrite on_adapter_spec.
  destruct (Adapter.addNode reg (st_adapter s) type pos).2 as [i|] eqn:Ei.
  - rewrite (bool_decide_false (type = "loop")) by done. simpl.
    apply (add_and_record_reshaped (with_progress s None) type pos i Hs Ei).
  - unfold Adapter.addNode in *. destruct (getNodeClass reg type) as [cls|] eqn:Hc.
    + destruct (shape_addNode (st_adapter s) type pos cls Hs Hc) as (? & E & _). unfold Adapter.addNode in E. rewrite Hc in E. congruence.
    + simpl. apply reshaped_id; [done|done|]. by destruct s.
Qed.

Lemma moveNode_reshaped s i pos : inv (st_adapter s) → reshaped s (moveNode s i pos).
Proof using Type.
  intros Hs. destruct (shape_updatePosition (st_adapter s) i pos Hs) as [En Ec].
  pose proof (updatePosition_inv reg (st_adapter s) i pos Hs) as Hi. unfold moveNode. rewrite !on_adapter_spec.
  destruct (getNode s i) as [n|].
  - destruct (same_position _ _); [by apply reshaped_id|]. cbn [fst]. apply reshaped_record; [done|done|].
    apply (move_nodes_shape [NodeMove i (ui_position n) pos]); simpl; [done|done|by rewrite En|by rewrite Ec].
  - apply reshaped_same; simpl; [done|done|by rewrite En|by rewrite Ec|done].
Qed.

Lemma move_entries_shape us s :
  inv (st_adapter s) → let s' := (move_entries s us).1 in
  inv (st_adapter s') ∧ st_history s' = st_history s ∧
  nshape (st_adapter s') = nshape (st_adapter s) ∧ cshape (st_adapter s') = cshape (st_adapter s).
Proof using Type.
  revert s. induction us as [|[i p] us IH]; intros s Hs; cbn [move_entries]; [done|].
  destruct (getNode s i) as [n|]; [|by apply IH]. destruct (same_position _ _); [by apply IH|].
  rewrite on_adapter_spec. cbn [fst].
  destruct (shape_updatePosition (st_adapter s) i p Hs) as [En Ec].
  specialize (IH (with_adapter s (updatePosition (st_adapter s) i p).1) (updatePosition_inv reg (st_adapter s) i p Hs)).
  destruct (move_entries _ us) as [s2 ms]. cbn [fst] in *. destruct IH as (? & ? & E1 & E2). split; [done|]. split; [done|].
  rewrite E1, E2. cbn [st_adapter with_adapter]. done.
Qed.

Lemma transient_reshaped s us : inv (st_adapter s) → reshaped s (moveNodesTransient s us).
Proof using Type.
  intros Hs. destruct (move_entries_shape us s Hs) as (Hi & Hh & En & Ec).
  apply reshaped_same; unfold moveNodesTransient; rewrite ?En, ?Ec; done.
Qed.

Lemma recordMoves_reshaped s ms : inv (st_adapter s) → reshaped s (recordMoveNodes s ms).
Proof using Type.
  intros Hs. destruct ms as [|m ms]; [by apply reshaped_id|]. apply reshaped_record; [done|done|]. by apply move_nodes_shape.
Qed.

Lemma moveNodes_reshaped s us : inv (st_adapter s) → reshaped s (moveNodes s us).
Proof using Type.
  intros Hs. destruct (move_entries_shape us s Hs) as (Hi & Hh & En & Ec). unfold moveNodes.
  destruct (move_entries s us) as [s' [|m ms]]; cbn [fst] in *.
  - apply reshaped_same; rewrite ?En, ?Ec; done.
  - apply reshaped_record; [done|done|]. apply move_nodes_shape; rewrite ?En, ?Ec; done.
Qed.

Lemma addConnection_reshaped s src sh tgt th : inv (st_adapter s) → reshaped s (addConnection s src sh tgt th).1.
Proof using Hreg.
  intros Hs. unfold addConnection. rewrite on_adapter_spec.
  pose proof (addConnection_inv reg (st_adapter s) src sh tgt th Hs) as Hi. revert Hi.
  unfold Adapter.addConnection. destruct (Editor.addConnection _ _ _ _ _) as [[e [c|]] tr] eqn:E.
  - apply addConnection_Some in E as (-> & -> & Hok & Hnew & _). intros Hi. simpl in *.
    apply reshaped_record; [done|done|]. simpl. apply connection_shape; [done|done|..]; unfold nshape, cshape, snap, conns; simpl; rewrite handlers_editor; [done|].
    simpl. by rewrite fmap_app.
  - apply addConnection_None in E as [-> ->]. intros _. simpl. apply reshaped_id; [done|done|]. simpl. by destruct (st_adapter s).
Qed.

Lemma removeConnection_reshaped s i : inv (st_adapter s) → reshaped s (removeConnection s i).1.
Proof using Hreg.
  intros Hs. unfold removeConnection, getConnection. rewrite (ui_connection_lookup reg) by done.
  destruct (find_first _ (conns (st_adapter s))) as [c|] eqn:E; [|by apply reshaped_id].
  simpl. rewrite on_adapter_spec. simpl. destruct (find_first_Some _ _ _ E) as [Hin Hid]. bsimpl.
  change (conn_data_of_ui (connection_to_ui c)) with (conn_data_of c).
  destruct (shape_removeConnection (st_adapter s) i Hs) as [En Ec].
  pose proof (removeConnection_inv reg (st_adapter s) i Hs) as Hi. pose proof Hs as [_ [[_ _ _ _ Hcd] _ _] _ _].
  apply reshaped_record; [done|done|]. simpl.
  destruct (connection_shape (conn_data_of c) (Adapter.removeConnection (st_adapter s) i).1 (st_adapter s))
    as [Hu Hr]; [done|done|by rewrite En| |].
  - rewrite Ec. unfold cshape. rewrite (bfilter_fmap (λ d, negb (cd_id d =s i))). simpl.
    rewrite (bfilter_split i (conns (st_adapter s)) c Hcd E) at 1. by rewrite fmap_app.
  - split; simpl; [exact Hr|exact Hu].
Qed.

(** The connections the store takes down with a node. *)
Lemma related_shape a i :
  inv a →
  conn_data_of_ui <$> bfilter (λ c, (uc_source c =s i) || (uc_target c =s i)) (state_connections a) =
  bfilter (touches i) (cshape a).
Proof using Type.
  intros [_ _ _ [_ ->]]. unfold cshape, conns, getConnectionsForUI, getConnections.
  induction (connections (ad_editor a)) as [|c cs IH]; csimpl; [done|].
  unfold touches at 1. simpl. destruct (_ || _); csimpl; by rewrite IH.
Qed.

Lemma removeNode_reshaped s i : inv (st_adapter s) → reshaped s (removeNode reg s i).1.
Proof using Hreg.
  intros Hs. unfold removeNode, getNode. rewrite (ui_lookup reg) by done.
  destruct (jget i (nodes (ad_editor (st_adapter s)))) as [n|] eqn:E; [|by apply reshaped_id].
  pose proof Hs as [Hr [[Hd Hids _ _ _] Hn _] _ _].
  destruct (Hids _ _ E) as [Hid Hne]. destruct (Hn _ _ E) as [(cls & Hcls & _) _].
  rewrite Hr, jget_buildNodeRegistry in Hcls by apply Hreg.
  csimpl. rewrite on_adapter_spec. simpl. rewrite Hid. simpl. rewrite (related_shape _ i Hs).
  destruct (shape_removeNode (st_adapter s) i Hs) as [En Ec].
  pose proof (removeNode_inv reg (st_adapter s) i Hs) as Hi.
  apply reshaped_record; [done|done|]. simpl. apply remove_node_shape; [done|done|split_and!|..]; simpl.
  - by exists cls.
  - done.
  - apply eq_None_not_Some. rewrite <- (shape_lookup _ i Hi). rewrite En.
    intros (ty & [_ Hb]%elem_of_bfilter). unfold at_id in Hb. cbn [fst] in Hb. by rewrite bool_decide_true in Hb.
  - rewrite En. unfold nshape, snap. change (getNodes (ad_editor (st_adapter s))) with (jvals (nodes (ad_editor (st_adapter s)))).
    assert (node_shape (node_toJSON n) = (Some i, node_type n)) as <- by (unfold node_shape; simpl; by rewrite Hid).
    rewrite (json_jdel_split i n _ (inv_keyed reg _ Hs) Hd E) at 1. by rewrite fmap_app, (bfilter_fmap _ node_shape).
  - rewrite Ec. apply bfilter_Permutation.
  - by intros c [_ ?]%elem_of_bfilter.
Qed.

Lemma connect_and_record_reshaped s src sh tgt th :
  inv (st_adapter s) → reshaped s (connect_and_record s src sh tgt th).
Proof using Hreg.
  intros Hs. pose proof (addConnection_reshaped s src sh tgt th Hs) as H. revert H.
  unfold connect_and_record, addConnection. rewrite on_adapter_spec.
  destruct (Adapter.addConnection _ _ _ _ _) as [a [c|]]; simpl; [|done].
  unfold reshaped. by rewrite !record_history, !record_adapter.
Qed.

(** The six edits, whatever they are applied to; a loop is several of them. *)
Lemma addNode_steps s type pos : inv (st_adapter s) → rtc reshaped s (addNode reg s type pos).1.
Proof using Hreg.
  intros Hs. destruct (decide (type = "loop")) as [->|Hl]; [|by apply rtc_once, addNode_reshaped].
  unfold addNode. rewrite on_adapter_spec.
  assert (∀ ty p s0, inv (st_adapter s0) → (Adapter.addNode reg (st_adapter s0) ty p).2 = None →
            (Adapter.addNode reg (st_adapter s0) ty p).1 = st_adapter s0) as Hnone.
  { intros ty p s0 Hs0 E. unfold Adapter.addNode in *. destruct (getNodeClass reg ty) as [cls|] eqn:Hc; [|done].
    destruct (shape_addNode (st_adapter s0) ty p cls Hs0 Hc) as (? & E' & _). unfold Adapter.addNode in E'. rewrite Hc in E'. congruence. }
  destruct (Adapter.addNode reg (st_adapter s) "loop" pos).2 as [i|] eqn:Ei.
  2:{ apply rtc_once. simpl. rewrite Hnone by done. apply reshaped_id; [done|done|]. by destruct s. }
  set (s1 := clearExecution _). set (s2 := add_and_record reg s1 "loop" pos i).
  assert (reshaped s s2) as H2 by (apply (add_and_record_reshaped (with_progress s None)); done).
  eapply rtc_l; [exact H2|]. destruct H2 as [Hi2 _].
  rewrite bool_decide_true by done. set (p := Position _ _). rewrite on_adapter_spec.
  destruct (Adapter.addNode reg (st_adapter s2) "noop" p).2 as [j|] eqn:Ej.
  2:{ apply rtc_once. cbn [fst]. apply reshaped_id; [done|done|]. by apply Hnone. }
  set (s3 := add_and_record _ _ _ _ _).
  assert (reshaped s2 s3) as H3 by (by apply add_and_record_reshaped).
  eapply rtc_l; [exact H3|]. destruct H3 as [Hi3 _].
  pose proof (connect_and_record_reshaped s3 i "loop" j "data" Hi3) as H4.
  eapply rtc_l; [exact H4|]. destruct H4 as [Hi4 _].
  apply rtc_once. simpl. by apply connect_and_record_reshaped.
Qed.

Lemma exec_edit_reshaped s e :
  inv (st_adapter s) → (∀ pos, e ≠ EAddNode "loop" pos) → reshaped s (exec_edit reg s e).
Proof using Hreg.
  intros Hs He. destruct e as [type pos| | | | |]; simpl.
  - apply addNode_reshaped; [done|]. intros ->. by apply (He pos).
  - by apply moveNode_reshaped.
  - by apply moveNodes_reshaped.
  - by apply removeNode_reshaped.
  - by apply addConnection_reshaped.
  - by apply removeConnection_reshaped.
Qed.

Lemma exec_edit_steps s e : inv (st_adapter s) → rtc reshaped s (exec_edit reg s e).
Proof using Hreg.
  intros Hs. destruct e; [by apply addNode_steps|..]; by apply rtc_once, exec_edit_reshaped.
Qed.

(** ** Writing past the history *)

(** The adapter's calls that the panels and the nodes on the canvas make directly. *)
Definition writes (o : adapter_op) : bool :=
  match o with
  | OpUpdatePosition _ _ | OpSetNodeMeta _ _ | OpSetNodeLabel _ _ | OpSetNodeConfig _ _ | OpSetControlValue _ _ _ => true
  | _ => false
  end.

Lemma alter_shape (f : node → node) i ns :
  (∀ n, node_id (f n) = node_id n) → (∀ n, node_type (f n) = node_type n) →
  node_shape <$> (node_toJSON <$> jvals (jalter f i ns)) = node_shape <$> (node_toJSON <$> jvals ns).
Proof using Type.
  intros Hi Ht. unfold jvals, jalter. induction ns as [|[k n] ns IH]; csimpl; [done|].
  f_equal; [|exact IH]. unfold node_shape. simpl. case_bool_decide; simpl; rewrite ?Hi, ?Ht; done.
Qed.

Lemma setConfig_shape n c : node_id (setConfig n c) = node_id n ∧ node_type (setConfig n c) = node_type n.
Proof using Type. unfold setConfig, BaseNode_setConfig. by destruct (hiddenDefaults n). Qed.

Lemma writes_shape a o :
  inv a → writes o = true →
  inv (exec_op reg a o) ∧ nshape (exec_op reg a o) = nshape a ∧ cshape (exec_op reg a o) = cshape a.
Proof using Hreg.
  intros Ha Hw. split; [apply exec_op_inv; [done..|by destruct o]|].
  destruct o; try done; unfold exec_op.
  - by apply shape_updatePosition.
  - unfold Adapter.setNodeMeta, Editor.setNodeMeta. destruct (jget _ _) as [n|]; [|done].
    unfold nshape, cshape, snap, conns, getNodes. simpl. rewrite handlers_editor. simpl. split; [|done]. by apply alter_shape.
  - unfold Adapter.setNodeLabel, Editor.setNodeLabel. destruct (jget _ _) as [n|]; [|done].
    unfold nshape, cshape, snap, conns, getNodes. cbn [run fst ad_editor syncState]. rewrite handlers_editor. simpl. split; [|done]. by apply alter_shape.
  - unfold Adapter.setNodeConfig. destruct (Editor.getNode _ _); [|done].
    unfold nshape, cshape, snap, conns, getNodes. simpl. split; [|done]. apply alter_shape; intros ?; apply setConfig_shape.
  - unfold Adapter.setControlValue. destruct (Editor.getNode _ _); [|done]. destruct (jhas _ _); [|done].
    unfold nshape, cshape, snap, conns, getNodes. simpl. split; [|done]. by apply alter_shape.
Qed.
End shape.

(** * Every run of the store

    What the store goes through between the start of the editor and any later
    moment: edits of every kind, moves that are drawn before they are recorded,
    writes of the panels past the history, batches, undo and redo, saves, loads and
    views of other versions.  The history follows a timeline of shapes in all of
    them, so the graph stays well formed and rendered and undo never fails. *)

(** ** What can happen *)

(** One action inside or outside a batch. *)
Inductive any_edit (reg : odoo_registry) : store → store → Prop :=
| ae_edit s e : any_edit reg s (exec_edit reg s e)
| ae_transient s us : any_edit reg s (moveNodesTransient s us)
| ae_record s ms : any_edit reg s (recordMoveNodes s ms)
| ae_write s o : writes o = true → any_edit reg s (with_adapter s (exec_op reg (st_adapter s) o))
| ae_other s s' : st_adapter s' = st_adapter s → st_history s' = st_history s → any_edit reg s s'.

(** A load the registry can build. *)
Definition loads (reg : odoo_registry) (a b : adapter) : Prop :=
  ∃ d, snapshot_valid (buildNodeRegistry reg) d ∧ b = (Adapter.fromJSON a d).1.

Definition labelled (a : adapter) : Prop :=
  ∀ k n, jget k (nodes (ad_editor a)) = Some n → node_label n ≠ "".

(** [ar_view]: other versions are shown, then the graph of before is put back.
    [ar_load]: a workflow is loaded into a store with nothing to undo. *)
Inductive any_run (reg : odoo_registry) : store → Prop :=
| ar_new : any_run reg (new_store reg)
| ar_edit s s' : any_run reg s → any_edit reg s s' → any_run reg s'
| ar_batch s s' d : any_run reg s → rtc (any_edit reg) (beginBatch s) s' → any_run reg (endBatch s' d)
| ar_undo s : any_run reg s → any_run reg (undo s).1.1
| ar_redo s : any_run reg s → any_run reg (redo s).1.1
| ar_saved s h : any_run reg s → any_run reg (saveWorkflow_response s h).1
| ar_load s s' :
    any_run reg s → undoStack (st_history s) = [] → redoStack (st_history s) = [] →
    st_history s' = st_history s → loads reg (st_adapter s) (st_adapter s') → any_run reg s'
| ar_view s s' b :
    any_run reg s → labelled (st_adapter s) → rtc (loads reg) (st_adapter s) b →
    st_history s' = st_history s →
    st_adapter s' = (Adapter.fromJSON b (Adapter.toJSON (st_adapter s))).1 → any_run reg s'.

Section any.
Context (reg : odoo_registry) (Hreg : odoo_ok reg).
Notation inv := (adapter_inv reg).
Notation shape := (same_shape reg).
Implicit Types (a b : adapter) (s : store).

(** The history of [s] follows a timeline of shapes. *)
Definition follows s (t : timeline adapter) : Prop :=
  refines shape (st_history s, st_adapter s) t ∧ timeline_inv reg t ∧
  recording (st_history s) = true ∧ currentBatch (st_history s) = None.

Lemma follows_inv s t : follows s t → inv (st_adapter s).
Proof using Type. intros (((Hi & _) & _) & (_ & Hp & _) & _). by apply Hi. Qed.

Lemma same_shape_inv a b : inv a → inv b → nshape b ≡ₚ nshape a → cshape b ≡ₚ cshape a → shape a b.
Proof using Type. intros ????. by split_and!. Qed.

(** The world may be exchanged for one of the same shape. *)
Lemma follows_shape s s' t :
  follows s t → st_history s' = st_history s → shape (st_adapter s) (st_adapter s') → follows s' t.
Proof using Type.
  intros ((Hw & Hc) & Ht & Hr & Hb) Eh Hs. unfold follows, refines in *. rewrite Eh. simpl in *.
  split; [|done]. split; [|done]. by rewrite <- Hs.
Qed.

Lemma commit_inv t w max : timeline_inv reg t → inv w → timeline_inv reg (t_commit max t w).
Proof using Type.
  intros (Hp & Hn & _) Hw. split_and!; simpl; [|done|done].
  assert (Forall inv (past t ++ [present t])) as Hall by (by rewrite Forall_app, Forall_singleton).
  destruct (_ <? _)%nat; [|done]. destruct (past t ++ [present t]); simpl; [done|]. by apply Forall_cons in Hall as [_ ?].
Qed.

Lemma follows_reshaped s s' t : follows s t → reshaped reg s s' → ∃ t', follows s' t'.
Proof using Type.
  intros Hf [Hi [[Eh Hs]|(act & Eh & Hinv)]]; [exists t; by eapply follows_shape|].
  destruct Hf as ((Hw & Hu & _) & Ht & Hr & Hb). exists (t_commit (maxSize (st_history s)) t (st_adapter s')).
  split; [|split; [by apply commit_inv|]].
  - rewrite Eh. apply refines_push; [apply _|exact Hu| |exact Hr|exact Hb].
    eapply inverts_proper; [apply _|exact Hw|reflexivity|exact Hinv].
  - rewrite Eh. unfold push. by rewrite Hr, Hb.
Qed.

Lemma any_edit_steps s s' : inv (st_adapter s) → any_edit reg s s' → rtc (reshaped reg) s s'.
Proof using Hreg.
  intros Hs H. revert Hs. destruct H as [s e|s us|s ms|s o Ho|s s' Ea Eh]; intros Hs.
  - by apply exec_edit_steps.
  - by apply rtc_once, transient_reshaped.
  - by apply rtc_once, recordMoves_reshaped.
  - destruct (writes_shape reg Hreg (st_adapter s) o Hs Ho) as (Hi & En & Ec).
    apply rtc_once, reshaped_same; simpl; rewrite ?En, ?Ec; done.
  - by apply rtc_once, reshaped_id.
Qed.

Lemma follows_steps s s' t : follows s t → rtc (reshaped reg) s s' → ∃ t', follows s' t'.
Proof using Type.
  intros Hf Hr. revert t Hf. induction Hr as [s|s s1 s' H _ IH]; intros t Hf; [by exists t|].
  destruct (follows_reshaped s s1 t Hf H) as [t1 H1]. by apply (IH t1).
Qed.

(** ** Batches *)

(** [s] is inside a batch that began in [s0]. *)
Definition gathered s0 s : Prop :=
  ∃ l w, inv (st_adapter s) ∧ st_history s = with_batch (st_history s0) (Some l) ∧
    performs shape l (st_adapter s0) w ∧ shape w (st_adapter s).

Lemma performs_step l (act : action adapter) w w1 w2 w' :
  performs shape l w w1 → shape w1 w2 → inverts shape act w2 w' → performs shape (l ++ [act]) w w'.
Proof using Type.
  intros Hp Hs Ha. induction Hp as [w|act1 l w w3 w1 Hb _ IH]; simpl.
  - econstructor; [|constructor]. eapply inverts_proper; [apply _|symmetry; exact Hs|reflexivity|exact Ha].
  - econstructor; [done|by apply IH].
Qed.

Lemma gathered_step s0 s s' :
  recording (st_history s0) = true → gathered s0 s → reshaped reg s s' → gathered s0 s'.
Proof using Type.
  intros Hr (l & w & Hi & Hh & Hp & Hw) [Hi' [[Eh Hs]|(act & Eh & Hinv)]].
  - exists l, w. split_and!; [done|by rewrite Eh|done|by rewrite Hw].
  - exists (l ++ [act]), (st_adapter s'). split_and!; [done| |by eapply performs_step|reflexivity].
    rewrite Eh, Hh. unfold push. simpl. by rewrite Hr.
Qed.

Lemma gathered_steps s0 s s' :
  recording (st_history s0) = true → gathered s0 s → rtc (reshaped reg) s s' → gathered s0 s'.
Proof using Type. intros Hr Hg H. revert Hg. induction H as [|x y z Hxy _ IH]; intros Hg; [done|]. apply IH. by eapply gathered_step. Qed.

Lemma batch_steps s0 s s' :
  recording (st_history s0) = true → gathered s0 s → rtc (any_edit reg) s s' → gathered s0 s'.
Proof using Hreg.
  intros Hr Hg H. revert Hg. induction H as [|x y z Hxy _ IH]; intros Hg; [done|]. apply IH.
  eapply gathered_steps; [done|exact Hg|]. apply any_edit_steps; [|done]. by destruct Hg as (? & ? & ? & _).
Qed.

(** The end of a batch is one step. *)
Lemma gathered_end s0 s d :
  recording (st_history s0) = true → currentBatch (st_history s0) = None →
  gathered s0 s → reshaped reg s0 (endBatch s d).
Proof using Type.
  intros Hr Hb (l & w & Hi & Hh & Hp & Hw). unfold endBatch, reshaped.
  rewrite !set_history_adapter, set_history_history, Hh. split; [done|]. unfold commitBatch.
  assert (with_batch (with_batch (st_history s0) (Some l)) None = st_history s0) as E
    by (destruct (st_history s0); simpl in *; by subst).
  destruct l as [|a l]; simpl.
  - left. inversion Hp; subst. split; [exact E|done].
  - right. exists (batch_action d (a :: l)). rewrite E. split; [done|].
    eapply inverts_proper; [apply _|reflexivity|exact Hw|]. by apply batch_inverts.
Qed.

(** ** Undo, redo and loads *)

Lemma follows_undo s t :
  follows s t → follows (undo s).1.1 (t_undo t) ∧ (undo s).1.2 = Ret (canUndo (st_history s)).
Proof using Type.
  intros (Hf & Ht & Hr & Hb). unfold undo.
  destruct (refines_undo shape _ _ _ Hf) as (h & w & E & Hf' & _). unfold follows. rewrite E. simpl.
  rewrite set_history_history, set_history_adapter. simpl. split; [|done].
  split; [done|]. split; [by apply timeline_inv_undo|]. clear -E Hr Hb. unfold History.undo in E.
  destruct (pop _) as [[u x]|]; [|by injection E as <- <- _]. destruct (act_undo x _) as [? []]; by injection E as <- <- _.
Qed.

Lemma follows_redo s t :
  follows s t → follows (redo s).1.1 (t_redo t) ∧ (redo s).1.2 = Ret (canRedo (st_history s)).
Proof using Type.
  intros (Hf & Ht & Hr & Hb). unfold redo.
  destruct (refines_redo shape _ _ _ Hf) as (h & w & E & Hf' & _). unfold follows. rewrite E. simpl.
  rewrite set_history_history, set_history_adapter. simpl. split; [|done].
  split; [done|]. split; [by apply timeline_inv_redo|]. clear -E Hr Hb. unfold History.redo in E.
  destruct (pop _) as [[u x]|]; [|by injection E as <- <- _]. destruct (act_redo x _) as [? []]; by injection E as <- <- _.
Qed.

(** A history with empty stacks follows whatever graph there is. *)
Lemma follows_fresh s :
  inv (st_adapter s) → undoStack (st_history s) = [] → redoStack (st_history s) = [] →
  recording (st_history s) = true → currentBatch (st_history s) = None → follows s (Timeline [] (st_adapter s) []).
Proof using Type.
  intros Hi Hu Hr ??. split; [|by split_and!]. split; [simpl; reflexivity|]. simpl. rewrite Hu, Hr. split; constructor.
Qed.

Lemma loads_inv a b : inv a → loads reg a b → inv b.
Proof using Hreg. intros Ha (d & Hd & ->). by apply fromJSON_inv. Qed.

(** What was saved comes back with its shape, whatever is loaded over. *)
Lemma reload_shape a b :
  inv a → inv b → labelled a → shape a (Adapter.fromJSON b (Adapter.toJSON a)).1.
Proof using Hreg.
  intros Ha Hb Hl. pose proof Ha as [Hra Hga _ _]. pose proof Hb as [Hrb _ _ _].
  destruct (fromJSON_toJSON (ad_editor a) (ad_editor b)) as (e' & tr & He & Hj & Hg & Hr & Hc & _);
    [rewrite Hra; by apply odoo_registry_ok|congruence|done|done|].
  destruct (fromJSON_run _ _ _ _ He) as (tr' & Hrun & Hcb). unfold Adapter.toJSON. rewrite Hrun.
  apply same_shape_inv; [done| | |].
  - apply inv_rebuild; [done|congruence|done|done|done|done].
  - unfold nshape, snap. cbn [run fst]. rewrite handlers_editor. cbn [ad_editor with_editor].
    by injection Hj as ->.
  - unfold cshape, conns. cbn [run fst]. rewrite handlers_editor. cbn [ad_editor with_editor]. by rewrite Hc.
Qed.

Lemma any_run_follows s : any_run reg s → ∃ t, follows s t.
Proof using Hreg.
  induction 1 as [|s s' _ [t IH] He|s s' d _ [t IH] He|s _ [t IH]|s _ [t IH]|s h _ [t IH]|s s' _ [t IH] Hu Hr Eh Hl
    |s s' b _ [t IH] Hlb Hl Eh Ea].
  - eexists. apply follows_fresh; [apply new_adapter_inv|done..].
  - eapply follows_steps; [exact IH|]. apply any_edit_steps; [by eapply follows_inv|done].
  - pose proof IH as (_ & _ & Hr & Hb). eapply follows_reshaped; [exact IH|]. apply gathered_end; [done|done|].
    eapply batch_steps; [done| |exact He]. exists [], (st_adapter s).
    split; [exact (follows_inv _ _ IH)|]. split; [done|]. split; [constructor|reflexivity].
  - exists (t_undo t). by apply follows_undo.
  - exists (t_redo t). by apply follows_redo.
  - pose proof IH as (_ & _ & Hr & Hb). eexists. unfold saveWorkflow_response. cbn [fst].
    apply follows_fresh; rewrite ?set_history_adapter, ?set_history_history; [by eapply (follows_inv s)|done|done|exact Hr|exact Hb].
  - pose proof IH as (_ & _ & Hrec & Hb). eexists. apply follows_fresh; rewrite ?Eh; [|done..].
    eapply loads_inv; [by eapply follows_inv|done].
  - exists t. eapply follows_shape; [exact IH|exact Eh|]. rewrite Ea. pose proof (follows_inv s t IH) as Hi.
    apply reload_shape; [done| |done]. clear -Hi Hl Hreg. induction Hl as [|x y z Hxy _ IHl]; [done|].
    apply IHl. by eapply loads_inv.
Qed.
End any.

(** ** Properties *)

(** C3: through edits, moves drawn before they are recorded, writes of the panels to
    the settings of nodes past the history, batches, undo, redo, saves, views of
    other versions and loads of well-formed workflows made while there is nothing to
    undo or redo, in any order, the graph is well formed, the state the components
    render equals it, and undo and redo answer whether there was something to undo,
    without an exception.  A load over a history that is not empty and a call that
    changes the graph past the history are excluded: [undo_after_load_breaks] and
    [graph_call_breaks_undo] show what they lead to. *)
Theorem any_run_in_sync reg s :
  odoo_ok reg → any_run reg s →
  editor_wf (ad_editor (st_adapter s)) ∧
  state_nodes (st_adapter s) = node_to_ui <$> getNodes (ad_editor (st_adapter s)) ∧
  state_connections (st_adapter s) = connection_to_ui <$> getConnections (ad_editor (st_adapter s)) ∧
  (undo s).1.2 = Ret (canUndo (st_history s)) ∧ (redo s).1.2 = Ret (canRedo (st_history s)).
Proof.
  intros Hreg [t Hf]%any_run_follows; [|done]. pose proof (follows_inv reg s t Hf) as [_ [Hwf _ _] _ [Hn Hc]].
  split; [done|]. split; [done|]. split; [done|].
  split; [apply (follows_undo reg s t Hf)|apply (follows_redo reg s t Hf)].
Qed.

(** The demo store; its request is renamed and disabled past the history, then
    deleted in a batch with a new node, and everything is undone. *)
Definition renamed (s : store) : store :=
  with_adapter s (exec_op builtin_registry (st_adapter s) (OpSetNodeLabel "n_2" "Fetch")).
Definition disabled (s : store) : store :=
  with_adapter s (exec_op builtin_registry (st_adapter s) (OpSetNodeMeta "n_2" [("disabled", JBool true)])).
Definition batched (s : store) : store :=
  endBatch (exec_edit builtin_registry (exec_edit builtin_registry (beginBatch s) (ERemoveNode "n_2"))
              (EAddNode "noop" (Position 0 0))) "Replace".
Definition any_demo : store :=
  Nat.iter 3 (λ s, (undo s).1.1) (batched (disabled (renamed store_demo))).

Lemma store_any_run reg s : store_run reg s → any_run reg s.
Proof.
  induction 1 as [|s e _ IH _|s pos _ IH|s _ IH|s _ IH|s s' _ IH Ea Eh]; [constructor|..].
  - eapply ar_edit; [exact IH|constructor].
  - eapply ar_edit; [exact IH|]. apply (ae_edit reg s (EAddNode "loop" pos)).
  - by apply ar_undo.
  - by apply ar_redo.
  - eapply ar_edit; [exact IH|]. by apply ae_other.
Qed.

Lemma any_demo_run : any_run builtin_registry any_demo.
Proof.
  unfold any_demo. cbn [Nat.iter]. do 3 apply ar_undo. unfold batched. apply (ar_batch _ (disabled (renamed store_demo))).
  - apply (ar_edit _ (renamed store_demo)); [|exact (ae_write _ _ (OpSetNodeMeta _ _) eq_refl)].
    apply (ar_edit _ store_demo); [|exact (ae_write _ _ (OpSetNodeLabel _ _) eq_refl)].
    apply store_any_run, store_demo_run.
  - eapply rtc_l; [exact (ae_edit _ _ (ERemoveNode "n_2"))|]. apply rtc_once, (ae_edit _ _ (EAddNode _ _)).
Qed.

Lemma any_run_in_sync_witness :
  editor_wf (ad_editor (st_adapter any_demo)) ∧ (redo any_demo).1.2 = Ret (canRedo (st_history any_demo)).
Proof.
  pose proof (any_run_in_sync builtin_registry any_demo builtin_registry_ok any_demo_run) as H.
  exact (conj (proj1 H) (proj2 (proj2 (proj2 (proj2 H))))).
Defined.

Lemma follows_iter reg (k : nat) s t :
  follows reg s t →
  follows reg (Nat.iter k (λ s, (undo s).1.1) s) (Nat.iter k t_undo t) ∧
  follows reg (Nat.iter k (λ s, (redo s).1.1) s) (Nat.iter k t_redo t).
Proof.
  intros H. induction k as [|k [IHu IHr]]; simpl; [done|].
  split; [by apply follows_undo|by apply follows_redo].
Qed.

(** in every such run, undoing [k] entries of the history and redoing them gives
    the ids and types of the nodes and the ends of the connections back. *)
Theorem any_undo_redo reg s (k : nat) :
  odoo_ok reg → any_run reg s → (k ≤ length (undoStack (st_history s)))%nat →
  let back := Nat.iter k (λ s, (undo s).1.1) s in
  same_shape reg (st_adapter (Nat.iter k (λ s, (redo s).1.1) back)) (st_adapter s).
Proof.
  intros Hreg [t Hf]%any_run_follows Hk back; [|done].
  destruct (follows_iter reg k s t Hf) as [Hb _]. destruct (follows_iter reg k back _ Hb) as [_ Hr].
  pose proof Hf as ((Hw & Hu & _) & _). apply undo_chain_length in Hu. cbn [fst] in Hu. rewrite Hu in Hk.
  rewrite t_undo_redo_iter in Hr by done. destruct Hr as ((Hwr & _) & _). simpl in *. by rewrite Hwr, Hw.
Qed.

(** No action resizes the history. *)
Lemma reshaped_max reg s s' : rtc (reshaped reg) s s' → maxSize (st_history s') = maxSize (st_history s).
Proof.
  induction 1 as [|x y z [_ [[Eh _]|(act & Eh & _)]] _ IH]; [done|..]; rewrite IH, Eh; [done|apply push_maxSize].
Qed.

Lemma any_run_max reg s : odoo_ok reg → any_run reg s → (0 < maxSize (st_history s))%nat.
Proof.
  intros Hreg H. induction H as [|s s' Hs IH He|s s' d Hs IH He|s _ IH|s _ IH|s h _ IH|s s' _ IH _ _ Eh _|s s' b _ IH _ _ Eh _];
    try (rewrite ?Eh; exact IH).
  - simpl. lia.
  - destruct (any_run_follows reg Hreg s Hs) as [t Hf].
    rewrite (reshaped_max reg s s'); [done|]. apply any_edit_steps; [done|by eapply follows_inv|done].
  - destruct (any_run_follows reg Hreg s Hs) as [t Hf]. pose proof Hf as (_ & _ & Hr & Hb).
    rewrite (reshaped_max reg s (endBatch s' d)); [done|]. apply rtc_once, gathered_end; [done|done|].
    eapply batch_steps; [done|done| |exact He]. exists [], (st_adapter s).
    split; [exact (follows_inv reg s t Hf)|]. split; [done|]. split; [constructor|reflexivity].
  - rewrite (proj1 (undo_spec s)), hist_step_maxSize. exact IH.
  - rewrite (proj1 (redo_spec s)), hist_step_maxSize. exact IH.
  - unfold saveWorkflow_response. cbn [fst]. rewrite ?set_history_history. exact IH.
Qed.

(** C7: undo after any one edit, in any such run, gives the same nodes, by id and
    type, and the same connections, by id and ends, up to their order; and it
    gives everything back, labels, positions, configuration and metadata included,
    if the edit removes no more than its command remembers: a removed node or
    connection has the label and the metadata of its class, the keys of an update
    are distinct.  An edit that did nothing recorded nothing.  The addition of a
    loop, which is four edits, is left out. *)
Theorem undo_restores_graph reg s e :
  odoo_ok reg → any_run reg s → (∀ pos, e ≠ EAddNode "loop" pos) →
  let s' := exec_edit reg s e in
  let given_back (R : relation adapter) :=
    (st_history s' = st_history s ∧ R (st_adapter s') (st_adapter s)) ∨
    ((undo s').1.2 = Ret true ∧ R (st_adapter (undo s').1.1) (st_adapter s)) in
  given_back (same_shape reg) ∧ (lossless reg s e → given_back (same_graph reg)).
Proof.
  intros Hreg Hs He s' back. destruct (any_run_follows reg Hreg s Hs) as [t Hf].
  pose proof (follows_inv reg s t Hf) as Hi. pose proof Hf as (_ & _ & Hrec & Hb).
  pose proof (any_run_max reg s Hreg Hs) as Hm. split.
  - destruct (exec_edit_reshaped reg Hreg s e Hi He) as [_ [[Eh Hr]|(act & Eh & Hu & _)]]; [by left|right].
    by eapply (pushed_undo (same_shape reg)).
  - intros Hl. destruct (exec_edit_edited reg Hreg s e Hi Hl) as [_ [[Eh Ea]|(act & Eh & Hu & _)]].
    + left. split; [done|]. unfold s'. by rewrite Ea.
    + right. by eapply (pushed_undo (same_graph reg)).
Qed.

Lemma undo_restores_graph_witness :
  same_graph builtin_registry
    (st_adapter (undo (exec_edit builtin_registry store_demo (ERemoveNode "n_2"))).1.1)
    (st_adapter store_demo).
Proof.
  destruct (undo_restores_graph builtin_registry store_demo (ERemoveNode "n_2")
    builtin_registry_ok (store_any_run _ _ store_demo_run) ltac:(done)) as [_ H].
  destruct (H demo_removal_lossless) as [[_ Hs]|[_ Hu]]; [|exact Hu].
  exfalso. destruct Hs as (_ & Hs & _). apply Permutation_length in Hs. vm_compute in Hs. discriminate.
Defined.

(** A connection at an output its node has not. *)
Lemma dangling_output e i h :
  (∃ c, c ∈ connections e ∧ source c = i ∧ sourceHandle c = h) →
  (n ← jget i (nodes e); jget h (outputs n)) = None → ¬ editor_wf e.
Proof.
  intros (c & Hin & <- & <-) Hno [_ _ _ Hc _].
  destruct (Hc c Hin) as (_ & _ & n & _ & po & _ & Hn & _ & Ho & _). rewrite Hn in Hno. simpl in Hno. congruence.
Qed.

(** a load keeps the history of the workflow edited before: here a node was added
    and deleted without saving, another workflow is loaded, and one undo replaces
    a node of it by the deleted one and leaves a connection at an output it has not. *)
Definition other_workflow : workflow_json := Adapter.toJSON (st_adapter store_demo).
Definition deleted : store :=
  exec_edit builtin_registry
    (exec_edit builtin_registry (new_store builtin_registry) (EAddNode "loop" (Position 0 0))) (ERemoveNode "n_1").
Definition loaded_over : store :=
  (loadWorkflow_response (loadWorkflow_request deleted) (JStr "other")
     (LoadAnswer (FullSnapshot other_workflow []) JNull JUndef)).1.

Theorem undo_after_load_breaks :
  let s := (undo loaded_over).1.1 in
  Adapter.toJSON (st_adapter loaded_over) = other_workflow ∧ (undo loaded_over).1.2 = Ret true ∧
  (node_type <$> jget "n_1" (nodes (ad_editor (st_adapter loaded_over)))) = Some "manual_trigger" ∧
  (node_type <$> jget "n_1" (nodes (ad_editor (st_adapter s)))) = Some "loop" ∧
  ¬ editor_wf (ad_editor (st_adapter s)).
Proof.
  cbv zeta. split; [vm_compute; reflexivity|]. split; [vm_compute; reflexivity|].
  split; [vm_compute; reflexivity|]. split; [vm_compute; reflexivity|].
  apply (dangling_output _ "n_1" "output"); [|vm_compute; reflexivity].
  vm_compute. eexists. split; [left|done].
Qed.

(** * The interface of the store (store/workflow_store.js, the returned service)

    Besides the actions the service offers calls that go to the adapter past the
    history, questions to the backend about a node, and copying a text.  A call of
    the backend is its request; loading, saving and running, whose answers change
    the state, are in [StoreExec]. *)

(** ** Past the history *)

Inductive service_call :=
| GetNodeConfig (nodeId : string)
| SetNodeConfig (nodeId : string) (config : jsobj)
| GetNodeControls (nodeId : string)
| GetNodeMeta (nodeId : string)
| SetNodeMeta (nodeId : string) (metaPatch : jsobj)
| RenameNode (nodeId label : string)
| SetControlValue (nodeId controlKey : string) (value : jsval)
| UpdatePosition (nodeId : string) (pos : position).

Inductive service_result :=
| RConfig (c : jsobj)
| RControls (l : list jsobj)
| RDone (b : bool).

Definition service (s : store) (c : service_call) : store * service_result :=
  let a := st_adapter s in
  let done (r : adapter * bool) := (with_adapter s r.1, RDone r.2) in
  match c with
  | GetNodeConfig i => (s, RConfig (Adapter.getNodeConfig a i))
  | SetNodeConfig i config => done (Adapter.setNodeConfig a i config)
  | GetNodeControls i => (s, RControls (Adapter.getNodeControls a i))
  | GetNodeMeta i => (s, RConfig (Adapter.getNodeMeta a i))
  | SetNodeMeta i patch => done (Adapter.setNodeMeta a i patch)
  | RenameNode i label => done (Adapter.setNodeLabel a i label)
  | SetControlValue i k v => done (Adapter.setControlValue a i k v)
  | UpdatePosition i p => done (Adapter.updatePosition a i p)
  end.

(** The calls that change the graph itself, past the history as well. *)
Inductive graph_call :=
| AddNode (type : string) (pos : position)
| AddNodeWithId (type : string) (pos : position) (forcedId : string) (config : option jsobj)
| RemoveNode (nodeId : string)
| AddConnection (src sh tgt th : string)
| RemoveConnection (connectionId : string).

Definition service_graph (reg : odoo_registry) (s : store) (c : graph_call) : store :=
  let a := st_adapter s in
  with_adapter s
    match c with
    | AddNode ty p => (Adapter.addNode reg a ty p).1
    | AddNodeWithId ty p i config => (Adapter.addNodeWithId reg a ty p i config).1
    | RemoveNode i => (Adapter.removeNode a i).1
    | AddConnection src sh tgt th => (Adapter.addConnection a src sh tgt th).1
    | RemoveConnection i => (Adapter.removeConnection a i).1
    end.

(** The service's [history], [getExecutionResults], [getWorkflowId],
    [hasUnsavedChanges] and [selectors]. *)
Definition service_canUndo (s : store) : bool := canUndo (st_history s).
Definition service_canRedo (s : store) : bool := canRedo (st_history s).
Definition getExecutionResults (s : store) : option jsobj := executionProgress s.
Definition getWorkflowId (s : store) : jsval := workflowId s.
Definition selectors_getNodes (s : store) : list ui_node := state_nodes (st_adapter s).
Definition selectors_getConnections (s : store) : list ui_connection := state_connections (st_adapter s).

(** ** Questions to the backend *)

Inductive rpc :=
| CallKw (model method : string) (args : list jsval)
| Route (path : string) (params : jsobj).

Inductive backend_method :=
| GetTriggerNodeAction | GetTriggerPanelData | GetConnectorRequestPanelData | GetConnectorNodeAction
| ActivateTriggerNode | DeactivateTriggerNode | RotateTriggerWebhook | StartTriggerWebhookTest | StopTriggerWebhookTest.

Definition method_name (m : backend_method) : string :=
  match m with
  | GetTriggerNodeAction => "get_trigger_node_action"
  | GetTriggerPanelData => "get_trigger_panel_data"
  | GetConnectorRequestPanelData => "get_connector_request_panel_data"
  | GetConnectorNodeAction => "get_connector_node_action"
  | ActivateTriggerNode => "activate_trigger_node"
  | DeactivateTriggerNode => "deactivate_trigger_node"
  | RotateTriggerWebhook => "rotate_trigger_webhook"
  | StartTriggerWebhookTest => "start_trigger_webhook_test"
  | StopTriggerWebhookTest => "stop_trigger_webhook_test"
  end.

(** The two that answer false without a workflow; the others throw. *)
Definition answers_false (m : backend_method) : bool :=
  match m with GetTriggerNodeAction | GetConnectorNodeAction => true | _ => false end.

(** A method called for a node: [None] is the answer false, at once. *)
Definition node_request (s : store) (m : backend_method) (nodeId : jsval) : outcome (option rpc) :=
  if truthy (workflowId s) then Ret (Some (CallKw "ir.workflow" (method_name m) [JArr [workflowId s]; nodeId]))
  else if answers_false m then Ret None
  else Throw "No workflow ID loaded".

(** [getRunDetails], [getNodeRunDetails] and [resolveRecordRefs]; [show] prints a number. *)
Definition getRunDetails (show : num → string) (runId : jsval) : rpc :=
  Route ("/workflow_studio/run/" +:+ js_String show runId) [].
Definition getNodeRunDetails (show : num → string) (nodeRunId : jsval) : rpc :=
  Route ("/workflow_studio/node_run/" +:+ js_String show nodeRunId) [].
Definition resolveRecordRefs (refs : jsval) : rpc :=
  Route "/workflow_studio/resolve_record_refs" [("refs", JArr (as_array refs))].

(** ** Copying a text *)

Definition copy_label (label : jsval) : string :=
  match label with JStr l => if trim l =s "" then "Text" else trim l | _ => "Text" end.

(** [copyText(value, { label })] up to the clipboard: the answer at once, or the text
    that is written. *)
Definition copyText (clipboard : bool) (value label : jsval) : (bool * list effect) + jsval :=
  if negb (truthy value) then inl (false, [])
  else if negb clipboard then
    inl (false, [Notify ("Copy " +:+ copy_label label +:+ " manually — clipboard API unavailable.") "warning"])
  else inr value.

(** The rest, when it was written or refused. *)
Definition copyText_end (written : bool) (label : jsval) : bool * list effect :=
  (written, if written then [Notify (copy_label label +:+ " copied to clipboard.") "success"]
            else [Notify ("Failed to copy " +:+ copy_label label +:+ ".") "danger"]).

(** ** Properties *)

(** The calls that go past the history are writes into nodes that exist, or change
    nothing: the history still fits after them. *)
Theorem service_keeps_run reg s c : any_run reg s → any_run reg (service s c).1.
Proof.
  intros H. eapply ar_edit; [exact H|]. destruct c; cbn; try by apply ae_other.
  - exact (ae_write reg s (OpSetNodeConfig nodeId config) eq_refl).
  - exact (ae_write reg s (OpSetNodeMeta nodeId metaPatch) eq_refl).
  - exact (ae_write reg s (OpSetNodeLabel nodeId label) eq_refl).
  - exact (ae_write reg s (OpSetControlValue nodeId controlKey value) eq_refl).
  - exact (ae_write reg s (OpUpdatePosition nodeId pos) eq_refl).
Qed.

(** No question about a node leaves without a workflow, and it names that workflow and
    that node. *)
Theorem node_request_guarded s m nodeId :
  match node_request s m nodeId with
  | Ret (Some r) => truthy (workflowId s) = true ∧ r = CallKw "ir.workflow" (method_name m) [JArr [workflowId s]; nodeId]
  | Ret None => truthy (workflowId s) = false ∧ (m = GetTriggerNodeAction ∨ m = GetConnectorNodeAction)
  | Throw e => truthy (workflowId s) = false ∧ e = "No workflow ID loaded"
  end.
Proof. unfold node_request. destruct (truthy _); [done|]. destruct m; cbn; auto. Qed.

Lemma method_name_inj m m' : method_name m = method_name m' → m = m'.
Proof. by destruct m, m'. Qed.

(** The user is told the outcome of a copy exactly once, unless there was nothing to
    copy. *)
Lemma copy_told clipboard written value label :
  let '(copied, es) := match copyText clipboard value label with inl r => r | inr _ => copyText_end written label end in
  copied = truthy value && clipboard && written ∧ length es = (if truthy value then 1 else 0)%nat.
Proof. unfold copyText. destruct (truthy value), clipboard, written; done. Qed.

(** The calls that change the graph itself do not fit the history: a node that was
    deleted and is put back this way under another type is replaced by undo, and its
    connection is left at an output it has not. *)
Definition put_back : store :=
  foldl (service_graph builtin_registry) deleted
    [AddNodeWithId "manual_trigger" (Position 0 0) "n_1" None; AddNode "http" (Position 1 0);
     AddConnection "n_1" "output" "n_3" "data"].

Theorem graph_call_breaks_undo :
  let s := (undo put_back).1.1 in
  conn_id <$> connections (ad_editor (st_adapter put_back)) = [generateId "n_1" "output" "n_3" "data"] ∧
  (undo put_back).1.2 = Ret true ∧ ¬ editor_wf (ad_editor (st_adapter s)).
Proof.
  cbv zeta. split; [vm_compute; reflexivity|]. split; [vm_compute; reflexivity|].
  apply (dangling_output _ "n_1" "output"); [|vm_compute; reflexivity].
  vm_compute. eexists. split; [left|done].
Qed.
