(* ===== verification/WorkflowCommands.v ===== *)
(** * Keyboard commands (components/editor_canvas/hooks/use_workflow_commands.js)

    The commands of the palette and the hotkeys of the canvas, over the store.
    In the editor [getReadonly] reads the store's flag and [getNodes] its copy of
    the graph.  When a key fires is up to the hotkey service of the web client. *)

From S2P Require Import Prelude JsMap JsValue JsNumber Connection Node Nodes Editor EditorInv Adapter AdapterInv AdapterEquiv AdapterRun History HistoryTimeline Commands Store StoreInv StoreRun StoreBatch.

(** [_deleteSelection()] *)
Definition deleteSelection (reg : odoo_registry) (s : store) : store :=
  let '(nodeIds, connectionIds) := selection (st_ui s) in
  let s :=
    match nodeIds with
    | [] => s
    | _ =>
        let s := beginBatch s in
        let s := foldl (λ s i, (removeNode reg s i).1) s nodeIds in
        let s := endBatch s "Delete nodes" in
        select s [] connectionIds
    end in
  match connectionIds with
  | [] => s
  | _ =>
      let several := (1 <? length connectionIds)%nat in
      let s := if several then beginBatch s else s in
      let s := foldl (λ s i, (removeConnection s i).1) s connectionIds in
      let s := if several then endBatch s "Delete connections" else s in
      select s (selection (st_ui s)).1 []
  end.

(** The place a selected node goes to; [nodes] is the graph when the key was
    pressed. *)
Definition move_target (nodes : list ui_node) (moveX moveY : num) (i : string) : option position :=
  n ← find_first (λ n, bool_decide (ui_id n = Some i)) nodes;
  Some (Position (ui_x n + moveX)%Qc (ui_y n + moveY)%Qc).

(** [_moveSelection(dx, dy, large)] *)
Definition moveSelection (s : store) (dx dy : Z) (large : bool) : store :=
  match (selection (st_ui s)).1 with
  | [] => s
  | nodeIds =>
      let step := num_of_Z (if large then 50 else 20) in
      let moveX := (num_of_Z dx * step)%Qc in
      let moveY := (num_of_Z dy * step)%Qc in
      let s := beginBatch s in
      let nodes := state_nodes (st_adapter s) in
      let s := foldl (λ s i, match move_target nodes moveX moveY i with
                             | Some p => moveNode s i p
                             | None => s
                             end) s nodeIds in
      endBatch s "Move nodes (keyboard)"
  end.

Inductive direction := Up | Down | Left | Right.

Inductive command :=
| Save
| Execute
| Undo
| Redo
| SelectAll
| Delete
| Move (d : direction) (shift : bool).

(** What a command does; [Throw] is an exception of an undone command. *)
Definition run_command (reg : odoo_registry) (s : store) (c : command)
    : store * outcome unit * list effect :=
  if readonly (st_ui s) then (s, Ret tt, [])
  else
    match c with
    | Save => (s, Ret tt, [Trigger "save" JUndef])
    | Execute => (s, Ret tt, [Trigger "run" JUndef])
    | Undo => let '(s, r, es) := undo s in (s, r ≫= (λ _, Ret tt), es)
    | Redo => let '(s, r, es) := redo s in (s, r ≫= (λ _, Ret tt), es)
    | SelectAll => (select s (omap ui_id (state_nodes (st_adapter s))) [], Ret tt, [])
    | Delete => (deleteSelection reg s, Ret tt, [])
    | Move Up large => (moveSelection s 0 (-1) large, Ret tt, [])
    | Move Down large => (moveSelection s 0 1 large, Ret tt, [])
    | Move Left large => (moveSelection s (-1) 0 large, Ret tt, [])
    | Move Right large => (moveSelection s 1 0 large, Ret tt, [])
    end.

(** [isEnabled] of the palette entries of undo and redo. *)
Definition undo_enabled (s : store) : bool := negb (readonly (st_ui s)) && (ui_history (st_ui s)).1.
Definition redo_enabled (s : store) : bool := negb (readonly (st_ui s)) && (ui_history (st_ui s)).2.

(** ** Moving with the arrow keys *)

(** The moves of a list of ids, each to its target. *)
Definition moves_to (target : string → option position) (ids : list string) (d : node_json) : node_json :=
  foldl (λ d i, match target i with Some p => json_move i p d | None => d end) d ids.

Lemma moves_to_id target ids d : nj_id (moves_to target ids d) = nj_id d.
Proof.
  unfold moves_to. revert d. induction ids as [|i ids IH]; intros d; simpl; [done|]. rewrite IH.
  destruct (target i); [|done]. unfold json_move. by destruct (has_id i d).
Qed.

Lemma moves_to_spec target ids d i :
  nj_id d = Some i →
  moves_to target ids d =
    match target i with
    | Some p => if bool_decide (i ∈ ids) then json_at p d else d
    | None => d
    end.
Proof.
  revert d. induction ids as [|j ids IH]; intros d Hd; simpl.
  - by destruct (target i).
  - destruct (decide (j = i)) as [->|Hne].
    + destruct (target i) as [p|] eqn:Et; [|rewrite IH by done; by rewrite ?Et].
      unfold json_move, has_id. rewrite (bool_decide_true (nj_id d = Some i)) by done.
      rewrite IH by done. rewrite (bool_decide_true (i ∈ i :: ids)) by left. simpl.
      by destruct (bool_decide (i ∈ ids)).
    + replace (match target j with Some p => json_move j p d | None => d end) with d.
      * rewrite IH by done. destruct (target i); [|done].
        rewrite (bool_decide_ext (i ∈ j :: ids) (i ∈ ids)) by set_solver. done.
      * destruct (target j); [|done]. unfold json_move, has_id. rewrite bool_decide_false; [done|].
        rewrite Hd. congruence.
Qed.

Section move.
Context (reg : odoo_registry) (Hreg : odoo_ok reg).
Notation inv := (adapter_inv reg).
Implicit Types (s : store).

Lemma moveNode_snap s i p :
  inv (st_adapter s) →
  inv (st_adapter (moveNode s i p)) ∧
  snap (st_adapter (moveNode s i p)) = json_move i p <$> snap (st_adapter s) ∧
  conns (st_adapter (moveNode s i p)) = conns (st_adapter s).
Proof using Type.
  intros Hs. destruct (snap_updatePosition reg (st_adapter s) i p Hs) as [H1 H2].
  pose proof (updatePosition_inv reg (st_adapter s) i p Hs) as H3.
  unfold moveNode, getNode. rewrite ui_lookup with (reg := reg) by done.
  destruct (jget i (nodes (ad_editor (st_adapter s)))) as [n|] eqn:E; simpl; rewrite on_adapter_spec.
  - destruct (same_position _ p) eqn:Ep; [|by rewrite record_adapter].
    rewrite ui_position_node in Ep. unfold updatePosition, Editor.getNode in H1, H2. rewrite E, Ep in H1, H2.
    by rewrite <- H1.
  - done.
Qed.

Lemma foldl_moveNode target ids s :
  inv (st_adapter s) →
  let s' := foldl (λ s i, match target i with Some p => moveNode s i p | None => s end) s ids in
  inv (st_adapter s') ∧ snap (st_adapter s') = moves_to target ids <$> snap (st_adapter s) ∧
  conns (st_adapter s') = conns (st_adapter s).
Proof using Type.
  simpl. revert s. induction ids as [|i ids IH]; intros s Hs; simpl.
  { split_and!; try done. symmetry. apply list_fmap_id. }
  destruct (target i) as [p|] eqn:Et.
  - destruct (moveNode_snap s i p Hs) as (H1 & H2 & H3). destruct (IH _ H1) as (H4 & H5 & H6).
    split_and!; [done| |congruence]. rewrite H5, H2, <- list_fmap_compose.
    apply list_fmap_ext. intros _ d _. simpl. unfold moves_to. simpl. by rewrite Et.
  - destruct (IH s Hs) as (H4 & H5 & H6). split_and!; [done| |done]. rewrite H5.
    apply list_fmap_ext. intros _ d _. unfold moves_to. simpl. by rewrite Et.
Qed.

Lemma moveSelection_edited s dx dy large : idle reg s → edited reg s (moveSelection s dx dy large).
Proof using Hreg.
  intros Hs. unfold moveSelection. destruct (selection (st_ui s)).1 as [|i ids].
  { apply edited_same; [apply Hs|done..]. }
  apply end_collected; [done|].
  eapply (foldl_collected reg _ (λ _ _, True)); [done| |by apply begin_collected|done].
  intros s1 j l Hi _. split; [|done]. apply rtc_once.
  destruct (move_target _ _ _ _); [by apply moveNode_edited|by apply edited_same].
Qed.

(** ** Deleting the selection *)

(** Every node has the label and metadata of its class, every connection no
    metadata of its own: what the commands can restore. *)
Definition plain_graph (a : adapter) : Prop :=
  (∀ i n, jget i (nodes (ad_editor a)) = Some n → plain_node reg n) ∧ (∀ c, c ∈ conns a → plain_conn c).

Lemma adapter_removeNode_nodes a i j n :
  jget j (nodes (ad_editor (Adapter.removeNode a i).1)) = Some n → jget j (nodes (ad_editor a)) = Some n.
Proof using Type.
  unfold Adapter.removeNode, Editor.removeNode. destruct (jget i (nodes (ad_editor a))) eqn:E; simpl;
    rewrite ?handlers_editor; simpl; [|done]. rewrite jget_jdel. by case_bool_decide.
Qed.

Lemma store_removeNode_adapter s i :
  inv (st_adapter s) →
  st_adapter (removeNode reg s i).1 = (Adapter.removeNode (st_adapter s) i).1 ∨
  st_adapter (removeNode reg s i).1 = st_adapter s ∧ jget i (nodes (ad_editor (st_adapter s))) = None.
Proof using Type.
  intros Hs. unfold removeNode, getNode. rewrite ui_lookup with (reg := reg) by done.
  destruct (jget i (nodes (ad_editor (st_adapter s)))) as [n|]; simpl; [|by right].
  left. rewrite on_adapter_spec. by rewrite record_adapter.
Qed.

Lemma store_removeNode_snap s i :
  inv (st_adapter s) →
  snap (st_adapter (removeNode reg s i).1) = bfilter (λ d, negb (has_id i d)) (snap (st_adapter s)) ∧
  conns (st_adapter (removeNode reg s i).1) = bfilter (λ c, negb (involvesNode c i)) (conns (st_adapter s)).
Proof using Type.
  intros Hs. destruct (snap_removeNode reg (st_adapter s) i Hs) as [H1 H2].
  destruct (store_removeNode_adapter s i Hs) as [->|[-> Hn]]; [done|].
  unfold Adapter.removeNode, Editor.removeNode in H1, H2. rewrite Hn in H1, H2. done.
Qed.

Lemma store_removeNode_plain s i :
  inv (st_adapter s) → plain_graph (st_adapter s) → plain_graph (st_adapter (removeNode reg s i).1).
Proof using Type.
  intros Hs [Hn Hc]. split.
  - intros j n Hj. apply (Hn j). destruct (store_removeNode_adapter s i Hs) as [E|[E _]]; rewrite E in Hj;
      [by eapply adapter_removeNode_nodes|done].
  - intros c. rewrite (proj2 (store_removeNode_snap s i Hs)), elem_of_bfilter. intros [? _]. by apply Hc.
Qed.

Lemma removeNode_rtc s i :
  inv (st_adapter s) → plain_graph (st_adapter s) → edited reg s (removeNode reg s i).1.
Proof using Hreg. intros Hs [Hn Hc]. apply removeNode_edited; [done|done|apply Hn|]. intros c ??. by apply Hc. Qed.

Lemma foldl_removeNode ids s :
  inv (st_adapter s) → plain_graph (st_adapter s) →
  let s' := foldl (λ s i, (removeNode reg s i).1) s ids in
  inv (st_adapter s') ∧ plain_graph (st_adapter s') ∧
  snap (st_adapter s') = bfilter (λ d, negb (existsb (λ i, has_id i d) ids)) (snap (st_adapter s)) ∧
  conns (st_adapter s') = bfilter (λ c, negb (existsb (involvesNode c) ids)) (conns (st_adapter s)).
Proof using Hreg.
  simpl. revert s. induction ids as [|i ids IH]; intros s Hs Hp; simpl.
  { split_and!; try done; symmetry; by apply bfilter_all. }
  destruct (removeNode_rtc s i Hs Hp) as [Hi _]. pose proof (store_removeNode_plain s i Hs Hp) as Hp'.
  destruct (IH _ Hi Hp') as (H1 & H2 & H3 & H4). destruct (store_removeNode_snap s i Hs) as [E1 E2].
  split_and!; [done|done|rewrite H3, E1|rewrite H4, E2]; rewrite bfilter_bfilter; apply bfilter_ext;
    intros x; by rewrite negb_orb, andb_comm.
Qed.

Lemma deleteSelection_nodes s ids :
  idle reg s → plain_graph (st_adapter s) → selection (st_ui s) = (ids, []) →
  let s' := deleteSelection reg s in
  edited reg s s' ∧
  snap (st_adapter s') = bfilter (λ d, negb (existsb (λ i, has_id i d) ids)) (snap (st_adapter s)) ∧
  conns (st_adapter s') = bfilter (λ c, negb (existsb (involvesNode c) ids)) (conns (st_adapter s)).
Proof using Hreg.
  intros Hs Hp Hsel. unfold deleteSelection. rewrite Hsel. destruct ids as [|i ids]; cbv beta iota zeta.
  { split; [apply edited_same; [apply Hs|done..]|]. split; symmetry; by apply bfilter_all. }
  pose proof (begin_collected reg s Hs) as Hb.
  assert (inv (st_adapter (beginBatch s))) as Hi by apply Hs.
  destruct (foldl_removeNode (i :: ids) (beginBatch s) Hi Hp) as (_ & _ & H3 & H4).
  set (s1 := foldl _ _ _) in *.
  assert (st_adapter (select (endBatch s1 "Delete nodes") [] []) = st_adapter s1) as -> by apply set_history_adapter.
  split; [|done].
  eapply edited_ui; [|done|done]. apply end_collected; [done|]. subst s1.
  eapply (foldl_collected reg _ (λ s _, plain_graph (st_adapter s))); [done| |done|done].
  intros s1 j l Hi1 Hp1. split; [apply rtc_once; by apply removeNode_rtc|by apply store_removeNode_plain].
Qed.
End move.

(** ** Properties *)

(** A saved node at the place the arrow keys move it to. *)
Definition shifted_json (ids : list string) (moveX moveY : num) (d : node_json) : node_json :=
  match nj_id d, nj_position d with
  | Some i, Some p =>
      if bool_decide (i ∈ ids) then json_at (Position (pos_x p + moveX)%Qc (pos_y p + moveY)%Qc) d else d
  | _, _ => d
  end.

(** The arrow keys move exactly the selected nodes, by the same step, change
    nothing else of the graph, and are one step of the history. *)
Theorem arrow_keys_exact reg s dx dy large :
  odoo_ok reg → run_ok reg s →
  let s' := moveSelection s dx dy large in
  let step := num_of_Z (if large then 50 else 20) in
  snap (st_adapter s') =
    shifted_json (selection (st_ui s)).1 (num_of_Z dx * step) (num_of_Z dy * step) <$> snap (st_adapter s) ∧
  conns (st_adapter s') = conns (st_adapter s) ∧ undoable reg s s' ∧ run_ok reg s'.
Proof.
  intros Hreg Hok s' step. pose proof (run_ok_idle reg s Hok) as Hs.
  pose proof (moveSelection_edited reg Hreg s dx dy large Hs) as He.
  pose proof (edited_undoable reg s s' Hok He) as Hu. pose proof (store_ok_edited_inv reg s s' Hok He) as Hok'.
  cut (snap (st_adapter s') = shifted_json (selection (st_ui s)).1 (num_of_Z dx * step) (num_of_Z dy * step)
         <$> snap (st_adapter s) ∧ conns (st_adapter s') = conns (st_adapter s)); [naive_solver|].
  clear He Hu Hok'. subst s'. unfold moveSelection. destruct (selection (st_ui s)).1 as [|i0 ids] eqn:Esel.
  { split; [|done]. rewrite <- (list_fmap_id (snap (st_adapter s))) at 1. apply list_fmap_ext. intros _ d _.
    unfold shifted_json. by destruct (nj_id d), (nj_position d). }
  cbv zeta. unfold endBatch. rewrite set_history_adapter. fold step.
  destruct (foldl_moveNode reg (move_target (state_nodes (st_adapter (beginBatch s))) (num_of_Z dx * step) (num_of_Z dy * step))
    (i0 :: ids) (beginBatch s) (proj1 Hs)) as (_ & -> & ->).
  split; [|done]. apply list_fmap_ext. intros _ d Hd%list_elem_of_lookup_2. simpl in Hd.
  pose proof (proj1 (elem_of_snap reg _ d (proj1 Hs)) Hd) as (i & n & Hn & -> & Hid).
  rewrite (moves_to_spec _ _ _ i Hid). unfold move_target, shifted_json. simpl st_adapter.
  rewrite (ui_lookup reg _ i (proj1 Hs)), Hn, Hid. simpl. by case_bool_decide.
Qed.

(** The store of the example with both nodes selected. *)
Definition selected_demo : store := select store_demo ["n_1"; "n_2"] [].

Lemma selected_demo_ok : run_ok builtin_registry selected_demo.
Proof. apply run_ok_select, store_run_ok; [apply builtin_registry_ok|apply store_demo_run]. Qed.

Lemma arrow_keys_exact_witness :
  conns (st_adapter (moveSelection selected_demo 0 1 true)) = conns (st_adapter selected_demo).
Proof.
  exact (proj1 (proj2 (arrow_keys_exact builtin_registry selected_demo 0 1 true
    builtin_registry_ok selected_demo_ok))).
Defined.

(** Deleting a selection of nodes removes exactly these nodes and the
    connections that touch them, and one undo brings all of them back, when the
    nodes have the labels of their classes ([plain_graph]). *)
Theorem delete_selection_exact reg s ids :
  odoo_ok reg → run_ok reg s → plain_graph reg (st_adapter s) → selection (st_ui s) = (ids, []) →
  let s' := deleteSelection reg s in
  snap (st_adapter s') = bfilter (λ d, negb (existsb (λ i, has_id i d) ids)) (snap (st_adapter s)) ∧
  conns (st_adapter s') = bfilter (λ c, negb (existsb (involvesNode c) ids)) (conns (st_adapter s)) ∧
  undoable reg s s' ∧ run_ok reg s'.
Proof.
  intros Hreg Hok Hp Hsel. pose proof (run_ok_idle reg s Hok) as Hs.
  destruct (deleteSelection_nodes reg Hreg s ids Hs Hp Hsel) as (He & H1 & H2).
  split_and!; [done|done|by apply edited_undoable|by eapply store_ok_edited_inv].
Qed.

Lemma selected_demo_plain : plain_graph builtin_registry (st_adapter selected_demo).
Proof.
  split.
  - assert (Forall (λ kn, plain_node builtin_registry kn.2)
              (nodes (ad_editor (st_adapter selected_demo)))) as H.
    { vm_compute. repeat constructor; intros cls [= <-]; reflexivity. }
    intros i n Hn%jget_elem. rewrite Forall_forall in H. exact (H _ Hn).
  - assert (Forall plain_conn (conns (st_adapter selected_demo))) as H by (vm_compute; by repeat constructor).
    intros c Hc. rewrite Forall_forall in H. by apply H.
Qed.

Lemma delete_selection_exact_witness :
  snap (st_adapter (deleteSelection builtin_registry selected_demo)) = [] ∧
  undoable builtin_registry selected_demo (deleteSelection builtin_registry selected_demo).
Proof.
  destruct (delete_selection_exact builtin_registry selected_demo ["n_1"; "n_2"] builtin_registry_ok
    selected_demo_ok selected_demo_plain eq_refl) as (H1 & _ & H3 & _).
  split; [|exact H3]. etransitivity; [exact H1|]. vm_compute. reflexivity.
Defined.
