(* ===== verification/Clipboard.v ===== *)
(** * Copy and paste (components/editor_canvas/hooks/use_clipboard.js)

    Copying writes the selected nodes and the connections between them to the
    clipboard as JSON; pasting reads a text, creates the nodes again at an offset
    and connects them, inside one batch of the history.  A clipboard text is what
    [JSON.parse] makes of it: not JSON at all, something without a list of nodes,
    or data; an entry of the list that is no object makes the loop throw. *)

From S2P Require Import Prelude JsMap JsValue JsNumber Connection Node Nodes Editor EditorInv Adapter AdapterInv AdapterEquiv AdapterRun History HistoryTimeline Commands Store StoreInv StoreRun StoreBatch.

(** A node in the clipboard; [cn_config] is [None] when the field is missing. *)
Record clip_node := ClipNode {
  cn_id : string;
  cn_type : string;
  cn_x : num;
  cn_y : num;
  cn_title : string;
  cn_config : option jsobj;
}.

(** [None] is an entry that is not an object. *)
Record clip_data := ClipData {
  cd_nodes : list (option clip_node);
  cd_connections : list ui_connection;
}.

Inductive clip_text :=
| NotJson
| NoNodes
| Clip (data : clip_data).

(** What [JSON.parse(JSON.stringify(v))] gives: [undefined] disappears from
    objects and becomes [null] in arrays. *)
Fixpoint json_value (v : jsval) : jsval :=
  match v with
  | JUndef => JNull
  | JArr l => JArr (json_value <$> l)
  | JObj o =>
      JObj ((fix go o :=
               match o with
               | [] => []
               | (k, v) :: o => match v with JUndef => go o | _ => (k, json_value v) :: go o end
               end) o)
  | _ => v
  end.

Definition json_object (o : jsobj) : jsobj := if json_value (JObj o) is JObj o' then o' else [].

(** [copySelectedNodes()]: what is written, if anything. *)
Definition clip_of (a : adapter) (n : ui_node) : option clip_node :=
  i ← ui_id n;
  Some (ClipNode i (ui_type n) (ui_x n) (ui_y n) (ui_title n) (Some (json_object (Adapter.getNodeConfig a i)))).

Definition in_selection (ids : list string) (n : ui_node) : bool :=
  match ui_id n with Some i => bool_decide (i ∈ ids) | None => false end.

Definition conn_inside (ids : list string) (c : ui_connection) : bool :=
  bool_decide (uc_source c ∈ ids) && bool_decide (uc_target c ∈ ids).

Definition copySelectedNodes (s : store) : option clip_data :=
  if readonly (st_ui s) then None
  else
    match (selection (st_ui s)).1 with
    | [] => None
    | ids =>
        let a := st_adapter s in
        let nodesToCopy := bfilter (in_selection ids) (state_nodes a) in
        let connectionsToCopy := bfilter (conn_inside ids) (state_connections a) in
        Some (ClipData (Some <$> omap (clip_of a) nodesToCopy) connectionsToCopy)
    end.

Definition PASTE_OFFSET : num := num_of_Z 50.

Definition paste_position (n : clip_node) : position :=
  Position (cn_x n + PASTE_OFFSET)%Qc (cn_y n + PASTE_OFFSET)%Qc.

(** The body of the first loop: a node, and the entry of [idMap]. *)
Definition paste_node (reg : odoo_registry) (st : store * list (string * string)) (n : clip_node)
    : store * list (string * string) :=
  let '(s, idMap) := st in
  match addNode reg s (cn_type n) (paste_position n) with
  | (s, None) => (s, idMap)
  | (s, Some newId) =>
      let idMap := oset (cn_id n) newId idMap in
      match cn_config n with
      | Some config => ((on_adapter s (λ a, setNodeConfig a newId config)).1, idMap)
      | None => (s, idMap)
      end
  end.

Fixpoint paste_nodes (reg : odoo_registry) (st : store * list (string * string)) (ns : list (option clip_node))
    : store * list (string * string) * outcome unit :=
  match ns with
  | [] => (st, Ret tt)
  | Some n :: ns => paste_nodes reg (paste_node reg st n) ns
  | None :: _ => (st, Throw "Cannot read properties of null")
  end.

(** The body of the second loop. *)
Definition paste_connection (idMap : list (string * string)) (s : store) (c : ui_connection) : store :=
  match jget (uc_source c) idMap, jget (uc_target c) idMap with
  | Some src, Some tgt => (addConnection s src (uc_sourceHandle c) tgt (uc_targetHandle c)).1
  | _, _ => s
  end.

(** [pasteNodes()]; a batch that ends because of an exception has no description. *)
Definition pasteNodes (reg : odoo_registry) (s : store) (text : clip_text) : store :=
  if readonly (st_ui s) then s
  else
    match text with
    | NotJson => endBatch s ""
    | NoNodes => s
    | Clip data =>
        let s := beginBatch s in
        match paste_nodes reg (s, []) (cd_nodes data) with
        | (s, idMap, Ret _) =>
            endBatch (foldl (paste_connection idMap) s (cd_connections data)) "Paste nodes"
        | (s, _, Throw _) => endBatch s ""
        end
    end.

(** ** Pasting only adds *)

(** The closure that undoes an addition removes a node or a connection. *)
Inductive removal : action adapter → string + string → Prop :=
| removal_node d u r i : u = call (λ a, Adapter.removeNode a i) → removal (Action d u r) (inl i)
| removal_conn d u r i : u = call (λ a, Adapter.removeConnection a i) → removal (Action d u r) (inr i).

Definition touched_node (rs : list (string + string)) (d : node_json) : bool :=
  existsb (λ r, match r with inl i => has_id i d | inr _ => false end) rs.
Definition touched_conn (rs : list (string + string)) (c : connection) : bool :=
  existsb (λ r, match r with inl i => involvesNode c i | inr i => conn_id c =s i end) rs.

Section paste.
Context (reg : odoo_registry) (Hreg : odoo_ok reg).
Notation inv := (adapter_inv reg).
Implicit Types (s : store) (a : adapter).

Lemma removals_run (l : list (action adapter)) rs a :
  inv a → Forall2 removal l rs →
  ∃ a', run_all (act_undo <$> l) a = (a', Ret tt) ∧ inv a' ∧
    snap a' = bfilter (λ d, negb (touched_node rs d)) (snap a) ∧
    conns a' = bfilter (λ c, negb (touched_conn rs c)) (conns a).
Proof using Type.
  intros Ha Hl. revert a Ha. induction Hl as [|x r l rs Hx _ IH]; intros a Ha; csimpl.
  { exists a. split_and!; try done; symmetry; by apply bfilter_all. }
  destruct Hx as [d u re i ->|d u re i ->]; cbn [act_undo call].
  - destruct (IH _ (removeNode_inv reg a i Ha)) as (a' & -> & Hi & H1 & H2).
    destruct (snap_removeNode reg a i Ha) as [E1 E2]. exists a'. rewrite H1, H2, E1, E2, !bfilter_bfilter.
    split_and!; try done; apply bfilter_ext; intros z; unfold touched_node, touched_conn; simpl;
      by rewrite negb_orb, andb_comm.
  - destruct (IH _ (removeConnection_inv reg a i Ha)) as (a' & -> & Hi & H1 & H2).
    destruct (snap_removeConnection reg a i Ha) as [E1 E2]. exists a'. rewrite H1, H2, E1, E2, !bfilter_bfilter.
    split_and!; try done; apply bfilter_ext; intros z; unfold touched_node, touched_conn; simpl;
      by rewrite negb_orb, andb_comm.
Qed.

(** Inside the batch that began in [s0]: the additions [rs] are recorded, and
    without them the graph is that of [s0]. *)
Record pasting s0 s (rs : list (string + string)) : Prop := {
  pg_inv : inv (st_adapter s);
  pg_snap : bfilter (λ d, negb (touched_node rs d)) (snap (st_adapter s)) ≡ₚ snap (st_adapter s0);
  pg_conns : bfilter (λ c, negb (touched_conn rs c)) (conns (st_adapter s)) ≡ₚ conns (st_adapter s0);
  pg_history : ∃ l, st_history s = with_batch (st_history s0) (Some l) ∧ Forall2 removal l rs;
}.

Lemma pasting_begin s : idle reg s → pasting s (beginBatch s) [].
Proof using Type.
  intros (Hi & _). split; [done|by rewrite bfilter_all|by rewrite bfilter_all|].
  exists []. split; [done|constructor].
Qed.

(** What the user interface and the progress do does not matter. *)
Lemma pasting_ext s0 s s' rs :
  st_adapter s' = st_adapter s → st_history s' = st_history s → pasting s0 s rs → pasting s0 s' rs.
Proof using Type. intros Ea Eh []. by split; rewrite ?Ea, ?Eh. Qed.

Lemma touched_node_snoc rs r d : touched_node (rs ++ [r]) d = touched_node rs d || touched_node [r] d.
Proof using Type. apply existsb_app. Qed.

Lemma touched_conn_snoc rs r c : touched_conn (rs ++ [r]) c = touched_conn rs c || touched_conn [r] c.
Proof using Type. apply existsb_app. Qed.

(** Recording one more addition. *)
Lemma pasting_record s0 s s1 rs r act :
  idle reg s0 → pasting s0 s rs → removal act r →
  st_history s1 = st_history s → inv (st_adapter s1) →
  bfilter (λ d, negb (touched_node (rs ++ [r]) d)) (snap (st_adapter s1)) ≡ₚ snap (st_adapter s0) →
  bfilter (λ c, negb (touched_conn (rs ++ [r]) c)) (conns (st_adapter s1)) ≡ₚ conns (st_adapter s0) →
  pasting s0 (record_action s1 act) (rs ++ [r]).
Proof using Type.
  intros (_ & Hr & _) [_ _ _ (l & Hh & Hl)] Hact Eh Hi H1 H2.
  split; rewrite ?record_adapter; try done. exists (l ++ [act]). split; [|by apply Forall2_app; [|constructor]].
  rewrite record_history, Eh, Hh. unfold push. simpl. by rewrite Hr.
Qed.

(** Elements that were not there before cannot be among those of [s0]. *)
Lemma bfilter_keep {A} (f g : A → bool) (l k : list A) :
  bfilter f l ≡ₚ k → (∀ x, x ∈ l → g x = true) → bfilter (λ x, f x && g x) l ≡ₚ k.
Proof using Type.
  intros H Hg. rewrite <- H. clear H. apply Permutation_refl'. induction l as [|x l IH]; simpl; [done|].
  rewrite (Hg x) by left. rewrite andb_true_r, IH by (intros; apply Hg; by right). done.
Qed.

Lemma pasting_node s0 s rs type pos i :
  idle reg s0 → pasting s0 s rs → (Adapter.addNode reg (st_adapter s) type pos).2 = Some i →
  pasting s0 (add_and_record reg (with_adapter s (Adapter.addNode reg (st_adapter s) type pos).1) type pos i)
    (rs ++ [inl i]).
Proof using Hreg.
  intros H0 Hp Hi. pose proof Hp as [Hinv Hs Hc _]. destruct (getNodeClass reg type) as [cls|] eqn:Ec.
  2:{ unfold Adapter.addNode in Hi. by rewrite Ec in Hi. }
  destruct (addNode_adds reg Hreg (st_adapter s) type pos cls Hinv Ec) as (i' & Hi' & Hinv' & Hcs & _ & _ & Hf & Hsn).
  rewrite Hi in Hi'. injection Hi' as <-. unfold add_and_record.
  eapply pasting_record; [done|exact Hp|by constructor|done|done|..]; cbn [st_adapter with_adapter].
  - rewrite (bfilter_perm _ _ _ Hsn), bfilter_app. simpl.
    rewrite touched_node_snoc. unfold touched_node at 3. simpl. unfold has_id at 1. rewrite restored_json_id.
    simpl. rewrite (bool_decide_true (Some i = Some i)) by done. rewrite orb_true_r. simpl. rewrite app_nil_r.
    rewrite (bfilter_ext _ (λ d, negb (touched_node rs d) && negb (has_id i d)))
      by (intros d; rewrite touched_node_snoc; unfold touched_node at 2; simpl; by rewrite orb_false_r, negb_orb).
    apply bfilter_keep; [done|]. intros d Hd. by rewrite (snap_fresh reg (st_adapter s) i).
  - rewrite Hcs.
    rewrite (bfilter_ext _ (λ c, negb (touched_conn rs c) && negb (involvesNode c i)))
      by (intros c; rewrite touched_conn_snoc; unfold touched_conn at 2; simpl; by rewrite orb_false_r, negb_orb).
    apply bfilter_keep; [done|]. intros c Hin. by rewrite (conns_untouched reg (st_adapter s) i).
Qed.

Lemma pasting_connection s0 s rs src sh tgt th :
  idle reg s0 → pasting s0 s rs →
  match on_adapter s (λ a, Adapter.addConnection a src sh tgt th) with
  | (s1, Some c) => pasting s0 (record_action s1 (createAddConnectionAction (conn_data_of c))) (rs ++ [inr (conn_id c)])
  | (s1, None) => pasting s0 s1 rs
  end.
Proof using Type.
  intros H0 Hp. pose proof Hp as [Hinv Hs Hc _]. rewrite on_adapter_spec.
  pose proof (addConnection_inv reg (st_adapter s) src sh tgt th Hinv) as Hi. revert Hi.
  unfold Adapter.addConnection. destruct (Editor.addConnection _ _ _ _ _) as [[e [c|]] tr] eqn:E.
  - apply addConnection_Some in E as (-> & -> & _ & Hnew & _). simpl. intros Hi.
    eapply pasting_record; [done|exact Hp|by constructor|done|done|..]; cbn [st_adapter with_adapter].
    + unfold snap. rewrite handlers_editor. simpl.
      rewrite (bfilter_ext _ (λ d, negb (touched_node rs d)))
        by (intros d; rewrite touched_node_snoc; by rewrite orb_false_r). done.
    + unfold conns. rewrite handlers_editor. simpl. rewrite bfilter_app. simpl.
      rewrite touched_conn_snoc. unfold touched_conn at 3. simpl. rewrite bool_decide_true by done.
      rewrite orb_true_r. simpl. rewrite app_nil_r.
      rewrite (bfilter_ext _ (λ c', negb (touched_conn rs c') && negb (conn_id c' =s generateId src sh tgt th)))
        by (intros c; rewrite touched_conn_snoc; unfold touched_conn at 2; simpl; by rewrite orb_false_r, negb_orb).
      apply bfilter_keep; [done|]. intros c Hin. rewrite bool_decide_false; [done|]. intros E.
      apply Hnew. simpl. rewrite <- E. by apply list_elem_of_fmap_2.
  - apply addConnection_None in E as [-> ->]. intros _. simpl.
    apply (pasting_ext s0 s); [|done|done]. simpl. by destruct (st_adapter s).
Qed.

Lemma pasting_addConnection s0 s rs src sh tgt th :
  idle reg s0 → pasting s0 s rs → ∃ rs', pasting s0 (addConnection s src sh tgt th).1 rs'.
Proof using Type.
  intros H0 Hp. pose proof (pasting_connection s0 s rs src sh tgt th H0 Hp) as H. unfold addConnection.
  destruct (on_adapter _ _) as [s1 [c|]]; [|by exists rs].
  eexists. eapply pasting_ext; [| |exact H]; simpl; by rewrite ?record_adapter, ?record_history.
Qed.

Lemma pasting_connect s0 s rs src sh tgt th :
  idle reg s0 → pasting s0 s rs → ∃ rs', pasting s0 (connect_and_record s src sh tgt th) rs' ∧ rs ⊆ rs'.
Proof using Type.
  intros H0 Hp. pose proof (pasting_connection s0 s rs src sh tgt th H0 Hp) as H. unfold connect_and_record.
  destruct (on_adapter _ _) as [s1 [c|]]; [|by exists rs]. eexists. split; [exact H|]. intros x ?. apply elem_of_app. by left.
Qed.

(** A failed [addNode] of the adapter changes nothing. *)
Lemma addNode_None a type pos :
  inv a → (Adapter.addNode reg a type pos).2 = None → (Adapter.addNode reg a type pos).1 = a.
Proof using Hreg.
  intros Ha Hn. destruct (getNodeClass reg type) as [cls|] eqn:Ec.
  - destruct (addNode_adds reg Hreg a type pos cls Ha Ec) as (i & Hi & _). congruence.
  - unfold Adapter.addNode. by rewrite Ec.
Qed.

(** [addNode] of the store, also for a loop with its placeholder. *)
Lemma pasting_addNode s0 s rs type pos :
  idle reg s0 → pasting s0 s rs →
  ∃ rs', pasting s0 (addNode reg s type pos).1 rs' ∧
    ∀ i, (addNode reg s type pos).2 = Some i → inl i ∈ rs'.
Proof using Hreg.
  intros H0 Hp. unfold addNode. rewrite on_adapter_spec.
  destruct (Adapter.addNode reg (st_adapter s) type pos).2 as [i|] eqn:Ei.
  2:{ exists rs. split; [|done]. apply (pasting_ext s0 s); [|done|done].
      simpl. apply addNode_None; [apply Hp|done]. }
  set (s1 := add_and_record _ _ _ _ _).
  assert (pasting s0 s1 (rs ++ [inl i])) as H1.
  { eapply pasting_ext; [| |exact (pasting_node s0 s rs type pos i H0 Hp Ei)];
      unfold s1, add_and_record; by rewrite ?record_adapter, ?record_history. }
  assert (inl i ∈ rs ++ [inl i]) as Hin by (apply elem_of_app; right; left).
  destruct (type =s "loop"); [|exists (rs ++ [inl i]); split; [done|by intros ? [= <-]]].
  rewrite on_adapter_spec. set (p := Position _ _).
  destruct (Adapter.addNode reg (st_adapter s1) "noop" p).2 as [j|] eqn:Ej.
  2:{ exists (rs ++ [inl i]). split; [|by intros ? [= <-]]. apply (pasting_ext s0 s1); [|done|done].
      simpl. apply addNode_None; [apply H1|done]. }
  pose proof (pasting_node s0 s1 _ "noop" p j H0 H1 Ej) as H2.
  destruct (pasting_connect _ _ _ i "loop" j "data" H0 H2) as (rs3 & H3 & Hs3).
  destruct (pasting_connect _ _ _ j "result" i "data" H0 H3) as (rs4 & H4 & Hs4).
  exists rs4. split; [exact H4|]. intros ? [= <-]. apply Hs4, Hs3, elem_of_app. by left.
Qed.

(** Giving an added node its configuration changes nothing of the rest. *)
Lemma snap_setNodeConfig a i c :
  inv a →
  Forall2 (λ d d', nj_id d' = nj_id d ∧ (has_id i d = false → d' = d)) (snap a) (snap (setNodeConfig a i c).1) ∧
  conns (setNodeConfig a i c).1 = conns a.
Proof using Type.
  intros Ha. pose proof (inv_keyed reg a Ha) as Hk. unfold setNodeConfig.
  destruct (Editor.getNode (ad_editor a) i) eqn:E; simpl.
  2:{ split; [|done]. apply Forall2_same_length_lookup_2; [done|]. intros ? x y ??. by simplify_eq. }
  split; [|done]. unfold snap, getNodes, jvals. simpl.
  induction (nodes (ad_editor a)) as [|[k m] ns IH]; csimpl; [constructor|].
  apply keyed_cons in Hk as [Hm Hk]. constructor; [|by apply IH].
  case_bool_decide as Ek; simpl; [|done]. split.
  - unfold setConfig. by destruct (hiddenDefaults m).
  - unfold has_id. simpl. rewrite Hm. intros ?%bool_decide_eq_false. congruence.
Qed.

Lemma bfilter_Forall2 {A} (R : A → A → Prop) (f : A → bool) l k :
  Forall2 R l k → (∀ x y, R x y → f y = f x ∧ (f x = true → y = x)) → bfilter f k = bfilter f l.
Proof using Type.
  intros H Hf. induction H as [|x y l k Hxy _ IH]; simpl; [done|].
  destruct (Hf x y Hxy) as [-> Hy]. rewrite IH. destruct (f x); [|done]. by rewrite Hy.
Qed.

Lemma pasting_config s0 s rs i c :
  pasting s0 s rs → inl i ∈ rs → pasting s0 (on_adapter s (λ a, setNodeConfig a i c)).1 rs.
Proof using Type.
  intros [Hinv Hs Hc Hh] Hi. rewrite on_adapter_spec. destruct (snap_setNodeConfig (st_adapter s) i c Hinv) as [H1 H2].
  split; simpl; [by apply setNodeConfig_inv| |by rewrite H2|done]. rewrite <- Hs.
  apply Permutation_refl', (bfilter_Forall2 _ _ _ _ H1). intros d d' [Hid Hd].
  assert (touched_node rs d' = touched_node rs d) as E.
  { clear -Hid. unfold touched_node. induction rs as [|r rs IH]; simpl; [done|]. rewrite IH. f_equal.
    destruct r; [|done]. unfold has_id. by rewrite Hid. }
  rewrite E. split; [done|]. intros Hu. apply Hd. apply negb_true_iff in Hu. unfold touched_node in Hu.
  rewrite existsb_false_iff in Hu. apply (Hu (inl i) Hi).
Qed.

Lemma pasting_paste_node s0 s m rs n :
  idle reg s0 → pasting s0 s rs → ∃ rs', pasting s0 (paste_node reg (s, m) n).1 rs'.
Proof using Hreg.
  intros H0 Hp. destruct (pasting_addNode s0 s rs (cn_type n) (paste_position n) H0 Hp) as (rs' & Hp' & Hin).
  unfold paste_node. destruct (addNode reg s _ _) as [s1 [i|]]; [|by exists rs'].
  destruct (cn_config n); [|by exists rs']. exists rs'. by apply pasting_config; [|apply Hin].
Qed.

Lemma pasting_paste_nodes s0 s m rs ns :
  idle reg s0 → pasting s0 s rs → ∃ rs', pasting s0 (paste_nodes reg (s, m) ns).1.1 rs'.
Proof using Hreg.
  intros H0. revert s m rs. induction ns as [|[n|] ns IH]; intros s m rs Hp; cbn [paste_nodes]; [by exists rs| |by exists rs].
  destruct (pasting_paste_node s0 s m rs n H0 Hp) as (rs' & Hp').
  destruct (paste_node reg (s, m) n) as [s1 m1]. by eapply IH.
Qed.

Lemma pasting_connections s0 s m rs cs :
  idle reg s0 → pasting s0 s rs → ∃ rs', pasting s0 (foldl (paste_connection m) s cs) rs'.
Proof using Type.
  intros H0. revert s rs. induction cs as [|c cs IH]; intros s rs Hp; simpl; [by exists rs|].
  assert (∃ rs', pasting s0 (paste_connection m s c) rs') as (rs' & Hp'); [|by eapply IH].
  unfold paste_connection. destruct (jget (uc_source c) m); [|by exists rs].
  destruct (jget (uc_target c) m); [|by exists rs]. by eapply pasting_addConnection.
Qed.

(** The end of the batch, and one undo: all that was added goes away. *)
Lemma pasting_end s0 s rs d :
  run_ok reg s0 → pasting s0 s rs →
  let s' := endBatch s d in
  (st_history s' = st_history s0 ∧ same_graph reg (st_adapter s') (st_adapter s0)) ∨
  ((undo s').1.2 = Ret true ∧ same_graph reg (st_adapter (undo s').1.1) (st_adapter s0)).
Proof using Type.
  intros Hok Hp. pose proof (run_ok_idle reg s0 Hok) as (Hi0 & Hr & Hb).
  destruct Hok as (t & (_ & Hm & Hses) & _). destruct Hp as [Hinv Hs Hc (l & Hh & Hl)]. cbv zeta.
  assert (with_batch (with_batch (st_history s0) (Some l)) None = st_history s0) as E
    by (destruct (st_history s0); simpl in *; by subst).
  destruct l as [|act l].
  - inversion Hl; subst. left. unfold endBatch. rewrite set_history_adapter, set_history_history, Hh. simpl.
    split; [exact E|]. rewrite bfilter_all in Hs by done. rewrite bfilter_all in Hc by done.
    by apply same_graph_intro.
  - right. set (bt := batch_action d (act :: l)).
    assert (∃ u0, undoStack (st_history (endBatch s d)) = u0 ++ [bt]) as [u0 Eu].
    { unfold endBatch. rewrite set_history_history, Hh. unfold commitBatch. cbn [currentBatch with_batch].
      rewrite E. fold bt. unfold push. rewrite Hr, Hb. simpl.
      destruct (Nat.ltb_spec (maxSize (st_history s0)) (length (undoStack (st_history s0) ++ [bt]))); [|by eexists].
      destruct (undoStack (st_history s0)) as [|x u]; simpl in *; [lia|by eexists]. }
    assert (st_adapter (endBatch s d) = st_adapter s) as Ea by apply set_history_adapter.
    destruct (removals_run (reverse (act :: l)) (reverse rs) (st_adapter s) Hinv) as (a' & Hrun & Hi' & H1 & H2).
    { by apply Forall2_reverse. }
    assert (act_undo bt (st_adapter s) = (a', Ret tt)) as Hu.
    { exact Hrun. }
    unfold undo, History.undo. rewrite Eu, pop_snoc, Ea, Hu. simpl. split; [done|].
    rewrite set_history_adapter. simpl. apply same_graph_intro; [done|done|rewrite H1, <- Hs|rewrite H2, <- Hc];
      apply Permutation_refl', bfilter_ext; intros z; f_equal; unfold touched_node, touched_conn;
      apply existsb_perm, reverse_Permutation.
Qed.
End paste.

(** ** Properties *)

(** Whatever is in the clipboard, and also when pasting stops in the middle
    with an exception, one undo takes back all that was pasted: the graph is what
    it was. *)
Theorem paste_undo reg s text :
  odoo_ok reg → run_ok reg s →
  let s' := pasteNodes reg s text in
  (st_history s' = st_history s ∧ same_graph reg (st_adapter s') (st_adapter s)) ∨
  ((undo s').1.2 = Ret true ∧ same_graph reg (st_adapter (undo s').1.1) (st_adapter s)).
Proof.
  intros Hreg Hok. pose proof (run_ok_idle reg s Hok) as Hs. cbv zeta. unfold pasteNodes.
  destruct (readonly _); [by left|]. destruct text as [| |data].
  - left. destruct Hs as (_ & _ & Hb). unfold endBatch, commitBatch. rewrite Hb.
    rewrite set_history_adapter, set_history_history. split; [|done].
    simpl. destruct (st_history s). simpl in *. by subst.
  - by left.
  - destruct (pasting_paste_nodes reg Hreg s (beginBatch s) [] [] (cd_nodes data) Hs (pasting_begin reg s Hs)) as (rs & Hp).
    destruct (paste_nodes _ _ _) as [[s1 m] [|]]; simpl in Hp; [|by eapply pasting_end].
    destruct (pasting_connections reg s s1 m rs (cd_connections data) Hs Hp) as (rs' & Hp').
    by eapply pasting_end.
Qed.
