(* ===== verification/ClipboardCopy.v ===== *)
(** * Copy and paste duplicate the selection

    What [pasteNodes] makes of the data [copySelectedNodes] wrote: a copy of each
    selected node under a new id, connected the same way. *)

From S2P Require Import Prelude JsMap JsValue JsNumber Connection Node Nodes Editor EditorInv EditorJson Adapter AdapterInv AdapterEquiv AdapterRun History HistoryTimeline Commands Store StoreInv StoreRun StoreBatch Clipboard.

#[local] Arguments String.append : simpl nomatch.

(** ** Generated ids have no separators *)

Lemma is_digit_lacks (c d : ascii) s :
  is_digit d = true → is_digit c = false → lacks c s = true → lacks c (String d s) = true.
Proof.
  intros Hd Hc Hs. unfold lacks in *. simpl. rewrite bool_decide_false by congruence.
  by destruct (cut_at c s) as [[]|].
Qed.

Lemma pretty_go_lacks c x s : is_digit c = false → lacks c s = true → lacks c (pretty_N_go x s) = true.
Proof.
  intros Hc. revert s. induction (N.lt_wf_0 x) as [x _ IH]; intros s Hs.
  destruct (decide (0 < x)%N) as [Hx|Hx].
  - rewrite pretty_N_go_step by done. apply IH; [apply N.div_lt; lia|].
    apply is_digit_lacks; [|done|done]. by destruct (pretty_N_char_digit (x `mod` 10)) as [_ ->]; [apply N.mod_lt|].
  - assert (x = 0)%N as -> by lia. by rewrite pretty_N_go_0.
Qed.

Lemma fresh_id_lacks i : lacks ":" (fresh_id i) = true.
Proof.
  unfold fresh_id. assert (lacks ":" (pretty i) = true) as H.
  { unfold pretty, pretty_N. case_decide; [done|]. by apply pretty_go_lacks. }
  unfold lacks in *. simpl. by destruct (cut_at ":" (pretty i)) as [[]|].
Qed.

Section copy.
Context (reg : odoo_registry) (Hreg : odoo_ok reg).
Notation inv := (adapter_inv reg).
Implicit Types (s : store) (n : node).

(** The label a new node of the type gets. *)
Definition class_label (type : string) : string :=
  match getNodeClass reg type with Some cls => node_label (nc_new cls) | None => "" end.

Definition offset_position (p : position) : position :=
  Position (pos_x p + PASTE_OFFSET)%Qc (pos_y p + PASTE_OFFSET)%Qc.

(** The copy of a node: its type and configuration, at the offset, under a new
    id, with the label and the metadata of a new node. *)
Definition copy_of n (i : string) : node :=
  with_meta (with_label (with_position (with_id n (Some i)) (offset_position (node_position n)))
    (class_label (node_type n))) default_meta.

(** What is written for a node. *)
Definition clip_for (kn : string * node) : clip_node :=
  ClipNode kn.1 (node_type kn.2) (pos_x (node_position kn.2)) (pos_y (node_position kn.2)) (node_label kn.2)
    (Some (json_object (getConfig kn.2))).

(** A node that can be copied without loss: not a loop, and its configuration
    is JSON. *)
Definition copyable n : Prop :=
  node_type n ≠ "loop" ∧ json_object (getConfig n) = getConfig n.

Lemma jalter_snoc (f : node → node) i n ns :
  jget i ns = None → jalter f i (ns ++ [(i, n)]) = ns ++ [(i, f n)].
Proof using Type.
  intros Hi. unfold jalter. rewrite fmap_app. simpl. f_equal; [by apply jalter_absent|].
  by rewrite bool_decide_true.
Qed.

Lemma setConfig_placed cls i c p :
  setConfig (with_position (with_id (nc_new cls) (Some i)) p) c = placed cls i c p.
Proof using Type. unfold placed, setConfig. simpl. by destruct (hiddenDefaults (nc_new cls)). Qed.

Lemma copy_placed cls n i :
  class_ok cls → instance_of cls n → getNodeClass reg (node_type n) = Some cls →
  node_toJSON (placed cls i (getConfig n) (offset_position (node_position n))) = node_toJSON (copy_of n i).
Proof using Type.
  intros Hok Hi Hc. change (getConfig n) with (getConfig (copy_of n i)).
  apply (rebuilt_json cls); try done; [by eapply instance_of_eqv|]. simpl. unfold class_label. by rewrite Hc.
Qed.

(** One round of the loop over the nodes. *)
Lemma paste_node_exact s m k n :
  inv (st_adapter s) → copyable n →
  (∃ cls, getNodeClass reg (node_type n) = Some cls ∧ class_ok cls ∧ instance_of cls n) →
  ∃ s' i, paste_node reg (s, m) (clip_for (k, n)) = (s', oset k i m) ∧
    inv (st_adapter s') ∧
    snap (st_adapter s') = snap (st_adapter s) ++ [node_toJSON (copy_of n i)] ∧
    conns (st_adapter s') = conns (st_adapter s) ∧
    jget i (nodes (ad_editor (st_adapter s))) = None ∧ lacks ":" i = true.
Proof using Hreg.
  intros Hs [Hl Hj] (cls & Hc & Hok & Hi). unfold paste_node. cbn [clip_for cn_type cn_config cn_id fst snd].
  set (pos := paste_position _).
  destruct (addNode_nodes reg Hreg (st_adapter s) (node_type n) pos cls Hs Hc) as (H1 & Hnew & H2 & H3).
  pose proof (addNode_inv reg Hreg (st_adapter s) (node_type n) pos Hs) as Hinv.
  set (i := fresh_id _) in *.
  unfold addNode. rewrite on_adapter_spec, H1. rewrite (bool_decide_false (node_type n = "loop")) by done.
  rewrite on_adapter_spec. unfold add_and_record. cbn [fst snd].
  set (s1 := record_action _ _).
  assert (st_adapter s1 = (Adapter.addNode reg (st_adapter s) (node_type n) pos).1) as Ea by apply record_adapter.
  exists (with_adapter s1 (setNodeConfig (st_adapter s1) i (json_object (getConfig n))).1), i.
  split; [done|]. cbn [st_adapter with_adapter]. rewrite Ea. split; [by apply setNodeConfig_inv|].
  split; [|split; [|split; [done|apply fresh_id_lacks]]].
  - unfold setNodeConfig, Editor.getNode. rewrite H2, jget_app, Hnew. simpl. rewrite bool_decide_true by done.
    unfold snap, getNodes, jvals. simpl. rewrite jalter_snoc by done. rewrite !fmap_app. simpl.
    f_equal. f_equal. rewrite setConfig_placed, Hj. by apply (copy_placed cls).
  - rewrite (proj2 (snap_setNodeConfig reg _ _ _ Hinv)). exact H3.
Qed.

(** The ids the copies get, in the order of the nodes. *)
Definition id_map (l : list (string * node)) (news : list string) (m : list (string * string))
    : list (string * string) :=
  foldl (λ m kn, oset kn.1 kn.2 m) m (zip l.*1 news).

Definition known n : Prop :=
  ∃ cls, getNodeClass reg (node_type n) = Some cls ∧ class_ok cls ∧ instance_of cls n.

Lemma paste_nodes_exact l s m :
  inv (st_adapter s) → Forall (λ kn, copyable kn.2 ∧ known kn.2) l →
  ∃ s' news, paste_nodes reg (s, m) (Some <$> (clip_for <$> l)) = (s', id_map l news m, Ret tt) ∧
    length news = length l ∧ inv (st_adapter s') ∧
    snap (st_adapter s') = snap (st_adapter s) ++ zip_with (λ kn i, node_toJSON (copy_of kn.2 i)) l news ∧
    conns (st_adapter s') = conns (st_adapter s) ∧ NoDup news ∧
    Forall (λ i, jget i (nodes (ad_editor (st_adapter s))) = None ∧ lacks ":" i = true) news.
Proof using Hreg.
  intros Hs Hl. revert s m Hs. induction Hl as [|[k n] l [Hc Hk] _ IH]; intros s m Hs.
  { exists s, []. split_and!; try done; [by rewrite app_nil_r|constructor]. }
  destruct (paste_node_exact s m k n Hs Hc Hk) as (s1 & i & E & Hi & Hsn & Hcn & Hf & Hla).
  destruct (IH s1 (oset k i m) Hi) as (s2 & news & E2 & Hlen & Hi2 & Hsn2 & Hcn2 & Hnd & Hfr).
  exists s2, (i :: news). rewrite !fmap_cons. cbn [paste_nodes]. rewrite E, E2. split; [done|]. simpl.
  assert (∀ j, jget j (nodes (ad_editor (st_adapter s1))) = None → jget j (nodes (ad_editor (st_adapter s))) = None ∧ j ≠ i) as Hold.
  { intros j Hj. assert (∀ d, d ∈ snap (st_adapter s1) → has_id j d = false) as Hno by by apply (snap_fresh reg).
    split.
    - apply eq_None_not_Some. rewrite <- (snap_lookup reg) by done. intros (d & Hd & Hid).
      assert (has_id j d = false) as Hx by (apply Hno; rewrite Hsn; apply elem_of_app; by left).
      unfold has_id in Hx. rewrite Hid, bool_decide_true in Hx by done. done.
    - intros ->. assert (has_id i (node_toJSON (copy_of n i)) = false) as Hx
        by (apply Hno; rewrite Hsn; apply elem_of_app; right; left).
      unfold has_id in Hx. simpl in Hx. by rewrite bool_decide_true in Hx by done. }
  split_and!.
  - by rewrite Hlen.
  - done.
  - rewrite Hsn2, Hsn, <- app_assoc. done.
  - congruence.
  - constructor; [|done]. intros Hin. rewrite Forall_forall in Hfr. destruct (Hfr i Hin) as [Hx _]. by destruct (Hold i Hx).
  - constructor; [done|]. eapply Forall_impl; [exact Hfr|]. intros j [Hx ?]. by destruct (Hold j Hx).
Qed.

Lemma id_map_lookup l news m k i :
  NoDup l.*1 → length news = length l → (k, i) ∈ zip l.*1 news → jget k (id_map l news m) = Some i.
Proof using Type.
  unfold id_map. revert news m. induction l as [|[k' n] l IH]; intros news m Hnd Hlen; csimpl; [by intros ?%not_elem_of_nil|].
  destruct news as [|i' news]; [done|]. simpl in *. apply NoDup_cons in Hnd as [Hk Hnd]. injection Hlen as Hlen.
  intros [[= -> ->]|Hin]%elem_of_cons; [|by apply IH].
  clear IH Hnd. assert (jget k' (oset k' i' m) = Some i') as Hg by apply jget_oset_eq. revert Hg.
  generalize (oset k' i' m) as m0. clear m.
  assert (∀ kn, kn ∈ zip l.*1 news → kn.1 ≠ k') as Hne.
  { intros [a b] Hab%elem_of_zip_l. simpl. intros ->. done. }
  revert Hne. generalize (zip l.*1 news). intros z. induction z as [|[a b] z IH]; intros Hne m0 Hm; [done|].
  simpl. apply IH; [intros kn ?; apply Hne; by right|]. rewrite jget_oset_ne; [done|].
  apply not_eq_sym. apply (Hne (a, b)). left.
Qed.

(** ** The connections *)

(** Connections whose id can be taken apart: no separator in the names. *)
Definition tame (c : connection) : Prop :=
  lacks ":" (source c) = true ∧ lacks "=" (sourceHandle c) = true.

Section connections.
Context (a0 : adapter) (Ha0 : inv a0).
Context (l : list (string * node)) (news : list string).
Context (Hl : sublist l (nodes (ad_editor a0))) (Hlen : length news = length l).
Context (Hnews : Forall (λ i, jget i (nodes (ad_editor a0)) = None ∧ lacks ":" i = true) news).
Context (Hnd : NoDup news).

Definition new_id (k : string) : string := default "" (jget k (id_map l news [])).

Definition copies : list node_json := zip_with (λ kn i, node_toJSON (copy_of kn.2 i)) l news.

Lemma l_NoDup : NoDup l.*1.
Proof using Ha0 Hl.
  destruct Ha0 as [_ [[Hd _ _ _ _] _ _] _ _]. eapply sublist_NoDup; [exact Hd|]. by apply fmap_sublist.
Qed.

Lemma new_id_spec k n :
  (k, n) ∈ l →
  jget k (id_map l news []) = Some (new_id k) ∧ (k, new_id k) ∈ zip l.*1 news ∧ new_id k ∈ news ∧
  node_toJSON (copy_of n (new_id k)) ∈ copies.
Proof using Ha0 Hl Hlen.
  intros [j Hj]%list_elem_of_lookup_1. destruct (lookup_lt_is_Some_2 news j) as [i Hi].
  { rewrite Hlen. by eapply lookup_lt_Some. }
  assert ((k, i) ∈ zip l.*1 news) as Hz.
  { apply (list_elem_of_lookup_2 _ j). rewrite lookup_zip_with, list_lookup_fmap, Hj, Hi. done. }
  pose proof (id_map_lookup l news [] k i l_NoDup Hlen Hz) as Hg.
  assert (new_id k = i) as -> by (unfold new_id; by rewrite Hg).
  split_and!; [done|done|by eapply list_elem_of_lookup_2|].
  apply (list_elem_of_lookup_2 _ j). unfold copies. rewrite lookup_zip_with, Hj, Hi. done.
Qed.

Lemma new_id_inj k k' n n' : (k, n) ∈ l → (k', n') ∈ l → new_id k = new_id k' → k = k'.
Proof using Ha0 Hl Hlen Hnd.
  intros (_ & Hz & _)%new_id_spec (_ & Hz' & _)%new_id_spec E. rewrite E in Hz.
  apply list_elem_of_lookup_1 in Hz as [j Hj], Hz' as [j' Hj'].
  rewrite lookup_zip_with in Hj, Hj'. simplify_option_eq.
  assert (j = j') as -> by by eapply NoDup_lookup. congruence.
Qed.

Lemma l_lookup k n : (k, n) ∈ l → jget k (nodes (ad_editor a0)) = Some n.
Proof using Ha0 Hl.
  intros H. apply elem_jget; [by destruct Ha0 as [_ [[Hd _ _ _ _] _ _] _ _]|].
  by eapply elem_of_submseteq; [|apply sublist_submseteq].
Qed.

(** A connection between two nodes of the selection. *)
Definition inside_l (c : connection) : Prop :=
  (∃ n, (source c, n) ∈ l) ∧ ∃ n, (target c, n) ∈ l.

Definition copy_conn (c : connection) : connection :=
  new_connection (new_id (source c)) (sourceHandle c) (new_id (target c)) (targetHandle c).

Lemma copy_fits c x :
  c ∈ conns a0 → inside_l c → snap x = snap a0 ++ copies →
  fits reg (snap x) (new_id (source c)) (sourceHandle c) (new_id (target c)) (targetHandle c).
Proof using Hreg Ha0 Hl Hlen Hnd.
  intros Hc [[ns Hs] [nt Ht]] Hx. pose proof Ha0 as [_ [[_ _ _ Hcok _] _ _] _ _].
  destruct (proj1 (conn_ok_fits reg Hreg a0 c Ha0) (Hcok c Hc)) as [[H Hne] _].
  destruct H as (ds & dt & ks & kt & po & pi & Hds & Hids & Hdt & Hidt & Hks & Hkt & Hpo & Hpi & Hcomp).
  destruct (new_id_spec _ _ Hs) as (_ & _ & _ & Hcs), (new_id_spec _ _ Ht) as (_ & _ & _ & Hct).
  assert (∀ d k n, d ∈ snap a0 → nj_id d = Some k → (k, n) ∈ l → nj_type d = node_type n) as Hty.
  { intros d k n Hd Hid Hin. apply (elem_of_snap reg) in Hd as (k' & n' & Hg & -> & Hid'); [|done].
    rewrite Hid' in Hid. injection Hid as ->. apply l_lookup in Hin. rewrite Hg in Hin. by injection Hin as ->. }
  split; [|intros E; apply Hne; by eapply new_id_inj].
  exists (node_toJSON (copy_of ns (new_id (source c)))), (node_toJSON (copy_of nt (new_id (target c)))), ks, kt, po, pi.
  rewrite Hx. split_and!; try done; try (apply elem_of_app; by right); simpl.
  - by rewrite <- (Hty ds (source c) ns).
  - by rewrite <- (Hty dt (target c) nt).
Qed.

Lemma copy_conn_new c done :
  c ∈ conns a0 → inside_l c → tame c →
  (∀ c', c' ∈ conns a0 → tame c') → (∀ c', c' ∈ done → c' ∈ conns a0 ∧ inside_l c' ∧ conn_id c' ≠ conn_id c) →
  conn_id (copy_conn c) ∉ conn_id <$> (conns a0 ++ (copy_conn <$> done)).
Proof using Ha0 Hl Hlen Hnews Hnd.
  intros Hc [[ns Hs] [nt Ht]] [Htc1 Htc2] Htame Hdone. pose proof Ha0 as [_ [[_ _ _ Hcok _] _ _] _ _].
  destruct (new_id_spec _ _ Hs) as (_ & _ & Hns & _), (new_id_spec _ _ Ht) as (_ & _ & Hnt & _).
  rewrite Forall_forall in Hnews. destruct (Hnews _ Hns) as [Hfs Hls], (Hnews _ Hnt) as [_ Hlt].
  intros (c' & E & Hin)%list_elem_of_fmap. apply elem_of_app in Hin as [Hin|Hin].
  - destruct (Hcok c' Hin) as (Hid & _ & sn & tn & _ & _ & Hsn & _). rewrite Hid in E. simpl in E.
    rewrite !generateId_cons in E. apply (f_equal (cut_at ":")) in E.
    rewrite !cut_at_app in E by (done || apply Htame, Hin). injection E as E _. congruence.
  - apply list_elem_of_fmap in Hin as (c1 & -> & Hin). destruct (Hdone c1 Hin) as (Hc1 & [[n1 Hs1] [m1 Ht1]] & Hne).
    destruct (new_id_spec _ _ Hs1) as (_ & _ & Hns1 & _), (new_id_spec _ _ Ht1) as (_ & _ & Hnt1 & _).
    destruct (Htame c1 Hc1) as [_ Hh1]. simpl in E.
    apply generateId_inj in E as (E1 & E2 & E3 & E4); try done; try by apply Hnews.
    apply Hne. destruct (Hcok c Hc) as (-> & _), (Hcok c1 Hc1) as (-> & _).
    rewrite (new_id_inj _ _ _ _ Hs Hs1 E1), (new_id_inj _ _ _ _ Ht Ht1 E3). congruence.
Qed.

Lemma paste_connections_exact cs done s :
  inv (st_adapter s) → snap (st_adapter s) = snap a0 ++ copies →
  conns (st_adapter s) = conns a0 ++ (copy_conn <$> done) →
  NoDup (conn_id <$> (done ++ cs)) → (∀ c, c ∈ done ++ cs → c ∈ conns a0 ∧ inside_l c) →
  (∀ c, c ∈ conns a0 → tame c) →
  let s' := foldl (paste_connection (id_map l news [])) s (connection_to_ui <$> cs) in
  inv (st_adapter s') ∧ snap (st_adapter s') = snap a0 ++ copies ∧
  conns (st_adapter s') = conns a0 ++ (copy_conn <$> (done ++ cs)).
Proof using Hreg Ha0 Hl Hlen Hnews Hnd.
  intros Hs Hsn Hcn Hndc Hin Htame. revert s done Hs Hsn Hcn Hndc Hin.
  induction cs as [|c cs IH]; intros s done Hs Hsn Hcn Hndc Hin; csimpl; [by rewrite app_nil_r|].
  destruct (Hin c) as [Hc Hic]; [set_solver|]. pose proof Hic as [[ns Hns] [nt Hnt]].
  assert (st_adapter (paste_connection (id_map l news []) s (connection_to_ui c)) =
    (Adapter.addConnection (st_adapter s) (new_id (source c)) (sourceHandle c) (new_id (target c)) (targetHandle c)).1) as Ea.
  { unfold paste_connection. simpl. destruct (new_id_spec _ _ Hns) as (-> & _), (new_id_spec _ _ Hnt) as (-> & _).
    unfold addConnection. rewrite on_adapter_spec. destruct (Adapter.addConnection _ _ _ _ _) as [b [x|]]; simpl;
      by rewrite ?record_adapter. }
  destruct (snap_addConnection reg Hreg (st_adapter s) (new_id (source c)) (sourceHandle c) (new_id (target c)) (targetHandle c))
    as [E1 E2]; [done| |].
  { split; [by apply copy_fits|]. rewrite Hcn. apply copy_conn_new; [done|done|by apply Htame|done|].
    intros c' Hc'. destruct (Hin c') as [? ?]; [set_solver|]. split_and!; [done|done|].
    intros E. rewrite fmap_app in Hndc. apply NoDup_app in Hndc as (_ & Hndc & _).
    apply (Hndc (conn_id c')); [by apply list_elem_of_fmap_2|]. rewrite E. left. }
  replace (done ++ c :: cs) with ((done ++ [c]) ++ cs) in * by by rewrite <- app_assoc.
  apply IH; try done.
  - rewrite Ea. by apply addConnection_inv.
  - by rewrite Ea, E1.
  - rewrite Ea, E2, Hcn, fmap_app, <- app_assoc. done.
Qed.
End connections.
End copy.

(** ** The whole *)

(** The selected nodes of a graph and the connections between them. *)
Definition picked (a : adapter) (ids : list string) : list (string * node) :=
  bfilter (λ kn, bool_decide (kn.1 ∈ ids)) (nodes (ad_editor a)).
Definition picked_conns (a : adapter) (ids : list string) : list connection :=
  bfilter (λ c, bool_decide (source c ∈ ids) && bool_decide (target c ∈ ids)) (conns a).

Lemma clip_nodes_picked reg a ids :
  adapter_inv reg a →
  omap (clip_of a) (bfilter (in_selection ids) (state_nodes a)) = clip_for <$> picked a ids.
Proof.
  intros Ha. pose proof (inv_keyed reg a Ha) as Hk. pose proof Ha as [_ [[Hd _ _ _ _] _ _] _ [-> _]].
  unfold picked, getNodesForUI, getNodes, jvals.
  assert (∀ k n, (k, n) ∈ nodes (ad_editor a) → Adapter.getNodeConfig a k = getConfig n) as Hcfg.
  { intros k n Hin%elem_jget; [|done]. unfold Adapter.getNodeConfig, Editor.getNode. by rewrite Hin. }
  revert Hk Hcfg. generalize (nodes (ad_editor a)). clear Hd. intros ns.
  induction ns as [|[k n] ns IH]; intros Hk Hcfg; csimpl; [done|].
  pose proof Hk as [Hn Hk']%keyed_cons. unfold in_selection at 1. simpl. rewrite Hn.
  assert (omap (clip_of a) (bfilter (in_selection ids) (node_to_ui <$> ns.*2)) =
    clip_for <$> bfilter (λ kn, bool_decide (kn.1 ∈ ids)) ns) as IH' by (apply IH; [done|]; intros; apply Hcfg; by right).
  case_bool_decide; [|done]. csimpl. rewrite IH'. unfold clip_of at 1. simpl. rewrite Hn. simpl.
  f_equal. unfold clip_for. simpl. by rewrite (Hcfg k n) by left.
Qed.

Lemma clip_conns_picked reg a ids :
  adapter_inv reg a →
  bfilter (conn_inside ids) (state_connections a) = connection_to_ui <$> picked_conns a ids.
Proof.
  intros [_ _ _ [_ ->]]. unfold picked_conns, getConnectionsForUI, getConnections, conns.
  induction (connections (ad_editor a)) as [|c cs IH]; csimpl; [done|]. unfold conn_inside at 1. simpl.
  destruct (_ && _); csimpl; by rewrite IH.
Qed.

Lemma inv_known reg a k n :
  odoo_ok reg → adapter_inv reg a → jget k (nodes (ad_editor a)) = Some n → known reg n.
Proof.
  intros Hreg Ha Hn. pose proof Ha as [Hr [_ Hok _] _ _]. destruct (Hok _ _ Hn) as [(cls & Hc & Hi) _].
  exists cls. rewrite Hr, jget_buildNodeRegistry in Hc by apply Hreg.
  split; [done|]. by destruct (getNodeClass_typed reg Hreg _ _ _ Hr Hc) as (_ & ? & _).
Qed.

(** C8: pasting a copied selection that holds no loop, whose configurations are JSON
    values and whose graph has no separator of connection ids in the ids and output
    names that connections start at, duplicates it: a copy of every selected node
    under a new id, of the same type and configuration, at the offset, and between
    the copies exactly the connections there were between the originals; the rest of
    the graph is as it was.  What pasting a loop does instead is
    [paste_loop_duplicates_body]. *)
Theorem copy_paste_duplicates reg s data :
  odoo_ok reg → run_ok reg s → copySelectedNodes s = Some data →
  let a := st_adapter s in
  let ids := (selection (st_ui s)).1 in
  (∀ k n, jget k (nodes (ad_editor a)) = Some n → k ∈ ids → copyable n) →
  (∀ c, c ∈ conns a → tame c) →
  let a' := st_adapter (pasteNodes reg s (Clip data)) in
  ∃ news, length news = length (picked a ids) ∧ NoDup news ∧
    Forall (λ i, jget i (nodes (ad_editor a)) = None) news ∧
    snap a' = snap a ++ copies reg (picked a ids) news ∧
    conns a' = conns a ++ (copy_conn (picked a ids) news <$> picked_conns a ids).
Proof.
  intros Hreg Hok Hcopy a ids Hcp Htame. pose proof (run_ok_idle reg s Hok) as Hs. pose proof (proj1 Hs) as Ha.
  unfold copySelectedNodes in Hcopy. unfold pasteNodes. destruct (readonly (st_ui s)); [done|]. fold ids a in Hcopy.
  assert (data = ClipData (Some <$> (clip_for <$> picked a ids)) (connection_to_ui <$> picked_conns a ids)) as ->.
  { rewrite <- (clip_nodes_picked reg), <- (clip_conns_picked reg) by done. clearbody ids.
    destruct ids; [done|]. by injection Hcopy as <-. }
  clear Hcopy. cbn [cd_nodes cd_connections]. cbv zeta.
  pose proof Ha as [_ [[Hd _ _ Hcok Hcd] _ _] _ _]. fold a in Hd, Hcok, Hcd.
  assert (sublist (picked a ids) (nodes (ad_editor a))) as Hsub by apply bfilter_sublist.
  destruct (paste_nodes_exact reg Hreg (picked a ids) (beginBatch s) []) as
    (s1 & news & -> & Hlen & Hi1 & Hsn & Hcn & Hnd & Hnews); [done| |].
  { apply Forall_forall. intros [k n] [Hin Hk]%elem_of_bfilter. apply bool_decide_eq_true in Hk. simpl in *.
    apply elem_jget in Hin; [|done]. split; [by eapply Hcp|by eapply inv_known]. }
  destruct (paste_connections_exact reg Hreg a Ha (picked a ids) news Hsub Hlen Hnews Hnd (picked_conns a ids) [] s1)
    as (_ & H1 & H2); try done.
  - by rewrite app_nil_r.
  - simpl. by apply bfilter_fmap_NoDup.
  - intros c [Hc Hin]%elem_of_bfilter. apply andb_true_iff in Hin as [H1 H2].
    apply bool_decide_eq_true in H1, H2. split; [done|].
    destruct (Hcok c Hc) as (_ & _ & sn & tn & _ & _ & Hgs & Hgt & _).
    split; [exists sn|exists tn]; apply elem_of_bfilter; (split; [by apply jget_elem|by apply bool_decide_eq_true]).
  - exists news. unfold endBatch. rewrite !set_history_adapter, H1, H2. split_and!; try done.
    eapply Forall_impl; [exact Hnews|]. by intros i [? _].
Qed.

(** ** Examples *)

(** The trigger and the request of the example, selected. *)
Definition copy_demo : store := select store_demo ["n_1"; "n_2"] [].

Lemma copy_demo_ok : run_ok builtin_registry copy_demo.
Proof. apply run_ok_select, (store_run_ok _ builtin_registry_ok), store_demo_run. Qed.

Lemma copy_paste_duplicates_witness :
  let data := default (ClipData [] []) (copySelectedNodes copy_demo) in
  ∃ news, length news = 2%nat ∧
    conns (st_adapter (pasteNodes builtin_registry copy_demo (Clip data))) =
    conns (st_adapter copy_demo) ++
      (copy_conn (picked (st_adapter copy_demo) ["n_1"; "n_2"]) news <$> picked_conns (st_adapter copy_demo) ["n_1"; "n_2"]).
Proof.
  intros data. destruct (copy_paste_duplicates builtin_registry copy_demo data) as (news & Hlen & _ & _ & _ & H).
  - apply builtin_registry_ok.
  - apply copy_demo_ok.
  - vm_compute. reflexivity.
  - assert (Forall (λ kn, copyable kn.2) (nodes (ad_editor (st_adapter copy_demo)))) as H.
    { eassert (nodes (ad_editor (st_adapter copy_demo)) = _) as -> by (vm_compute; reflexivity).
      repeat (apply Forall_cons_2; [split; [discriminate|reflexivity]|]). apply Forall_nil_2. }
    intros k n Hn%jget_elem _. rewrite Forall_forall in H. exact (H _ Hn).
  - assert (Forall tame (conns (st_adapter copy_demo))) as H by (vm_compute; repeat constructor).
    intros c Hc. rewrite Forall_forall in H. by apply H.
  - exists news. split; [|exact H]. rewrite Hlen. vm_compute. reflexivity.
Defined.

Lemma paste_undo_witness :
  let s := copy_demo in
  let s' := pasteNodes builtin_registry s (Clip (default (ClipData [] []) (copySelectedNodes s))) in
  same_graph builtin_registry (st_adapter (undo s').1.1) (st_adapter s).
Proof.
  intros s s'. destruct (paste_undo builtin_registry s
    (Clip (default (ClipData [] []) (copySelectedNodes s))) builtin_registry_ok copy_demo_ok) as [[Hh _]|[_ H]]; [|exact H].
  exfalso. apply (f_equal (λ h, length (undoStack h))) in Hh. vm_compute in Hh. discriminate.
Defined.

(** Pasting is not undone and redone faithfully: the settings of the copies are
    not part of what the history records, so redoing a paste creates the nodes
    with the settings of new nodes. *)
Theorem redo_paste_loses_config :
  let s0 := with_adapter copy_demo (setNodeConfig (st_adapter copy_demo) "n_2" [("url", JStr "https://example.org")]).1 in
  let s1 := pasteNodes builtin_registry s0 (Clip (default (ClipData [] []) (copySelectedNodes s0))) in
  let s2 := (redo (undo s1).1.1).1.1 in
  let url s := oprop (Adapter.getNodeConfig (st_adapter s) "n_4") "url" in
  jkeys (nodes (ad_editor (st_adapter s1))) = jkeys (nodes (ad_editor (st_adapter s2))) ∧
  url s1 = JStr "https://example.org" ∧ url s2 = JNull.
Proof. vm_compute. done. Qed.

(** Copying a loop together with its body and pasting it gives the copy two
    bodies: the store adds the placeholder that comes with every new loop. *)
Theorem paste_loop_duplicates_body :
  let s0 := select (addNode builtin_registry (new_store builtin_registry) "loop" (Position 0 0)).1 ["n_1"; "n_2"] [] in
  let s1 := pasteNodes builtin_registry s0 (Clip (default (ClipData [] []) (copySelectedNodes s0))) in
  ui_type <$> state_nodes (st_adapter s0) = ["loop"; "noop"] ∧
  ui_type <$> state_nodes (st_adapter s1) = ["loop"; "noop"; "loop"; "noop"; "noop"] ∧
  length (bfilter (λ c, uc_source c =s "n_3") (state_connections (st_adapter s1))) = 2.
Proof. vm_compute. done. Qed.
