(* ===== verification/Drag.v ===== *)
(** * Dragging nodes (components/editor_canvas/hooks/use_multi_node_drag.js)

    While nodes are dragged they are moved without history; on release one
    command with the old and the new positions is recorded.  Pointer moves and
    the automatic scrolling near the edges wait for animation frames:
    [drag_frame] and [autoScrollStep] are those frames. *)

From S2P Require Import Prelude JsMap JsValue JsNumber Connection Node Nodes Editor EditorInv Adapter AdapterInv AdapterEquiv AdapterRun History HistoryTimeline Commands Store StoreInv StoreRun StoreBatch WorkflowCommands Dimensions Geometry ViewportHook.

Abbreviation positions := (list (string * position)).

Record drag_state := DragState {
  ds_start : position;
  ds_initialPositions : positions;
  ds_lastPositions : positions;
  ds_nodeIds : list string;
}.

(** The hook, beside the viewport hook that holds the store. *)
Record drag := Drag {
  dg_view : vstate;
  dg_isDragging : bool;
  dg_state : drag_state;
  dg_dragFrame : option position;
  dg_autoScrollFrame : bool;
  dg_lastPointer : option position;
}.

Definition no_drag : drag_state := DragState origin [] [] [].

(** [useMultiNodeDrag(options)] *)
Definition useMultiNodeDrag (v : vstate) : drag := Drag v false no_drag None false None.

Definition AUTO_SCROLL_THRESHOLD : num := num_of_Z 56.
Definition AUTO_SCROLL_MAX_SPEED : num := num_of_Z 18.

Definition with_view (g : drag) (v : vstate) : drag :=
  Drag v (dg_isDragging g) (dg_state g) (dg_dragFrame g) (dg_autoScrollFrame g) (dg_lastPointer g).
Definition with_dragState (g : drag) (d : drag_state) : drag :=
  Drag (dg_view g) (dg_isDragging g) d (dg_dragFrame g) (dg_autoScrollFrame g) (dg_lastPointer g).
Definition with_dragFrame (g : drag) (f : option position) : drag :=
  Drag (dg_view g) (dg_isDragging g) (dg_state g) f (dg_autoScrollFrame g) (dg_lastPointer g).
Definition with_autoScroll (g : drag) (b : bool) : drag :=
  Drag (dg_view g) (dg_isDragging g) (dg_state g) (dg_dragFrame g) b (dg_lastPointer g).
Definition with_lastPointer (g : drag) (p : option position) : drag :=
  Drag (dg_view g) (dg_isDragging g) (dg_state g) (dg_dragFrame g) (dg_autoScrollFrame g) p.
Definition with_dragging (g : drag) (b : bool) : drag :=
  Drag (dg_view g) b (dg_state g) (dg_dragFrame g) (dg_autoScrollFrame g) (dg_lastPointer g).

(** An action of the store. *)
Definition on_store (f : store → store) (v : vstate) : vstate := with_vs_editor v (f <$> vs_editor v).
Definition with_store (f : store → store) (g : drag) : drag := with_view g (on_store f (dg_view g)).

(** How fast to scroll near the edges of [r]. *)
Definition speedFromDistance (distance : num) : num :=
  let safeDistance := if num_lt distance 0%Qc then 0%Qc else distance in
  if num_le AUTO_SCROLL_THRESHOLD safeDistance then 0%Qc
  else ((AUTO_SCROLL_THRESHOLD - safeDistance) / AUTO_SCROLL_THRESHOLD * AUTO_SCROLL_MAX_SPEED)%Qc.

Definition scroll_axis (low high c : num) : num :=
  let lowDist := (c - low)%Qc in
  let highDist := (high - c)%Qc in
  if num_lt lowDist AUTO_SCROLL_THRESHOLD then (- speedFromDistance lowDist)%Qc
  else if num_lt highDist AUTO_SCROLL_THRESHOLD then speedFromDistance highDist
  else 0%Qc.

Definition getAutoScrollDelta (client : position) (r : rect) : position :=
  Position (scroll_axis (r_x r) (r_x r + r_width r)%Qc (pos_x client))
    (scroll_axis (r_y r) (r_y r + r_height r)%Qc (pos_y client)).

Definition shouldAutoScroll (client : position) (root : option rect) : bool :=
  match root with
  | None => false
  | Some r =>
      let d := getAutoScrollDelta client r in
      negb (bool_decide (pos_x d = 0%Qc)) || negb (bool_decide (pos_y d = 0%Qc))
  end.

(** Where a node dragged from [initial] goes. *)
Definition drag_target (initial delta : position) : position :=
  snapPositionToGrid (Position (pos_x initial + pos_x delta)%Qc (pos_y initial + pos_y delta)%Qc) (num_of_Z 20).

(** The loop of [applyDrag]: the updates and the last positions. *)
Definition drag_updates (d : drag_state) (delta : position) : positions * positions :=
  foldl (λ acc i,
    match jget i (ds_initialPositions d) with
    | Some initial =>
        let p := drag_target initial delta in (oset i p acc.1, mset i p acc.2)
    | None => acc
    end) ([], ds_lastPositions d) (ds_nodeIds d).

Definition applyDrag (g : drag) (client : position) : drag :=
  let z := vzoom (getViewport (dg_view g)) in
  let d := dg_state g in
  let delta := Position ((pos_x client - pos_x (ds_start d)) / z)%Qc ((pos_y client - pos_y (ds_start d)) / z)%Qc in
  let '(updates, last) := drag_updates d delta in
  let g := with_dragState g (DragState (ds_start d) (ds_initialPositions d) last (ds_nodeIds d)) in
  with_store (λ s, moveNodesTransient s updates) g.

(** [autoScrollStep()] *)
Definition autoScrollStep (g : drag) (root : option rect) : drag :=
  let g := with_autoScroll g false in
  if negb (dg_isDragging g) then g
  else
    match dg_lastPointer g, root with
    | Some pointer, Some r =>
        let dl := getAutoScrollDelta pointer r in
        if bool_decide (pos_x dl = 0%Qc) && bool_decide (pos_y dl = 0%Qc) then g
        else
          let v := getViewport (dg_view g) in
          let newPan := Position (panX v - pos_x dl)%Qc (panY v - pos_y dl)%Qc in
          let g := with_store (λ s, setViewport s (Some newPan) None) g in
          let g := with_view g (updateViewRect (dg_view g) root) in
          let d := dg_state g in
          let start := Position (pos_x (ds_start d) - pos_x dl)%Qc (pos_y (ds_start d) - pos_y dl)%Qc in
          let g := with_dragState g (DragState start (ds_initialPositions d) (ds_lastPositions d) (ds_nodeIds d)) in
          with_autoScroll (applyDrag g pointer) true
    | _, _ => g
    end.

(** [onNodeDragStart({ nodeId, event })] *)
Definition start_positions (nodes : list ui_node) (ids : list string) : positions :=
  foldl (λ m i, match find_first (λ n, bool_decide (ui_id n = Some i)) nodes with
                | Some n => mset i (ui_position n) m
                | None => m
                end) [] ids.

Definition onNodeDragStart (g : drag) (nodeId : string) (client : position) : drag :=
  match vs_editor (dg_view g) with
  | None => g
  | Some s =>
      if readonly (st_ui s) then g
      else
        let selectedIds := (selection (st_ui s)).1 in
        let nodesToMove := if bool_decide (nodeId ∈ selectedIds) then selectedIds else [nodeId] in
        let initial := start_positions (state_nodes (st_adapter s)) nodesToMove in
        let g := with_dragState g (DragState client initial initial nodesToMove) in
        with_dragging (with_lastPointer g (Some client)) true
  end.

Definition is_readonly (g : drag) : bool :=
  match vs_editor (dg_view g) with Some s => readonly (st_ui s) | None => false end.

(** [handleMouseMove(ev)] *)
Definition drag_mouseMove (g : drag) (client : position) (root : option rect) : drag * bool :=
  if is_readonly g then (g, false)
  else if negb (dg_isDragging g) then (g, false)
  else
    let g := with_lastPointer g (Some client) in
    let g := with_autoScroll g (shouldAutoScroll client root) in
    match dg_dragFrame g with
    | Some _ => (g, true)
    | None => (with_dragFrame g (Some client), true)
    end.

(** The frame booked by [drag_mouseMove]. *)
Definition drag_frame (g : drag) : drag :=
  match dg_dragFrame g with
  | None => g
  | Some client =>
      let g := with_dragFrame g None in
      if dg_isDragging g then applyDrag g client else g
  end.

(** The moves that are recorded on release. *)
Definition node_moves (d : drag_state) : list node_move :=
  omap (λ i,
    old ← jget i (ds_initialPositions d);
    let new := default old (jget i (ds_lastPositions d)) in
    if same_position old new then None else Some (NodeMove i old new)) (ds_nodeIds d).

(** [handleMouseUp(ev)] *)
Definition drag_mouseUp (g : drag) : drag * bool :=
  if is_readonly g then (g, false)
  else if negb (dg_isDragging g) then (g, false)
  else
    let moves := node_moves (dg_state g) in
    let g := with_dragging g false in
    let g := with_dragFrame (with_lastPointer (with_autoScroll g false) None) None in
    let g := with_store (λ s, recordMoveNodes s moves) g in
    (with_dragState g (DragState (ds_start (dg_state g)) [] [] []), true).

(** ** What moving without history does *)

(** A node with the position an object gives for its id. *)
Definition json_put (us : positions) (d : node_json) : node_json :=
  match nj_id d with
  | Some i => match jget i us with Some p => json_at p d | None => d end
  | None => d
  end.

Lemma json_put_cons i p us d :
  jget i us = None → json_put us (json_move i p d) = json_put ((i, p) :: us) d.
Proof.
  intros Hi. unfold json_put, json_move, has_id. simpl. destruct (nj_id d) as [j|] eqn:Ej.
  - destruct (decide (i = j)) as [->|Hne].
    + rewrite !bool_decide_true by done. simpl. by rewrite Ej, Hi.
    + rewrite !bool_decide_false by naive_solver. by rewrite Ej.
  - rewrite bool_decide_false by done. by rewrite Ej.
Qed.

Section moving.
Context (reg : odoo_registry) (Hreg : odoo_ok reg).
Notation inv := (adapter_inv reg).

Lemma json_move_same a i p d :
  inv a → (∀ n, jget i (nodes (ad_editor a)) = Some n → node_position n = p) → d ∈ snap a → json_move i p d = d.
Proof using Type.
  intros Ha Hp Hd. unfold json_move, has_id. case_bool_decide as E; [|done].
  apply (elem_of_snap reg) in Hd as (k & n & Hn & -> & Hk); [|done]. rewrite Hk in E. injection E as ->.
  unfold json_at. simpl. rewrite <- (Hp n Hn). done.
Qed.

Lemma moveNodesTransient_snap us s :
  inv (st_adapter s) → NoDup (jkeys us) →
  let s' := moveNodesTransient s us in
  inv (st_adapter s') ∧ st_history s' = st_history s ∧ st_ui s' = st_ui s ∧
  snap (st_adapter s') = json_put us <$> snap (st_adapter s) ∧ conns (st_adapter s') = conns (st_adapter s).
Proof using Type.
  unfold moveNodesTransient, jkeys. revert s. induction us as [|[i p] us IH]; intros s Hs Hnd; csimpl in *.
  { split_and!; try done. rewrite <- (list_fmap_id (snap (st_adapter s))) at 1. apply list_fmap_ext.
    intros _ d _. unfold json_put. by destruct (nj_id d). }
  apply NoDup_cons in Hnd as [Hi Hnd]. assert (jget i us = None) as Hnone by by apply not_elem_of_jkeys.
  assert (∀ s1, inv (st_adapter s1) → st_history s1 = st_history s → st_ui s1 = st_ui s →
    snap (st_adapter s1) = json_move i p <$> snap (st_adapter s) → conns (st_adapter s1) = conns (st_adapter s) →
    let s' := (move_entries s1 us).1 in
    inv (st_adapter s') ∧ st_history s' = st_history s ∧ st_ui s' = st_ui s ∧
    snap (st_adapter s') = json_put ((i, p) :: us) <$> snap (st_adapter s) ∧
    conns (st_adapter s') = conns (st_adapter s)) as Hstep.
  { intros s1 H1 H2 H3 H4 H5. destruct (IH s1 H1 Hnd) as (I1 & I2 & I3 & I4 & I5).
    split_and!; [done|congruence|congruence| |congruence]. rewrite I4, H4, <- list_fmap_compose.
    apply list_fmap_ext. intros _ d _. by apply json_put_cons. }
  unfold getNode. rewrite ui_lookup with (reg := reg) by done.
  destruct (jget i (nodes (ad_editor (st_adapter s)))) as [n|] eqn:En; simpl.
  - rewrite ui_position_node. destruct (same_position (node_position n) p) eqn:Ep.
    + apply Hstep; try done. apply same_position_true in Ep.
      rewrite <- (list_fmap_id (snap (st_adapter s))) at 1. apply list_fmap_ext. intros _ d Hd%list_elem_of_lookup_2.
      symmetry. apply (json_move_same (st_adapter s)); [done| |done]. intros m Hm. congruence.
    + rewrite on_adapter_spec. simpl. destruct (snap_updatePosition reg (st_adapter s) i p Hs) as [E1 E2].
      pose proof (updatePosition_inv reg (st_adapter s) i p Hs) as E3.
      specialize (Hstep (with_adapter s (updatePosition (st_adapter s) i p).1) E3 eq_refl eq_refl E1 E2).
      by destruct (move_entries _ us).
  - apply Hstep; try done. rewrite <- (list_fmap_id (snap (st_adapter s))) at 1. apply list_fmap_ext.
    intros _ d Hd%list_elem_of_lookup_2. symmetry. apply (json_move_same (st_adapter s)); [done| |done]. congruence.
Qed.
End moving.

(** ** The objects the hook builds *)

Lemma drag_updates_spec d delta :
  let '(us, last) := drag_updates d delta in
  NoDup (jkeys us) ∧
  (∀ i, jget i us = if bool_decide (i ∈ ds_nodeIds d)
                    then (λ p, drag_target p delta) <$> jget i (ds_initialPositions d) else None) ∧
  (∀ i, jget i last = match jget i us with Some p => Some p | None => jget i (ds_lastPositions d) end).
Proof.
  unfold drag_updates. set (f := λ acc i, _).
  assert (∀ ids us last, obj_ok us →
    let r := foldl f (us, last) ids in
    obj_ok r.1 ∧
    (∀ i, jget i r.1 = if bool_decide (i ∈ ids) then
       match jget i (ds_initialPositions d) with Some p => Some (drag_target p delta) | None => jget i us end
       else jget i us) ∧
    ((∀ i, jget i last = match jget i us with Some p => Some p | None => jget i (ds_lastPositions d) end) →
     ∀ i, jget i r.2 = match jget i r.1 with Some p => Some p | None => jget i (ds_lastPositions d) end)) as H.
  { intros ids. induction ids as [|k ids IH]; intros us last Hnd; simpl; [done|].
    destruct (jget k (ds_initialPositions d)) as [p|] eqn:Ek.
    - assert (f (us, last) k = (oset k (drag_target p delta) us, mset k (drag_target p delta) last)) as ->
        by (unfold f; by rewrite Ek).
      destruct (IH (oset k (drag_target p delta) us) (mset k (drag_target p delta) last)) as (H1 & H2 & H3).
      { by apply obj_ok_oset. }
      split_and!; [done| |].
      + intros i. rewrite H2. rewrite jget_oset. destruct (decide (i = k)) as [->|Hne].
        * rewrite (bool_decide_true (k ∈ k :: ids)) by left. rewrite Ek. rewrite (bool_decide_true (k = k)) by done.
          by destruct (bool_decide (k ∈ ids)).
        * rewrite (bool_decide_false (i = k)) by done.
          rewrite (bool_decide_ext (i ∈ k :: ids) (i ∈ ids)) by set_solver. done.
      + intros Hl. apply H3. intros i. rewrite jget_mset, jget_oset. case_bool_decide; [done|]. apply Hl.
    - assert (f (us, last) k = (us, last)) as -> by (unfold f; by rewrite Ek).
      destruct (IH us last Hnd) as (H1 & H2 & H3). split_and!; [done| |done]. intros i. rewrite H2.
      destruct (decide (i = k)) as [->|Hne].
      + rewrite Ek. by repeat case_bool_decide.
      + rewrite (bool_decide_ext (i ∈ k :: ids) (i ∈ ids)) by set_solver. done. }
  specialize (H (ds_nodeIds d) [] (ds_lastPositions d) obj_ok_nil).
  destruct (foldl f _ _) as [us last]. simpl in H. destruct H as (H1 & H2 & H3). split_and!; [by apply obj_ok_NoDup| |by apply H3].
  intros i. rewrite H2. case_bool_decide; [|done]. by destruct (jget i (ds_initialPositions d)).
Qed.

Lemma start_positions_spec nodes ids i :
  jget i (start_positions nodes ids) =
    if bool_decide (i ∈ ids)
    then ui_position <$> find_first (λ n, bool_decide (ui_id n = Some i)) nodes else None.
Proof.
  unfold start_positions. set (f := λ m i, _).
  assert (∀ m, jget i (foldl f m ids) =
    if bool_decide (i ∈ ids) then
      match find_first (λ n, bool_decide (ui_id n = Some i)) nodes with
      | Some n => Some (ui_position n) | None => jget i m end
    else jget i m) as H.
  { induction ids as [|k ids IH]; intros m; simpl; [done|]. rewrite IH. unfold f at 1 2.
    destruct (decide (i = k)) as [->|Hne].
    - rewrite (bool_decide_true (k ∈ k :: ids)) by left.
      destruct (find_first _ nodes); [rewrite jget_mset_eq|]; by destruct (bool_decide (k ∈ ids)).
    - rewrite (bool_decide_ext (i ∈ k :: ids) (i ∈ ids)) by set_solver.
      destruct (find_first (λ n, bool_decide (ui_id n = Some k)) nodes); [by rewrite jget_mset_ne by done|done]. }
  rewrite H. case_bool_decide; [|done]. by destruct (find_first _ nodes).
Qed.

(** ** A drag *)

Inductive drag_op :=
| DMove (client : position) (root : option rect)
| DFrame
| DAuto (root : option rect).

Definition drag_step (g : drag) (op : drag_op) : drag :=
  match op with
  | DMove client root => (drag_mouseMove g client root).1
  | DFrame => drag_frame g
  | DAuto root => autoScrollStep g root
  end.

Definition on_grid (p : position) : Prop := snapPositionToGrid p (num_of_Z 20) = p.

Lemma drag_target_on_grid p delta : on_grid (drag_target p delta).
Proof. unfold on_grid, drag_target, snapPositionToGrid. simpl. by rewrite !snap_idempotent. Qed.

Lemma json_put_id us d : nj_id (json_put us d) = nj_id d.
Proof. unfold json_put. destruct (nj_id d) eqn:E; [|done]. by destruct (jget _ us). Qed.

Section drag.
Context (reg : odoo_registry) (Hreg : odoo_ok reg) (s0 : store).
Notation inv := (adapter_inv reg).

(** The nodes dragged are at their last positions, all else is as in [s0]. *)
Record dragging (g : drag) : Prop := {
  dr_on : dg_isDragging g = true;
  dr_store : ∃ s, vs_editor (dg_view g) = Some s ∧ inv (st_adapter s) ∧ st_history s = st_history s0 ∧
    readonly (st_ui s) = false ∧
    snap (st_adapter s) = json_put (ds_lastPositions (dg_state g)) <$> snap (st_adapter s0) ∧
    conns (st_adapter s) = conns (st_adapter s0);
  dr_initial : ∀ i, jget i (ds_initialPositions (dg_state g)) =
    if bool_decide (i ∈ ds_nodeIds (dg_state g))
    then node_position <$> jget i (nodes (ad_editor (st_adapter s0))) else None;
  dr_last : ∀ i p, jget i (ds_lastPositions (dg_state g)) = Some p →
    ∃ q, jget i (ds_initialPositions (dg_state g)) = Some q ∧ (p = q ∨ on_grid p);
  dr_nodup : NoDup (ds_nodeIds (dg_state g));
}.

(** Steps that leave the drag and the graph alone. *)
Lemma dragging_ext g g' :
  dg_isDragging g' = dg_isDragging g → dg_state g' = dg_state g →
  (∀ s, vs_editor (dg_view g) = Some s → ∃ s', vs_editor (dg_view g') = Some s' ∧
     st_adapter s' = st_adapter s ∧ st_history s' = st_history s ∧ readonly (st_ui s') = readonly (st_ui s)) →
  dragging g → dragging g'.
Proof using Type.
  intros Ed Es Hs [H1 (s & Hs1 & H2 & H3 & H4 & H5 & H6) H7 H8 H9]. destruct (Hs s Hs1) as (s' & E & Ea & Eh & Er).
  split; rewrite ?Ed, ?Es; try done. exists s'. by rewrite Ea, Eh, Er.
Qed.

Lemma dragging_apply g client : dragging g → dragging (applyDrag g client).
Proof using Type.
  intros [H1 (s & Hs & H2 & H3 & H4 & H5 & H6) H7 H8 H9]. unfold applyDrag. set (delta := Position _ _).
  pose proof (drag_updates_spec (dg_state g) delta) as Hu.
  destruct (drag_updates (dg_state g) delta) as [us last]. destruct Hu as (Hnd & Hus & Hlast).
  destruct (moveNodesTransient_snap reg us s H2 Hnd) as (I1 & I2 & I3 & I4 & I5).
  split; simpl; try done.
  - exists (moveNodesTransient s us). rewrite Hs. simpl. split_and!; try done; try congruence.
    rewrite I4, H5, <- list_fmap_compose. apply list_fmap_ext. intros _ d _. simpl.
    unfold json_put at 1. rewrite json_put_id. unfold json_put. destruct (nj_id d) as [i|] eqn:Ei; [|done].
    rewrite Hlast. destruct (jget i us); [|done]. by destruct (jget i (ds_lastPositions (dg_state g))).
  - intros i p. rewrite Hlast, Hus. case_bool_decide as Hi; [|apply H8].
    destruct (jget i (ds_initialPositions (dg_state g))) as [q|] eqn:Eq; simpl.
    + intros [= <-]. exists q. split; [done|]. right. apply drag_target_on_grid.
    + intros Hp. destruct (H8 i p Hp) as (q & Hq & _). congruence.
Qed.

Lemma dragging_step g op : dragging g → dragging (drag_step g op).
Proof using Type.
  intros Hg. pose proof Hg as [Hd (s & Hs & Hr) _ _ _]. destruct op as [client root| |root]; cbn [drag_step].
  - unfold drag_mouseMove. destruct (is_readonly g); [done|]. rewrite Hd. simpl.
    destruct (dg_dragFrame g); (eapply dragging_ext; [| | |exact Hg]; [done..|]); intros s1 Hs1; by exists s1.
  - unfold drag_frame. destruct (dg_dragFrame g); [|done]. simpl. rewrite Hd. apply dragging_apply.
    eapply dragging_ext; [| | |exact Hg]; [done..|]. intros s1 Hs1. by exists s1.
  - unfold autoScrollStep. simpl. rewrite Hd. simpl.
    assert (dragging (with_autoScroll g false)) as Hoff.
    { eapply dragging_ext; [| | |exact Hg]; [done..|]. intros s1 Hs1. by exists s1. }
    destruct (dg_lastPointer g) as [pointer|]; [|done]. destruct root as [r|]; [|done].
    destruct (_ && _); [done|].
    set (g1 := with_view _ _). set (g2 := with_dragState g1 _).
    assert (dragging g2) as Hg2.
    { destruct Hg as [G1 _ G3 G4 G5]. split; simpl; try done.
      exists (setViewport s (Some (Position (panX (getViewport (dg_view g)) - pos_x (getAutoScrollDelta pointer r))%Qc
        (panY (getViewport (dg_view g)) - pos_y (getAutoScrollDelta pointer r))%Qc)) None). rewrite Hs. split; [done|exact Hr]. }
    pose proof (dragging_apply g2 pointer Hg2) as Hg3.
    eapply dragging_ext; [| | |exact Hg3]; [done..|]. intros s1 Hs1. by exists s1.
Qed.

Lemma dragging_start g nodeId client :
  vs_editor (dg_view g) = Some s0 → inv (st_adapter s0) → readonly (st_ui s0) = false →
  NoDup (selection (st_ui s0)).1 → dragging (onNodeDragStart g nodeId client).
Proof using Type.
  intros Hs Hi Hr Hsel. unfold onNodeDragStart. rewrite Hs, Hr.
  set (ids := if bool_decide _ then _ else _). set (init := start_positions _ ids).
  assert (∀ i, jget i init = if bool_decide (i ∈ ids)
    then node_position <$> jget i (nodes (ad_editor (st_adapter s0))) else None) as Hinit.
  { intros i. unfold init. rewrite start_positions_spec. case_bool_decide; [|done].
    rewrite (ui_lookup reg _ i Hi). destruct (jget i _) as [n|]; simpl; [|done]. by rewrite ui_position_node. }
  split; simpl; try done.
  - exists s0. split_and!; try done. rewrite <- (list_fmap_id (snap (st_adapter s0))) at 1.
    apply list_fmap_ext. intros _ d Hd%list_elem_of_lookup_2.
    apply (elem_of_snap reg) in Hd as (i & n & Hn & -> & Hid); [|done]. unfold json_put. rewrite Hid, Hinit.
    case_bool_decide; [|done]. by rewrite Hn.
  - intros i p Hp. exists p. split; [done|by left].
  - subst ids. destruct (bool_decide _); [done|]. apply NoDup_singleton.
Qed.

Lemma node_moves_elem d m :
  m ∈ node_moves d ↔
  mv_nodeId m ∈ ds_nodeIds d ∧ jget (mv_nodeId m) (ds_initialPositions d) = Some (mv_oldPosition m) ∧
  mv_newPosition m = default (mv_oldPosition m) (jget (mv_nodeId m) (ds_lastPositions d)) ∧
  mv_oldPosition m ≠ mv_newPosition m.
Proof using Type.
  unfold node_moves. rewrite list_elem_of_omap. split.
  - intros (i & Hi & E). destruct (jget i (ds_initialPositions d)) as [old|] eqn:Eo; simpl in E; [|done].
    destruct (same_position _ _) eqn:Ep; [done|]. injection E as <-. simpl. split_and!; try done.
    intros Heq. rewrite <- Heq, same_position_refl in Ep. done.
  - intros (Hi & Ho & Hn & Hne). exists (mv_nodeId m). split; [done|]. rewrite Ho. simpl. rewrite <- Hn.
    destruct (same_position _ _) eqn:Ep; [by apply same_position_true in Ep|]. by destruct m.
Qed.

Lemma node_moves_nodup d : NoDup (ds_nodeIds d) → NoDup (mv_nodeId <$> node_moves d).
Proof using Type.
  intros H. eapply sublist_NoDup; [exact H|]. unfold node_moves. clear H. induction (ds_nodeIds d) as [|i ids IH]; [done|].
  csimpl. destruct (jget i (ds_initialPositions d)); simpl; [|by apply sublist_cons].
  destruct (same_position _ _); [by apply sublist_cons|]. csimpl. by apply sublist_skip.
Qed.

(** The recorded command leads from the graph at the start to the one shown. *)
Lemma dragging_inverts g s :
  inv (st_adapter s0) → dragging g → vs_editor (dg_view g) = Some s →
  inverts (same_graph reg) (createMoveNodesAction (node_moves (dg_state g))) (st_adapter s0) (st_adapter s) ∧
  (node_moves (dg_state g) = [] → same_graph reg (st_adapter s) (st_adapter s0)).
Proof using Type.
  intros Hi Hg Hs. destruct Hg as [_ (s' & Hs' & H2 & _ & _ & H5 & H6) H7 H8 H9].
  rewrite Hs in Hs'. injection Hs' as <-. set (d := dg_state g) in *.
  assert (snap (st_adapter s) = json_moves mv_newPosition (node_moves d) <$> snap (st_adapter s0)) as Hsn.
  { rewrite H5. apply list_fmap_ext. intros _ x Hx%list_elem_of_lookup_2.
    apply (elem_of_snap reg) in Hx as (i & n & Hn & -> & Hid); [|done].
    destruct (json_moves_eq mv_newPosition (node_moves d) (node_toJSON n) (node_moves_nodup d H9))
      as [(m & Hm & Hmi & ->)|[Hno ->]]; unfold json_put; rewrite Hid.
    - rewrite Hid in Hmi. injection Hmi as ->. apply node_moves_elem in Hm as (_ & Ho & Hnew & Hne).
      destruct (jget (mv_nodeId m) (ds_lastPositions d)); simpl in Hnew; [by rewrite Hnew|congruence].
    - destruct (jget i (ds_lastPositions d)) as [p|] eqn:Ep; [|done].
      destruct (H8 i p Ep) as (q & Hq & _). pose proof Hq as Hq'. rewrite H7, Hn in Hq'.
      case_bool_decide as Hin; [|done]. simpl in Hq'. injection Hq' as Hq'.
      destruct (decide (q = p)) as [->|Hne]; [by rewrite <- Hq'|].
      exfalso. apply (Hno (NodeMove i q p)); [|done]. apply node_moves_elem. simpl. by rewrite Ep. }
  split.
  - apply move_nodes_inverts; try done; [by apply node_moves_nodup| |by rewrite Hsn|by rewrite H6].
    intros m x Hm Hx Hid. apply node_moves_elem in Hm as (Hmi & Ho & _). rewrite H7 in Ho.
    case_bool_decide; [|done]. apply (elem_of_snap reg) in Hx as (k & n & Hn & -> & Hk); [|done].
    rewrite Hk in Hid. injection Hid as ->. rewrite Hn in Ho. simpl in Ho. by injection Ho as <-.
  - intros E. rewrite E in Hsn. apply same_graph_intro; [done|done| |by rewrite H6]. rewrite Hsn.
    unfold json_moves. simpl. by rewrite list_fmap_id.
Qed.
End drag.

(** ** Properties *)

(** C13: A drag is one step of the history: after the nodes were picked up, moved by
    any sequence of pointer moves, frames and automatic scrolling, and dropped,
    the dragged nodes lie on the grid or where they were, nothing else of the
    graph has changed, and one undo puts every node back. *)
Theorem drag_one_step reg g s0 nodeId client ops :
  odoo_ok reg → vs_editor (dg_view g) = Some s0 → run_ok reg s0 → readonly (st_ui s0) = false →
  NoDup (selection (st_ui s0)).1 →
  let g' := (drag_mouseUp (foldl drag_step (onNodeDragStart g nodeId client) ops)).1 in
  dg_isDragging g' = false ∧
  ∃ s' moved, vs_editor (dg_view g') = Some s' ∧
    snap (st_adapter s') = json_put moved <$> snap (st_adapter s0) ∧
    conns (st_adapter s') = conns (st_adapter s0) ∧
    (∀ i p, jget i moved = Some p →
       (i = nodeId ∨ i ∈ (selection (st_ui s0)).1) ∧
       (on_grid p ∨ ∃ n, jget i (nodes (ad_editor (st_adapter s0))) = Some n ∧ node_position n = p)) ∧
    ((st_history s' = st_history s0 ∧ same_graph reg (st_adapter s') (st_adapter s0)) ∨
     ((undo s').1.2 = Ret true ∧ same_graph reg (st_adapter (undo s').1.1) (st_adapter s0))).
Proof.
  intros Hreg Hs Hok Hr Hsel. pose proof (run_ok_idle reg s0 Hok) as (Hi & _ & _).
  pose proof (dragging_start reg s0 g nodeId client Hs Hi Hr Hsel) as Hst.
  assert (ds_nodeIds (dg_state (onNodeDragStart g nodeId client)) ⊆ nodeId :: (selection (st_ui s0)).1) as Hids.
  { unfold onNodeDragStart. rewrite Hs, Hr. simpl. destruct (bool_decide _); set_solver. }
  cbv zeta. revert Hst Hids. generalize (onNodeDragStart g nodeId client). clear g Hs. intros g Hg Hids.
  assert (dragging reg s0 (foldl drag_step g ops) ∧
          ds_nodeIds (dg_state (foldl drag_step g ops)) = ds_nodeIds (dg_state g)) as [Hg' Eids].
  { clear Hids. revert g Hg. induction ops as [|op ops IH]; intros g Hg; simpl; [done|].
    destruct (IH (drag_step g op) (dragging_step reg s0 g op Hg)) as [? ->]. split; [done|].
    clear -reg. destruct op; simpl; unfold drag_mouseMove, drag_frame, autoScrollStep, applyDrag;
      repeat (case_match; simplify_eq/=; try done). }
  rewrite <- Eids in Hids. clear Eids Hg. revert Hg' Hids. generalize (foldl drag_step g ops). clear g. intros g Hg Hids.
  pose proof Hg as [Hd (s & Hs & Hia & Hh & Hrs & Hsn & Hcn) H7 H8 H9].
  unfold drag_mouseUp, is_readonly. rewrite Hs, Hrs, Hd. simpl. split; [done|].
  rewrite Hs. simpl. set (ms := node_moves (dg_state g)).
  exists (recordMoveNodes s ms), (ds_lastPositions (dg_state g)).
  assert (st_adapter (recordMoveNodes s ms) = st_adapter s) as Ea by (destruct ms; [done|apply record_adapter]).
  rewrite Ea. split_and!; try done.
  - intros i p Hp. destruct (H8 i p Hp) as (q & Hq & Hpq). rewrite H7 in Hq.
    case_bool_decide as Hin; [|done]. apply Hids, elem_of_cons in Hin. split; [done|].
    destruct (jget i (nodes (ad_editor (st_adapter s0)))) as [n|]; [|done]. injection Hq as <-.
    destruct Hpq as [->|]; [right; by exists n|by left].
  - destruct (dragging_inverts reg s0 g s Hi Hg Hs) as [Hinv Hsame]. fold ms in Hinv, Hsame.
    destruct ms as [|m ms']; [left; split; [done|by apply Hsame]|].
    assert (edited reg s0 (recordMoveNodes s (m :: ms'))) as He.
    { split; [by rewrite Ea|]. right. eexists. rewrite Ea. split; [|exact Hinv]. unfold recordMoveNodes.
      by rewrite record_history, Hh. }
    destruct (edited_undoable reg s0 _ Hok He) as [[E1 E2]|?]; [|by right].
    left. split; [done|]. rewrite <- Ea, E2. done.
Qed.

(** ** Examples *)

Definition drag_demo : drag := useMultiNodeDrag (useViewport (Some selected_demo) None None).

Lemma drag_one_step_witness :
  dg_isDragging (drag_mouseUp (foldl drag_step
    (onNodeDragStart drag_demo "n_1" (Position 0 0))
    [DMove (Position (num_of_Z 95) (num_of_Z 10)) (Some screen); DFrame; DAuto (Some screen)])).1 = false.
Proof.
  refine (proj1 (drag_one_step builtin_registry drag_demo selected_demo "n_1" (Position 0 0) _ builtin_registry_ok
    eq_refl selected_demo_ok _ _)); [vm_compute; reflexivity|].
  apply (bool_decide_unpack _). vm_compute. exact I.
Defined.
