(* ===== verification/Drawing.v ===== *)
(** * Drawing a connection (components/editor_canvas/hooks/use_connection_drawing.js)

    A connection is drawn from an output socket; near an input socket the line
    snaps to it; releasing the button connects, or opens the menu of new nodes on
    empty canvas.  [Math.hypot] is compared by squares. *)

From S2P Require Import Prelude JsMap JsValue JsNumber Connection Node Nodes Editor EditorInv Adapter AdapterInv AdapterEquiv AdapterRun History HistoryTimeline Commands Store StoreInv StoreRun StoreBatch WorkflowCommands Dimensions Geometry ViewportHook.

(** A socket as the events name it. *)
Record socket_ref := SocketRef { sr_node : string; sr_key : string; sr_type : socket_type }.

(** The socket the line snaps to. *)
Record snapped := Snapped { sn_node : string; sn_key : string; sn_pos : position }.

Record drawing := Drawing {
  dw_store : store;
  dw_isConnecting : bool;
  dw_connectionStart : option socket_ref;
  dw_tempLineEndpoint : option position;
  dw_snappedSocket : option snapped;
}.

Definition useConnectionDrawing (s : store) : drawing := Drawing s false None None None.

Definition SNAP_RADIUS : num := num_of_Z 50.

Section hook.
(** [getSocketPositionForNode] *)
Context (socketPos : ui_node → string → socket_type → position).

Definition dist2 (p q : position) : num :=
  ((pos_x p - pos_x q) * (pos_x p - pos_x q) + (pos_y p - pos_y q) * (pos_y p - pos_y q))%Qc.

(** The best so far: the socket and its squared distance. *)
Abbreviation best := (option (snapped * num)).

Definition closer (x : num) (b : best) : bool :=
  match b with Some (_, m) => num_lt x m | None => true end.

Definition try_socket (p : position) (n : ui_node) (i : string) (b : best) (key : string) : best :=
  let pos := socketPos n key InputSocket in
  let dist := dist2 p pos in
  if num_lt dist (SNAP_RADIUS * SNAP_RADIUS)%Qc && closer dist b
  then Some (Snapped i key pos, dist) else b.

Definition try_node (p : position) (sourceNodeId : option string) (b : best) (n : ui_node) : best :=
  match ui_id n with
  | None => b
  | Some i =>
      if bool_decide (sourceNodeId = Some i) then b
      else foldl (try_socket p n i) b (jkeys (ui_inputs n))
  end.

(** [findNearestSocket(x, y, sourceNodeId)]: from the last node to the first. *)
Definition findNearestSocket (nodes : list ui_node) (p : position) (sourceNodeId : option string)
    : option snapped :=
  fst <$> foldl (try_node p sourceNodeId) None (reverse nodes).

Definition drawing_readonly (w : drawing) : bool := readonly (st_ui (dw_store w)).

(** [onSocketMouseDown(data)]; [canvasPos] is where the event is on the canvas. *)
Definition onSocketMouseDown (w : drawing) (d : socket_ref) (canvasPos : position) : drawing :=
  if drawing_readonly w then w
  else match sr_type d with
       | InputSocket => w
       | OutputSocket => Drawing (dw_store w) true (Some d) (Some canvasPos) (dw_snappedSocket w)
       end.

(** [handleMouseMove(ev)] *)
Definition drawing_mouseMove (w : drawing) (pos : position) : drawing * bool :=
  if drawing_readonly w then (w, false)
  else if negb (dw_isConnecting w) then (w, false)
  else
    let source := sr_node <$> dw_connectionStart w in
    (Drawing (dw_store w) true (dw_connectionStart w) (Some pos)
       (findNearestSocket (state_nodes (st_adapter (dw_store w))) pos source), true).

Definition cancelConnection (w : drawing) : drawing := Drawing (dw_store w) false None None None.

Definition on_drawing_store (w : drawing) (s : store) : drawing :=
  Drawing s (dw_isConnecting w) (dw_connectionStart w) (dw_tempLineEndpoint w) (dw_snappedSocket w).

Definition is_output (t : socket_type) : bool := match t with OutputSocket => true | InputSocket => false end.

(** [onSocketMouseUp(data)] *)
Definition onSocketMouseUp (w : drawing) (d : socket_ref) : drawing :=
  if drawing_readonly w then w
  else if negb (dw_isConnecting w) then w
  else
    match dw_connectionStart w with
    | None => cancelConnection w
    | Some start =>
        if is_output (sr_type start) && negb (is_output (sr_type d)) && negb (sr_node start =s sr_node d)
        then cancelConnection (on_drawing_store w
               (addConnection (dw_store w) (sr_node start) (sr_key start) (sr_node d) (sr_key d)).1)
        else cancelConnection w
    end.

(** What is under the pointer: an input socket, or something else. *)
Inductive drop_target := OnInputSocket | Elsewhere.

(** The context of the menu that opens on empty canvas. *)
Definition drag_connect_context (start : socket_ref) : jsval :=
  JObj [("type", JStr "dragConnect"); ("sourceNodeId", JStr (sr_node start));
        ("sourceSocketKey", JStr (sr_key start))].

(** [handleCanvasMouseUp(ev, canvasRect)]; [client] is where the event is on the
    screen, [canvasPos] where it is on the canvas. *)
Definition handleCanvasMouseUp (w : drawing) (t : drop_target) (client canvasPos : position) (canvas : rect)
    : drawing * bool :=
  if drawing_readonly w then (w, false)
  else if negb (dw_isConnecting w) then (w, false)
  else
    match dw_snappedSocket w with
    | Some sn =>
        let w := match dw_connectionStart w with
                 | Some start =>
                     if is_output (sr_type start) then
                       on_drawing_store w
                         (addConnection (dw_store w) (sr_node start) (sr_key start) (sn_node sn) (sn_key sn)).1
                     else w
                 | None => w
                 end in
        (cancelConnection w, true)
    | None =>
        match t with
        | OnInputSocket => (w, false)
        | Elsewhere =>
            match dw_connectionStart w with
            | Some start =>
                if is_output (sr_type start) then
                  let s := openNodeMenu (dw_store w) (pos_x client - r_x canvas)%Qc (pos_y client - r_y canvas)%Qc
                             (pos_x canvasPos) (pos_y canvasPos) (Some "default") (Some (drag_connect_context start)) in
                  (Drawing s false (dw_connectionStart w) None None, true)
                else (cancelConnection w, true)
            | None => (cancelConnection w, true)
            end
        end
    end.

(** ** The nearest socket *)

(** A socket the line may snap to. *)
Definition candidate (nodes : list ui_node) (source : option string) (p : position) (x : snapped) : Prop :=
  ∃ n, n ∈ nodes ∧ ui_id n = Some (sn_node x) ∧ source ≠ Some (sn_node x) ∧
    sn_key x ∈ jkeys (ui_inputs n) ∧ sn_pos x = socketPos n (sn_key x) InputSocket ∧
    (dist2 p (sn_pos x) < SNAP_RADIUS * SNAP_RADIUS)%Qc.

(** [b] is a nearest element of a set of candidates. *)
Definition nearest (p : position) (C : snapped → Prop) (b : best) : Prop :=
  match b with
  | Some (x, m) => C x ∧ m = dist2 p (sn_pos x) ∧ ∀ y, C y → (m ≤ dist2 p (sn_pos y))%Qc
  | None => ∀ y, ¬ C y
  end.

Lemma nearest_ext p C C' b : (∀ x, C x ↔ C' x) → nearest p C b → nearest p C' b.
Proof using Type. unfold nearest. intros H. destruct b as [[x m]|]; setoid_rewrite H; done. Qed.

Lemma try_socket_nearest p n i C b key :
  ui_id n = Some i → nearest p C b →
  nearest p (λ x, C x ∨ (x = Snapped i key (socketPos n key InputSocket) ∧
                         (dist2 p (sn_pos x) < SNAP_RADIUS * SNAP_RADIUS)%Qc)) (try_socket p n i b key).
Proof using Type.
  intros Hi Hb. unfold try_socket. set (q := socketPos n key InputSocket).
  destruct (num_lt (dist2 p q) _) eqn:E1; simpl; num_bool.
  - destruct (closer (dist2 p q) b) eqn:E2; simpl.
    + split; [by right|]. split; [done|]. intros y [Hy|[-> _]]; [|simpl; apply Qcle_refl].
      destruct b as [[x m]|]; simpl in *; [|by destruct (Hb y)]. num_bool. destruct Hb as (_ & _ & Hb).
      specialize (Hb y Hy). apply Qclt_le_weak. by eapply Qclt_le_trans.
    + destruct b as [[x m]|]; simpl in *; [|done]. num_bool. destruct Hb as (Hx & Hm & Hb).
      split; [by left|]. split; [done|]. intros y [Hy|[-> _]]; [by apply Hb|done].
  - destruct b as [[x m]|]; simpl in *.
    + destruct Hb as (Hx & Hm & Hb). split; [by left|]. split; [done|].
      intros y [Hy|[-> Hlt]]; [by apply Hb|]. simpl in Hlt. exfalso. by apply (Qclt_not_le _ _ Hlt).
    + intros y [Hy|[-> Hlt]]; [by apply (Hb y)|]. simpl in Hlt. by apply (Qclt_not_le _ _ Hlt).
Qed.

Lemma try_sockets_nearest p n i C b keys :
  ui_id n = Some i → nearest p C b →
  nearest p (λ x, C x ∨ (sn_node x = i ∧ sn_key x ∈ keys ∧ sn_pos x = socketPos n (sn_key x) InputSocket ∧
                         (dist2 p (sn_pos x) < SNAP_RADIUS * SNAP_RADIUS)%Qc)) (foldl (try_socket p n i) b keys).
Proof using Type.
  intros Hi. revert C b. induction keys as [|k keys IH]; intros C b Hb; simpl.
  - eapply nearest_ext; [|exact Hb]. intros x. split; [by left|]. intros [|(_ & []%not_elem_of_nil & _)]; done.
  - eapply nearest_ext; [|apply IH, try_socket_nearest; done]. intros x. setoid_rewrite elem_of_cons. split.
    + intros [[Hx|[-> Hd]]|(? & ? & ?)]; [by left|right; simpl in *; auto|right; auto].
    + intros [Hx|(H1 & [Hk|H2] & H3 & H4)]; [by left; left| |right; auto].
      left. right. destruct x as [xn xk xp]. simpl in *. subst. split; done.
Qed.

Lemma findNearest_nearest nodes p source :
  nearest p (candidate nodes source p) (foldl (try_node p source) None (reverse nodes)).
Proof using Type.
  assert (∀ ns C b, nearest p C b →
    nearest p (λ x, C x ∨ candidate ns source p x) (foldl (try_node p source) b ns)) as H.
  { intros ns. induction ns as [|n ns IH]; intros C b Hb; simpl.
    - eapply nearest_ext; [|exact Hb]. intros x. split; [by left|]. intros [|(n & []%not_elem_of_nil & _)]; done.
    - assert (nearest p (λ x, C x ∨ candidate [n] source p x) (try_node p source b n)) as Hn.
      { unfold try_node. destruct (ui_id n) as [i|] eqn:Ei.
        - case_bool_decide as Es.
          + eapply nearest_ext; [|exact Hb]. intros x. split; [by left|]. intros [|(m & Hm & Hid & Hne & _)]; [done|].
            apply list_elem_of_singleton in Hm as ->. congruence.
          + eapply nearest_ext; [|apply try_sockets_nearest; [exact Ei|exact Hb]]. intros x. simpl. split.
            * intros [|(<- & ? & ? & ?)]; [by left|right]. exists n. split_and!; try done; by left.
            * intros [|(m & Hm & Hid & Hne & ? & ? & ?)]; [by left|right].
              apply list_elem_of_singleton in Hm as ->. rewrite Ei in Hid. injection Hid as ->. done.
        - eapply nearest_ext; [|exact Hb]. intros x. split; [by left|]. intros [|(m & Hm & Hid & _)]; [done|].
          apply list_elem_of_singleton in Hm as ->. congruence. }
      eapply nearest_ext; [|apply IH, Hn]. intros x. simpl. unfold candidate. setoid_rewrite elem_of_cons.
      setoid_rewrite elem_of_nil. naive_solver. }
  eapply nearest_ext; [|apply (H (reverse nodes) (λ _, False) None); by intros y []]. intros x. unfold candidate.
  setoid_rewrite elem_of_reverse. naive_solver.
Qed.
End hook.

(** ** Runs *)

Inductive draw_op :=
| DrawDown (d : socket_ref) (canvasPos : position)
| DrawMove (canvasPos : position)
| DrawSocketUp (d : socket_ref)
| DrawCanvasUp (t : drop_target) (client canvasPos : position) (canvas : rect)
| DrawCancel.

Definition draw_step (socketPos : ui_node → string → socket_type → position) (w : drawing) (op : draw_op) : drawing :=
  match op with
  | DrawDown d p => onSocketMouseDown w d p
  | DrawMove p => (drawing_mouseMove socketPos w p).1
  | DrawSocketUp d => onSocketMouseUp w d
  | DrawCanvasUp t client p canvas => (handleCanvasMouseUp w t client p canvas).1
  | DrawCancel => cancelConnection w
  end.

(** While a line is drawn it starts at an output, and what it snaps to is
    another node; when none is drawn nothing is snapped to. *)
Definition drawing_ok (w : drawing) : Prop :=
  (dw_isConnecting w = true →
     ∃ start, dw_connectionStart w = Some start ∧ sr_type start = OutputSocket ∧
       ∀ sn, dw_snappedSocket w = Some sn → sn_node sn ≠ sr_node start) ∧
  (dw_isConnecting w = false → dw_snappedSocket w = None).

Lemma findNearestSocket_other socketPos nodes p i sn :
  findNearestSocket socketPos nodes p (Some i) = Some sn → sn_node sn ≠ i.
Proof.
  unfold findNearestSocket. pose proof (findNearest_nearest socketPos nodes p (Some i)) as H.
  destruct (foldl _ _ _) as [[x m]|]; [|done]. intros [= <-]. destruct H as [(n & _ & _ & Hne & _) _]. congruence.
Qed.

Lemma cancelConnection_ok w : drawing_ok (cancelConnection w).
Proof. by split. Qed.

(** A line is begun when none is being drawn: the button was up. *)
Definition draw_allowed (w : drawing) (op : draw_op) : Prop :=
  match op with DrawDown _ _ => dw_isConnecting w = false | _ => True end.

Lemma draw_step_ok socketPos w op :
  draw_allowed w op → drawing_ok w → drawing_ok (draw_step socketPos w op).
Proof.
  intros Ha Hw. destruct op as [d p|p|d|t client p canvas|]; cbn [draw_step draw_allowed] in *.
  - unfold onSocketMouseDown. destruct (drawing_readonly w); [done|]. destruct (sr_type d) eqn:E; [done|].
    split; [|done]. intros _. exists d. split_and!; [done|done|]. simpl. rewrite (proj2 Hw Ha). done.
  - unfold drawing_mouseMove. destruct (drawing_readonly w); [done|].
    destruct (dw_isConnecting w) eqn:E; [|done]. simpl. split; [|done]. intros _.
    destruct (proj1 Hw E) as (start & Hs & Ht & _). exists start. split_and!; [done|done|]. simpl. rewrite Hs.
    intros sn. apply findNearestSocket_other.
  - unfold onSocketMouseUp. destruct (drawing_readonly w); [done|]. destruct (dw_isConnecting w); [|done]. simpl.
    destruct (dw_connectionStart w); [|apply cancelConnection_ok]. destruct (_ && _); apply cancelConnection_ok.
  - unfold handleCanvasMouseUp. destruct (drawing_readonly w); [done|]. destruct (dw_isConnecting w) eqn:E; [|done]. simpl.
    destruct (dw_snappedSocket w); [apply cancelConnection_ok|]. destruct t; [done|].
    destruct (dw_connectionStart w); [|apply cancelConnection_ok]. destruct (is_output _); [by split|apply cancelConnection_ok].
  - apply cancelConnection_ok.
Qed.

(** Runs of the hook over a store. *)
Inductive drawing_run (socketPos : ui_node → string → socket_type → position) : drawing → Prop :=
| drun_new s : drawing_run socketPos (useConnectionDrawing s)
| drun_step w op : drawing_run socketPos w → draw_allowed w op → drawing_run socketPos (draw_step socketPos w op).

Lemma drawing_run_ok socketPos w : drawing_run socketPos w → drawing_ok w.
Proof. induction 1; [by split|by apply draw_step_ok]. Qed.

(** Releasing the button: over a socket its handler runs first, then that of
    the canvas. *)
Definition release (w : drawing) (over : option socket_ref) (client canvasPos : position) (canvas : rect) : drawing :=
  match over with
  | Some d =>
      let w := onSocketMouseUp w d in
      (handleCanvasMouseUp w (if is_output (sr_type d) then Elsewhere else OnInputSocket) client canvasPos canvas).1
  | None => (handleCanvasMouseUp w Elsewhere client canvasPos canvas).1
  end.

(** ** Properties *)

(** The line snaps to the nearest input socket of another node within the
    radius, and to none exactly when there is none. *)
Theorem findNearestSocket_exact socketPos nodes p source :
  match findNearestSocket socketPos nodes p source with
  | Some x => candidate socketPos nodes source p x ∧
      ∀ y, candidate socketPos nodes source p y → (dist2 p (sn_pos x) ≤ dist2 p (sn_pos y))%Qc
  | None => ∀ y, ¬ candidate socketPos nodes source p y
  end.
Proof.
  unfold findNearestSocket. pose proof (findNearest_nearest socketPos nodes p source) as H.
  destruct (foldl _ _ _) as [[x m]|]; simpl in *; [|done]. destruct H as (Hx & -> & H). done.
Qed.

(** Every line that was begun ends when the button is released, wherever the
    pointer is and whatever moves came before: nothing is being drawn any more,
    and the graph is the old one or has been asked for one connection, from the
    output the line began at to another node. *)
Theorem release_ends_drawing socketPos w over client canvasPos canvas :
  drawing_run socketPos w → drawing_readonly w = false →
  let w' := release w over client canvasPos canvas in
  dw_isConnecting w' = false ∧ dw_snappedSocket w' = None ∧
  (st_adapter (dw_store w') = st_adapter (dw_store w) ∧ st_history (dw_store w') = st_history (dw_store w) ∨
   ∃ start node key, dw_connectionStart w = Some start ∧ sr_type start = OutputSocket ∧ node ≠ sr_node start ∧
     dw_store w' = (addConnection (dw_store w) (sr_node start) (sr_key start) node key).1).
Proof.
  intros Hrun Hr. pose proof (drawing_run_ok _ _ Hrun) as Hok. pose proof (draw_step_ok socketPos w) as Hstep.
  assert (∀ t, let w' := (handleCanvasMouseUp w t client canvasPos canvas).1 in
    (t = Elsewhere ∨ dw_isConnecting w = false → dw_isConnecting w' = false ∧ dw_snappedSocket w' = None) ∧
    (st_adapter (dw_store w') = st_adapter (dw_store w) ∧ st_history (dw_store w') = st_history (dw_store w) ∨
     ∃ start node key, dw_connectionStart w = Some start ∧ sr_type start = OutputSocket ∧ node ≠ sr_node start ∧
       dw_store w' = (addConnection (dw_store w) (sr_node start) (sr_key start) node key).1)) as Hc.
  { intros t. simpl. unfold handleCanvasMouseUp. rewrite Hr. destruct (dw_isConnecting w) eqn:E; simpl.
    - destruct (proj1 Hok E) as (start & Hs & Ht & Hsn). rewrite Hs, Ht. simpl.
      destruct (dw_snappedSocket w) as [sn|] eqn:Esn; simpl.
      + split; [done|]. right. exists start, (sn_node sn), (sn_key sn). split_and!; try done. by apply Hsn.
      + destruct t; simpl; [|split; [done|by left]]. split; [by intros []|by left].
    - split; [|by left]. intros _. split; [done|by apply Hok]. }
  unfold release. destruct over as [d|].
  - unfold onSocketMouseUp. rewrite Hr. destruct (dw_isConnecting w) eqn:E; simpl.
    + destruct (proj1 Hok E) as (start & Hs & Ht & Hsn). rewrite Hs, Ht. simpl.
      assert (∀ x t, (handleCanvasMouseUp (cancelConnection x) t client canvasPos canvas).1 = cancelConnection x) as Hid.
      { intros x t. unfold handleCanvasMouseUp. by destruct (drawing_readonly (cancelConnection x)). }
      destruct (negb (is_output (sr_type d)) && negb (sr_node start =s sr_node d)) eqn:Eb; rewrite Hid; simpl.
      * split_and!; try done. right. exists start, (sr_node d), (sr_key d). split_and!; try done.
        bsimpl. congruence.
      * split_and!; try done. by left.
    + destruct (Hc (if is_output (sr_type d) then Elsewhere else OnInputSocket)) as [H1 H2].
      destruct (H1 (or_intror eq_refl)). done.
  - destruct (Hc Elsewhere) as [H1 H2]. destruct (H1 (or_introl eq_refl)). done.
Qed.

(** ** Examples *)

Definition draw_demo : drawing :=
  foldl (draw_step (getSocketPosition defaultDimensions)) (useConnectionDrawing store_demo)
    [DrawDown (SocketRef "n_1" "output" OutputSocket) (Position 0 0); DrawMove (Position (num_of_Z 5) (num_of_Z 5))].

Lemma release_ends_drawing_witness :
  dw_isConnecting (release draw_demo None (Position 0 0) (Position 0 0) screen) = false.
Proof.
  refine (proj1 (release_ends_drawing (getSocketPosition defaultDimensions) draw_demo None
    (Position 0 0) (Position 0 0) screen _ _)).
  - unfold draw_demo. cbn [foldl]. apply drun_step; [apply drun_step; [constructor|reflexivity]|exact I].
  - vm_compute. reflexivity.
Defined.
