(* ===== verification/Gestures.v ===== *)
(** * Canvas gestures (components/editor_canvas/hooks/use_canvas_gestures.js)

    Panning with the middle button and selecting with a box.  In editor mode the
    canvas gives the hook the store; in widget mode it gives it a setter for the
    viewport in its own state ([widget], components/editor_canvas.js), while the
    viewport that is drawn is that of the viewport hook. *)

From S2P Require Import Prelude JsMap JsValue JsNumber Connection Node Nodes Editor EditorInv Adapter AdapterInv AdapterEquiv AdapterRun History HistoryTimeline Commands Store StoreInv StoreRun StoreBatch WorkflowCommands Dimensions Geometry ViewportHook.

(** What the canvas keeps for itself in widget mode. *)
Record widget := Widget {
  wd_nodes : list ui_node;
  wd_pan : position;
  wd_zoom : num;
  wd_readonly : bool;
}.

Record select_box := SelectBox { startX : num; startY : num; endX : num; endY : num }.

(** The hook, with the viewport hook that holds the store (editor mode, [Some]). *)
Record gestures := Gestures {
  gs_view : vstate;
  gs_widget : widget;
  gs_isPanning : bool;
  gs_isSelecting : bool;
  gs_selectionBox : option select_box;
  gs_panStart : option position;
  gs_panInitial : option position;
}.

Definition useCanvasGestures (v : vstate) (w : widget) : gestures := Gestures v w false false None None None.

Definition with_gs_view (g : gestures) (v : vstate) : gestures :=
  Gestures v (gs_widget g) (gs_isPanning g) (gs_isSelecting g) (gs_selectionBox g) (gs_panStart g) (gs_panInitial g).
Definition with_gs_widget (g : gestures) (w : widget) : gestures :=
  Gestures (gs_view g) w (gs_isPanning g) (gs_isSelecting g) (gs_selectionBox g) (gs_panStart g) (gs_panInitial g).
Definition with_panning (g : gestures) (b : bool) (start initial : option position) : gestures :=
  Gestures (gs_view g) (gs_widget g) b (gs_isSelecting g) (gs_selectionBox g) start initial.
Definition with_selecting (g : gestures) (b : bool) (x : option select_box) : gestures :=
  Gestures (gs_view g) (gs_widget g) (gs_isPanning g) b x (gs_panStart g) (gs_panInitial g).

(** An action of the store, in editor mode. *)
Definition gs_store (f : store → store) (g : gestures) : gestures :=
  with_gs_view g (with_vs_editor (gs_view g) (f <$> vs_editor (gs_view g))).

(** [isReadonly] of the canvas: the store's flag, or its own. *)
Definition isReadonlyActive (g : gestures) : bool :=
  match vs_editor (gs_view g) with
  | Some s => readonly (st_ui s)
  | None => wd_readonly (gs_widget g)
  end.

(** [nodes] of the canvas. *)
Definition gs_nodes (g : gestures) : list ui_node :=
  match vs_editor (gs_view g) with
  | Some s => state_nodes (st_adapter s)
  | None => wd_nodes (gs_widget g)
  end.

(** [setViewportLocal({ pan })], the setter of widget mode. *)
Definition setViewportLocal (w : widget) (p : option position) (z : option num) : widget :=
  Widget (wd_nodes w) (default (wd_pan w) p) (default (wd_zoom w) z) (wd_readonly w).

(** What the hook reads of a mouse event: the button, where the target is
    (over an overlay, the background, a node) and the place on the screen. *)
Record mouse_event := MouseEvent {
  me_button : N;
  me_overlay : bool;
  me_background : bool;
  me_onNode : bool;
  me_client : position;
}.

(** [onCanvasMouseDown(ev)] *)
Definition onCanvasMouseDown (g : gestures) (root : rect) (ev : mouse_event) : gestures :=
  if me_overlay ev then g
  else if (me_button ev =? 1)%N then
    let v := getViewport (gs_view g) in
    with_panning g true (Some (me_client ev)) (Some (Position (panX v) (panY v)))
  else if isReadonlyActive g then g
  else if (me_button ev =? 0)%N && me_background ev && negb (me_onNode ev) then
    let pos := getCanvasPosition (gs_view g) (me_client ev) root in
    gs_store (λ s, select s [] [])
      (with_selecting g true (Some (SelectBox (pos_x pos) (pos_y pos) (pos_x pos) (pos_y pos))))
  else g.

(** The pan gesture of [handleMouseMove]. *)
Definition pan_by (g : gestures) (root : rect) (start initial client : position) : gestures :=
  let newPan := Position (pos_x initial + (pos_x client - pos_x start))%Qc
                         (pos_y initial + (pos_y client - pos_y start))%Qc in
  let g :=
    match vs_editor (gs_view g) with
    | None => with_gs_widget g (setViewportLocal (gs_widget g) (Some newPan) None)
    | Some _ => gs_store (λ s, setViewport s (Some newPan) None) g
    end in
  with_gs_view g (updateViewRect (gs_view g) (Some root)).

(** [handleMouseMove(ev)] *)
Definition gestures_mouseMove (g : gestures) (root : rect) (client : position) : gestures * bool :=
  match gs_isPanning g, gs_panStart g, gs_panInitial g with
  | true, Some start, Some initial => (pan_by g root start initial client, true)
  | _, _, _ =>
      match negb (isReadonlyActive g) && gs_isSelecting g, gs_selectionBox g with
      | true, Some b =>
          let pos := getCanvasPosition (gs_view g) client root in
          (with_selecting g true (Some (SelectBox (startX b) (startY b) (pos_x pos) (pos_y pos))), true)
      | _, _ => (g, false)
      end
  end.

(** Whether a node is touched by the box. *)
Definition box_touches (d : DimensionConfig) (b : select_box) (n : ui_node) : bool :=
  let minX := num_min (startX b) (endX b) in
  let maxX := num_max (startX b) (endX b) in
  let minY := num_min (startY b) (endY b) in
  let maxY := num_max (startY b) (endY b) in
  let r := getNodeBounds n d in
  let nodeRight := (r_x r + r_width r)%Qc in
  let nodeBottom := (r_y r + r_height r)%Qc in
  num_lt (r_x r) maxX && num_lt minX nodeRight && num_lt (r_y r) maxY && num_lt minY nodeBottom.

(** [completeSelection()] *)
Definition completeSelection (d : DimensionConfig) (g : gestures) : gestures :=
  if isReadonlyActive g then g
  else match gs_selectionBox g with
       | None => g
       | Some b =>
           match bfilter (box_touches d b) (gs_nodes g) with
           | [] => g
           | selected => gs_store (λ s, select s (omap ui_id selected) []) g
           end
       end.

Inductive gesture := PanGesture | SelectionGesture.

(** [handleMouseUp(ev)] *)
Definition gestures_mouseUp (d : DimensionConfig) (g : gestures) : gestures * option gesture :=
  if gs_isPanning g then (with_panning g false None None, Some PanGesture)
  else if gs_isSelecting g then (with_selecting (completeSelection d g) false None, Some SelectionGesture)
  else (g, None).

Section style.
Context (show : num → string).

Definition getSelectionBoxStyle (g : gestures) : string :=
  match gs_selectionBox g with
  | None => ""
  | Some b =>
      let x := num_min (startX b) (endX b) in
      let y := num_min (startY b) (endY b) in
      let w := num_abs (endX b - startX b)%Qc in
      let h := num_abs (endY b - startY b)%Qc in
      "left:" +:+ show x +:+ "px; top:" +:+ show y +:+ "px; width:" +:+ show w +:+ "px; height:" +:+ show h +:+ "px;"
  end.
End style.

(** ** The box *)

(** Two intervals, the first open and the second closed, have a point in common. *)
Lemma interval_meets (a b l h : num) :
  (a < b)%Qc → (l ≤ h)%Qc →
  (a < h ∧ l < b)%Qc ↔ ∃ x, (a < x ∧ x < b)%Qc ∧ (l ≤ x ∧ x ≤ h)%Qc.
Proof.
  intros Hab Hlh. split.
  - intros [H1 H2]. destruct (num_lt a l) eqn:E; num_bool.
    + exists l. split_and!; try done.
    + exists (num_min h (half (a + b))). split_and!; num_cases.
  - intros (x & [??] & ? & ?). split; qc_lra.
Qed.

(** The node and the box have a point in common that is not on the border of
    the node. *)
Definition touched (d : DimensionConfig) (p q : position) (n : ui_node) : Prop :=
  ∃ x, pointInRect x (getSelectionBox p q) = true ∧
    (ui_x n < pos_x x ∧ pos_x x < ui_x n + nodeWidth d)%Qc ∧
    (ui_y n < pos_y x ∧ pos_y x < ui_y n + estimateNodeHeight n d)%Qc.

Lemma selection_box_edges (a b : num) :
  (num_min a b + num_abs (b - a) = num_max a b)%Qc ∧ (num_min a b ≤ num_max a b)%Qc.
Proof. split; num_cases. Qed.

Lemma box_touches_spec d p q n :
  (0 < nodeWidth d)%Qc → (0 < estimateNodeHeight n d)%Qc →
  box_touches d (SelectBox (pos_x p) (pos_y p) (pos_x q) (pos_y q)) n = true ↔ touched d p q n.
Proof.
  intros Hw Hh. unfold box_touches, touched, getNodeBounds. simpl.
  destruct (selection_box_edges (pos_x p) (pos_x q)) as [Ex Hx], (selection_box_edges (pos_y p) (pos_y q)) as [Ey Hy].
  setoid_rewrite pointInRect_spec. unfold getSelectionBox. cbn [r_x r_y r_width r_height].
  setoid_rewrite Ex. setoid_rewrite Ey. rewrite !andb_true_iff, !num_lt_true.
  set (l := num_min (pos_x p) (pos_x q)) in *. set (h := num_max (pos_x p) (pos_x q)) in *.
  set (l' := num_min (pos_y p) (pos_y q)) in *. set (h' := num_max (pos_y p) (pos_y q)) in *. clearbody l h l' h'.
  assert (∀ a w : num, 0 < w → a < a + w)%Qc as Hpos by (intros; qc_lra).
  pose proof (interval_meets (ui_x n) (ui_x n + nodeWidth d) l h (Hpos _ _ Hw) Hx) as I1.
  pose proof (interval_meets (ui_y n) (ui_y n + estimateNodeHeight n d) l' h' (Hpos _ _ Hh) Hy) as I2.
  split.
  - intros (((H1 & H2) & H3) & H4).
    destruct (proj1 I1 (conj H1 H2)) as (x & ? & ?), (proj1 I2 (conj H3 H4)) as (y & ? & ?).
    exists (Position x y). simpl. tauto.
  - intros (x & [Hbx Hby] & Hnx & Hny).
    destruct (proj2 I1 (ex_intro _ _ (conj Hnx Hbx))), (proj2 I2 (ex_intro _ _ (conj Hny Hby))). tauto.
Qed.

(** ** A selection *)

Definition gesture_moves (g : gestures) (root : rect) (clients : list position) : gestures :=
  foldl (λ g c, (gestures_mouseMove g root c).1) g clients.

(** What holds while a box is drawn from [p]; the last pointer position is [q]. *)
Record boxing (s : store) (v : vstate) (w : widget) (p q : position) (g : gestures) : Prop := {
  bx_view : gs_view g = with_vs_editor v (Some s);
  bx_widget : gs_widget g = w;
  bx_panning : gs_isPanning g = false;
  bx_selecting : gs_isSelecting g = true;
  bx_box : gs_selectionBox g = Some (SelectBox (pos_x p) (pos_y p) (pos_x q) (pos_y q));
}.

Lemma boxing_moves s v w root p q clients g :
  readonly (st_ui s) = false → boxing s v w p q g →
  boxing s v w p (default q (last ((λ c, getCanvasPosition (with_vs_editor v (Some s)) c root) <$> clients)))
    (gesture_moves g root clients).
Proof.
  intros Hr. revert q g. induction clients as [|c clients IH]; intros q g Hg; [exact Hg|].
  set (q' := getCanvasPosition (with_vs_editor v (Some s)) c root).
  assert (boxing s v w p q' (gestures_mouseMove g root c).1) as Hg'.
  { destruct Hg as [H1 H2 H3 H4 H5]. unfold gestures_mouseMove, isReadonlyActive.
    rewrite H3, H1, H4, H5. cbn [vs_editor with_vs_editor]. rewrite Hr. by split. }
  specialize (IH q' _ Hg'). rewrite fmap_cons, last_cons. fold q'. revert IH. cbn [gesture_moves foldl].
  by destruct (last _).
Qed.

(** ** Properties *)

(** Drawing a box over the canvas with the left button selects exactly the
    nodes the box touches, in the order of the graph, and no connection, whatever
    was selected before and however the pointer moved in between; nothing else of
    the store changes, and the gesture is over. *)
Theorem box_selection_exact d root v w s ev clients :
  (0 < nodeWidth d)%Qc → (∀ n, n ∈ state_nodes (st_adapter s) → (0 < estimateNodeHeight n d)%Qc) →
  vs_editor v = Some s → readonly (st_ui s) = false →
  me_overlay ev = false → me_button ev = 0%N → me_background ev = true → me_onNode ev = false →
  let g := gesture_moves (onCanvasMouseDown (useCanvasGestures v w) root ev) root clients in
  let p := getCanvasPosition v (me_client ev) root in
  let q := default p (last ((λ c, getCanvasPosition v c root) <$> clients)) in
  ∃ ids, gestures_mouseUp d g = (useCanvasGestures (with_vs_editor v (Some (select s ids []))) w, Some SelectionGesture) ∧
    ids `sublist_of` omap ui_id (state_nodes (st_adapter s)) ∧
    ∀ i, i ∈ ids ↔ ∃ n, n ∈ state_nodes (st_adapter s) ∧ ui_id n = Some i ∧ touched d p q n.
Proof.
  intros Hw Hh Hs Hr Ho Hb Hbg Hn. cbv zeta. unfold onCanvasMouseDown. rewrite Ho, Hb, Hbg, Hn.
  unfold isReadonlyActive. cbn [useCanvasGestures gs_view]. rewrite Hs, Hr. cbn [N.eqb andb negb].
  set (p := getCanvasPosition v (me_client ev) root). set (g0 := gs_store _ _).
  set (s1 := select s [] []).
  assert (boxing s1 v w p p g0) as H0 by (split; try done; unfold g0, gs_store; simpl; by rewrite Hs).
  pose proof (boxing_moves s1 v w root p p clients g0 Hr H0) as [H1 H2 H3 H4 H5].
  assert (∀ c, getCanvasPosition (with_vs_editor v (Some s1)) c root = getCanvasPosition v c root) as Ec.
  { intros c. unfold getCanvasPosition, getViewport. simpl. by rewrite Hs. }
  rewrite (list_fmap_ext _ (λ c, getCanvasPosition v c root)) in H5 by (intros; apply Ec).
  set (q := default p _) in *. set (g := gesture_moves _ _ _) in *.
  assert (gs_panStart g = None ∧ gs_panInitial g = None) as [P1 P2].
  { clear -g0. unfold g. clear g. assert (gs_panStart g0 = None ∧ gs_panInitial g0 = None) as H by done. revert H.
    generalize g0. clear g0. induction clients as [|c clients IH]; intros g [H1 H2]; [done|]. simpl. apply IH.
    unfold gestures_mouseMove. rewrite H1. destruct (gs_isPanning g), (_ && _), (gs_selectionBox g); done. }
  clearbody g. destruct g as [gv gw gp gsel gb gst gin]. simpl in *. subst.
  set (b := SelectBox _ _ _ _). set (sel := bfilter (box_touches d b) (state_nodes (st_adapter s))).
  exists (omap ui_id sel). split_and!.
  - unfold gestures_mouseUp, completeSelection, isReadonlyActive, gs_nodes. simpl. rewrite Hr.
    change (st_adapter s1) with (st_adapter s). fold sel. destruct sel; done.
  - unfold sel. clear. induction (state_nodes (st_adapter s)) as [|n ns IH]; [done|]. csimpl.
    destruct (box_touches d b n); csimpl; destruct (ui_id n); by try constructor.
  - intros i. rewrite list_elem_of_omap. unfold sel. setoid_rewrite elem_of_bfilter. split.
    + intros (n & [Hin Ht] & Hi). exists n. split_and!; [done|done|]. by apply (box_touches_spec d p q n Hw (Hh n Hin)).
    + intros (n & Hin & Hi & Ht). exists n. split; [split; [done|]|done]. by apply (box_touches_spec d p q n Hw (Hh n Hin)).
Qed.

(** Panning moves what is drawn by what the pointer moved since the button went
    down: the point of the canvas under the pointer stays under it. *)
Lemma pan_follows g root client start initial s :
  vs_editor (gs_view g) = Some s → gs_isPanning g = true →
  gs_panStart g = Some start → gs_panInitial g = Some initial →
  let v := getViewport (gs_view (gestures_mouseMove g root client).1) in
  v = Viewport (pos_x initial + (pos_x client - pos_x start))%Qc (pos_y initial + (pos_y client - pos_y start))%Qc
        (vzoom (getViewport (gs_view g))).
Proof.
  intros Hs H1 H2 H3. unfold gestures_mouseMove. rewrite H1, H2, H3. unfold pan_by. rewrite Hs.
  cbn [fst]. unfold gs_store, getViewport. simpl. by rewrite Hs.
Qed.

(** In widget mode panning has no effect on what is drawn: the gesture writes the
    viewport of the canvas, and the canvas draws that of the viewport hook. *)
Theorem widget_pan_draws_nothing g root client :
  vs_editor (gs_view g) = None →
  getViewport (gs_view (gestures_mouseMove g root client).1) = getViewport (gs_view g).
Proof.
  intros Hs. unfold gestures_mouseMove, pan_by. rewrite Hs.
  repeat case_match; simpl; rewrite ?getViewport_updateViewRect; done.
Qed.

(** ** Examples *)

Lemma estimate_chrome d n : (nodeChromeMinHeight d ≤ estimateNodeHeight n d)%Qc.
Proof. apply num_max_spec. Qed.

Definition a_widget : widget := Widget [] origin 1 false.
Definition left_down : mouse_event := MouseEvent 0 false true false (Position 0 0).

Lemma box_selection_exact_witness :
  ∃ ids, gestures_mouseUp defaultDimensions (gesture_moves (onCanvasMouseDown
      (useCanvasGestures (useViewport (Some selected_demo) None None) a_widget) screen left_down) screen
      [Position (num_of_Z 90) (num_of_Z 90)]) =
    (useCanvasGestures (useViewport (Some (select selected_demo ids [])) None None) a_widget, Some SelectionGesture).
Proof.
  destruct (box_selection_exact defaultDimensions screen (useViewport (Some selected_demo) None None) a_widget
    selected_demo left_down [Position (num_of_Z 90) (num_of_Z 90)]) as (ids & H & _);
    [vm_compute; reflexivity| |reflexivity|vm_compute; reflexivity|reflexivity..|exists ids; exact H].
  intros n _. eapply Qclt_le_trans; [|apply estimate_chrome]. vm_compute. reflexivity.
Defined.

Lemma widget_pan_draws_nothing_witness :
  let g := onCanvasMouseDown (useCanvasGestures (useViewport None None None) a_widget) screen
             (MouseEvent 1 false true false (Position 0 0)) in
  getViewport (gs_view (gestures_mouseMove g screen (Position 1 1)).1) = getViewport (gs_view g).
Proof. intros g. apply (widget_pan_draws_nothing g screen (Position 1 1)). reflexivity. Defined.
