(* ===== verification/CanvasTidy.v ===== *)
(** * Automatic layout of the canvas (components/editor_canvas.js and
    components/editor_canvas/utils/layout.js)

    [tidyUp] asks the layout for a place for every node and moves the nodes
    there in one batch; the entries of the fit menu do that and fit the view.
    Dagre is the parameter it is in [Layout].  The operations work on the
    viewport hook, which holds the store in editor mode. *)

From S2P Require Import Prelude JsMap JsValue JsNumber Connection Node Nodes Editor EditorInv Adapter AdapterInv AdapterEquiv AdapterRun History HistoryTimeline Commands Store StoreInv StoreRun StoreBatch WorkflowCommands Dfs GraphUtils Dagre Layout Dimensions Geometry ViewportHook Drag.

(** [canEdit] in editor mode. *)
Definition canEdit (s : store) : bool := negb (readonly (st_ui s)).

Definition gnode_of_ui (n : ui_node) : gnode :=
  GNode (default "undefined" (ui_id n)) (Some (ui_x n)) (Some (ui_y n)).
Definition gconn_of_ui (c : ui_connection) : gconn :=
  GConn (uc_id c) (uc_source c) (uc_sourceHandle c) "" (uc_target c) (uc_targetHandle c) "".

Section tidy.
Context `{Dagre}.

(** [calculateTidyPositions(nodes, connections, { orientation, ranksep })] *)
Definition calculateTidyPositions (nodes : list ui_node) (conns : list ui_connection)
    (vertical : bool) (ranksep : option num) : outcome (list (string * position)) :=
  match nodes with
  | [] => Ret []
  | _ =>
      let rankdir := if vertical then "TB" else "LR" in
      let layoutOptions := [("rankdir", JStr rankdir)] in
      let layoutOptions := match ranksep with
                           | Some r => oset "ranksep" (JNum (num_max 1%Qc r)) layoutOptions
                           | None => layoutOptions
                           end in
      layoutWithSplitting layoutOptions (fromNodes (gnode_of_ui <$> nodes) (gconn_of_ui <$> conns))
  end.

(** The batch of moves of [tidyUp]. *)
Definition move_to_positions (s : store) (res : list (string * position)) (label : string) : store :=
  let ids := omap ui_id (state_nodes (st_adapter s)) in
  let s := beginBatch s in
  let s := foldl (λ s i, match jget i res with Some p => moveNode s i p | None => s end) s ids in
  endBatch s label.

(** [tidyUp({ orientation, ranksep, label })] *)
Definition tidyUp (s : store) (vertical : bool) (ranksep : option num) (label : option string)
    : store * outcome unit :=
  if negb (canEdit s) then (s, Ret tt)
  else match state_nodes (st_adapter s) with
       | [] => (s, Ret tt)
       | nodes =>
           let label := match label with
                        | Some l => l
                        | None => if vertical then "Tidy up layout (vertical)" else "Tidy up layout"
                        end in
           match calculateTidyPositions nodes (state_connections (st_adapter s)) vertical ranksep with
           | Throw m => (s, Throw m)
           | Ret res => (move_to_positions s res label, Ret tt)
           end
       end.

(** [getAdaptiveFitHeightRanksep()] *)
Definition getAdaptiveFitHeightRanksep (nodes : list ui_node) : num :=
  let nodeCount := length nodes in
  if (nodeCount <=? 6)%nat then num_of_Z 40
  else if (nodeCount <=? 12)%nat then num_of_Z 32
  else if (nodeCount <=? 20)%nat then num_of_Z 24
  else num_of_Z 20.

(** [getFitTopOffsetPx()]; [controls] is the bar of buttons, if it is there. *)
Definition getFitTopOffsetPx (root controls : option rect) : num :=
  match root, controls with
  | Some r, Some c => num_max 0%Qc (r_y c + r_height c - r_y r + num_of_Z 12)%Qc
  | _, _ => 0%Qc
  end.

(** The canvas: the viewport hook and whether the fit menu is open. *)
Record fit_state := FitState { ft_view : vstate; ft_fitMenuOpen : bool }.

Definition closeFitMenu (f : fit_state) : fit_state := FitState (ft_view f) false.

(** [onDocumentMouseDown(ev)]; [inside] tells whether it is in the fit menu. *)
Definition onDocumentMouseDown (f : fit_state) (inside : bool) : fit_state :=
  if negb (ft_fitMenuOpen f) then f else if inside then f else closeFitMenu f.

(** [toggleFitMenu(ev)]; [nodes] and [readonly] are the canvas's, of either mode. *)
Definition toggleFitMenu (f : fit_state) (isReadonly : bool) (nodes : list ui_node) : fit_state :=
  if isReadonly then f
  else match nodes with [] => f | _ => FitState (ft_view f) (negb (ft_fitMenuOpen f)) end.

(** [fitToView(options)] of the canvas. *)
Definition canvas_fitToView (f : fit_state) (nodes : list ui_node) (root controls : option rect) (dims : DimensionConfig)
    (o : fit_options) : fit_state :=
  let f := closeFitMenu f in
  let o := FitOptions (fo_padding o) (fo_mode o)
             (Some (default (getFitTopOffsetPx root controls) (fo_topOffsetPx o))) in
  FitState (fitToView (ft_view f) root (Some dims) nodes o) (ft_fitMenuOpen f).

Definition tidy_and_fit (f : fit_state) (root controls : option rect) (dims : DimensionConfig)
    (vertical : bool) (label : string) : fit_state * outcome unit :=
  match vs_editor (ft_view f) with
  | None => (f, Ret tt)
  | Some s =>
      if negb (canEdit s) then (f, Ret tt)
      else
        let f := closeFitMenu f in
        let ranksep := if vertical then Some (getAdaptiveFitHeightRanksep (state_nodes (st_adapter s))) else None in
        let '(s, r) := tidyUp s vertical ranksep (Some label) in
        let f := FitState (with_vs_editor (ft_view f) (Some s)) (ft_fitMenuOpen f) in
        match r with
        | Throw m => (f, Throw m)
        | Ret _ =>
            let mode := if vertical then CoverHeight else CoverWidth in
            (canvas_fitToView f (state_nodes (st_adapter s)) root controls dims (FitOptions None (Some mode) None), Ret tt)
        end
  end.

Definition fitFullWidth f root controls dims :=
  tidy_and_fit f root controls dims false "Auto layout (horizontal) + fit full width".
Definition fitFullHeight f root controls dims :=
  tidy_and_fit f root controls dims true "Auto layout (vertical) + fit full height".

(** [onFitMenuAction(mode)] *)
Definition onFitMenuAction (f : fit_state) (mode : string) root controls dims :=
  if mode =s "full-height" then fitFullHeight f root controls dims else fitFullWidth f root controls dims.
End tidy.

(** ** Facts *)

Section facts.
Context (reg : odoo_registry) (Hreg : odoo_ok reg).
Notation inv := (adapter_inv reg).

(** The ids of the nodes shown are those of the graph. *)
Lemma ui_ids a : inv a → omap ui_id (state_nodes a) = jkeys (nodes (ad_editor a)).
Proof using Type.
  intros Ha. pose proof (inv_keyed reg a Ha) as Hk. destruct Ha as [_ _ _ [-> _]].
  unfold getNodesForUI, getNodes, jvals, jkeys. revert Hk. generalize (nodes (ad_editor a)). intros ns.
  induction ns as [|[k n] ns IH]; intros Hk; csimpl; [done|].
  apply keyed_cons in Hk as [-> Hk]. by rewrite IH.
Qed.

Lemma gnode_ids a : inv a → gn_id <$> (gnode_of_ui <$> state_nodes a) = jkeys (nodes (ad_editor a)).
Proof using Type.
  intros Ha. rewrite <- (ui_ids a Ha). pose proof (inv_keyed reg a Ha) as Hk. destruct Ha as [_ _ _ [-> _]].
  unfold getNodesForUI, getNodes, jvals. revert Hk. generalize (nodes (ad_editor a)). intros ns.
  induction ns as [|[k n] ns IH]; intros Hk; csimpl; [done|].
  apply keyed_cons in Hk as [Hn Hk]. rewrite IH by done. unfold gnode_of_ui. simpl. by rewrite Hn.
Qed.

Lemma ui_conns_inside a c :
  inv a → c ∈ gconn_of_ui <$> state_connections a →
  gc_source c ∈ jkeys (nodes (ad_editor a)) ∧ gc_target c ∈ jkeys (nodes (ad_editor a)).
Proof using Type.
  intros [_ [[_ _ _ Hc _] _ _] _ [_ ->]]. unfold getConnectionsForUI, getConnections.
  intros (u & -> & Hu)%list_elem_of_fmap. apply list_elem_of_fmap in Hu as (x & -> & Hx). simpl.
  destruct (Hc x Hx) as (_ & _ & s & t & _ & _ & Hs & Ht & _).
  split; apply elem_of_jkeys; eauto.
Qed.

Lemma move_to_positions_edited s res label : idle reg s → edited reg s (move_to_positions s res label).
Proof using Hreg.
  intros Hs. unfold move_to_positions. apply end_collected; [done|].
  eapply (foldl_collected reg _ (λ _ _, True)); [done| |by apply begin_collected|done].
  intros s1 j l Hi _. split; [|done]. apply rtc_once.
  destruct (jget j res); [by apply moveNode_edited|by apply edited_same].
Qed.

Lemma move_to_positions_snap s res label :
  inv (st_adapter s) →
  let s' := move_to_positions s res label in
  snap (st_adapter s') = json_put res <$> snap (st_adapter s) ∧ conns (st_adapter s') = conns (st_adapter s).
Proof using Type.
  intros Hs. simpl. unfold move_to_positions, endBatch. rewrite set_history_adapter.
  destruct (foldl_moveNode reg (λ i, jget i res) (omap ui_id (state_nodes (st_adapter s))) (beginBatch s) Hs)
    as (_ & Hsn & Hcn).
  rewrite Hcn, Hsn. split; [|done]. change (st_adapter (beginBatch s)) with (st_adapter s).
  apply list_fmap_ext. intros _ d Hd%list_elem_of_lookup_2.
  apply (elem_of_snap reg) in Hd as (i & n & Hn & -> & Hid); [|done].
  rewrite (moves_to_spec _ _ _ i Hid). unfold json_put. rewrite Hid. destruct (jget i res); [|done].
  rewrite bool_decide_true; [done|]. rewrite ui_ids by done. apply elem_of_jkeys; eauto.
Qed.
End facts.

(** The graph that is laid out, and the options of the layout. *)
Definition tidy_options (vertical : bool) (ranksep : option num) : jsobj :=
  let layoutOptions := [("rankdir", JStr (if vertical then "TB" else "LR"))] in
  match ranksep with
  | Some r => oset "ranksep" (JNum (num_max 1%Qc r)) layoutOptions
  | None => layoutOptions
  end.

Definition tidy_graph `{Dagre} (a : adapter) : dgraph :=
  fromNodes (gnode_of_ui <$> state_nodes a) (gconn_of_ui <$> state_connections a).

Lemma calculateTidyPositions_spec `{Dagre} `{!DagreLaws} reg a vertical ranksep :
  adapter_inv reg a → state_nodes a ≠ [] →
  ∃ res, calculateTidyPositions (state_nodes a) (state_connections a) vertical ranksep = Ret res ∧
    (∀ i, is_Some (jget i res) ↔ i ∈ jkeys (nodes (ad_editor a))) ∧
    follows_dagre (tidy_options vertical ranksep) (tidy_graph a) res ∧
    ∀ x y cx cy i j p q, g_components (tidy_graph a) !! x = Some cx → g_components (tidy_graph a) !! y = Some cy →
      x ≠ y → i ∈ cx → j ∈ cy → jget i res = Some p → jget j res = Some q →
      apart vertical (node_at p) (node_at q) ∨ apart vertical (node_at q) (node_at p).
Proof.
  intros Ha Hne. unfold calculateTidyPositions.
  destruct (state_nodes a) as [|n ns] eqn:En; [done|]. rewrite <- En.
  fold (tidy_options vertical ranksep). set (o := tidy_options vertical ranksep) in *.
  destruct (layout_places_all o (gnode_of_ui <$> state_nodes a) (gconn_of_ui <$> state_connections a))
    as (res & Hres & Hk & Hf).
  { intros c Hc. rewrite (gnode_ids reg a Ha). by apply (ui_conns_inside reg). }
  exists res. rewrite (gnode_ids reg a Ha) in Hk. split_and!; [done|done|done|].
  intros x y cx cy i j p q Hx Hy Hxy Hi Hj Hp Hq.
  destruct (layout_parts_apart o _ _ x y cx cy i j Hx Hy Hxy Hi Hj) as (res' & p' & q' & E & Ep & Eq & Hap).
  rewrite Hres in E. injection E as <-. rewrite Hp in Ep. injection Ep as <-. rewrite Hq in Eq. injection Eq as <-.
  replace (isVerticalFlow o) with vertical in Hap; [done|]. subst o. unfold tidy_options. by destruct ranksep, vertical.
Qed.

(** ** Properties *)

(** C16: tidying up moves every node to the place that the layout gives it and changes
    nothing else: it returns; the places are those of Dagre, for a workflow in one
    part its layout of the graph, otherwise its layout of each part, moved as a whole
    across the flow so that the nodes of different parts are apart by the spacing with
    their whole rectangles; the connections stay, and one undo puts every node back. *)
Theorem tidy_up_exact `{Dagre} `{!DagreLaws} reg s vertical ranksep label :
  odoo_ok reg → run_ok reg s → canEdit s = true → state_nodes (st_adapter s) ≠ [] →
  let a := st_adapter s in
  let s' := (tidyUp s vertical ranksep label).1 in
  (tidyUp s vertical ranksep label).2 = Ret tt ∧
  ∃ res, calculateTidyPositions (state_nodes a) (state_connections a) vertical ranksep = Ret res ∧
    (∀ i, is_Some (jget i res) ↔ i ∈ jkeys (nodes (ad_editor a))) ∧
    follows_dagre (tidy_options vertical ranksep) (tidy_graph a) res ∧
    snap (st_adapter s') = json_put res <$> snap a ∧ conns (st_adapter s') = conns a ∧
    (∀ x y cx cy i j p q, g_components (tidy_graph a) !! x = Some cx →
      g_components (tidy_graph a) !! y = Some cy → x ≠ y → i ∈ cx → j ∈ cy →
      jget i res = Some p → jget j res = Some q →
      apart vertical (node_at p) (node_at q) ∨ apart vertical (node_at q) (node_at p)) ∧
    undoable reg s s'.
Proof.
  intros Hreg Hok Hc Hne. pose proof (run_ok_idle reg s Hok) as Hs. pose proof Hs as (Hi & _ & _). cbv zeta.
  destruct (calculateTidyPositions_spec reg (st_adapter s) vertical ranksep Hi Hne) as (res & Hres & Hk & Hf & Hap).
  unfold tidyUp. rewrite Hc. cbn [negb]. destruct (state_nodes (st_adapter s)) as [|n ns] eqn:En; [done|].
  rewrite Hres. cbn [fst snd]. split; [done|]. exists res.
  set (l := match label with Some _ => _ | None => _ end).
  destruct (move_to_positions_snap reg s res l Hi) as [H1 H2].
  split_and!; [done..|]. apply edited_undoable; [done|]. by apply move_to_positions_edited.
Qed.

Lemma tidy_up_exact_witness :
  (tidyUp selected_demo true (Some (num_of_Z 40)) None).2 = Ret tt ∧
  ∃ res, snap (st_adapter (tidyUp selected_demo true (Some (num_of_Z 40)) None).1) =
    json_put res <$> snap (st_adapter selected_demo).
Proof.
  destruct (tidy_up_exact builtin_registry selected_demo true (Some (num_of_Z 40)) None builtin_registry_ok
    selected_demo_ok eq_refl) as (H1 & res & _ & _ & _ & H2 & _).
  - vm_compute. discriminate.
  - split; [exact H1|]. exists res. exact H2.
Defined.
