(* ===== verification/CanvasEdit.v ===== *)
(** * Editing on the canvas (components/editor_canvas.js)

    The handlers of the canvas that select, add, connect, insert and delete, in
    editor mode; in widget mode [canEdit] is false and they do nothing.  Two of
    them finish in a timer: [ce_insert] and [ce_connect] are the timers that are
    pending, [insert_timer] and [connect_timer] the moment they fire.  The place
    of an event on the canvas is an argument. *)

From S2P Require Import Prelude JsMap JsValue JsNumber Socket Connection Node Nodes Editor EditorInv Adapter AdapterInv AdapterEquiv AdapterRun History HistoryTimeline Commands Store StoreInv StoreRun StoreBatch WorkflowCommands Dimensions Geometry ViewportHook Drawing Dfs GraphUtils Dagre Layout CanvasTidy Clipboard ClipboardCopy.

(** What [_insertNodeIntoConnection] remembers for its timer. *)
Record insertion := Insertion {
  in_node : string;
  in_conn : ui_connection;
}.

Record canvas_edit := CanvasEdit {
  ce_store : store;
  ce_insert : option (string * jsval * jsval);
  ce_connect : option insertion;
}.

Definition new_canvas_edit (s : store) : canvas_edit := CanvasEdit s None None.
Definition with_ce_store (c : canvas_edit) (s : store) : canvas_edit := CanvasEdit s (ce_insert c) (ce_connect c).

Section handlers.
Context (reg : odoo_registry) (dims : DimensionConfig).

(** [clearSelection()] *)
Definition clearSelection (s : store) : store := if canEdit s then select s [] [] else s.

(** [onCanvasClick(ev)] *)
Definition onCanvasClick (s : store) (justCompletedSelection onBackground : bool) : store :=
  if justCompletedSelection then s else if onBackground then clearSelection s else s.

(** [onDrop(ev)]; [type] is the data of the drag, empty when it is another one. *)
Definition onDrop (s : store) (type : string) (pos : position) : store :=
  if negb (canEdit s) then s
  else if type =s "" then s
  else (addNode reg s type (Position (num_of_Z (num_round (pos_x pos))) (num_of_Z (num_round (pos_y pos))))).1.

(** [onNodeSelect(node, event)]; [ctrl] is whether Ctrl or Meta is held. *)
Definition onNodeSelect (s : store) (nodeId : string) (ctrl : bool) : store :=
  if negb (canEdit s) then s
  else
    let currentSelection := (selection (st_ui s)).1 in
    if ctrl then
      if bool_decide (nodeId ∈ currentSelection)
      then select s (bfilter (λ i, negb (i =s nodeId)) currentSelection) []
      else select s (currentSelection ++ [nodeId]) []
    else select s [nodeId] [].

Definition onConnectionSelect (s : store) (connId : string) : store :=
  if negb (canEdit s) then s else select s [] [connId].

(** [isInExecutionView] *)
Definition isInExecutionView (s : store) : bool := (ui_executionView (st_ui s)).1.

Definition shown_node (s : store) (nodeId : string) : option ui_node :=
  find_first (λ n, bool_decide (ui_id n = Some nodeId)) (state_nodes (st_adapter s)).

(** [onNodeOpenConfig(nodeId)], and with it [onNodeDoubleClick] and [onNodeExecute]. *)
Definition onNodeOpenConfig (s : store) (nodeId : string) : store :=
  if negb (canEdit s) && negb (isInExecutionView s) then s
  else match shown_node s nodeId with
       | None => s
       | Some _ => openPanel s "config" (Some nodeId)
       end.

Definition onNodeDoubleClick (s : store) (nodeId : string) : store :=
  if negb (canEdit s) && negb (isInExecutionView s) then s else onNodeOpenConfig s nodeId.

Definition onNodeExecute (s : store) (nodeId : string) : store :=
  if negb (canEdit s) then s
  else match shown_node s nodeId with
       | None => s
       | Some _ => openPanel s "config" (Some nodeId)
       end.

(** The pairs [onNodeDelete] connects: every way into the node with every way
    out, except back to where it came from. *)
Definition bridge_pairs (incoming outgoing : list ui_connection) : list (ui_connection * ui_connection) :=
  inc ← incoming; (λ out, (inc, out)) <$> bfilter (λ out, negb (uc_source inc =s uc_target out)) outgoing.

Definition bridge (s : store) (p : ui_connection * ui_connection) : store :=
  (addConnection s (uc_source p.1) (uc_sourceHandle p.1) (uc_target p.2) (uc_targetHandle p.2)).1.

(** [onNodeDelete(nodeId)] *)
Definition onNodeDelete (s : store) (nodeId : string) : store :=
  if negb (canEdit s) then s
  else
    let connections := state_connections (st_adapter s) in
    let incoming := bfilter (λ c, uc_target c =s nodeId) connections in
    let outgoing := bfilter (λ c, uc_source c =s nodeId) connections in
    let s := (removeNode reg s nodeId).1 in
    let current := (selection (st_ui s)).1 in
    let s := if bool_decide (nodeId ∈ current)
             then select s (bfilter (λ i, negb (i =s nodeId)) current) [] else s in
    foldl bridge s (bridge_pairs incoming outgoing).

Definition onNodeToggleDisable (s : store) (nodeId : string) : store * list effect :=
  if negb (canEdit s) then (s, []) else toggleDisable s nodeId.

(** [onCanvasContextMenu(ev)] *)
Definition onCanvasContextMenu (s : store) (onBackground : bool) (client : position) (root : rect) : store :=
  if negb (canEdit s) then s
  else if negb onBackground then s
  else
    let canvasPos := screenToCanvas client root (Viewport (pos_x (pan (st_ui s))) (pos_y (pan (st_ui s))) (zoom (st_ui s))) in
    openNodeMenu s (pos_x client - r_x root)%Qc (pos_y client - r_y root)%Qc (pos_x canvasPos) (pos_y canvasPos)
      (Some "default") (Some JNull).

(** [onAddNodeClick(ev)]; [btn] is the rectangle of the button. *)
Definition onAddNodeClick (s : store) (root btn : rect) : store :=
  if negb (canEdit s) then s
  else
    let x := (r_x btn - r_x root)%Qc in
    let y := (r_y btn + r_height btn - r_y root + num_of_Z 8)%Qc in
    let middle := Position (r_x root + half (r_width root))%Qc (r_y root + half (r_height root))%Qc in
    let canvasPos := screenToCanvas middle root (Viewport (pos_x (pan (st_ui s))) (pos_y (pan (st_ui s))) (zoom (st_ui s))) in
    openNodeMenu s x y (pos_x canvasPos) (pos_y canvasPos) (Some "large") (Some JNull).

Definition quick_add_context (nodeId socketKey : string) : jsval :=
  JObj [("type", JStr "quickAdd"); ("sourceNodeId", JStr nodeId); ("sourceSocketKey", JStr socketKey)].

(** [onSocketQuickAdd({ nodeId, socketKey })] *)
Definition onSocketQuickAdd (s : store) (nodeId socketKey : string) : store :=
  if negb (canEdit s) then s
  else match shown_node s nodeId with
       | None => s
       | Some node =>
           let socketPos := getSocketPosition dims node socketKey OutputSocket in
           let screenPos := canvasToScreen (pos_x socketPos) (pos_y socketPos)
             (Viewport (pos_x (pan (st_ui s))) (pos_y (pan (st_ui s))) (zoom (st_ui s))) in
           openNodeMenu s (pos_x screenPos + num_of_Z 30)%Qc (pos_y screenPos - num_of_Z 100)%Qc
             (pos_x socketPos + num_of_Z 150)%Qc (pos_y socketPos - num_of_Z 20)%Qc (Some "default")
             (Some (quick_add_context nodeId socketKey))
       end.

(** [_insertNodeIntoConnection(nodeType, { connectionId, position })] up to its timer. *)
Definition insertNodeIntoConnection (c : canvas_edit) (nodeType connectionId : string) (pos : position)
    : canvas_edit :=
  let s := ce_store c in
  if negb (canEdit s) then c
  else match find_first (λ x, uc_id x =s connectionId) (state_connections (st_adapter s)) with
       | None => c
       | Some conn =>
           match addNode reg s nodeType pos with
           | (s, None) => with_ce_store c s
           | (s, Some newNodeId) =>
               let s := (removeConnection s connectionId).1 in
               CanvasEdit s (ce_insert c) (Some (Insertion newNodeId conn))
           end
       end.

(** [Object.keys(sockets)[0]]; an empty key counts as none. *)
Definition first_key {A} (l : list (string * A)) : option string :=
  match jkeys l with
  | k :: _ => if k =s "" then None else Some k
  | [] => None
  end.

(** The timer of [_insertNodeIntoConnection]. *)
Definition connect_timer (c : canvas_edit) : canvas_edit :=
  match ce_connect c with
  | None => c
  | Some i =>
      let c := CanvasEdit (ce_store c) (ce_insert c) None in
      let s := ce_store c in
      match shown_node s (in_node i) with
      | None => c
      | Some newNode =>
          match first_key (ui_inputs newNode) with
          | None => c
          | Some newNodeInputKey =>
              let conn := in_conn i in
              let s := (addConnection s (uc_source conn) (uc_sourceHandle conn) (in_node i) newNodeInputKey).1 in
              let s := match first_key (ui_outputs newNode) with
                       | Some newNodeOutputKey =>
                           (addConnection s (in_node i) newNodeOutputKey (uc_target conn) (uc_targetHandle conn)).1
                       | None => s
                       end in
              with_ce_store c s
          end
      end
  end.

(** [onNodeMenuSelect(nodeType, connectionContext)] *)
Definition onNodeMenuSelect (c : canvas_edit) (nodeType : string) (context : jsval) : canvas_edit :=
  let s := ce_store c in
  if negb (canEdit s) then c
  else
    let m := nodeMenu (st_ui s) in
    let position := Position (nm_canvasX m - half (nodeWidth dims))%Qc (nm_canvasY m) in
    let type := prop context "type" in
    if truthy context && (strict_eq type (JStr "quickAdd") || strict_eq type (JStr "dragConnect")) then
      match addNode reg s nodeType position with
      | (s, Some newNodeId) =>
          CanvasEdit s (Some (newNodeId, prop context "sourceNodeId", prop context "sourceSocketKey")) (ce_connect c)
      | (s, None) => with_ce_store c s
      end
    else if truthy context && truthy (prop context "connectionId") then
      match prop context "connectionId" with
      | JStr connectionId => insertNodeIntoConnection c nodeType connectionId position
      | _ => c
      end
    else with_ce_store c (addNode reg s nodeType position).1.

(** Its timer: the new node is connected to the socket the menu was opened from. *)
Definition insert_timer (c : canvas_edit) : canvas_edit :=
  match ce_insert c with
  | None => c
  | Some (newNodeId, sourceNodeId, sourceSocketKey) =>
      let c := CanvasEdit (ce_store c) None (ce_connect c) in
      match shown_node (ce_store c) newNodeId with
      | None => c
      | Some newNode =>
          match first_key (ui_inputs newNode), sourceNodeId, sourceSocketKey with
          | Some firstInputKey, JStr src, JStr sh =>
              with_ce_store c (addConnection (ce_store c) src sh newNodeId firstInputKey).1
          | _, _, _ => c
          end
      end
  end.

(** [onNodeMenuClose()] *)
Definition onNodeMenuClose (w : drawing) : drawing :=
  if negb (canEdit (dw_store w)) then w
  else let w := cancelConnection w in on_drawing_store w (closeNodeMenu (dw_store w)).

(** [removeConnectionById(connectionId)] *)
Definition removeConnectionById (s : store) (connectionId : string) : store :=
  if negb (canEdit s) then s
  else setHoveredConnection (removeConnection s connectionId).1 None None None.

(** [onConfigPanelClose()] and [onConfigPanelSave(values)]; the dialog is in
    [CanvasHover]. *)
Definition onConfigPanelClose (s : store) : store :=
  if negb (canEdit s) && negb (isInExecutionView s) then s else closePanel s "config".

Definition onConfigPanelSave (s : store) : store * list effect :=
  if negb (canEdit s) then (s, [])
  else match configNodeId (panels (st_ui s)) with
       | None => (s, [])
       | Some nodeId =>
           if nodeId =s "" then (s, [])
           else (onConfigPanelClose s, if autoSave s then [Trigger "save" JUndef] else [])
       end.

Definition onUndo (s : store) : store * outcome unit * list effect :=
  if negb (canEdit s) then (s, Ret tt, [])
  else let '(s, r, es) := undo s in (s, r ≫= (λ _, Ret tt), es).
Definition onRedo (s : store) : store * outcome unit * list effect :=
  if negb (canEdit s) then (s, Ret tt, [])
  else let '(s, r, es) := redo s in (s, r ≫= (λ _, Ret tt), es).
End handlers.

(** ** Adding connections *)

Section facts.
Context (reg : odoo_registry) (Hreg : odoo_ok reg).
Notation inv := (adapter_inv reg).
Implicit Types (s : store).

Lemma store_addConnection_adapter s src sh tgt th :
  st_adapter (addConnection s src sh tgt th).1 = (Adapter.addConnection (st_adapter s) src sh tgt th).1.
Proof using Type.
  unfold addConnection. rewrite on_adapter_spec. destruct (Adapter.addConnection _ _ _ _ _) as [b [x|]]; simpl;
    by rewrite ?record_adapter.
Qed.

(** A connection that fits and is new is appended; any other changes nothing. *)
Lemma store_addConnection_cases s src sh tgt th :
  inv (st_adapter s) →
  let s' := (addConnection s src sh tgt th).1 in
  inv (st_adapter s') ∧ snap (st_adapter s') = snap (st_adapter s) ∧
  ((acceptable reg (snap (st_adapter s)) (conns (st_adapter s)) src sh tgt th ∧
    conns (st_adapter s') = conns (st_adapter s) ++ [new_connection src sh tgt th]) ∨
   (¬ acceptable reg (snap (st_adapter s)) (conns (st_adapter s)) src sh tgt th ∧
    conns (st_adapter s') = conns (st_adapter s))).
Proof using Hreg.
  intros Hs s'. assert (inv (st_adapter s')) as Hi by apply (addConnection_edited reg Hreg s src sh tgt th Hs).
  split; [done|]. subst s'. rewrite store_addConnection_adapter in *.
  destruct (Editor.addConnection (ad_editor (st_adapter s)) src sh tgt th) as [[e [c|]] tr] eqn:E.
  - pose proof E as (-> & _ & Hok & Hnew & _)%addConnection_Some.
    assert (acceptable reg (snap (st_adapter s)) (conns (st_adapter s)) src sh tgt th) as Ha.
    { split; [|done]. by apply (conn_ok_fits reg Hreg (st_adapter s) (new_connection src sh tgt th) Hs). }
    destruct (snap_addConnection reg Hreg (st_adapter s) src sh tgt th Hs Ha) as [H1 H2]. split; [done|by left].
  - assert ((Adapter.addConnection (st_adapter s) src sh tgt th).1 = st_adapter s) as Ea.
    { unfold Adapter.addConnection. rewrite E. apply addConnection_None in E as [-> ->]. by destruct (st_adapter s). }
    rewrite Ea. split; [done|]. right. split; [|done]. intros Ha.
    destruct (snap_addConnection reg Hreg (st_adapter s) src sh tgt th Hs Ha) as [_ H2]. rewrite Ea in H2.
    apply (f_equal length) in H2. rewrite length_app in H2. simpl in H2. lia.
Qed.

Definition bridge_conn (p : ui_connection * ui_connection) : connection :=
  new_connection (uc_source p.1) (uc_sourceHandle p.1) (uc_target p.2) (uc_targetHandle p.2).

Lemma foldl_bridge ps s :
  inv (st_adapter s) →
  let s' := foldl bridge s ps in
  inv (st_adapter s') ∧ snap (st_adapter s') = snap (st_adapter s) ∧
  ∃ added, conns (st_adapter s') = conns (st_adapter s) ++ added ∧
    (∀ c, c ∈ added → ∃ p, p ∈ ps ∧ c = bridge_conn p) ∧
    ∀ p, p ∈ ps → let c := bridge_conn p in
      fits reg (snap (st_adapter s)) (source c) (sourceHandle c) (target c) (targetHandle c) →
      conn_id c ∈ conn_id <$> conns (st_adapter s').
Proof using Hreg.
  simpl. revert s. induction ps as [|p ps IH]; intros s Hs; simpl.
  { split_and!; [done|done|]. exists []. rewrite app_nil_r. split_and!; [done|set_solver|set_solver]. }
  destruct (store_addConnection_cases s (uc_source p.1) (uc_sourceHandle p.1) (uc_target p.2) (uc_targetHandle p.2) Hs)
    as (Hi & Hsn & Hc). change (addConnection _ _ _ _ _).1 with (bridge s p) in Hi, Hsn, Hc.
  destruct (IH (bridge s p) Hi) as (H1 & H2 & added & H3 & H4 & H5). rewrite Hsn in *.
  split_and!; [done|done|]. assert (∀ x, x ∈ conns (st_adapter (bridge s p)) →
    conn_id x ∈ conn_id <$> conns (st_adapter (foldl bridge (bridge s p) ps))) as Hkeep.
  { intros x Hx. rewrite H3, fmap_app. apply elem_of_app. left. by apply list_elem_of_fmap_2. }
  destruct Hc as [[Hacc Hc]|[Hno Hc]].
  - exists (bridge_conn p :: added). split_and!; [by rewrite H3, Hc, <- app_assoc| |].
    + intros c [->|Hc']%elem_of_cons; [exists p; set_solver|]. destruct (H4 c Hc') as (q & ? & ?). exists q. set_solver.
    + intros q [->|Hq]%elem_of_cons Hf; [|by apply H5]. apply (Hkeep (bridge_conn p)). rewrite Hc. set_solver.
  - exists added. split_and!; [by rewrite H3, Hc| |].
    + intros c Hc'. destruct (H4 c Hc') as (q & ? & ?). exists q. set_solver.
    + intros q [->|Hq]%elem_of_cons Hf; [|by apply H5].
      destruct (decide (conn_id (bridge_conn p) ∈ conn_id <$> conns (st_adapter s))) as [Hin|Hnin].
      * apply list_elem_of_fmap in Hin as (x & Ex & Hx). simpl in Ex. rewrite Ex. apply Hkeep. by rewrite Hc.
      * exfalso. apply Hno. by split.
Qed.
(** ** Adding a node that is not a loop *)

(** The new instance of a class. *)
Definition placed_at (cls : node_class) (i : string) (pos : position) : node :=
  with_position (with_id (nc_new cls) (Some i)) pos.

Lemma store_addNode_exact s type pos cls :
  inv (st_adapter s) → type ≠ "loop" → getNodeClass reg type = Some cls →
  ∃ i s', addNode reg s type pos = (s', Some i) ∧ inv (st_adapter s') ∧
    nodes (ad_editor (st_adapter s')) = nodes (ad_editor (st_adapter s)) ++ [(i, placed_at cls i pos)] ∧
    snap (st_adapter s') = snap (st_adapter s) ++ [node_toJSON (placed_at cls i pos)] ∧
    conns (st_adapter s') = conns (st_adapter s) ∧
    jget i (nodes (ad_editor (st_adapter s))) = None ∧ lacks ":" i = true.
Proof using Hreg.
  intros Hs Hl Hc.
  destruct (addNode_nodes reg Hreg (st_adapter s) type pos cls Hs Hc) as (H1 & Hnew & H2 & H3).
  pose proof (addNode_inv reg Hreg (st_adapter s) type pos Hs) as Hinv.
  set (i := fresh_id _) in *. exists i. unfold addNode. rewrite on_adapter_spec, H1, (bool_decide_false (type = "loop")) by done.
  eexists. split; [done|]. unfold add_and_record. rewrite record_adapter. cbn [st_adapter clearExecution with_progress with_adapter].
  split_and!; [done|done| |done|done|apply fresh_id_lacks]. unfold snap, getNodes, jvals. by rewrite H2, !fmap_app.
Qed.

Lemma store_removeConnection_exact s c :
  inv (st_adapter s) → c ∈ conns (st_adapter s) →
  let s' := (removeConnection s (conn_id c)).1 in
  inv (st_adapter s') ∧ nodes (ad_editor (st_adapter s')) = nodes (ad_editor (st_adapter s)) ∧
  snap (st_adapter s') = snap (st_adapter s) ∧
  conns (st_adapter s') = bfilter (λ x, negb (conn_id x =s conn_id c)) (conns (st_adapter s)).
Proof using Type.
  intros Hs Hin. simpl. unfold removeConnection, getConnection. rewrite (ui_connection_lookup reg) by done.
  destruct (find_first _ (conns (st_adapter s))) as [x|] eqn:E.
  - simpl. rewrite record_adapter, on_adapter_spec. simpl.
    destruct (snap_removeConnection reg (st_adapter s) (conn_id c) Hs) as [H1 H2].
    split_and!; [by apply removeConnection_inv| |done|done].
    unfold Adapter.removeConnection, Editor.removeConnection. destruct (find_first _ _); simpl;
      by rewrite ?handlers_editor.
  - rewrite find_first_None in E. specialize (E c Hin). bsimpl. done.
Qed.

Lemma shown_connection s c :
  inv (st_adapter s) → c ∈ conns (st_adapter s) →
  find_first (λ x, uc_id x =s conn_id c) (state_connections (st_adapter s)) = Some (connection_to_ui c).
Proof using Type.
  intros Hs Hin. rewrite (ui_connection_lookup reg) by done. destruct Hs as [_ [[_ _ _ _ Hnd] _ _] _ _].
  unfold conns in *. revert Hin Hnd. generalize (connections (ad_editor (st_adapter s))). intros cs.
  induction cs as [|x cs IH]; intros Hin Hnd; [by apply elem_of_nil in Hin|]. csimpl.
  apply NoDup_cons in Hnd as [Hx Hnd]. apply elem_of_cons in Hin as [->|Hin]; [by rewrite bool_decide_true|].
  rewrite bool_decide_false; [by apply IH|]. intros E. apply Hx. rewrite E. by apply list_elem_of_fmap_2.
Qed.

(** No connection has the id of one at a new node. *)
Lemma id_of_new_node a i x :
  inv a → x ∈ conns a → jget i (nodes (ad_editor a)) = None → lacks ":" i = true →
  tame x → lacks ":" (target x) = true →
  (∀ h t k, conn_id x ≠ generateId i h t k) ∧
  ∀ src h k, lacks ":" src = true → lacks "=" h = true → conn_id x ≠ generateId src h i k.
Proof using Type.
  intros [_ [[_ _ _ Hok _] _ _] _ _] Hx Hi Hl [Hs Hh] Ht.
  destruct (Hok x Hx) as (-> & _ & sn & tn & _ & _ & H1 & H2 & _). split.
  - intros h t k E. rewrite !generateId_cons in E. apply (f_equal (cut_at ":")) in E.
    rewrite !cut_at_app in E by done. injection E as E _. congruence.
  - intros s h k H3 H4 E. apply generateId_inj in E as (_ & _ & E & _); try done. congruence.
Qed.

(** The first keys of the sockets of a new instance. *)
Lemma shown_new_node s i cls pos ns :
  inv (st_adapter s) → nodes (ad_editor (st_adapter s)) = ns ++ [(i, placed_at cls i pos)] → jget i ns = None →
  shown_node s i = Some (node_to_ui (placed_at cls i pos)).
Proof using Type.
  intros Hs Hn Hi. unfold shown_node. rewrite (ui_lookup reg) by done. rewrite Hn, jget_app, Hi. simpl.
  by rewrite bool_decide_true.
Qed.
End facts.

(** ** Properties *)

(** C9: Deleting a node on the canvas removes it with its connections and bridges
    the gap: every connection that was not at the node stays, in order; what is
    added goes from where a connection came in to where one went out; and every
    such pair of different nodes whose sockets fit is connected afterwards. *)
Theorem delete_bridges_gap reg s i :
  odoo_ok reg → run_ok reg s → canEdit s = true →
  let s' := onNodeDelete reg s i in
  snap (st_adapter s') = bfilter (λ d, negb (has_id i d)) (snap (st_adapter s)) ∧
  ∃ added, conns (st_adapter s') = bfilter (λ c, negb (involvesNode c i)) (conns (st_adapter s)) ++ added ∧
    (∀ c, c ∈ added → ∃ inc out, inc ∈ conns (st_adapter s) ∧ out ∈ conns (st_adapter s) ∧
       target inc = i ∧ source out = i ∧ source c ≠ target c ∧
       c = new_connection (source inc) (sourceHandle inc) (target out) (targetHandle out)) ∧
    ∀ inc out, inc ∈ conns (st_adapter s) → out ∈ conns (st_adapter s) → target inc = i → source out = i →
      fits reg (snap (st_adapter s')) (source inc) (sourceHandle inc) (target out) (targetHandle out) →
      generateId (source inc) (sourceHandle inc) (target out) (targetHandle out) ∈ conn_id <$> conns (st_adapter s').
Proof.
  intros Hreg Hok Hc. pose proof (run_ok_idle reg s Hok) as (Hi & _ & _). unfold onNodeDelete. rewrite Hc. cbn [negb].
  pose proof Hi as [_ _ _ [_ ->]]. unfold getConnectionsForUI, getConnections. fold (conns (st_adapter s)).
  set (ps := bridge_pairs _ _).
  assert (∀ p, p ∈ ps ↔ ∃ inc out, inc ∈ conns (st_adapter s) ∧ out ∈ conns (st_adapter s) ∧ target inc = i ∧
    source out = i ∧ source inc ≠ target out ∧ p = (connection_to_ui inc, connection_to_ui out)) as Hps.
  { intros p. unfold ps, bridge_pairs. rewrite list_elem_of_bind. setoid_rewrite elem_of_bfilter. split.
    - intros (u & Hp & (inc & -> & Hinc)%list_elem_of_fmap & Ht). apply list_elem_of_fmap in Hp as (o & -> & Ho).
      rewrite !elem_of_bfilter in Ho. destruct Ho as [[(out & -> & Hout)%list_elem_of_fmap Hs] Hne]. bsimpl.
      exists inc, out. done.
    - intros (inc & out & Hinc & Hout & Ht & Hs & Hne & ->). exists (connection_to_ui inc). split_and!.
      + apply list_elem_of_fmap. exists (connection_to_ui out). split; [done|]. rewrite !elem_of_bfilter.
        simpl. rewrite (bool_decide_true (source out = i)), bool_decide_false by done. split_and!; [|done|done].
        by apply list_elem_of_fmap_2.
      + by apply list_elem_of_fmap_2.
      + simpl. by apply bool_decide_eq_true. }
  clearbody ps. set (s1 := if bool_decide _ then _ else _).
  assert (st_adapter s1 = st_adapter (removeNode reg s i).1) as E1 by (subst s1; by case_bool_decide).
  destruct (store_removeNode_snap reg s i Hi) as [Hsn Hcn].
  assert (adapter_inv reg (st_adapter s1)) as Hi1.
  { rewrite E1. destruct (store_removeNode_adapter reg s i Hi) as [->|[-> _]]; [by apply removeNode_inv|done]. }
  clearbody s1. destruct (foldl_bridge reg Hreg ps s1 Hi1) as (_ & H2 & added & H3 & H4 & H5). rewrite E1 in *.
  rewrite H2, H3, Hsn, Hcn. split; [done|]. exists added. split_and!; [done| |].
  - intros c Hc'. destruct (H4 c Hc') as (p & Hp & ->). apply Hps in Hp as (inc & out & ? & ? & ? & ? & ? & ->).
    exists inc, out. split_and!; done.
  - intros inc out Hinc Hout Ht Hs Hf. rewrite <- Hcn, <- H3.
    apply (H5 (connection_to_ui inc, connection_to_ui out)).
    + apply Hps. exists inc, out. split_and!; try done. apply Hf.
    + by rewrite Hsn.
Qed.

(** One half of a connection that was cut: it is there exactly if it fits. *)
Definition half_made (reg : odoo_registry) (ns : list node_json) (src sh tgt th : string) (cs : list connection) : Prop :=
  (fits reg ns src sh tgt th ∧ cs = [new_connection src sh tgt th]) ∨ (¬ fits reg ns src sh tgt th ∧ cs = []).

Lemma store_addConnection_half reg s src sh tgt th :
  odoo_ok reg → adapter_inv reg (st_adapter s) →
  (∀ x, x ∈ conns (st_adapter s) → conn_id x ≠ generateId src sh tgt th) →
  let s' := (addConnection s src sh tgt th).1 in
  adapter_inv reg (st_adapter s') ∧ snap (st_adapter s') = snap (st_adapter s) ∧
  ∃ cs, conns (st_adapter s') = conns (st_adapter s) ++ cs ∧ half_made reg (snap (st_adapter s)) src sh tgt th cs.
Proof.
  intros Hreg Hi Hnew. destruct (store_addConnection_cases reg Hreg s src sh tgt th Hi) as (? & ? & Hc).
  split; [done|]. split; [done|]. destruct Hc as [[[Hf _] Hc]|[Hno Hc]].
  - eexists. split; [exact Hc|]. by left.
  - exists []. rewrite app_nil_r. split; [done|]. right. split; [|done]. intros Hf. apply Hno. split; [done|].
    intros (x & E & Hx)%list_elem_of_fmap. by apply (Hnew x Hx).
Qed.

(** The ids of the two halves are new. *)
Lemma inserted_ids reg s c i ki x :
  adapter_inv reg (st_adapter s) → (∀ x, x ∈ conns (st_adapter s) → tame x ∧ lacks ":" (target x) = true) →
  c ∈ conns (st_adapter s) → jget i (nodes (ad_editor (st_adapter s))) = None → lacks ":" i = true →
  (x ∈ conns (st_adapter s) → conn_id x ≠ generateId (source c) (sourceHandle c) i ki) ∧
  ∀ h t k, x ∈ conns (st_adapter s) ∨ x = new_connection (source c) (sourceHandle c) i ki →
    conn_id x ≠ generateId i h t k.
Proof.
  intros Hi Htame Hin Hf Hla. destruct (Htame c Hin) as [[Ht1 Ht2] _].
  assert (x ∈ conns (st_adapter s) → (∀ h t k, conn_id x ≠ generateId i h t k) ∧
    conn_id x ≠ generateId (source c) (sourceHandle c) i ki) as Hold.
  { intros Hx. destruct (Htame x Hx). destruct (id_of_new_node reg (st_adapter s) i x) as [H1 H2]; [done..|].
    split; [exact H1|by apply H2]. }
  split; [apply Hold|].
  - intros h t k [Hx| ->]; [by apply Hold|].
    cbn [conn_id new_connection]. rewrite !generateId_cons. intros E. apply (f_equal (cut_at ":")) in E.
    rewrite !cut_at_app in E by done. injection E as E _. pose proof Hi as [_ [[_ _ _ Hcok _] _ _] _ _].
    destruct (Hcok c Hin) as (_ & _ & sn & _ & _ & _ & Hsn & _). congruence.
Qed.


(** A node without inputs inserted into a connection disconnects the workflow:
    the connection is removed before the inputs of the new node are looked at. *)
Theorem insert_trigger_cuts_workflow :
  let context := JObj [("connectionId", JStr "n_1:output=>n_2:data")] in
  let c := connect_timer (onNodeMenuSelect builtin_registry defaultDimensions (new_canvas_edit store_demo)
             "manual_trigger" context) in
  length (conns (st_adapter store_demo)) = 1%nat ∧ conns (st_adapter (ce_store c)) = [].
Proof. vm_compute. split; reflexivity. Qed.

(** ** Examples *)

Lemma store_demo_ok : run_ok builtin_registry store_demo.
Proof. apply store_run_ok; [apply builtin_registry_ok|apply store_demo_run]. Qed.

Lemma delete_bridges_gap_witness :
  snap (st_adapter (onNodeDelete builtin_registry store_demo "n_2")) =
  bfilter (λ d, negb (has_id "n_2" d)) (snap (st_adapter store_demo)).
Proof.
  exact (proj1 (delete_bridges_gap builtin_registry store_demo "n_2" builtin_registry_ok store_demo_ok eq_refl)).
Defined.

Lemma demo_tame x : x ∈ conns (st_adapter store_demo) → tame x ∧ lacks ":" (target x) = true.
Proof.
  assert (Forall (λ x, tame x ∧ lacks ":" (target x) = true) (conns (st_adapter store_demo))) as H
    by (vm_compute; repeat constructor). rewrite Forall_forall in H. apply H.
Qed.

