(* ===== verification/CanvasInput.v ===== *)
(** * Mouse input of the canvas (components/editor_canvas.js)

    The canvas gets the mouse events of the document and hands them to the hooks
    for gestures, dragging and drawing, in this order, over one viewport and one
    store.  Moves wait for an animation frame, [mouse_frame]; the moment after
    a completed selection in which a click must not clear it ends with the timer
    [selection_timer]. *)

From S2P Require Import Prelude JsMap JsValue JsNumber Connection Node Nodes Editor EditorInv Adapter AdapterInv AdapterEquiv AdapterRun History HistoryTimeline Commands Store StoreInv StoreRun StoreBatch WorkflowCommands Dimensions Geometry ViewportHook Drag Drawing Gestures.

Record canvas := Canvas {
  cv_gestures : gestures;
  cv_drag : drag;
  cv_drawing : drawing;
  cv_mouseMoveFrame : option position;
  cv_justCompletedSelection : bool;
}.

Definition with_gestures (c : canvas) (g : gestures) : canvas :=
  Canvas g (cv_drag c) (cv_drawing c) (cv_mouseMoveFrame c) (cv_justCompletedSelection c).
Definition with_frame (c : canvas) (f : option position) : canvas :=
  Canvas (cv_gestures c) (cv_drag c) (cv_drawing c) f (cv_justCompletedSelection c).
Definition with_completed (c : canvas) (b : bool) : canvas :=
  Canvas (cv_gestures c) (cv_drag c) (cv_drawing c) (cv_mouseMoveFrame c) b.

Definition cv_view (c : canvas) : vstate := gs_view (cv_gestures c).
Definition cv_editor (c : canvas) : option store := vs_editor (cv_view c).

(** The drag hook over the canvas's viewport and store, and its state put back. *)
Definition drag_in (c : canvas) : drag := with_view (cv_drag c) (cv_view c).
Definition drag_out (c : canvas) (g : drag) : canvas :=
  Canvas (with_gs_view (cv_gestures c) (dg_view g)) g (cv_drawing c) (cv_mouseMoveFrame c) (cv_justCompletedSelection c).

(** The same for the drawing hook; there is a store in editor mode only. *)
Definition drawing_in (c : canvas) (s : store) : drawing := on_drawing_store (cv_drawing c) s.
Definition drawing_out (c : canvas) (w : drawing) : canvas :=
  Canvas (with_gs_view (cv_gestures c) (with_vs_editor (cv_view c) (Some (dw_store w)))) (cv_drag c) w
    (cv_mouseMoveFrame c) (cv_justCompletedSelection c).

(** [setup()]: the canvas over a store, or over the data of a widget. *)
Definition new_canvas (editor : option store) (w : widget) (blank : store) : canvas :=
  let v := useViewport editor None None in
  Canvas (useCanvasGestures v w) (useMultiNodeDrag v) (useConnectionDrawing (default blank editor)) None false.

(** [isReadonly] *)
Definition isReadonly (c : canvas) : bool := isReadonlyActive (cv_gestures c).

Section handlers.
Context (dims : DimensionConfig) (root : rect).

(** [onCanvasMouseDown(ev)]; the toolbar it dismisses is in [CanvasHover]. *)
Definition canvas_mouseDown (c : canvas) (ev : mouse_event) : canvas :=
  with_gestures c (onCanvasMouseDown (cv_gestures c) root ev).

(** The callbacks given to the nodes, when the canvas can be edited. *)
Definition node_dragStart (c : canvas) (nodeId : string) (client : position) : canvas :=
  match cv_editor c with
  | Some s => if readonly (st_ui s) then c else drag_out c (onNodeDragStart (drag_in c) nodeId client)
  | None => c
  end.

Definition socket_mouseDown (c : canvas) (d : socket_ref) (client : position) : canvas :=
  match cv_editor c with
  | Some s =>
      if readonly (st_ui s) then c
      else drawing_out c (onSocketMouseDown (drawing_in c s) d (getCanvasPosition (cv_view c) client root))
  | None => c
  end.

Definition socket_mouseUp (c : canvas) (d : socket_ref) : canvas :=
  match cv_editor c with
  | Some s => if readonly (st_ui s) then c else drawing_out c (onSocketMouseUp (drawing_in c s) d)
  | None => c
  end.

(** [onDocumentMouseMove(ev)] *)
Definition onDocumentMouseMove (c : canvas) (client : position) : canvas :=
  if isReadonly c then c
  else match cv_mouseMoveFrame c with
       | Some _ => c
       | None => with_frame c (Some client)
       end.

(** Its animation frame. *)
Definition mouse_frame (c : canvas) : canvas :=
  match cv_mouseMoveFrame c with
  | None => c
  | Some client =>
      let c := with_frame c None in
      match gestures_mouseMove (cv_gestures c) root client with
      | (g, true) => with_gestures c g
      | (_, false) =>
          match cv_editor c with
          | None => c
          | Some s =>
              match drag_mouseMove (drag_in c) client (Some root) with
              | (g, true) => drag_out c g
              | (_, false) =>
                  let pos := getCanvasPosition (cv_view c) client root in
                  drawing_out c (drawing_mouseMove (getSocketPosition dims) (drawing_in c s) pos).1
              end
          end
      end
  end.

(** [onDocumentMouseUp(ev)]; in widget mode the canvas has no drawing to end. *)
Definition onDocumentMouseUp (c : canvas) (t : drop_target) (client : position) : canvas :=
  if isReadonly c then c
  else match gestures_mouseUp dims (cv_gestures c) with
       | (g, Some SelectionGesture) => with_completed (with_gestures c g) true
       | (g, Some PanGesture) => with_gestures c g
       | (_, None) =>
           match cv_editor c with
           | None => c
           | Some s =>
               match drag_mouseUp (drag_in c) with
               | (g, true) => drag_out c g
               | (_, false) =>
                   let pos := getCanvasPosition (cv_view c) client root in
                   drawing_out c (handleCanvasMouseUp (drawing_in c s) t client pos root).1
               end
           end
       end.

(** The timer after a completed selection. *)
Definition selection_timer (c : canvas) : canvas := with_completed c false.

(** The frames the drag hook booked. *)
Definition dragging_frame (c : canvas) : canvas := drag_out c (drag_frame (drag_in c)).
Definition autoscroll_frame (c : canvas) : canvas := drag_out c (autoScrollStep (drag_in c) (Some root)).

(** What [setReadonly] does before it sets the flag. *)
Definition cancel_interactions (c : canvas) : canvas :=
  let c := match cv_editor c with
           | Some s =>
               let c := drawing_out c (cancelConnection (drawing_in c s)) in
               drag_out c (drag_mouseUp (drag_in c)).1
           | None => c
           end in
  with_gestures c (gestures_mouseUp dims (cv_gestures c)).1.

(** [setReadonly(nextReadonly)] *)
Definition canvas_setReadonly (c : canvas) (value : bool) : canvas :=
  if Bool.eqb (isReadonly c) value then c
  else
    let c := if value then cancel_interactions c else c in
    match cv_editor c with
    | Some _ => with_gestures c (gs_store (λ s, setReadonly s value) (cv_gestures c))
    | None =>
        let w := gs_widget (cv_gestures c) in
        with_gestures c (with_gs_widget (cv_gestures c) (Widget (wd_nodes w) (wd_pan w) (wd_zoom w) value))
    end.
End handlers.

(** ** Interactions *)

(** What is in progress. *)
Definition panning (c : canvas) : bool := gs_isPanning (cv_gestures c).
Definition selecting (c : canvas) : bool := gs_isSelecting (cv_gestures c).
Definition in_drag (c : canvas) : bool := dg_isDragging (cv_drag c).
Definition connecting (c : canvas) : bool := dw_isConnecting (cv_drawing c).

Definition in_progress (c : canvas) : nat :=
  (if panning c then 1 else 0) + (if selecting c then 1 else 0) + (if in_drag c then 1 else 0) +
  (if connecting c then 1 else 0).

Lemma completeSelection_panning d g : gs_isPanning (completeSelection d g) = gs_isPanning g.
Proof. unfold completeSelection, gs_store. repeat case_match; done. Qed.

Lemma drag_mouseUp_spec g :
  is_readonly g = false → dg_isDragging g = true →
  (drag_mouseUp g).2 = true ∧ dg_isDragging (drag_mouseUp g).1 = false.
Proof. intros H1 H2. unfold drag_mouseUp. by rewrite H1, H2. Qed.

Lemma drag_mouseUp_idle g : dg_isDragging g = false → drag_mouseUp g = (g, false).
Proof. intros H. unfold drag_mouseUp. rewrite H. by destruct (is_readonly g). Qed.

Lemma drawing_up_ends w t client pos r :
  drawing_readonly w = false → (dw_isConnecting w = true → t = Elsewhere ∨ dw_snappedSocket w ≠ None) →
  dw_isConnecting (handleCanvasMouseUp w t client pos r).1 = false.
Proof.
  intros Hr Ht. unfold handleCanvasMouseUp. rewrite Hr. destruct (dw_isConnecting w) eqn:E; [|done]. simpl.
  destruct (dw_snappedSocket w); [done|]. destruct t; [by destruct (Ht eq_refl)|].
  destruct (dw_connectionStart w); [|done]. by destruct (is_output _).
Qed.

Lemma set_history_readonly s r : readonly (st_ui (set_history s r)) = readonly (st_ui s).
Proof.
  unfold set_history. change (readonly (st_ui s)) with (readonly (st_ui (with_history s r.1))).
  generalize (with_history s r.1). induction r.2 as [|n ns IH]; intros s1; simpl; [done|]. rewrite IH.
  unfold on_history_change. by destruct (Nat.eqb _ _).
Qed.

(** ** Properties *)

(** What the user and the browser do to the canvas: presses on the canvas, a node or
    a socket, moves, frames and timers, and releases; [InSocketUp] is the handler
    of a socket, [InUp] that of the document. *)
Inductive canvas_input :=
| InPress (ev : mouse_event)
| InNode (nodeId : string) (client : position)
| InSocket (d : socket_ref) (client : position)
| InMove (client : position)
| InFrame
| InDragFrame
| InScrollFrame
| InTimer
| InSocketUp (d : socket_ref)
| InUp (client : position).

(** Counts what is in progress on both sides. *)
Ltac count_cases :=
  unfold panning, selecting, in_drag, connecting; simpl;
  repeat match goal with |- context [if ?b then _ else _] => destruct b end; simpl; lia.

Section inputs.
Context (dims : DimensionConfig) (root : rect).

Definition input_step (c : canvas) (i : canvas_input) : canvas :=
  match i with
  | InPress ev => canvas_mouseDown root c ev
  | InNode i client => node_dragStart c i client
  | InSocket d client => socket_mouseDown root c d client
  | InMove client => onDocumentMouseMove c client
  | InFrame => mouse_frame dims root c
  | InDragFrame => dragging_frame c
  | InScrollFrame => autoscroll_frame root c
  | InTimer => selection_timer c
  | InSocketUp d => socket_mouseUp c d
  | InUp client => onDocumentMouseUp dims root c Elsewhere client
  end.

(** The buttons that are down, counted by presses and releases. *)
Definition held (n : nat) (i : canvas_input) : nat :=
  match i with
  | InPress _ | InNode _ _ | InSocket _ _ => S n
  | InUp _ => pred n
  | _ => n
  end.

Definition editable (c : canvas) : Prop := ∃ s, cv_editor c = Some s ∧ readonly (st_ui s) = false.

(** The interactions one by one. *)
Definition activity (c : canvas) : list bool := [panning c; selecting c; in_drag c; connecting c].
Definition count (l : list bool) : nat := foldr (λ b n, (if b : bool then 1 else 0) + n)%nat 0%nat l.

Lemma in_progress_count c : in_progress c = count (activity c).
Proof using Type. unfold in_progress, activity, count. simpl. lia. Qed.

Lemma editable_readonly c : editable c → isReadonly c = false.
Proof using Type.
  intros (s & Hs & Hr). unfold isReadonly, isReadonlyActive.
  change (vs_editor (gs_view (cv_gestures c))) with (cv_editor c). by rewrite Hs.
Qed.

Lemma editable_store c (f : store → store) g :
  editable c → (∀ s, readonly (st_ui (f s)) = readonly (st_ui s)) → gs_view g = gs_view (cv_gestures c) →
  editable (with_gestures c (gs_store f g)).
Proof using Type.
  intros (s & Hs & Hr) Hf Hg. exists (f s). unfold cv_editor, cv_view in *. simpl. rewrite Hg, Hs. by rewrite Hf.
Qed.

Lemma editable_same c c' : cv_editor c' = cv_editor c → editable c → editable c'.
Proof using Type. intros E (s & Hs & Hr). exists s. by rewrite E. Qed.

Lemma readonly_transient s us : readonly (st_ui (moveNodesTransient s us)) = readonly (st_ui s).
Proof using Type.
  unfold moveNodesTransient. revert s. induction us as [|[i p] us IH]; intros s; cbn [move_entries]; [done|].
  destruct (getNode s i) as [n|]; [|apply IH]. destruct (same_position _ _); [apply IH|].
  rewrite on_adapter_spec. specialize (IH (with_adapter s (updatePosition (st_adapter s) i p).1)).
  destruct (move_entries _ us) as [s2 ms]. exact IH.
Qed.

Lemma readonly_record s ms : readonly (st_ui (recordMoveNodes s ms)) = readonly (st_ui s).
Proof using Type. destruct ms; [done|]. unfold recordMoveNodes, record_action. by rewrite set_history_readonly. Qed.

Lemma readonly_connect s a b t h : readonly (st_ui (addConnection s a b t h).1) = readonly (st_ui s).
Proof using Type.
  unfold addConnection. rewrite on_adapter_spec. destruct (Adapter.addConnection _ _ _ _ _).2; [|done].
  simpl. unfold record_action. by rewrite set_history_readonly.
Qed.

(** The drag hook changes the store only by moves. *)
Lemma applyDrag_keeps g client :
  dg_isDragging (applyDrag g client) = dg_isDragging g ∧
  ∃ f, vs_editor (dg_view (applyDrag g client)) = f <$> vs_editor (dg_view g) ∧
    ∀ s, readonly (st_ui (f s)) = readonly (st_ui s).
Proof using Type.
  unfold applyDrag. destruct (drag_updates _ _) as [us last]. split; [done|].
  eexists. split; [done|]. intros s. apply readonly_transient.
Qed.

Definition drag_keeps (c : canvas) (g : drag) : Prop :=
  dg_isDragging g = in_drag c ∧ ∃ s, vs_editor (dg_view g) = Some s ∧ readonly (st_ui s) = false.

Lemma drag_out_keeps c g :
  drag_keeps c g → editable (drag_out c g) ∧ activity (drag_out c g) = activity c.
Proof using Type. intros [Hd He]. split; [exact He|]. unfold activity, in_drag in *. simpl. by rewrite Hd. Qed.

Lemma frames_keep c :
  editable c → drag_keeps c (drag_frame (drag_in c)) ∧ drag_keeps c (autoScrollStep (drag_in c) (Some root)).
Proof using Type.
  intros (s & Hs & Hr). assert (vs_editor (dg_view (drag_in c)) = Some s) as Hv by exact Hs.
  assert (dg_isDragging (drag_in c) = in_drag c) as Hi by done. revert Hv Hi. generalize (drag_in c). intros g Hv Hi.
  split.
  - unfold drag_frame. destruct (dg_dragFrame g) as [p|]; [|split; [done|by exists s]].
    change (dg_isDragging (with_dragFrame g None)) with (dg_isDragging g). destruct (dg_isDragging g) eqn:Ed.
    + destruct (applyDrag_keeps (with_dragFrame g None) p) as [H1 (f & H2 & H3)]. split; [by rewrite H1; simpl; rewrite Ed|].
      exists (f s). simpl in H2. rewrite H2, Hv. simpl. by rewrite H3.
    + split; [by simpl; rewrite Ed|by exists s].
  - unfold autoScrollStep. simpl. destruct (dg_isDragging g) eqn:Ed; simpl; [|split; [by simpl; rewrite Ed|by exists s]].
    destruct (dg_lastPointer g) as [p|]; simpl; [|split; [by simpl; rewrite Ed|by exists s]].
    destruct (_ && _); [split; [by simpl; rewrite Ed|by exists s]|].
    match goal with |- drag_keeps c (with_autoScroll (applyDrag ?g1 p) true) =>
      destruct (applyDrag_keeps g1 p) as [H1 (f & H2 & H3)] end.
    split; [etrans; [exact H1|by simpl; rewrite Ed]|].
    exists (f (setViewport s (Some (Position (panX (getViewport (dg_view g)) - pos_x (getAutoScrollDelta p root))%Qc
      (panY (getViewport (dg_view g)) - pos_y (getAutoScrollDelta p root))%Qc)) None)).
    split; [|by rewrite H3]. etrans; [exact H2|]. simpl. by rewrite Hv.
Qed.

(** The hooks' handlers of a move leave alone what is in progress. *)
Lemma gestures_mouseMove_keeps g p s :
  vs_editor (gs_view g) = Some s → readonly (st_ui s) = false →
  let g' := (gestures_mouseMove g root p).1 in
  gs_isPanning g' = gs_isPanning g ∧ gs_isSelecting g' = gs_isSelecting g ∧
  ∃ s', vs_editor (gs_view g') = Some s' ∧ readonly (st_ui s') = false.
Proof using Type.
  intros Hs Hr. unfold gestures_mouseMove.
  assert (∃ s', vs_editor (gs_view g) = Some s' ∧ readonly (st_ui s') = false) as He by (by exists s).
  assert ((if negb (isReadonlyActive g) && gs_isSelecting g then gs_isSelecting g else true) = true) as Hsel
    by (destruct (isReadonlyActive g), (gs_isSelecting g); done).
  destruct (negb (isReadonlyActive g) && gs_isSelecting g).
  - destruct (gs_isPanning g) eqn:Ep; [destruct (gs_panStart g), (gs_panInitial g); [unfold pan_by, gs_store; rewrite Hs; simpl; rewrite ?Hs; by eauto|..]|];
      (destruct (gs_selectionBox g); simpl; by rewrite ?Ep, ?Hsel).
  - destruct (gs_isPanning g) eqn:Ep; [destruct (gs_panStart g), (gs_panInitial g); [unfold pan_by, gs_store; rewrite Hs; simpl; rewrite ?Hs; by eauto|..]|]; done.
Qed.

Lemma drag_mouseMove_keeps c p : editable c → drag_keeps c (drag_mouseMove (drag_in c) p (Some root)).1.
Proof using Type.
  intros (s & Hs & Hr). unfold drag_mouseMove.
  assert (is_readonly (drag_in c) = false) as ->
    by (unfold is_readonly; change (vs_editor (dg_view (drag_in c))) with (cv_editor c); by rewrite Hs).
  destruct (negb _); [split; [done|by exists s]|]. simpl. destruct (dg_dragFrame _); (split; [done|by exists s]).
Qed.

Lemma drawing_out_keeps c w :
  readonly (st_ui (dw_store w)) = false → dw_isConnecting w = connecting c →
  editable (drawing_out c w) ∧ activity (drawing_out c w) = activity c.
Proof using Type. intros Hr Hw. split; [by eexists|]. unfold activity, connecting in *. simpl. by rewrite Hw. Qed.

Lemma mouse_frame_keeps c :
  editable c → editable (mouse_frame dims root c) ∧ activity (mouse_frame dims root c) = activity c.
Proof using Type.
  intros He. pose proof He as (s & Hs & Hr). unfold mouse_frame.
  destruct (cv_mouseMoveFrame c) as [p|]; [|done]. set (c0 := with_frame c None).
  assert (editable c0 ∧ activity c0 = activity c ∧ cv_editor c0 = Some s) as (He0 & <- & Hs0) by done.
  clearbody c0. clear c Hs He.
  destruct (gestures_mouseMove_keeps (cv_gestures c0) p s Hs0 Hr) as (H1 & H2 & H3).
  destruct (gestures_mouseMove (cv_gestures c0) root p) as [g []]; cbn [fst] in *.
  { split; [exact H3|]. unfold activity, panning, selecting. simpl. by rewrite H1, H2. }
  rewrite Hs0. pose proof (drag_mouseMove_keeps c0 p He0) as Hd.
  destruct (drag_mouseMove (drag_in c0) p (Some root)) as [d []]; cbn [fst] in *; [by apply drag_out_keeps|].
  unfold drawing_mouseMove. assert (drawing_readonly (drawing_in c0 s) = false) as -> by exact Hr.
  destruct (dw_isConnecting (drawing_in c0 s)) eqn:Ec; apply drawing_out_keeps; done.
Qed.

(** A press begins at most one interaction. *)
Lemma press_keeps c i :
  editable c → match i with InPress _ | InNode _ _ | InSocket _ _ => True | _ => False end →
  editable (input_step c i) ∧ (count (activity (input_step c i)) ≤ S (count (activity c)))%nat.
Proof using Type.
  intros He Hi. pose proof He as (s & Hs & Hr). destruct i; try done; simpl.
  - unfold canvas_mouseDown, onCanvasMouseDown. destruct (me_overlay ev); [split; [done|apply Nat.le_succ_diag_r]|].
    destruct (me_button ev =? 1)%N.
    { split; [exact He|]. unfold activity. count_cases. }
    pose proof (editable_readonly c He) as Hro. unfold isReadonly in Hro. rewrite Hro.
    destruct (_ && _); [|split; [done|apply Nat.le_succ_diag_r]]. split.
    + by apply editable_store.
    + unfold activity. count_cases.
  - unfold node_dragStart. rewrite Hs, Hr. unfold onNodeDragStart.
    change (vs_editor (dg_view (drag_in c))) with (cv_editor c). rewrite Hs, Hr. split; [by exists s|].
    unfold activity. count_cases.
  - unfold socket_mouseDown. rewrite Hs, Hr. unfold onSocketMouseDown.
    assert (drawing_readonly (drawing_in c s) = false) as -> by exact Hr.
    destruct (sr_type d); (split; [by exists s|]); unfold activity; [apply Nat.le_succ_diag_r|].
    count_cases.
Qed.

(** The handler of a socket ends the line at most. *)
Lemma socket_up_keeps c d :
  editable c → editable (socket_mouseUp c d) ∧ (count (activity (socket_mouseUp c d)) ≤ count (activity c))%nat.
Proof using Type.
  intros He. pose proof He as (s & Hs & Hr). unfold socket_mouseUp. rewrite Hs, Hr. unfold onSocketMouseUp.
  assert (drawing_readonly (drawing_in c s) = false) as -> by exact Hr.
  destruct (negb _); [split; [by exists s|apply Nat.le_refl]|].
  assert (∀ w, readonly (st_ui (dw_store w)) = false → dw_isConnecting w = false →
    editable (drawing_out c w) ∧ (count (activity (drawing_out c w)) ≤ count (activity c))%nat) as H.
  { intros w H1 H2. split; [by eexists|]. unfold activity, connecting at 1. simpl. rewrite H2. count_cases. }
  destruct (dw_connectionStart _); [destruct (_ && _)|]; apply H; try done. simpl. by rewrite readonly_connect.
Qed.

(** The release ends exactly one interaction, if there is one. *)
Lemma document_up_ends c client :
  editable c → let c' := onDocumentMouseUp dims root c Elsewhere client in
  editable c' ∧ count (activity c') = pred (count (activity c)).
Proof using Type.
  intros He c'. pose proof He as (s & Hs & Hr). subst c'. unfold onDocumentMouseUp. rewrite (editable_readonly c He).
  unfold gestures_mouseUp. destruct (gs_isPanning (cv_gestures c)) eqn:Ep.
  { split; [exact He|]. unfold activity, panning, selecting. simpl. rewrite Ep. simpl. done. }
  destruct (gs_isSelecting (cv_gestures c)) eqn:Es.
  { assert (gs_isPanning (completeSelection dims (cv_gestures c)) = false) as Ep' by (by rewrite completeSelection_panning).
    split.
    - assert (∃ s', vs_editor (gs_view (completeSelection dims (cv_gestures c))) = Some s' ∧ readonly (st_ui s') = false)
        as H; [|exact H].
      unfold cv_editor, cv_view in Hs. unfold completeSelection, gs_store.
      repeat case_match; try (by exists s). simpl in *. rewrite ?Hs. by eexists.
    - unfold activity, panning, selecting. simpl. by rewrite Ep', Ep, Es. }
  rewrite Hs. destruct (dg_isDragging (cv_drag c)) eqn:Ed.
  - unfold drag_mouseUp. assert (is_readonly (drag_in c) = false) as ->
      by (unfold is_readonly; change (vs_editor (dg_view (drag_in c))) with (cv_editor c); by rewrite Hs).
    change (dg_isDragging (drag_in c)) with (dg_isDragging (cv_drag c)). rewrite Ed. cbn [negb]. split.
    + exists (recordMoveNodes s (node_moves (dg_state (drag_in c)))). split; [|by rewrite readonly_record].
      transitivity ((λ s, recordMoveNodes s (node_moves (dg_state (drag_in c)))) <$> cv_editor c); [done|by rewrite Hs].
    + unfold activity, panning, selecting, in_drag. simpl. by rewrite Ep, Es, Ed.
  - rewrite drag_mouseUp_idle by exact Ed.
    assert (∃ w, (handleCanvasMouseUp (drawing_in c s) Elsewhere client (getCanvasPosition (cv_view c) client root) root).1 = w ∧
      dw_isConnecting w = false ∧ readonly (st_ui (dw_store w)) = false) as (w & -> & Hw & Hrw).
    { eexists. split; [done|]. split; [apply drawing_up_ends; [exact Hr|by left]|].
      unfold handleCanvasMouseUp. assert (drawing_readonly (drawing_in c s) = false) as -> by exact Hr.
      repeat case_match; try done; simpl; by rewrite ?readonly_connect. }
    split; [by eexists|]. unfold activity, panning, selecting, in_drag, connecting. simpl.
    rewrite Ep, Es, Ed, Hw. by destruct (dw_isConnecting (cv_drawing c)).
Qed.

Lemma input_step_held c i n :
  editable c → (in_progress c ≤ n)%nat → editable (input_step c i) ∧ (in_progress (input_step c i) ≤ held n i)%nat.
Proof using Type.
  rewrite !in_progress_count. intros He Hn.
  assert (∀ i, match i with InPress _ | InNode _ _ | InSocket _ _ => True | _ => False end →
    editable (input_step c i) ∧ (count (activity (input_step c i)) ≤ S n)%nat) as Hp.
  { intros j Hj. destruct (press_keeps c j He Hj). split; [done|lia]. }
  destruct i; try (by apply Hp); cbn [input_step held].
  - split; [|].
    + unfold onDocumentMouseMove. destruct (isReadonly c); [done|]. by destruct (cv_mouseMoveFrame c).
    + unfold onDocumentMouseMove. destruct (isReadonly c); [done|]. by destruct (cv_mouseMoveFrame c).
  - destruct (mouse_frame_keeps c He) as [? ->]. done.
  - destruct (drag_out_keeps c _ (proj1 (frames_keep c He))) as [? E]. unfold dragging_frame. by rewrite E.
  - destruct (drag_out_keeps c _ (proj2 (frames_keep c He))) as [? E]. unfold autoscroll_frame. by rewrite E.
  - done.
  - destruct (socket_up_keeps c d He). split; [done|lia].
  - destruct (document_up_ends c client He). split; [done|lia].
Qed.

Lemma inputs_held c ins n :
  editable c → (in_progress c ≤ n)%nat →
  editable (foldl input_step c ins) ∧ (in_progress (foldl input_step c ins) ≤ foldl held n ins)%nat.
Proof using Type.
  revert c n. induction ins as [|i ins IH]; intros c n He Hn; simpl; [done|].
  destruct (input_step_held c i n He Hn). by apply IH.
Qed.
End inputs.


(** Making the canvas read-only first ends what is in progress, as the release of
    the button would: a drag is recorded and a box selects. *)
Theorem readonly_ends_all dims c s :
  cv_editor c = Some s → readonly (st_ui s) = false → panning c && selecting c = false →
  let c' := canvas_setReadonly dims c true in
  in_progress c' = 0%nat ∧ isReadonly c' = true.
Proof.
  intros Hs Hr Hps. unfold canvas_setReadonly. replace (isReadonly c) with false.
  2:{ unfold isReadonly, isReadonlyActive. change (vs_editor (gs_view (cv_gestures c))) with (cv_editor c). by rewrite Hs. }
  cbn [Bool.eqb]. unfold cancel_interactions. rewrite Hs.
  set (c1 := drawing_out c _). set (g := (drag_mouseUp (drag_in c1)).1).
  assert (dg_isDragging g = false ∧ ∃ s1, vs_editor (dg_view g) = Some s1 ∧ readonly (st_ui s1) = false) as (Hd & s1 & Hg & Hr1).
  { subst g. unfold drag_mouseUp. assert (is_readonly (drag_in c1) = false) as -> by done.
    destruct (dg_isDragging (drag_in c1)) eqn:Ed; simpl.
    - split; [done|]. eexists. split; [done|]. unfold recordMoveNodes. destruct (node_moves _); [done|].
      unfold record_action. by rewrite set_history_readonly.
    - split; [done|]. by exists s. }
  set (c2 := drag_out c1 g). unfold panning, selecting in Hps.
  set (g2 := (gestures_mouseUp dims (cv_gestures c2)).1).
  assert (gs_isPanning g2 = false ∧ gs_isSelecting g2 = false ∧ is_Some (vs_editor (gs_view g2))) as (H1 & H2 & [s2 H3]).
  { subst g2. unfold gestures_mouseUp. cbn [cv_gestures c2 drag_out gs_isPanning gs_isSelecting with_gs_view drawing_out c1].
    destruct (gs_isPanning (cv_gestures c)) eqn:Ep; cbn [fst].
    - cbn [andb] in Hps. simpl. rewrite Hg. eauto.
    - destruct (gs_isSelecting (cv_gestures c)) eqn:Es; cbn [fst with_selecting gs_isPanning gs_isSelecting gs_view].
      + rewrite completeSelection_panning. simpl. split_and!; [done|done|].
        unfold completeSelection, gs_store. repeat case_match; simpl; rewrite Hg; eauto.
      + simpl. rewrite Ep, Es, Hg. eauto. }
  clearbody g2. change (cv_editor (with_gestures c2 g2)) with (vs_editor (gs_view g2)). rewrite H3.
  unfold in_progress, panning, selecting, in_drag, connecting, isReadonly, isReadonlyActive. simpl.
  rewrite H1, H2, H3. cbn [c2 drag_out cv_drag]. rewrite Hd. done.
Qed.

Inductive mouse_op :=
| MouseMove (client : position)
| MouseFrame
| MouseUp (t : drop_target) (client : position).

Definition mouse_step (dims : DimensionConfig) (root : rect) (c : canvas) (op : mouse_op) : canvas :=
  match op with
  | MouseMove client => onDocumentMouseMove c client
  | MouseFrame => mouse_frame dims root c
  | MouseUp t client => onDocumentMouseUp dims root c t client
  end.

(** On a read-only canvas the middle button begins a pan that neither moves
    anything nor ends: moves and the release are ignored.  Once the canvas can be
    edited again, the next move of the mouse pans with no button down. *)
Theorem readonly_pan_sticks dims root c s ev ops client :
  cv_editor c = Some s → readonly (st_ui s) = true → cv_mouseMoveFrame c = None →
  me_overlay ev = false → me_button ev = 1%N →
  let c1 := foldl (mouse_step dims root) (canvas_mouseDown root c ev) ops in
  let c2 := mouse_frame dims root (onDocumentMouseMove (canvas_setReadonly dims c1 false) client) in
  let v := getViewport (cv_view c) in
  getViewport (cv_view c1) = v ∧ panning c1 = true ∧
  getViewport (cv_view c2) = Viewport (panX v + (pos_x client - pos_x (me_client ev)))%Qc
    (panY v + (pos_y client - pos_y (me_client ev)))%Qc (vzoom v).
Proof.
  intros Hs Hr Hf Ho Hb c1 c2 v.
  assert (c1 = canvas_mouseDown root c ev) as E1.
  { unfold c1, canvas_mouseDown, onCanvasMouseDown. rewrite Ho, Hb. cbn [N.eqb Pos.eqb]. fold v.
    set (c0 := with_gestures c _).
    assert (isReadonly c0 = true ∧ cv_mouseMoveFrame c0 = None) as [Hr0 Hf0].
    { split; [|done]. unfold isReadonly, isReadonlyActive. simpl. unfold cv_editor, cv_view in Hs. by rewrite Hs. }
    clearbody c0. clear -Hr0 Hf0. induction ops as [|op ops IH]; simpl; [done|].
    replace (mouse_step dims root c0 op) with c0; [done|].
    destruct op; simpl; unfold onDocumentMouseMove, mouse_frame, onDocumentMouseUp; by rewrite ?Hr0, ?Hf0. }
  subst c2. rewrite E1. clear c1 E1.
  unfold canvas_mouseDown, onCanvasMouseDown. rewrite Ho, Hb. cbn [N.eqb Pos.eqb]. fold (cv_view c). fold v.
  set (g1 := with_panning _ _ _ _). split; [done|]. split; [done|].
  assert (canvas_setReadonly dims (with_gestures c g1) false =
    with_gestures c (gs_store (λ s, setReadonly s false) g1)) as ->.
  { assert (vs_editor (gs_view g1) = Some s) as Hs1 by exact Hs.
    unfold canvas_setReadonly, isReadonly, isReadonlyActive. cbn [cv_gestures with_gestures]. rewrite Hs1, Hr. cbn [Bool.eqb].
    change (cv_editor (with_gestures c g1)) with (vs_editor (gs_view g1)). by rewrite Hs1. }
  set (g2 := gs_store _ g1).
  assert (vs_editor (gs_view g2) = Some (setReadonly s false)) as Hs2
    by (unfold g2, gs_store; simpl; unfold cv_editor, cv_view in Hs; by rewrite Hs).
  unfold onDocumentMouseMove, isReadonly, isReadonlyActive. cbn [cv_gestures with_gestures]. rewrite Hs2. cbn [readonly].
  cbn [cv_mouseMoveFrame with_gestures]. rewrite Hf. change (readonly (st_ui (setReadonly s false))) with false.
  unfold mouse_frame. cbn [cv_mouseMoveFrame with_frame cv_gestures with_gestures].
  pose proof (pan_follows g2 root client (me_client ev) (Position (panX v) (panY v)) _ Hs2 eq_refl eq_refl eq_refl) as Hp.
  assert ((gestures_mouseMove g2 root client).2 = true) as Hm by done.
  destruct (gestures_mouseMove g2 root client) as [g3 b]. cbn [fst snd] in Hm, Hp. subst b.
  unfold cv_view at 1. cbn [cv_gestures with_gestures]. cbv zeta in Hp. rewrite Hp. cbn [pos_x pos_y]. f_equal. unfold v, getViewport. rewrite Hs2.
  change (vs_editor (cv_view c)) with (cv_editor c). by rewrite Hs.
Qed.

(** ** Examples *)

Definition canvas_demo : canvas := new_canvas (Some selected_demo) a_widget selected_demo.


Lemma readonly_ends_all_witness :
  in_progress (canvas_setReadonly defaultDimensions (node_dragStart canvas_demo "n_1" (Position 0 0)) true) = 0%nat.
Proof.
  apply (readonly_ends_all defaultDimensions (node_dragStart canvas_demo "n_1" (Position 0 0)) selected_demo).
  - reflexivity.
  - vm_compute. reflexivity.
  - vm_compute. reflexivity.
Defined.

Definition readonly_demo : canvas := new_canvas (Some (setReadonly selected_demo true)) a_widget selected_demo.

Lemma readonly_pan_sticks_witness :
  panning (foldl (mouse_step defaultDimensions screen)
    (canvas_mouseDown screen readonly_demo (MouseEvent 1 false true false (Position 0 0)))
    [MouseUp Elsewhere (Position 0 0)]) = true.
Proof.
  apply (readonly_pan_sticks defaultDimensions screen readonly_demo
    (setReadonly selected_demo true) (MouseEvent 1 false true false (Position 0 0)) [MouseUp Elsewhere (Position 0 0)]
    (Position 0 0)); reflexivity.
Defined.
