(* ===== verification/CanvasContext.v ===== *)
(** * Execution data on the canvas (components/editor_canvas.js)

    The context in which the configuration panel of a node evaluates its
    expressions ([_createExecutionContextBuilder]), the status of each node and
    the connections on the path of the execution.  Results carry their node id as
    a string.  The sets are cached under the identity of their source; a cache
    that answers as the computation does is left out. *)

From S2P Require Import Prelude JsMap JsValue JsNumber Connection Node Editor Adapter Store Dfs GraphUtils Dagre Layout CanvasTidy.

(** [normalizeItems(value)] *)
Definition normalizeItems (v : jsval) : list jsval :=
  match v with
  | JArr l => l
  | JNull | JUndef => []
  | _ => [v]
  end.

(** [buildInputContext(value)] *)
Definition buildInputContext (v : jsval) : jsobj :=
  let items := normalizeItems v in
  let inputContext := [("item", js_or (default JUndef (head items)) v); ("json", v); ("items", JArr items)] in
  match v with
  | JObj o => ospread (ospread [] o) inputContext
  | _ => inputContext
  end.

(** [buildNodeOutputView(output)] *)
Definition buildNodeOutputView (output : jsval) : jsval :=
  let items := normalizeItems output in
  JObj [("json", output); ("item", default output (head items)); ("items", JArr items)].

Definition emptyContext : jsobj :=
  [("_vars", JObj []); ("_node", JObj []); ("_json", JObj []); ("_loop", JNull);
   ("_input", JObj (buildInputContext JNull)); ("_execution", JNull); ("_workflow", JNull);
   ("_now", JNull); ("_today", JNull)].

(** The results that have a node, with its id. *)
Definition with_node_id (results : list jsval) : list node_result_t :=
  omap (λ r, match prop r "node_id" with JStr i => Some (i, r) | _ => None end) results.

(** [wrappedNode] from results. *)
Definition wrap_results (results : list node_result_t) : jsobj :=
  foldl (λ m r, oset r.1 (buildNodeOutputView (prop r.2 "output_data")) m) [] results.

(** [wrappedNode] from the snapshot; [allowed] are the predecessors, if a node is asked for. *)
Definition wrap_snapshot (allowed : option (list string)) (o : jsobj) : jsobj :=
  foldl (λ m e, match allowed with
                | Some ids => if mem e.1 ids then oset e.1 (buildNodeOutputView e.2) m else m
                | None => oset e.1 (buildNodeOutputView e.2) m
                end) [] o.

(** The loop that looks for the last parent with an output in the snapshot. *)
Definition parent_output (parents : list string) (snapshotNodes : jsobj) : option jsval :=
  p ← find_first (λ p, jhas p snapshotNodes) (reverse parents); jget p snapshotNodes.

(** What the caller may give. *)
Record context_options := ContextOptions {
  co_execution : jsval;
  co_nodeResults : jsval;
  co_nodeId : option string;
}.

Definition or_null (v : jsval) : jsval := js_or v JNull.
Definition or_object (v : jsval) : jsval := js_or v (JObj []).

(** The function [_createExecutionContextBuilder] returns; [cs] are the
    connections of the canvas and [progress] its execution.  [None] when the
    walk to the predecessors runs out of fuel, which it does not. *)
Definition buildExecutionContext (cs : list gconn) (progress : jsval) (o : context_options) : option jsobj :=
  let execution := or_null (js_or (co_execution o) progress) in
  if negb (truthy execution) then Some emptyContext
  else
    let snapshot := or_null (prop execution "contextSnapshot") in
    if negb (truthy snapshot) then Some emptyContext
    else
      let nodeResults := js_or (js_or (co_nodeResults o) (prop execution "nodeResults")) (JArr []) in
      let nodeId := match co_nodeId o with Some i => if i =s "" then None else Some i | None => None end in
      match (match nodeId with Some i => getStructuralPredecessorIds cs i | None => Some [] end) with
      | None => None
      | Some predecessors =>
          let parents := match nodeId with Some i => getStructuralParentIds cs i | None => [] end in
          let results := as_array nodeResults in
          let wrappedNode :=
            match results with
            | _ :: _ =>
                wrap_results (match nodeId with
                              | Some _ => getLatestNodeResultsByNodeIds (with_node_id results) predecessors
                              | None => with_node_id results
                              end)
            | [] => wrap_snapshot (match nodeId with Some _ => Some predecessors | None => None end)
                      (entries (or_object (prop snapshot "node")))
            end in
          let json0 := or_object (prop snapshot "json") in
          let json :=
            match nodeId, results with
            | Some _, _ :: _ =>
                match getLatestNodeResultForNodeIds (with_node_id results) parents with
                | Some r => match prop r.2 "output_data" with JUndef => json0 | v => v end
                | None => json0
                end
            | Some _, [] => default json0 (parent_output parents (entries (or_object (prop snapshot "node"))))
            | None, _ => json0
            end in
          Some [("_vars", or_object (prop snapshot "vars")); ("_node", JObj wrappedNode); ("_json", json);
                ("_loop", JNull); ("_input", JObj (buildInputContext json));
                ("_execution", or_null (prop snapshot "execution")); ("_workflow", or_null (prop snapshot "workflow"));
                ("_now", or_null (prop snapshot "now")); ("_today", or_null (prop snapshot "today"))]
      end.

(** [nodeExecutionStatusMap] *)
Definition nodeExecutionStatusMap (progress : jsval) : list (string * jsval) :=
  if truthy progress && truthy (prop progress "nodeStatuses")
  then foldl (λ m e, mset e.1 e.2 m) [] (entries (prop progress "nodeStatuses")) else [].

(** [executedConnectionIds]: those the backend names, or the connections between
    executed nodes. *)
Definition executedConnectionIds (progress : jsval) (cs : list ui_connection) : list jsval :=
  match as_array (prop progress "executedConnectionIds") with
  | (_ :: _) as ids => ids
  | [] =>
      match as_array (prop progress "executedOrder") with
      | (_ :: _ :: _) as order =>
          let executed k := existsb (strict_eq (JStr k)) order in
          omap (λ c, if (uc_source c =s "") || (uc_target c =s "") then None
                     else if executed (uc_source c) && executed (uc_target c) then Some (JStr (uc_id c)) else None) cs
      | _ => []
      end
  end.

(** [connectedOutputsSet] *)
Definition connectedOutputsSet (cs : list ui_connection) : list string :=
  unique ((λ c, uc_source c +:+ ":" +:+ uc_sourceHandle c) <$> cs).

(** ** Facts *)

Lemma wrap_results_spread rs :
  wrap_results rs = ospread [] ((λ r, (r.1, buildNodeOutputView (prop r.2 "output_data"))) <$> rs).
Proof.
  unfold wrap_results, ospread. generalize (@nil (string * jsval)). induction rs as [|r rs IH]; intros m; simpl; [done|].
  by rewrite IH.
Qed.

Lemma wrap_results_get rs k :
  NoDup (jkeys rs) →
  jget k (wrap_results rs) = (λ r, buildNodeOutputView (prop r "output_data")) <$> jget k rs.
Proof.
  intros Hd. rewrite wrap_results_spread.
  set (f := λ r, buildNodeOutputView (prop r "output_data")).
  pose proof (jkeys_map f rs) as Hk. pose proof (jget_map f k rs) as Hg.
  rewrite <- Hk in Hd. etransitivity; [exact (jget_ospread k [] _ Hd)|]. rewrite Hg. by destruct (jget k rs).
Qed.

(** ** Properties *)

(** C15: The context of a node, over the results of a run: [_node] has exactly the
    nodes that come before it along structural connections and were run, each
    with the output of its last run, and [_json] is the output of the parent that
    ran last, or the data of the snapshot when no parent has one. *)
Theorem node_context_exact cs progress snapshot r results n :
  n ≠ "" → truthy snapshot = true → prop progress "contextSnapshot" = snapshot →
  prop progress "nodeResults" = JArr (r :: results) → truthy progress = true →
  ∃ ctx wrapped json, buildExecutionContext cs progress (ContextOptions JUndef JUndef (Some n)) = Some ctx ∧
    jget "_node" ctx = Some (JObj wrapped) ∧ jget "_json" ctx = Some json ∧
    (∀ k, tc (arrow (getStructuralConnections cs)) k n →
       jget k wrapped = (λ x, buildNodeOutputView (prop x "output_data")) <$>
         last_result k (with_node_id (r :: results))) ∧
    (∀ k, ¬ tc (arrow (getStructuralConnections cs)) k n → jget k wrapped = None) ∧
    json = match getLatestNodeResultForNodeIds (with_node_id (r :: results)) (getStructuralParentIds cs n) with
           | Some x => match prop x.2 "output_data" with JUndef => or_object (prop snapshot "json") | v => v end
           | None => or_object (prop snapshot "json")
           end.
Proof.
  intros Hn Hsn Hp Hres Hpr. destruct (predecessors_exact cs n Hn) as (out & Hout & _ & Hx).
  unfold buildExecutionContext. cbn [co_execution co_nodeResults co_nodeId js_or truthy].
  rewrite (bool_decide_false (n = "")) by done.
  replace (or_null progress) with progress by (unfold or_null, js_or; by rewrite Hpr). rewrite Hpr. cbn [negb].
  rewrite Hp. replace (or_null snapshot) with snapshot by (unfold or_null, js_or; by rewrite Hsn). rewrite Hsn. cbn [negb].
  rewrite Hres, Hout. cbn [js_or truthy as_array].
  set (rs := with_node_id (r :: results)).
  destruct (latest_results_exact rs out) as (Hnd & Hget & _).
  eexists _, (wrap_results (getLatestNodeResultsByNodeIds rs out)), _. split_and!; [done|done|done| | |done].
  - intros k Hk. rewrite wrap_results_get, Hget by done. apply Hx in Hk. unfold mem. by rewrite existsb_elem, bool_decide_true.
  - intros k Hk. rewrite wrap_results_get, Hget by done. rewrite <- Hx in Hk. unfold mem.
    by rewrite existsb_elem, bool_decide_false.
Qed.

Lemma executed_by_order progress cs c :
  as_array (prop progress "executedConnectionIds") = [] → (2 ≤ length (as_array (prop progress "executedOrder")))%nat →
  c ∈ cs → uc_source c ≠ "" → uc_target c ≠ "" →
  JStr (uc_source c) ∈ as_array (prop progress "executedOrder") →
  JStr (uc_target c) ∈ as_array (prop progress "executedOrder") →
  JStr (uc_id c) ∈ executedConnectionIds progress cs.
Proof.
  intros H1 H2 Hc Hs Ht Es Et. unfold executedConnectionIds. rewrite H1.
  destruct (as_array (prop progress "executedOrder")) as [|a [|b order]]; [simpl in H2; lia..|].
  apply list_elem_of_omap. exists c. split; [done|]. rewrite !bool_decide_false by done. simpl orb.
  assert (∀ k, JStr k ∈ a :: b :: order → existsb (strict_eq (JStr k)) (a :: b :: order) = true) as H.
  { intros k Hk. apply existsb_true_iff. exists (JStr k). split; [done|]. by apply bool_decide_eq_true. }
  by rewrite !H.
Qed.

(** ** Examples *)

Definition context_progress : jsval :=
  JObj [("contextSnapshot", JObj [("json", JObj [])]);
        ("nodeResults", JArr [JObj [("node_id", JStr "a"); ("output_data", JInt 1)];
                              JObj [("node_id", JStr "c"); ("output_data", JInt 3)]])].

Lemma node_context_exact_witness :
  ∃ ctx wrapped json, buildExecutionContext [conn_of "a" "b"; conn_of "b" "c"] context_progress
      (ContextOptions JUndef JUndef (Some "b")) = Some ctx ∧
    jget "_node" ctx = Some (JObj wrapped) ∧ jget "_json" ctx = Some json ∧ json = JInt 1.
Proof.
  destruct (node_context_exact [conn_of "a" "b"; conn_of "b" "c"] context_progress (JObj [("json", JObj [])])
    (JObj [("node_id", JStr "a"); ("output_data", JInt 1)]) [JObj [("node_id", JStr "c"); ("output_data", JInt 3)]] "b")
    as (ctx & wrapped & json & H1 & H2 & H3 & _ & _ & H4); [discriminate|reflexivity..|].
  exists ctx, wrapped, json. split; [exact H1|]. split; [exact H2|]. split; [exact H3|].
  rewrite H4. vm_compute. reflexivity.
Defined.
