(* ===== verification/CanvasHover.v ===== *)
(** * The toolbars and the configuration dialog of the canvas
    (components/editor_canvas.js)

    The small toolbar of a connection, shown while the pointer is over the
    connection or the toolbar and for a moment after; the dialog that follows the
    configuration panel of the store; the buttons above the canvas. *)

From S2P Require Import Prelude JsMap JsValue JsNumber JsString Connection Node Nodes Editor EditorInv Adapter AdapterInv AdapterEquiv AdapterRun History HistoryTimeline Commands Store StoreInv StoreRun StoreBatch WorkflowCommands Dimensions Geometry Culling ViewportHook Drawing Dfs GraphUtils Dagre Layout CanvasTidy Clipboard ClipboardCopy CanvasEdit.

Definition store_viewport (s : store) : viewport :=
  Viewport (pos_x (pan (st_ui s))) (pos_y (pan (st_ui s))) (zoom (st_ui s)).

(** ** The toolbar of a connection *)

(** The timer that hides the toolbar: booked when the pointer left the
    connection, or the toolbar. *)
Inductive hide_timer := LeftConnection | LeftToolbar.

Record hover := Hover {
  hv_store : store;
  hv_timer : option hide_timer;
  hv_isHoveringConnection : bool;
  hv_isHoveringToolbar : bool;
}.

Definition with_hv_store (h : hover) (s : store) : hover :=
  Hover s (hv_timer h) (hv_isHoveringConnection h) (hv_isHoveringToolbar h).
Definition with_hv_timer (h : hover) (t : option hide_timer) : hover :=
  Hover (hv_store h) t (hv_isHoveringConnection h) (hv_isHoveringToolbar h).
Definition with_hv_connection (h : hover) (b : bool) : hover :=
  Hover (hv_store h) (hv_timer h) b (hv_isHoveringToolbar h).
Definition with_hv_toolbar (h : hover) (b : bool) : hover :=
  Hover (hv_store h) (hv_timer h) (hv_isHoveringConnection h) b.

Definition hovered_id (h : hover) : option string := hc_id (hoveredConnection (st_ui (hv_store h))).
Definition hide_toolbar (h : hover) : hover := with_hv_store h (setHoveredConnection (hv_store h) None None None).

Section connection_toolbar.
Context (dims : DimensionConfig).

(** [getConnectionMidpoint(conn)] *)
Definition getConnectionMidpoint (s : store) (r : rendered) : position :=
  match cp_midpoint (rd_path r) with
  | Some m => m
  | None =>
      let c := rd_conn r in
      match shown_node s (uc_source c), shown_node s (uc_target c) with
      | Some sourceNode, Some targetNode =>
          let sourcePos := getSocketPosition dims sourceNode (uc_sourceHandle c) OutputSocket in
          let targetPos := getSocketPosition dims targetNode (uc_targetHandle c) InputSocket in
          Position (half (pos_x sourcePos + pos_x targetPos)%Qc) (half (pos_y sourcePos + pos_y targetPos)%Qc)
      | _, _ => Position 0 0
      end
  end.

(** [handleConnectionEnter(ev, conn)] *)
Definition handleConnectionEnter (h : hover) (r : rendered) : hover :=
  let s := hv_store h in
  if negb (canEdit s) then h
  else
    let h := with_hv_connection (with_hv_timer h None) true in
    if bool_decide (hovered_id h = Some (uc_id (rd_conn r))) then h
    else
      let midpoint := getConnectionMidpoint s r in
      let screenPos := canvasToScreen (pos_x midpoint) (pos_y midpoint) (store_viewport s) in
      with_hv_store h (setHoveredConnection s (Some (uc_id (rd_conn r))) (Some screenPos) (Some midpoint)).

(** [onConnectionMouseEnter(connectionId, midpoint)] *)
Definition onConnectionMouseEnter (h : hover) (connectionId : string) (midpoint : position) : hover :=
  if negb (canEdit (hv_store h)) then h
  else with_hv_store h (setHoveredConnection (hv_store h) (Some connectionId) (Some midpoint) None).

(** [_dismissConnectionToolbar()], on the wheel, a resize or a press of a button. *)
Definition dismissConnectionToolbar (h : hover) : hover :=
  let h := with_hv_toolbar (with_hv_connection (with_hv_timer h None) false) false in
  match hovered_id h with Some _ => hide_toolbar h | None => h end.

(** [onConnectionMouseLeave()] *)
Definition onConnectionMouseLeave (h : hover) : hover :=
  if negb (canEdit (hv_store h)) then h else with_hv_timer h (Some LeftConnection).

(** [onToolbarHoverChange(isHovering)] *)
Definition onToolbarHoverChange (h : hover) (isHovering : bool) : hover :=
  if negb (canEdit (hv_store h)) then h
  else with_hv_timer (with_hv_toolbar h isHovering) (if isHovering then None else Some LeftToolbar).

(** The timer; [overToolbar] is whether the pointer is over the toolbar. *)
Definition hide_timer_fires (h : hover) (overToolbar : bool) : hover :=
  match hv_timer h with
  | None => h
  | Some LeftConnection =>
      let h := with_hv_timer h None in
      if hv_isHoveringToolbar h then h else if overToolbar then h else hide_toolbar h
  | Some LeftToolbar =>
      let h := with_hv_timer h None in
      if hv_isHoveringToolbar h then h else hide_toolbar h
  end.

(** [toolbarConnection]; [drawn] are the rendered connections. *)
Definition toolbarConnection (s : store) (drawn : list rendered) : hovered :=
  let h := hoveredConnection (st_ui s) in
  match hc_id h with
  | Some _ => h
  | None =>
      match (selection (st_ui s)).2 with
      | [connId] =>
          match find_first (λ r, uc_id (rd_conn r) =s connId) drawn with
          | None => no_hover
          | Some r =>
              let midpoint := getConnectionMidpoint s r in
              Hovered (Some connId) (canvasToScreen (pos_x midpoint) (pos_y midpoint) (store_viewport s)) (Some midpoint)
          end
      | _ => no_hover
      end
  end.

Definition insert_context (connectionId : string) (canvasPos : position) : jsval :=
  JObj [("connectionId", JStr connectionId);
        ("position", JObj [("x", JNum (pos_x canvasPos)); ("y", JNum (pos_y canvasPos))])].

(** [onConnectionAddNode(connectionId, position)] *)
Definition onConnectionAddNode (s : store) (drawn : list rendered) (root : rect) (connectionId : string)
    (p : position) : store :=
  if negb (canEdit s) then s
  else
    let canvasPos := match hc_canvasMidpoint (toolbarConnection s drawn) with
                     | Some m => m
                     | None => screenToCanvas (Position (r_x root + pos_x p)%Qc (r_y root + pos_y p)%Qc) root (store_viewport s)
                     end in
    openNodeMenu s (pos_x p) (pos_y p) (pos_x canvasPos) (pos_y canvasPos) (Some "default")
      (Some (insert_context connectionId canvasPos)).
End connection_toolbar.

(** ** The pointer *)

Inductive place := OverConnection | OverToolbar | Away.

(** What the pointer does; a toolbar can be entered when it is there. *)
Inductive hover_event :=
| EnterConnection (r : rendered)
| LeaveConnection
| EnterToolbar
| LeaveToolbar
| HideTimer
| Dismiss.

Definition hover_step (dims : DimensionConfig) (hp : hover * place) (e : hover_event) : hover * place :=
  let '(h, p) := hp in
  match e with
  | EnterConnection r => (handleConnectionEnter dims h r, OverConnection)
  | LeaveConnection => (onConnectionMouseLeave h, Away)
  | EnterToolbar => (onToolbarHoverChange h true, OverToolbar)
  | LeaveToolbar => (onToolbarHoverChange h false, Away)
  | HideTimer => (hide_timer_fires h (match p with OverToolbar => true | _ => false end), p)
  | Dismiss => (dismissConnectionToolbar h, p)
  end.

(** The toolbar is entered and left only when it is shown, a connection is left
    only from it. *)
Definition hover_allowed (hp : hover * place) (e : hover_event) : Prop :=
  match e with
  | EnterConnection _ | EnterToolbar => hp.2 = Away
  | LeaveConnection => hp.2 = OverConnection
  | LeaveToolbar => hp.2 = OverToolbar
  | HideTimer | Dismiss => True
  end.

Inductive hover_run (dims : DimensionConfig) : hover * place → Prop :=
| hr_start s :
    canEdit s = true → hc_id (hoveredConnection (st_ui s)) = None →
    hover_run dims (Hover s None false false, Away)
| hr_step hp e : hover_run dims hp → hover_allowed hp e → hover_run dims (hover_step dims hp e).

Definition hover_ok (hp : hover * place) : Prop :=
  canEdit (hv_store hp.1) = true ∧
  (hp.2 ≠ OverToolbar → hv_isHoveringToolbar hp.1 = false) ∧
  (hp.2 = Away → is_Some (hovered_id hp.1) → is_Some (hv_timer hp.1)) ∧
  (hp.2 ≠ Away → hv_timer hp.1 = None).

Lemma hide_toolbar_id h : hovered_id (hide_toolbar h) = None.
Proof. done. Qed.

Lemma setHovered_canEdit s i m c : canEdit (setHoveredConnection s i m c) = canEdit s.
Proof. unfold setHoveredConnection. by repeat case_match. Qed.

Lemma hover_step_ok dims hp e : hover_ok hp → hover_allowed hp e → hover_ok (hover_step dims hp e).
Proof.
  destruct hp as [h p]. unfold hover_ok. cbn [fst snd]. intros (He & Ht & Ha & Hn) Hal. destruct e; cbn [hover_step hover_allowed fst snd] in *.
  - subst p. unfold handleConnectionEnter. rewrite He. cbn [negb].
    assert (hv_isHoveringToolbar h = false) as E by by apply Ht.
    case_bool_decide; cbn [hv_store hv_timer hv_isHoveringToolbar with_hv_store with_hv_connection with_hv_timer];
      rewrite ?setHovered_canEdit; by split_and!.
  - subst p. unfold onConnectionMouseLeave. rewrite He. cbn [negb]. simpl. split_and!; [done|by intros _; apply Ht|eauto|done].
  - unfold onToolbarHoverChange. rewrite He. simpl. by split_and!.
  - unfold onToolbarHoverChange. rewrite He. simpl. split_and!; [done|done|eauto|done].
  - unfold hide_timer_fires. destruct (hv_timer h) as [[]|] eqn:Et; [..|by rewrite Et; split_and!].
    + assert (p = Away) as -> by (destruct p; naive_solver).
      simpl. rewrite (Ht ltac:(done)). simpl. split_and!; try done. by intros _ [].
    + assert (p = Away) as -> by (destruct p; naive_solver).
      simpl. rewrite (Ht ltac:(done)). simpl. split_and!; try done. by intros _ [].
  - unfold dismissConnectionToolbar. destruct (hovered_id _) eqn:Eh; simpl; split_and!; try done; try by intros _ [].
    intros _ Hs. change (hovered_id _) with (hovered_id h) in Hs, Eh. rewrite Eh in Hs. by destruct Hs.
Qed.

Lemma hover_run_ok dims hp : hover_run dims hp → hover_ok hp.
Proof.
  induction 1 as [s He Hh|hp e _ IH Ha]; [|by apply hover_step_ok].
  split_and!; [done|done| |done]. cbn [fst]. unfold hovered_id. cbn [hv_store]. rewrite Hh. by intros _ [].
Qed.

(** As far as the handlers of the canvas go, the toolbar of a connection follows the
    pointer (what the toolbar adds is below): while the pointer is over
    the connection or the toolbar no timer is pending that could hide it, and once
    it is away from both, a toolbar that is still shown has a timer pending and is
    gone when it fires. *)
Theorem toolbar_hides dims h p :
  hover_run dims (h, p) →
  (p ≠ Away → hv_timer h = None) ∧
  (p = Away → is_Some (hovered_id h) →
   is_Some (hv_timer h) ∧ hovered_id (hover_step dims (h, p) HideTimer).1 = None).
Proof.
  intros (_ & Ht & Ha & Hn)%hover_run_ok. cbn [fst snd] in *. split; [done|]. intros -> Hs.
  destruct (Ha eq_refl Hs) as [t Et]. split; [by rewrite Et|]. cbn [hover_step fst]. unfold hide_timer_fires.
  rewrite Et. destruct t; cbn [hv_isHoveringToolbar with_hv_timer]; by rewrite (Ht ltac:(done)).
Qed.

(** ** The toolbar itself (components/connection_toolbar.js)

    It tells the canvas that the pointer is on it when it is mounted, when it is
    entered, and a while after it is left; unmounting does not stop that timer. *)

Record toolbar_view := ToolbarView {
  tb_hover : hover;
  tb_mounted : bool;
  tb_leaveTimeout : bool;
  tb_stale : nat;
}.

(** [toolbarStyle] *)
Definition toolbarStyle (show : num → string) (midpoint : option position) (zoom : num) : string :=
  let p := default (Position 0 0) midpoint in
  let z := if bool_decide (zoom = 0%Qc) then 1%Qc else zoom in
  "left: " +:+ show (pos_x p) +:+ "px; top: " +:+ show (pos_y p) +:+ "px; transform: translate(-50%, -50%) scale(" +:+ show z +:+ ");".

(** [onAddClick()], [onDeleteClick()] *)
Definition onAddClick (dims : DimensionConfig) (s : store) (drawn : list rendered) (root : rect) (t : hovered) : store :=
  match hc_id t with Some i => onConnectionAddNode dims s drawn root i (hc_midpoint t) | None => s end.
Definition onDeleteClick (s : store) (connectionId : string) : store := (removeConnection s connectionId).1.

(** Rendering: the toolbar is there while [toolbarConnection] names one. *)
Definition render_toolbar (dims : DimensionConfig) (drawn : list rendered) (t : toolbar_view) : toolbar_view :=
  match hc_id (toolbarConnection dims (hv_store (tb_hover t)) drawn), tb_mounted t with
  | Some _, false => ToolbarView (onToolbarHoverChange (tb_hover t) true) true false (tb_stale t)
  | None, true => ToolbarView (tb_hover t) false false (tb_stale t + if tb_leaveTimeout t then 1 else 0)
  | _, _ => t
  end.

(** [onMouseEnter()], [onMouseLeave()], the timer, and one left behind. *)
Definition toolbar_onMouseEnter (t : toolbar_view) : toolbar_view :=
  ToolbarView (onToolbarHoverChange (tb_hover t) true) (tb_mounted t) false (tb_stale t).
Definition toolbar_onMouseLeave (t : toolbar_view) : toolbar_view :=
  ToolbarView (tb_hover t) (tb_mounted t) true (tb_stale t).
Definition leave_fires (t : toolbar_view) : toolbar_view :=
  if tb_leaveTimeout t then ToolbarView (onToolbarHoverChange (tb_hover t) false) (tb_mounted t) false (tb_stale t) else t.
Definition stale_fires (t : toolbar_view) : toolbar_view :=
  match tb_stale t with
  | S n => ToolbarView (onToolbarHoverChange (tb_hover t) false) (tb_mounted t) (tb_leaveTimeout t) n
  | O => t
  end.

(** The canvas under it. *)
Definition on_canvas_hover (f : hover → hover) (t : toolbar_view) : toolbar_view :=
  ToolbarView (f (tb_hover t)) (tb_mounted t) (tb_leaveTimeout t) (tb_stale t).

(** Once the pointer has been on the toolbar and left it, the two timers hide it. *)
Theorem left_toolbar_hides t :
  canEdit (hv_store (tb_hover t)) = true →
  let t' := leave_fires (toolbar_onMouseLeave (toolbar_onMouseEnter t)) in
  hv_timer (tb_hover t') = Some LeftToolbar ∧
  hovered_id (tb_hover (on_canvas_hover (λ h, hide_timer_fires h false) t')) = None.
Proof.
  intros He. unfold leave_fires, toolbar_onMouseLeave, toolbar_onMouseEnter, on_canvas_hover, onToolbarHoverChange. cbn. rewrite He. cbn.
  rewrite He. done.
Qed.

(** ** The dialog *)

(** [configPanelNode] and whether the dialog has to be open. *)
Definition configPanelNode (s : store) : option string :=
  match configNodeId (panels (st_ui s)) with
  | Some i => if i =s "" then None else match shown_node s i with Some _ => Some i | None => None end
  | None => None
  end.

Definition dialog_wanted (s : store) : option string :=
  if configOpen (panels (st_ui s)) then configPanelNode s else None.

(** [_syncConfigPanelDialog()]: the dialog shown, by its node. *)
Definition syncConfigPanelDialog (s : store) (dialog : option string) : option string :=
  match dialog_wanted s with
  | None => None
  | Some i =>
      match dialog with
      | Some j => if i =s j then dialog else Some i
      | None => Some i
      end
  end.

(** [onClose] of the dialog, when the user closes it. *)
Definition dialog_closed (s : store) : store * option string :=
  (if configOpen (panels (st_ui s)) then closePanel s "config" else s, None).

Lemma sync_dialog s dialog : syncConfigPanelDialog s dialog = dialog_wanted s.
Proof.
  unfold syncConfigPanelDialog. destruct (dialog_wanted s) as [i|]; [|done]. destruct dialog as [j|]; [|done].
  case_bool_decide; congruence.
Qed.

Lemma closed_dialog_stays_closed s :
  let '(s', dialog) := dialog_closed s in syncConfigPanelDialog s' dialog = None.
Proof.
  unfold dialog_closed. destruct (configOpen (panels (st_ui s))) eqn:E; rewrite sync_dialog; unfold dialog_wanted; [done|].
  by rewrite E.
Qed.

(** ** Examples *)

Definition demo_line : rendered :=
  Rendered (UiConnection "n_1:output=>n_2:data" "n_1" "output" "n_2" "data") (ConnPath [] false false None).

Definition hover_demo : hover * place :=
  foldl (hover_step defaultDimensions) (Hover selected_demo None false false, Away)
    [EnterConnection demo_line; LeaveConnection].

Lemma toolbar_hides_witness :
  hovered_id hover_demo.1 = Some "n_1:output=>n_2:data" ∧
  hovered_id (hover_step defaultDimensions hover_demo HideTimer).1 = None.
Proof.
  assert (hovered_id hover_demo.1 = Some "n_1:output=>n_2:data") as E by (vm_compute; reflexivity).
  split; [exact E|].
  pose proof (toolbar_hides defaultDimensions hover_demo.1 hover_demo.2) as H. rewrite <- surjective_pairing in H.
  destruct H as [_ H].
  - unfold hover_demo. cbn [foldl]. apply hr_step; [apply hr_step|reflexivity].
    + apply hr_start; vm_compute; reflexivity.
    + reflexivity.
  - apply H; [vm_compute; reflexivity|]. rewrite E. eexists. reflexivity.
Defined.

(** The toolbar that appears under a pointer that never touches it counts as
    entered: leaving the connection does not hide it any more. *)
Theorem untouched_toolbar_stays :
  let t0 := ToolbarView (Hover selected_demo None false false) false false 0 in
  let t1 := render_toolbar defaultDimensions [] (on_canvas_hover (λ h, handleConnectionEnter defaultDimensions h demo_line) t0) in
  let t2 := on_canvas_hover (λ h, hide_timer_fires (onConnectionMouseLeave h) false) t1 in
  tb_mounted t2 = true ∧ hovered_id (tb_hover t2) = Some "n_1:output=>n_2:data" ∧ hv_timer (tb_hover t2) = None.
Proof. vm_compute. done. Qed.

(** A toolbar that was left and taken away at once hides the next one, although the
    pointer is on that. *)
Theorem stale_timer_hides :
  let enter_line := on_canvas_hover (λ h, handleConnectionEnter defaultDimensions h demo_line) in
  let render := render_toolbar defaultDimensions [] in
  let t0 := render (enter_line (ToolbarView (Hover selected_demo None false false) false false 0)) in
  let t1 := render (on_canvas_hover dismissConnectionToolbar (toolbar_onMouseLeave (toolbar_onMouseEnter t0))) in
  let t2 := toolbar_onMouseEnter (render (enter_line t1)) in
  let t3 := on_canvas_hover (λ h, hide_timer_fires h true) (stale_fires t2) in
  hovered_id (tb_hover t2) = Some "n_1:output=>n_2:data" ∧ hovered_id (tb_hover t3) = None.
Proof. vm_compute. done. Qed.
