(* ===== verification/CanvasLife.v ===== *)
(** * The buttons of the canvas (components/editor_canvas.js)

    [getButtons] and [getButtonsWithDividers] build the bar of buttons, each on
    its own; [canvas_flags] are the getters they read.  A callback is the
    operation it stands for.

    Then the canvas over its lifetime. *)

From S2P Require Import Prelude JsMap JsValue JsNumber Connection Control Node Editor EditorInv Adapter AdapterInv Nodes AdapterRun JsString History HistoryTimeline Commands Store StoreExec StoreInv StoreRun Dfs GraphUtils Dagre Layout Dimensions Geometry ViewportHook StoreAnyRun Drawing CanvasTidy CanvasEdit CanvasContext.

Record canvas_flags := CanvasFlags {
  cf_isEditorMode : bool;
  cf_isReadonly : bool;
  cf_isSaving : bool;
  cf_isExecuting : bool;
  cf_isInExecutionView : bool;
  cf_hasExecution : bool;
  cf_canUndo : bool;
  cf_canRedo : bool;
  cf_nodeCount : nat;
  cf_fitMenuOpen : bool;
}.

Inductive button_action :=
| OnSave | OnRun | OnCopyToEditor | OnUndo | OnRedo | OnTidyUp | OnAddNode | OnFitToView
| OnZoomOut | OnZoomIn | OnResetZoom.

#[export] Instance button_action_eq_dec : EqDecision button_action.
Proof. solve_decision. Defined.

Record fit_menu := FitMenu { fm_open : bool; fm_disabled : bool; fm_items : list (string * string * string) }.

Record button := Button {
  bt_name : string;
  bt_label : option string;
  bt_icon : string;
  bt_callback : button_action;
  bt_visible : bool;
  bt_disabled : bool;
  bt_title : option string;
  bt_classes : string;
  bt_menu : option fit_menu;
}.

Inductive bar_item := Item (b : button) | Divider (name : string).

Section bar.
Context (f : canvas_flags).

Definition hasCanvasActions : bool := cf_isEditorMode f.

(** [fitMenuItems]: key, icon and label. *)
Definition fitMenuItems : list (string * string * string) :=
  [("fit-full-width", "icon-arrow-left-right", "Fit Full Width");
   ("fit-full-height", "icon-arrow-up-down", "Fit Full Height")].

Definition save_button : button :=
  Button "save" (Some "Save") "icon-save" OnSave true
    (cf_isSaving f || cf_isExecuting f || cf_isReadonly f) None
    "btn btn-primary btn-sm d-inline-flex align-items-center gap-1" None.
Definition run_button : button :=
  Button "run" (Some "Run") "icon-play" OnRun true
    (cf_isExecuting f || cf_isSaving f || cf_isReadonly f) None
    "btn btn-success btn-sm d-inline-flex align-items-center gap-1" None.
Definition copy_button : button :=
  Button "copy-to-editor" (Some "Copy To Editor") "icon-copy" OnCopyToEditor true
    (negb (cf_hasExecution f)) None "btn btn-warning btn-sm d-inline-flex align-items-center gap-1" None.
Definition undo_button : button :=
  Button "undo" None "icon-undo-2" OnUndo true (negb (cf_canUndo f)) (Some "Undo (Ctrl+Z)")
    "btn btn-light d-inline-flex" None.
Definition redo_button : button :=
  Button "redo" None "icon-redo-2" OnRedo true (negb (cf_canRedo f)) (Some "Redo (Ctrl+Y)")
    "btn btn-light d-inline-flex" None.
Definition tidyup_button : button :=
  Button "tidyup" None "icon-sparkles" OnTidyUp true (cf_nodeCount f =? 0)%nat (Some "Tidy Up")
    "btn btn-light d-inline-flex" None.
Definition add_button : button :=
  Button "add-node" (Some "Node") "icon-plus" OnAddNode true false (Some "Add Node") "btn btn-primary btn-sm" None.
Definition fit_button : button :=
  Button "fit-view" None "icon-maximize" OnFitToView true (cf_nodeCount f =? 0)%nat (Some "Fit to View")
    "btn btn-light d-inline-flex"
    (Some (FitMenu (cf_fitMenuOpen f) (cf_isReadonly f || (cf_nodeCount f =? 0)%nat) fitMenuItems)).
Definition zoomOut_button : button :=
  Button "zoom-out" None "icon-minus" OnZoomOut true false (Some "Zoom Out") "btn btn-light d-inline-flex" None.
Definition zoomIn_button : button :=
  Button "zoom-in" None "icon-plus" OnZoomIn true false (Some "Zoom In") "btn btn-light d-inline-flex" None.
Definition reset_button : button :=
  Button "reset-zoom" None "icon-refresh-cw" OnResetZoom true false (Some "Reset View")
    "btn btn-light d-inline-flex" None.

(** [getButtons()] *)
Definition getButtons : list button :=
  let buttons := [] in
  let buttons :=
    if hasCanvasActions then
      let buttons := buttons ++ [Item save_button; Item run_button] in
      let buttons := if cf_isInExecutionView f then buttons ++ [Item copy_button] else buttons in
      buttons ++ [Divider "divider-1"]
    else buttons in
  let buttons :=
    if negb (cf_isReadonly f) then
      let buttons := buttons ++ [Item undo_button; Item redo_button] in
      let buttons := buttons ++ [Divider "divider-2"] in
      let buttons := buttons ++ [Item tidyup_button; Item add_button] in
      buttons ++ [Divider "divider-3"]
    else buttons in
  let buttons := buttons ++ [Item fit_button; Item zoomOut_button; Item zoomIn_button; Item reset_button] in
  omap (λ i, match i with Item b => if bt_visible b then Some b else None | Divider _ => None end) buttons.

(** [getButtonsWithDividers()] *)
Definition getButtonsWithDividers : list bar_item :=
  let buttons := [] in
  let buttons :=
    if hasCanvasActions then
      buttons ++ [Item save_button; Item run_button] ++ (if cf_isInExecutionView f then [Item copy_button] else []) ++
        [Divider "divider-1"]
    else buttons in
  let buttons :=
    if negb (cf_isReadonly f) then
      buttons ++ [Item undo_button; Item redo_button; Divider "divider-2"; Item tidyup_button; Item add_button;
                  Divider "divider-3"]
    else buttons in
  buttons ++ [Item fit_button; Item zoomOut_button; Item zoomIn_button; Item reset_button].

(** [getButtonDividers()] *)
Definition getButtonDividers : list bar_item :=
  bfilter (λ i, match i with Divider _ => true | Item _ => false end) getButtonsWithDividers.
End bar.

(** ** Properties *)

(** An action that changes the workflow. *)
Definition edits (a : button_action) : bool :=
  match a with
  | OnSave | OnRun | OnUndo | OnRedo | OnTidyUp | OnAddNode => true
  | OnCopyToEditor | OnFitToView | OnZoomOut | OnZoomIn | OnResetZoom => false
  end.

Definition buttons_of (l : list bar_item) : list button :=
  omap (λ i, match i with Item b => Some b | Divider _ => None end) l.

Lemma getButtons_agree f : getButtons f = buttons_of (getButtonsWithDividers f).
Proof. destruct f as [[] [] ? ? [] ? ? ? ? ?]; reflexivity. Qed.

(** The two ways to build the bar agree, and on a read-only canvas no button that
    is enabled edits, saves or runs the workflow. *)
Theorem buttons_exact f :
  getButtons f = buttons_of (getButtonsWithDividers f) ∧
  (cf_isReadonly f = true → ∀ b, b ∈ getButtons f → bt_disabled b = false → edits (bt_callback b) = false).
Proof.
  split; [apply getButtons_agree|].
  intros Hr. assert (Forall (λ b, bt_disabled b = false → edits (bt_callback b) = false) (getButtons f)) as H.
  { destruct f as [[] [] [] [] [] ? ? ? ? ?]; try discriminate Hr; by repeat constructor. }
  rewrite Forall_forall in H. exact H.
Qed.

Definition readonly_flags : canvas_flags := CanvasFlags true true false false true true true true 2 false.

Lemma buttons_exact_witness :
  Forall (λ b, bt_disabled b = false → edits (bt_callback b) = false) (getButtons readonly_flags).
Proof. apply Forall_forall. exact (proj2 (buttons_exact readonly_flags) eq_refl). Defined.

(** * The canvas over its lifetime (components/editor_canvas.js)

    What the component keeps besides its hooks: the mode it was set up in, timers
    that unmounting cancels, the last request to show a node, the caches of its
    getters, and the line drawn to the mouse.  A cache is kept under the identity of
    the array or object it was computed from: a number that a new array never
    shares. *)

(** ** Setup *)

Inductive canvas_mode := EditorMode | WidgetMode | ErrorMode.

(** [this._mode], from whether there is a service and a graph among the props. *)
Definition mode_of (hasEditorService hasGraphDataProp : bool) : canvas_mode :=
  if hasGraphDataProp then WidgetMode else if hasEditorService then EditorMode else ErrorMode.

(** The timers that unmounting cancels. *)
Inductive canvas_timer :=
| MouseMoveFrame | ConnectionHoverTimeout | JustCompletedSelectionTimeout | DeferredInsertNodeTimeout | DeferredConnectTimeout.

#[export] Instance canvas_timer_eq_dec : EqDecision canvas_timer.
Proof. solve_decision. Defined.

(** The component: its mode, the readonly flag of its own state, the timers that run,
    whether it watches its size, and the request it has answered last. *)
Record canvas_life := CanvasLife {
  cl_mode : canvas_mode;
  cl_readonly : bool;
  cl_timers : list canvas_timer;
  cl_observed : bool;
  cl_lastFocus : option N;
}.

Definition canvas_setup (hasEditorService hasGraphDataProp readonly : bool) : canvas_life :=
  CanvasLife (mode_of hasEditorService hasGraphDataProp) readonly [] false None.

(** [onMounted], [onWillUnmount] *)
Definition canvas_mounted (l : canvas_life) : canvas_life :=
  CanvasLife (cl_mode l) (cl_readonly l) (cl_timers l) true (cl_lastFocus l).

Definition clear_timer (t : canvas_timer) (ts : list canvas_timer) : list canvas_timer :=
  bfilter (λ t', negb (bool_decide (t' = t))) ts.
Definition canvas_unmounted (l : canvas_life) : canvas_life :=
  CanvasLife (cl_mode l) (cl_readonly l)
    (foldl (λ ts t, clear_timer t ts) (cl_timers l)
       [MouseMoveFrame; ConnectionHoverTimeout; JustCompletedSelectionTimeout; DeferredInsertNodeTimeout; DeferredConnectTimeout])
    false (cl_lastFocus l).

(** A timer starts; one of a kind that runs is replaced. *)
Definition start_timer (t : canvas_timer) (l : canvas_life) : canvas_life :=
  CanvasLife (cl_mode l) (cl_readonly l) (t :: clear_timer t (cl_timers l)) (cl_observed l) (cl_lastFocus l).

(** [onWillUpdateProps] and the end of [setReadonly]: whether the interactions are
    cancelled is in [CanvasInput]. *)
Definition set_readonly (l : canvas_life) (s : store) (value : bool) : canvas_life * store :=
  match cl_mode l with
  | EditorMode => (l, if eqb (readonly (st_ui s)) value then s else setReadonly s value)
  | _ => (CanvasLife (cl_mode l) value (cl_timers l) (cl_observed l) (cl_lastFocus l), s)
  end.
Definition canvas_willUpdateProps (l : canvas_life) (s : store) (nextReadonly : bool) : canvas_life * store :=
  if eqb nextReadonly (cl_readonly l) then (l, s) else set_readonly l s nextReadonly.

(** ** Requests to show a node *)

Section focus.
Context (root : option rect) (dims : option DimensionConfig).

(** [onPatched]: the view and the node it went to, if a request was answered. *)
Definition onPatched (l : canvas_life) (v : vstate) (s : store) : canvas_life * vstate * option string :=
  match focusNodeRequest (st_ui s) with
  | None => (l, v, None)
  | Some (nodeId, seq) =>
      if bool_decide (cl_lastFocus l = Some seq) then (l, v, None)
      else (CanvasLife (cl_mode l) (cl_readonly l) (cl_timers l) (cl_observed l) (Some seq),
            panToNode v root dims nodeId (state_nodes (st_adapter s)), Some nodeId)
  end.

(** The event [execution-log:focus-node]. *)
Definition log_focus (payload : jsval) (v : vstate) (nodes : list ui_node) : vstate :=
  if truthy payload && truthy (prop payload "nodeId")
  then panToNode v root dims (match prop payload "nodeId" with JStr i => i | _ => "" end) nodes else v.
End focus.

(** ** Caches *)

(** A value kept under the key it was computed for. *)
Definition memo {K V} `{EqDecision K} (k : K) (v : V) (c : option (K * V)) : option (K * V) * V :=
  match c with
  | Some (k', v') => if decide (k = k') then (c, v') else (Some (k, v), v)
  | None => (Some (k, v), v)
  end.

(** An array under its identity. *)
Record tagged (A : Type) := Tagged { tag : N; content : A }.
Arguments Tagged {_}.
Arguments tag {_}.
Arguments content {_}.

(** [selectionSet], [connectedOutputsSet] *)
Definition selectionSet (nodeIds : tagged (list string)) : option (N * list string) → option (N * list string) * list string :=
  memo (tag nodeIds) (unique (content nodeIds)).
Definition cached_outputs (cs : tagged (list ui_connection)) : option (N * list string) → option (N * list string) * list string :=
  memo (tag cs) (connectedOutputsSet (content cs)).

(** [isNodeSelected(node)] *)
Definition isNodeSelected (nodeIds : list string) (n : ui_node) : bool := existsb (λ i, bool_decide (ui_id n = Some i)) nodeIds.

(** The caches of [executedConnectionIds]: those the backend names, by array and
    length, and the connections of an order, by the order and its length only. *)
Record exec_cache := ExecCache {
  ec_named : option ((N * nat) * list jsval);
  ec_order : option ((N * nat) * list jsval);
}.
Definition no_exec_cache : exec_cache := ExecCache None None.

(** The progress: its arrays under their identities; no array is an empty one. *)
Record exec_arrays := ExecArrays { ea_ids : tagged (list jsval); ea_order : tagged (list jsval) }.

Definition as_progress (p : exec_arrays) : jsval :=
  JObj [("executedConnectionIds", JArr (content (ea_ids p))); ("executedOrder", JArr (content (ea_order p)))].

Definition cached_executed (p : exec_arrays) (cs : list ui_connection) (c : exec_cache) : exec_cache * list jsval :=
  let computed := executedConnectionIds (as_progress p) cs in
  match content (ea_ids p) with
  | _ :: _ =>
      let '(n, r) := memo (tag (ea_ids p), length (content (ea_ids p))) computed (ec_named c) in (ExecCache n (ec_order c), r)
  | [] =>
      match content (ea_order p) with
      | _ :: _ :: _ =>
          let '(o, r) := memo (tag (ea_order p), length (content (ea_order p))) computed (ec_order c) in (ExecCache (ec_named c) o, r)
      | _ => (c, [])
      end
  end.

(** ** The line to the mouse *)

Section line.
Context (show : num → string) (socketPos : ui_node → string → socket_type → position).

(** [tempConnectionPath]: what is drawn between a socket and the mouse. *)
Definition tempConnectionPath (w : drawing) (nodes : list ui_node) : string :=
  match dw_isConnecting w, dw_connectionStart w, dw_tempLineEndpoint w with
  | true, Some start, Some endpoint =>
      match find_first (λ n, bool_decide (ui_id n = Some (sr_node start))) nodes with
      | None => ""
      | Some n =>
          let startPos := socketPos n (sr_key start) (sr_type start) in
          let endPos := match dw_snappedSocket w with Some x => sn_pos x | None => endpoint end in
          let '(s, t) := match sr_type start with OutputSocket => (startPos, endPos) | InputSocket => (endPos, startPos) end in
          join " " (cp_paths (getConnectionPath show s t (detectConnectionType s t)))
      end
  | _, _, _ => ""
  end.
End line.

(** ** Properties *)

(** No timer survives unmounting. *)
Theorem unmounted_quiet l : cl_timers (canvas_unmounted l) = [] ∧ cl_observed (canvas_unmounted l) = false.
Proof.
  split; [|done]. unfold canvas_unmounted. cbn [cl_timers foldl]. unfold clear_timer.
  induction (cl_timers l) as [|t ts IH]; [done|]. cbn [bfilter].
  destruct t; repeat (rewrite bool_decide_false by done; cbn [negb bfilter]);
    rewrite bool_decide_true by done; cbn [negb bfilter]; exact IH.
Qed.

(** At most one timer of each kind runs. *)
Lemma timers_distinct l t : NoDup (cl_timers l) → NoDup (cl_timers (start_timer t l)).
Proof.
  intros H. cbn. unfold clear_timer. constructor.
  - intros [_ Hn]%elem_of_bfilter. by rewrite bool_decide_true in Hn.
  - eapply sublist_NoDup; [exact H|apply bfilter_sublist].
Qed.

(** What happens to requests: one is made, the component is patched, or something
    else changes. *)
Inductive focus_event := Request (nodeId : string) | Patched | Elsewhere (s' : store).

Record focus_run := FocusRun { fr_life : canvas_life; fr_store : store; fr_made : list N; fr_shown : list N }.

Definition focus_step (root : option rect) (dims : option DimensionConfig) (v : vstate) (r : focus_run) (e : focus_event) : focus_run :=
  match e with
  | Request i =>
      let s := focusNode (fr_store r) i in
      FocusRun (fr_life r) s (if i =s "" then fr_made r else fr_made r ++ [focusNodeRequestSeq s]) (fr_shown r)
  | Patched =>
      let '(l, _, o) := onPatched root dims (fr_life r) v (fr_store r) in
      FocusRun l (fr_store r) (fr_made r)
        (match o with Some _ => fr_shown r ++ [focusNodeRequestSeq (fr_store r)] | None => fr_shown r end)
  | Elsewhere s' =>
      if bool_decide (focusNodeRequest (st_ui s') = focusNodeRequest (st_ui (fr_store r)) ∧
                      focusNodeRequestSeq s' = focusNodeRequestSeq (fr_store r))
      then FocusRun (fr_life r) s' (fr_made r) (fr_shown r) else r
  end.

Record focus_ok (r : focus_run) : Prop := {
  fo_shown : fr_shown r `sublist_of` fr_made r;
  fo_made : NoDup (fr_made r);
  fo_bound : ∀ k, k ∈ fr_made r → (k ≤ focusNodeRequestSeq (fr_store r))%N;
  fo_last : cl_lastFocus (fr_life r) = last (fr_shown r);
  fo_request : match focusNodeRequest (st_ui (fr_store r)) with
               | None => fr_made r = []
               | Some (_, q) => last (fr_made r) = Some q ∧ q = focusNodeRequestSeq (fr_store r)
               end;
}.

Lemma sublist_before {A} (l k : list A) x : l `sublist_of` k ++ [x] → last l ≠ Some x → l `sublist_of` k.
Proof.
  intros (l1 & l2 & -> & H1 & H2)%sublist_app_r Hl. apply sublist_cons_r in H2 as [H2|(l' & -> & H2)].
  - apply sublist_nil_r in H2 as ->. by rewrite app_nil_r.
  - apply sublist_nil_r in H2 as ->. by rewrite last_snoc in Hl.
Qed.

Lemma focus_step_ok root dims v r e : focus_ok r → focus_ok (focus_step root dims v r e).
Proof.
  intros [Hsub Hnd Hle Hlast Hreq]. destruct e as [i| |s']; cbn [focus_step].
  - unfold focusNode. destruct (i =s ""); [by split|].
    set (q := (focusNodeRequestSeq (fr_store r) + 1)%N).
    assert (q ∉ fr_made r) as Hq by (intros Hk%Hle; lia).
    split; cbn [fr_shown fr_made fr_store fr_life]; try done.
    + by apply sublist_inserts_r.
    + apply NoDup_app. split; [done|]. split; [|apply NoDup_singleton]. by intros k Hk ->%list_elem_of_singleton.
    + intros k [Hk| ->%list_elem_of_singleton]%elem_of_app; [apply Hle in Hk|]; change (k ≤ q)%N || change (q ≤ q)%N; lia.
    + cbn. by rewrite last_snoc.
  - unfold onPatched. destruct (focusNodeRequest (st_ui (fr_store r))) as [[i q]|] eqn:E; [|by split; cbn; rewrite ?E].
    destruct Hreq as [Hm ->]. set (q := focusNodeRequestSeq (fr_store r)) in *.
    case_bool_decide as Hl; [by split; cbn; rewrite ?E|]. rewrite Hlast in Hl.
    split; cbn [fr_shown fr_made fr_store fr_life cl_lastFocus]; try done; [|by rewrite last_snoc|by rewrite E].
    apply last_Some in Hm as [m Hm]. rewrite Hm in Hsub |- *. apply sublist_app; [by eapply sublist_before|done].
  - case_bool_decide as E; [|by split]. destruct E as [E1 E2]. split; cbn; rewrite ?E1, ?E2; done.
Qed.

(** Every request is answered at most once, in the order of the requests, and a patch
    leaves the last one answered, in editors that were not focused before. *)
Theorem focus_exactly_once reg root dims v hasGraph readonly es :
  let r0 := FocusRun (canvas_setup true hasGraph readonly) (new_store reg) [] [] in
  let r := foldl (focus_step root dims v) r0 es in
  fr_shown r `sublist_of` fr_made r ∧ NoDup (fr_shown r) ∧
  last (fr_shown (focus_step root dims v r Patched)) = last (fr_made r).
Proof.
  intros r0 r. assert (focus_ok r) as [Hsub Hnd Hle Hlast Hreq].
  { subst r. assert (focus_ok r0) as H0 by (split; [done|constructor|by intros k ?%not_elem_of_nil|done|done]).
    clearbody r0. revert r0 H0. induction es as [|e es IH]; intros r0 H0; cbn [foldl]; [done|]. apply IH. by apply focus_step_ok. }
  split; [done|]. split; [by eapply sublist_NoDup|]. cbn [focus_step]. unfold onPatched.
  destruct (focusNodeRequest _) as [[i q]|]; cbn [fr_shown].
  - destruct Hreq as [Hm ->]. case_bool_decide as E; cbn [fr_shown]; [by rewrite Hm, <- Hlast|by rewrite last_snoc].
  - rewrite Hreq in Hsub |- *. apply sublist_nil_r in Hsub as ->. done.
Qed.

(** A canvas that is mounted again, after the form was shown, answers the last request
    once more. *)
Theorem remount_replays_focus root dims v s i readonly :
  i ≠ "" → (onPatched root dims (canvas_setup true false readonly) v (focusNode s i)).2 = Some i.
Proof. intros Hi. unfold onPatched, focusNode. by rewrite bool_decide_false. Qed.

(** A cache is right as long as equal keys mean equal values: then every read gives
    what would be computed. *)
Theorem memo_exact {K V} `{EqDecision K} (compute : K → V) (ks : list K) (c : option (K * V)) k :
  c = None →
  (memo k (compute k) (foldl (λ c k, (memo k (compute k) c).1) c ks)).2 = compute k.
Proof.
  intros ->. assert (∀ c, (∀ k v, c = Some (k, v) → v = compute k) →
    ∀ k v, foldl (λ c k, (memo k (compute k) c).1) c ks = Some (k, v) → v = compute k) as Hinv.
  { induction ks as [|k1 ks IH]; intros c Hc; cbn [foldl]; [done|]. apply IH. intros k2 v2. unfold memo.
    destruct c as [[k' v']|]; [|by intros [= <- <-]]. destruct (decide (k1 = k')); [by intros ?%Hc|by intros [= <- <-]]. }
  specialize (Hinv None ltac:(done)). unfold memo at 1. destruct (foldl _ None ks) as [[k' v']|]; [|done].
  destruct (decide (k = k')) as [->|]; [|done]. cbn. by apply Hinv.
Qed.

(** The connections on the path of an order are kept when the connections change
    under it, as undo makes them: a connection that is back is not on it. *)
Definition the_order : exec_arrays := ExecArrays (Tagged 1 []) (Tagged 2 [JStr "n_1"; JStr "n_2"]).
Definition the_connection : ui_connection := UiConnection "c" "n_1" "output" "n_2" "data".
Theorem highlight_stale :
  let c := (cached_executed the_order [] no_exec_cache).1 in
  (cached_executed the_order [the_connection] c).2 = [] ∧
  (cached_executed the_order [the_connection] no_exec_cache).2 = [JStr "c"].
Proof. vm_compute. done. Qed.

(** In editor mode the readonly flag of the props works once: it is compared with the
    flag the component was set up with, so taking it back does nothing. *)
Theorem readonly_prop_sticks s :
  readonly (st_ui s) = false →
  let l := canvas_setup true false false in
  let '(l1, s1) := canvas_willUpdateProps l s true in
  let '(l2, s2) := canvas_willUpdateProps l1 s1 false in
  readonly (st_ui s1) = true ∧ readonly (st_ui s2) = true.
Proof. intros Hr. cbn. unfold set_readonly. cbn. rewrite Hr. cbn. done. Qed.

(** ** What the configuration panel may do ([nodeConfigActions])

    The actions that the canvas hands to the panel and that change the store; the
    others read or ask the backend. *)

Inductive config_action :=
| ActSetNodeMeta (nodeId : string) (meta : jsobj)
| ActRenameNode (nodeId label : string)
| ActSetNodeConfig (nodeId : string) (values : jsobj)
| ActOpenNodeConfig (nodeId : string)
| ActPinNodeData (nodeId : string) (nodeRunId : jsval)
| ActUnpinNodeData (nodeId : string)
| ActReplaceExecutionNodeResult (nodeResult : jsval).

Definition nodeConfigActions (s : store) (a : config_action) : store :=
  match a with
  | ActSetNodeMeta i meta => (service s (SetNodeMeta i meta)).1
  | ActRenameNode i label => (service s (RenameNode i label)).1
  | ActSetNodeConfig i values => (service s (SetNodeConfig i values)).1
  | ActOpenNodeConfig i => onNodeOpenConfig s i
  | ActPinNodeData i r => (pinNodeData s i r).1.1
  | ActUnpinNodeData i => (unpinNodeData s i).1
  | ActReplaceExecutionNodeResult r => (replaceExecutionNodeResult s r).1
  end.

(** Past the writes into a node, an action leaves the graph and its history alone. *)
Lemma action_writes reg s a :
  (∃ o, writes o = true ∧ nodeConfigActions s a = with_adapter s (exec_op reg (st_adapter s) o))
  ∨ st_adapter (nodeConfigActions s a) = st_adapter s ∧ st_history (nodeConfigActions s a) = st_history s.
Proof.
  destruct a; cbn [nodeConfigActions].
  - left. by exists (OpSetNodeMeta nodeId meta).
  - left. by exists (OpSetNodeLabel nodeId label).
  - left. by exists (OpSetNodeConfig nodeId values).
  - right. unfold onNodeOpenConfig, openPanel. by repeat case_match.
  - right. unfold pinNodeData. by repeat case_match.
  - right. unfold unpinNodeData. by repeat case_match.
  - right. unfold replaceExecutionNodeResult. by repeat case_match.
Qed.

(** The panel may be used at any point of a run of the store: the graph stays in step
    with its rendered copy, everything stays undoable, and no action adds, removes or
    retypes a node, or touches a connection. *)
Theorem config_actions_keep_run reg s a :
  odoo_ok reg → any_run reg s →
  any_run reg (nodeConfigActions s a)
  ∧ nshape (st_adapter (nodeConfigActions s a)) = nshape (st_adapter s)
  ∧ cshape (st_adapter (nodeConfigActions s a)) = cshape (st_adapter s).
Proof.
  intros Hreg Hs. destruct (any_run_follows reg Hreg s Hs) as [t Ht%follows_inv].
  destruct (action_writes reg s a) as [(o & Ho & ->)|[Ea Eh]].
  - split; [by eapply ar_edit; [exact Hs|apply ae_write]|]. cbn [st_adapter with_adapter]. by apply writes_shape.
  - rewrite Ea. split; [|done]. eapply ar_edit; [exact Hs|by apply ae_other].
Qed.
