(* ===== verification/Context.v ===== *)
(** * The execution context (core/context.js)

    Variables addressed by paths, outputs of nodes, a stack of loops and data kept
    per node.  Values are trees: what is stored is not also reached through
    another variable.  An assignment that reaches a name an object inherits
    ([__proto__], [constructor], [toString], ...) and not one of its own goes on in
    an object that all objects share: it is [Outside] the model, as is writing a
    property that is not an index on an array.  Reading an inherited name, which
    gives a function or a prototype, gives no value here.

    Then the helpers that a running node is handed. *)

From S2P Require Import Prelude JsMap JsValue JsNumber Node Adapter JsString Store Expression Clipboard.

(** What an assignment along a path gives. *)
Inductive result (A : Type) := Done (a : A) | Raised (msg : string) | Outside.
Arguments Done {_}.
Arguments Raised {_}.
Arguments Outside {_}.

#[export] Instance result_ret : MRet result := λ A a, Done a.
#[export] Instance result_bind : MBind result := λ A B f x,
  match x with Done a => f a | Raised m => Raised m | Outside => Outside end.

Definition type_error : string := "TypeError".

(** ** Reading and writing a property *)

(** The names that objects, and other values, inherit. *)
Definition object_names : list string :=
  ["__proto__"; "constructor"; "hasOwnProperty"; "isPrototypeOf"; "propertyIsEnumerable"; "toLocaleString";
   "toString"; "valueOf"; "__defineGetter__"; "__defineSetter__"; "__lookupGetter__"; "__lookupSetter__"].

Definition array_names : list string :=
  ["at"; "concat"; "copyWithin"; "entries"; "every"; "fill"; "filter"; "find"; "findIndex"; "findLast";
   "findLastIndex"; "flat"; "flatMap"; "forEach"; "includes"; "indexOf"; "join"; "keys"; "lastIndexOf"; "map";
   "pop"; "push"; "reduce"; "reduceRight"; "reverse"; "shift"; "slice"; "some"; "sort"; "splice"; "toReversed";
   "toSorted"; "toSpliced"; "unshift"; "values"; "with"].

Definition string_names : list string :=
  ["anchor"; "at"; "big"; "blink"; "bold"; "charAt"; "charCodeAt"; "codePointAt"; "concat"; "endsWith"; "fixed";
   "fontcolor"; "fontsize"; "includes"; "indexOf"; "isWellFormed"; "italics"; "lastIndexOf"; "link";
   "localeCompare"; "match"; "matchAll"; "normalize"; "padEnd"; "padStart"; "repeat"; "replace"; "replaceAll";
   "search"; "slice"; "small"; "split"; "startsWith"; "strike"; "sub"; "substr"; "substring"; "sup";
   "toLocaleLowerCase"; "toLocaleUpperCase"; "toLowerCase"; "toUpperCase"; "toWellFormed"; "trim"; "trimEnd";
   "trimLeft"; "trimRight"; "trimStart"].

Definition number_names : list string := ["toExponential"; "toFixed"; "toPrecision"].

(** Whether a name that [v] does not have itself is one that it inherits. *)
Definition inherits (v : jsval) (k : string) : bool :=
  bool_decide (k ∈ object_names) ||
  match v with
  | JArr _ => bool_decide (k ∈ array_names)
  | JStr _ => bool_decide (k ∈ string_names)
  | JNum _ => bool_decide (k ∈ number_names)
  | _ => false
  end.

Definition own (v : jsval) (k : string) : bool :=
  match v with
  | JObj o => jhas k o
  | JArr l => match array_index k with Some i => (N.to_nat i <? length l)%nat | None => k =s "length" end
  | JStr s => match array_index k with Some i => (N.to_nat i <? String.length s)%nat | None => k =s "length" end
  | _ => false
  end.

(** [v[k]], with its exception. *)
Definition read (v : jsval) (k : string) : result jsval :=
  if is_nullish v then Raised type_error
  else if negb (own v k) && inherits v k then Outside
  else Done (prop v k).

(** [v[i]] for a number. *)
Definition prop_at (v : jsval) (i : N) : jsval :=
  match v with
  | JArr l => default JUndef (l !! N.to_nat i)
  | JObj o => default JUndef (jget (pretty i) o)
  | JStr s => str_index s (N.to_nat i)
  | _ => JUndef
  end.

(** [l[i] = x]: an index past the end extends the array. *)
Definition set_index (l : list jsval) (i : nat) (x : jsval) : list jsval :=
  if (i <? length l)%nat then <[i := x]> l else l ++ replicate (i - length l) JUndef ++ [x].

Definition write_at (v : jsval) (i : N) (x : jsval) : result jsval :=
  match v with
  | JArr l => if (i <? 4294967295)%N then Done (JArr (set_index l (N.to_nat i) x)) else Outside
  | JObj o => Done (JObj (oset (pretty i) x o))
  | _ => Raised type_error
  end.

(** [v[k] = x]; [__proto__] is the prototype of the object. *)
Definition write (v : jsval) (k : string) (x : jsval) : result jsval :=
  match v with
  | JObj o => if k =s "__proto__" then Outside else Done (JObj (oset k x o))
  | JArr l => match array_index k with
              | Some i => Done (JArr (set_index l (N.to_nat i) x))
              | None => Outside
              end
  | _ => Raised type_error
  end.

(** [k in v] *)
Definition has_prop (v : jsval) (k : string) : result bool :=
  match v with
  | JObj _ | JArr _ => if own v k then Done true else if inherits v k then Outside else Done false
  | _ => Raised type_error
  end.

(** ** Paths *)

(** [part.match(/^(\w+)\[(\d+)\]$/)] *)
Definition array_part (part : string) : option (string * N) :=
  let '(name, rest) := span word_char part in
  if name =s "" then None
  else match strip_prefix "[" rest with
       | None => None
       | Some rest =>
           let '(digits, rest) := span is_digit rest in
           if (digits =s "") || negb (rest =s "]") then None else Some (name, parse_digits 0 digits)
       end.

(** One step of [_resolvePath]; [current] is not nullish. *)
Definition resolve_step (current : jsval) (part : string) : jsval :=
  match array_part part with
  | Some (name, i) =>
      let v := prop current name in
      if is_nullish v then JUndef else prop_at v i
  | None => prop current part
  end.

Fixpoint resolve_parts (current : jsval) (parts : list string) : jsval :=
  match parts with
  | [] => current
  | part :: parts => if is_nullish current then JUndef else resolve_parts (resolve_step current part) parts
  end.

(** [_resolvePath(obj, path)] *)
Definition resolvePath (obj : jsval) (path : string) : jsval :=
  if path =s "" then obj
  else if is_nullish obj then JUndef
  else resolve_parts obj (split_on "." path).

(** What is found under a part, or the container that is put there. *)
Definition or_array (v : jsval) : jsval := if truthy v then v else JArr [].
Definition or_fresh (v : jsval) : jsval := if truthy v then v else JObj [].

(** [_setPath(obj, path, value)]; what is written below a container is written
    back into it. *)
Fixpoint set_parts (current : jsval) (parts : list string) (value : jsval) : result jsval :=
  match parts with
  | [] => Done current
  | [part] =>
      match array_part part with
      | Some (name, i) =>
          v ← read current name;
          let arr := or_array v in
          arr ← write_at arr i value;
          write current name arr
      | None => write current part value
      end
  | part :: parts =>
      match array_part part with
      | Some (name, i) =>
          v ← read current name;
          let arr := or_array v in
          el ← set_parts (or_fresh (prop_at arr i)) parts value;
          arr ← write_at arr i el;
          write current name arr
      | None =>
          there ← has_prop current part;
          let v := prop current part in
          el ← set_parts (if there && negb (strict_eq v JNull) then v else JObj []) parts value;
          write current part el
      end
  end.

(** ** The context *)

Record loop_state := LoopState { ls_collection : list jsval; ls_index : nat; ls_total : nat }.

(** The innermost loop is the head of [cx_loopStack]. *)
Record exec_context := ExecContext {
  cx_vars : jsobj;
  cx_nodeOutputs : jsobj;
  cx_currentNodeId : option string;
  cx_loopStack : list loop_state;
  cx_nodeContext : list (string * jsval);
  cx_currentInput : jsval;
}.

Definition new_context : exec_context := ExecContext [] [] None [] [] JNull.

Definition with_vars (c : exec_context) (x : jsobj) : exec_context :=
  ExecContext x (cx_nodeOutputs c) (cx_currentNodeId c) (cx_loopStack c) (cx_nodeContext c) (cx_currentInput c).
Definition with_loopStack (c : exec_context) (x : list loop_state) : exec_context :=
  ExecContext (cx_vars c) (cx_nodeOutputs c) (cx_currentNodeId c) x (cx_nodeContext c) (cx_currentInput c).
Definition with_nodeContext (c : exec_context) (x : list (string * jsval)) : exec_context :=
  ExecContext (cx_vars c) (cx_nodeOutputs c) (cx_currentNodeId c) (cx_loopStack c) x (cx_currentInput c).

(** *** Variables *)

Definition getVariable (c : exec_context) (path : string) : jsval := resolvePath (JObj (cx_vars c)) path.

Definition put_vars (c : exec_context) (v : jsval) : exec_context :=
  match v with JObj o => with_vars c o | _ => c end.

Definition setVariable (c : exec_context) (path : string) (value : jsval) : result exec_context :=
  if path =s "" then Raised "Variable path is required"
  else v ← set_parts (JObj (cx_vars c)) (split_on "." path) value; Done (put_vars c v).

(** [appendVariable(path, value)]; the array is extended in place. *)
Definition appendVariable (c : exec_context) (path : string) (value : jsval) : result exec_context :=
  match getVariable c path with
  | JUndef => c ← setVariable c path (JArr []); setVariable c path (JArr [value])
  | JArr l => setVariable c path (JArr (l ++ [value]))
  | _ => Raised ("Cannot append to non-array at path: " +:+ path)
  end.

(** [mergeVariable(path, value)]; with no path the variables themselves. *)
Definition mergeVariable (c : exec_context) (path : string) (value : jsval) : result exec_context :=
  match getVariable c path with
  | JUndef => c ← setVariable c path (JObj []); setVariable c path (JObj (ospread [] (entries value)))
  | JObj o =>
      if path =s "" then Done (with_vars c (ospread o (entries value)))
      else setVariable c path (JObj (ospread o (entries value)))
  | _ => Raised ("Cannot merge into non-object at path: " +:+ path)
  end.

(** [incrementVariable(path, amount)] of a number or nothing; [+] on other
    values is outside. *)
Definition incrementVariable (c : exec_context) (path : string) (amount : num) : result (exec_context * num) :=
  match js_or (getVariable c path) (JInt 0) with
  | JNum current =>
      let newValue := (current + amount)%Qc in
      c ← setVariable c path (JNum newValue); Done (c, newValue)
  | _ => Outside
  end.

(** [parts.slice(0, -1)] and the last part. *)
Definition split_last (parts : list string) : list string * string :=
  (removelast parts, default "" (last parts)).

(** [deleteVariable(path)] *)
Definition deleteVariable (c : exec_context) (path : string) : result exec_context :=
  if path =s "" then Done c
  else match split_on "." path with
       | [_] => Done (with_vars c (jdel path (cx_vars c)))
       | parts =>
           let '(parentParts, key) := split_last parts in
           let parentPath := join "." parentParts in
           match getVariable c parentPath with
           | JObj o => 
               if parentPath =s "" then Done (with_vars c (jdel key (cx_vars c)))
               else setVariable c parentPath (JObj (jdel key o))
           | JArr l =>
               match array_index key with
               | Some i => setVariable c parentPath
                   (JArr (if (N.to_nat i <? length l)%nat then <[N.to_nat i := JUndef]> l else l))
               | None => Done c
               end
           | _ => Done c
           end
       end.

Definition hasVariable (c : exec_context) (path : string) : bool :=
  match getVariable c path with JUndef => false | _ => true end.

Definition getAllVariables (c : exec_context) : jsobj := json_object (cx_vars c).

(** *** Outputs *)

Definition setNodeOutput (c : exec_context) (nodeId : string) (output : jsval) : exec_context :=
  ExecContext (cx_vars c) (oset nodeId output (cx_nodeOutputs c)) (Some nodeId) (cx_loopStack c)
    (cx_nodeContext c) (cx_currentInput c).

Definition getNodeOutput (c : exec_context) (nodeId : string) : jsval := oprop (cx_nodeOutputs c) nodeId.

(** [_json] *)
Definition context_json (c : exec_context) : jsval :=
  match cx_currentNodeId c with
  | None => JObj []
  | Some i =>
      if i =s "" then JObj []
      else
        let out := oprop (cx_nodeOutputs c) i in
        js_or (js_or (if is_nullish out then JUndef else prop out "json") out) (JObj [])
  end.

(** *** Input and loops *)

Definition setCurrentInput (c : exec_context) (data : jsval) : exec_context :=
  ExecContext (cx_vars c) (cx_nodeOutputs c) (cx_currentNodeId c) (cx_loopStack c) (cx_nodeContext c) data.

Definition pushLoop (c : exec_context) (collection : jsval) : result exec_context :=
  match collection with
  | JArr l => Done (with_loopStack c (LoopState l 0 (length l) :: cx_loopStack c))
  | _ => Raised "Loop collection must be an array"
  end.

Definition popLoop (c : exec_context) : exec_context * option loop_state :=
  match cx_loopStack c with
  | [] => (c, None)
  | s :: stack => (with_loopStack c stack, Some s)
  end.

(** [_loop] *)
Record loop_view := LoopView { lv_item : jsval; lv_index : nat; lv_total : nat; lv_isFirst : bool; lv_isLast : bool }.

Definition context_loop (c : exec_context) : option loop_view :=
  match cx_loopStack c with
  | [] => None
  | s :: _ =>
      if (ls_total s =? 0)%nat then None
      else Some (LoopView (default JUndef (ls_collection s !! ls_index s)) (ls_index s) (ls_total s)
                   (ls_index s =? 0)%nat (ls_index s =? ls_total s - 1)%nat)
  end.

Definition advanceLoop (c : exec_context) : exec_context * bool :=
  match cx_loopStack c with
  | [] => (c, false)
  | s :: stack =>
      let i := S (ls_index s) in
      (with_loopStack c (LoopState (ls_collection s) i (ls_total s) :: stack), (i <? ls_total s)%nat)
  end.

Definition isInLoop (c : exec_context) : bool := (0 <? length (cx_loopStack c))%nat.
Definition getLoopDepth (c : exec_context) : nat := length (cx_loopStack c).

(** [_input] *)
Definition context_input (c : exec_context) : jsobj :=
  match cx_loopStack c with
  | _ :: _ =>
      let item := match context_loop c with Some v => lv_item v | None => JUndef end in
      let index := match context_loop c with Some v => JInt (Z.of_nat (lv_index v)) | None => JUndef end in
      [("item", item); ("json", item); ("index", index)]
  | [] => [("item", cx_currentInput c); ("json", cx_currentInput c)]
  end.

(** *** Data kept per node *)

Definition getNodeContext (c : exec_context) (nodeId : string) : jsval := oprop (cx_nodeContext c) nodeId.
Definition setNodeContext (c : exec_context) (nodeId : string) (context : jsval) : exec_context :=
  if is_nullish context then with_nodeContext c (jdel nodeId (cx_nodeContext c))
  else with_nodeContext c (mset nodeId context (cx_nodeContext c)).
Definition hasNodeContext (c : exec_context) (nodeId : string) : bool := jhas nodeId (cx_nodeContext c).
Definition clearNodeContexts (c : exec_context) : exec_context := with_nodeContext c [].

(** *** Views and serialization *)

Definition loop_object (v : loop_view) : jsval :=
  JObj [("item", lv_item v); ("index", JInt (Z.of_nat (lv_index v))); ("total", JInt (Z.of_nat (lv_total v)));
        ("isFirst", JBool (lv_isFirst v)); ("isLast", JBool (lv_isLast v))].

Definition toExpressionContext (c : exec_context) : jsobj :=
  [("_vars", JObj (cx_vars c)); ("_node", JObj (cx_nodeOutputs c)); ("_json", context_json c);
   ("_loop", match context_loop c with Some v => loop_object v | None => JNull end);
   ("_input", JObj (context_input c))].

Definition context_toJSON (c : exec_context) : jsobj :=
  [("vars", JObj (json_object (cx_vars c))); ("nodeOutputs", JObj (json_object (cx_nodeOutputs c)));
   ("currentNodeId", match cx_currentNodeId c with Some i => JStr i | None => JNull end)].

Definition as_object (v : jsval) : jsobj := match js_or v (JObj []) with JObj o => o | _ => [] end.

Definition context_fromJSON (c : exec_context) (data : jsobj) : exec_context :=
  ExecContext (as_object (oprop data "vars")) (as_object (oprop data "nodeOutputs"))
    (match oprop data "currentNodeId" with JStr i => if i =s "" then None else Some i | _ => None end)
    [] (cx_nodeContext c) (cx_currentInput c).

Definition context_clear (c : exec_context) : exec_context :=
  ExecContext [] [] None [] (cx_nodeContext c) (cx_currentInput c).

(** ** Facts *)

Lemma set_index_lookup l i x : set_index l i x !! i = Some x.
Proof.
  unfold set_index. destruct (i <? length l)%nat eqn:E.
  - apply Nat.ltb_lt in E. by apply list_lookup_insert_eq.
  - apply Nat.ltb_ge in E. rewrite lookup_app_r by done. rewrite lookup_app_r; rewrite length_replicate; [|lia].
    by rewrite Nat.sub_diag.
Qed.

Lemma write_spec v k x v' : write v k x = Done v' → prop v' k = x ∧ is_nullish v' = false.
Proof.
  unfold write. destruct v as [| | | | |l|o]; try discriminate.
  - destruct (array_index k) as [i|] eqn:E; [|discriminate]. intros [= <-]. simpl. rewrite E. by rewrite set_index_lookup.
  - case_bool_decide; [discriminate|]. intros [= <-]. simpl. by rewrite jget_oset_eq.
Qed.

Lemma write_at_spec v i x v' : write_at v i x = Done v' → prop_at v' i = x ∧ is_nullish v' = false.
Proof.
  unfold write_at. destruct v as [| | | | |l|o]; try discriminate.
  - destruct (i <? 4294967295)%N; [|discriminate]. intros [= <-]. simpl. by rewrite set_index_lookup.
  - intros [= <-]. simpl. by rewrite jget_oset_eq.
Qed.

Lemma bind_Done {A B} (x : result A) (f : A → result B) b :
  x ≫= f = Done b → ∃ a, x = Done a ∧ f a = Done b.
Proof. destruct x; [|done..]. intros H. by exists a. Qed.

(** The step of [set_parts] that is not the last. *)
Lemma set_parts_cons cur part p2 parts v :
  set_parts cur (part :: p2 :: parts) v =
    match array_part part with
    | Some (name, i) =>
        v0 ← read cur name; el ← set_parts (or_fresh (prop_at (or_array v0) i)) (p2 :: parts) v;
        arr ← write_at (or_array v0) i el; write cur name arr
    | None =>
        there ← has_prop cur part;
        el ← set_parts (if there && negb (strict_eq (prop cur part) JNull) then prop cur part else JObj [])
               (p2 :: parts) v;
        write cur part el
    end.
Proof. done. Qed.

(** What was written is read. *)
Lemma set_parts_resolve parts cur v cur' :
  parts ≠ [] → set_parts cur parts v = Done cur' → resolve_parts cur' parts = v ∧ is_nullish cur' = false.
Proof.
  revert cur cur'. induction parts as [|part parts IH]; intros cur cur' Hne H; [done|]. clear Hne.
  assert (∃ x, write cur (match array_part part with Some (name, _) => name | None => part end) x = Done cur' ∧
    match array_part part with Some (_, i) => is_nullish x = false ∧ resolve_parts (prop_at x i) parts = v
                             | None => resolve_parts x parts = v end) as (x & Hw & Hx).
  { destruct parts as [|p2 parts]; cbn [set_parts] in H.
    - destruct (array_part part) as [[name i]|].
      + apply bind_Done in H as (w & _ & H). apply bind_Done in H as (arr & Ha & H).
        exists arr. apply write_at_spec in Ha as [Ha1 Ha2]. by simpl.
      + by exists v.
    - destruct (array_part part) as [[name i]|].
      + apply bind_Done in H as (w & _ & H). apply bind_Done in H as (el & He & H).
        apply bind_Done in H as (arr & Ha & H). exists arr. apply write_at_spec in Ha as [Ha1 Ha2].
        split_and!; [done|done|]. rewrite Ha1. by apply (IH _ _ ltac:(done) He).
      + apply bind_Done in H as (b & _ & H). apply bind_Done in H as (el & He & H).
        exists el. split; [done|]. by apply (IH _ _ ltac:(done) He). }
  apply write_spec in Hw as [Hp Hn]. split; [|done]. cbn [resolve_parts]. rewrite Hn. unfold resolve_step.
  destruct (array_part part) as [[name i]|]; rewrite Hp; [|done]. destruct Hx as [-> Hx]. done.
Qed.

Definition head_name (path : string) : string :=
  match split_on "." path with
  | part :: _ => match array_part part with Some (name, _) => name | None => part end
  | [] => ""
  end.

(** Only the variable a path begins with is written. *)
Lemma set_parts_frame o part parts v cur' :
  set_parts (JObj o) (part :: parts) v = Done cur' →
  ∃ x, cur' = JObj (oset (match array_part part with Some (name, _) => name | None => part end) x o).
Proof.
  intros H. destruct parts as [|p2 parts]; cbn [set_parts] in H; destruct (array_part part) as [[name i]|];
    repeat (apply bind_Done in H as (? & _ & H)); simpl in H; case_bool_decide; [discriminate| |discriminate| |discriminate| |discriminate|];
    injection H as <-; by eexists.
Qed.

Lemma split_on_cons c s : ∃ w ws, split_on c s = w :: ws.
Proof.
  induction s as [|d s (w & ws & IH)]; simpl; [by eexists _, _|]. rewrite IH. case_bool_decide; by eexists _, _.
Qed.

(** Parts of paths with an index that an array can have, and with a name that
    objects do not inherit. *)
Definition plain_part (part : string) : bool :=
  match array_part part with
  | Some (name, i) => (i <? 4294967295)%N && negb (bool_decide (name ∈ object_names))
  | None => negb (bool_decide (part ∈ object_names))
  end.

Lemma write_plain o k x : k ∉ object_names → write (JObj o) k x = Done (JObj (oset k x o)).
Proof. intros Hk. simpl. rewrite bool_decide_false; [done|]. intros ->. apply Hk. left. Qed.

Lemma read_plain o k : k ∉ object_names → read (JObj o) k = Done (default JUndef (jget k o)).
Proof. intros Hk. unfold read, inherits. cbn [is_nullish]. by rewrite (bool_decide_false _ Hk), andb_false_r. Qed.

Lemma has_prop_new o k : k ∉ object_names → jget k o = None → has_prop (JObj o) k = Done false.
Proof. intros Hk Ho. unfold has_prop, own, inherits, jhas. by rewrite Ho, (bool_decide_false _ Hk). Qed.

Lemma set_parts_fresh parts o part v :
  Forall (λ p, plain_part p = true) (part :: parts) →
  jget (match array_part part with Some (name, _) => name | None => part end) o = None →
  ∃ cur', set_parts (JObj o) (part :: parts) v = Done cur'.
Proof.
  revert o part. induction parts as [|p2 parts IH]; intros o part Hs Ho; apply Forall_cons in Hs as [Hp Hs];
    unfold plain_part in Hp; destruct (array_part part) as [[name i]|] eqn:Ea;
    rewrite ?andb_true_iff, ?negb_true_iff, ?bool_decide_eq_false in Hp.
  - destruct Hp as [Hi Hp]. cbn [set_parts]. rewrite Ea, read_plain, Ho by done. cbn [mbind result_bind].
    cbn [or_array default from_option truthy write_at]. rewrite Hi. cbn [mbind result_bind]. rewrite write_plain by done. by eexists.
  - cbn [set_parts]. rewrite Ea, write_plain by done. by eexists.
  - destruct Hp as [Hi Hp]. rewrite set_parts_cons, Ea, read_plain, Ho by done. cbn [mbind result_bind].
    replace (or_fresh (prop_at (or_array (default JUndef None)) i)) with (JObj [])
      by (unfold prop_at; cbn [or_array default from_option truthy]; by rewrite lookup_nil).
    destruct (IH [] p2 Hs) as [el ->]; [done|]. cbn [mbind result_bind or_array default from_option truthy write_at].
    rewrite Hi. cbn [mbind result_bind].
    rewrite write_plain by done. by eexists.
  - rewrite set_parts_cons, Ea, has_prop_new by done. cbn [mbind result_bind andb].
    destruct (IH [] p2 Hs) as [el ->]; [done|]. cbn [mbind result_bind]. rewrite write_plain by done. by eexists.
Qed.

Lemma getVariable_other c x name path :
  head_name path ≠ name → path ≠ "" →
  getVariable (with_vars c (oset name x (cx_vars c))) path = getVariable c path.
Proof.
  intros Hne Hp. unfold getVariable, resolvePath. rewrite !bool_decide_false by done. simpl.
  unfold head_name in Hne. destruct (split_on_cons "." path) as (w & ws & E). rewrite E in *.
  cbn [resolve_parts is_nullish]. f_equal. unfold resolve_step. destruct (array_part w) as [[n i]|]; simpl;
    by rewrite jget_oset_ne by congruence.
Qed.

Lemma setVariable_get c path v c' : setVariable c path v = Done c' → getVariable c' path = v.
Proof.
  unfold setVariable. destruct (bool_decide_reflect (path = "")); [done|]. intros H.
  destruct (split_on_cons "." path) as (w & ws & E). apply bind_Done in H as (o & Hs & [= <-]).
  destruct (set_parts_resolve (split_on "." path) (JObj (cx_vars c)) v o) as [Hr _]; [by rewrite E|done|].
  rewrite E in Hs. apply set_parts_frame in Hs as (x & ->). simpl.
  unfold getVariable, resolvePath. rewrite bool_decide_false by done. exact Hr.
Qed.

(** ** Properties *)

(** C19: a variable that was set at a path is read at this path, whatever the path
    goes through, and no variable of another name changes; setting succeeds when
    the path begins with a new name, no index is too large for an array and no part
    of the path is a name that objects inherit.  (What is set below an inherited
    name, [__proto__.x] say, changes an object that all share: that is outside.) *)
Theorem set_get_variable c path v :
  path ≠ "" →
  (∀ c', setVariable c path v = Done c' →
     getVariable c' path = v ∧
     ∀ other, other ≠ "" → head_name other ≠ head_name path → getVariable c' other = getVariable c other) ∧
  (jget (head_name path) (cx_vars c) = None → Forall (λ p, plain_part p = true) (split_on "." path) →
   ∃ c', setVariable c path v = Done c').
Proof.
  intros Hp. unfold setVariable. rewrite bool_decide_false by done.
  destruct (split_on_cons "." path) as (w & ws & E).
  split.
  - intros c' H. split.
    { apply (setVariable_get c). unfold setVariable. by rewrite bool_decide_false by done. }
    apply bind_Done in H as (o & Hf & [= <-]). rewrite E in Hf. apply set_parts_frame in Hf as (x & ->). simpl.
    intros other Ho Hh. unfold head_name in Hh at 2. rewrite E in Hh. by apply getVariable_other.
  - intros Hn Hs. unfold head_name in Hn. rewrite E in Hn, Hs |- *.
    destruct (set_parts_fresh ws (cx_vars c) w v Hs Hn) as [o Ho]. rewrite Ho. by eexists.
Qed.

Lemma set_get_variable_witness :
  let c := default new_context (match setVariable new_context "result.lines[2].qty" (JInt 5) with
                                | Done c => Some c | _ => None end) in
  getVariable c "result.lines[2].qty" = JInt 5.
Proof.
  intros c. refine (proj1 (proj1 (set_get_variable new_context "result.lines[2].qty" (JInt 5) _) c _)).
  - discriminate.
  - vm_compute. reflexivity.
Defined.

(** What is appended is read back at the end of the list. *)
Lemma append_get c path v c' :
  appendVariable c path v = Done c' →
  ∃ l, getVariable c' path = JArr (l ++ [v]) ∧ (getVariable c path = JArr l ∨ getVariable c path = JUndef ∧ l = []).
Proof.
  intros H. unfold appendVariable in H. destruct (getVariable c path) eqn:E; try discriminate H.
  - apply bind_Done in H as (c1 & _ & H). exists []. split; [by eapply setVariable_get|by right].
  - exists l. split; [by eapply setVariable_get|by left].
Qed.

(** ** Loops *)

(** The loop of the documentation: [while (ctx._loop) { ...; if (!ctx.advanceLoop()) break; }],
    with what [_loop] was in each round; one unit of fuel per round. *)
Fixpoint run_loop (fuel : nat) (c : exec_context) : option (list loop_view * exec_context) :=
  match context_loop c with
  | None => Some ([], c)
  | Some v =>
      match fuel with
      | O => None
      | S fuel =>
          let '(c, more) := advanceLoop c in
          if more then (λ r, (v :: r.1, r.2)) <$> run_loop fuel c else Some ([v], c)
      end
  end.

(** The view of each round over a collection. *)
Definition loop_views (l : list jsval) : list loop_view :=
  imap (λ i x, LoopView x i (length l) (i =? 0)%nat (i =? length l - 1)%nat) l.

Lemma run_loop_from c l i stack :
  (i < length l)%nat → cx_loopStack c = LoopState l i (length l) :: stack →
  ∃ c', run_loop (length l - i) c = Some (drop i (loop_views l), c') ∧
    c' = with_loopStack c (LoopState l (length l) (length l) :: stack).
Proof.
  intros Hi Hc. remember (length l - i)%nat as k eqn:Ek. revert i c Hi Hc Ek.
  induction k as [|k IH]; intros i c Hi Hc Ek; [lia|].
  assert (∃ x, l !! i = Some x) as [x Hx] by by apply lookup_lt_is_Some.
  assert (drop i (loop_views l) =
    LoopView x i (length l) (i =? 0)%nat (i =? length l - 1)%nat :: drop (S i) (loop_views l)) as Ed.
  { apply drop_S. unfold loop_views. by rewrite list_lookup_imap, Hx. }
  cbn [run_loop]. unfold context_loop at 1. rewrite Hc. cbn [ls_total ls_collection ls_index].
  rewrite (proj2 (Nat.eqb_neq (length l) 0)) by lia. rewrite Hx. cbn [default from_option].
  unfold advanceLoop. rewrite Hc. cbn [ls_total ls_collection ls_index]. rewrite Ed.
  destruct (S i <? length l)%nat eqn:E.
  - apply Nat.ltb_lt in E.
    destruct (IH (S i) (with_loopStack c (LoopState l (S i) (length l) :: stack))) as (c' & -> & ->); [done|done|lia|].
    by eexists.
  - apply Nat.ltb_ge in E. assert (S i = length l) as -> by lia. eexists. split; [|done].
    rewrite drop_ge; [done|]. unfold loop_views. by rewrite length_imap.
Qed.

(** C18: A loop over a collection ends and shows every item exactly once, in order,
    with its index, the first and the last one marked; after it the loops around
    it are as they were before it was pushed. *)
Theorem loop_visits_all c l c1 :
  pushLoop c (JArr l) = Done c1 →
  ∃ c2, run_loop (length l) c1 = Some (loop_views l, c2) ∧ (popLoop c2).1 = c.
Proof.
  intros [= <-]. destruct l as [|x l].
  - eexists. split; [done|]. by destruct c.
  - destruct (run_loop_from (with_loopStack c (LoopState (x :: l) 0 (length (x :: l)) :: cx_loopStack c)) (x :: l) 0
      (cx_loopStack c)) as (c2 & H & ->); [simpl; lia|done|]. rewrite Nat.sub_0_r in H.
    eexists. split; [exact H|]. by destruct c.
Qed.

Lemma loop_visits_all_witness :
  ∃ c2, run_loop 2 (with_loopStack new_context [LoopState [JInt 7; JInt 8] 0 2]) =
    Some (loop_views [JInt 7; JInt 8], c2) ∧ (popLoop c2).1 = new_context.
Proof. exact (loop_visits_all new_context [JInt 7; JInt 8] _ eq_refl). Defined.

(** What is saved is restored, in a context that is not in a loop. *)
Lemma context_roundtrip c c0 :
  json_object (cx_vars c) = cx_vars c → json_object (cx_nodeOutputs c) = cx_nodeOutputs c →
  cx_currentNodeId c ≠ Some "" →
  context_fromJSON c0 (context_toJSON c) =
    ExecContext (cx_vars c) (cx_nodeOutputs c) (cx_currentNodeId c) [] (cx_nodeContext c0) (cx_currentInput c0).
Proof.
  intros Hv Ho Hi. unfold context_fromJSON, context_toJSON. cbn [oprop jget]. rewrite Hv, Ho.
  destruct (cx_currentNodeId c) as [i|]; [|done]. assert (i ≠ "") by congruence.
  unfold oprop. simpl. by rewrite (bool_decide_false (i = "")) by done.
Qed.

(** [clear()] is said to clear all state; the data kept per node and the current
    input survive it. *)
Theorem clear_keeps_node_data c nodeId v data :
  is_nullish v = false →
  let c' := context_clear (setCurrentInput (setNodeContext c nodeId v) data) in
  getNodeContext c' nodeId = v ∧ context_input c' = [("item", data); ("json", data)].
Proof.
  intros Hv. cbv zeta. split; [|done]. unfold getNodeContext, setNodeContext. rewrite Hv. simpl.
  unfold oprop. by rewrite jget_mset_eq.
Qed.

(** * What a running node may use (core/node_helpers.js)

    [Context] hands a node its input, its parameters, the variables, and a
    context that survives from one run of the node to the next: the executor keeps
    one Map of contexts, by node, and gives it to the helpers of every run.  A
    context is an object that nodes keep and change, so it is a reference into a
    store of objects here. *)

Record helpers := Helpers {
  h_inputData : jsval;
  h_nodeId : string;
  h_config : jsval;
  h_expressionContext : jsval;
  h_variables : option (option jsval);
  h_node : jsval;
}.

(** The constructor.  [service] is the variable service: [Some None] is one without
    [getAllVariables], [Some (Some v)] one whose call gives [v]. *)
Definition new_helpers (inputData : jsval) (nodeId : string) (config expressionContext : jsval)
    (service : option (option jsval)) (node : jsval) : helpers :=
  Helpers inputData nodeId (js_or config (JObj [])) (js_or expressionContext (JObj [])) service node.

(** ** Input and parameters *)

(** [getInputData(inputIndex)] *)
Definition getInputData (h : helpers) : list jsval :=
  match h_inputData h with
  | JArr l => l
  | v => if truthy v then [v] else []
  end.

(** [x?.k] *)
Definition optional_prop (v : jsval) (k : string) : jsval := if is_nullish v then JUndef else prop v k.

(** [getInputJson()] *)
Definition getInputJson (h : helpers) : jsval :=
  let item := default JUndef (head (getInputData h)) in
  js_or (js_or (optional_prop item "json") item) (JObj []).

(** [getNodeParameter(name, defaultValue)], [getAllNodeParameters()] *)
Definition getNodeParameter (h : helpers) (name : string) (defaultValue : jsval) : jsval :=
  js_nullish (prop (h_config h) name) defaultValue.
Definition getAllNodeParameters (h : helpers) : jsobj := ospread [] (entries (h_config h)).

Definition getExpressionContext (h : helpers) : jsval := h_expressionContext h.
Definition getExpressionVariable (h : helpers) (name : string) : jsval := prop (h_expressionContext h) name.

(** [getVariables()], [getVariable(name, defaultValue)] *)
Definition getVariables (h : helpers) : jsval :=
  match h_variables h with
  | Some call => js_or (default JUndef call) (JObj [])
  | None => js_or (prop (h_expressionContext h) "_vars") (JObj [])
  end.
Definition helper_getVariable (h : helpers) (name : string) (defaultValue : jsval) : jsval :=
  js_nullish (prop (getVariables h) name) defaultValue.

(** ** Failing *)

(** [continueOnFail()] *)
Definition continueOnFail (h : helpers) : bool :=
  if negb (truthy (h_node h)) then false
  else
    let onError := js_or (prop (h_node h) "onError") (optional_prop (prop (h_node h) "settings") "onError") in
    match onError with
    | JUndef => strict_eq (prop (h_node h) "continueOnFail") (JBool true)
    | JStr s => bool_decide (s ∈ ["continueRegularOutput"; "continueErrorOutput"])
    | _ => false
    end.

(** ** Logging *)

Record console_call := ConsoleCall { cl_method : string; cl_prefix : string; cl_message : jsval; cl_data : jsobj }.

(** [log(level, message, data)] *)
Definition log (h : helpers) (level : string) (message data : jsval) : console_call :=
  let method := if bool_decide (level ∈ ["debug"; "info"; "warn"; "error"]) then level else "log" in
  ConsoleCall method ("[Node:" +:+ h_nodeId h +:+ "]") message
    (ospread [("nodeId", JStr (h_nodeId h))] (entries (if is_nullish data then JObj [] else data))).

(** [sendMessageToUI(...args)] *)
Definition sendMessageToUI (h : helpers) (args : list jsval) : list jsval := JStr ("[Node:" +:+ h_nodeId h +:+ "]") :: args.

(** ** Contexts *)

(** The Map, from nodes to references, and the objects. *)
Record memory := Memory { nodeContext : list (string * nat); objects : list jsobj }.

Definition no_contexts : memory := Memory [] [].

(** [getContext(scope)] *)
Definition getContext (h : helpers) (m : memory) : memory * nat :=
  match jget (h_nodeId h) (nodeContext m) with
  | Some r => (m, r)
  | None =>
      let r := length (objects m) in
      (Memory (mset (h_nodeId h) r (nodeContext m)) (objects m ++ [[]]), r)
  end.

Definition clearContext (h : helpers) (m : memory) : memory := Memory (jdel (h_nodeId h) (nodeContext m)) (objects m).
Definition hasContext (h : helpers) (m : memory) : bool := jhas (h_nodeId h) (nodeContext m).

(** A node assigns a property of an object it holds. *)
Definition assign (r : nat) (k : string) (v : jsval) (m : memory) : memory :=
  Memory (nodeContext m) (alter (oset k v) r (objects m)).
Definition object_at (m : memory) (r : nat) : option jsobj := objects m !! r.

(** What nodes do to the contexts. *)
Inductive context_step : memory → memory → Prop :=
| cx_get h m : context_step m (getContext h m).1
| cx_clear h m : context_step m (clearContext h m)
| cx_assign m r k v : context_step m (assign r k v m).

Definition context_reachable : memory → Prop := rtc context_step no_contexts.

(** Different nodes have different objects. *)
Record contexts_ok (m : memory) : Prop := {
  cx_keys : NoDup (jkeys (nodeContext m));
  cx_there : ∀ i r, jget i (nodeContext m) = Some r → (r < length (objects m))%nat;
  cx_apart : ∀ i j r, jget i (nodeContext m) = Some r → jget j (nodeContext m) = Some r → i = j;
}.

Lemma getContext_spec h m :
  let '(m', r) := getContext h m in
  jget (h_nodeId h) (nodeContext m') = Some r ∧
  (jget (h_nodeId h) (nodeContext m) = Some r ∧ m' = m ∨
   jget (h_nodeId h) (nodeContext m) = None ∧ r = length (objects m) ∧ objects m' = objects m ++ [[]] ∧
   nodeContext m' = nodeContext m ++ [(h_nodeId h, r)]).
Proof.
  unfold getContext. destruct (jget _ _) as [r|] eqn:E; [auto|]. cbn. rewrite mset_fresh by done. split; [|auto].
  rewrite jget_app, E. cbn. by rewrite bool_decide_true.
Qed.

Lemma contexts_ok_step m m' : context_step m m' → contexts_ok m → contexts_ok m'.
Proof.
  destruct 1 as [h m|h m|m r k v]; intros [Hd Ht Ha].
  - pose proof (getContext_spec h m) as Hs. destruct (getContext h m) as [m' r]. cbn.
    destruct Hs as (_ & [[_ ->]|(En & -> & Eo & Ec)]); [done|].
    assert (∀ i r, jget i (nodeContext m') = Some r →
              jget i (nodeContext m) = Some r ∨ i = h_nodeId h ∧ r = length (objects m)) as Hg.
    { intros i r. rewrite Ec, jget_app. destruct (jget i (nodeContext m)) as [r'|] eqn:E; [by left|]. cbn.
      case_bool_decide; [|done]. intros [= <-]. by right. }
    split.
    + rewrite Ec. unfold jkeys. rewrite fmap_app. apply NoDup_app. split; [done|]. split; [|apply NoDup_singleton].
      intros i Hi [->|[]%not_elem_of_nil]%elem_of_cons. apply elem_of_jkeys in Hi as [? ?]. cbn in *. congruence.
    + intros i r [?%Ht|[_ ->]]%Hg; rewrite Eo, length_app; cbn; lia.
    + intros i j r [Hi|[-> ->]]%Hg [Hj|[-> E]]%Hg; [by eapply Ha|..|done].
      * apply Ht in Hi. lia.
      * apply Ht in Hj. lia.
  - assert (∀ i r, jget i (jdel (h_nodeId h) (nodeContext m)) = Some r → jget i (nodeContext m) = Some r) as Hg.
    { intros i r. rewrite jget_jdel by done. by case_bool_decide. }
    split; cbn; [by apply NoDup_jkeys_jdel|by eauto|by eauto].
  - split; cbn; [done|by rewrite length_alter|done].
Qed.

Lemma context_reachable_ok m : context_reachable m → contexts_ok m.
Proof.
  assert (contexts_ok no_contexts) as H0 by (split; [constructor|done|done]).
  intros H. unfold context_reachable in H. induction H as [m|m1 m2 m3 Hs _ IH]; [done|]. apply IH. by eapply contexts_ok_step.
Qed.

(** ** Properties *)

(** What happens between two runs of node [i], which holds [r]: any run may ask for
    its context, other nodes clear theirs and change their objects. *)
Inductive meanwhile (i : string) (r : nat) : memory → memory → Prop :=
| mw_get h m : meanwhile i r m (getContext h m).1
| mw_clear h m : h_nodeId h ≠ i → meanwhile i r m (clearContext h m)
| mw_assign m r' k v : r' ≠ r → meanwhile i r m (assign r' k v m).

Lemma meanwhile_kept i r m m' :
  meanwhile i r m m' → jget i (nodeContext m) = Some r ∧ (r < length (objects m))%nat →
  (jget i (nodeContext m') = Some r ∧ (r < length (objects m'))%nat) ∧ object_at m' r = object_at m r.
Proof.
  destruct 1 as [h m|h m Hi|m r' k v Hr]; intros [Hg Hl].
  - pose proof (getContext_spec h m) as Hs. destruct (getContext h m) as [m' r0]. cbn.
    destruct Hs as (_ & [[_ ->]|(En & -> & Eo & Ec)]); [done|]. unfold object_at. rewrite Eo, Ec, jget_app, Hg, length_app.
    split; [split; [done|cbn; lia]|]. by apply lookup_app_l.
  - cbn. rewrite jget_jdel_ne by done. done.
  - unfold object_at. cbn. rewrite length_alter, list_lookup_alter_ne by done. done.
Qed.

(** The context of a node survives: whatever the others do, the next run gets the same
    object, with what the node left in it. *)
Theorem context_survives h m m2 :
  context_reachable m →
  let '(m1, r) := getContext h m in
  rtc (meanwhile (h_nodeId h) r) m1 m2 →
  getContext h m2 = (m2, r) ∧ object_at m2 r = object_at m1 r ∧ is_Some (object_at m1 r).
Proof.
  intros Hm%context_reachable_ok. assert (contexts_ok (getContext h m).1) as Hok by (by eapply contexts_ok_step; [apply cx_get|]).
  pose proof (getContext_spec h m) as Hs. destruct (getContext h m) as [m1 r]. destruct Hs as (Hg & _). cbn in Hok.
  pose proof (cx_there _ Hok _ _ Hg) as Hl. intros H.
  assert ((jget (h_nodeId h) (nodeContext m2) = Some r ∧ (r < length (objects m2))%nat) ∧ object_at m2 r = object_at m1 r) as [[Hg2 _] Ho].
  { clear Hok Hm. induction H as [m1|m1 m' m2 Hs _ IH]; [done|].
    destruct (meanwhile_kept _ _ _ _ Hs (conj Hg Hl)) as ([Hg' Hl'] & E). destruct (IH Hg' Hl') as [? E']. split; [done|congruence]. }
  unfold getContext. rewrite Hg2. split; [done|]. split; [done|]. by apply lookup_lt_is_Some.
Qed.

(** Contexts of different nodes are different objects. *)
Lemma contexts_apart h h' m :
  context_reachable m → h_nodeId h ≠ h_nodeId h' →
  let '(m1, r) := getContext h m in (getContext h' m1).2 ≠ r.
Proof.
  intros Hm%context_reachable_ok Hne. assert (contexts_ok (getContext h m).1) as Hok by (by eapply contexts_ok_step; [apply cx_get|]).
  pose proof (getContext_spec h m) as Hs. destruct (getContext h m) as [m1 r]. destruct Hs as (Hg & _). cbn in Hok.
  pose proof (getContext_spec h' m1) as Hs'. destruct (getContext h' m1) as [m2 r']. destruct Hs' as (Hg' & Hs'). cbn.
  intros ->. destruct Hs' as [[Hg1 _]|(_ & -> & _)].
  - apply Hne. by eapply (cx_apart _ Hok).
  - apply (cx_there _ Hok) in Hg. lia.
Qed.

(** After it was cleared a node gets a new, empty object; the one it had kept is
    another object from then on. *)
Theorem context_cleared h m r :
  context_reachable m → jget (h_nodeId h) (nodeContext m) = Some r →
  hasContext h (clearContext h m) = false ∧
  let '(m', r') := getContext h (clearContext h m) in
  r' ≠ r ∧ object_at m' r' = Some [] ∧ object_at m' r = object_at m r.
Proof.
  intros Hm%context_reachable_ok Hg. pose proof (cx_there _ Hm _ _ Hg) as Hl.
  assert (jget (h_nodeId h) (nodeContext (clearContext h m)) = None) as Hn
    by (cbn; rewrite jget_jdel by apply Hm; by rewrite bool_decide_true).
  split; [unfold hasContext, jhas; by rewrite Hn|]. unfold getContext. rewrite Hn. cbn. unfold object_at. cbn.
  split; [lia|]. split; [by rewrite lookup_app_r, Nat.sub_diag by lia|by apply lookup_app_l].
Qed.

(** A parameter that is set to a falsy value is not replaced by its default; one that
    is missing or null is. *)
Lemma parameter_default h name d v :
  prop (h_config h) name = v →
  getNodeParameter h name d = match v with JUndef | JNull => d | _ => v end.
Proof. unfold getNodeParameter, js_nullish. intros ->. by destruct v. Qed.

(** A single item that is falsy is no input: a node that passes 0 on runs its
    successor on nothing, while a list with 0 in it is passed on. *)
Lemma falsy_item_lost c e s n i :
  getInputData (new_helpers (JInt 0) i c e s n) = [] ∧ getInputData (new_helpers (JArr [JInt 0]) i c e s n) = [JInt 0].
Proof. done. Qed.
