(* ===== verification/App.v ===== *)
(** * The application (app/workflow_editor_app.js)

    The client action around the editor: it loads, saves and runs the workflow,
    shows revisions, and installs the facade [window.app].  Every call of the
    backend is split into its request and its answer.  The backend's check for
    conflicting saves ([save_workflow], models/ir_workflow.py) is modelled with
    it; the hash of a snapshot is an argument. *)

From S2P Require Import Prelude JsMap JsValue JsNumber JsString Connection Node Nodes Editor EditorInv Adapter AdapterInv AdapterEquiv AdapterRun History HistoryTimeline Commands Store StoreExec StoreInv StoreRun StoreBatch Dimensions Geometry ViewportHook Expression.

Inductive app_view := EditorView | FormView.

#[export] Instance app_view_eq_dec : EqDecision app_view.
Proof. solve_decision. Defined.

Record workflow_info := WorkflowInfo {
  wi_name : string;
  wi_description : string;
  wi_version : jsval;
  wi_is_published : bool;
  wi_node_count : jsval;
}.

Record app := App {
  ap_store : store;
  ap_workflowId : jsval;
  ap_loading : bool;
  ap_error : option string;
  ap_view : app_view;
  ap_info : workflow_info;
}.

(** What the user gets to see. *)
Inductive app_effect :=
| Notice (text type : string)
| ConflictDialog
| Alert (title body : string)
| StoreEffect (e : effect)
| LeaveApp.

Definition with_ap_store (a : app) (s : store) : app :=
  App s (ap_workflowId a) (ap_loading a) (ap_error a) (ap_view a) (ap_info a).
Definition with_ap_view (a : app) (v : app_view) : app :=
  App (ap_store a) (ap_workflowId a) (ap_loading a) (ap_error a) v (ap_info a).
Definition with_ap_info (a : app) (i : workflow_info) : app :=
  App (ap_store a) (ap_workflowId a) (ap_loading a) (ap_error a) (ap_view a) i.
Definition with_ap_loaded (a : app) (e : option string) : app :=
  App (ap_store a) (ap_workflowId a) false e (ap_view a) (ap_info a).

(** [setup()]: the id comes from the context of the action or its parameters. *)
Definition app_workflow_id (active_id param_id : jsval) : jsval :=
  if truthy active_id then active_id else if truthy param_id then param_id else JNull.

Definition app_setup (s : store) (active_id param_id : jsval) : app :=
  let i := app_workflow_id active_id param_id in
  let blank := WorkflowInfo "" "" (JInt 0) false (JInt 0) in
  if truthy i then App s i true None EditorView blank
  else App s JNull false (Some "No workflow ID provided") EditorView blank.

Definition string_or (v : jsval) (d : string) : string :=
  match v with JStr s => if s =s "" then d else s | _ => d end.

(** [_updateWorkflowInfo(data)] *)
Definition updateWorkflowInfo (a : app) (data : jsval) : app :=
  with_ap_info a (WorkflowInfo (string_or (prop data "name") "") (string_or (prop data "description") "")
    (js_or (prop data "version") (JInt 0)) (truthy (prop data "is_published")) (js_or (prop data "node_count") (JInt 0))).

(** The end of [onMounted]: the answer of [loadWorkflow]. *)
Definition mounted_response (a : app) (data : jsval) (d : load_answer) : app :=
  match loadWorkflow_response (ap_store a) (ap_workflowId a) d with
  | (s, Throw m) => with_ap_loaded (with_ap_store a s) (Some (if m =s "" then "Failed to load workflow" else m))
  | (s, Ret _) =>
      let a := with_ap_store a s in
      let a := if truthy data then updateWorkflowInfo a data else a in
      with_ap_loaded a None
  end.
Definition mounted_failure (a : app) (message : string) : app :=
  with_ap_loaded a (Some (if message =s "" then "Failed to load workflow" else message)).

(** [onWillUnmount]; the facade is put back by [uninstallWindowAppFacade]. *)
Definition app_unmount (a : app) : app := with_ap_store a (clearExecution (ap_store a)).

Definition workflowTitle (a : app) : string := if wi_name (ap_info a) =s "" then "Workflow" else wi_name (ap_info a).

(** [toggleWorkflowView()] *)
Definition toggleWorkflowView (a : app) : app :=
  if ap_loading a then a
  else match ap_error a with
       | Some e => if e =s "" then with_ap_view a (match ap_view a with EditorView => FormView | FormView => EditorView end) else a
       | None => with_ap_view a (match ap_view a with EditorView => FormView | FormView => EditorView end)
       end.

(** [exit()] *)
Definition app_exit (a : app) : app * list app_effect :=
  if bool_decide (ap_view a = EditorView) then (a, [LeaveApp]) else (toggleWorkflowView a, []).

(** [_onFormSaved(record)] with a name, and [_refreshWorkflowName] otherwise. *)
Definition with_name (a : app) (name : string) : app :=
  let i := ap_info a in
  with_ap_info a (WorkflowInfo name (wi_description i) (wi_version i) (wi_is_published i) (wi_node_count i)).
Definition onFormSaved (a : app) (recordName readName : string) : app :=
  let a := if recordName =s "" then (if readName =s "" then a else with_name a readName) else with_name a recordName in
  toggleWorkflowView a.

(** *** Panels and views *)

Definition openHistory (a : app) (closeHistory : app → app * outcome unit) : app * outcome unit :=
  if historyOpen (panels (st_ui (ap_store a))) then closeHistory a
  else (with_ap_store a (openPanel (ap_store a) "history" None), Ret tt).

Definition toggleExecutionLog (a : app) : app :=
  if executionLogOpen (panels (st_ui (ap_store a)))
  then with_ap_store a (closePanel (ap_store a) "executionLog")
  else with_ap_store a (openPanel (ap_store a) "executionLog" None).

(** [closeHistory()] *)
Definition closeHistory (a : app) : app * outcome unit :=
  let s := ap_store a in
  match (if (ui_executionView (st_ui s)).1 then endExecutionView s true true else (s, Ret tt)) with
  | (s, Throw m) => (with_ap_store a s, Throw m)
  | (s, Ret _) =>
      match endHistoryPreview s true with
      | (s, Throw m) => (with_ap_store a s, Throw m)
      | (s, Ret _) => (with_ap_store a (closePanel s "history"), Ret tt)
      end
  end.

Definition openExecutionView (a : app) (runId : jsval) (snapshot : option workflow_json) (d : option jsobj)
    : app * outcome unit :=
  let '(s, r) := startExecutionView (ap_store a) runId snapshot d in (with_ap_store a s, r).
Definition exitExecutionView (a : app) : app * outcome unit :=
  let '(s, r) := endExecutionView (ap_store a) true true in (with_ap_store a s, r).
Definition previewHistoryRevision (a : app) (revisionId : jsval) (snapshot : option workflow_json)
    : app * outcome unit :=
  let '(s, r) := startHistoryPreview (ap_store a) revisionId snapshot in (with_ap_store a s, r).
Definition exitHistoryPreview (a : app) : app * outcome unit :=
  let '(s, r) := endHistoryPreview (ap_store a) true in (with_ap_store a s, r).

(** [restoreHistoryRevision(revisionId)] up to the call of the backend, and from
    the answer of the [loadWorkflow] after it. *)
Definition restore_request (a : app) : app * outcome unit :=
  let '(s, r) := endHistoryPreview (ap_store a) false in (with_ap_store a s, r).
Definition restore_response (a : app) (d : load_answer) : app * outcome (list app_effect) :=
  match loadWorkflow_response (loadWorkflow_request (ap_store a)) (ap_workflowId a) d with
  | (s, Throw m) => (with_ap_store a s, Throw m)
  | (s, Ret _) =>
      let '(a, r) := closeHistory (with_ap_store a s) in
      (a, r ≫= λ _, Ret [Notice "Version restored." "success"])
  end.

(** *** Saving *)

Inductive save_answer :=
| Saved (newHash : jsval) (published : bool)
| Failed (message : string).

(** [save()]: the flag and the request. *)
Definition save_start (a : app) : app * (jsval * full_snapshot * jsval) :=
  let a := with_ap_store a (setSaving (ap_store a) true) in
  (a, saveWorkflow_request (ap_store a)).

Definition with_published (a : app) (b : bool) : app :=
  let i := ap_info a in
  with_ap_info a (WorkflowInfo (wi_name i) (wi_description i) (wi_version i) b (wi_node_count i)).

(** [save()]: the answer. *)
Definition save_end (a : app) (r : save_answer) : app * list app_effect :=
  let '(a, es) :=
    match r with
    | Saved newHash published =>
        let '(s, es) := saveWorkflow_response (ap_store a) newHash in
        (with_published (with_ap_store a s) published,
         (StoreEffect <$> es) ++ [Notice "Workflow saved." "success"])
    | Failed message =>
        (a, [if includes "modified by another user" message then ConflictDialog
             else Alert "Save Failed" (if message =s "" then "Failed to save workflow" else message)])
    end in
  (with_ap_store a (setSaving (ap_store a) false), es).

(** *** Running *)

(** [execute(inputData)]: the flag, and the request of the save before the run, if
    [autoSave] is on. *)
Definition execute_start (a : app) : app * option (jsval * full_snapshot * jsval) :=
  let a := with_ap_store a (setExecuting (ap_store a) true) in
  (a, if getAutoSave (ap_store a) then Some (saveWorkflow_request (ap_store a)) else None).

Inductive run_answer := RunResult (error : jsval) | RunFailed (message : string).

(** Its end, in all cases; [show] prints a number. *)
Definition execute_end (show : num → string) (a : app) (r : run_answer) : app * list app_effect :=
  (with_ap_store a (setExecuting (ap_store a) false),
   match r with
   | RunResult error =>
       if truthy error then [Notice ("Execution error: " +:+ js_String show error) "danger"]
       else [Notice "Execution started." "success"]
   | RunFailed message =>
       [Alert "Execution Failed" (if message =s "" then "Failed to execute workflow" else message)]
   end).

(** The answer to the save before a run: the run goes on, or it ends with the
    error of the save, a conflict included. *)
Definition execute_saved (show : num → string) (a : app) (r : save_answer) : app * list app_effect * bool :=
  match r with
  | Saved newHash _ =>
      let '(s, es) := saveWorkflow_response (ap_store a) newHash in
      (with_ap_store a s, StoreEffect <$> es, true)
  | Failed message => (execute_end show a (RunFailed message), false)
  end.

(** The answer to a save that a panel asked for; the panel shows an error itself. *)
Definition panel_saved (a : app) (r : save_answer) : app :=
  match r with
  | Saved newHash _ => with_ap_store a (saveWorkflow_response (ap_store a) newHash).1
  | Failed _ => a
  end.

(** *** The facade [window.app] *)

(** [_getDefaultNodePosition()]; no canvas, no rectangle. *)
Definition getDefaultNodePosition (root : option rect) (v : viewport) (width : option num) : position :=
  match root with
  | None => Position (num_of_Z 120) (num_of_Z 120)
  | Some r =>
      let center := screenToCanvas (Position (r_x r + half (r_width r))%Qc (r_y r + half (r_height r))%Qc) r v in
      let nodeWidth := default (num_of_Z 240) width in
      Position (num_of_Z (num_round (pos_x center - half nodeWidth))) (num_of_Z (num_round (pos_y center - num_of_Z 40)))
  end.

Definition requireNode (s : store) (nodeId : string) : outcome ui_node :=
  match getNode s nodeId with
  | Some n => Ret n
  | None => Throw ("[window.app] Node not found: " +:+ nodeId)
  end.

(** [_normalizeNodePosition(nodeId, positionOrX, y)] *)
Definition number_or (v : jsval) (d : num) : num := match v with JNum x => x | _ => d end.

Definition normalizeNodePosition (s : store) (nodeId : string) (positionOrX y : jsval) : outcome position :=
  n ← requireNode s nodeId;
  match positionOrX with
  | JObj _ | JArr _ =>
      Ret (Position (number_or (prop positionOrX "x") (ui_x n)) (number_or (prop positionOrX "y") (ui_y n)))
  | _ => Ret (Position (number_or positionOrX (ui_x n)) (number_or y (ui_y n)))
  end.

(** [app.node] *)
Definition facade_add (reg : odoo_registry) (s : store) (type : string) (pos : option position) (dflt : position)
    : store * option ui_node :=
  match addNode reg s type (default dflt pos) with
  | (s, Some i) => (s, if i =s "" then None else getNode s i)
  | (s, None) => (s, None)
  end.

Definition facade_move (s : store) (nodeId : string) (positionOrX y : jsval) : store * outcome (option ui_node) :=
  match normalizeNodePosition s nodeId positionOrX y with
  | Throw m => (s, Throw m)
  | Ret p => let s := moveNode s nodeId p in (s, Ret (getNode s nodeId))
  end.

Definition facade_select (s : store) (nodeIds : list string) : store :=
  select s (bfilter (λ i, negb (i =s "")) nodeIds) [].

Definition facade_open (s : store) (nodeId : string) : store * outcome (option ui_node) :=
  match requireNode s nodeId with
  | Throw m => (s, Throw m)
  | Ret _ => let s := openPanel s "config" (Some nodeId) in (s, Ret (getNode s nodeId))
  end.

Definition facade_toggleDisable (s : store) (nodeId : string) : store * outcome (option ui_node * list effect) :=
  match requireNode s nodeId with
  | Throw m => (s, Throw m)
  | Ret _ => let '(s, es) := toggleDisable s nodeId in (s, Ret (getNode s nodeId, es))
  end.

(** [app.connection.add] *)
Definition facade_connect (s : store) (src sh tgt th : string) : store * option ui_connection :=
  match addConnection s src sh tgt th with
  | (s, Some i) => (s, if i =s "" then None else getConnection s i)
  | (s, None) => (s, None)
  end.

(** [window.app] before and after: [None] is no own property. *)
Record facade_slot := FacadeSlot { fs_app : option jsval; fs_previous : option jsval; fs_installed : option jsval }.

Definition installWindowAppFacade (f : facade_slot) (facade : jsval) : facade_slot :=
  FacadeSlot (Some facade) (fs_app f) (Some facade).

Definition uninstallWindowAppFacade (same : jsval → jsval → bool) (f : facade_slot) : facade_slot :=
  match fs_previous f with
  | Some p => FacadeSlot (Some p) None None
  | None =>
      match fs_app f, fs_installed f with
      | Some x, Some y => if same x y then FacadeSlot None None None else FacadeSlot (Some x) None None
      | x, _ => FacadeSlot x None None
      end
  end.

(** ** The backend *)

Record server := Server { sv_draft : option full_snapshot; sv_published : option full_snapshot }.

(** What decides beside the snapshot whether a save is refused, at the moment it is
    handled: the error of the access check, the error of writing the records of the
    HTTP requests of a snapshot, and the name of the workflow. *)
Record backend := Backend {
  be_access : option string;
  be_sync : full_snapshot → option string;
  be_name : string;
}.

(** The lists of a snapshot are there after [save_workflow] has put in the missing
    ones; what the client sends is a dict and its metadata is one. *)
Definition normalized (d : full_snapshot) : full_snapshot :=
  let g := fs_graph d in
  FullSnapshot (WorkflowJson (wj_version g) (Some (default [] (wj_nodes g))) (Some (default [] (wj_connections g))))
    (fs_metadata d).

Definition node_count (d : full_snapshot) : nat := length (default [] (wj_nodes (fs_graph d))).

(** [_check_node_limit]: a constraint on what is written. *)
Definition check_node_limit (be : backend) (d : full_snapshot) : option string :=
  if (200 <? node_count d)%nat then
    Some ("Workflow '" +:+ be_name be +:+ "' has " +:+ pretty (N.of_nat (node_count d)) +:+
          " nodes. Maximum allowed is 200.")
  else None.

Definition without_pins (d : full_snapshot) : full_snapshot :=
  FullSnapshot (fs_graph d) (jdel "pinData" (jdel "pin_data" (fs_metadata d))).

(** The first error among the node limit and the two synchronisations of the
    records, of the draft and of what is published. *)
Definition write_error (be : backend) (d : full_snapshot) : option string :=
  match check_node_limit be d with
  | Some m => Some m
  | None =>
      match be_sync be d with
      | Some m => Some m
      | None => if (0 <? node_count d)%nat then be_sync be (without_pins d) else None
      end
  end.

Section server.
(** The hash of a snapshot; how numbers are printed. *)
Context (hash : full_snapshot → string) (show : num → string).

Definition version_hash (v : server) : jsval :=
  match sv_draft v with Some d => JStr (hash d) | None => JBool false end.

Definition conflict_message : string := "Workflow was modified by another user. Please reload to see changes.".

(** [save_workflow(snapshot, expected_hash)]; an error undoes the writes before it. *)
Definition save_workflow (be : backend) (v : server) (snapshot : full_snapshot) (expected : jsval)
    : server * save_answer :=
  match be_access be with
  | Some m => (v, Failed m)
  | None =>
      if truthy expected && truthy (version_hash v) && negb (strict_eq expected (version_hash v))
      then (v, Failed conflict_message)
      else
        let snapshot := normalized snapshot in
        match write_error be snapshot with
        | Some m => (v, Failed m)
        | None =>
            let published := if (0 <? node_count snapshot)%nat then Some (without_pins snapshot)
                             else sv_published v in
            let v := Server (Some snapshot) published in
            (v, Saved (version_hash v) (match published with Some _ => true | None => false end))
        end
  end.

(** The errors of a save that have nothing to do with its version. *)
Definition refusal (be : backend) (d : full_snapshot) (m : string) : Prop :=
  be_access be = Some m ∨ write_error be (normalized d) = Some m.

(** ** Client and backend *)

(** Who asked for a save: the button, a run or a panel. *)
Inductive saver := BySave | ByRun | ByPanel.

(** Saves that were sent, and answers on the way back. *)
Record session := Session {
  se_app : app;
  se_server : server;
  se_requests : list (saver * full_snapshot * jsval);
  se_answers : list (saver * save_answer);
}.

Definition saved (a : app) (w : saver) (r : save_answer) : app :=
  match w with
  | BySave => (save_end a r).1
  | ByRun => (execute_saved show a r).1.1
  | ByPanel => panel_saved a r
  end.

(** [ss_edit] is anything that leaves the known version alone; the backend handles
    a request under whatever circumstances. *)
Inductive session_step : session → session → Prop :=
| ss_edit a v rs ans s' :
    versionHash s' = versionHash (ap_store a) →
    session_step (Session a v rs ans) (Session (with_ap_store a s') v rs ans)
| ss_save a v rs ans :
    session_step (Session a v rs ans)
      (Session (save_start a).1 v (rs ++ [(BySave, (save_start a).2.1.2, (save_start a).2.2)]) ans)
| ss_execute a v rs ans :
    session_step (Session a v rs ans)
      (Session (execute_start a).1 v
         (rs ++ match (execute_start a).2 with Some q => [(ByRun, q.1.2, q.2)] | None => [] end) ans)
| ss_panel a v rs ans :
    session_step (Session a v rs ans)
      (Session a v (rs ++ [(ByPanel, (saveWorkflow_request (ap_store a)).1.2, (saveWorkflow_request (ap_store a)).2)]) ans)
| ss_handle be a v w d h rs ans :
    session_step (Session a v ((w, d, h) :: rs) ans)
      (Session a (save_workflow be v d h).1 rs (ans ++ [(w, (save_workflow be v d h).2)]))
| ss_answer a v rs w r ans :
    session_step (Session a v rs ((w, r) :: ans)) (Session (saved a w r) v rs ans)
| ss_ran a v rs ans r :
    session_step (Session a v rs ans) (Session (execute_end show a r).1 v rs ans).

(** One save at a time. *)
Inductive calm_step : session → session → Prop :=
| cs_step x y :
    session_step x y → (length (se_requests y) + length (se_answers y) ≤ 1)%nat → calm_step x y.

Definition agrees (a : app) (v : server) : Prop := versionHash (ap_store a) = version_hash v.

(** An answer to a save of the current version. *)
Definition good_answer (x : session) (r : save_answer) : Prop :=
  (∃ b, r = Saved (version_hash (se_server x)) b) ∨
  (∃ be d m, r = Failed m ∧ refusal be d m).

(** What holds of a session with one save at a time. *)
Definition calm (x : session) : Prop :=
  match se_requests x, se_answers x with
  | [], [] => agrees (se_app x) (se_server x)
  | [(_, _, h)], [] => agrees (se_app x) (se_server x) ∧ h = versionHash (ap_store (se_app x))
  | [], [(_, r)] =>
      good_answer x r ∧ ((∃ m, r = Failed m) → agrees (se_app x) (se_server x))
  | _, _ => False
  end.

Lemma set_history_versionHash s r : versionHash (set_history s r) = versionHash s.
Proof using Type.
  unfold set_history. change (versionHash s) with (versionHash (with_history s r.1)).
  generalize (with_history s r.1). induction r.2 as [|n ns IH]; intros s1; simpl; [done|]. rewrite IH.
  unfold on_history_change. by destruct (Nat.eqb _ _).
Qed.

Lemma saved_hash a w r :
  versionHash (ap_store (saved a w r)) = match r with Saved h _ => h | Failed _ => versionHash (ap_store a) end.
Proof using Type.
  destruct w, r; try done; unfold saved, save_end, execute_saved, panel_saved; simpl; by rewrite set_history_versionHash.
Qed.

Lemma strict_eq_hash v : strict_eq (version_hash v) (version_hash v) = true.
Proof using Type. unfold version_hash. destruct (sv_draft v); [|done]. by apply bool_decide_eq_true. Qed.

(** A save that is based on the version of the backend is accepted, or refused for
    a reason that is not its version, and then nothing is written. *)
Lemma save_workflow_current be v d h :
  h = version_hash v →
  (∃ b, (save_workflow be v d h).2 = Saved (version_hash (save_workflow be v d h).1) b ∧
     sv_draft (save_workflow be v d h).1 = Some (normalized d)) ∨
  (∃ m, save_workflow be v d h = (v, Failed m) ∧ refusal be d m).
Proof using Type.
  intros ->. unfold save_workflow, refusal. destruct (be_access be) as [m|]; [right; eauto|].
  rewrite strict_eq_hash, andb_false_r. cbn [negb].
  destruct (write_error be (normalized d)) as [m|]; [right|left]; eauto.
Qed.

Lemma calm_step_ok x y : calm x → calm_step x y → calm y.
Proof using Type.
  intros Hc Hxy. revert Hc. destruct Hxy as [x y Hs Hn].
  destruct Hs as [a v rs ans s' Hh|a v rs ans|a v rs ans|a v rs ans|be a v w d h rs ans|a v rs w r ans|a v rs ans r]; intros Hc;
    unfold calm, good_answer in *; cbn [se_requests se_answers se_app se_server] in *;
    rewrite ?length_app in Hn; cbn [length] in Hn.
  - unfold agrees in *. destruct rs as [|[[w d] h] [|? ?]], ans as [|[w' r] [|? ?]]; simpl in *; by rewrite ?Hh.
  - destruct rs; [|simpl in Hn; lia]. destruct ans; [|simpl in Hn; lia]. simpl. done.
  - unfold execute_start in *. cbn [fst snd] in *. destruct (getAutoSave _); cbn [length] in Hn.
    + destruct rs; [|simpl in Hn; lia]. destruct ans; [|simpl in Hn; lia]. simpl. done.
    + rewrite app_nil_r. destruct rs as [|[[w d] h] [|? ?]], ans as [|[w' r] [|? ?]]; done.
  - destruct rs; [|simpl in Hn; lia]. destruct ans; [|simpl in Hn; lia]. simpl. done.
  - destruct rs; [|simpl in Hn; lia]. destruct ans; [|simpl in Hn; lia].
    destruct Hc as [Hag ->]. cbn [Datatypes.app].
    destruct (save_workflow_current be v d _ Hag) as [(b & Hb & _)|(m & -> & Hm)].
    + rewrite Hb. split; [by left; exists b|by intros [m ?]].
    + split; [right; by exists be, d, m|done].
  - destruct rs as [|[[w' d] h] [|? ?]]; [|done..]. destruct ans; [|done]. destruct Hc as [Hg Hf].
    unfold agrees in *. rewrite saved_hash. destruct r as [h b|m]; [|apply Hf; by exists m].
    destruct Hg as [[b' [= ->]]|(? & ? & ? & ? & _)]; done.
  - destruct rs as [|[[w d] h] [|? ?]], ans as [|[w' r'] [|? ?]]; done.
Qed.
End server.

(** A restore whose call of the backend fails leaves the previewed revision in
    the editor, editable, and the graph that was edited before is gone. *)
Lemma failed_restore_keeps_revision a :
  let a' := (restore_request a).1 in
  (restore_request a).2 = Ret tt ∧ st_adapter (ap_store a') = st_adapter (ap_store a) ∧
  readonly (st_ui (ap_store a')) = false ∧ historyPreview (ap_store a') = no_preview.
Proof.
  unfold restore_request, endHistoryPreview, restore_original.
  destruct (pv_original (historyPreview (ap_store a))); [rewrite andb_false_r|]; done.
Qed.

(** A failed save changes nothing but the flag: the edits and the history stay. *)
Lemma failed_save_keeps_edits a m :
  ap_store (save_end a (Failed m)).1 = setSaving (ap_store a) false.
Proof. done. Qed.

(** ** Properties *)


(** Two saves that overlap conflict although nobody else touches the workflow: the
    second carries the version the first was based on.  Saving again before the
    answer arrived therefore ends in the dialog that asks to reload, whatever was
    edited in between. *)
Theorem overlapping_saves_conflict hash show be a v d0 s' :
  agrees hash a v → sv_draft v = Some d0 → hash d0 ≠ "" →
  let d1 := normalized (buildFullSnapshot (ap_store a)) in
  be_access be = None → write_error be d1 = None →
  hash d1 ≠ hash d0 → hash d1 ≠ "" → versionHash s' = versionHash (ap_store a) →
  let a1 := (save_start a).1 in
  let a2 := (save_start (with_ap_store a1 s')).1 in
  ∃ y, rtc (session_step hash show) (Session a v [] []) y ∧
    se_requests y = [] ∧
    (∃ b, se_answers y = [(BySave, Saved (JStr (hash d1)) b); (BySave, Failed conflict_message)]) ∧ se_app y = a2 ∧
    (save_end a2 (Failed conflict_message)).2 = [ConflictDialog].
Proof.
  intros Ha Hd Hne d1 Hacc Hwr Hne1 Hne2 Hs' a1 a2. unfold agrees, version_hash in Ha. rewrite Hd in Ha.
  set (d2 := buildFullSnapshot (setSaving s' true)).
  set (q1 := buildFullSnapshot (ap_store (save_start a).1)).
  set (r1 := save_workflow hash be v q1 (JStr (hash d0))).
  set (r2 := save_workflow hash be r1.1 d2 (JStr (hash d0))).
  assert (normalized q1 = d1) as Eq by done.
  assert (∃ b, r1 = (r1.1, Saved (JStr (hash d1)) b) ∧ sv_draft r1.1 = Some d1) as (b & Hr1 & Hd1).
  { subst r1. unfold save_workflow. rewrite Hacc, Eq, Hwr. replace (JStr (hash d0)) with (version_hash hash v) by (unfold version_hash; by rewrite Hd).
    rewrite strict_eq_hash, andb_false_r. cbn [version_hash sv_draft]. by eexists. }
  assert (r2 = (r1.1, Failed conflict_message)) as Hr2.
  { subst r2. unfold save_workflow, version_hash. rewrite Hd1, Hacc. simpl.
    by rewrite (bool_decide_false (hash d0 = "")), (bool_decide_false (hash d1 = "")),
      (bool_decide_false (hash d0 = hash d1)) by congruence. }
  exists (Session a2 r2.1 [] [(BySave, r1.2); (BySave, r2.2)]). split_and!; [|done| |done|].
  - apply rtc_l with (Session a1 v [(BySave, q1, JStr (hash d0))] []); [rewrite <- Ha; exact (ss_save hash show a v [] [])|].
    apply rtc_l with (Session (with_ap_store a1 s') v [(BySave, q1, JStr (hash d0))] []); [by apply ss_edit|].
    apply rtc_l with (Session a2 v [(BySave, q1, JStr (hash d0)); (BySave, d2, JStr (hash d0))] []).
    { assert (JStr (hash d0) = versionHash s') as E by congruence. rewrite E at 3.
      exact (ss_save hash show (with_ap_store a1 s') v [(BySave, q1, JStr (hash d0))] []). }
    eapply rtc_l; [apply (ss_handle hash show be)|]. eapply rtc_l; [apply (ss_handle hash show be)|]. apply rtc_refl.
  - exists b. rewrite Hr2. cbn [snd]. by rewrite Hr1.
  - vm_compute. reflexivity.
Qed.

(** ** Examples *)

(** A hash for the examples: the number of nodes. *)
Definition count_hash (d : full_snapshot) : string := pretty (N.of_nat (length (default [] (wj_nodes (fs_graph d))))).

Definition empty_draft : full_snapshot := FullSnapshot (WorkflowJson "1.0" (Some []) (Some [])) [].
Definition demo_server : server := Server (Some empty_draft) None.
Definition demo_app : app := app_setup (with_versionHash store_demo (JStr "0")) (JInt 7) JUndef.

(** A backend that refuses nothing but too many nodes. *)
Definition demo_backend : backend := Backend None (λ _, None) "Demo".
Definition no_show : num → string := λ _, "".

(** The steps of a single save before a run. *)
Lemma run_asks hash show a v :
  getAutoSave (ap_store a) = true →
  calm_step hash show (Session a v [] [])
    (Session (execute_start a).1 v
       [(ByRun, (saveWorkflow_request (ap_store (execute_start a).1)).1.2,
         (saveWorkflow_request (ap_store (execute_start a).1)).2)] []).
Proof.
  intros E. apply cs_step; [|simpl; lia]. pose proof (ss_execute hash show a v [] []) as H.
  assert ((execute_start a).2 = Some (saveWorkflow_request (ap_store (execute_start a).1))) as E2.
  { unfold execute_start. cbn [fst snd]. unfold getAutoSave in *. cbn. by rewrite E. }
  rewrite E2 in H. exact H.
Qed.

Lemma request_handled hash show be a v w d h :
  calm_step hash show (Session a v [(w, d, h)] [])
    (Session a (save_workflow hash be v d h).1 [] [(w, (save_workflow hash be v d h).2)]).
Proof. apply cs_step; [|simpl; lia]. exact (ss_handle hash show be a v w d h [] []). Qed.

(** A run whose save has been handled by the backend. *)
Definition demo_reply : server * save_answer :=
  save_workflow count_hash demo_backend demo_server (saveWorkflow_request (ap_store (execute_start demo_app).1)).1.2
    (saveWorkflow_request (ap_store (execute_start demo_app).1)).2.
Definition demo_session : session := Session (execute_start demo_app).1 demo_reply.1 [] [(ByRun, demo_reply.2)].

Lemma demo_session_reached : rtc (calm_step count_hash no_show) (Session demo_app demo_server [] []) demo_session.
Proof.
  unfold demo_session, demo_reply. eapply rtc_l; [|apply rtc_once, request_handled].
  apply run_asks. vm_compute. reflexivity.
Qed.


Lemma overlapping_saves_conflict_witness :
  ∃ y b, rtc (session_step count_hash no_show) (Session demo_app demo_server [] []) y ∧
    se_answers y = [(BySave, Saved (JStr "2") b); (BySave, Failed conflict_message)].
Proof.
  destruct (overlapping_saves_conflict count_hash no_show demo_backend demo_app demo_server empty_draft (ap_store demo_app))
    as (y & H1 & _ & (b & H2) & _).
  - vm_compute. reflexivity.
  - reflexivity.
  - vm_compute. discriminate.
  - reflexivity.
  - vm_compute. reflexivity.
  - vm_compute. discriminate.
  - vm_compute. discriminate.
  - reflexivity.
  - exists y, b. split; [exact H1|]. etransitivity; [exact H2|]. vm_compute. reflexivity.
Defined.
