(* ===== verification/Facade.v ===== *)
(** * The facade of the application ([window.app], app/workflow_editor_app.js)

    The application puts an object on the window with which scripts drive the
    editor.  [facade] runs one call of it; the calls at the root are other names of
    those in its namespaces ([named]).  Promises end here at their first await:
    saving and running give the request.  The canvas is reached through
    [window.canvas], which is null unless the page is in debug mode. *)

From S2P Require Import Prelude JsMap JsValue JsNumber JsString Connection Control Node Editor EditorInv Adapter AdapterInv AdapterRun Nodes History HistoryTimeline Commands Store StoreExec StoreInv StoreRun StoreAnyRun Dfs GraphUtils Dagre Layout Dimensions Geometry ViewportHook CanvasTidy App.

(** The application, the canvas if it can be reached, and what the canvas measures. *)
Record desk := Desk {
  dk_app : app;
  dk_canvas : option fit_state;
  dk_root : option rect;
  dk_controls : option rect;
  dk_dims : DimensionConfig;
}.

Definition with_dk_app (a : app) (d : desk) : desk := Desk a (dk_canvas d) (dk_root d) (dk_controls d) (dk_dims d).
Definition dk_store (d : desk) : store := ap_store (dk_app d).
Definition with_dk_store (s : store) (d : desk) : desk := with_dk_app (with_ap_store (dk_app d) s) d.
Definition with_dk_canvas (c : fit_state) (d : desk) : desk :=
  Desk (dk_app d) (Some c) (dk_root d) (dk_controls d) (dk_dims d).

(** ** The calls *)

Inductive node_call :=
| NodeAll | NodeGet (i : string) | NodeAdd (type : string) (pos : option position) | NodeMove (i : string) (positionOrX y : jsval)
| NodeSelect (ids : list string) | NodeOpen (i : string) | NodeRemove (i : string) | NodeSetConfig (i : string) (config : jsobj)
| NodeToggleDisable (i : string).

Inductive connection_call :=
| ConnectionAll | ConnectionGet (i : string) | ConnectionAdd (src sh tgt th : string) | ConnectionRemove (i : string).

Inductive canvas_call :=
| CanvasViewport | CanvasFit (o : fit_options) | CanvasFitWidth | CanvasFitHeight
| CanvasTidy (vertical : bool) (ranksep : option num) (label : option string)
| CanvasZoomIn | CanvasZoomOut | CanvasResetZoom | CanvasClearSelection.

Inductive workflow_call :=
| WorkflowId | WorkflowInfo | WorkflowJson | WorkflowExecution | WorkflowSave | WorkflowRun | HasUnsavedChanges.

Inductive facade_call :=
| OfNode (c : node_call) | OfConnection (c : connection_call) | OfCanvas (c : canvas_call) | OfWorkflow (c : workflow_call)
| SelectedNode | Selection
| Info | Json | Execution | Nodes | Connections | WorkflowJsonCall | ExecutionResult | Save | Run
| AddNode (type : string) (pos : option position) | MoveNode (i : string) (positionOrX y : jsval) | SelectNode (ids : list string)
| OpenNode (i : string) | RemoveNode (i : string) | SetNodeConfig (i : string) (config : jsobj)
| Connect (src sh tgt th : string) | Disconnect (i : string).

(** The calls at the root that are names of others. *)
Definition named (c : facade_call) : facade_call :=
  match c with
  | Info => OfWorkflow WorkflowInfo
  | Json | WorkflowJsonCall => OfWorkflow WorkflowJson
  | Execution | ExecutionResult => OfWorkflow WorkflowExecution
  | Nodes => OfNode NodeAll
  | Connections => OfConnection ConnectionAll
  | Save => OfWorkflow WorkflowSave
  | Run => OfWorkflow WorkflowRun
  | AddNode ty p => OfNode (NodeAdd ty p)
  | MoveNode i p y => OfNode (NodeMove i p y)
  | SelectNode ids => OfNode (NodeSelect ids)
  | OpenNode i => OfNode (NodeOpen i)
  | RemoveNode i => OfNode (NodeRemove i)
  | SetNodeConfig i c => OfNode (NodeSetConfig i c)
  | Connect a b c d => OfConnection (ConnectionAdd a b c d)
  | Disconnect i => OfConnection (ConnectionRemove i)
  | c => c
  end.

(** What a call gives. *)
Inductive facade_result :=
| FNode (n : option ui_node) | FNodes (l : list ui_node) | FConnection (c : option ui_connection) | FConnections (l : list ui_connection)
| FSelection (x : list string * list string) | FConfig (c : jsobj) | FBool (b : bool) | FViewport (v : viewport) | FUndefined
| FId (v : jsval) | FInfo (id : jsval) (i : workflow_info) | FJson (w : workflow_json) | FProgress (p : option jsobj)
| FSaving (r : jsval * full_snapshot * jsval) | FRunning (r : option (jsval * full_snapshot * jsval)).

Definition no_canvas : string :=
  "[window.app] Canvas instance is not available yet. Current canvas helpers depend on `window.canvas`.".

Section facade.
Context `{Dagre} (reg : odoo_registry).

(** ** The canvas *)

(** [_requireCanvas()] and an operation of the canvas, which works on the store. *)
Definition on_canvas (d : desk) (f : fit_state → fit_state * outcome unit) : desk * outcome facade_result :=
  match dk_canvas d with
  | None => (d, Throw no_canvas)
  | Some c =>
      let '(c, r) := f (FitState (with_vs_editor (ft_view c) (Some (dk_store d))) (ft_fitMenuOpen c)) in
      (with_dk_store (default (dk_store d) (vs_editor (ft_view c))) (with_dk_canvas c d), r ≫= λ _, Ret FUndefined)
  end.

Definition on_view (f : vstate → vstate) (c : fit_state) : fit_state * outcome unit :=
  (FitState (f (ft_view c)) (ft_fitMenuOpen c), Ret tt).

Definition canvas_tidyUp (vertical : bool) (ranksep : option num) (label : option string) (c : fit_state)
    : fit_state * outcome unit :=
  match vs_editor (ft_view c) with
  | None => (c, Ret tt)
  | Some s =>
      let '(s, r) := tidyUp s vertical ranksep label in
      (FitState (with_vs_editor (ft_view c) (Some s)) (ft_fitMenuOpen c), r)
  end.

Definition facade_canvas (d : desk) (c : canvas_call) : desk * outcome facade_result :=
  let nodes := state_nodes (st_adapter (dk_store d)) in
  match c with
  | CanvasViewport =>
      match dk_canvas d with
      | None => (d, Throw no_canvas)
      | Some c => (d, Ret (FViewport (getViewport (with_vs_editor (ft_view c) (Some (dk_store d))))))
      end
  | CanvasFit o => on_canvas d (λ c, (canvas_fitToView c nodes (dk_root d) (dk_controls d) (dk_dims d) o, Ret tt))
  | CanvasFitWidth => on_canvas d (λ c, fitFullWidth c (dk_root d) (dk_controls d) (dk_dims d))
  | CanvasFitHeight => on_canvas d (λ c, fitFullHeight c (dk_root d) (dk_controls d) (dk_dims d))
  | CanvasTidy v r l => on_canvas d (canvas_tidyUp v r l)
  | CanvasZoomIn => on_canvas d (on_view (λ s, zoomIn s (dk_root d)))
  | CanvasZoomOut => on_canvas d (on_view (λ s, zoomOut s (dk_root d)))
  | CanvasResetZoom => on_canvas d (on_view (λ s, resetZoom s (dk_root d)))
  | CanvasClearSelection =>
      let s := select (dk_store d) [] [] in (with_dk_store s d, Ret (FSelection (selection (st_ui s))))
  end.

(** ** Nodes and connections *)

Definition default_position (d : desk) : position :=
  match dk_canvas d with
  | None => getDefaultNodePosition None (Viewport 0 0 1) None
  | Some c => getDefaultNodePosition (dk_root d) (getViewport (with_vs_editor (ft_view c) (Some (dk_store d)))) (Some (nodeWidth (dk_dims d)))
  end.

(** [app.node.setConfig] *)
Definition facade_setConfig (s : store) (i : string) (config : jsobj) : store * outcome jsobj :=
  match requireNode s i with
  | Throw m => (s, Throw m)
  | Ret _ =>
      let s := with_adapter s (Adapter.setNodeConfig (st_adapter s) i config).1 in
      (s, Ret (Adapter.getNodeConfig (st_adapter s) i))
  end.

Definition facade_node (d : desk) (c : node_call) : desk * outcome facade_result :=
  let s := dk_store d in
  match c with
  | NodeAll => (d, Ret (FNodes (state_nodes (st_adapter s))))
  | NodeGet i => (d, Ret (FNode (getNode s i)))
  | NodeAdd ty p => let '(s, n) := facade_add reg s ty p (default_position d) in (with_dk_store s d, Ret (FNode n))
  | NodeMove i p y => let '(s, r) := facade_move s i p y in (with_dk_store s d, r ≫= λ x, Ret (FNode x))
  | NodeSelect ids => let s := facade_select s ids in (with_dk_store s d, Ret (FSelection (selection (st_ui s))))
  | NodeOpen i => let '(s, r) := facade_open s i in (with_dk_store s d, r ≫= λ x, Ret (FNode x))
  | NodeRemove i => let '(s, b) := removeNode reg s i in (with_dk_store s d, Ret (FBool b))
  | NodeSetConfig i config => let '(s, r) := facade_setConfig s i config in (with_dk_store s d, r ≫= λ x, Ret (FConfig x))
  | NodeToggleDisable i => let '(s, r) := facade_toggleDisable s i in (with_dk_store s d, r ≫= λ x, Ret (FNode x.1))
  end.

Definition facade_connection (d : desk) (c : connection_call) : desk * outcome facade_result :=
  let s := dk_store d in
  match c with
  | ConnectionAll => (d, Ret (FConnections (state_connections (st_adapter s))))
  | ConnectionGet i => (d, Ret (FConnection (getConnection s i)))
  | ConnectionAdd a b x y => let '(s, c) := facade_connect s a b x y in (with_dk_store s d, Ret (FConnection c))
  | ConnectionRemove i => let '(s, b) := removeConnection s i in (with_dk_store s d, Ret (FBool b))
  end.

(** ** The workflow *)

Definition facade_workflow (d : desk) (c : workflow_call) : desk * outcome facade_result :=
  let a := dk_app d in
  match c with
  | WorkflowId => (d, Ret (FId (ap_workflowId a)))
  | WorkflowInfo => (d, Ret (FInfo (ap_workflowId a) (ap_info a)))
  | WorkflowJson => (d, Ret (FJson (Adapter.toJSON (st_adapter (dk_store d)))))
  | WorkflowExecution => (d, Ret (FProgress (executionProgress (dk_store d))))
  | WorkflowSave => let '(a, r) := save_start a in (with_dk_app a d, Ret (FSaving r))
  | WorkflowRun => let '(a, r) := execute_start a in (with_dk_app a d, Ret (FRunning r))
  | HasUnsavedChanges => (d, Ret (FBool (hasUnsavedChanges (dk_store d))))
  end.

(** [selectedNode] *)
Definition selectedNode (s : store) : option ui_node :=
  find_first (λ n, existsb (λ i, bool_decide (ui_id n = Some i)) (selection (st_ui s)).1) (state_nodes (st_adapter s)).

(** ** A call *)

Definition facade (d : desk) (c : facade_call) : desk * outcome facade_result :=
  match named c with
  | OfNode c => facade_node d c
  | OfConnection c => facade_connection d c
  | OfCanvas c => facade_canvas d c
  | OfWorkflow c => facade_workflow d c
  | SelectedNode => (d, Ret (FNode (selectedNode (dk_store d))))
  | Selection => (d, Ret (FSelection (selection (st_ui (dk_store d)))))
  | _ => (d, Ret FUndefined)
  end.

Lemma named_namespaced c :
  match named c with OfNode _ | OfConnection _ | OfCanvas _ | OfWorkflow _ | SelectedNode | Selection => True | _ => False end.
Proof using Type. by destruct c. Qed.
End facade.

(** ** Scripts keep the editor's promises *)

Section scripts.
Context `{Dagre} (reg : odoo_registry).

(** Nothing of the graph or the history changes. *)
Definition ui_only (s s' : store) : Prop := st_adapter s' = st_adapter s ∧ st_history s' = st_history s.

Lemma ui_any s s' : ui_only s s' → any_run reg s → any_run reg s'.
Proof using Type. intros [Ha Hh] Hs. eapply ar_edit; [exact Hs|]. by apply ae_other. Qed.

Definition view_ui_only (f : vstate → vstate) : Prop :=
  ∀ v s, vs_editor v = Some s → ∃ s', vs_editor (f v) = Some s' ∧ ui_only s s'.

Lemma updateViewRect_editor v root : vs_editor (updateViewRect v root) = vs_editor v.
Proof using Type. by destruct root. Qed.

Lemma set_zoom_ui z : view_ui_only (λ v, set_zoom v z).
Proof using Type. intros v s E. unfold set_zoom. rewrite E. eexists. split; [done|done]. Qed.

Lemma zoomIn_ui root : view_ui_only (λ v, zoomIn v root).
Proof using Type. intros v s E. unfold zoomIn. rewrite updateViewRect_editor. by apply set_zoom_ui. Qed.

Lemma zoomOut_ui root : view_ui_only (λ v, zoomOut v root).
Proof using Type. intros v s E. unfold zoomOut. rewrite updateViewRect_editor. by apply set_zoom_ui. Qed.

Lemma resetZoom_ui root : view_ui_only (λ v, resetZoom v root).
Proof using Type. intros v s E. unfold resetZoom. rewrite updateViewRect_editor, E. by eexists. Qed.

Lemma fitToView_ui root dims nodes o : view_ui_only (λ v, fitToView v root dims nodes o).
Proof using Type.
  intros v s E. unfold fitToView. destruct root as [r|]; [|by eexists]. destruct dims as [d|]; [|by eexists].
  destruct (calculateFitView _ _ _ _) as [w|]; [|by eexists]. rewrite updateViewRect_editor.
  unfold set_whole_viewport, hook_setViewport. rewrite E. by eexists.
Qed.

Lemma tidyUp_any s vertical ranksep label : any_run reg s → any_run reg (tidyUp s vertical ranksep label).1.
Proof using Type.
  intros Hs. unfold tidyUp. destruct (negb (canEdit s)); [done|]. destruct (state_nodes _); [done|].
  destruct (calculateTidyPositions _ _ _ _) as [res|m]; [|done]. cbn [fst]. unfold move_to_positions. apply (ar_batch _ s); [done|].
  generalize (beginBatch s). induction (omap ui_id (state_nodes (st_adapter s))) as [|i ids IH]; intros s1; cbn [foldl]; [done|].
  destruct (jget i res) as [p|]; [|apply IH]. eapply rtc_l; [exact (ae_edit reg s1 (EMoveNode i p))|apply IH].
Qed.

(** An operation of the canvas keeps the runs of its store. *)
Definition canvas_any (f : fit_state → fit_state * outcome unit) : Prop :=
  ∀ c s, vs_editor (ft_view c) = Some s → any_run reg s →
    ∃ s', vs_editor (ft_view (f c).1) = Some s' ∧ any_run reg s'.

Lemma view_canvas_any f : view_ui_only f → canvas_any (on_view f).
Proof using Type. intros Hf c s E Hs. destruct (Hf _ _ E) as (s' & E' & Hu). exists s'. split; [done|]. by eapply ui_any. Qed.

Lemma fit_canvas_any nodes root controls dims o : canvas_any (λ c, (canvas_fitToView c nodes root controls dims o, Ret tt)).
Proof using Type.
  intros c s E Hs. destruct (fitToView_ui root (Some dims) nodes (FitOptions (fo_padding o) (fo_mode o)
     (Some (default (getFitTopOffsetPx root controls) (fo_topOffsetPx o)))) (ft_view c) s E) as (s' & E' & Hu).
  exists s'. split; [exact E'|]. by eapply ui_any.
Qed.

Lemma tidy_canvas_any v r l : canvas_any (canvas_tidyUp v r l).
Proof using Type.
  intros c s E Hs. unfold canvas_tidyUp. rewrite E. pose proof (tidyUp_any s v r l Hs) as Ht.
  destruct (tidyUp s v r l) as [s' x]. by exists s'.
Qed.

Lemma tidy_and_fit_any root controls dims v l : canvas_any (λ c, tidy_and_fit c root controls dims v l).
Proof using Type.
  intros c s E Hs. unfold tidy_and_fit. rewrite E. destruct (negb (canEdit s)); [by exists s|].
  pose proof (tidyUp_any s v (if v then Some (getAdaptiveFitHeightRanksep (state_nodes (st_adapter s))) else None) (Some l) Hs) as Ht.
  destruct (tidyUp _ _ _ _) as [s1 [x|m]]; cbn [fst] in *; [|by exists s1].
  exact (fit_canvas_any (state_nodes (st_adapter s1)) root controls dims
           (FitOptions None (Some (if v then CoverHeight else CoverWidth)) None)
           (FitState (with_vs_editor (ft_view (closeFitMenu c)) (Some s1)) (ft_fitMenuOpen (closeFitMenu c))) s1 eq_refl Ht).
Qed.

Lemma on_canvas_any d f : canvas_any f → any_run reg (dk_store d) → any_run reg (dk_store (on_canvas d f).1).
Proof using Type.
  intros Hf Hs. unfold on_canvas. destruct (dk_canvas d) as [c|]; [|done].
  destruct (Hf (FitState (with_vs_editor (ft_view c) (Some (dk_store d))) (ft_fitMenuOpen c)) (dk_store d) eq_refl Hs) as (s' & E & Hs').
  destruct (f _) as [c' r]. cbn [fst] in *. rewrite E. exact Hs'.
Qed.

Lemma facade_canvas_any d c : any_run reg (dk_store d) → any_run reg (dk_store (facade_canvas d c).1).
Proof using Type.
  intros Hs. destruct c; cbn [facade_canvas].
  - by destruct (dk_canvas d).
  - apply on_canvas_any; [apply fit_canvas_any|done].
  - apply on_canvas_any; [apply tidy_and_fit_any|done].
  - apply on_canvas_any; [apply tidy_and_fit_any|done].
  - apply on_canvas_any; [apply tidy_canvas_any|done].
  - apply on_canvas_any; [apply view_canvas_any, zoomIn_ui|done].
  - apply on_canvas_any; [apply view_canvas_any, zoomOut_ui|done].
  - apply on_canvas_any; [apply view_canvas_any, resetZoom_ui|done].
  - by apply (ui_any (dk_store d)).
Qed.

Lemma requireNode_cases s i : (∃ n, requireNode s i = Ret n) ∨ (∃ m, requireNode s i = Throw m).
Proof using Type. unfold requireNode. destruct (getNode s i); eauto. Qed.

Lemma facade_node_any d c : any_run reg (dk_store d) → any_run reg (dk_store (facade_node reg d c).1).
Proof using Type.
  intros Hs. destruct c; cbn [facade_node]; try done.
  - unfold facade_add. pose proof (ar_edit reg _ _ Hs (ae_edit reg (dk_store d) (EAddNode type (default (default_position d) pos)))) as H1.
    cbn [exec_edit] in H1. destruct (addNode _ _ _ _) as [s [j|]]; exact H1.
  - unfold facade_move. destruct (normalizeNodePosition _ _ _ _) as [p|m]; [|done].
    exact (ar_edit reg _ _ Hs (ae_edit reg (dk_store d) (EMoveNode i p))).
  - by apply (ui_any (dk_store d)).
  - unfold facade_open. destruct (requireNode_cases (dk_store d) i) as [[n ->]|[m ->]]; [|done]. by apply (ui_any (dk_store d)).
  - pose proof (ar_edit reg _ _ Hs (ae_edit reg (dk_store d) (ERemoveNode i))) as H1. cbn [exec_edit] in H1.
    destruct (removeNode _ _ _) as [s b]. exact H1.
  - unfold facade_setConfig. destruct (requireNode_cases (dk_store d) i) as [[n ->]|[m ->]]; [|done].
    exact (ar_edit reg _ _ Hs (ae_write reg (dk_store d) (OpSetNodeConfig i config) eq_refl)).
  - unfold facade_toggleDisable. destruct (requireNode_cases (dk_store d) i) as [[n ->]|[m ->]]; [|done].
    eapply ar_edit; [exact Hs|]. unfold toggleDisable. rewrite on_adapter_spec.
    exact (ae_write reg (dk_store d) (OpSetNodeMeta i _) eq_refl).
Qed.

Lemma facade_connection_any d c : any_run reg (dk_store d) → any_run reg (dk_store (facade_connection d c).1).
Proof using Type.
  intros Hs. destruct c; cbn [facade_connection]; try done.
  - unfold facade_connect. pose proof (ar_edit reg _ _ Hs (ae_edit reg (dk_store d) (EAddConnection src sh tgt th))) as H1.
    cbn [exec_edit] in H1. destruct (addConnection _ _ _ _ _) as [s [j|]]; exact H1.
  - pose proof (ar_edit reg _ _ Hs (ae_edit reg (dk_store d) (ERemoveConnection i))) as H1. cbn [exec_edit] in H1.
    destruct (removeConnection _ _) as [s b]. exact H1.
Qed.

Lemma facade_any d c : any_run reg (dk_store d) → any_run reg (dk_store (facade reg d c).1).
Proof using Type.
  intros Hs. unfold facade. destruct (named c); try done.
  - by apply facade_node_any.
  - by apply facade_connection_any.
  - by apply facade_canvas_any.
  - destruct c0; cbn; by apply (ui_any (dk_store d)).
Qed.

(** A call that throws has changed nothing, unless the layout threw. *)
Lemma facade_throw_node d c m : (facade_node reg d c).2 = Throw m → dk_store (facade_node reg d c).1 = dk_store d.
Proof using Type.
  destruct c; cbn [facade_node]; try done.
  - by destruct (facade_add _ _ _ _ _).
  - unfold facade_move. by destruct (normalizeNodePosition _ _ _ _).
  - unfold facade_open. by destruct (requireNode _ _).
  - by destruct (removeNode _ _ _).
  - unfold facade_setConfig. by destruct (requireNode _ _).
  - unfold facade_toggleDisable. destruct (requireNode _ _); [|done]. by destruct (toggleDisable _ _).
Qed.

(** Whatever script is run on the facade, in whatever state of the editor, the graph
    stays well formed and rendered, and undo and redo work. *)
Theorem scripts_keep_sync d cs :
  odoo_ok reg → any_run reg (dk_store d) →
  let s := dk_store (foldl (λ d c, (facade reg d c).1) d cs) in
  editor_wf (ad_editor (st_adapter s)) ∧
  state_nodes (st_adapter s) = node_to_ui <$> getNodes (ad_editor (st_adapter s)) ∧
  state_connections (st_adapter s) = connection_to_ui <$> getConnections (ad_editor (st_adapter s)) ∧
  (undo s).1.2 = Ret (canUndo (st_history s)).
Proof using Type.
  intros Hreg Hs s. assert (any_run reg s) as H1.
  { subst s. revert d Hs. induction cs as [|c cs IH]; intros d Hs; cbn [foldl]; [done|]. apply IH. by apply facade_any. }
  destruct (any_run_follows reg Hreg s H1) as [t Hf]. pose proof (follows_inv reg s t Hf) as [_ [Hwf _ _] _ [Hn Hc]].
  split; [done|]. split; [done|]. split; [done|]. apply (follows_undo reg s t Hf).
Qed.

End scripts.

(** ** The place on the window *)

(** What an application keeps for itself, next to [window.app]. *)
Definition own_slot (window : option jsval) (f : facade_slot) : facade_slot := FacadeSlot window (fs_previous f) (fs_installed f).
Definition no_facade : facade_slot := FacadeSlot None None None.

(** Applications that are opened and closed like brackets leave the window as it was. *)
Theorem nested_facades (same : jsval → jsval → bool) window fa fb :
  (∀ x, same x x = true) →
  let a := installWindowAppFacade (own_slot window no_facade) fa in
  let b := installWindowAppFacade (own_slot (fs_app a) no_facade) fb in
  let b' := uninstallWindowAppFacade same b in
  let a' := uninstallWindowAppFacade same (own_slot (fs_app b') a) in
  fs_app b = Some fb ∧ fs_app b' = Some fa ∧ fs_app a' = window.
Proof. intros Hs. cbn. destruct window as [w|]; cbn; [done|]. by rewrite Hs. Qed.

(** The first one closed before the second leaves its facade on the window for good. *)
Lemma crossed_facades (same : jsval → jsval → bool) fa fb :
  let a := installWindowAppFacade (own_slot None no_facade) fa in
  let b := installWindowAppFacade (own_slot (fs_app a) no_facade) fb in
  let a' := uninstallWindowAppFacade same (own_slot (fs_app b) a) in
  let b' := uninstallWindowAppFacade same (own_slot (fs_app a') b) in
  fs_app b' = Some fa.
Proof. done. Qed.

(** An application that is closed while its workflow is loaded installs its facade
    afterwards: it stays on the window. *)
Theorem late_facade_stays same window facade :
  fs_app (installWindowAppFacade (uninstallWindowAppFacade same (own_slot window no_facade)) facade) = Some facade.
Proof. done. Qed.
