(* ===== verification/PanelControls.v ===== *)
(** * Controls in the configuration panel (components/node_config_panel.js)

    What the panel makes of the controls of a node: the controls of a trigger
    whose class has none, which controls are visible, the sections they are shown
    in and the rows of a section.  A control is the object [getNodeControls] of
    the adapter answers.  The objects of nodes the canvas hands to the panel have
    no settings ([config]) and no description. *)

From S2P Require Import Prelude JsMap JsValue JsString JsNumber Node Editor Adapter.

Definition TRIGGER_NODE_TYPES : list string :=
  ["manual_trigger"; "schedule_trigger"; "webhook_trigger"; "record_event_trigger"].

Definition SCHEDULE_INTERVAL_OPTIONS : list string := ["minutes"; "hours"; "days"; "weeks"; "months"].
Definition WEBHOOK_METHOD_OPTIONS : list string := ["GET"; "POST"; "PUT"; "PATCH"; "DELETE"].
Definition WEBHOOK_RESPONSE_OPTIONS : list string := ["immediate"; "last_node"].
Definition RECORD_EVENT_OPTIONS : list string := ["on_create_or_write"; "on_create"; "on_write"; "on_unlink"].

Definition CONNECTOR_PANEL_HIDE_CONTROL_KEYS : list string :=
  ["connector_id"; "workspace_id"; "endpoint_id"; "auth_profile_id"].

Definition isTriggerType (t : string) : bool := bool_decide (t ∈ TRIGGER_NODE_TYPES).

(** [normalizeTriggerFields(value)] *)
Definition normalizeTriggerFields (v : jsval) : list jsval :=
  omap (λ item, match item with
                | JStr s => if trim s =s "" then None else Some (JStr (trim s))
                | _ => None
                end) (as_array v).

(** [makeSelectOptions(values)] *)
Definition makeSelectOptions (values : list string) : jsval :=
  JArr ((λ v, JObj [("value", JStr v); ("label", JStr v)]) <$> values).

(** [node.config] of an object the canvas hands over. *)
Definition object_config (n : ui_node) : jsobj := [].

(** [buildFallbackTriggerControls(node)] *)
Definition buildFallbackTriggerControls (n : ui_node) : list jsobj :=
  let config := object_config n in
  if ui_type n =s "schedule_trigger" then
    [ [("key", JStr "interval_number"); ("type", JStr "number"); ("label", JStr "Every");
       ("value", js_or (oprop config "interval_number") (JInt 1)); ("min", JInt 1)];
      [("key", JStr "interval_type"); ("type", JStr "select"); ("label", JStr "Unit");
       ("value", js_or (oprop config "interval_type") (JStr "hours"));
       ("options", makeSelectOptions SCHEDULE_INTERVAL_OPTIONS)] ]
  else if ui_type n =s "webhook_trigger" then
    [ [("key", JStr "http_method"); ("type", JStr "select"); ("label", JStr "HTTP Method");
       ("value", js_or (oprop config "http_method") (JStr "POST")); ("section", JStr "webhook");
       ("options", makeSelectOptions WEBHOOK_METHOD_OPTIONS)];
      [("key", JStr "response_mode"); ("type", JStr "select"); ("label", JStr "Response Mode");
       ("value", js_or (oprop config "response_mode") (JStr "immediate")); ("section", JStr "webhook");
       ("options", makeSelectOptions WEBHOOK_RESPONSE_OPTIONS)] ]
  else if ui_type n =s "record_event_trigger" then
    [ [("key", JStr "model_name"); ("type", JStr "model_select"); ("label", JStr "Model");
       ("value", js_or (oprop config "model_name") (JStr "")); ("placeholder", JStr "res.partner")];
      [("key", JStr "trigger_event"); ("type", JStr "select"); ("label", JStr "Trigger Event");
       ("value", js_or (oprop config "trigger_event") (JStr "on_create_or_write"));
       ("options", makeSelectOptions RECORD_EVENT_OPTIONS)];
      [("key", JStr "filter_domain"); ("type", JStr "domain"); ("label", JStr "Filter Domain");
       ("value", if js_typeof (oprop config "filter_domain") =s "string" then oprop config "filter_domain" else JStr "[]")] ]
  else [].

(** [control.key] and [control.type] *)
Definition str_of (v : jsval) : string := match v with JStr s => s | _ => "" end.
Definition control_key (c : jsobj) : string := str_of (oprop c "key").
Definition control_type (c : jsobj) : string := str_of (oprop c "type").

(** ** Visibility *)

(** [_evalVisibleWhen(conditions)] *)
Definition evalVisibleWhen (values : jsobj) (conditions : jsval) : bool :=
  forallb (λ ka, let currentVal := oprop values ka.1 in
                 match ka.2 with
                 | JArr allowed => existsb (λ a, strict_eq a currentVal) allowed
                 | JStr _ => strict_eq currentVal ka.2
                 | _ => true
                 end) (entries conditions).

(** [!(control.visibleWhen && !this._evalVisibleWhen(control.visibleWhen))] *)
Definition visible (values : jsobj) (c : jsobj) : bool :=
  negb (truthy (oprop c "visibleWhen") && negb (evalVisibleWhen values (oprop c "visibleWhen"))).

(** ** Sections *)

(** [_getRenderedSectionKey(control)]; a section is named by a string. *)
Definition getRenderedSectionKey (nodeType : string) (c : jsobj) : string :=
  let baseSection := if truthy (oprop c "section") then str_of (oprop c "section") else "general" in
  if (nodeType =s "http") && (control_key c =s "query_params") then "params" else baseSection.

Definition HTTP_SECTION_ORDER : list string := ["request"; "headers"; "authentication"; "params"; "body"; "settings"].

Fixpoint index_of (s : string) (l : list string) : option nat :=
  match l with
  | [] => None
  | x :: l => if x =s s then Some 0%nat else S <$> index_of s l
  end.

(** [_getSectionSortRank(sectionKey)]; a rank that no listed section has stands
    for [Number.MAX_SAFE_INTEGER]. *)
Definition getSectionSortRank (nodeType sectionKey : string) : nat :=
  if nodeType =s "http" then default (length HTTP_SECTION_ORDER) (index_of sectionKey HTTP_SECTION_ORDER)
  else length HTTP_SECTION_ORDER.

Definition section_icons : list (string * string) :=
  [("general", "fa-cube"); ("operation", "fa-sliders"); ("target", "fa-bullseye"); ("search", "fa-search");
   ("values", "fa-pencil-square-o"); ("params", "fa-sliders"); ("trigger", "fa-bolt"); ("webhook", "fa-link");
   ("filters", "fa-filter"); ("runtime", "fa-play-circle"); ("request", "fa-globe");
   ("authentication", "fa-lock"); ("body", "fa-file-text-o"); ("headers", "fa-list-ul"); ("settings", "fa-cog")].

(** [_getSectionIcon(section)] *)
Definition getSectionIcon (section : string) : string := default "fa-cube" (jget section section_icons).

(** [formatSectionName(section)] *)
Definition formatSectionName (section : string) : string :=
  if section =s "webhook" then "Webhook"
  else if section =s "params" then "Params"
  else if section =s "filters" then "Filters"
  else if section =s "trigger" then "Trigger"
  else capitalize section.

(** ** Rows *)

Record row_plan := RowPlan {
  rp_id : string;
  rp_keys : list string;
  rp_kind : string;
  rp_className : string;
  rp_cellClasses : list string;
}.

(** [_getControlRowPlans(sectionKey)] *)
Definition getControlRowPlans (sectionKey : string) : list row_plan :=
  default [] (jget sectionKey
    [("general", [RowPlan "model-event" ["model_name"; "trigger_event"] "default" "ncp-control-row--keep-inline-md"
                    ["ncp-control-cell--span-8"; "ncp-control-cell--span-4"]]);
     ("operation", [RowPlan "operation-model" ["operation"; "model"] "default" "ncp-control-row--keep-inline-md"
                    ["ncp-control-cell--span-4"; "ncp-control-cell--span-8"]]);
     ("request", [RowPlan "method-url" ["method"; "url"] "url-shell" "ncp-control-row--url-shell"
                    ["ncp-control-cell--span-2"; "ncp-control-cell--span-10"];
                  RowPlan "path-params" ["path_params"] "default" "" ["ncp-control-cell--full"]]);
     ("trigger", [RowPlan "interval-row" ["interval_number"; "interval_type"] "default" "ncp-control-row--keep-inline-md"
                    ["ncp-control-cell--span-4"; "ncp-control-cell--span-8"]]);
     ("webhook", [RowPlan "webhook-options" ["http_method"; "response_mode"] "default" "ncp-control-row--keep-inline-md"
                    ["ncp-control-cell--span-6"; "ncp-control-cell--span-6"]])]).

Record control_row := ControlRow {
  cr_id : string;
  cr_className : string;
  cr_kind : string;
  cr_cells : list (string * jsobj * string);
}.

(** [new Map(controls.map((control) => [control.key, control]))] *)
Definition control_by_key (cs : list jsobj) : list (string * jsobj) :=
  foldl (λ m c, mset (control_key c) c m) [] cs.

(** The controls a plan asks for, when all of them are there. *)
Definition matched_controls (m : list (string * jsobj)) (plan : row_plan) : option (list jsobj) :=
  mapM (λ k, jget k m) (rp_keys plan).

Definition planned_row (sectionKey : string) (plan : row_plan) (matched : list jsobj) : control_row :=
  ControlRow (sectionKey +:+ ":" +:+ rp_id plan) (rp_className plan) (rp_kind plan)
    (imap (λ i c, (control_key c, c, default "ncp-control-cell--span-6" (rp_cellClasses plan !! i))) matched).

Definition single_row (sectionKey : string) (c : jsobj) : control_row :=
  ControlRow (sectionKey +:+ ":" +:+ control_key c) "ncp-control-row--single" "default"
    [(control_key c, c, "ncp-control-cell--full")].

(** [_buildControlRows(sectionKey, controls)] *)
Definition buildControlRows (sectionKey : string) (cs : list jsobj) : list control_row :=
  let m := control_by_key cs in
  let '(rows, consumed) :=
    foldl (λ st plan,
      match matched_controls m plan with
      | None => st
      | Some matched => (st.1 ++ [planned_row sectionKey plan matched], st.2 ++ rp_keys plan)
      end) ([], []) (getControlRowPlans sectionKey) in
  rows ++ (single_row sectionKey <$> bfilter (λ c, negb (bool_decide (control_key c ∈ consumed))) cs).

Definition row_controls (r : control_row) : list jsobj := (λ c : string * jsobj * string, c.1.2) <$> cr_cells r.

(** ** Groups *)

Record control_group := ControlGroup {
  cg_name : string;
  cg_key : string;
  cg_icon : string;
  cg_controls : list jsobj;
  cg_rows : list control_row;
  cg_orderIndex : nat;
}.

Definition add_control (g : control_group) (c : jsobj) : control_group :=
  ControlGroup (cg_name g) (cg_key g) (cg_icon g) (cg_controls g ++ [c]) (cg_rows g) (cg_orderIndex g).

(** The body of the loop over the visible controls. *)
Definition group_control (nodeType : string) (st : list (string * control_group) * nat) (c : jsobj)
    : list (string * control_group) * nat :=
  let section := getRenderedSectionKey nodeType c in
  let st := if jhas section st.1 then st
            else (oset section (ControlGroup (formatSectionName section) section (getSectionIcon section) [] [] st.2) st.1,
                  S st.2) in
  (jalter (λ g, add_control g c) section st.1, st.2).

(** The comparison of [sort]. *)
Definition group_before (nodeType : string) (l r : control_group) : bool :=
  let a := getSectionSortRank nodeType (cg_key l) in
  let b := getSectionSortRank nodeType (cg_key r) in
  (a <? b)%nat || ((a =? b)%nat && (cg_orderIndex l <? cg_orderIndex r)%nat).

Definition with_rows (g : control_group) (cs : list jsobj) : control_group :=
  ControlGroup (cg_name g) (cg_key g) (cg_icon g) cs (buildControlRows (cg_key g) cs) (cg_orderIndex g).

(** [groupedControls], of the controls the panel shows for a node of a type and
    the values they have. *)
Definition groupedControls (nodeType : string) (values : jsobj) (cs : list jsobj) : list control_group :=
  let '(groups, _) := foldl (group_control nodeType) ([], 0%nat) (bfilter (visible values) cs) in
  (λ g, with_rows g (cg_controls g)) <$> sort_by (group_before nodeType) (jvals groups).

(** The choice of using the preset of the endpoint. *)
Definition endpoint_option : jsval := JObj [("value", JStr ""); ("label", JStr "— Use endpoint preset —")].

Definition offer_preset (c : jsobj) : jsobj :=
  let options := as_array (oprop c "options") in
  if (control_key c =s "method") && (control_type c =s "select")
     && negb (existsb (λ o, truthy o && strict_eq (prop o "value") (JStr "")) options)
  then oset "options" (JArr (endpoint_option :: options)) c else c.

(** [connectorEditableGroupedControls] *)
Definition connectorEditableGroupedControls (nodeType : string) (values : jsobj) (cs : list jsobj) : list control_group :=
  if negb (nodeType =s "connector_request") then []
  else
    bfilter (λ g, negb (Nat.eqb (length (cg_controls g)) 0))
      ((λ g, with_rows g (offer_preset <$>
               bfilter (λ c, negb (bool_decide (control_key c ∈ CONNECTOR_PANEL_HIDE_CONTROL_KEYS))) (cg_controls g)))
         <$> groupedControls nodeType values cs).

(** ** Facts *)

Lemma control_by_key_get cs k c : jget k (control_by_key cs) = Some c → c ∈ cs ∧ control_key c = k.
Proof.
  unfold control_by_key.
  assert (∀ pre m, (∀ c, jget k m = Some c → c ∈ pre ∧ control_key c = k) →
    ∀ c, jget k (foldl (λ m c, mset (control_key c) c m) m cs) = Some c → c ∈ pre ++ cs ∧ control_key c = k) as H.
  { induction cs as [|x cs IH]; intros pre m Hm y; csimpl; [rewrite app_nil_r; apply Hm|].
    rewrite cons_middle, app_assoc. apply IH. intros z. rewrite jget_mset. case_bool_decide; [intros [= <-]; set_solver|].
    intros [? ?]%Hm. set_solver. }
  intros Hc. by apply (H [] []) in Hc.
Qed.

Lemma planned_row_controls s plan matched : row_controls (planned_row s plan matched) = matched.
Proof.
  unfold row_controls, planned_row. cbn [cr_cells]. rewrite fmap_imap.
  etransitivity; [|apply list_fmap_id]. rewrite <- imap_const. by apply imap_ext.
Qed.

Lemma matched_spec cs plan matched :
  matched_controls (control_by_key cs) plan = Some matched →
  (control_key <$> matched) = rp_keys plan ∧ ∀ c, c ∈ matched → c ∈ cs.
Proof.
  unfold matched_controls. rewrite mapM_Some. intros H.
  split.
  - induction H as [|k c ks l Hk _ IH]; csimpl; [done|]. apply control_by_key_get in Hk as [_ ->]. by rewrite IH.
  - intros c Hc. induction H as [|k c' ks l Hk _ IH]; [set_solver|].
    apply elem_of_cons in Hc as [->|Hc]; [by apply control_by_key_get in Hk as [? _]|by apply IH].
Qed.

(** What the loop over the plans builds. *)
Lemma plans_spec s cs plans :
  ∃ ms,
    foldl (λ st plan,
      match matched_controls (control_by_key cs) plan with
      | None => st
      | Some matched => (st.1 ++ [planned_row s plan matched], st.2 ++ rp_keys plan)
      end) ([], []) plans = ((λ pm, planned_row s pm.1 pm.2) <$> ms, control_key <$> concat ms.*2) ∧
    (∀ c, c ∈ concat ms.*2 → c ∈ cs) ∧ sublist (control_key <$> concat ms.*2) (concat (rp_keys <$> plans)).
Proof.
  assert (∀ rows consumed, ∃ ms,
    foldl (λ st plan,
      match matched_controls (control_by_key cs) plan with
      | None => st
      | Some matched => (st.1 ++ [planned_row s plan matched], st.2 ++ rp_keys plan)
      end) (rows, consumed) plans
    = (rows ++ ((λ pm, planned_row s pm.1 pm.2) <$> ms), consumed ++ (control_key <$> concat ms.*2)) ∧
    (∀ c, c ∈ concat ms.*2 → c ∈ cs) ∧ sublist (control_key <$> concat ms.*2) (concat (rp_keys <$> plans))) as H.
  2: { apply (H [] []). }
  induction plans as [|plan plans IH]; intros rows consumed; csimpl.
  { exists []. csimpl. rewrite !app_nil_r. split_and!; [done|set_solver|constructor]. }
  destruct (matched_controls _ plan) as [matched|] eqn:E.
  - apply matched_spec in E as [Hk Hin]. destruct (IH (rows ++ [planned_row s plan matched]) (consumed ++ rp_keys plan))
      as (ms & -> & Hms & Hs).
    exists ((plan, matched) :: ms). csimpl. rewrite fmap_app, Hk, <- !app_assoc. split_and!; [done|set_solver|].
    by apply sublist_app.
  - destruct (IH rows consumed) as (ms & -> & Hms & Hs). exists ms. split_and!; [done|done|].
    by apply sublist_inserts_l.
Qed.

Lemma plans_disjoint s : NoDup (concat (rp_keys <$> getControlRowPlans s)).
Proof.
  unfold getControlRowPlans. cbn [jget]. repeat case_bool_decide; simpl;
  repeat (apply NoDup_cons; split; [set_solver|]); apply NoDup_nil_2.
Qed.

(** The rows of a section show every control of it once. *)
Lemma rows_perm s cs :
  NoDup (control_key <$> cs) → concat (row_controls <$> buildControlRows s cs) ≡ₚ cs.
Proof.
  intros Hd. unfold buildControlRows. destruct (plans_spec s cs (getControlRowPlans s)) as (ms & -> & Hin & Hsub).
  pose proof (sublist_NoDup _ _ (plans_disjoint s) Hsub) as Hnd.
  rewrite fmap_app, concat_app, <- !list_fmap_compose.
  set (taken := concat ms.*2) in *.
  assert (concat (row_controls ∘ (λ pm, planned_row s pm.1 pm.2) <$> ms) = taken) as ->.
  { unfold taken. f_equal. apply list_fmap_ext. intros. apply planned_row_controls. }
  set (rest := bfilter _ cs).
  assert (concat (row_controls ∘ single_row s <$> rest) = rest) as ->.
  { generalize rest. intros l. induction l as [|x l IH]; csimpl; [done|]. by f_equal. }
  pose proof (bfilter_Permutation (λ c, bool_decide (control_key c ∈ control_key <$> taken)) cs) as Hp.
  etransitivity; [|symmetry; exact Hp]. rewrite Permutation_app_comm. apply Permutation_app_head.
  apply NoDup_Permutation; [by eapply NoDup_fmap_1|eapply NoDup_fmap_1, bfilter_fmap_NoDup; exact Hd|].
  intros x. rewrite elem_of_bfilter, bool_decide_eq_true. split.
  - intros Hx. split; [by apply Hin|]. by apply list_elem_of_fmap_2.
  - intros [Hx (y & Hk & Hy)%list_elem_of_fmap]. replace x with y; [done|]. symmetry.
    apply Hin in Hy as Hy'. apply list_elem_of_lookup in Hx as [i Hi]. apply list_elem_of_lookup in Hy' as [j Hj].
    assert (i = j) as ->; [|congruence].
    eapply (NoDup_lookup (control_key <$> cs)); [done|by rewrite list_lookup_fmap, Hi|rewrite list_lookup_fmap, Hj].
    cbn. by rewrite Hk.
Qed.

(** *** The groups are those of the sections *)

(** The entries of the loop, without what is only shown. *)
Definition bare_groups (m : list (string * control_group)) : list (string * list jsobj) :=
  (λ kg, (kg.1, cg_controls kg.2)) <$> m.

Record groups_inv (m : list (string * control_group)) (n : nat) : Prop := {
  gi_ok : obj_ok m;
  gi_key : ∀ k g, jget k m = Some g → cg_key g = k ∧ (cg_orderIndex g < n)%nat;
}.

Lemma group_control_step t m n c :
  groups_inv m n →
  let st := group_control t (m, n) c in
  groups_inv st.1 st.2 ∧ bare_groups st.1 = group_step (getRenderedSectionKey t) oset (bare_groups m) c.
Proof.
  intros [Hok Hk]. unfold group_control. set (k := getRenderedSectionKey t c). cbn [fst snd].
  unfold jhas. destruct (jget k m) as [g|] eqn:E; cbn [fst snd].
  - split.
    + split; [eapply obj_ok_keys; [symmetry; apply jkeys_jalter|done]|]. intros k' g'. rewrite jget_jalter.
      case_bool_decide; [subst|by apply Hk]. rewrite E. intros [= <-]. by apply Hk in E.
    + unfold bare_groups. rewrite (jalter_fmap _ _ (λ l, l ++ [c])) by done.
      rewrite (group_step_present _ _ _ (cg_controls g)); [done|by apply obj_ok_map|].
      change (getRenderedSectionKey t c) with k. by rewrite (jget_map cg_controls), E.
  - set (g0 := ControlGroup _ _ _ _ _ _). split.
    + split; [eapply obj_ok_keys; [symmetry; apply jkeys_jalter|by apply obj_ok_oset]|]. intros k' g'.
      rewrite jget_jalter, jget_oset. case_bool_decide; [subst; intros [= <-]; split; [done|cbn; lia]|].
      intros [? ?]%Hk. split; [done|lia].
    + unfold bare_groups. rewrite jalter_oset_fresh by done. rewrite <- (oset_fmap cg_controls).
      unfold group_step. change (getRenderedSectionKey t c) with k. by rewrite (jget_map cg_controls), E.
Qed.

Lemma group_controls_spec t cs :
  let st := foldl (group_control t) ([], 0%nat) cs in
  groups_inv st.1 st.2 ∧ bare_groups st.1 = group_object (getRenderedSectionKey t) cs.
Proof.
  assert (∀ m n b, groups_inv m n → bare_groups m = b →
    let st := foldl (group_control t) (m, n) cs in
    groups_inv st.1 st.2 ∧ bare_groups st.1 = foldl (group_step (getRenderedSectionKey t) oset) b cs) as H.
  { induction cs as [|c cs IH]; intros m n b Hi Hb; [done|]. cbn [foldl].
    destruct (group_control_step t m n c Hi) as [Hi' Hb']. destruct (group_control t (m, n) c) as [m' n'].
    apply IH; [done|]. by rewrite <- Hb. }
  apply H; [|done]. split; [apply obj_ok_nil|done].
Qed.

Lemma group_before_asym t l r : group_before t l r = true → group_before t r l = false.
Proof.
  unfold group_before. rewrite orb_true_iff, orb_false_iff, andb_true_iff, andb_false_iff,
    !Nat.ltb_lt, !Nat.ltb_ge, Nat.eqb_eq, Nat.eqb_neq. lia.
Qed.

Lemma group_before_ntrans t x y z :
  group_before t y x = false → group_before t z y = false → group_before t z x = false.
Proof.
  unfold group_before. rewrite !orb_false_iff, !andb_false_iff, !Nat.ltb_ge, !Nat.eqb_neq. lia.
Qed.

Lemma group_keys m n : groups_inv m n → cg_key <$> jvals m = jkeys m.
Proof.
  intros [Hok Hk]. unfold jvals, jkeys. rewrite <- list_fmap_compose. apply list_fmap_ext. intros i [k g] Hi.
  apply list_elem_of_lookup_2, elem_jget in Hi; [|by apply obj_ok_NoDup]. by apply Hk in Hi as [? _].
Qed.

Lemma group_member t m n cs g :
  groups_inv m n → bare_groups m = group_object (getRenderedSectionKey t) cs → g ∈ jvals m →
  cg_controls g = bfilter (λ c, getRenderedSectionKey t c =s cg_key g) cs ∧ cg_controls g ≠ [].
Proof.
  intros [Hok Hk] Hb ([k g'] & -> & Hg)%list_elem_of_fmap. cbn [snd].
  apply (group_object_member (getRenderedSectionKey t)). rewrite <- Hb. apply list_elem_of_fmap. exists (k, g').
  split; [|done]. cbn. apply elem_jget in Hg; [|by apply obj_ok_NoDup]. apply Hk in Hg as [-> _]. done.
Qed.

Lemma grouped_rows_perm gs :
  (∀ g, g ∈ gs → NoDup (control_key <$> cg_controls g)) →
  concat (row_controls <$> concat (cg_rows <$> ((λ g, with_rows g (cg_controls g)) <$> gs))) ≡ₚ concat (cg_controls <$> gs).
Proof.
  induction gs as [|g gs IH]; intros H; csimpl; [done|]. rewrite fmap_app, concat_app.
  apply Permutation_app; [apply rows_perm, H; left|]. apply IH. intros; apply H; by right.
Qed.

(** ** Properties *)

(** C36: The panel shows every visible control once: when the controls have distinct
    keys, the rows of all sections together are the controls whose conditions
    hold; a section shows the controls that name it, in order, is shown once and
    is not empty; and sections that have a fixed place stand in this order. *)
Theorem panel_rows_exact nodeType values cs :
  NoDup (control_key <$> cs) →
  let groups := groupedControls nodeType values cs in
  concat (row_controls <$> concat (cg_rows <$> groups)) ≡ₚ bfilter (visible values) cs ∧
  NoDup (cg_key <$> groups) ∧
  (∀ g, g ∈ groups → cg_controls g ≠ [] ∧
     cg_controls g = bfilter (λ c, getRenderedSectionKey nodeType c =s cg_key g) (bfilter (visible values) cs)) ∧
  StronglySorted (λ g h, (getSectionSortRank nodeType (cg_key g) ≤ getSectionSortRank nodeType (cg_key h))%nat) groups.
Proof.
  intros Hd groups. unfold groups, groupedControls. set (vis := bfilter (visible values) cs).
  destruct (group_controls_spec nodeType vis) as [Hi Hb].
  destruct (foldl (group_control nodeType) ([], 0%nat) vis) as [m n]. cbn [fst snd] in Hi, Hb.
  pose proof (sort_by_perm (group_before nodeType) (jvals m)) as Hp.
  pose proof (sort_by_sorted (group_before nodeType) (group_before_asym _) (group_before_ntrans _) (jvals m)) as Hs.
  set (gs := sort_by _ _) in *.
  assert (∀ g, g ∈ gs → cg_controls g = bfilter (λ c, getRenderedSectionKey nodeType c =s cg_key g) vis ∧
    cg_controls g ≠ []) as Hg.
  { intros g. rewrite Hp. by apply (group_member nodeType m n). }
  split_and!.
  - rewrite grouped_rows_perm.
    + rewrite Hp. pose proof (group_object_perm (getRenderedSectionKey nodeType) vis) as H. rewrite <- Hb in H.
      unfold bare_groups, jvals in *. rewrite <- list_fmap_compose in H. rewrite <- list_fmap_compose. exact H.
    + intros g Hgs. destruct (Hg g Hgs) as [-> _]. by apply bfilter_fmap_NoDup, bfilter_fmap_NoDup.
  - rewrite <- list_fmap_compose. change (NoDup (cg_key <$> gs)). rewrite Hp, (group_keys m n) by done.
    destruct Hi as [? _]. by apply obj_ok_NoDup.
  - intros g' (g & -> & Hgs)%list_elem_of_fmap. destruct (Hg g Hgs) as [? ?]. done.
  - clear -Hs. induction Hs as [|g gs _ IH Hg]; csimpl; constructor; [done|].
    apply Forall_fmap. eapply Forall_impl; [exact Hg|]. intros h Hh. unfold group_before in Hh. cbn.
    apply orb_false_iff in Hh as [Hh _]. by apply Nat.ltb_ge in Hh.
Qed.

(** ** Examples *)

Definition http_controls : list jsobj :=
  [ [("key", JStr "query_params"); ("type", JStr "query_params"); ("section", JStr "request")];
    [("key", JStr "url"); ("type", JStr "text"); ("section", JStr "request")];
    [("key", JStr "method"); ("type", JStr "select"); ("section", JStr "request")];
    [("key", JStr "body"); ("type", JStr "code"); ("section", JStr "body");
     ("visibleWhen", JObj [("method", JArr [JStr "POST"; JStr "PUT"])])] ].

Lemma panel_rows_exact_witness :
  NoDup (control_key <$> http_controls) ∧
  NoDup (cg_key <$> groupedControls "http" [("method", JStr "POST")] http_controls) ∧
  (cg_key <$> groupedControls "http" [("method", JStr "POST")] http_controls) = ["request"; "params"; "body"] ∧
  (cg_key <$> groupedControls "http" [("method", JStr "GET")] http_controls) = ["request"; "params"].
Proof.
  assert (NoDup (control_key <$> http_controls)) as H by (apply (bool_decide_unpack _); vm_compute; exact I).
  split; [exact H|]. split; [|vm_compute; done].
  exact (proj1 (proj2 (panel_rows_exact "http" [("method", JStr "POST")] http_controls H))).
Defined.
