(* ===== verification/PanelResults.v ===== *)
(** * Execution data in the configuration panel (components/node_config_panel.js)

    What the panel shows of a run for its node: the events of the node by output
    socket and version, the event selected, the data of the nodes before it and
    the context expressions are previewed in.  [execution] is the progress of the
    run as an object; events and results are values, results carrying their node
    id as a string. *)

From S2P Require Import Prelude JsMap JsValue JsString JsNumber Node Editor Adapter Store StoreExec Dfs GraphUtils Dagre Layout CanvasTidy CanvasContext PanelControls.

(** What the panel is told and what the user selected. *)
Record panel_view := PanelView {
  pv_node : ui_node;
  pv_workflow : option (list gconn);
  pv_viewMode : string;
  pv_execution : jsval;
  pv_selectedOutputSocket : option string;
  pv_selectedExecutionVersion : option Z;
}.

Definition node_id_of (n : ui_node) : string := default "" (ui_id n).

Definition isExecutionView (p : panel_view) : bool := pv_viewMode p =s "execution".
Definition isTriggerNode (p : panel_view) : bool := isTriggerType (ui_type (pv_node p)).

(** ** Events *)

(** The events of a run: those of every iteration when there are some. *)
Definition run_events (execution : jsval) : jsval :=
  match as_array (prop execution "executionEvents") with
  | [] => prop execution "nodeResults"
  | events => JArr events
  end.

Definition is_event_of (nodeId : string) (e : jsval) : bool :=
  truthy e && strict_eq (prop e "node_id") (JStr nodeId).

(** [_hasNodeExecutionData(execution, nodeId)] *)
Definition hasNodeExecutionData (execution : jsval) (nodeId : string) : bool :=
  if negb (truthy execution) || (nodeId =s "") then false
  else existsb (is_event_of nodeId) (as_array (run_events execution)).

(** [nodeExecutionEvents] *)
Definition nodeExecutionEvents (p : panel_view) : list jsval :=
  if negb (truthy (pv_execution p)) then []
  else bfilter (is_event_of (node_id_of (pv_node p))) (as_array (run_events (pv_execution p))).

(** [event.output_socket || '_default'] *)
Definition socket_key (e : jsval) : string :=
  let s := str_of (prop e "output_socket") in if s =s "" then "_default" else s.

(** [outputSocketGroups] *)
Definition outputSocketGroups (p : panel_view) : list (string * list jsval) :=
  group_map socket_key (nodeExecutionEvents p).

Record socket_tab := SocketTab { tab_id : string; tab_rawLabel : string; tab_count : nat }.

Definition tab_label (t : socket_tab) : string := tab_rawLabel t +:+ " (" +:+ pretty (tab_count t) +:+ ")".

(** [outputSocketTabs] *)
Definition outputSocketTabs (p : panel_view) : list socket_tab :=
  let groups := outputSocketGroups p in
  if (length groups <=? 1)%nat && jhas "_default" groups then []
  else (λ g,
    let label := if g.1 =s "_default" then ""
                 else match jget g.1 (ui_outputs (pv_node p)) with
                      | Some l => str_of (js_or l (JStr g.1))
                      | None => g.1
                      end in
    SocketTab g.1 label (length g.2)) <$> groups.

(** [activeOutputSocket] *)
Definition activeOutputSocket (p : panel_view) : string :=
  match outputSocketTabs p with
  | [] => "_default"
  | (t :: _) as tabs =>
      match pv_selectedOutputSocket p with
      | Some s => if negb (s =s "") && existsb (λ t, tab_id t =s s) tabs then s else tab_id t
      | None => tab_id t
      end
  end.

(** [activeSocketEvents] *)
Definition activeSocketEvents (p : panel_view) : list jsval :=
  default [] (jget (activeOutputSocket p) (outputSocketGroups p)).

(** [versionOptions]: index, label and event. *)
Definition versionOptions (p : panel_view) : list (nat * string * jsval) :=
  let events := activeSocketEvents p in
  if (length events <=? 1)%nat then []
  else imap (λ idx e, (idx, pretty (S idx) +:+ " of " +:+ pretty (length events), e)) events.

(** [activeVersionIndex] *)
Definition activeVersionIndex (p : panel_view) : Z :=
  let n := Z.of_nat (length (activeSocketEvents p)) in
  if (n =? 0)%Z then (-1)%Z
  else match pv_selectedExecutionVersion p with
       | Some v => if (0 <=? v)%Z && (v <? n)%Z then v else (n - 1)%Z
       | None => (n - 1)%Z
       end.

(** [selectedExecutionEvent] *)
Definition selectedExecutionEvent (p : panel_view) : option jsval :=
  let idx := activeVersionIndex p in
  if (idx <? 0)%Z || (Z.of_nat (length (activeSocketEvents p)) <=? idx)%Z then None
  else activeSocketEvents p !! Z.to_nat idx.

Definition executionNodeResult : panel_view → option jsval := selectedExecutionEvent.

(** [onOutputSocketClick(socketKey)] *)
Definition onOutputSocketClick (p : panel_view) (socketKey : string) : panel_view :=
  PanelView (pv_node p) (pv_workflow p) (pv_viewMode p) (pv_execution p) (Some socketKey) None.

(** [onVersionChange(ev)] *)
Definition onVersionChange (p : panel_view) (value : string) : panel_view :=
  PanelView (pv_node p) (pv_workflow p) (pv_viewMode p) (pv_execution p) (pv_selectedOutputSocket p)
    (StoreExec.parseInt (JStr value)).

(** ** Status and output *)

(** [executionStatus] *)
Definition executionStatus (p : panel_view) : string :=
  if truthy (pv_execution p) && strict_eq (prop (pv_execution p) "status") (JStr "failed") then "error"
  else match executionNodeResult p with
       | None => "idle"
       | Some r => if truthy (prop r "error_message") then "error" else "success"
       end.

(** [executionDisplayResult]: the error, or the output. *)
Definition executionDisplayResult (p : panel_view) : option (jsval + jsval) :=
  match executionNodeResult p with
  | None => None
  | Some r =>
      if truthy (prop r "error_message") then Some (inl (prop r "error_message"))
      else Some (inr (match prop r "output_data" with JUndef => JNull | v => v end))
  end.

(** [outputItemCount] *)
Definition outputItemCount (p : panel_view) : option nat :=
  match executionDisplayResult p with
  | Some (inr (JArr l)) => Some (length l)
  | Some (inr (JObj o)) => Some (length o)
  | _ => None
  end.

(** [canTogglePin], given whether the node is pinned. *)
Definition canTogglePin (isNodePinned : bool) (p : panel_view) : bool :=
  if isNodePinned then true
  else match selectedExecutionEvent p with
       | None => false
       | Some e =>
           if truthy (prop e "error_message") then false
           else truthy (prop e "node_run_id") || negb (is_nullish (prop e "output_data"))
       end.

(** ** The data of the nodes before *)

(** [getStructuralPredecessorIds(workflow, nodeId)]; the walk always ends
    ([predecessors_exact]). *)
Definition structural_predecessors (cs : list gconn) (nodeId : string) : list string :=
  default [] (getStructuralPredecessorIds cs nodeId).

(** [_filterPredecessorResults(nodeResults, currentNodeId)] *)
Definition filterPredecessorResults (p : panel_view) (nodeResults : list jsval) (currentNodeId : string)
    : list node_result_t :=
  match pv_workflow p with
  | None => bfilter (λ r, negb (r.1 =s currentNodeId)) (with_node_id nodeResults)
  | Some cs => getLatestNodeResultsByNodeIds (with_node_id nodeResults) (structural_predecessors cs currentNodeId)
  end.

Record left_item := LeftItem {
  li_nodeId : string;
  li_json : jsval;
  li_title : jsval;
  li_isInputNode : bool;
}.

(** The context the canvas hands over for a workflow that was not run. *)
Definition buildContextForNode : jsobj :=
  [("_node", JObj []); ("_json", JObj []); ("_input", JObj [("item", JNull); ("json", JNull)]);
   ("_execution", JNull); ("_workflow", JNull)].

(** [leftPanelData] *)
Definition leftPanelData (p : panel_view) : option (list left_item) :=
  let currentNodeId := node_id_of (pv_node p) in
  match (if truthy (pv_execution p) then as_array (prop (pv_execution p) "nodeResults") else []) with
  | (_ :: _) as nodeResults =>
      match filterPredecessorResults p nodeResults currentNodeId with
      | [] => None
      | results =>
          let nodeInputData := match selectedExecutionEvent p with
                               | Some e => match prop e "input_data" with JUndef => JNull | v => v end
                               | None => JNull
                               end in
          Some (imap (λ i r,
            let isInput := Nat.eqb i (length results - 1) in
            LeftItem r.1
              (if isInput && negb (strict_eq nodeInputData JNull) then nodeInputData else prop r.2 "output_data")
              (js_or (prop r.2 "title") (js_or (prop r.2 "node_label") (js_or (prop r.2 "node_type") (JStr r.1))))
              isInput) results)
      end
  | [] =>
      match pv_workflow p with
      | None => None
      | Some _ =>
          match entries (or_object (oprop buildContextForNode "_node")) with
          | [] => None
          | es => Some (imap (λ i e, LeftItem e.1 e.2 (JStr e.1) (Nat.eqb i (length es - 1))) es)
          end
      end
  end.

(** [_shouldShowInputByDefault(execution, node, workflow)] *)
Definition shouldShowInputByDefault (execution : jsval) (n : ui_node) (workflow : option (list gconn)) : bool :=
  if isTriggerType (ui_type n) then false
  else match workflow with
       | None => true
       | Some cs =>
           match structural_predecessors cs (node_id_of n) with
           | [] => true
           | ids =>
               if negb (truthy execution) then false
               else match as_array (run_events execution) with
                    | [] => false
                    | events => negb (Nat.eqb (length (getLatestNodeResultsByNodeIds (with_node_id events) ids)) 0)
                    end
           end
       end.

(** [_shouldShowOutputByDefault(execution, node, viewMode)] *)
Definition shouldShowOutputByDefault (execution : jsval) (n : ui_node) (viewMode : string) : bool :=
  if isTriggerType (ui_type n) then true
  else if viewMode =s "execution" then true
  else hasNodeExecutionData execution (node_id_of n).

(** ** Contexts for previews *)

(** [_buildInputContextFromValue(value)]; unlike the canvas, the first item is
    taken even when it is falsy. *)
Definition buildInputContextFromValue (v : jsval) : jsobj :=
  let items := CanvasContext.normalizeItems v in
  let inputContext := [("item", default v (head items)); ("json", v); ("items", JArr items)] in
  match v with
  | JObj o => ospread (ospread [] o) inputContext
  | _ => inputContext
  end.

(** [actions.getExpressionContext(...)] of the canvas; its builder returns
    ([node_context_exact]). *)
Definition getExpressionContext (cs : list gconn) (progress : jsval) (o : context_options) : jsobj :=
  default emptyContext (buildExecutionContext cs progress o).

Definition own_options (p : panel_view) (nodeResults : jsval) : context_options :=
  ContextOptions (pv_execution p) nodeResults (Some (node_id_of (pv_node p))).

(** [inputData]; [cs] and [progress] are those of the canvas. *)
Definition inputData (cs : list gconn) (progress : jsval) (p : panel_view) : jsval :=
  match match selectedExecutionEvent p with
        | Some e => prop e "input_data"
        | None => JUndef
        end with
  | JUndef =>
      let own := if truthy (pv_execution p)
                 then oprop (getExpressionContext cs progress
                               (own_options p (js_or (prop (pv_execution p) "nodeResults") (JArr [])))) "_json"
                 else JUndef in
      match own with
      | JUndef => match pv_workflow p with
                  | None => JNull
                  | Some _ => oprop buildContextForNode "_json"
                  end
      | v => v
      end
  | v => v
  end.

(** The context of a workflow that was not run. *)
Definition unrun_context (base : jsobj) (node json : jsval) : jsobj :=
  [("_vars", or_object (oprop base "_vars")); ("_loop", or_null (oprop base "_loop")); ("_node", node);
   ("_json", json); ("_input", JObj (buildInputContextFromValue json));
   ("_execution", or_null (oprop base "_execution")); ("_workflow", or_null (oprop base "_workflow"));
   ("_now", or_null (oprop base "_now")); ("_today", or_null (oprop base "_today"))].

(** [expressionPreviewContext] *)
Definition expressionPreviewContext (cs : list gconn) (progress : jsval) (p : panel_view) : jsobj :=
  match (if truthy (pv_execution p) then as_array (prop (pv_execution p) "nodeResults") else []) with
  | _ :: _ =>
      let baseCtx := getExpressionContext cs progress (own_options p (prop (pv_execution p) "nodeResults")) in
      match selectedExecutionEvent p with
      | Some e =>
          match prop e "input_data" with
          | JUndef => baseCtx
          | v => oset "_input" (JObj (buildInputContextFromValue v)) (oset "_json" v baseCtx)
          end
      | None => baseCtx
      end
  | [] =>
      let base := getExpressionContext cs progress (ContextOptions JUndef JUndef None) in
      match pv_workflow p with
      | None => unrun_context base (or_object (oprop base "_node")) (or_object (inputData cs progress p))
      | Some _ =>
          let json := or_object (oprop buildContextForNode "_json") in
          unrun_context base (js_or (oprop buildContextForNode "_node") (or_object (oprop base "_node"))) json
      end
  end.

(** [workflowVariables] *)
Definition workflowVariables (cs : list gconn) (progress : jsval) : jsval :=
  or_object (oprop (getExpressionContext cs progress (ContextOptions JUndef JUndef None)) "_vars").

(** [hasWorkflowVariables] *)
Definition hasWorkflowVariables (cs : list gconn) (progress : jsval) : bool :=
  negb (Nat.eqb (length (entries (workflowVariables cs progress))) 0).

(** [contextVariables], given the date and time texts of the moment. *)
Definition contextVariables (now today : string) (workflow : option (list gconn)) (cs : list gconn) (progress : jsval) : jsobj :=
  let ctx := getExpressionContext cs progress (ContextOptions JUndef JUndef None) in
  [("_now", js_or (oprop ctx "_now") (JStr now)); ("_today", js_or (oprop ctx "_today") (JStr today));
   ("_vars", or_object (oprop ctx "_vars"));
   ("_execution", js_or (oprop ctx "_execution")
      (JObj [("id", JStr "[filled at execution time]"); ("mode", JStr "test")]));
   ("_workflow", js_or (oprop ctx "_workflow")
      (match workflow with
       | Some _ => JObj [("id", JUndef); ("name", JUndef); ("active", JBool false)]
       | None => JObj [("id", JNull); ("name", JStr "My workflow"); ("active", JBool false)]
       end))].

(** ** Facts *)

Lemma socket_groups_get p k :
  default [] (jget k (outputSocketGroups p)) = bfilter (λ e, socket_key e =s k) (nodeExecutionEvents p).
Proof. destruct (group_map_spec socket_key (nodeExecutionEvents p)) as [_ H _]. apply H. Qed.

Lemma socket_groups_key p k :
  k ∈ jkeys (outputSocketGroups p) ↔ ∃ e, e ∈ nodeExecutionEvents p ∧ socket_key e = k.
Proof.
  destruct (group_map_spec socket_key (nodeExecutionEvents p)) as [_ Hg Hk]. fold (outputSocketGroups p) in Hg, Hk.
  rewrite elem_of_jkeys. specialize (Hg k). split.
  - intros [g E]. specialize (Hk k g E). rewrite E in Hg. cbn in Hg. destruct g as [|e g]; [done|].
    exists e. assert (e ∈ e :: g) as He by left. rewrite Hg in He. apply elem_of_bfilter in He as [? ?]. by bsimpl.
  - intros (e & He & <-). destruct (jget (socket_key e) (outputSocketGroups p)); [by eexists|]. cbn in Hg.
    exfalso. apply (not_elem_of_nil e). rewrite Hg. apply elem_of_bfilter. split; [done|]. by apply bool_decide_eq_true.
Qed.

Lemma socket_key_nonempty e : socket_key e ≠ "".
Proof. unfold socket_key. cbn. by case_bool_decide. Qed.

(** The tabs, when there are some, are the sockets of the events. *)
Lemma tabs_cases p :
  (outputSocketTabs p = [] ∧ ∀ e, e ∈ nodeExecutionEvents p → socket_key e = "_default") ∨
  (tab_id <$> outputSocketTabs p = jkeys (outputSocketGroups p) ∧ outputSocketTabs p ≠ []).
Proof.
  unfold outputSocketTabs. destruct (_ && _) eqn:E.
  - left. split; [done|]. intros e He. apply andb_true_iff in E as [Hl Hd]. apply Nat.leb_le in Hl.
    assert (socket_key e ∈ jkeys (outputSocketGroups p)) as Hk by (apply socket_groups_key; eauto).
    assert ("_default" ∈ jkeys (outputSocketGroups p)) as Hk' by (apply elem_of_jkeys; unfold jhas in Hd; by destruct (jget _ _)).
    unfold jkeys in *. destruct (outputSocketGroups p) as [|g [|? ?]]; simpl in *; [by apply not_elem_of_nil in Hk| |lia].
    apply list_elem_of_singleton in Hk, Hk'. congruence.
  - destruct (outputSocketGroups p) as [|g gs] eqn:Eg.
    + left. split; [done|]. intros e He. exfalso.
      assert (socket_key e ∈ jkeys (outputSocketGroups p)) as Hk by (apply socket_groups_key; eauto).
      rewrite Eg in Hk. set_solver.
    + right. split; [|done]. unfold jkeys. rewrite <- list_fmap_compose. by apply list_fmap_ext.
Qed.

Lemma active_socket_key p :
  nodeExecutionEvents p ≠ [] → activeOutputSocket p ∈ jkeys (outputSocketGroups p).
Proof.
  intros Hne. destruct (tabs_cases p) as [[Ht Hd]|[Hk Ht]]; unfold activeOutputSocket.
  - rewrite Ht. destruct (nodeExecutionEvents p) as [|e es] eqn:E; [done|]. rewrite <- E in Hd.
    apply socket_groups_key. exists e. split; [rewrite E; left|]. apply Hd. rewrite E. left.
  - destruct (outputSocketTabs p) as [|t ts]; [done|]. rewrite <- Hk.
    destruct (pv_selectedOutputSocket p) as [s|]; [|left]. destruct (_ && _) eqn:E; [|left].
    apply andb_true_iff in E as [_ (t' & Ht' & Hs)%existsb_true_iff]. apply bool_decide_eq_true in Hs. rewrite <- Hs. apply (list_elem_of_fmap_2 tab_id). done.
Qed.

Lemma active_events p :
  activeSocketEvents p = bfilter (λ e, socket_key e =s activeOutputSocket p) (nodeExecutionEvents p).
Proof. apply socket_groups_get. Qed.

Lemma active_events_ne p : nodeExecutionEvents p ≠ [] → activeSocketEvents p ≠ [].
Proof.
  intros H. rewrite active_events. apply active_socket_key in H. apply socket_groups_key in H as (e & He & Hk).
  intros Hn. apply (not_elem_of_nil e). rewrite <- Hn. apply elem_of_bfilter. split; [done|]. by apply bool_decide_eq_true.
Qed.

(** A socket the user clicks is the active one when the node has events on it. *)
Lemma clicked_socket p e v :
  e ∈ nodeExecutionEvents p →
  activeOutputSocket (PanelView (pv_node p) (pv_workflow p) (pv_viewMode p) (pv_execution p) (Some (socket_key e)) v)
  = socket_key e.
Proof.
  intros He. set (q := PanelView _ _ _ _ _ _). assert (nodeExecutionEvents q = nodeExecutionEvents p) as Hq by done.
  destruct (tabs_cases q) as [[Ht Hd]|[Hk Ht]]; unfold activeOutputSocket.
  - rewrite Ht. symmetry. apply Hd. by rewrite Hq.
  - destruct (outputSocketTabs q) as [|t ts] eqn:E; [done|]. cbn [pv_selectedOutputSocket].
    unfold q. cbn [pv_selectedOutputSocket]. rewrite (bool_decide_false (socket_key e = "")) by apply socket_key_nonempty. cbn [negb andb].
    assert (socket_key e ∈ tab_id <$> t :: ts) as (t' & H1 & H2)%list_elem_of_fmap.
    { rewrite Hk. apply socket_groups_key. exists e. by rewrite Hq. }
    replace (existsb _ _) with true; [done|]. symmetry. apply existsb_true_iff. exists t'. split; [done|].
    by apply bool_decide_eq_true.
Qed.

Lemma selected_lookup p (v : nat) e :
  activeSocketEvents p !! v = Some e → pv_selectedExecutionVersion p = Some (Z.of_nat v) → selectedExecutionEvent p = Some e.
Proof.
  intros He Hv. pose proof (lookup_lt_Some _ _ _ He) as Hl.
  unfold selectedExecutionEvent, activeVersionIndex. rewrite Hv.
  rewrite (proj2 (Z.eqb_neq (Z.of_nat (length (activeSocketEvents p))) 0)) by lia.
  rewrite (proj2 (Z.leb_le 0 (Z.of_nat v))), (proj2 (Z.ltb_lt (Z.of_nat v) (Z.of_nat (length (activeSocketEvents p))))) by lia.
  cbn [andb].
  rewrite (proj2 (Z.ltb_ge (Z.of_nat v) 0)), (proj2 (Z.leb_gt (Z.of_nat (length (activeSocketEvents p))) (Z.of_nat v))) by lia.
  cbn [orb]. by rewrite Nat2Z.id.
Qed.

Lemma selected_default p :
  pv_selectedExecutionVersion p = None → selectedExecutionEvent p = last (activeSocketEvents p).
Proof.
  intros Hv. unfold selectedExecutionEvent, activeVersionIndex. rewrite Hv.
  destruct (activeSocketEvents p) as [|e es] eqn:E; [done|]. set (l := e :: es).
  assert (0 < length l) as Hl by (simpl; lia).
  rewrite (proj2 (Z.eqb_neq (Z.of_nat (length l)) 0)) by lia.
  rewrite (proj2 (Z.ltb_ge (Z.of_nat (length l) - 1) 0)), (proj2 (Z.leb_gt (Z.of_nat (length l)) (Z.of_nat (length l) - 1))) by lia.
  cbn [orb]. rewrite last_lookup. replace (Z.to_nat (Z.of_nat (length l) - 1)) with (pred (length l)) by lia. done.
Qed.

Lemma selected_some p : nodeExecutionEvents p ≠ [] → is_Some (selectedExecutionEvent p).
Proof.
  intros H. apply active_events_ne in H. unfold selectedExecutionEvent, activeVersionIndex.
  destruct (activeSocketEvents p) as [|e es] eqn:E; [done|]. set (l := e :: es) in *.
  assert (0 < length l) as Hl by (simpl; lia).
  rewrite (proj2 (Z.eqb_neq (Z.of_nat (length l)) 0)) by lia.
  set (v := match pv_selectedExecutionVersion p with Some _ => _ | None => _ end).
  assert (0 ≤ v < Z.of_nat (length l))%Z as Hvr.
  { unfold v. destruct (pv_selectedExecutionVersion p) as [w|]; [|lia].
    destruct (0 <=? w)%Z eqn:E1, (w <? Z.of_nat (length l))%Z eqn:E2; cbn [andb]; lia. }
  rewrite (proj2 (Z.ltb_ge v 0)), (proj2 (Z.leb_gt (Z.of_nat (length l)) v)) by lia. cbn [orb].
  apply lookup_lt_is_Some_2. lia.
Qed.

Lemma selected_elem p e : selectedExecutionEvent p = Some e → e ∈ nodeExecutionEvents p.
Proof.
  unfold selectedExecutionEvent. destruct (_ || _); [done|]. intros H%list_elem_of_lookup_2.
  rewrite active_events in H. by apply elem_of_bfilter in H as [? _].
Qed.

Lemma pred_spec cs n : n ≠ "" → ∀ k, k ∈ structural_predecessors cs n ↔ tc (arrow (getStructuralConnections cs)) k n.
Proof.
  intros Hn k. unfold structural_predecessors. destruct (predecessors_exact cs n Hn) as (out & -> & _ & H). apply H.
Qed.

(** The rows of the left side are the results found. *)
Lemma left_items_keys f (rs : list node_result_t) :
  (∀ i r, li_nodeId (f i r) = r.1) → li_nodeId <$> imap f rs = jkeys rs.
Proof. intros H. rewrite fmap_imap. unfold jkeys. rewrite <- imap_const. apply imap_ext. intros. apply H. Qed.

(** ** Properties *)

(** An event of the node is shown exactly when there is one; every event can be
    chosen by its output socket and version; a socket that is clicked shows its
    latest event. *)
Theorem selected_event_exact p :
  (selectedExecutionEvent p = None ↔ nodeExecutionEvents p = []) ∧
  (∀ e, selectedExecutionEvent p = Some e → e ∈ nodeExecutionEvents p) ∧
  (∀ e, e ∈ nodeExecutionEvents p →
     let q := onOutputSocketClick p (socket_key e) in
     selectedExecutionEvent q = last (bfilter (λ x, socket_key x =s socket_key e) (nodeExecutionEvents p)) ∧
     ∃ v : nat, selectedExecutionEvent
       (PanelView (pv_node q) (pv_workflow q) (pv_viewMode q) (pv_execution q) (pv_selectedOutputSocket q) (Some (Z.of_nat v)))
       = Some e).
Proof.
  split_and!.
  - split.
    + intros H. destruct (decide (nodeExecutionEvents p = [])) as [?|Hne]; [done|].
      apply selected_some in Hne as [? ?]. congruence.
    + intros H. destruct (selectedExecutionEvent p) as [e|] eqn:E; [|done]. apply selected_elem in E. rewrite H in E. set_solver.
  - apply selected_elem.
  - intros e He. unfold onOutputSocketClick. cbn [pv_node pv_workflow pv_viewMode pv_execution pv_selectedOutputSocket].
    split.
    + rewrite selected_default by done. by rewrite active_events, clicked_socket.
    + assert (e ∈ bfilter (λ x, socket_key x =s socket_key e) (nodeExecutionEvents p)) as [v Hv]%list_elem_of_lookup.
      { apply elem_of_bfilter. split; [done|]. by apply bool_decide_eq_true. }
      exists v. apply (selected_lookup _ v); [|done]. by rewrite active_events, clicked_socket.
Qed.

(** The left side of the panel, after a run: one row for each node that comes
    before the node of the panel along structural connections and was run, and
    for no other; a row shows the last output of its node, except that the last
    row, which is the only one marked as the input, shows what the node of the
    panel received when its selected event tells. *)
Theorem left_panel_exact p cs r results :
  node_id_of (pv_node p) ≠ "" → pv_workflow p = Some cs → truthy (pv_execution p) = true →
  prop (pv_execution p) "nodeResults" = JArr (r :: results) →
  let rs := with_node_id (r :: results) in
  let items := default [] (leftPanelData p) in
  NoDup (li_nodeId <$> items) ∧
  (∀ k, k ∈ li_nodeId <$> items ↔
     tc (arrow (getStructuralConnections cs)) k (node_id_of (pv_node p)) ∧ is_Some (last_result k rs)) ∧
  ∀ i it, items !! i = Some it →
    li_isInputNode it = bool_decide (S i = length items) ∧
    ∃ x, last_result (li_nodeId it) rs = Some x ∧
      (li_json it = prop x "output_data" ∨
       li_isInputNode it = true ∧ ∃ e, selectedExecutionEvent p = Some e ∧ li_json it = prop e "input_data").
Proof.
  intros Hn Hw Ht Hr rs items.
  pose proof (pred_spec cs _ Hn) as Hp. set (n := node_id_of (pv_node p)) in *.
  destruct (latest_results_exact rs (structural_predecessors cs n)) as (Hd & Hg & _).
  set (found := getLatestNodeResultsByNodeIds rs (structural_predecessors cs n)) in *.
  assert (∀ k, k ∈ jkeys found ↔ tc (arrow (getStructuralConnections cs)) k n ∧ is_Some (last_result k rs)) as Hk.
  { intros k. rewrite elem_of_jkeys, Hg, <- Hp. unfold mem. rewrite existsb_elem. case_bool_decide; [tauto|].
    split; [by intros [? ?]|tauto]. }
  assert (filterPredecessorResults p (r :: results) n = found) as Hf by (unfold filterPredecessorResults; by rewrite Hw).
  unfold items, leftPanelData. rewrite Ht, Hr. cbn [as_array]. fold n. rewrite Hf.
  destruct found as [|f fs] eqn:E.
  { cbn [default]. split_and!; [constructor| |done]. intros k. by rewrite <- Hk. }
  rewrite <- E in *. set (input := match selectedExecutionEvent p with Some _ => _ | None => _ end).
  cbn [default from_option id]. rewrite left_items_keys by done. split_and!; [done|done|].
  intros i it. rewrite list_lookup_imap, length_imap. destruct (found !! i) as [[k x]|] eqn:Hi; [|done].
  cbn [fmap option_fmap option_map]. intros [= <-]. cbn [li_isInputNode li_nodeId li_json fst snd].
  pose proof (lookup_lt_Some _ _ _ Hi) as Hl. split.
  { destruct (Nat.eqb_spec i (length found - 1)); [rewrite bool_decide_true by lia|rewrite bool_decide_false by lia]; done. }
  exists x. split.
  { apply list_elem_of_lookup_2, elem_jget in Hi; [|done]. rewrite Hg in Hi. by destruct (mem k _). }
  destruct (_ && _) eqn:Eb; [|by left]. apply andb_true_iff in Eb as [Hi1 Hnn]. right. split; [done|].
  unfold input in *. destruct (selectedExecutionEvent p) as [e|]; [|done]. exists e. split; [done|].
  by destruct (prop e "input_data").
Qed.

(** The first item of an input is found in two ways: the canvas takes the whole
    list when its first item is falsy, the panel takes the item. *)
Lemma input_item_differs :
  oprop (CanvasContext.buildInputContext (JArr [JInt 0; JInt 1])) "item" = JArr [JInt 0; JInt 1] ∧
  oprop (buildInputContextFromValue (JArr [JInt 0; JInt 1])) "item" = JInt 0.
Proof. vm_compute. done. Qed.

(** ** Examples *)

Definition panel_execution : jsval :=
  JObj [("nodeResults", JArr [JObj [("node_id", JStr "a"); ("output_data", JInt 1)];
                              JObj [("node_id", JStr "c"); ("output_data", JInt 3)];
                              JObj [("node_id", JStr "b"); ("output_data", JInt 2); ("input_data", JInt 7)]])].

Definition panel_b : panel_view :=
  PanelView (UiNode (Some "b") "noop" "B" false 0%Qc 0%Qc "fa-cube" "Flow" [] [] false)
    (Some [conn_of "a" "b"; conn_of "b" "c"]) "edit" panel_execution None None.

Lemma left_panel_exact_witness :
  ∃ it, leftPanelData panel_b = Some [it] ∧ li_nodeId it = "a" ∧ li_json it = JInt 7 ∧
    tc (arrow (getStructuralConnections [conn_of "a" "b"; conn_of "b" "c"])) "a" "b".
Proof.
  eexists. split; [vm_compute; reflexivity|]. split; [reflexivity|]. split; [reflexivity|].
  refine (proj1 (proj1 (proj1 (proj2 (left_panel_exact panel_b [conn_of "a" "b"; conn_of "b" "c"]
    (JObj [("node_id", JStr "a"); ("output_data", JInt 1)])
    [JObj [("node_id", JStr "c"); ("output_data", JInt 3)];
     JObj [("node_id", JStr "b"); ("output_data", JInt 2); ("input_data", JInt 7)]] _ eq_refl eq_refl eq_refl)) "a") _)).
  - vm_compute. discriminate.
  - vm_compute. left.
Defined.
