(* ===== verification/ConfigPanel.v ===== *)
(** * Editing in the configuration panel (components/node_config_panel.js)

    The panel keeps a copy of the values of the controls of its node.  A change
    is written to the node a moment later, by a timer, or at once when the panel
    is saved or the node is run.  Beside the values the panel keeps how each
    control is edited (fixed value or expression), which it stores in the metadata
    of the node, and the title.  The object of the node the panel was opened with
    ([props.node]) is not replaced while the dialog is open.

    What the backend answers is in [PanelBackend], the menus of the header are in
    [PanelNav]. *)

From S2P Require Import Prelude JsMap JsValue JsString JsNumber Connection Node Editor Adapter Connector Expression Store GraphUtils PanelControls PanelResults.

(** ** The list of models (utils/use_odoo_models.js) *)

Record model_meta := ModelMeta { mm_model : string; mm_description : string; mm_moduleName : string; mm_iconUrl : string }.

Definition ODOO_MODELS_FALLBACK : list model_meta :=
  [ModelMeta "res.partner" "Contacts" "base" "/base/static/description/icon.png";
   ModelMeta "res.users" "Users" "base" "/base/static/description/icon.png";
   ModelMeta "res.company" "Companies" "base" "/base/static/description/icon.png"].

(** [toModuleName(modules)] *)
Definition toModuleName (modules : jsval) : string :=
  match modules with
  | JStr s => default "" (find_first (λ item, negb (item =s "")) (trim <$> split_on "," s))
  | _ => ""
  end.

(** [toIconUrl(moduleName)] *)
Definition toIconUrl (moduleName : string) : string :=
  if moduleName =s "" then "" else "/" +:+ moduleName +:+ "/static/description/icon.png".

(** [normalizeModelMeta(record)]; the fields of a record are texts. *)
Definition normalizeModelMeta (record : jsval) : model_meta :=
  let model := str_of (prop record "model") in
  let description := if truthy (prop record "name") then str_of (prop record "name") else model in
  let moduleName := toModuleName (prop record "modules") in
  ModelMeta model description moduleName (toIconUrl moduleName).

(** [getOdooModels()]: [None] until the answer is there. *)
Definition getOdooModels (fetched : option (list model_meta)) : list model_meta := default ODOO_MODELS_FALLBACK fetched.

(** [getModelMetaByName(modelName)] *)
Definition getModelMetaByName (fetched : option (list model_meta)) (modelName : string) : option model_meta :=
  if modelName =s "" then None else find_first (λ m, mm_model m =s modelName) (getOdooModels fetched).

(** What the answer of the backend, or its failure, leaves. *)
Definition models_response (records : list jsval) : option (list model_meta) := Some (normalizeModelMeta <$> records).
Definition models_failure : option (list model_meta) := Some ODOO_MODELS_FALLBACK.

(** ** The state *)

Record config_panel := ConfigPanel {
  cp_view : panel_view;
  cp_activeTab : string;
  cp_controlValues : jsobj;
  cp_controls : list jsobj;
  cp_controlModes : jsobj;
  cp_pairModes : jsobj;
  cp_collapsed : list (string * bool);
  cp_showInputPanel : bool;
  cp_showOutputPanel : bool;
  cp_saveTimer : bool;
  cp_store : store;
}.

Definition with_view (f : panel_view → panel_view) (p : config_panel) : config_panel :=
  ConfigPanel (f (cp_view p)) (cp_activeTab p) (cp_controlValues p) (cp_controls p) (cp_controlModes p) (cp_pairModes p)
    (cp_collapsed p) (cp_showInputPanel p) (cp_showOutputPanel p) (cp_saveTimer p) (cp_store p).
Definition with_values (vs : jsobj) (p : config_panel) : config_panel :=
  ConfigPanel (cp_view p) (cp_activeTab p) vs (cp_controls p) (cp_controlModes p) (cp_pairModes p)
    (cp_collapsed p) (cp_showInputPanel p) (cp_showOutputPanel p) (cp_saveTimer p) (cp_store p).
Definition with_pcontrols (cs : list jsobj) (p : config_panel) : config_panel :=
  ConfigPanel (cp_view p) (cp_activeTab p) (cp_controlValues p) cs (cp_controlModes p) (cp_pairModes p)
    (cp_collapsed p) (cp_showInputPanel p) (cp_showOutputPanel p) (cp_saveTimer p) (cp_store p).
Definition with_modes (cm pm : jsobj) (p : config_panel) : config_panel :=
  ConfigPanel (cp_view p) (cp_activeTab p) (cp_controlValues p) (cp_controls p) cm pm
    (cp_collapsed p) (cp_showInputPanel p) (cp_showOutputPanel p) (cp_saveTimer p) (cp_store p).
Definition with_tab (t : string) (p : config_panel) : config_panel :=
  ConfigPanel (cp_view p) t (cp_controlValues p) (cp_controls p) (cp_controlModes p) (cp_pairModes p)
    (cp_collapsed p) (cp_showInputPanel p) (cp_showOutputPanel p) (cp_saveTimer p) (cp_store p).
Definition with_collapsed (c : list (string * bool)) (p : config_panel) : config_panel :=
  ConfigPanel (cp_view p) (cp_activeTab p) (cp_controlValues p) (cp_controls p) (cp_controlModes p) (cp_pairModes p)
    c (cp_showInputPanel p) (cp_showOutputPanel p) (cp_saveTimer p) (cp_store p).
Definition with_panels (i o : bool) (p : config_panel) : config_panel :=
  ConfigPanel (cp_view p) (cp_activeTab p) (cp_controlValues p) (cp_controls p) (cp_controlModes p) (cp_pairModes p)
    (cp_collapsed p) i o (cp_saveTimer p) (cp_store p).
Definition with_saveTimer (t : bool) (p : config_panel) : config_panel :=
  ConfigPanel (cp_view p) (cp_activeTab p) (cp_controlValues p) (cp_controls p) (cp_controlModes p) (cp_pairModes p)
    (cp_collapsed p) (cp_showInputPanel p) (cp_showOutputPanel p) t (cp_store p).
Definition with_cp_adapter (a : adapter) (p : config_panel) : config_panel :=
  ConfigPanel (cp_view p) (cp_activeTab p) (cp_controlValues p) (cp_controls p) (cp_controlModes p) (cp_pairModes p)
    (cp_collapsed p) (cp_showInputPanel p) (cp_showOutputPanel p) (cp_saveTimer p) (with_adapter (cp_store p) a).

Definition with_cp_store (s : store) (p : config_panel) : config_panel :=
  ConfigPanel (cp_view p) (cp_activeTab p) (cp_controlValues p) (cp_controls p) (cp_controlModes p) (cp_pairModes p)
    (cp_collapsed p) (cp_showInputPanel p) (cp_showOutputPanel p) (cp_saveTimer p) s.

Definition cp_node (p : config_panel) : ui_node := pv_node (cp_view p).
Definition cp_nodeId (p : config_panel) : string := node_id_of (cp_node p).
Definition cp_adapter (p : config_panel) : adapter := st_adapter (cp_store p).

Definition isRecordEventTrigger (p : config_panel) : bool := ui_type (cp_node p) =s "record_event_trigger".

(** [showTriggerFields] *)
Definition showTriggerFields (values : jsobj) : bool :=
  let eventType := oprop values "trigger_event" in
  strict_eq eventType (JStr "on_create_or_write") || strict_eq eventType (JStr "on_write").

(** ** Modes *)

(** [inferControlMode(control, value)] *)
Definition inferControlMode (v : jsval) : string :=
  match v with
  | JStr s => if isExpressionMode s then "expression" else "fixed"
  | _ => "fixed"
  end.

Definition fixed_pair : jsval := JObj [("key", JStr "fixed"); ("value", JStr "fixed")].

(** The modes of the rows of a table that are not known yet; earlier versions
    stored the mode of the value only. *)
Definition complete_pair (id : string) (map : jsobj) : jsobj :=
  match oprop map id with
  | JStr s => oset id (if s =s "" then fixed_pair else JObj [("key", JStr "fixed"); ("value", JStr s)]) map
  | v => if truthy v then map else oset id fixed_pair map
  end.

(** [{ ...o, [k]: v }] for an object that may be missing. *)
Definition spread_of (v : jsval) : jsobj := ospread [] (entries (js_or v (JObj []))).

Section panel.
Context (num_toString : num → string) (num_ofString : string → option num).

(** The property name of a row id. *)
Definition id_name (v : jsval) : string := js_String num_toString v.

Definition row_ids_of (pairs : list jsval) : list jsval :=
  bfilter (λ i, negb (is_nullish i)) ((λ p, if truthy p then prop p "id" else JUndef) <$> pairs).

(** The loop over the controls that completes the restored modes. *)
Definition complete_modes (values : jsobj) (st : jsobj * jsobj) (c : jsobj) : jsobj * jsobj :=
  let '(controlModes, pairModes) := st in
  let k := control_key c in
  let inferredMode := inferControlMode (oprop values k) in
  let controlModes := if negb (truthy (oprop controlModes k)) || (inferredMode =s "expression")
                      then oset k (JStr inferredMode) controlModes else controlModes in
  let pairModes :=
    if control_type c =s "keyvalue" then
      oset k (JObj (foldl (λ map i, complete_pair (id_name i) map) (spread_of (oprop pairModes k))
                      (row_ids_of (as_array (oprop values k))))) pairModes
    else pairModes in
  (controlModes, pairModes).

(** [_initAncestorCollapseState()] *)
Definition initAncestorCollapseState (p : config_panel) : config_panel :=
  let defaults := foldl (λ m it, oset (li_nodeId it) (negb (li_isInputNode it)) m) [("_context", true)]
                    (default [] (leftPanelData (cp_view p))) in
  with_collapsed (ospread (ospread [] defaults) (cp_collapsed p)) p.

(** The controls of the node, or those of a trigger without. *)
Definition initial_controls (a : adapter) (n : ui_node) : list jsobj :=
  match getNodeControls a (node_id_of n) with
  | [] => if isTriggerType (ui_type n) then buildFallbackTriggerControls n else []
  | cs => cs
  end.

Definition initial_values (n : ui_node) (controls : list jsobj) : jsobj :=
  let values := foldl (λ vs c, oset (control_key c) (oprop c "value") vs) [] controls in
  if ui_type n =s "record_event_trigger"
  then oset "trigger_fields" (JArr (normalizeTriggerFields (oprop (object_config n) "trigger_fields"))) values
  else values.

(** [initControlValues(node)].  Values are taken as they are
    ([normalizeControlValue]), so that nothing is written back. *)
Definition initControlValues (n : ui_node) (p : config_panel) : config_panel :=
  let controls := initial_controls (cp_adapter p) n in
  let values := initial_values n controls in
  let ui := js_or (oprop (Adapter.getNodeMeta (cp_adapter p) (node_id_of n)) "ui") (JObj []) in
  let '(controlModes, pairModes) :=
    foldl (complete_modes values) (spread_of (prop ui "controlModes"), spread_of (prop ui "pairModes")) controls in
  initAncestorCollapseState (with_modes controlModes pairModes (with_values values (with_pcontrols controls p))).

(** [getControls()] *)
Definition getControls (fetched : option (list model_meta)) (triggerFieldSuggestions : list jsval) (p : config_panel)
    : list jsobj :=
  let suggestions := JArr ((λ m, JObj [("value", JStr (mm_model m)); ("label", JStr (mm_model m));
                                       ("description", JStr (mm_description m))]) <$> getOdooModels fetched) in
  let controls := (λ c, if control_type c =s "model_select" then oset "suggestions" suggestions c else c) <$> cp_controls p in
  if isRecordEventTrigger p && showTriggerFields (cp_controlValues p) then
    controls ++ [[("key", JStr "trigger_fields"); ("type", JStr "trigger_fields");
                  ("label", JStr "Watch only these updated fields"); ("section", JStr "filters");
                  ("suggestions", JArr triggerFieldSuggestions);
                  ("value", JArr (normalizeTriggerFields (oprop (cp_controlValues p) "trigger_fields")))]]
  else controls.

(** [getControlMode(controlKey)] *)
Definition getControlMode (p : config_panel) (controlKey : string) : string :=
  let value := oprop (cp_controlValues p) controlKey in
  let inferredMode := inferControlMode value in
  let hasValueSignal := match value with JStr s => negb (s =s "") | v => negb (is_nullish v) end in
  if hasValueSignal then inferredMode
  else match oprop (cp_controlModes p) controlKey with
       | JStr m => if (m =s "fixed") || (m =s "expression") then m else inferredMode
       | _ => inferredMode
       end.

(** [getPairModes(controlKey)] *)
Definition getPairModes (p : config_panel) (controlKey : string) : jsval :=
  js_or (oprop (cp_pairModes p) controlKey) (JObj []).

(** [_persistUiModes()] *)
Definition persistUiModes (p : config_panel) : config_panel :=
  with_cp_adapter (Adapter.setNodeMeta (cp_adapter p) (cp_nodeId p)
    [("ui", JObj [("controlModes", JObj (cp_controlModes p)); ("pairModes", JObj (cp_pairModes p))])]).1 p.

(** [onControlModeChange(controlKey, mode)] *)
Definition onControlModeChange (p : config_panel) (controlKey mode : string) : config_panel :=
  persistUiModes (with_modes (oset controlKey (JStr mode) (ospread [] (cp_controlModes p))) (cp_pairModes p) p).

(** [onPairModeChange(controlKey, pairId, cell, mode)] *)
Definition onPairModeChange (p : config_panel) (controlKey : string) (pairId : jsval) (cell mode : string) : config_panel :=
  let map := spread_of (oprop (cp_pairModes p) controlKey) in
  let pairMode := match oprop map (id_name pairId) with
                  | JObj o => o
                  | JArr _ as v => entries v
                  | JNull => []
                  | _ => entries fixed_pair
                  end in
  let map := oset (id_name pairId) (JObj (oset cell (JStr mode) (ospread [] pairMode))) map in
  persistUiModes (with_modes (cp_controlModes p) (oset controlKey (JObj map) (ospread [] (cp_pairModes p))) p).

(** [ids.has(key) || ids.has(Number(key))] *)
Definition names_row (ids : list jsval) (key : string) : bool :=
  existsb (strict_eq (JStr key)) ids ||
  match num_ofString key with Some n => existsb (strict_eq (JNum n)) ids | None => false end.

(** [_reconcilePairModes(controlKey, pairs)] *)
Definition reconcilePairModes (p : config_panel) (controlKey : string) (pairs : jsval) : config_panel :=
  let ids := row_ids_of (as_array pairs) in
  let existing := spread_of (oprop (cp_pairModes p) controlKey) in
  let '(next, added) := foldl (λ st i, if truthy (oprop st.1 (id_name i)) then st
                                       else (oset (id_name i) fixed_pair st.1, true)) (existing, false) ids in
  let kept := bfilter (λ kv, names_row ids kv.1) next in
  if added || negb (Nat.eqb (length kept) (length next))
  then persistUiModes (with_modes (cp_controlModes p) (oset controlKey (JObj kept) (ospread [] (cp_pairModes p))) p)
  else p.

(** ** Titles *)

Context (fetched : option (list model_meta)).

(** [_recordOperationLabel(operation)] *)
Definition recordOperationLabel (operation : string) : string :=
  if operation =s "search" then "Search" else if operation =s "create" then "Create"
  else if operation =s "write" then "Update" else if operation =s "delete" then "Delete" else "Record Operation".

(** [_recordOperationModelLabel(modelName)] *)
Definition recordOperationModelLabel (modelName : jsval) : string :=
  match modelName with
  | JStr s =>
      let name := trim s in
      if name =s "" then ""
      else match getModelMetaByName fetched name with
           | Some m => if trim (mm_description m) =s "" then name else trim (mm_description m)
           | None => name
           end
  | _ => ""
  end.

Definition isAutoTitleNode (p : config_panel) : bool := ui_type (cp_node p) =s "record_operation".

(** [_computeRecordOperationAutoTitle()] *)
Definition computeRecordOperationAutoTitle (p : config_panel) : option string :=
  if negb (isAutoTitleNode p) then None
  else
    let operation := toLowerCase (trim (str_of (oprop (cp_controlValues p) "operation"))) in
    let operationLabel := recordOperationLabel operation in
    let modelLabel := recordOperationModelLabel (oprop (cp_controlValues p) "model") in
    Some (if modelLabel =s "" then operationLabel else operationLabel +:+ " " +:+ modelLabel).

(** [nodeTitle] *)
Definition nodeTitle (p : config_panel) : string :=
  let stored := str_or (ui_title (cp_node p)) (str_or (ui_type (cp_node p)) "Node Configuration") in
  if isAutoTitleNode p && negb (ui_titleIsCustom (cp_node p))
  then str_or (default "" (computeRecordOperationAutoTitle p)) stored else stored.

(** [actions.renameNode(nodeId, label)] *)
Definition renameNode (label : string) (p : config_panel) : config_panel :=
  with_cp_adapter (setNodeLabel (cp_adapter p) (cp_nodeId p) label).1 p.

(** Renaming to the derived title, if there is one. *)
Definition rename_auto (p : config_panel) : config_panel :=
  match computeRecordOperationAutoTitle p with
  | Some t => if t =s "" then p else renameNode t p
  | None => p
  end.

Definition mark_custom (b : bool) (p : config_panel) : config_panel :=
  with_cp_adapter (Adapter.setNodeMeta (cp_adapter p) (cp_nodeId p) [("ui", JObj [("titleIsCustom", JBool b)])]).1 p.

(** [onResetNodeName()] *)
Definition onResetNodeName (p : config_panel) : config_panel := rename_auto (mark_custom false p).

(** [onNodeNameChange(ev)] *)
Definition onNodeNameChange (p : config_panel) (value : string) : config_panel :=
  let newLabel := trim value in
  if newLabel =s "" then onResetNodeName p else renameNode newLabel (mark_custom true p).

(** ** Values *)

(** [_syncToAdapter()] *)
Definition syncToAdapter (p : config_panel) : config_panel :=
  with_cp_adapter (Adapter.setNodeConfig (cp_adapter p) (cp_nodeId p) (cp_controlValues p)).1 p.

(** [_debouncedLocalSave()] and its timer. *)
Definition debouncedLocalSave (p : config_panel) : config_panel := with_saveTimer true p.
Definition save_timer_fires (p : config_panel) : config_panel :=
  if cp_saveTimer p then with_saveTimer false (syncToAdapter p) else p.

(** Changing the object [find] gives. *)
Fixpoint update_first {A} (f : A → bool) (g : A → A) (l : list A) : list A :=
  match l with
  | [] => []
  | x :: l => if f x then g x :: l else x :: update_first f g l
  end.

(** [onControlChange(controlKey, value)] up to its only [await]; whether it waits
    for the fields of another model. *)
Definition control_change_start (p : config_panel) (controlKey : string) (value : jsval) : config_panel * bool :=
  let previousValue := oprop (cp_controlValues p) controlKey in
  let p := with_values (oset controlKey value (cp_controlValues p)) p in
  let p :=
    match find_first (λ c, control_key c =s controlKey) (cp_controls p) with
    | None => p
    | Some control =>
        let p := with_pcontrols (update_first (λ c, control_key c =s controlKey) (oset "value" value) (cp_controls p)) p in
        if control_type control =s "keyvalue" then reconcilePairModes p controlKey value else p
    end in
  if isRecordEventTrigger p && (controlKey =s "model_name") && negb (strict_eq value previousValue)
  then (with_values (oset "trigger_fields" (JArr []) (cp_controlValues p)) p, true)
  else (p, false).

(** The rest of it. *)
Definition control_change_end (p : config_panel) (controlKey : string) : config_panel :=
  let p := if isRecordEventTrigger p && (controlKey =s "trigger_event") && negb (showTriggerFields (cp_controlValues p))
           then with_values (oset "trigger_fields" (JArr []) (cp_controlValues p)) p else p in
  let p := debouncedLocalSave p in
  if isAutoTitleNode p && negb (ui_titleIsCustom (cp_node p)) then rename_auto p else p.

(** [onControlChange] as a whole, when the fields arrive before anything else. *)
Definition onControlChange (p : config_panel) (controlKey : string) (value : jsval) : config_panel :=
  control_change_end (control_change_start p controlKey value).1 controlKey.

(** [onSave()], up to the callback of the canvas. *)
Definition onSave (p : config_panel) : config_panel := syncToAdapter (with_saveTimer false p).

(** [onExecute()]: what is sent, and what is done when the run has ended. *)
Definition execute_request (p : config_panel) : config_panel * (string * jsobj) :=
  let p := syncToAdapter (with_saveTimer false p) in
  let nodeConfig := if ui_type (cp_node p) =s "connector_request"
                    then JObj (sanitizeConnectorRequestConfig (JObj (cp_controlValues p))) else JObj (cp_controlValues p) in
  (p, (cp_nodeId p, [(cp_nodeId p, nodeConfig)])).

Definition with_execution (e : jsval) (v : panel_view) : panel_view :=
  PanelView (pv_node v) (pv_workflow v) (pv_viewMode v) e (pv_selectedOutputSocket v) (pv_selectedExecutionVersion v).

Definition execute_response (p : config_panel) (results : jsval) : config_panel :=
  with_panels (cp_showInputPanel p) true (with_view (with_execution results) p).

(** ** The panel itself *)

(** [onTabClick], [toggleSidePanel], [collapsePanel], [toggleAncestorSection],
    [isSectionCollapsed] *)
Definition onTabClick (p : config_panel) (tabName : string) : config_panel := with_tab tabName p.

Definition toggleSidePanel (p : config_panel) (panelKey : string) : config_panel :=
  if panelKey =s "input" then with_panels (negb (cp_showInputPanel p)) (cp_showOutputPanel p) p
  else if panelKey =s "output" then with_panels (cp_showInputPanel p) (negb (cp_showOutputPanel p)) p
  else p.

Definition collapsePanel (p : config_panel) (panelKey : string) : config_panel :=
  if isExecutionView (cp_view p) then p else toggleSidePanel p panelKey.

Definition isSectionCollapsed (p : config_panel) (nodeId : string) : bool := default false (jget nodeId (cp_collapsed p)).

Definition toggleAncestorSection (p : config_panel) (nodeId : string) : config_panel :=
  with_collapsed (oset nodeId (negb (isSectionCollapsed p nodeId)) (cp_collapsed p)) p.

(** [showInputColumn], [showOutputColumn], [inputRailVisible], [outputRailVisible],
    [showPanelLayoutToolbar] *)
Definition showInputColumn (p : config_panel) : bool :=
  if isTriggerNode (cp_view p) then false else if isExecutionView (cp_view p) then true else cp_showInputPanel p.
Definition showOutputColumn (p : config_panel) : bool :=
  if isTriggerNode (cp_view p) then true else if isExecutionView (cp_view p) then true else cp_showOutputPanel p.
Definition inputRailVisible (p : config_panel) : bool :=
  negb (isTriggerNode (cp_view p)) && negb (isExecutionView (cp_view p)) && negb (cp_showInputPanel p).
Definition outputRailVisible (p : config_panel) : bool :=
  negb (isTriggerNode (cp_view p)) && negb (isExecutionView (cp_view p)) && negb (cp_showOutputPanel p).
Definition showPanelLayoutToolbar (p : config_panel) : bool :=
  negb (isTriggerNode (cp_view p)) && negb (isExecutionView (cp_view p)) && (cp_activeTab p =s "parameters").

(** [setup()] and the mounting of the panel on a node of the canvas. *)
Definition new_panel (s : store) (n : ui_node) (workflow : option (list gconn)) (viewMode : string) (execution : jsval)
    : config_panel :=
  initControlValues n
    (ConfigPanel (PanelView n workflow viewMode (js_or execution JNull) None None) "parameters" [] [] [] [] []
       (shouldShowInputByDefault execution n workflow) (shouldShowOutputByDefault execution n viewMode) false s).

(** [onWillUpdateProps]: another node, a new run, another mode.  The values of
    another node are read while [this.props] still holds the old one. *)
Definition willUpdateProps (p : config_panel) (n : ui_node) (workflow : option (list gconn)) (viewMode : string)
    (execution : jsval) (newExecution : bool) : config_panel :=
  if negb (node_id_of n =s cp_nodeId p) then
    let v := cp_view p in
    let p := initControlValues n
      (ConfigPanel (PanelView (pv_node v) (pv_workflow v) (pv_viewMode v) (js_or execution JNull) None None)
         "parameters" [] [] [] [] (cp_collapsed p)
         (shouldShowInputByDefault execution n workflow) (shouldShowOutputByDefault execution n viewMode)
         (cp_saveTimer p) (cp_store p)) in
    with_view (λ w, PanelView n workflow viewMode (pv_execution w) None None) p
  else
    let v := cp_view p in
    let p := if newExecution then
               let p := with_view (with_execution (js_or execution JNull)) p in
               if hasNodeExecutionData (js_or execution JNull) (node_id_of n)
               then with_panels (cp_showInputPanel p) true p else p
             else p in
    let p := with_view (λ w, PanelView n workflow viewMode (pv_execution w) (pv_selectedOutputSocket w)
                               (pv_selectedExecutionVersion w)) p in
    if negb (viewMode =s pv_viewMode v) && (viewMode =s "execution") then with_panels true true p else p.
End panel.
