(* ===== verification/PanelEdits.v ===== *)
(** * Properties of the configuration panel

    Edits reach the node, modes survive closing the panel, the modes of the rows
    of a table follow the rows; and what is lost: watched fields and custom
    titles. *)

From S2P Require Import Prelude JsMap JsValue JsString JsNumber Connection Control Node Editor EditorInv EditorJson Adapter AdapterInv Nodes AdapterRun Connector Expression Store GraphUtils PanelControls PanelResults ConfigPanel.

(** ** What the panel does to its node *)

Definition control_keys (a : adapter) (i : string) : list string :=
  match Editor.getNode (ad_editor a) i with Some n => jkeys (controls n) | None => [] end.

(** The settings of all nodes are the same. *)
Definition same_configs (a a' : adapter) : Prop :=
  ∀ j, getNodeConfig a' j = getNodeConfig a j ∧ control_keys a' j = control_keys a j ∧
    (is_Some (Editor.getNode (ad_editor a) j) → is_Some (Editor.getNode (ad_editor a') j)).

#[export] Instance same_configs_preorder : PreOrder same_configs.
Proof.
  split.
  - by intros a j; split_and!.
  - intros a b c H1 H2 j. destruct (H1 j) as (?&?&?), (H2 j) as (?&?&?). split_and!; [congruence..|auto].
Qed.

Lemma setConfig_controls n c : controls (setConfig n c) = controls (BaseNode_setConfig n c).
Proof. unfold setConfig. by destruct (hiddenDefaults n). Qed.

(** A setting without a control and without a hidden default is dropped when the
    values are written: the fields a record trigger watches are not part of its
    settings. *)
Lemma unknown_key_dropped n vs k :
  k ∉ jkeys (controls n) → k ∉ jkeys (default [] (hiddenDefaults n)) → jget k (getConfig (setConfig n vs)) = None.
Proof.
  intros Hc Hh.
  assert (jget k (BaseNode_getConfig (setConfig n vs)) = None) as Hb.
  { unfold BaseNode_getConfig, control_values. rewrite setConfig_controls. unfold BaseNode_setConfig. cbn.
    set (cs := foldl _ (controls n) vs). assert (k ∉ jkeys cs) as Hcs.
    { unfold cs. revert Hc. generalize (controls n). clear. induction vs as [|kv vs IH]; intros cs Hc; cbn [foldl]; [exact Hc|].
      apply IH. destruct (jhas kv.1 cs); [by rewrite jkeys_jalter|done]. }
    clearbody cs. apply not_elem_of_jkeys. intros Hin. apply Hcs.
    assert (∀ (m : jsobj) acc, k ∈ jkeys (ospread acc m) → k ∈ jkeys acc ∨ k ∈ jkeys m) as Hsp.
    { clear. unfold ospread. induction m as [|[k' v] m IH]; intros acc; cbn; [by left|].
      intros [H|H]%IH; [|set_solver]. apply jkeys_oset_elem in H. set_solver. }
    apply Hsp in Hin as [Hin|Hin]; [set_solver|]. by rewrite (jkeys_map getValue) in Hin. }
  unfold getConfig. unfold setConfig in *. destruct (hiddenDefaults n) as [h|] eqn:E.
  2:{ change (hiddenDefaults (BaseNode_setConfig n vs)) with (hiddenDefaults n). by rewrite E. }
  cbn [hiddenDefaults with_hidden]. rewrite jget_add_hidden, Hb. apply not_elem_of_jkeys. unfold update_hidden.
  by rewrite (jkeys_map_key (λ k v, match jget k vs with Some w => w | None => v end)).
Qed.

Section edits.
Context (reg : odoo_registry) (Hreg : odoo_ok reg).

Lemma node_controls_ok a i n : adapter_inv reg a → Editor.getNode (ad_editor a) i = Some n → obj_ok (controls n).
Proof using Hreg.
  intros [Hr [_ Hn _] _ _] Hi. destruct (Hn i n Hi) as [(cls & Hc & Hin) _]. rewrite Hr in Hc.
  pose proof (odoo_registry_ok _ Hreg _ _ Hc) as (Hok & _). by eapply obj_ok_instance.
Qed.

(** Changes of a node that leave its controls alone. *)
Lemma same_configs_alter a a' i f :
  ad_editor a' = with_nodes (ad_editor a) (jalter f i (nodes (ad_editor a))) →
  (∀ n, controls (f n) = controls n ∧ hiddenDefaults (f n) = hiddenDefaults n) → same_configs a a'.
Proof using Type.
  intros Ha Hf j. unfold Adapter.getNodeConfig, control_keys, Editor.getNode. rewrite Ha. cbn [nodes with_nodes].
  rewrite jget_jalter. case_bool_decide as E; [subst|done]. destruct (jget i _) as [n|]; [|done]. cbn. split_and!; [| |by eexists];
  destruct (Hf n) as [H1 H2]; unfold getConfig, BaseNode_getConfig, control_values; by rewrite ?H1, ?H2.
Qed.

Lemma same_configs_meta a i m : same_configs a (Adapter.setNodeMeta a i m).1.
Proof using Type.
  unfold Adapter.setNodeMeta, run, Editor.setNodeMeta. destruct (jget i _) as [n|] eqn:E; cbn -[emit]; [|by intros j; split_and!].
  eapply same_configs_alter; [rewrite handlers_editor; reflexivity|done].
Qed.

Lemma same_configs_label a i l : same_configs a (setNodeLabel a i l).1.
Proof using Type.
  unfold setNodeLabel, run, Editor.setNodeLabel. destruct (jget i _) as [n|] eqn:E; cbn -[emit]; [|by intros j; split_and!].
  eapply same_configs_alter; [cbn -[emit]; rewrite !handlers_editor; reflexivity|done].
Qed.

Lemma getNode_setNodeConfig a i c j :
  Editor.getNode (ad_editor (setNodeConfig a i c).1) j =
    if j =s i then (λ n, setConfig n c) <$> Editor.getNode (ad_editor a) j else Editor.getNode (ad_editor a) j.
Proof using Type.
  unfold setNodeConfig, Editor.getNode. destruct (jget i (nodes (ad_editor a))) as [n|] eqn:E; cbn.
  - by rewrite jget_jalter.
  - case_bool_decide; [subst; by rewrite E|done].
Qed.

Lemma control_keys_setNodeConfig a i c j : control_keys (setNodeConfig a i c).1 j = control_keys a j.
Proof using Type.
  unfold control_keys. rewrite getNode_setNodeConfig. case_bool_decide; [|done].
  destruct (Editor.getNode _ j) as [n|]; [|done]. cbn. rewrite setConfig_controls. unfold BaseNode_setConfig. cbn.
  generalize (controls n). clear. induction c as [|kv c IH]; intros cs; cbn; [done|]. rewrite IH.
  destruct (jhas kv.1 cs); [by rewrite jkeys_jalter|done].
Qed.

(** Writing the values of the panel makes them the settings of the controls. *)
Lemma setNodeConfig_get a i vs k v :
  adapter_inv reg a → NoDup (jkeys vs) → k ∈ control_keys a i → jget k vs = Some v →
  jget k (getNodeConfig (setNodeConfig a i vs).1 i) = Some v.
Proof using Hreg.
  intros Ha Hd Hk Hv. unfold control_keys in Hk. unfold Adapter.getNodeConfig. rewrite getNode_setNodeConfig, bool_decide_true by done.
  destruct (Editor.getNode (ad_editor a) i) as [n|] eqn:E; [|set_solver]. cbn.
  apply elem_of_jkeys in Hk as [c Hc].
  assert (controls (setConfig n vs) = (λ kv, (kv.1, match jget kv.1 vs with Some v => setValue kv.2 v | None => kv.2 end))
            <$> controls n) as Hcs by (rewrite setConfig_controls; by apply BaseNode_setConfig_controls).
  apply (jget_getConfig_control _ _ (setValue c v)).
  - eapply obj_ok_keys; [|eapply node_controls_ok; [exact Ha|exact E]].
    rewrite Hcs. symmetry. apply (jkeys_map_key (λ k c, match jget k vs with Some v => setValue c v | None => c end)).
  - rewrite Hcs, <- (jget_fmap_key (λ k c, match jget k vs with Some v => setValue c v | None => c end)), Hc. cbn.
    by rewrite Hv.
Qed.

(** Steps of the panel that keep its values, the timer and all settings. *)
Record quiet (p p' : config_panel) : Prop := {
  q_values : cp_controlValues p' = cp_controlValues p;
  q_node : cp_node p' = cp_node p;
  q_timer : cp_saveTimer p' = cp_saveTimer p;
  q_inv : adapter_inv reg (cp_adapter p) → adapter_inv reg (cp_adapter p');
  q_configs : same_configs (cp_adapter p) (cp_adapter p');
}.

#[local] Instance quiet_preorder : PreOrder quiet.
Proof using Type.
  split; [by intros p|]. intros p q r [A1 A2 A3 A4 A5] [B1 B2 B3 B4 B5].
  split; [congruence..|auto|by etransitivity].
Qed.

Context (num_toString : num → string) (num_ofString : string → option num) (fetched : option (list model_meta)).

Lemma quiet_meta p m : quiet p (with_cp_adapter (Adapter.setNodeMeta (cp_adapter p) (cp_nodeId p) m).1 p).
Proof using Type. split; try done; [intros; by apply setNodeMeta_inv|apply same_configs_meta]. Qed.

Lemma quiet_rename l p : quiet p (renameNode l p).
Proof using Type. split; try done; [intros; by apply setNodeLabel_inv|apply same_configs_label]. Qed.

Lemma quiet_rename_auto p : quiet p (rename_auto fetched p).
Proof using Type.
  unfold rename_auto. destruct (computeRecordOperationAutoTitle _ _); [|done]. case_bool_decide; [done|apply quiet_rename].
Qed.

Lemma quiet_modes cm pm p : quiet p (persistUiModes (with_modes cm pm p)).
Proof using Type. transitivity (with_modes cm pm p); [by split|]. apply quiet_meta. Qed.

Lemma quiet_reconcile p k v : quiet p (reconcilePairModes num_toString num_ofString p k v).
Proof using Type.
  unfold reconcilePairModes. destruct (foldl _ _ _) as [next added]. destruct (_ || _); [apply quiet_modes|done].
Qed.

Lemma quiet_reset p : quiet p (onResetNodeName fetched p).
Proof using Type. unfold onResetNodeName. etransitivity; [apply quiet_meta|apply quiet_rename_auto]. Qed.

Lemma quiet_name p v : quiet p (onNodeNameChange fetched p v).
Proof using Type.
  unfold onNodeNameChange. case_bool_decide; [apply quiet_reset|]. etransitivity; [apply quiet_meta|apply quiet_rename].
Qed.

(** ** Sessions *)

(** What can happen to an open panel. *)
Inductive panel_op :=
| Change (k : string) (v : jsval)
| FieldsArrive
| SaveTimer
| SaveNow
| ExecuteNow
| Results (r : jsval)
| ChangeMode (k mode : string)
| ChangePairMode (k : string) (id : jsval) (cell mode : string)
| ChangeName (v : string)
| ResetName
| ClickTab (t : string)
| TogglePanel (k : string)
| ToggleSection (k : string).

(** The panel and how many changes of the model wait for the fields. *)
Definition panel_step (st : config_panel * nat) (op : panel_op) : config_panel * nat :=
  let '(p, waits) := st in
  match op with
  | Change k v =>
      match control_change_start num_toString num_ofString p k v with
      | (p, true) => (p, S waits)
      | (p, false) => (control_change_end fetched p k, waits)
      end
  | FieldsArrive => match waits with
                    | O => st
                    | S waits => (control_change_end fetched p "model_name", waits)
                    end
  | SaveTimer => (save_timer_fires p, waits)
  | SaveNow => (onSave p, waits)
  | ExecuteNow => ((execute_request p).1, waits)
  | Results r => (execute_response p r, waits)
  | ChangeMode k m => (onControlModeChange p k m, waits)
  | ChangePairMode k i cell m => (onPairModeChange num_toString p k i cell m, waits)
  | ChangeName v => (onNodeNameChange fetched p v, waits)
  | ResetName => (onResetNodeName fetched p, waits)
  | ClickTab t => (onTabClick p t, waits)
  | TogglePanel k => (collapsePanel p k, waits)
  | ToggleSection k => (toggleAncestorSection p k, waits)
  end.

(** The settings of the node are what the panel shows; the fields a record
    trigger watches are left out. *)
Definition settled (p : config_panel) : Prop :=
  ∀ k v, k ≠ "trigger_fields" → k ∈ control_keys (cp_adapter p) (cp_nodeId p) →
    jget k (cp_controlValues p) = Some v → jget k (Adapter.getNodeConfig (cp_adapter p) (cp_nodeId p)) = Some v.

(** The settings of the other nodes are those of [a0]. *)
Definition others_kept (a0 : adapter) (p : config_panel) : Prop :=
  ∀ j, j ≠ cp_nodeId p → Adapter.getNodeConfig (cp_adapter p) j = Adapter.getNodeConfig a0 j.

Record panel_ok (n : ui_node) (a0 : adapter) (p : config_panel) : Prop := {
  po_node : cp_node p = n;
  po_inv : adapter_inv reg (cp_adapter p);
  po_values : obj_ok (cp_controlValues p);
  po_others : others_kept a0 p;
}.

Definition session_ok (n : ui_node) (a0 : adapter) (st : config_panel * nat) : Prop :=
  panel_ok n a0 st.1 ∧ (cp_saveTimer st.1 = true ∨ st.2 ≠ 0%nat ∨ settled st.1).

Lemma quiet_ok n a0 p p' : quiet p p' → panel_ok n a0 p → panel_ok n a0 p'.
Proof using Type.
  intros [Hv Hn Ht Hi Hc] [H1 H2 H3 H4]. split; [congruence|auto|by rewrite Hv|].
  intros j Hj. unfold cp_nodeId in *. rewrite Hn in Hj. rewrite <- (H4 j Hj). apply Hc.
Qed.

Lemma quiet_settled p p' : quiet p p' → settled p → settled p'.
Proof using Type.
  intros [Hv Hn Ht Hi Hc] H k v. unfold cp_nodeId. rewrite Hn, Hv. destruct (Hc (node_id_of (cp_node p))) as (-> & -> & _). apply H.
Qed.

Lemma quiet_session n a0 p p' w : quiet p p' → session_ok n a0 (p, w) → session_ok n a0 (p', w).
Proof using Type.
  intros Hq [Hp Ht]. split; [by eapply quiet_ok|]. cbn [fst snd] in *. destruct Hq as [Hv Hn Hti Hi Hc] eqn:E.
  destruct Ht as [?|[?|?]]; [left; congruence|by right; left|right; right; by eapply quiet_settled].
Qed.

(** Writing the values settles the panel. *)
Lemma sync_settles n a0 p : panel_ok n a0 p → panel_ok n a0 (syncToAdapter p) ∧ settled (syncToAdapter p).
Proof using Hreg.
  intros [H1 H2 H3 H4]. split.
  - split; [done|by apply setNodeConfig_inv|done|]. intros j Hj. rewrite <- (H4 j Hj).
    unfold Adapter.getNodeConfig, syncToAdapter, cp_adapter at 1. cbn.
    change (st_adapter (cp_store p)) with (cp_adapter p). by rewrite getNode_setNodeConfig, bool_decide_false.
  - intros k v _ Hk Hv. unfold syncToAdapter, cp_adapter in *. cbn in *. change (st_adapter (cp_store p)) with (cp_adapter p) in *.
    change (cp_nodeId _) with (cp_nodeId p) in *.
    rewrite control_keys_setNodeConfig in Hk. apply setNodeConfig_get; try done. by apply obj_ok_NoDup.
Qed.

(** The values change; the settings do not yet. *)
Lemma change_values_ok n a0 p vs : obj_ok vs → panel_ok n a0 p → panel_ok n a0 (with_values vs p).
Proof using Type. intros Hv [H1 H2 H3 H4]. by split. Qed.

Lemma change_start_ok n a0 p k v :
  panel_ok n a0 p → panel_ok n a0 (control_change_start num_toString num_ofString p k v).1.
Proof using Type.
  intros Hp. unfold control_change_start. set (p1 := with_values _ p).
  assert (panel_ok n a0 p1) as H1 by (apply change_values_ok; [apply obj_ok_oset, Hp|done]).
  set (p2 := match find_first _ _ with Some _ => _ | None => _ end).
  assert (panel_ok n a0 p2) as H2.
  { unfold p2. destruct (find_first _ _) as [c|]; [|done]. set (p3 := with_pcontrols _ p1).
    assert (quiet p1 p3) as Hq by (by split). apply (quiet_ok _ _ _ _ Hq) in H1. case_bool_decide; [|done].
    eapply quiet_ok; [apply quiet_reconcile|done]. }
  destruct (_ && _); [|done]. apply change_values_ok; [apply obj_ok_oset, H2|done].
Qed.

Lemma change_end_ok n a0 p k :
  panel_ok n a0 p → panel_ok n a0 (control_change_end fetched p k) ∧ cp_saveTimer (control_change_end fetched p k) = true.
Proof using Type.
  intros Hp. unfold control_change_end. match goal with |- context [debouncedLocalSave ?q] => set (p1 := q) end.
  assert (panel_ok n a0 p1) as H1.
  { unfold p1. destruct (_ && _); [|done]. apply change_values_ok; [apply obj_ok_oset, Hp|done]. }
  assert (panel_ok n a0 (debouncedLocalSave p1)) as H2 by (destruct H1; by split).
  clearbody p1. destruct (_ && _); [|by split]. pose proof (quiet_rename_auto (debouncedLocalSave p1)) as Hq.
  split; [by eapply quiet_ok|]. by rewrite (q_timer _ _ Hq).
Qed.

Lemma session_step n a0 st op : session_ok n a0 st → session_ok n a0 (panel_step st op).
Proof using Hreg.
  destruct st as [p w]. intros Hs. destruct op; cbn [panel_step].
  1: { pose proof (change_start_ok n a0 p k v (proj1 Hs)) as H. destruct (control_change_start _ _ _ _ _) as [p1 []].
       - split; [done|]. right. left. cbn. lia.
       - apply (change_end_ok _ _ _ k) in H as [? ?]. split; [done|by left]. }
  1: { destruct w as [|w]; [done|]. destruct (change_end_ok n a0 p "model_name" (proj1 Hs)). split; [done|by left]. }
  1: { unfold save_timer_fires. destruct (cp_saveTimer p) eqn:E; [|done].
       apply proj1, sync_settles in Hs as [[H1 H2 H3 H4] Hs]. split; [by split|]. by right; right. }
  1, 2: (destruct (sync_settles n a0 (with_saveTimer false p)) as [H1 H2]; [destruct (proj1 Hs); by split|];
       split; [exact H1|right; right; exact H2]).
  all: eapply quiet_session; [|exact Hs].
  - by split.
  - apply quiet_modes.
  - apply quiet_modes.
  - apply quiet_name.
  - apply quiet_reset.
  - by split.
  - unfold collapsePanel, toggleSidePanel. repeat case_match; by split.
  - by split.
Qed.

(** A new panel shows the settings. *)
Lemma initControlValues_fields n p :
  let q := initControlValues num_toString n p in
  cp_view q = cp_view p ∧ cp_controlValues q = initial_values n (initial_controls (cp_adapter p) n) ∧
  cp_controls q = initial_controls (cp_adapter p) n ∧
  cp_saveTimer q = cp_saveTimer p ∧ cp_store q = cp_store p.
Proof using Type. unfold initControlValues. by destruct (foldl _ _ _). Qed.

Lemma node_control_values a i n :
  Editor.getNode (ad_editor a) i = Some n →
  foldl (λ vs c, oset (control_key c) (oprop c "value") vs) [] (getNodeControls a i) = ospread [] (control_values n).
Proof using Type.
  intros E. unfold getNodeControls. rewrite E. unfold ospread, control_values. generalize (@nil (string * jsval)).
  induction (controls n) as [|[k c] cs IH]; intros m; [done|]. cbn [fmap list_fmap foldl]. by rewrite IH.
Qed.

Lemma initial_settled a n k v :
  adapter_inv reg a → k ≠ "trigger_fields" → k ∈ control_keys a (node_id_of n) →
  jget k (initial_values n (initial_controls a n)) = Some v →
  jget k (Adapter.getNodeConfig a (node_id_of n)) = Some v.
Proof using Hreg.
  intros Ha Hk Hin. unfold control_keys in Hin. destruct (Editor.getNode _ _) as [m|] eqn:E; [|set_solver].
  pose proof (node_controls_ok a _ m Ha E) as Hok. apply elem_of_jkeys in Hin as [c Hc].
  assert (initial_controls a n = getNodeControls a (node_id_of n)) as ->.
  { unfold initial_controls, getNodeControls. rewrite E. by destruct (controls m). }
  unfold initial_values. rewrite (node_control_values a _ m) by done.
  rewrite ospread_nil_l by (by apply obj_ok_map). intros Hv.
  assert (jget k (control_values m) = Some v) as Hv'.
  { case_bool_decide; [rewrite jget_oset_ne in Hv by done|]; done. }
  unfold control_values in Hv'. rewrite (jget_map getValue), Hc in Hv'. injection Hv' as <-.
  unfold Adapter.getNodeConfig. rewrite E. by apply jget_getConfig_control.
Qed.

Lemma initial_values_ok n cs : obj_ok (initial_values n cs).
Proof using Type.
  assert (obj_ok (foldl (λ vs c, oset (control_key c) (oprop c "value") vs) [] cs)) as H.
  { generalize (obj_ok_nil (V := jsval)). generalize (@nil (string * jsval)).
    induction cs as [|c cs IH]; intros m Hm; [done|]. by apply IH, obj_ok_oset. }
  unfold initial_values. case_bool_decide; [by apply obj_ok_oset|done].
Qed.

Lemma new_panel_session s n wf vm ex :
  adapter_inv reg (st_adapter s) → session_ok n (st_adapter s) (new_panel num_toString s n wf vm ex, 0%nat).
Proof using Hreg.
  intros Ha. unfold new_panel. match goal with |- context [initControlValues _ _ ?q] => set (p := q) end.
  destruct (initControlValues_fields n p) as (H1 & H2 & _ & H4 & H5).
  set (q := initControlValues num_toString n p) in *.
  assert (cp_adapter q = st_adapter s) as Hq by (unfold cp_adapter; by rewrite H5).
  assert (cp_node q = n) as Hn by (unfold cp_node; by rewrite H1).
  split; [split|right; right]; cbn [fst].
  - done.
  - by rewrite Hq.
  - rewrite H2. apply initial_values_ok.
  - intros j _. by rewrite Hq.
  - intros k v Hk. unfold cp_nodeId. rewrite Hq, Hn, H2. change (cp_adapter p) with (st_adapter s).
    by apply initial_settled.
Qed.

Lemma run_session s n wf vm ex ops :
  adapter_inv reg (st_adapter s) →
  session_ok n (st_adapter s) (foldl panel_step (new_panel num_toString s n wf vm ex, 0%nat) ops).
Proof using Hreg.
  intros Ha. apply (new_panel_session s n wf vm ex) in Ha. revert Ha. generalize (new_panel num_toString s n wf vm ex, 0%nat).
  induction ops as [|op ops IH]; intros st Hst; [done|]. apply IH, session_step, Hst.
Qed.

(** A change is shown at once. *)
Lemma change_shown p w k v : jget k (cp_controlValues (panel_step (p, w) (Change k v)).1) = Some v.
Proof using Hreg.
  cbn [panel_step]. destruct (control_change_start _ _ p k v) as [p1 b] eqn:E.
  assert (jget k (cp_controlValues p1) = Some v) as H1.
  { unfold control_change_start in E. set (p2 := match find_first _ _ with Some _ => _ | None => _ end) in E.
    assert (jget k (cp_controlValues p2) = Some v) as H2.
    { unfold p2. destruct (find_first _ _) as [c|]; [|apply jget_oset_eq]. destruct (control_type c =s "keyvalue"); [|apply jget_oset_eq].
      rewrite (q_values _ _ (quiet_reconcile _ _ _)). apply jget_oset_eq. }
    clearbody p2. destruct (_ && (k =s "model_name") && _) eqn:Ek; injection E as <- <-; [|done]. cbn. rewrite jget_oset_ne; [done|].
    apply andb_prop in Ek as [[_ ->%bool_decide_eq_true]%andb_prop _]. done. }
  destruct b; [done|]. unfold control_change_end. cbn [fst].
  match goal with |- context [debouncedLocalSave ?q] => set (p2 := q) end.
  assert (jget k (cp_controlValues p2) = Some v) as H2.
  { unfold p2. destruct (_ && (k =s "trigger_event") && _) eqn:Ek; [|done]. cbn. rewrite jget_oset_ne; [done|].
    apply andb_prop in Ek as [[_ ->%bool_decide_eq_true]%andb_prop _]. done. }
  clearbody p2. destruct (_ && _); [|done]. by rewrite (q_values _ _ (quiet_rename_auto _)).
Qed.

(** The keys under which a node keeps settings. *)
Definition stored_keys (a : adapter) (i : string) : list string :=
  match Editor.getNode (ad_editor a) i with
  | Some n => jkeys (controls n) ++ jkeys (default [] (hiddenDefaults n))
  | None => []
  end.

Lemma sync_drops p k :
  k ∉ stored_keys (cp_adapter p) (cp_nodeId p) →
  jget k (Adapter.getNodeConfig (cp_adapter (syncToAdapter p)) (cp_nodeId p)) = None.
Proof using Type.
  unfold stored_keys, Adapter.getNodeConfig, syncToAdapter, cp_adapter at 2. cbn. change (st_adapter (cp_store p)) with (cp_adapter p).
  rewrite getNode_setNodeConfig, bool_decide_true by done.
  destruct (Editor.getNode (ad_editor (cp_adapter p)) (cp_nodeId p)) as [m|]; [|done]. cbn.
  intros [H1 H2]%not_elem_of_app. by apply unknown_key_dropped.
Qed.

(** ** Properties *)

(** C34: Edits of controls reach the node: whatever is done in an open panel, once no
    change of the model waits for an answer and the timer has fired, and at once when
    the panel is saved or the node is run, every control of the node other than
    [trigger_fields] has the value the panel shows; a change of any key is shown at
    once; and the settings of no other node change.  What has no control and is no
    hidden setting of the node is not stored, so not the fields that a record trigger
    watches, [trigger_fields], for which the node has no control. *)
Theorem panel_edits_saved s n wf vm ex ops :
  adapter_inv reg (st_adapter s) →
  let st := foldl panel_step (new_panel num_toString s n wf vm ex, 0%nat) ops in
  (st.2 = 0%nat → settled (save_timer_fires st.1)) ∧
  settled (onSave st.1) ∧ settled (execute_request st.1).1 ∧
  others_kept (st_adapter s) (onSave st.1) ∧
  (∀ k v, jget k (cp_controlValues (panel_step st (Change k v)).1) = Some v) ∧
  ∀ k, k ∉ stored_keys (cp_adapter st.1) (cp_nodeId st.1) →
    jget k (Adapter.getNodeConfig (cp_adapter (onSave st.1)) (cp_nodeId st.1)) = None.
Proof using Hreg.
  intros Ha st. pose proof (run_session s n wf vm ex ops Ha) as H. fold st in H. destruct st as [p w]. cbn [fst snd].
  pose proof (session_step _ _ _ SaveTimer H) as [_ Ht].
  pose proof (sync_settles n (st_adapter s) (with_saveTimer false p)) as [Ho Hs]; [destruct (proj1 H); by split|].
  split_and!; [|exact Hs|exact Hs|apply Ho|intros k v; apply change_shown|apply (sync_drops (with_saveTimer false p))].
  intros ->. cbn [panel_step fst snd] in Ht. destruct Ht as [Ht|[?|?]]; [|done..].
  unfold save_timer_fires in Ht. destruct (cp_saveTimer p) eqn:E; [done|congruence].
Qed.

End edits.

(** *** Modes *)

Section modes.
Context (num_toString : num → string) (num_ofString : string → option num) (fetched : option (list model_meta)).

Lemma complete_pairs_spec ids m :
  obj_ok m →
  let st := foldl (λ st i, if truthy (oprop st.1 (id_name num_toString i)) then st
                           else (oset (id_name num_toString i) fixed_pair st.1, true)) (m, false) ids in
  obj_ok st.1 ∧ (∀ i, i ∈ ids → truthy (oprop st.1 (id_name num_toString i)) = true) ∧
  (∀ k v, jget k m = Some v → truthy v = true → jget k st.1 = Some v) ∧
  (st.2 = false → st.1 = m).
Proof using Type.
  assert (∀ b, obj_ok m →
    let st := foldl (λ st i, if truthy (oprop st.1 (id_name num_toString i)) then st
                             else (oset (id_name num_toString i) fixed_pair st.1, true)) (m, b) ids in
    obj_ok st.1 ∧ (∀ i, i ∈ ids → truthy (oprop st.1 (id_name num_toString i)) = true) ∧
    (∀ k v, jget k m = Some v → truthy v = true → jget k st.1 = Some v) ∧
    (st.2 = false → st.1 = m ∧ b = false)) as H.
  2:{ intros Hm. destruct (H false Hm) as (? & ? & ? & H4). split_and!; try done. intros E. by apply H4. }
  induction ids as [|i ids IH] in m |- *; intros b Hm; [cbn; split_and!; [done|set_solver|done|done]|].
  cbn [foldl fst]. destruct (truthy (oprop m (id_name num_toString i))) eqn:E.
  - destruct (IH m b Hm) as (H1 & H2 & H3 & H4). split_and!; [done| |done|done].
    intros j [->|Hj]%elem_of_cons; [|by apply H2]. unfold oprop in *.
    destruct (jget (id_name num_toString i) m) as [v|] eqn:Ev; [|done]. by rewrite (H3 _ v).
  - destruct (IH (oset (id_name num_toString i) fixed_pair m) true (obj_ok_oset _ _ _ Hm)) as (H1 & H2 & H3 & H4).
    split_and!; [done| | |intros ?; by destruct (H4 ltac:(done))].
    + intros j [->|Hj]%elem_of_cons; [|by apply H2]. unfold oprop. by rewrite (H3 _ fixed_pair) by (try done; apply jget_oset_eq).
    + intros k v Hk Hv. apply H3; [|done]. rewrite jget_oset_ne; [done|]. intros ->. unfold oprop in E. rewrite Hk in E. cbn in E. congruence.
Qed.

(** How the language prints and reads the number of a row. *)
Definition row_id_ok (i : jsval) : Prop :=
  match i with JNum n => num_ofString (num_toString n) = Some n | JStr _ => True | _ => False end.

Lemma names_row_id ids i : i ∈ ids → row_id_ok i → names_row num_ofString ids (id_name num_toString i) = true.
Proof using Type.
  intros Hi Hok. unfold names_row, id_name. apply orb_true_iff. destruct i as [| | |x|x| |]; try done; cbn in *.
  - right. rewrite Hok. apply existsb_true_iff. exists (JNum x). split; [done|]. by apply bool_decide_eq_true.
  - left. apply existsb_true_iff. exists (JStr x). split; [done|]. by apply bool_decide_eq_true.
Qed.

Lemma bfilter_same_length {A} (f : A → bool) l x : length (bfilter f l) = length l → x ∈ l → f x = true.
Proof using Type.
  induction l as [|y l IH]; cbn; [set_solver|]. destruct (f y) eqn:E; cbn.
  - intros [= H] [->|Hx]%elem_of_cons; [done|by apply IH].
  - intros H. pose proof (sublist_length _ _ (bfilter_sublist f l)). lia.
Qed.

Lemma jget_bfilter_key {V} (f : string → bool) k (m : list (string * V)) :
  jget k (bfilter (λ kv, f kv.1) m) = if f k then jget k m else None.
Proof using Type.
  induction m as [|[k' v] m IH]; cbn; [by destruct (f k)|]. destruct (f k') eqn:E; cbn; rewrite IH; case_bool_decide; subst;
    rewrite ?E; done.
Qed.

Lemma obj_ok_bfilter {V} f (m : list (string * V)) : obj_ok m → obj_ok (bfilter f m).
Proof using Type.
  intros [H1 H2]. split; [by apply bfilter_fmap_NoDup|]. unfold jkeys in *.
  induction m as [|[k v] m IH]; cbn in *; [done|]. apply NoDup_cons in H1 as [_ H1]. apply StronglySorted_inv in H2 as [H2 H3].
  destruct (f (k, v)); cbn; [|by apply IH]. constructor; [by apply IH|]. rewrite Forall_forall in *.
  intros x Hx. apply H3. apply list_elem_of_fmap in Hx as (y & -> & Hy). apply elem_of_bfilter in Hy as [Hy _].
  by apply list_elem_of_fmap_2.
Qed.

(** The modes of the rows follow the rows of a table: after the table changed,
    every row has modes, no mode is kept of a row that is gone, and the modes of
    the rows that are left are as they were. *)
Theorem row_modes_follow p k rows :
  Forall row_id_ok (row_ids_of rows) →
  let old := spread_of (oprop (cp_pairModes p) k) in
  let new := spread_of (oprop (cp_pairModes (reconcilePairModes num_toString num_ofString p k (JArr rows))) k) in
  (∀ i, i ∈ row_ids_of rows → truthy (oprop new (id_name num_toString i)) = true) ∧
  (∀ key, key ∈ jkeys new → names_row num_ofString (row_ids_of rows) key = true) ∧
  (∀ key v, names_row num_ofString (row_ids_of rows) key = true → jget key old = Some v → truthy v = true →
     jget key new = Some v).
Proof using Type.
  intros Hids old new. rewrite Forall_forall in Hids.
  assert (obj_ok old) as Hold by (apply obj_ok_ospread, obj_ok_nil).
  pose proof (complete_pairs_spec (row_ids_of rows) old Hold) as (H1 & H2 & H3 & H4).
  unfold new, reconcilePairModes. cbn [as_array]. fold old. destruct (foldl _ (old, false) _) as [next added]. cbn [fst snd] in *.
  set (f := names_row num_ofString (row_ids_of rows)) in *. set (kept := bfilter (λ kv, f kv.1) next).
  assert (∀ m, m = kept ∨ (m = next ∧ ∀ key, key ∈ jkeys next → f key = true) →
    (∀ i, i ∈ row_ids_of rows → truthy (oprop m (id_name num_toString i)) = true) ∧
    (∀ key, key ∈ jkeys m → f key = true) ∧
    (∀ key v, f key = true → jget key old = Some v → truthy v = true → jget key m = Some v)) as Hm.
  { assert (∀ key, jget key kept = if f key then jget key next else None) as Hk by (intros; apply jget_bfilter_key).
    intros m [->|[-> Hf]].
    - split_and!.
      + intros i Hi. unfold oprop. rewrite Hk. unfold f. rewrite (names_row_id _ i) by auto. by apply H2.
      + intros key Hkey. apply elem_of_jkeys in Hkey as [v Hv]. rewrite Hk in Hv. by destruct (f key).
      + intros key v Hf Hv Ht. rewrite Hk, Hf. by apply H3.
    - split_and!; [apply H2|done|]. intros key v _ Hv Ht. by apply H3. }
  destruct (added || _) eqn:E.
  - cbn [persistUiModes with_modes with_cp_adapter cp_pairModes].
    assert (spread_of (oprop (oset k (JObj kept) (ospread [] (cp_pairModes p))) k) = kept) as ->.
    { unfold oprop. rewrite jget_oset_eq. unfold spread_of. cbn [default from_option id js_or truthy entries].
      apply ospread_nil_l. by apply obj_ok_bfilter. }
    apply Hm. by left.
  - apply orb_false_iff in E as [-> E]. pose proof (H4 eq_refl) as Hn. clear H4. fold old. apply Hm. right. split; [done|].
    apply negb_false_iff, Nat.eqb_eq in E. intros key Hkey. apply list_elem_of_fmap in Hkey as (kv & -> & Hkv).
    by apply (bfilter_same_length (λ kv, f kv.1) _ _ E).
Qed.

Lemma getNode_setNodeMeta a i m j :
  Editor.getNode (ad_editor (Adapter.setNodeMeta a i m).1) j =
    if j =s i then (λ n, with_meta n (merged_meta (node_meta n) m)) <$> Editor.getNode (ad_editor a) j
    else Editor.getNode (ad_editor a) j.
Proof using Type.
  unfold Adapter.setNodeMeta, run, Editor.setNodeMeta, Editor.getNode.
  destruct (jget i (nodes (ad_editor a))) as [n|] eqn:E; cbn -[emit].
  - rewrite handlers_editor. cbn. rewrite jget_jalter. case_bool_decide; [subst; by rewrite E|done].
  - case_bool_decide; [subst; by rewrite E|done].
Qed.

(** What [setNodeMeta] keeps of the modes the panel stores. *)
Lemma merged_modes prev cm pm k v :
  NoDup (jkeys cm) → jget k cm = Some v →
  ∃ ui modes, oprop (merged_meta prev [("ui", JObj [("controlModes", JObj cm); ("pairModes", JObj pm)])]) "ui" = JObj ui ∧
    oprop ui "controlModes" = JObj modes ∧
    modes = ospread (entries (js_or (prop (js_or (oprop prev "ui") (JObj [])) "controlModes") (JObj []))) cm ∧
    jget k modes = Some v.
Proof using Type.
  intros Hd Hv. set (o := [("controlModes", JObj cm); ("pairModes", JObj pm)]). unfold merged_meta.
  change (js_or (oprop [("ui", JObj o)] "ui") JNull) with (JObj o). cbn [truthy].
  unfold merge_modes. change (prop (JObj o) "controlModes") with (JObj cm). change (prop (JObj o) "pairModes") with (JObj pm).
  cbn [truthy entries]. set (modes := ospread (entries (js_or (prop _ "controlModes") (JObj []))) cm).
  eexists _, modes. split; [unfold oprop at 1; rewrite jget_oset_eq; reflexivity|]. split; [|split; [done|]].
  - unfold oprop. rewrite jget_oset_ne by done. by rewrite jget_oset_eq.
  - unfold modes. rewrite jget_ospread by done. by rewrite Hv.
Qed.

(** Completing the modes keeps one that is set, of a control whose value is not
    an expression. *)
Lemma complete_modes_keep values cs st k m :
  oprop st.1 k = JStr m → m ≠ "" → inferControlMode (oprop values k) = "fixed" →
  oprop (foldl (complete_modes num_toString values) st cs).1 k = JStr m.
Proof using Type.
  intros Hk Hm Hv. revert st Hk. induction cs as [|c cs IH]; intros st Hk; [done|]. cbn [foldl]. apply IH.
  unfold complete_modes. destruct st as [cm pm]. cbn [fst] in *.
  destruct (_ || _) eqn:E; [|done]. unfold oprop. rewrite jget_oset. destruct (bool_decide_reflect (k = control_key c)) as [Ek|Ek]; [|exact Hk].
  exfalso. rewrite <- Ek, Hk, Hv in E. cbn in E. rewrite bool_decide_false in E by done. discriminate E.
Qed.

(** The mode chosen for a control without a value is found again when the panel
    is closed and opened, whatever else is stored in the metadata. *)
Theorem modes_survive_closing p k mode s n wf vm ex node :
  mode = "fixed" ∨ mode = "expression" →
  Editor.getNode (ad_editor (cp_adapter p)) (cp_nodeId p) = Some node →
  obj_ok (entries (js_or (prop (js_or (oprop (node_meta node) "ui") (JObj [])) "controlModes") (JObj []))) →
  node_id_of n = cp_nodeId p → st_adapter s = cp_adapter (onControlModeChange p k mode) →
  let q := new_panel num_toString s n wf vm ex in
  oprop (cp_controlValues q) k ∈ [JUndef; JNull; JStr ""] → getControlMode q k = mode.
Proof using Type.
  intros Hmode Hnode Hui Hn Hs q Hv.
  assert (mode ≠ "") as Hne by (by destruct Hmode as [->| ->]).
  unfold q, new_panel in *. match goal with |- context [initControlValues _ _ ?x] => set (p0 := x) in * end.
  destruct (initControlValues_fields num_toString n p0) as (_ & Hcv & _).
  assert (oprop (cp_controlModes (initControlValues num_toString n p0)) k = JStr mode) as Hm.
  { unfold initControlValues. match goal with |- context [foldl ?f ?st ?cs] => set (modes := foldl f st cs) end.
    assert (oprop modes.1 k = JStr mode) as H.
    2:{ clearbody modes. by destruct modes. }
    apply complete_modes_keep; [|done|].
    2:{ rewrite <- Hcv. by repeat (apply elem_of_cons in Hv as [->|Hv]; [done|]); set_solver. }
    cbn [fst]. change (cp_adapter p0) with (st_adapter s). rewrite Hs, Hn.
    set (cm := oset k (JStr mode) (ospread [] (cp_controlModes p))).
    change (cp_adapter (onControlModeChange p k mode)) with (Adapter.setNodeMeta (cp_adapter p) (cp_nodeId p)
      [("ui", JObj [("controlModes", JObj cm); ("pairModes", JObj (cp_pairModes p))])]).1.
    assert (∀ a i, Adapter.getNodeMeta a i = default [] (node_meta <$> Editor.getNode (ad_editor a) i)) as ->.
    { intros a i. unfold Adapter.getNodeMeta, Editor.getNodeMeta, Editor.getNode. by destruct (jget i _). }
    rewrite getNode_setNodeMeta, bool_decide_true by done. rewrite Hnode.
    cbn [fmap option_fmap option_map default from_option id node_meta with_meta].
    assert (obj_ok cm) as Hcm by (apply obj_ok_oset, obj_ok_ospread, obj_ok_nil).
    destruct (merged_modes (node_meta node) cm (cp_pairModes p) k (JStr mode)) as (ui & modes' & E1 & E2 & E3 & E4);
      [by apply obj_ok_NoDup|apply jget_oset_eq|].
    rewrite E1. cbn [js_or truthy]. change (prop (JObj ui) "controlModes") with (oprop ui "controlModes"). rewrite E2.
    unfold spread_of, oprop. cbn [js_or truthy entries].
    rewrite ospread_nil_l by (rewrite E3; by apply obj_ok_ospread). by rewrite E4. }
  unfold getControlMode. rewrite Hm.
  apply elem_of_cons in Hv as [Hv|Hv]; [|apply elem_of_cons in Hv as [Hv|Hv]; [|apply list_elem_of_singleton in Hv]]; rewrite Hv; cbn;
    destruct Hmode as [->| ->]; done.
Qed.

(** ** What is lost *)

Lemma label_renamed p l :
  is_Some (Editor.getNode (ad_editor (cp_adapter p)) (cp_nodeId p)) →
  node_label <$> Editor.getNode (ad_editor (cp_adapter (renameNode l p))) (cp_nodeId p) = Some l.
Proof using Type.
  intros [n Hn]. unfold renameNode, cp_adapter at 1. cbn. change (st_adapter (cp_store p)) with (cp_adapter p).
  unfold setNodeLabel, run, Editor.setNodeLabel. unfold Editor.getNode in *. rewrite Hn. cbn -[emit].
  rewrite !handlers_editor. cbn. by rewrite jget_jalter, bool_decide_true, Hn by done.
Qed.

Lemma auto_title_nonempty p t : computeRecordOperationAutoTitle fetched p = Some t → t ≠ "".
Proof using Type.
  unfold computeRecordOperationAutoTitle. destruct (negb _); [done|]. intros [= <-].
  set (l := recordOperationLabel _).
  assert (l ≠ "") as Hl by (unfold l, recordOperationLabel; by repeat case_bool_decide).
  destruct (bool_decide _); [done|]. by destruct l.
Qed.

Lemma start_keeps_node p k v i :
  is_Some (Editor.getNode (ad_editor (cp_adapter p)) i) →
  is_Some (Editor.getNode (ad_editor (cp_adapter (control_change_start num_toString num_ofString p k v).1)) i).
Proof using Type.
  intros H. unfold control_change_start. set (p2 := match find_first _ _ with Some _ => _ | None => _ end).
  assert (is_Some (Editor.getNode (ad_editor (cp_adapter p2)) i)) as H2.
  { unfold p2. destruct (find_first _ _) as [c|]; [|done]. destruct (control_type c =s "keyvalue"); [|done].
    by apply (q_configs [] _ _ (quiet_reconcile [] num_toString num_ofString _ k v)). }
  clearbody p2. by destruct (_ && _).
Qed.

Lemma start_node p k v : cp_node (control_change_start num_toString num_ofString p k v).1 = cp_node p.
Proof using Type.
  unfold control_change_start. set (q := match find_first _ _ with Some _ => _ | None => _ end).
  assert (cp_node q = cp_node p) as Hq.
  { unfold q. destruct (find_first _ _) as [c|]; [|done]. destruct (control_type c =s "keyvalue"); [|done].
    by rewrite (q_node [] _ _ (quiet_reconcile [] num_toString num_ofString _ k v)). }
  clearbody q. by destruct (_ && _).
Qed.

Lemma end_node p k : cp_node (control_change_end fetched p k) = cp_node p.
Proof using Type.
  unfold control_change_end. match goal with |- context [debouncedLocalSave ?x] => set (q := x) end.
  assert (cp_node q = cp_node p) as Hq by (unfold q; by destruct (_ && _)).
  clearbody q. destruct (_ && _); [|done]. by rewrite (q_node [] _ _ (quiet_rename_auto [] fetched _)).
Qed.

(** A title the user gives is lost at the next change of a control: the panel
    looks at the object it was opened with, in which the title is not custom. *)
Lemma custom_title_overwritten p name k v :
  isAutoTitleNode p = true → ui_titleIsCustom (cp_node p) = false →
  is_Some (Editor.getNode (ad_editor (cp_adapter p)) (cp_nodeId p)) → trim name ≠ "" →
  let p1 := onNodeNameChange fetched p name in
  let p2 := onControlChange num_toString num_ofString fetched p1 k v in
  let label q := node_label <$> Editor.getNode (ad_editor (cp_adapter q)) (cp_nodeId p) in
  label p1 = Some (trim name) ∧
  ∃ t, computeRecordOperationAutoTitle fetched p2 = Some t ∧ label p2 = Some t.
Proof using Type.
  intros Hauto Hcustom Hnode Hname p1 p2 label.
  assert (is_Some (Editor.getNode (ad_editor (cp_adapter p1)) (cp_nodeId p))) as H1
    by (by apply (q_configs [] _ _ (quiet_name [] fetched p name))).
  split.
  { unfold label, p1, onNodeNameChange. rewrite bool_decide_false by done. apply (label_renamed (mark_custom true p)).
    by apply (q_configs [] _ _ (quiet_meta [] p [("ui", JObj [("titleIsCustom", JBool true)])])). }
  unfold p2, onControlChange. pose proof (start_keeps_node p1 k v _ H1) as H2.
  pose proof (start_node p1 k v) as Hn.
  rewrite (q_node [] _ _ (quiet_name [] fetched p name) : cp_node p1 = cp_node p) in Hn.
  set (q := (control_change_start num_toString num_ofString p1 k v).1) in *. clearbody q. clear p2.
  unfold control_change_end. match goal with |- context [debouncedLocalSave ?x] => set (q1 := x) end.
  assert (cp_node q1 = cp_node p ∧ is_Some (Editor.getNode (ad_editor (cp_adapter q1)) (cp_nodeId p))) as [Hn1 H3]
    by (unfold q1; by destruct (_ && _)).
  clearbody q1. assert (isAutoTitleNode (debouncedLocalSave q1) = true) as Ha.
  { unfold isAutoTitleNode in *. change (cp_node (debouncedLocalSave q1)) with (cp_node q1). by rewrite Hn1. }
  rewrite Ha. change (cp_node (debouncedLocalSave q1)) with (cp_node q1). rewrite Hn1, Hcustom. cbn [negb andb].
  unfold rename_auto. destruct (computeRecordOperationAutoTitle fetched (debouncedLocalSave q1)) as [t|] eqn:Et.
  2:{ unfold computeRecordOperationAutoTitle in Et. by rewrite Ha in Et. }
  rewrite bool_decide_false by (by eapply auto_title_nonempty). exists t. split; [exact Et|].
  unfold label, cp_nodeId. rewrite <- Hn1. apply (label_renamed (debouncedLocalSave q1)). unfold cp_nodeId. cbn.
  change (is_Some (Editor.getNode (ad_editor (cp_adapter q1)) (node_id_of (cp_node q1)))). by rewrite Hn1.
Qed.
End modes.

(** ** Examples *)

Definition panel_store : store := with_adapter (new_store builtin_registry) demo.

Definition http_node : ui_node := default (UiNode None "" "" false 0%Qc 0%Qc "" "" [] [] false) (state_nodes demo !! 1%nat).

Definition url_edit : list panel_op := [Change "url" (JStr "https://example.org")].

Lemma panel_edits_saved_witness :
  let p := (foldl (panel_step (λ _, "1") (λ _, None) None)
             (new_panel (λ _, "1") panel_store http_node None "edit" JNull, 0%nat) url_edit).1 in
  jget "url" (Adapter.getNodeConfig (cp_adapter p) "n_2") ≠ Some (JStr "https://example.org") ∧
  jget "url" (Adapter.getNodeConfig (cp_adapter (save_timer_fires p)) "n_2") = Some (JStr "https://example.org").
Proof.
  assert (cp_nodeId (foldl (panel_step (λ _, "1") (λ _, None) None)
    (new_panel (λ _, "1") panel_store http_node None "edit" JNull, 0%nat) url_edit).1 = "n_2") as Hid by (vm_compute; reflexivity).
  split; [vm_compute; discriminate|].
  pose proof (panel_edits_saved builtin_registry builtin_registry_ok (λ _, "1") (λ _, None) None panel_store http_node None
    "edit" JNull url_edit (reachable_inv _ builtin_registry_ok _ demo_reachable)) as H.
  cbv zeta in H. apply proj1 in H. specialize (H ltac:(vm_compute; reflexivity) "url" (JStr "https://example.org")).
  apply H; vm_compute; [discriminate| |reflexivity]. right. left.
Defined.

Lemma row_modes_follow_witness :
  let p := new_panel (λ _, "1") panel_store http_node None "edit" JNull in
  Forall (row_id_ok (λ _, "1") (λ _, Some 1%Qc)) (row_ids_of [JObj [("id", JInt 1)]]) ∧
  truthy (oprop (spread_of (oprop (cp_pairModes (reconcilePairModes (λ _, "1") (λ _, Some 1%Qc) p "headers"
    (JArr [JObj [("id", JInt 1)]]))) "headers")) "1") = true.
Proof.
  assert (Forall (row_id_ok (λ _, "1") (λ _, Some 1%Qc)) (row_ids_of [JObj [("id", JInt 1)]])) as H
    by (repeat constructor; vm_compute; reflexivity).
  split; [exact H|].
  apply (proj1 (row_modes_follow (λ _, "1") (λ _, Some 1%Qc) (new_panel (λ _, "1") panel_store http_node None "edit" JNull)
    "headers" _ H) (JInt 1)). left.
Defined.
