(* ===== verification/PanelBackend.v ===== *)
(** * The backend side of the configuration panel (components/node_config_panel.js)

    Trigger nodes and connector requests show what the backend knows of them.  The
    panel asks when it is mounted, after its actions, and every two seconds while a
    test webhook is awaited.  An asynchronous handler is cut at its awaits: a
    [task] is a handler that waits, [answer] is what it does with the result.
    Answers may come in any order, and after the panel was closed.  What saving
    does to the store is in [StoreExec]. *)

From S2P Require Import Prelude JsMap JsValue JsString JsNumber Node Editor Adapter Store StoreExec GraphUtils PanelControls PanelResults ConfigPanel.

Record backend_panel := BackendPanel {
  bp_panel : config_panel;
  triggerLoading : bool;
  triggerBusy : bool;
  activeWebhookTab : string;
  triggerPanelData : jsval;
  triggerFieldSuggestions : list jsval;
  triggerErrorMessage : string;
  connectorLoading : bool;
  connectorBusy : bool;
  connectorPanelData : jsval;
  connectorErrorMessage : string;
  pinBusy : bool;
  pollTimer : bool;
}.

Definition with_bp_panel (c : config_panel) (p : backend_panel) : backend_panel :=
  BackendPanel c (triggerLoading p) (triggerBusy p) (activeWebhookTab p) (triggerPanelData p) (triggerFieldSuggestions p)
    (triggerErrorMessage p) (connectorLoading p) (connectorBusy p) (connectorPanelData p) (connectorErrorMessage p)
    (pinBusy p) (pollTimer p).
Definition with_trigger (loading busy : bool) (data : jsval) (msg : string) (p : backend_panel) : backend_panel :=
  BackendPanel (bp_panel p) loading busy (activeWebhookTab p) data (triggerFieldSuggestions p)
    msg (connectorLoading p) (connectorBusy p) (connectorPanelData p) (connectorErrorMessage p) (pinBusy p) (pollTimer p).
Definition with_tab_suggestions (tab : string) (sug : list jsval) (p : backend_panel) : backend_panel :=
  BackendPanel (bp_panel p) (triggerLoading p) (triggerBusy p) tab (triggerPanelData p) sug
    (triggerErrorMessage p) (connectorLoading p) (connectorBusy p) (connectorPanelData p) (connectorErrorMessage p)
    (pinBusy p) (pollTimer p).
Definition with_connector (loading busy : bool) (data : jsval) (msg : string) (p : backend_panel) : backend_panel :=
  BackendPanel (bp_panel p) (triggerLoading p) (triggerBusy p) (activeWebhookTab p) (triggerPanelData p)
    (triggerFieldSuggestions p) (triggerErrorMessage p) loading busy data msg (pinBusy p) (pollTimer p).
Definition with_poll (b : bool) (p : backend_panel) : backend_panel :=
  BackendPanel (bp_panel p) (triggerLoading p) (triggerBusy p) (activeWebhookTab p) (triggerPanelData p)
    (triggerFieldSuggestions p) (triggerErrorMessage p) (connectorLoading p) (connectorBusy p) (connectorPanelData p)
    (connectorErrorMessage p) (pinBusy p) b.
Definition with_pinBusy (b : bool) (p : backend_panel) : backend_panel :=
  BackendPanel (bp_panel p) (triggerLoading p) (triggerBusy p) (activeWebhookTab p) (triggerPanelData p)
    (triggerFieldSuggestions p) (triggerErrorMessage p) (connectorLoading p) (connectorBusy p) (connectorPanelData p)
    (connectorErrorMessage p) b (pollTimer p).

Definition bp_type (p : backend_panel) : string := ui_type (cp_node (bp_panel p)).
Definition bp_execView (p : backend_panel) : bool := isExecutionView (cp_view (bp_panel p)).
Definition is_trigger (p : backend_panel) : bool := isTriggerType (bp_type p).
Definition isManualTrigger (p : backend_panel) : bool := bp_type p =s "manual_trigger".
Definition isScheduleTrigger (p : backend_panel) : bool := bp_type p =s "schedule_trigger".
Definition isWebhookTrigger (p : backend_panel) : bool := bp_type p =s "webhook_trigger".
Definition isRecordEvent (p : backend_panel) : bool := bp_type p =s "record_event_trigger".
Definition isConnectorRequestNode (p : backend_panel) : bool := bp_type p =s "connector_request".

(** ** What is shown *)

(** [backendState] *)
Definition backendState (p : backend_panel) : jsval :=
  if truthy (triggerPanelData p) && truthy (prop (triggerPanelData p) "backend") then prop (triggerPanelData p) "backend"
  else JObj [("active", JBool false); ("workflow_is_published", JBool false); ("workflow_is_activated", JBool false);
             ("trigger_count", JInt 0); ("webhook_test_active", JBool false)].

(** [warnings] and [connectorWarnings] *)
Definition warnings_of (panelData : jsval) : list jsval := if truthy panelData then as_array (prop panelData "warnings") else [].

Definition workflowStatusLabel (p : backend_panel) : string :=
  if truthy (prop (backendState p) "workflow_is_published") then "Published" else "Draft".
Definition workflowActivationLabel (p : backend_panel) : string :=
  if truthy (prop (backendState p) "workflow_is_activated") then "Workflow live" else "Workflow paused".

(** [triggerHeaderSummary], given how numbers are printed. *)
Definition triggerHeaderSummary (num_toString : num → string) (p : backend_panel) : string :=
  if negb (is_trigger p) then ""
  else
    let triggerCount := js_or (prop (backendState p) "trigger_count") (JInt 0) in
    let triggerLabel := if strict_eq triggerCount (JInt 1) then "time" else "times" in
    "Triggered " +:+ js_String num_toString triggerCount +:+ " " +:+ triggerLabel +:+ " • " +:+
    workflowStatusLabel p +:+ " • " +:+ workflowActivationLabel p.

Definition triggerHeaderStatusLabel (p : backend_panel) : string :=
  if negb (is_trigger p) then "" else if truthy (prop (backendState p) "active") then "Active" else "Inactive".

Definition hasOpenBackendAction (p : backend_panel) : bool :=
  isScheduleTrigger p || isRecordEvent p || isWebhookTrigger p.

Record header_button := HeaderButton { hb_id : string; hb_label : string; hb_icon : string; hb_class : string; hb_disabled : bool }.

(** [triggerHeaderButtons] *)
Definition triggerHeaderButtons (p : backend_panel) : list header_button :=
  if negb (is_trigger p) then []
  else
    let isDisabled := triggerBusy p || triggerLoading p in
    let active := truthy (prop (backendState p) "active") in
    (if isManualTrigger p && negb (bp_execView p)
     then [HeaderButton "execute-trigger" "Execute trigger" "fa-play" "btn-success" isDisabled] else []) ++
    (if negb (isManualTrigger p) && negb (bp_execView p)
     then [HeaderButton "toggle-activation" (if active then "Deactivate" else "Activate")
             (if active then "fa-pause" else "fa-bolt") "btn-primary" isDisabled] else []) ++
    (if hasOpenBackendAction p && negb (bp_execView p)
     then [HeaderButton "open-backend-record" "Open backend record" "fa-external-link" "btn-outline-secondary" isDisabled]
     else []).

(** [connectorHeaderButtons] *)
Definition connectorHeaderButtons (p : backend_panel) : list header_button :=
  if negb (isConnectorRequestNode p) || bp_execView p then []
  else
    let isDisabled := connectorBusy p || connectorLoading p in
    [HeaderButton "refresh-connector" "Refresh backend state" "fa-refresh" "btn-outline-secondary" isDisabled;
     HeaderButton "open-connector-record" "Open backend record" "fa-external-link" "btn-outline-secondary" isDisabled].

(** [connectorBackendState] *)
Definition connectorBackendState (p : backend_panel) : jsval :=
  if truthy (connectorPanelData p) && truthy (prop (connectorPanelData p) "backend") then prop (connectorPanelData p) "backend"
  else JObj ((λ k, (k, JBool false)) <$> ["active"; "workspace"; "connector"; "endpoint"; "auth_profile"; "operation_code";
                                         "last_status_code"; "last_duration_ms"; "last_error"; "last_run_at"]).

(** [connectorHeaderSummary]; codes are texts. *)
Definition connectorHeaderSummary (p : backend_panel) : string :=
  if negb (isConnectorRequestNode p) then ""
  else
    let b := connectorBackendState p in
    let code v := if truthy v then let c := str_of (prop v "code") in if c =s "" then [] else [c] else [] in
    let op := str_of (prop b "operation_code") in
    join " • " (code (prop b "connector") ++ code (prop b "endpoint") ++ (if op =s "" then [] else [op])).

(** [connectorResolvedUrl] *)
Definition connectorResolvedUrl (p : backend_panel) : jsval :=
  let endpoint := prop (connectorBackendState p) "endpoint" in
  if truthy endpoint then js_or (prop endpoint "effective_url") (JStr "") else JStr "".

Definition hasWebhookTestPayload (p : backend_panel) : bool :=
  match prop (backendState p) "webhook_last_test_payload" with
  | JUndef | JNull | JBool false => false
  | _ => true
  end.

(** [triggerOutputTitle], [triggerOutputSubtitle] *)
Definition triggerOutputTitle (p : backend_panel) : string :=
  if isWebhookTrigger p then "Test output" else if isManualTrigger p then "Run notes" else "Runtime status".

Definition triggerOutputSubtitle (p : backend_panel) : string :=
  if isWebhookTrigger p then
    (if truthy (prop (backendState p) "webhook_test_active") then "Waiting for the next test webhook call."
     else "Captured payloads from the temporary test listener appear here.")
  else if isManualTrigger p then "Use the manual execute action when you want to kick off the workflow from this node."
  else "Linked backend records and recent runtime activity stay visible here.".

(** ** Tasks *)

(** What a handler waits for. *)
Inductive task :=
| MountFields (nodeId : string)
| FieldsOf
| LoadTrigger (nodeId : string)
| RuntimeSave (fallback : string)
| RuntimeCall (fallback : string)
| StopTest
| ManualSave
| ManualRun
| ManualReload (nodeId : string)
| OpenSave
| OpenCall
| LoadConnector (nodeId : string)
| RefreshSave
| RefreshReload (nodeId : string)
| OpenConnectorSave
| OpenConnectorCall
| PinDetails (event : jsval)
| PinSave.

(** The result: a value, or an exception with its message. *)
Abbreviation result := (string + jsval)%type.

(** [error && error.message ? error.message : fallback] *)
Definition message_or (msg fallback : string) : string := if msg =s "" then fallback else msg.

(** [_stopTriggerPolling()] and [_syncTriggerPolling()] *)
Definition stopTriggerPolling (p : backend_panel) : backend_panel := with_poll false p.
Definition syncTriggerPolling (p : backend_panel) : backend_panel :=
  if isWebhookTrigger p && truthy (prop (backendState p) "webhook_test_active") then with_poll true p
  else stopTriggerPolling p.

(** [_resetTriggerState()], [_resetConnectorState()] *)
Definition resetTriggerState (p : backend_panel) : backend_panel :=
  with_tab_suggestions "production" [] (with_trigger false false JNull "" (stopTriggerPolling p)).
Definition resetConnectorState (p : backend_panel) : backend_panel := with_connector false false JNull "" p.

Section backend.
(** The comparison [localeCompare] makes, and the list of models. *)
Context (before : string → string → bool) (fetched : option (list model_meta)).
Context (num_toString : num → string) (num_ofString : string → option num).

(** The fields of a model as suggestions. *)
Definition field_suggestions (defs : jsval) : list jsval :=
  sort_by (λ a b, before (str_of (prop a "name")) (str_of (prop b "name")))
    ((λ e, JObj [("value", JStr e.1); ("name", JStr e.1);
                 ("label", if truthy e.2 && truthy (prop e.2 "string") then prop e.2 "string" else JStr e.1);
                 ("type", if truthy e.2 && truthy (prop e.2 "type") then prop e.2 "type" else JStr "unknown")]) <$> entries defs).

(** [_loadTriggerFieldSuggestions(modelName)]: whether it asks the backend, and
    what it does with the answer. *)
Definition asks_fields (modelName : jsval) : bool := negb (trim (str_of modelName) =s "").
Definition fields_answer (r : result) (p : backend_panel) : backend_panel :=
  with_tab_suggestions (activeWebhookTab p) (match r with inr defs => field_suggestions defs | inl _ => [] end) p.

(** What [_reloadTriggerPanelData] does with the answer. *)
Definition trigger_loaded (r : result) (p : backend_panel) : backend_panel :=
  let p := match r with
           | inr data => syncTriggerPolling (with_trigger (triggerLoading p) (triggerBusy p) data "" p)
           | inl msg => stopTriggerPolling (with_trigger (triggerLoading p) (triggerBusy p) JNull
                                              (message_or msg "Failed to load trigger state.") p)
           end in
  with_trigger false (triggerBusy p) (triggerPanelData p) (triggerErrorMessage p) p.

(** What [_reloadConnectorPanelData] does with the answer. *)
Definition connector_loaded (r : result) (p : backend_panel) : backend_panel :=
  match r with
  | inr data => with_connector false (connectorBusy p) data "" p
  | inl msg => with_connector false (connectorBusy p) JNull (message_or msg "Failed to load connector backend state.") p
  end.

(** The [catch] and [finally] of the trigger handlers. *)
Definition trigger_failed (msg fallback : string) (p : backend_panel) : backend_panel :=
  with_trigger (triggerLoading p) (triggerBusy p) (triggerPanelData p) (message_or msg fallback) p.
Definition trigger_done (p : backend_panel) : backend_panel :=
  with_trigger (triggerLoading p) false (triggerPanelData p) (triggerErrorMessage p) p.
Definition connector_failed (msg fallback : string) (p : backend_panel) : backend_panel :=
  with_connector (connectorLoading p) (connectorBusy p) (connectorPanelData p) (message_or msg fallback) p.
Definition connector_done (p : backend_panel) : backend_panel :=
  with_connector (connectorLoading p) false (connectorPanelData p) (connectorErrorMessage p) p.

Definition sync_panel (p : backend_panel) : backend_panel := with_bp_panel (syncToAdapter (bp_panel p)) p.
Definition bp_nodeId (p : backend_panel) : string := cp_nodeId (bp_panel p).
Definition busy_trigger (msg : string) (p : backend_panel) : backend_panel :=
  with_trigger (triggerLoading p) true (triggerPanelData p) msg p.

(** *** The beginnings of the handlers *)

(** [onMounted]; the values were initialized by [new_panel]. *)
Definition mounted (p : backend_panel) : backend_panel * list task :=
  if is_trigger p then
    let p := resetTriggerState p in
    let p := with_trigger true false JNull "" p in
    if asks_fields (oprop (cp_controlValues (bp_panel p)) "model_name") then (p, [MountFields (bp_nodeId p)])
    else (with_tab_suggestions "production" [] p, [LoadTrigger (bp_nodeId p)])
  else if isConnectorRequestNode p then
    (with_connector true false JNull "" (resetConnectorState p), [LoadConnector (bp_nodeId p)])
  else (resetConnectorState (resetTriggerState p), []).

(** [onWillUnmount]; the tasks go on. *)
Definition unmounted (p : backend_panel) : backend_panel := stopTriggerPolling p.

(** The interval of the polling. *)
Definition poll_fires (p : backend_panel) : backend_panel * list task :=
  if pollTimer p then (p, [LoadTrigger (bp_nodeId p)]) else (p, []).

(** [_runTriggerRuntimeAction(callback, fallbackErrorMessage)] *)
Definition runTriggerRuntimeAction (fallback : string) (p : backend_panel) : backend_panel * list task :=
  if triggerBusy p || bp_execView p then (p, [])
  else (sync_panel (busy_trigger "" p), [RuntimeSave fallback]).

Definition onToggleTriggerActivation := runTriggerRuntimeAction "Trigger action failed.".
Definition onRotateTriggerWebhook := runTriggerRuntimeAction "Failed to rotate webhook URL.".
Definition onStartWebhookTest := runTriggerRuntimeAction "Failed to start webhook test listener.".

Definition onStopWebhookTest (p : backend_panel) : backend_panel * list task :=
  if triggerBusy p || bp_execView p then (p, []) else (busy_trigger (triggerErrorMessage p) p, [StopTest]).

Definition onExecuteManualTrigger (p : backend_panel) : backend_panel * list task :=
  if triggerBusy p || bp_execView p then (p, [])
  else (sync_panel (busy_trigger (triggerErrorMessage p) p), [ManualSave]).

Definition onOpenTriggerBackendRecord (p : backend_panel) : backend_panel * list task :=
  if bp_execView p then (p, []) else (sync_panel p, [OpenSave]).

Definition onRefreshConnectorPanel (p : backend_panel) : backend_panel * list task :=
  if connectorBusy p || bp_execView p then (p, [])
  else (sync_panel (with_connector (connectorLoading p) true (connectorPanelData p) "" p), [RefreshSave]).

Definition onOpenConnectorRecord (p : backend_panel) : backend_panel * list task :=
  if bp_execView p || connectorBusy p then (p, [])
  else (sync_panel (with_connector (connectorLoading p) true (connectorPanelData p) "" p), [OpenConnectorSave]).

Definition onWebhookTabClick (tabId : string) (p : backend_panel) : backend_panel :=
  with_tab_suggestions tabId (triggerFieldSuggestions p) p.

(** [isNodePinned], [isPinButtonDisabled] *)
Definition bp_pinned (p : backend_panel) : bool := isNodePinned (cp_store (bp_panel p)) (bp_nodeId p).
Definition isPinButtonDisabled (p : backend_panel) : bool :=
  pinBusy p || negb (canTogglePin (bp_pinned p) (cp_view (bp_panel p))).

(** [toggle]: what [onToggleTriggerActivation] calls once the workflow is saved. *)
Definition toggle_request (p : backend_panel) : string :=
  if truthy (prop (backendState p) "active") then "deactivateTriggerNode" else "activateTriggerNode".

Definition pin_node (p : backend_panel) (v : jsval) : backend_panel * outcome unit :=
  let '(s, r, _) := pinNodeData (cp_store (bp_panel p)) (bp_nodeId p) v in
  (with_bp_panel (with_cp_store s (bp_panel p)) p, r).

(** What is pinned of an event of a preview. *)
Definition inline_pin (e : jsval) : jsval :=
  JObj [("output_data", prop e "output_data"); ("input_data", prop e "input_data"); ("node_type", prop e "node_type");
        ("node_label", js_or (prop e "node_label") (prop e "title")); ("output_socket", prop e "output_socket")].

Definition pin_or_stop (r : backend_panel * outcome unit) : backend_panel * list task :=
  match r with
  | (p, Ret _) => (p, [PinSave])
  | (p, Throw _) => (with_pinBusy false p, [])
  end.

(** [onTogglePin()] *)
Definition onTogglePin (p : backend_panel) : backend_panel * list task :=
  if pinBusy p then (p, [])
  else
    let p := with_pinBusy true p in
    if bp_pinned p then
      (with_bp_panel (with_cp_store (unpinNodeData (cp_store (bp_panel p)) (bp_nodeId p)).1 (bp_panel p)) p, [PinSave])
    else match selectedExecutionEvent (cp_view (bp_panel p)) with
         | None => (with_pinBusy false p, [])
         | Some e =>
             if truthy (prop e "error_message") then (with_pinBusy false p, [])
             else if truthy (prop e "node_run_id") then (p, [PinDetails e])
             else pin_or_stop (pin_node p (inline_pin e))
         end.

(** A change of a control; another model asks for its fields. *)
Definition bp_control_change (k : string) (v : jsval) (p : backend_panel) : backend_panel * list task :=
  match control_change_start num_toString num_ofString (bp_panel p) k v with
  | (c, false) => (with_bp_panel (control_change_end fetched c k) p, [])
  | (c, true) =>
      if asks_fields v then (with_bp_panel c p, [FieldsOf])
      else (with_bp_panel (control_change_end fetched c k) (with_tab_suggestions (activeWebhookTab p) [] p), [])
  end.

(** *** The answers *)

Definition trigger_catch (msg fallback : string) (p : backend_panel) : backend_panel * list task :=
  (trigger_done (trigger_failed msg fallback p), []).
Definition connector_catch (msg fallback : string) (p : backend_panel) : backend_panel * list task :=
  (connector_done (connector_failed msg fallback p), []).

(** The answer of a call that changes the trigger. *)
Definition runtime_data (fallback : string) (r : result) (p : backend_panel) : backend_panel * list task :=
  match r with
  | inr data => (trigger_done (syncTriggerPolling (with_trigger (triggerLoading p) (triggerBusy p) data (triggerErrorMessage p) p)), [])
  | inl msg => trigger_catch msg fallback p
  end.

Definition details_answer (e : jsval) (r : result) (p : backend_panel) : backend_panel * list task :=
  match r with
  | inl _ => (with_pinBusy false p, [])
  | inr nodeRun =>
      if negb (truthy nodeRun) || truthy (prop nodeRun "error") then (with_pinBusy false p, [])
      else match replaceExecutionNodeResult (cp_store (bp_panel p)) nodeRun with
           | (s, Throw _) => (with_pinBusy false (with_bp_panel (with_cp_store s (bp_panel p)) p), [])
           | (s, Ret _) =>
               pin_or_stop (pin_node (with_bp_panel (with_cp_store s (bp_panel p)) p)
                              (js_or (prop nodeRun "node_run_id") (prop e "node_run_id")))
           end
  end.

Definition answer (t : task) (r : result) (p : backend_panel) : backend_panel * list task :=
  match t with
  | MountFields id => (fields_answer r p, [LoadTrigger id])
  | FieldsOf => (with_bp_panel (control_change_end fetched (bp_panel p) "model_name") (fields_answer r p), [])
  | LoadTrigger _ => (trigger_loaded r p, [])
  | RuntimeSave fallback => match r with inr _ => (p, [RuntimeCall fallback]) | inl m => trigger_catch m fallback p end
  | RuntimeCall fallback => runtime_data fallback r p
  | StopTest => runtime_data "Failed to stop test listener." r p
  | ManualSave => match r with inr _ => (p, [ManualRun]) | inl m => trigger_catch m "Manual trigger execution failed." p end
  | ManualRun => match r with
                 | inr _ => (p, [ManualReload (bp_nodeId p)])
                 | inl m => trigger_catch m "Manual trigger execution failed." p
                 end
  | ManualReload _ => (trigger_done (trigger_loaded r p), [])
  | OpenSave => match r with inr _ => (p, [OpenCall]) | inl m => (trigger_failed m "Failed to open backend record." p, []) end
  | OpenCall => match r with inr _ => (p, []) | inl m => (trigger_failed m "Failed to open backend record." p, []) end
  | LoadConnector _ => (connector_loaded r p, [])
  | RefreshSave => match r with
                   | inr _ => (p, [RefreshReload (bp_nodeId p)])
                   | inl m => connector_catch m "Failed to refresh connector backend state." p
                   end
  | RefreshReload _ => (connector_done (connector_loaded r p), [])
  | OpenConnectorSave => match r with
                         | inr _ => (p, [OpenConnectorCall])
                         | inl m => connector_catch m "Failed to open connector backend record." p
                         end
  | OpenConnectorCall => match r with
                         | inr _ => (connector_done p, [])
                         | inl m => connector_catch m "Failed to open connector backend record." p
                         end
  | PinDetails e => details_answer e r p
  | PinSave => (with_pinBusy false p, [])
  end.

(** ** Sessions *)

(** What the user does. *)
Inductive backend_event :=
| Toggle | Rotate | StartTest | StopTestClick | RunManual | OpenRecord | RefreshConnector | OpenConnector | TogglePin
| WebhookTab (t : string)
| ControlChange (k : string) (v : jsval).

Definition handle (e : backend_event) (p : backend_panel) : backend_panel * list task :=
  match e with
  | Toggle => onToggleTriggerActivation p
  | Rotate => onRotateTriggerWebhook p
  | StartTest => onStartWebhookTest p
  | StopTestClick => onStopWebhookTest p
  | RunManual => onExecuteManualTrigger p
  | OpenRecord => onOpenTriggerBackendRecord p
  | RefreshConnector => onRefreshConnectorPanel p
  | OpenConnector => onOpenConnectorRecord p
  | TogglePin => onTogglePin p
  | WebhookTab t => (onWebhookTabClick t p, [])
  | ControlChange k v => bp_control_change k v p
  end.

(** The panel, the tasks in flight, and whether the panel is still there. *)
Record bstate := BState { bs_panel : backend_panel; bs_tasks : list task; bs_open : bool }.

Inductive bstep : bstate → bstate → Prop :=
| bs_event e p ts p' new : handle e p = (p', new) → bstep (BState p ts true) (BState p' (ts ++ new) true)
| bs_poll p ts open p' new : poll_fires p = (p', new) → bstep (BState p ts open) (BState p' (ts ++ new) open)
| bs_answer l t r k p open p' new :
    answer t r p = (p', new) → bstep (BState p (l ++ t :: k) open) (BState p' (l ++ k ++ new) open)
| bs_close p ts : bstep (BState p ts true) (BState (unmounted p) ts false).

(** A panel that has just been mounted. *)
Definition fresh (c : config_panel) : backend_panel :=
  BackendPanel c false false "production" JNull [] "" false false JNull "" false false.
Definition opened (c : config_panel) : bstate := let '(p, ts) := mounted (fresh c) in BState p ts true.

Definition breachable (c : config_panel) : bstate → Prop := rtc bstep (opened c).
End backend.
