(* ===== verification/PanelPolling.v ===== *)
(** * Properties of the backend side of the configuration panel

    Its flags follow the calls in flight, so that the panel is never stuck, and it
    polls exactly while a test webhook is awaited, as long as it is open. *)

From S2P Require Import Prelude JsMap JsValue JsString JsNumber Node Editor Adapter Nodes AdapterRun Store StoreExec GraphUtils PanelControls PanelResults ConfigPanel PanelEdits PanelBackend.

(** ** Which tasks hold which flag *)

Definition holds_trigger (t : task) : bool :=
  match t with RuntimeSave _ | RuntimeCall _ | StopTest | ManualSave | ManualRun | ManualReload _ => true | _ => false end.
Definition holds_connector (t : task) : bool :=
  match t with RefreshSave | RefreshReload _ | OpenConnectorSave | OpenConnectorCall => true | _ => false end.
Definition holds_pin (t : task) : bool := match t with PinDetails _ | PinSave => true | _ => false end.
Definition loads_trigger (t : task) : bool :=
  match t with MountFields _ | LoadTrigger _ | ManualReload _ => true | _ => false end.
Definition loads_connector (t : task) : bool := match t with LoadConnector _ | RefreshReload _ => true | _ => false end.

Definition count (f : task → bool) (ts : list task) : nat := length (bfilter f ts).

Lemma count_app f l k : count f (l ++ k) = (count f l + count f k)%nat.
Proof. unfold count. by rewrite bfilter_app, length_app. Qed.

Lemma count_cons f t l : count f (t :: l) = ((if f t then 1 else 0) + count f l)%nat.
Proof. unfold count. cbn. by destruct (f t). Qed.

Section polling.
Context (before : string → string → bool) (fetched : option (list model_meta)).
Context (num_toString : num → string) (num_ofString : string → option num).
Notation handle := (handle fetched num_toString num_ofString).
Notation answer := (answer before fetched).
Notation breachable := (breachable before fetched num_toString num_ofString).
Notation bstep := (bstep before fetched num_toString num_ofString).

(** A flag that is up while exactly one of its tasks is in flight. *)
Definition flag_event (flag : backend_panel → bool) (f : task → bool) (p : backend_panel) (r : backend_panel * list task) : Prop :=
  (flag r.1 = flag p ∧ count f r.2 = 0%nat) ∨ (flag p = false ∧ flag r.1 = true ∧ count f r.2 = 1%nat).

Definition flag_answer (flag : backend_panel → bool) (f : task → bool) (t : task) (p : backend_panel)
    (r : backend_panel * list task) : Prop :=
  if f t then (flag r.1 = false ∧ count f r.2 = 0%nat) ∨ (flag r.1 = flag p ∧ count f r.2 = 1%nat)
  else flag r.1 = flag p ∧ count f r.2 = 0%nat.

(** What no handler of an event changes, and that it starts no load. *)
Definition loads_kept (p : backend_panel) (r : backend_panel * list task) : Prop :=
  triggerLoading r.1 = triggerLoading p ∧ connectorLoading r.1 = connectorLoading p.

Lemma sync_triggerBusy p : triggerBusy (syncTriggerPolling p) = triggerBusy p.
Proof using Type. unfold syncTriggerPolling. by destruct (_ && _). Qed.
Lemma sync_connectorBusy p : connectorBusy (syncTriggerPolling p) = connectorBusy p.
Proof using Type. unfold syncTriggerPolling. by destruct (_ && _). Qed.
Lemma sync_pinBusy p : pinBusy (syncTriggerPolling p) = pinBusy p.
Proof using Type. unfold syncTriggerPolling. by destruct (_ && _). Qed.
Lemma sync_triggerLoading p : triggerLoading (syncTriggerPolling p) = triggerLoading p.
Proof using Type. unfold syncTriggerPolling. by destruct (_ && _). Qed.
Lemma sync_connectorLoading p : connectorLoading (syncTriggerPolling p) = connectorLoading p.
Proof using Type. unfold syncTriggerPolling. by destruct (_ && _). Qed.
Lemma sync_panelData p : triggerPanelData (syncTriggerPolling p) = triggerPanelData p.
Proof using Type. unfold syncTriggerPolling. by destruct (_ && _). Qed.
Lemma sync_bp_panel p : bp_panel (syncTriggerPolling p) = bp_panel p.
Proof using Type. unfold syncTriggerPolling. by destruct (_ && _). Qed.
Lemma sync_pollTimer p :
  pollTimer (syncTriggerPolling p) = isWebhookTrigger p && truthy (prop (backendState p) "webhook_test_active").
Proof using Type. unfold syncTriggerPolling. by destruct (_ && _). Qed.

Ltac sync_simpl := rewrite ?sync_triggerBusy, ?sync_connectorBusy, ?sync_pinBusy, ?sync_triggerLoading,
  ?sync_connectorLoading, ?sync_panelData, ?sync_bp_panel, ?sync_pollTimer.

Ltac flag := first [by left | by right | done].
Ltac flags := repeat match goal with H : _ || _ = false |- _ => apply orb_false_iff in H as [? ?] end;
  unfold flag_event, flag_answer, loads_kept; cbn -[syncTriggerPolling]; sync_simpl; split_and!; flag.

Ltac cases := repeat match goal with
  | |- context [if ?b then _ else _] => destruct b eqn:?
  | |- context [match ?x with _ => _ end] => destruct x eqn:?
  end.

Lemma pin_node_fields p v :
  let q := (pin_node p v).1 in
  triggerBusy q = triggerBusy p ∧ connectorBusy q = connectorBusy p ∧ pinBusy q = pinBusy p ∧
  triggerLoading q = triggerLoading p ∧ connectorLoading q = connectorLoading p ∧
  triggerPanelData q = triggerPanelData p ∧ pollTimer q = pollTimer p ∧ cp_node (bp_panel q) = cp_node (bp_panel p).
Proof using Type. unfold pin_node. by destruct (pinNodeData _ _ _) as [[s r] es]. Qed.

Lemma handle_flags e p :
  flag_event triggerBusy holds_trigger p (handle e p) ∧ flag_event connectorBusy holds_connector p (handle e p) ∧
  flag_event pinBusy holds_pin p (handle e p) ∧ loads_kept p (handle e p).
Proof using Type.
  clear before. destruct e; cbn [PanelBackend.handle];
    unfold onToggleTriggerActivation, onRotateTriggerWebhook, onStartWebhookTest, runTriggerRuntimeAction, onStopWebhookTest,
      onExecuteManualTrigger, onOpenTriggerBackendRecord, onRefreshConnectorPanel, onOpenConnectorRecord, onWebhookTabClick.
  1-8, 10: cases; flags.
  - unfold onTogglePin. destruct (pinBusy p) eqn:Ep; [flags|]. destruct (bp_pinned _); [flags|].
    destruct (selectedExecutionEvent _) as [e|]; [|flags]. destruct (truthy _); [flags|]. destruct (truthy _); [flags|].
    pose proof (pin_node_fields (with_pinBusy true p) (inline_pin e)) as H. cbn in H.
    destruct (pin_node _ _) as [q [?|?]]; cbn in H |- *; destruct H as (?&?&?&?&?&?&?&?); flags.
  - unfold bp_control_change. destruct (control_change_start _ _ _ _ _) as [c []]; cases; flags.
Qed.

Lemma answer_flags t r p :
  flag_answer triggerBusy holds_trigger t p (answer t r p) ∧ flag_answer connectorBusy holds_connector t p (answer t r p) ∧
  flag_answer pinBusy holds_pin t p (answer t r p).
Proof using Type.
  destruct t; cbn [PanelBackend.answer]; unfold trigger_loaded, connector_loaded, runtime_data, trigger_catch, connector_catch, details_answer.
  17: { destruct r as [m|v]; [flags|]. destruct (_ || _); [flags|]. destruct (replaceExecutionNodeResult _ _) as [s [?|?]]; [|flags].
    pose proof (pin_node_fields (with_bp_panel (with_cp_store s (bp_panel p)) p) (js_or (prop v "node_run_id") (prop event "node_run_id"))) as H.
    cbn in H. destruct (pin_node _ _) as [q [?|?]]; cbn in H |- *; destruct H as (?&?&?&?&?&?&?&?); flags. }
  all: cases; flags.
Qed.

Ltac loads := cbn -[syncTriggerPolling]; sync_simpl; split; intros ?; split; first [done | congruence].

Lemma answer_loads t r p :
  (triggerLoading (answer t r p).1 = true → triggerLoading p = true ∧ (loads_trigger t = true → existsb loads_trigger (answer t r p).2 = true)) ∧
  (connectorLoading (answer t r p).1 = true → connectorLoading p = true ∧ loads_connector t = false).
Proof using Type.
  destruct t; cbn [PanelBackend.answer]; unfold trigger_loaded, connector_loaded, runtime_data, trigger_catch, connector_catch, details_answer.
  17: { destruct r as [m|v]; [loads|]. destruct (_ || _); [loads|]. destruct (replaceExecutionNodeResult _ _) as [s [?|?]]; [|loads].
    pose proof (pin_node_fields (with_bp_panel (with_cp_store s (bp_panel p)) p) (js_or (prop v "node_run_id") (prop event "node_run_id"))) as H.
    cbn in H. destruct (pin_node _ _) as [q [?|?]]; cbn in H |- *; destruct H as (?&?&?&?&?&?&?&?); loads. }
  all: cases; loads.
Qed.

(** ** The invariant *)

Record flags_ok (p : backend_panel) (ts : list task) : Prop := {
  fo_trigger : count holds_trigger ts = if triggerBusy p then 1%nat else 0%nat;
  fo_connector : count holds_connector ts = if connectorBusy p then 1%nat else 0%nat;
  fo_pin : count holds_pin ts = if pinBusy p then 1%nat else 0%nat;
  fo_tload : triggerLoading p = true → existsb loads_trigger ts = true;
  fo_cload : connectorLoading p = true → existsb loads_connector ts = true;
}.

Lemma flag_event_ok flag f p r ts :
  flag_event flag f p r → count f ts = (if flag p then 1 else 0)%nat → count f (ts ++ r.2) = (if flag r.1 then 1 else 0)%nat.
Proof using Type. rewrite count_app. intros [[-> ->]|(-> & -> & ->)]; [lia|]. cbn. lia. Qed.

Lemma flag_answer_ok flag f t p r l k :
  flag_answer flag f t p r → count f (l ++ t :: k) = (if flag p then 1 else 0)%nat →
  count f (l ++ k ++ r.2) = (if flag r.1 then 1 else 0)%nat.
Proof using Type.
  unfold flag_answer. rewrite !count_app, count_cons. destruct (f t).
  - intros [[-> ->]|[-> ->]] H; destruct (flag p); lia.
  - intros [-> ->] H. lia.
Qed.

Lemma handle_ok e p ts : flags_ok p ts → flags_ok (handle e p).1 (ts ++ (handle e p).2).
Proof using Type.
  intros [H1 H2 H3 H4 H5]. destruct (handle_flags e p) as (F1 & F2 & F3 & L1 & L2). split; [by eapply flag_event_ok..| |].
  - rewrite L1, existsb_app. intros ?. by rewrite H4.
  - rewrite L2, existsb_app. intros ?. by rewrite H5.
Qed.

Lemma answer_ok t r p l k : flags_ok p (l ++ t :: k) → flags_ok (answer t r p).1 (l ++ k ++ (answer t r p).2).
Proof using Type.
  intros [H1 H2 H3 H4 H5]. destruct (answer_flags t r p) as (F1 & F2 & F3), (answer_loads t r p) as [L1 L2].
  split; [by eapply flag_answer_ok..| |].
  - intros [Hp Ht]%L1. specialize (H4 Hp). rewrite !existsb_app in *. cbn in H4.
    destruct (loads_trigger t); [rewrite Ht by done; by rewrite !orb_true_r|].
    by destruct (existsb loads_trigger l), (existsb loads_trigger k).
  - intros [Hp Ht]%L2. specialize (H5 Hp). rewrite !existsb_app in *. cbn in H5. rewrite Ht in H5.
    by destruct (existsb loads_connector l), (existsb loads_connector k).
Qed.

Lemma opened_ok c : flags_ok (bs_panel (opened c)) (bs_tasks (opened c)).
Proof using Type.
  unfold opened, mounted. destruct (is_trigger _); [destruct (asks_fields _)|destruct (isConnectorRequestNode _)]; by split.
Qed.

Lemma poll_fires_ok p ts : flags_ok p ts → flags_ok (poll_fires p).1 (ts ++ (poll_fires p).2).
Proof using Type.
  unfold poll_fires. destruct (pollTimer p); cbn [fst snd]; intros [H1 H2 H3 H4 H5]; [|by rewrite app_nil_r].
  split; rewrite ?count_app, ?existsb_app; cbn; try lia; intros; rewrite ?H4, ?H5; done.
Qed.

Lemma bstep_ok s s' : bstep s s' → flags_ok (bs_panel s) (bs_tasks s) → flags_ok (bs_panel s') (bs_tasks s').
Proof using Type.
  destruct 1 as [e p ts p' new E|p ts o p' new E|l t r k p o p' new E|p ts]; cbn [bs_panel bs_tasks]; intros H.
  - apply (handle_ok e) in H. by rewrite E in H.
  - apply poll_fires_ok in H. by rewrite E in H.
  - apply (answer_ok t r) in H. by rewrite E in H.
  - by destruct H.
Qed.

Lemma breachable_ok c s : breachable c s → flags_ok (bs_panel s) (bs_tasks s).
Proof using Type.
  intros H. assert (flags_ok (bs_panel (opened c)) (bs_tasks (opened c))) as H0 by apply opened_ok.
  unfold PanelBackend.breachable in H. induction H as [s|s1 s2 s3 Hs _ IH]; [done|]. apply IH. by eapply bstep_ok.
Qed.

(** ** All answers arrive *)

(** How many answers a handler still waits for, at most. *)
Definition rank (t : task) : nat :=
  match t with
  | ManualSave => 3
  | MountFields _ | RuntimeSave _ | ManualRun | OpenSave | RefreshSave | OpenConnectorSave | PinDetails _ => 2
  | _ => 1
  end.
Definition work (ts : list task) : nat := sum_list (rank <$> ts).

Lemma work_app l k : work (l ++ k) = (work l + work k)%nat.
Proof using Type. unfold work. induction l as [|t l IH]; cbn in *; lia. Qed.

Lemma rank_new t r p : (work (answer t r p).2 < rank t)%nat.
Proof using Type.
  unfold work. destruct t; cbn [PanelBackend.answer]; unfold runtime_data, trigger_catch, connector_catch, details_answer.
  17: { destruct r as [m|v]; [cbn; lia|]. destruct (_ || _); [cbn; lia|].
    destruct (replaceExecutionNodeResult _ _) as [s [?|?]]; [|cbn; lia]. destruct (pin_node _ _) as [q [?|?]]; cbn; lia. }
  all: destruct r; cbn; lia.
Qed.

(** The answers to everything in flight, oldest first. *)
Fixpoint drain (fuel : nat) (replies : nat → result) (p : backend_panel) (ts : list task) : backend_panel * list task :=
  match fuel, ts with
  | S fuel, t :: ts => let '(p, new) := answer t (replies fuel) p in drain fuel replies p (ts ++ new)
  | _, _ => (p, ts)
  end.

Lemma drain_spec fuel replies p ts :
  (work ts ≤ fuel)%nat → flags_ok p ts →
  (drain fuel replies p ts).2 = [] ∧ flags_ok (drain fuel replies p ts).1 [].
Proof using Type.
  revert p ts. induction fuel as [|fuel IH]; intros p [|t ts] Hw Hf; [done| |done|].
  { unfold work in Hw. cbn in Hw. destruct t; cbn in Hw; lia. }
  cbn [drain]. pose proof (rank_new t (replies fuel) p) as Hr. apply (answer_ok t (replies fuel) p []) in Hf. cbn [app] in Hf.
  destruct (answer t (replies fuel) p) as [p' new]. cbn [fst snd] in *. apply IH; [|done].
  rewrite work_app. unfold work in *. cbn in Hw. lia.
Qed.

(** ** Polling *)

Definition poll_ok (p : backend_panel) : Prop :=
  pollTimer p = isWebhookTrigger p && truthy (prop (backendState p) "webhook_test_active").

(** What the polling depends on. *)
Definition same_poll (p q : backend_panel) : Prop :=
  pollTimer q = pollTimer p ∧ triggerPanelData q = triggerPanelData p ∧ cp_node (bp_panel q) = cp_node (bp_panel p).

Lemma same_poll_ok p q : same_poll p q → poll_ok p → poll_ok q.
Proof using Type. unfold poll_ok, isWebhookTrigger, bp_type, backendState. by intros (-> & -> & ->). Qed.

Lemma same_poll_trans p q r : same_poll p q → same_poll q r → same_poll p r.
Proof using Type. intros (?&?&?) (?&?&?). unfold same_poll. split_and!; congruence. Qed.

Lemma poll_sync p : poll_ok (syncTriggerPolling p).
Proof using Type. unfold syncTriggerPolling, poll_ok. destruct (_ && _) eqn:E; cbn; symmetry; exact E. Qed.

Lemma poll_lost b p msg : poll_ok (with_poll false (with_trigger b (triggerBusy p) JNull msg p)).
Proof using Type. unfold poll_ok. cbn. by rewrite andb_false_r. Qed.

Lemma same_poll_control k v p : same_poll p (bp_control_change fetched num_toString num_ofString k v p).1.
Proof using Type.
  unfold bp_control_change. pose proof (start_node num_toString num_ofString (bp_panel p) k v) as Hn.
  destruct (control_change_start _ _ _ k v) as [c []]; cbn [fst] in Hn; [destruct (asks_fields v)|]; cbn;
    split_and!; try done; cbn; by rewrite ?end_node.
Qed.

Lemma same_poll_pin r p : same_poll p r.1 → same_poll p (pin_or_stop r).1.
Proof using Type. destruct r as [q [?|?]]; done. Qed.

Lemma same_poll_pin_node p v : same_poll p (pin_node p v).1.
Proof using Type. destruct (pin_node_fields p v) as (_&_&_&_&_&?&?&?). done. Qed.

Lemma handle_poll e p : same_poll p (handle e p).1.
Proof using Type.
  destruct e; cbn [PanelBackend.handle];
    unfold onToggleTriggerActivation, onRotateTriggerWebhook, onStartWebhookTest, runTriggerRuntimeAction, onStopWebhookTest,
      onExecuteManualTrigger, onOpenTriggerBackendRecord, onRefreshConnectorPanel, onOpenConnectorRecord, onWebhookTabClick.
  1-8, 10: by repeat case_match.
  - unfold onTogglePin. destruct (pinBusy p); [done|]. destruct (bp_pinned _); [done|].
    destruct (selectedExecutionEvent _) as [e|]; [|done]. destruct (truthy _); [done|]. destruct (truthy _); [done|].
    apply same_poll_pin. eapply same_poll_trans; [|apply same_poll_pin_node]. done.
  - apply same_poll_control.
Qed.

Lemma answer_poll t r p : poll_ok p → poll_ok (answer t r p).1.
Proof using Type.
  intros H. destruct t; cbn [PanelBackend.answer]; unfold connector_loaded, trigger_catch, connector_catch.
  1: by eapply same_poll_ok.
  1: { eapply same_poll_ok; [|exact H]. split_and!; [done|done|]. cbn. apply end_node. }
  all: try (destruct r; by eapply same_poll_ok).
  - unfold trigger_loaded. destruct r as [m|v]; cbn [fst]; [apply poll_lost|]. eapply same_poll_ok; [|apply poll_sync]. done.
  - unfold runtime_data. destruct r; [by eapply same_poll_ok|]. eapply same_poll_ok; [|apply poll_sync]. done.
  - unfold runtime_data. destruct r; [by eapply same_poll_ok|]. eapply same_poll_ok; [|apply poll_sync]. done.
  - unfold trigger_loaded. destruct r as [m|v]; cbn [fst]; [apply poll_lost|]. eapply same_poll_ok; [|apply poll_sync]. done.
  - unfold details_answer. destruct r as [m|v]; [by eapply same_poll_ok|]. destruct (_ || _); [by eapply same_poll_ok|].
    destruct (replaceExecutionNodeResult _ _) as [s [?|?]]; [|by eapply same_poll_ok].
    eapply same_poll_ok; [apply same_poll_pin; eapply same_poll_trans; [|apply same_poll_pin_node]|exact H]. done.
Qed.

Lemma bstep_poll s s' :
  bstep s s' → (bs_open s = true → poll_ok (bs_panel s)) → bs_open s' = true → bs_open s = true ∧ poll_ok (bs_panel s').
Proof using Type.
  destruct 1 as [e p ts p' new E|p ts o p' new E|l t r k p o p' new E|p ts]; cbn [bs_panel bs_open]; intros H Ho; try done.
  - split; [done|]. pose proof (handle_poll e p) as Hp. rewrite E in Hp. by eapply same_poll_ok; [|apply H].
  - split; [done|]. unfold poll_fires in E. destruct (pollTimer p); injection E as <- <-; by apply H.
  - split; [done|]. pose proof (answer_poll t r p (H Ho)) as Hp. by rewrite E in Hp.
Qed.

Lemma opened_poll c : poll_ok (bs_panel (opened c)).
Proof using Type.
  unfold opened, mounted, poll_ok.
  destruct (is_trigger _); [destruct (asks_fields _)|destruct (isConnectorRequestNode _)]; cbn; by rewrite ?andb_false_r.
Qed.

(** ** Properties *)

(** C35: The panel is never stuck: whatever was clicked and in whatever order answers
    and failures came, when the answers to all calls in flight have arrived, no
    call is left and the panel is neither loading nor busy. *)
Theorem panel_never_stuck c s replies :
  breachable c s →
  let '(p, ts) := drain (work (bs_tasks s)) replies (bs_panel s) (bs_tasks s) in
  ts = [] ∧ triggerBusy p = false ∧ connectorBusy p = false ∧ pinBusy p = false ∧
  triggerLoading p = false ∧ connectorLoading p = false.
Proof using Type.
  intros H%breachable_ok. destruct (drain_spec (work (bs_tasks s)) replies _ _ ltac:(done) H) as [Ht [H1 H2 H3 H4 H5]].
  destruct (drain _ _ _ _) as [p ts]. cbn [fst snd] in *. split; [done|]. cbn in *.
  destruct (triggerBusy p), (connectorBusy p), (pinBusy p); try done.
  destruct (triggerLoading p); [by specialize (H4 eq_refl)|]. destruct (connectorLoading p); [by specialize (H5 eq_refl)|]. done.
Qed.

(** C37: While the panel is open it polls exactly when it shows a webhook trigger whose
    test listener the backend calls active. *)
Theorem polls_while_tested c s :
  breachable c s → bs_open s = true →
  pollTimer (bs_panel s) = isWebhookTrigger (bs_panel s) && truthy (prop (backendState (bs_panel s)) "webhook_test_active").
Proof using Type.
  intros H. assert (bs_open (opened c) = true → poll_ok (bs_panel (opened c))) as H0 by (intros; apply opened_poll).
  unfold PanelBackend.breachable in H. induction H as [s|s1 s2 s3 Hs _ IH]; [exact H0|]. apply IH. intros Ho.
  by apply (bstep_poll _ _ Hs H0 Ho).
Qed.

(** A panel that is closed while it waits for the state of its trigger begins to
    poll when the answer comes. *)
Theorem poll_survives_close c backend :
  ui_type (cp_node c) = "webhook_trigger" → oprop (cp_controlValues c) "model_name" = JUndef →
  truthy backend = true → truthy (prop backend "webhook_test_active") = true →
  ∃ s, breachable c s ∧ bs_open s = false ∧ bs_tasks s = [] ∧ pollTimer (bs_panel s) = true.
Proof using Type.
  intros Hty Hm Hb Ha. unfold PanelBackend.breachable.
  assert (opened c = BState (bs_panel (opened c)) [LoadTrigger (cp_nodeId c)] true) as Ho.
  { unfold opened, mounted, is_trigger, bp_type, fresh. cbn [bp_panel]. rewrite Hty. cbn -[asks_fields resetTriggerState].
    change (cp_controlValues _) with (cp_controlValues c). rewrite Hm. done. }
  set (p := bs_panel (opened c)) in *.
  assert (cp_node (bp_panel p) = cp_node c) as Hn.
  { unfold p, opened, mounted. destruct (is_trigger _); [destruct (asks_fields _)|destruct (isConnectorRequestNode _)]; done. }
  set (r := inr (JObj [("backend", backend)]) : result).
  exists (BState (answer (LoadTrigger (cp_nodeId c)) r (unmounted p)).1 [] false). split_and!; [|done..|].
  - rewrite Ho. eapply rtc_l; [apply bs_close|]. eapply rtc_once.
    apply (bs_answer _ _ _ _ [] (LoadTrigger (cp_nodeId c)) r [] (unmounted p) false _ []). done.
  - cbn -[syncTriggerPolling]. rewrite sync_pollTimer. unfold isWebhookTrigger, bp_type, backendState.
    cbn [bp_panel with_trigger unmounted stopTriggerPolling with_poll triggerPanelData]. rewrite Hn, Hty.
    change (prop (JObj [("backend", backend)]) "backend") with backend. rewrite Hb. cbn [truthy andb]. rewrite Ha. done.
Qed.
End polling.

(** ** Examples *)

Definition webhook_object : ui_node := UiNode (Some "n_9") "webhook_trigger" "Hook" false 0%Qc 0%Qc "fa-link" "Triggers" [] [] false.

Definition webhook_panel : config_panel := new_panel (λ _, "1") panel_store webhook_object None "edit" JNull.

(** A session in which the workflow is saved and the test listener started. *)
Definition testing : bstate :=
  let '(p, ts) := handle None (λ _, "1") (λ _, None) StartTest (opened webhook_panel).(bs_panel) in
  BState p ((opened webhook_panel).(bs_tasks) ++ ts) true.

Lemma opened_eta c : opened c = BState (bs_panel (opened c)) (bs_tasks (opened c)) true.
Proof. unfold opened. by destruct (mounted _). Qed.

Lemma testing_reachable : breachable (λ _ _, false) None (λ _, "1") (λ _, None) webhook_panel testing.
Proof.
  apply rtc_once. unfold testing. rewrite (opened_eta webhook_panel) at 1.
  generalize (bs_panel (opened webhook_panel)), (bs_tasks (opened webhook_panel)). intros q us.
  destruct (handle _ _ _ StartTest q) as [p ts] eqn:E.
  exact (bs_event (λ _ _, false) None (λ _, "1") (λ _, None) StartTest q us p ts E).
Qed.

Lemma panel_never_stuck_witness :
  triggerBusy (bs_panel testing) = true ∧
  triggerBusy (drain (λ _ _, false) None (work (bs_tasks testing)) (λ _, inl "offline") (bs_panel testing) (bs_tasks testing)).1 = false.
Proof.
  split; [vm_compute; reflexivity|].
  pose proof (panel_never_stuck (λ _ _, false) None (λ _, "1") (λ _, None) webhook_panel testing (λ _, inl "offline") testing_reachable) as H.
  rewrite (surjective_pairing (drain _ _ _ _ _ _)) in H. apply H.
Defined.

Lemma poll_survives_close_witness :
  ∃ s, breachable (λ _ _, false) None (λ _, "1") (λ _, None) webhook_panel s ∧ bs_open s = false ∧ bs_tasks s = [] ∧
    pollTimer (bs_panel s) = true.
Proof.
  apply (poll_survives_close (λ _ _, false) None (λ _, "1") (λ _, None) webhook_panel (JObj [("webhook_test_active", JBool true)]));
    vm_compute; reflexivity.
Defined.

Lemma polls_while_tested_witness :
  bs_open testing = true ∧ pollTimer (bs_panel testing) =
    isWebhookTrigger (bs_panel testing) && truthy (prop (backendState (bs_panel testing)) "webhook_test_active").
Proof.
  split; [vm_compute; reflexivity|].
  apply (polls_while_tested (λ _ _, false) None (λ _, "1") (λ _, None) webhook_panel testing testing_reachable). vm_compute. reflexivity.
Defined.
