(* ===== verification/TriggerPanel.v ===== *)
(** * The former trigger panel (components/trigger_config_panel.js)

    The panel of a trigger node before the configuration panel took its place; it is
    still in the repository.  It shows what the backend knows of the trigger, and
    asks again after its actions and every two seconds while a test webhook is
    awaited.  As in [PanelBackend] a handler is cut at its awaits: a [task] is a
    handler that waits, [answer] what it does with the result.  When the parent
    hands over another node, the panel works with it before its own props change:
    [tp_next] is the node handed over, [tp_node] the one in the props. *)

From S2P Require Import Prelude JsMap JsValue JsString JsNumber StoreExec PanelControls.

Record tnode := TNode { tn_id : string; tn_type : string; tn_config : jsval }.

Record tpanel := TPanel {
  tp_node : tnode;
  tp_next : option tnode;
  tp_readonly : bool;
  tp_loading : bool;
  tp_busy : bool;
  tp_tab : string;
  tp_values : jsobj;
  tp_data : jsval;
  tp_fields : list jsval;
  tp_error : string;
  tp_refs : jsobj;
  tp_poll : bool;
  tp_header : bool;
}.

Definition with_nodes (n : tnode) (next : option tnode) (p : tpanel) : tpanel :=
  TPanel n next (tp_readonly p) (tp_loading p) (tp_busy p) (tp_tab p) (tp_values p) (tp_data p) (tp_fields p) (tp_error p)
    (tp_refs p) (tp_poll p) (tp_header p).
Definition with_flags (loading busy : bool) (p : tpanel) : tpanel :=
  TPanel (tp_node p) (tp_next p) (tp_readonly p) loading busy (tp_tab p) (tp_values p) (tp_data p) (tp_fields p) (tp_error p)
    (tp_refs p) (tp_poll p) (tp_header p).
Definition with_tab (t : string) (p : tpanel) : tpanel :=
  TPanel (tp_node p) (tp_next p) (tp_readonly p) (tp_loading p) (tp_busy p) t (tp_values p) (tp_data p) (tp_fields p)
    (tp_error p) (tp_refs p) (tp_poll p) (tp_header p).
Definition with_values (v : jsobj) (p : tpanel) : tpanel :=
  TPanel (tp_node p) (tp_next p) (tp_readonly p) (tp_loading p) (tp_busy p) (tp_tab p) v (tp_data p) (tp_fields p)
    (tp_error p) (tp_refs p) (tp_poll p) (tp_header p).
Definition with_data (d : jsval) (msg : string) (p : tpanel) : tpanel :=
  TPanel (tp_node p) (tp_next p) (tp_readonly p) (tp_loading p) (tp_busy p) (tp_tab p) (tp_values p) d (tp_fields p)
    msg (tp_refs p) (tp_poll p) (tp_header p).
Definition with_fields (l : list jsval) (p : tpanel) : tpanel :=
  TPanel (tp_node p) (tp_next p) (tp_readonly p) (tp_loading p) (tp_busy p) (tp_tab p) (tp_values p) (tp_data p) l
    (tp_error p) (tp_refs p) (tp_poll p) (tp_header p).
Definition with_refs (r : jsobj) (p : tpanel) : tpanel :=
  TPanel (tp_node p) (tp_next p) (tp_readonly p) (tp_loading p) (tp_busy p) (tp_tab p) (tp_values p) (tp_data p) (tp_fields p)
    (tp_error p) r (tp_poll p) (tp_header p).
Definition with_timers (poll header : bool) (p : tpanel) : tpanel :=
  TPanel (tp_node p) (tp_next p) (tp_readonly p) (tp_loading p) (tp_busy p) (tp_tab p) (tp_values p) (tp_data p) (tp_fields p)
    (tp_error p) (tp_refs p) poll header.

(** ** The settings *)

(** [normalizeTriggerFields(value)] *)
Definition triggerFields (v : jsval) : list jsval :=
  omap (λ item, match item with
                | JStr s => if trim s =s "" then None else Some (JStr (trim s))
                | _ => None
                end) (as_array v).

Definition text_or (v : jsval) (d : string) : jsval := match v with JStr _ => v | _ => JStr d end.

(** [_normalizeConfig(node)] *)
Definition normalizeConfig (n : tnode) : jsobj :=
  let config := if truthy (tn_config n) then ospread [] (entries (tn_config n)) else [] in
  let field k d := (k, js_or (oprop config k) d) in
  if tn_type n =s "schedule_trigger" then [field "interval_number" (JInt 1); field "interval_type" (JStr "hours")]
  else if tn_type n =s "webhook_trigger" then
    [field "http_method" (JStr "POST"); field "response_mode" (JStr "immediate")]
  else if tn_type n =s "record_event_trigger" then
    [field "model_name" (JStr ""); field "trigger_event" (JStr "on_create_or_write");
     ("filter_domain", text_or (oprop config "filter_domain") "[]");
     ("trigger_fields", JArr (triggerFields (oprop config "trigger_fields")))]
  else [].

(** ** What is shown *)

Definition tp_type (p : tpanel) : string := tn_type (tp_node p).
Definition isManualTrigger (p : tpanel) : bool := tp_type p =s "manual_trigger".
Definition isScheduleTrigger (p : tpanel) : bool := tp_type p =s "schedule_trigger".
Definition isWebhookTrigger (p : tpanel) : bool := tp_type p =s "webhook_trigger".
Definition isRecordEventTrigger (p : tpanel) : bool := tp_type p =s "record_event_trigger".

Definition backendState (p : tpanel) : jsval :=
  if truthy (tp_data p) && truthy (prop (tp_data p) "backend") then prop (tp_data p) "backend"
  else JObj [("active", JBool false); ("workflow_is_published", JBool false); ("workflow_is_activated", JBool false);
             ("trigger_count", JInt 0); ("webhook_test_active", JBool false)].
Definition tells (k : string) (p : tpanel) : bool := truthy (prop (backendState p) k).

Definition warnings (p : tpanel) : list jsval := if truthy (tp_data p) then as_array (prop (tp_data p) "warnings") else [].

Definition workflowStatusLabel (p : tpanel) : string := if tells "workflow_is_published" p then "Published" else "Draft".
Definition workflowActivationLabel (p : tpanel) : string :=
  if tells "workflow_is_activated" p then "Workflow live" else "Workflow paused".
Definition isProductionWebhookTab (p : tpanel) : bool := tp_tab p =s "production".
Definition isTestWebhookTab (p : tpanel) : bool := tp_tab p =s "test".

Definition hasWebhookTestPayload (p : tpanel) : bool :=
  match prop (backendState p) "webhook_last_test_payload" with JUndef | JNull | JBool false => false | _ => true end.

Definition triggerOutputTitle (p : tpanel) : string :=
  if isWebhookTrigger p then "Test output" else if isManualTrigger p then "Run notes" else "Runtime status".
Definition triggerOutputSubtitle (p : tpanel) : string :=
  if isWebhookTrigger p then
    (if tells "webhook_test_active" p then "Waiting for the next test webhook call."
     else "Captured payloads from the temporary test listener appear here.")
  else if isManualTrigger p then "Use the manual execute action when you want to kick off the workflow from this node."
  else "Linked backend records and recent runtime activity stay visible here.".

Definition headerSummary (num_toString : num → string) (p : tpanel) : string :=
  let triggerCount := js_or (prop (backendState p) "trigger_count") (JInt 0) in
  let triggerLabel := if strict_eq triggerCount (JInt 1) then "time" else "times" in
  "Triggered " +:+ js_String num_toString triggerCount +:+ " " +:+ triggerLabel +:+ " • " +:+
  workflowStatusLabel p +:+ " • " +:+ workflowActivationLabel p.

Definition hasOpenBackendAction (p : tpanel) : bool := isScheduleTrigger p || isRecordEventTrigger p || isWebhookTrigger p.

Record tp_button := TPButton { tb_id : string; tb_label : string; tb_icon : string; tb_class : string; tb_disabled : bool }.

Definition headerButtons (p : tpanel) : list tp_button :=
  let isDisabled := tp_busy p || tp_loading p in
  (if isManualTrigger p && negb (tp_readonly p)
   then [TPButton "execute-trigger" "Execute trigger" "fa-play" "btn-success" isDisabled] else []) ++
  (if negb (isManualTrigger p) && negb (tp_readonly p)
   then [TPButton "toggle-activation" (if tells "active" p then "Deactivate" else "Activate")
           (if tells "active" p then "fa-pause" else "fa-bolt") "btn-primary" isDisabled] else []) ++
  (if hasOpenBackendAction p && negb (tp_readonly p)
   then [TPButton "open-backend-record" "Open backend record" "fa-external-link" "btn-outline-secondary" isDisabled] else []).

Definition showTriggerFields (p : tpanel) : bool :=
  strict_eq (oprop (tp_values p) "trigger_event") (JStr "on_create_or_write") ||
  strict_eq (oprop (tp_values p) "trigger_event") (JStr "on_write").

(** What the panel tells others: the settings it writes into a node, what it tells
    the user, and the state it hands to the header. *)
Inductive tp_effect :=
| SetNodeConfig (nodeId : string) (config : jsobj)
| NotifyDanger (message : string)
| HeaderState (summary statusLabel : string) (active : bool) (buttons : list tp_button).

(** [_notifyHeaderState()]: the timer; [header_fires] is its function. *)
Definition notifyHeaderState (p : tpanel) : tpanel := with_timers (tp_poll p) true p.
Definition header_fires (num_toString : num → string) (p : tpanel) : tpanel * list tp_effect :=
  if tp_header p
  then (with_timers (tp_poll p) false p,
        [HeaderState (headerSummary num_toString p) (if tells "active" p then "Active" else "Inactive") (tells "active" p)
           (headerButtons p)])
  else (p, []).

(** [_syncNodeConfig()]: into the node of the props. *)
Definition syncNodeConfig (p : tpanel) : list tp_effect := [SetNodeConfig (tn_id (tp_node p)) (ospread [] (tp_values p))].

Definition stopPolling (p : tpanel) : tpanel := with_timers false (tp_header p) p.
Definition syncPolling (p : tpanel) : tpanel :=
  if isWebhookTrigger p && tells "webhook_test_active" p then with_timers true (tp_header p) p else stopPolling p.

(** ** Editing *)

Definition updateValue (k : string) (v : jsval) (p : tpanel) : tpanel * list tp_effect :=
  let p := with_values (oset k v (ospread [] (tp_values p))) p in (p, syncNodeConfig p).

(** [onIntervalNumberChange(ev)] *)
Definition onIntervalNumberChange (value : string) (p : tpanel) : tpanel * list tp_effect :=
  let n := match parseInt (JStr value) with Some z => Z.max 1 z | None => 1%Z end in
  updateValue "interval_number" (JInt n) p.

(** [onToggleTriggerField(fieldName, ev)] *)
Definition onToggleTriggerField (fieldName : string) (checked : bool) (p : tpanel) : tpanel * list tp_effect :=
  let names := unique (omap (λ v, match v with JStr s => Some s | _ => None end) (triggerFields (oprop (tp_values p) "trigger_fields"))) in
  let names := if checked then (if bool_decide (fieldName ∈ names) then names else names ++ [fieldName])
               else bfilter (λ n, negb (n =s fieldName)) names in
  updateValue "trigger_fields" (JArr (JStr <$> names)) p.

Definition onFilterDomainChange (domain : jsval) : tpanel → tpanel * list tp_effect := updateValue "filter_domain" domain.
Definition onTextInput (k value : string) : tpanel → tpanel * list tp_effect := updateValue k (JStr value).
Definition onWebhookTabClick (t : string) (p : tpanel) : tpanel := with_tab t p.

(** [onRecordRefCachePatch(patch)] *)
Definition onRecordRefCachePatch (patch : jsval) (p : tpanel) : tpanel :=
  match patch with
  | JObj _ | JArr _ => with_refs (ospread (ospread [] (tp_refs p)) (entries patch)) p
  | _ => p
  end.

(** ** Tasks *)

(** The callbacks of [_runRuntimeAction]. *)
Inductive runtime_action := ToggleActivation | RotateWebhook | StartTest.

(** What a handler waits for. *)
Inductive task :=
| BootFields (nodeId : string)
| BootLoad (nodeId : string)
| ModelFields
| Load (nodeId : string)
| ActSave (a : runtime_action)
| ActCall (a : runtime_action)
| StopCall
| RunSave
| RunCall
| RunLoad (nodeId : string)
| OpenSave
| OpenCall.

(** The result of what is awaited: an exception with its message, or a value. *)
Abbreviation result := (string + jsval)%type.

Definition error_text (msg fallback : string) : string := if msg =s "" then fallback else msg.

(** What a handler leaves behind: the panel, what it told, what it waits for. *)
Abbreviation outcome3 := (tpanel * list tp_effect * list task)%type.

Section panel.
(** The comparison [localeCompare] makes, and how numbers are printed. *)
Context (before : string → string → bool) (num_toString : num → string).

(** The fields of a model as suggestions. *)
Definition tp_suggestions (defs : jsval) : list jsval :=
  sort_by (λ a b, before (str_of (prop a "name")) (str_of (prop b "name")))
    ((λ e, JObj [("name", JStr e.1);
                 ("label", if truthy e.2 && truthy (prop e.2 "string") then prop e.2 "string" else JStr e.1);
                 ("type", if truthy e.2 && truthy (prop e.2 "type") then prop e.2 "type" else JStr "unknown")]) <$> entries defs).

(** [_loadFieldSuggestions(modelName)]: whether it asks, and its answer. *)
Definition asks (modelName : jsval) : bool := negb (trim (str_of modelName) =s "").
Definition fields_answer (r : result) (p : tpanel) : tpanel :=
  with_fields (match r with inr defs => tp_suggestions defs | inl _ => [] end) p.

(** The rest of [_reloadPanelData] after the answer. *)
Definition loaded (r : result) (p : tpanel) : tpanel :=
  let p := match r with
           | inr data => syncPolling (with_data data "" p)
           | inl msg => stopPolling (with_data JNull (error_text msg "Failed to load trigger state.") p)
           end in
  notifyHeaderState (with_flags false (tp_busy p) p).

(** [_bootstrap(node)] up to its first await. *)
Definition bootstrap (n : tnode) (p : tpanel) : outcome3 :=
  let p := with_flags true false (stopPolling p) in
  let p := with_tab "production" (with_data JNull "" p) in
  let p := with_refs [] (with_fields [] (with_values (normalizeConfig n) p)) in
  let p := notifyHeaderState p in
  (p, syncNodeConfig p,
   if asks (oprop (tp_values p) "model_name") then [BootFields (tn_id n)] else [BootLoad (tn_id n)]).

(** [setup] and [onMounted] *)
Definition tp_setup (n : tnode) (readonly : bool) : tpanel :=
  TPanel n None readonly true false "production" (normalizeConfig n) JNull [] "" [] false false.
Definition mounted (p : tpanel) : outcome3 := bootstrap (tp_node p) p.

(** [onWillUpdateProps(nextProps)]: the props change when it is done, at once for
    the same node. *)
Definition willUpdateProps (n : tnode) (p : tpanel) : outcome3 :=
  if tn_id n =s tn_id (tp_node p) then (with_nodes n None p, [], [])
  else bootstrap n (with_nodes (tp_node p) (Some n) p).

(** The new props arrive when the bootstrap of their node has finished. *)
Definition commit (nodeId : string) (p : tpanel) : tpanel :=
  match tp_next p with
  | Some n => if tn_id n =s nodeId then with_nodes n None p else p
  | None => p
  end.

(** [onWillUnmount]; the tasks go on. *)
Definition unmounted (p : tpanel) : tpanel := with_timers false false p.

(** The function of the interval. *)
Definition poll_fires (p : tpanel) : outcome3 := (p, [], if tp_poll p then [Load (tn_id (tp_node p))] else []).

(** [onModelNameChange(ev)] up to its await. *)
Definition onModelNameChange (modelName : string) (p : tpanel) : outcome3 :=
  let '(p, e1) := updateValue "model_name" (JStr modelName) p in
  let '(p, e2) := updateValue "trigger_fields" (JArr []) p in
  if asks (JStr modelName) then (p, e1 ++ e2, [ModelFields]) else (with_fields [] p, e1 ++ e2, []).

(** [_runRuntimeAction(callback)] *)
Definition runRuntimeAction (a : runtime_action) (p : tpanel) : outcome3 :=
  if tp_busy p || tp_readonly p then (p, [], [])
  else
    let p := notifyHeaderState (with_data (tp_data p) "" (with_flags (tp_loading p) true p)) in
    (p, syncNodeConfig p, [ActSave a]).

(** What the callback calls. *)
Definition action_call (a : runtime_action) (p : tpanel) : string :=
  match a with
  | ToggleActivation => if tells "active" p then "deactivateTriggerNode" else "activateTriggerNode"
  | RotateWebhook => "rotateTriggerWebhook"
  | StartTest => "startTriggerWebhookTest"
  end.

Definition onStopWebhookTest (p : tpanel) : outcome3 :=
  if tp_busy p || tp_readonly p then (p, [], [])
  else (notifyHeaderState (with_flags (tp_loading p) true p), [], [StopCall]).

Definition onExecuteManualTrigger (p : tpanel) : outcome3 :=
  if tp_busy p || tp_readonly p then (p, [], [])
  else let p := notifyHeaderState (with_flags (tp_loading p) true p) in (p, syncNodeConfig p, [RunSave]).

Definition onOpenBackendRecord (p : tpanel) : outcome3 :=
  if tp_readonly p then (p, [], []) else (p, syncNodeConfig p, [OpenSave]).

(** The [finally] of the handlers that are busy, and their [catch]. *)
Definition released (p : tpanel) : tpanel := notifyHeaderState (with_flags (tp_loading p) false p).
Definition tp_failed (msg fallback : string) (p : tpanel) : tpanel * list tp_effect :=
  let e := error_text msg fallback in (with_data (tp_data p) e p, [NotifyDanger e]).
Definition caught (msg fallback : string) (p : tpanel) : outcome3 :=
  let '(p, es) := tp_failed msg fallback p in (released p, es, []).
Definition told (data : jsval) (p : tpanel) : outcome3 :=
  (released (syncPolling (with_data data (tp_error p) p)), [], []).

Definition answer (t : task) (r : result) (p : tpanel) : outcome3 :=
  match t, r with
  | BootFields i, _ => (fields_answer r p, [], [BootLoad i])
  | BootLoad i, _ => (commit i (loaded r p), [], [])
  | ModelFields, _ => (fields_answer r p, [], [])
  | Load _, _ => (loaded r p, [], [])
  | ActSave a, inr _ => (p, [], [ActCall a])
  | ActSave _, inl m | ActCall _, inl m => caught m "Trigger action failed." p
  | ActCall _, inr data => told data p
  | StopCall, inr data => told data p
  | StopCall, inl m => caught m "Failed to stop test listener." p
  | RunSave, inr _ => (p, [], [RunCall])
  | RunCall, inr _ => (p, [], [RunLoad (tn_id (tp_node p))])
  | RunLoad _, _ => (released (loaded r p), [], [])
  | RunSave, inl m | RunCall, inl m => caught m "Manual trigger execution failed." p
  | OpenSave, inr _ => (p, [], [OpenCall])
  | OpenCall, inr _ => (p, [], [])
  | OpenSave, inl m | OpenCall, inl m => (tp_failed m "Failed to open backend record." p, [])
  end.

(** ** Sessions *)

Inductive tp_event :=
| Text (k value : string) | Interval (value : string) | ModelName (m : string) | TriggerField (f : string) (checked : bool)
| Domain (d : jsval) | Tab (t : string) | Refs (patch : jsval)
| Action (a : runtime_action) | Stop | Run | Open | Props (n : tnode) | HeaderTimer.

Definition handle (e : tp_event) (p : tpanel) : outcome3 :=
  match e with
  | Text k v => (onTextInput k v p, [])
  | Interval v => (onIntervalNumberChange v p, [])
  | ModelName m => onModelNameChange m p
  | TriggerField f b => (onToggleTriggerField f b p, [])
  | Domain d => (onFilterDomainChange d p, [])
  | Tab t => (onWebhookTabClick t p, [], [])
  | Refs q => (onRecordRefCachePatch q p, [], [])
  | Action a => runRuntimeAction a p
  | Stop => onStopWebhookTest p
  | Run => onExecuteManualTrigger p
  | Open => onOpenBackendRecord p
  | Props n => willUpdateProps n p
  | HeaderTimer => (header_fires num_toString p, [])
  end.

(** The panel, the tasks in flight, and whether the panel is still there. *)
Record tstate := TState { ts_panel : tpanel; ts_tasks : list task; ts_open : bool }.

Inductive tstep : tstate → tstate → Prop :=
| tst_event e p ts p' es new : handle e p = (p', es, new) → tstep (TState p ts true) (TState p' (ts ++ new) true)
| tst_poll p ts o p' es new : poll_fires p = (p', es, new) → tstep (TState p ts o) (TState p' (ts ++ new) o)
| tst_answer l t r k p o p' es new :
    answer t r p = (p', es, new) → tstep (TState p (l ++ t :: k) o) (TState p' (l ++ k ++ new) o)
| tst_close p ts : tstep (TState p ts true) (TState (unmounted p) ts false).

Definition tp_opened (n : tnode) (readonly : bool) : tstate :=
  let '(p, _, ts) := mounted (tp_setup n readonly) in TState p ts true.
Definition treachable (n : tnode) (readonly : bool) : tstate → Prop := rtc tstep (tp_opened n readonly).

(** ** Nothing stays stuck *)

Definition holds_busy (t : task) : bool :=
  match t with ActSave _ | ActCall _ | StopCall | RunSave | RunCall | RunLoad _ => true | _ => false end.
Definition holds_loading (t : task) : bool := match t with BootFields _ | BootLoad _ => true | _ => false end.

(** A flag that is up has a task in flight that takes it down. *)
Definition flags_ok (p : tpanel) (ts : list task) : Prop :=
  (tp_busy p = true → existsb holds_busy ts = true) ∧ (tp_loading p = true → existsb holds_loading ts = true).

Lemma sync_flags p : tp_busy (syncPolling p) = tp_busy p ∧ tp_loading (syncPolling p) = tp_loading p.
Proof using Type. unfold syncPolling. by destruct (_ && _). Qed.

Lemma loaded_flags r p : tp_busy (loaded r p) = tp_busy p ∧ tp_loading (loaded r p) = false.
Proof using Type.
  unfold loaded. destruct r as [m|d]; cbn; [done|]. destruct (sync_flags (with_data d "" p)) as [-> _]. done.
Qed.

Lemma commit_flags i p : tp_busy (commit i p) = tp_busy p ∧ tp_loading (commit i p) = tp_loading p.
Proof using Type. unfold commit. destruct (tp_next p); [|done]. by destruct (_ =s _). Qed.

Lemma released_flags p : tp_busy (released p) = false ∧ tp_loading (released p) = tp_loading p.
Proof using Type. done. Qed.

Lemma bootstrap_ok n p ts : flags_ok (bootstrap n p).1.1 (ts ++ (bootstrap n p).2).
Proof using Type.
  unfold flags_ok, bootstrap. cbn [fst snd]. rewrite !existsb_app. split; [done|]. intros _.
  destruct (asks _); by rewrite orb_true_r.
Qed.

Lemma flags_more p ts new : flags_ok p ts → flags_ok p (ts ++ new).
Proof using Type. intros [H1 H2]. unfold flags_ok. rewrite !existsb_app. split; intros H; [by rewrite H1|by rewrite H2]. Qed.

Lemma flags_same p q ts new :
  tp_busy q = tp_busy p → tp_loading q = tp_loading p → flags_ok p ts → flags_ok q (ts ++ new).
Proof using Type. intros Hb Hl H. apply (flags_more p _ new) in H. unfold flags_ok in *. by rewrite Hb, Hl. Qed.

Lemma flags_hold p q ts t :
  tp_busy q = true → tp_loading q = tp_loading p → holds_busy t = true → flags_ok p ts → flags_ok q (ts ++ [t]).
Proof using Type.
  intros Hb Hl Ht [H1 H2]. unfold flags_ok. rewrite !existsb_app. cbn. rewrite Ht, Hl. split; intros H; [by rewrite orb_true_r|].
  by rewrite H2.
Qed.

Lemma tp_handle_ok e p ts : flags_ok p ts → flags_ok (handle e p).1.1 (ts ++ (handle e p).2).
Proof using Type.
  intros H. destruct e; cbn [handle]; try (apply (flags_same p); done).
  - unfold onModelNameChange. cbn. destruct (asks _); by apply (flags_same p).
  - cbn. unfold onRecordRefCachePatch. destruct patch; by apply (flags_same p).
  - unfold runRuntimeAction. destruct (_ || _); [by apply (flags_same p)|by apply (flags_hold p)].
  - unfold onStopWebhookTest. destruct (_ || _); [by apply (flags_same p)|by apply (flags_hold p)].
  - unfold onExecuteManualTrigger. destruct (_ || _); [by apply (flags_same p)|by apply (flags_hold p)].
  - unfold onOpenBackendRecord. destruct (tp_readonly p); by apply (flags_same p).
  - unfold willUpdateProps. destruct (_ =s _); [by apply (flags_same p)|]. apply bootstrap_ok.
  - unfold header_fires. destruct (tp_header p); by apply (flags_same p).
Qed.

Lemma tp_answer_ok t r p l k : flags_ok p (l ++ t :: k) → flags_ok (answer t r p).1.1 (l ++ k ++ (answer t r p).2).
Proof using Type.
  intros [H1 H2].
  assert (holds_busy t = false → tp_busy (answer t r p).1.1 = tp_busy p) as Hb.
  { destruct t; try done; intros _; cbn; [|apply loaded_flags|..].
    - destruct (commit_flags nodeId (loaded r p)) as [-> _]. apply loaded_flags.
    - by destruct r.
    - by destruct r. }
  assert (holds_busy t = true → tp_busy (answer t r p).1.1 = true → existsb holds_busy (answer t r p).2 = true) as Hb'.
  { destruct t; try done; intros _; cbn; destruct r; done. }
  assert (tp_loading (answer t r p).1.1 = true →
            tp_loading p = true ∧ (holds_loading t = true → existsb holds_loading (answer t r p).2 = true)) as Hl.
  { destruct t, r; cbn -[loaded commit syncPolling];
      rewrite ?(proj2 (commit_flags _ _)), ?(proj2 (loaded_flags _ _)), ?(proj2 (sync_flags _)); cbn;
      intros E; by split. }
  unfold flags_ok. rewrite !existsb_app in *. cbn [existsb] in *. split.
  - intros E. destruct (holds_busy t) eqn:Et; [rewrite Hb' by done; by rewrite !orb_true_r|].
    rewrite Hb in E by done. specialize (H1 E). rewrite orb_false_l in H1. by rewrite orb_assoc, H1.
  - intros [E Et]%Hl. specialize (H2 E). destruct (holds_loading t); [rewrite Et by done; by rewrite !orb_true_r|].
    rewrite orb_false_l in H2. by rewrite orb_assoc, H2.
Qed.

Lemma tstep_ok s s' : tstep s s' → flags_ok (ts_panel s) (ts_tasks s) → flags_ok (ts_panel s') (ts_tasks s').
Proof using Type.
  destruct 1 as [e p ts p' es new E|p ts o p' es new E|l t r k p o p' es new E|p ts]; cbn [ts_panel ts_tasks]; intros H.
  - apply (tp_handle_ok e) in H. by rewrite E in H.
  - unfold poll_fires in E. injection E as <- <- <-. by apply flags_more.
  - apply (tp_answer_ok t r) in H. by rewrite E in H.
  - by destruct H.
Qed.

Lemma treachable_ok n ro s : treachable n ro s → flags_ok (ts_panel s) (ts_tasks s).
Proof using Type.
  intros H. assert (flags_ok (ts_panel (tp_opened n ro)) (ts_tasks (tp_opened n ro))) as H0 by apply (bootstrap_ok n _ []).
  unfold treachable in H. induction H as [s|s1 s2 s3 Hs _ IH]; [done|]. apply IH. by eapply tstep_ok.
Qed.
End panel.

(** ** Properties *)

(** Whatever was clicked, whichever nodes were handed over and in whatever order
    answers and failures came, a panel that waits for nothing is neither loading nor
    busy. *)
Theorem trigger_panel_settles before num_toString n readonly s :
  treachable before num_toString n readonly s → ts_tasks s = [] → tp_loading (ts_panel s) = false ∧ tp_busy (ts_panel s) = false.
Proof.
  intros H%treachable_ok Ht. rewrite Ht in H. destruct H as [H1 H2].
  split; [destruct (tp_loading _)|destruct (tp_busy _)]; [by specialize (H2 eq_refl)|done|by specialize (H1 eq_refl)|done].
Qed.

Lemma triggerFields_again v : triggerFields (JArr (triggerFields v)) = triggerFields v.
Proof.
  unfold triggerFields at 1. cbn [as_array]. unfold triggerFields. induction (as_array v) as [|x l IH]; [done|].
  cbn [omap list_omap]. destruct x as [| | | |s| |]; try done. destruct (trim s =s "") eqn:E; [done|].
  cbn [omap list_omap]. rewrite trim_idem, E. by f_equal.
Qed.

(** Settings that were made complete are complete. *)
Theorem normalizeConfig_again n :
  normalizeConfig (TNode (tn_id n) (tn_type n) (JObj (normalizeConfig n))) = normalizeConfig n.
Proof.
  assert (∀ (m : jsobj) k a d, jget k m = Some (js_or a d) → js_or (oprop m k) d = js_or a d) as Hor.
  { intros m k a d E. unfold oprop. rewrite E. cbn. unfold js_or. destruct (truthy a) eqn:Ea; [by rewrite Ea|by destruct (truthy d)]. }
  assert (∀ m, ospread [] m = m → normalizeConfig n = m → (if truthy (JObj m) then ospread [] (entries (JObj m)) else []) = m) as Hm
    by done.
  unfold normalizeConfig at 1. cbn [tn_type tn_config].
  rewrite (Hm (normalizeConfig n)); [|apply ospread_nil_l|done].
  - unfold normalizeConfig. set (c := if truthy (tn_config n) then _ else _). clearbody c. cbv beta zeta.
    destruct (tn_type n =s "schedule_trigger"); [f_equal; [f_equal; by apply Hor|f_equal; f_equal; by apply Hor]|].
    destruct (tn_type n =s "webhook_trigger"); [f_equal; [f_equal; by apply Hor|f_equal; f_equal; by apply Hor]|].
    destruct (tn_type n =s "record_event_trigger"); [|done].
    do 2 (f_equal; [f_equal; by apply Hor|]). f_equal; [f_equal|].
    + change (oprop _ "filter_domain") with (text_or (oprop c "filter_domain") "[]") at 1. by destruct (oprop c "filter_domain").
    + f_equal. f_equal. f_equal. apply triggerFields_again.
  - unfold normalizeConfig. repeat case_match; (split; [repeat constructor; set_solver|repeat constructor]).
Qed.

(** The number of an interval is at least one, whatever was typed. *)
Lemma interval_at_least_one value p :
  ∃ z, (1 ≤ z)%Z ∧ oprop (tp_values (onIntervalNumberChange value p).1) "interval_number" = JInt z.
Proof.
  unfold onIntervalNumberChange, updateValue, oprop. cbn. rewrite jget_oset_eq. cbn.
  exists (match parseInt (JStr value) with Some z => Z.max 1 z | None => 1%Z end). split; [case_match; lia|done].
Qed.

(** When another node is handed over, its settings are written into the node shown
    before, whose own settings are gone. *)
Theorem switch_overwrites num_toString n p :
  tn_id n ≠ tn_id (tp_node p) →
  (handle num_toString (Props n) p).1.2 = [SetNodeConfig (tn_id (tp_node p)) (ospread [] (normalizeConfig n))].
Proof. intros H. cbn. unfold willUpdateProps. by rewrite bool_decide_false. Qed.

(** A webhook under test is closed while its data is asked for: the answer starts the
    polling again, and nothing stops it. *)
Definition webhook : tnode := TNode "n_1" "webhook_trigger" (JObj []).
Definition under_test : jsval := JObj [("backend", JObj [("webhook_test_active", JBool true)])].
Theorem polls_after_close :
  ∃ s, treachable (λ _ _, false) (λ _, "0") webhook false s ∧ ts_open s = false ∧ ts_tasks s = [] ∧ tp_poll (ts_panel s) = true.
Proof.
  set (q := answer (λ _ _, false) (BootLoad "n_1") (inr under_test) (unmounted (ts_panel (tp_opened webhook false)))).
  exists (TState q.1.1 [] false). split; [|done]. unfold treachable.
  eapply rtc_l; [apply (tst_close _ _ (ts_panel (tp_opened webhook false)) [BootLoad "n_1"])|].
  apply rtc_once. apply (tst_answer _ _ [] (BootLoad "n_1") (inr under_test) [] (unmounted (ts_panel (tp_opened webhook false)))
    false q.1.1 q.1.2 []). vm_compute. reflexivity.
Qed.

(** What was asked for the node before is shown for the next one when it comes late. *)
Theorem late_data_of_other_node :
  ∃ s data, treachable (λ _ _, false) (λ _, "0") webhook false s ∧ ts_tasks s = [] ∧
    tn_id (tp_node (ts_panel s)) = "n_2" ∧ tp_data (ts_panel s) = data ∧ data = under_test.
Proof.
  pose (s0 := tp_opened webhook false). pose (b := λ _ _ : string, false).
  pose (n2 := TNode "n_2" "manual_trigger" (JObj [])).
  pose (p1 := (handle (λ _, "0") (Props n2) (ts_panel s0)).1.1).
  pose (p2 := (answer b (BootLoad "n_2") (inr (JObj [])) p1).1.1).
  pose (p3 := (answer b (BootLoad "n_1") (inr under_test) p2).1.1).
  exists (TState p3 [] true), under_test. split; [|done]. unfold treachable.
  eapply rtc_l; [apply (tst_event _ _ (Props n2) (ts_panel s0) [BootLoad "n_1"] p1 (handle (λ _, "0") (Props n2) (ts_panel s0)).1.2 [BootLoad "n_2"]); vm_compute; reflexivity|]. cbn [app].
  eapply rtc_l; [apply (tst_answer _ _ [BootLoad "n_1"] (BootLoad "n_2") (inr (JObj [])) [] p1 true p2 [] []); vm_compute; reflexivity|]. cbn [app].
  apply rtc_once. apply (tst_answer _ _ [] (BootLoad "n_1") (inr under_test) [] p2 true p3 [] []). vm_compute. reflexivity.
Qed.
