(* ===== verification/PanelNav.v ===== *)
(** * Moving between nodes from the configuration panel
    (components/config_panel_dialog.js, components/node_config_panel.js)

    The dialog works out, from the structural connections of the workflow, which
    nodes come next and which come before; the panel shows them in two menus that
    open under the pointer and close a moment after it left. *)

From S2P Require Import Prelude JsMap JsValue JsNumber Connection Node Nodes Editor EditorInv Adapter AdapterInv AdapterEquiv AdapterRun History HistoryTimeline Commands Store StoreInv StoreRun StoreBatch WorkflowCommands Dimensions Geometry Drawing Dfs GraphUtils Dagre Layout CanvasTidy Clipboard ClipboardCopy CanvasEdit CanvasHover.

Inductive direction := Previous | Next.
#[export] Instance direction_eq_dec : EqDecision direction.
Proof. solve_decision. Defined.

Definition direction_name (d : direction) : string := match d with Previous => "previous" | Next => "next" end.
Definition otherDirection (d : direction) : direction := match d with Next => Previous | Previous => Next end.

(** ** The options, in the dialog *)

Definition id_text (n : ui_node) : string := default "undefined" (ui_id n).

(** [getNodeDisplayName(node)]; a node of the UI has no label. *)
Definition getNodeDisplayName (n : ui_node) : string :=
  str_or (ui_title n) (str_or (ui_type n) ("Node " +:+ id_text n)).

(** [getSocketLabel(connection)] *)
Definition getSocketLabel (c : gconn) : string :=
  let sourceHandle := str_or (gc_sourceHandle c) (gc_sourceSocket c) in
  let targetHandle := str_or (gc_targetHandle c) (gc_targetSocket c) in
  if negb (sourceHandle =s "") && negb (targetHandle =s "") then sourceHandle +:+ " → " +:+ targetHandle
  else str_or sourceHandle targetHandle.

Record nav_option := NavOption {
  nav_key : string;
  nav_nodeId : string;
  nav_title : string;
  nav_socketLabel : string;
}.

Record navigation := Navigation {
  nm_heading : string;
  nm_hasMultiple : bool;
  nm_hasOptions : bool;
  nm_primary : option nav_option;
  nm_options : list nav_option;
  nm_summaryTitle : string;
  nm_summaryMeta : string;
}.

(** The end of a connection at the node, and the other one. *)
Definition near_end (d : direction) (c : gconn) : string := match d with Next => gc_source c | Previous => gc_target c end.
Definition far_end (d : direction) (c : gconn) : string := match d with Next => gc_target c | Previous => gc_source c end.

(** [new Map(nodes.map((node) => [String(node.id), node]))] *)
Definition node_map (nodes : list ui_node) : list (string * ui_node) :=
  foldl (λ m n, mset (id_text n) n m) [] nodes.

Section dialog.
(** [before a b]: [a.localeCompare(b) < 0]. *)
Context (before : string → string → bool).

Definition option_before (l r : nav_option) : bool :=
  if before (nav_title l) (nav_title r) then true
  else if before (nav_title r) (nav_title l) then false
  else before (nav_socketLabel l) (nav_socketLabel r).

(** The option of a connection. *)
Definition nav_option_of (nodes : list ui_node) (d : direction) (c : gconn) : option nav_option :=
  let neighborId := far_end d c in
  (λ neighbor,
    NavOption (str_or (gc_id c) (direction_name d +:+ ":" +:+ neighborId +:+ ":" +:+ getSocketLabel c))
      (default "" (ui_id neighbor)) (getNodeDisplayName neighbor) (getSocketLabel c)) <$> jget neighborId (node_map nodes).

(** [_getNavigationOptions(direction)]; [workflow] is missing when the canvas
    gives none. *)
Definition getNavigationOptions (workflow : option (list ui_node * list gconn)) (currentNode : ui_node) (d : direction)
    : list nav_option :=
  match workflow with
  | None => []
  | Some (nodes, connections) =>
      let relevantConnections :=
        bfilter (λ c, near_end d c =s id_text currentNode) (getStructuralConnections connections) in
      sort_by option_before (omap (nav_option_of nodes d) relevantConnections)
  end.

(** [_getNavigationModel(direction)] *)
Definition getNavigationModel (workflow : option (list ui_node * list gconn)) (currentNode : ui_node) (d : direction)
    : navigation :=
  let options := getNavigationOptions workflow currentNode d in
  let heading := match d with Next => "Next" | Previous => "Previous" end in
  let hasMultiple := (1 <? length options)%nat in
  let primary := match options with [o] => Some o | _ => None end in
  Navigation heading hasMultiple (0 <? length options)%nat primary options
    (match primary with
     | Some o => nav_title o
     | None => (if hasMultiple then "Choose " else "No ") +:+ direction_name d +:+ " node"
     end)
    (match primary with
     | Some o => nav_socketLabel o
     | None => if hasMultiple then pretty (length options) +:+ " direct connections"
               else match d with
                    | Next => "This node has no outgoing connections"
                    | Previous => "This node has no incoming connections"
                    end
     end).
End dialog.

(** The dialog's [onNavigateToNode(nodeId)] opens the panel of the node. *)
Definition onNavigateToNode (s : store) (nodeId : string) : store :=
  if nodeId =s "" then s else onNodeOpenConfig s nodeId.

(** ** The menus, in the panel *)

Record menu := Menu {
  menu_isOpen : bool;
  menu_timer : bool;
  navActiveOptionKey : option string;
  navTriggerWidth : Z;
}.

Definition closed_menu : menu := Menu false false None 0.

Record nav_menus := NavMenus {
  previous_menu : menu;
  next_menu : menu;
  nm_store : store;
}.

Definition new_nav_menus (s : store) : nav_menus := NavMenus closed_menu closed_menu s.
Definition menu_of (d : direction) (m : nav_menus) : menu := match d with Next => next_menu m | Previous => previous_menu m end.
Definition on_menu (d : direction) (f : menu → menu) (m : nav_menus) : nav_menus :=
  match d with
  | Next => NavMenus (previous_menu m) (f (next_menu m)) (nm_store m)
  | Previous => NavMenus (f (previous_menu m)) (next_menu m) (nm_store m)
  end.

(** [open()], [close()], [_clearNavMenuCloseTimer], [_scheduleNavMenuClose]. *)
Definition open_menu (m : menu) : menu := Menu true (menu_timer m) (navActiveOptionKey m) (navTriggerWidth m).
Definition close_menu (m : menu) : menu := Menu false (menu_timer m) (navActiveOptionKey m) (navTriggerWidth m).
Definition clearNavMenuCloseTimer (m : menu) : menu := Menu (menu_isOpen m) false (navActiveOptionKey m) (navTriggerWidth m).
Definition scheduleNavMenuClose (m : menu) : menu := Menu (menu_isOpen m) true (navActiveOptionKey m) (navTriggerWidth m).
Definition with_active (k : option string) (m : menu) : menu := Menu (menu_isOpen m) (menu_timer m) k (navTriggerWidth m).
Definition with_trigger_width (w : Z) (m : menu) : menu := Menu (menu_isOpen m) (menu_timer m) (navActiveOptionKey m) w.

Definition clearAllNavMenuCloseTimers (m : nav_menus) : nav_menus :=
  on_menu Next clearNavMenuCloseTimer (on_menu Previous clearNavMenuCloseTimer m).

(** [getPrimaryNavigationOption(direction)] *)
Definition getPrimaryNavigationOption (n : navigation) : option nav_option :=
  match nm_primary n with Some o => Some o | None => head (nm_options n) end.

(** [getNavMenuStyle(direction)]: the least width of the menu. *)
Definition getNavMenuMinWidth (m : menu) : Z := Z.max 220 (navTriggerWidth m).

(** [isNavOptionActive(direction, option)], [isPrimaryNavOption(direction, option)] *)
Definition isNavOptionActive (m : menu) (o : nav_option) : bool := bool_decide (navActiveOptionKey m = Some (nav_key o)).
Definition isPrimaryNavOption (n : navigation) (o : nav_option) : bool :=
  match getPrimaryNavigationOption n with Some p => nav_key p =s nav_key o | None => false end.

Section menus.
(** The navigation the panel was given. *)
Context (getNavModel : direction → navigation).

(** [_primeNavActiveOption(direction)] *)
Definition primeNavActiveOption (d : direction) (m : nav_menus) : nav_menus :=
  on_menu d (with_active (nav_key <$> getPrimaryNavigationOption (getNavModel d))) m.

(** The panel's [onNavigateToNode(nodeId)]. *)
Definition panel_onNavigateToNode (m : nav_menus) (nodeId : string) : nav_menus :=
  if nodeId =s "" then m
  else
    let m := on_menu Next close_menu (on_menu Previous close_menu (clearAllNavMenuCloseTimers m)) in
    NavMenus (previous_menu m) (next_menu m) (onNavigateToNode (nm_store m) nodeId).

Definition onNavTriggerMouseEnter (d : direction) (width : Z) (m : nav_menus) : nav_menus :=
  if negb (nm_hasMultiple (getNavModel d)) then m
  else
    let m := on_menu d (with_trigger_width width) m in
    let m := on_menu d clearNavMenuCloseTimer m in
    let m := primeNavActiveOption d m in
    let m := on_menu (otherDirection d) clearNavMenuCloseTimer m in
    let m := on_menu (otherDirection d) close_menu m in
    on_menu d open_menu m.

Definition onNavTriggerMouseLeave (d : direction) (m : nav_menus) : nav_menus := on_menu d scheduleNavMenuClose m.

Definition onNavMenuMouseEnter (d : direction) (m : nav_menus) : nav_menus :=
  primeNavActiveOption d (on_menu d clearNavMenuCloseTimer m).

(** [key] is that of the item under the pointer, if there is one. *)
Definition onNavMenuMouseOver (d : direction) (key : option string) (m : nav_menus) : nav_menus :=
  match key with
  | None => m
  | Some k => if (k =s "") || bool_decide (navActiveOptionKey (menu_of d m) = Some k) then m
              else on_menu d (with_active (Some k)) m
  end.

Definition onNavMenuMouseLeave (d : direction) (m : nav_menus) : nav_menus := on_menu d scheduleNavMenuClose m.

(** The item that gets the focus is the active one. *)
Definition onNavDropdownOpened (d : direction) (m : nav_menus) : nav_menus := primeNavActiveOption d m.

Definition onPrimaryNavClick (d : direction) (width : Z) (m : nav_menus) : nav_menus :=
  match getPrimaryNavigationOption (getNavModel d) with
  | None => m
  | Some primary =>
      let m := on_menu d (with_trigger_width width) m in
      let m := primeNavActiveOption d m in
      panel_onNavigateToNode (on_menu d close_menu m) (nav_nodeId primary)
  end.

Definition onNavOptionSelected (d : direction) (o : nav_option) (m : nav_menus) : nav_menus :=
  panel_onNavigateToNode (on_menu d (with_active (Some (nav_key o))) m) (nav_nodeId o).

(** The timer of [_scheduleNavMenuClose]; the id it leaves behind is cleared
    again to no effect. *)
Definition nav_timer_fires (d : direction) (m : nav_menus) : nav_menus :=
  if menu_timer (menu_of d m) then on_menu d (λ x, close_menu (clearNavMenuCloseTimer x)) m else m.

(** ** The pointer *)

Inductive nav_place := Elsewhere | OnTrigger (d : direction) | OnMenu (d : direction).
#[export] Instance nav_place_eq_dec : EqDecision nav_place.
Proof. solve_decision. Defined.

Definition over (d : direction) (p : nav_place) : bool := bool_decide (p = OnTrigger d) || bool_decide (p = OnMenu d).

(** What happens to the menus; [MenuClosed] is a menu that closes by itself, on
    Escape or a click elsewhere. *)
Inductive nav_event :=
| TriggerEnter (d : direction) (width : Z)
| TriggerLeave (d : direction)
| MenuEnter (d : direction)
| MenuOver (d : direction) (key : option string)
| MenuLeave (d : direction)
| MenuOpened (d : direction)
| MenuClosed (d : direction)
| PrimaryClick (d : direction) (width : Z)
| OptionSelected (d : direction) (o : nav_option)
| CloseTimer (d : direction).

(** A menu that closed is no longer under the pointer. *)
Definition settle (mp : nav_menus * nav_place) : nav_menus * nav_place :=
  match mp.2 with
  | OnMenu d => if menu_isOpen (menu_of d mp.1) then mp else (mp.1, Elsewhere)
  | _ => mp
  end.

Definition nav_step (mp : nav_menus * nav_place) (e : nav_event) : nav_menus * nav_place :=
  let '(m, p) := mp in
  settle
    match e with
    | TriggerEnter d w => (onNavTriggerMouseEnter d w m, OnTrigger d)
    | TriggerLeave d => (onNavTriggerMouseLeave d m, Elsewhere)
    | MenuEnter d => (onNavMenuMouseEnter d m, OnMenu d)
    | MenuOver d k => (onNavMenuMouseOver d k m, p)
    | MenuLeave d => (onNavMenuMouseLeave d m, Elsewhere)
    | MenuOpened d => (onNavDropdownOpened d m, p)
    | MenuClosed d => (on_menu d close_menu m, p)
    | PrimaryClick d w => (onPrimaryNavClick d w m, p)
    | OptionSelected d o => (onNavOptionSelected d o m, p)
    | CloseTimer d => (nav_timer_fires d m, p)
    end.

(** The events the browser can send: a menu is entered when it is open, an item
    is one of the options. *)
Definition nav_allowed (mp : nav_menus * nav_place) (e : nav_event) : Prop :=
  match e with
  | TriggerEnter _ _ => mp.2 = Elsewhere
  | TriggerLeave d | PrimaryClick d _ => mp.2 = OnTrigger d
  | MenuEnter d => mp.2 = Elsewhere ∧ menu_isOpen (menu_of d mp.1) = true
  | MenuOver d k => mp.2 = OnMenu d ∧ ∀ k', k = Some k' → k' ∈ nav_key <$> nm_options (getNavModel d)
  | MenuLeave d => mp.2 = OnMenu d
  | MenuOpened d => menu_isOpen (menu_of d mp.1) = true
  | OptionSelected d o => menu_isOpen (menu_of d mp.1) = true ∧ o ∈ nm_options (getNavModel d)
  | MenuClosed _ | CloseTimer _ => True
  end.

Inductive nav_run : nav_menus * nav_place → Prop :=
| nr_start s : nav_run (new_nav_menus s, Elsewhere)
| nr_step mp e : nav_run mp → nav_allowed mp e → nav_run (nav_step mp e).

(** ** What holds of the menus *)

(** A menu under or away from the pointer. *)
Definition menu_ok (d : direction) (m : menu) (p : nav_place) : Prop :=
  menu_isOpen m = true →
  nm_hasMultiple (getNavModel d) = true ∧
  menu_timer m = negb (over d p) ∧
  ∃ o, o ∈ nm_options (getNavModel d) ∧ navActiveOptionKey m = Some (nav_key o).

Definition nav_ok (mp : nav_menus * nav_place) : Prop :=
  menu_ok Next (next_menu mp.1) mp.2 ∧ menu_ok Previous (previous_menu mp.1) mp.2 ∧
  ¬ (menu_isOpen (next_menu mp.1) = true ∧ menu_isOpen (previous_menu mp.1) = true).
End menus.

Section menu_facts.
Context (nav : direction → navigation).
(** A menu with several options has a first one. *)
Context (Hnav : ∀ d, nm_hasMultiple (nav d) = true → ∃ o, o ∈ nm_options (nav d) ∧ getPrimaryNavigationOption (nav d) = Some o).

Lemma nav_ok_by d mp :
  menu_ok nav d (menu_of d mp.1) mp.2 →
  menu_ok nav (otherDirection d) (menu_of (otherDirection d) mp.1) mp.2 →
  (menu_isOpen (menu_of d mp.1) = true → menu_isOpen (menu_of (otherDirection d) mp.1) = false) → nav_ok nav mp.
Proof using Type. destruct mp as [m p], d; cbn; unfold nav_ok; cbn; intros ? ? H; split_and!; try done; intros [Ho1 Ho2]; rewrite H in *; done. Qed.

Lemma nav_ok_at d mp : nav_ok nav mp →
  menu_ok nav d (menu_of d mp.1) mp.2 ∧ menu_ok nav (otherDirection d) (menu_of (otherDirection d) mp.1) mp.2 ∧
  (menu_isOpen (menu_of d mp.1) = true → menu_isOpen (menu_of (otherDirection d) mp.1) = false).
Proof using Type.
  destruct mp as [m p], d; unfold nav_ok; cbn; intros (H1 & H2 & H3); split_and!; try done; intros E.
  - destruct (menu_isOpen (next_menu m)) eqn:E'; [|done]. by destruct H3.
  - destruct (menu_isOpen (previous_menu m)) eqn:E'; [|done]. by destruct H3.
Qed.

Lemma menu_of_on d f m : menu_of d (on_menu d f m) = f (menu_of d m).
Proof using Type. by destruct d. Qed.
Lemma menu_of_on_other d f m : menu_of (otherDirection d) (on_menu d f m) = menu_of (otherDirection d) m.
Proof using Type. by destruct d. Qed.
Lemma menu_of_other_on d f m : menu_of d (on_menu (otherDirection d) f m) = menu_of d m.
Proof using Type. by destruct d. Qed.
Lemma over_other d p : over d p = true → over (otherDirection d) p = false.
Proof using Type. destruct p as [|e|e]; cbn; [done|..]; destruct d, e; done. Qed.

Lemma closed_ok d m p : menu_isOpen m = false → menu_ok nav d m p.
Proof using Type. by intros H ?; rewrite H in *. Qed.

(** Menus that are both closed are fine. *)
Lemma both_closed_ok m p : (∀ d, menu_isOpen (menu_of d m) = false) → nav_ok nav (m, p).
Proof using Type. intros H. apply (nav_ok_by Next); cbn [fst snd]; [apply closed_ok, H..|intros _; apply H]. Qed.

Lemma settle_ok mp : nav_ok nav mp → nav_ok nav (settle mp).
Proof using Type.
  unfold settle. destruct mp as [m [|d|d]]; cbn [fst snd]; try done. intros H. destruct (menu_isOpen (menu_of d m)) eqn:E; [done|].
  destruct (nav_ok_at d _ H) as (_ & H2 & _). apply (nav_ok_by d); cbn [fst snd] in *; [by apply closed_ok| |by rewrite E].
  intros Ho. destruct (H2 Ho) as (Hm & Ht & Ha). split_and!; [done| |done]. rewrite Ht. by destruct d.
Qed.

Lemma navigate_ok m p i : nav_ok nav (m, p) → nav_ok nav (panel_onNavigateToNode m i, p).
Proof using Type.
  intros H. unfold panel_onNavigateToNode. destruct (i =s ""); [done|]. apply both_closed_ok. by intros [].
Qed.

(** A change of one menu only. *)
Lemma on_menu_ok d f m p p' :
  nav_ok nav (m, p) → (menu_ok nav d (menu_of d m) p → menu_ok nav d (f (menu_of d m)) p') →
  (menu_isOpen (f (menu_of d m)) = true → menu_isOpen (menu_of d m) = true) →
  over (otherDirection d) p' = over (otherDirection d) p → nav_ok nav (on_menu d f m, p').
Proof using Type.
  intros H Hf Ho Hp. destruct (nav_ok_at d _ H) as (H1 & H2 & H3). cbn [fst snd] in *.
  apply (nav_ok_by d); cbn [fst snd]; rewrite ?menu_of_on, ?menu_of_on_other; [auto| |auto].
  intros E. destruct (H2 E) as (? & ? & ?). rewrite Hp. done.
Qed.

Lemma prime_ok d m p : nav_ok nav (m, p) → nav_ok nav (primeNavActiveOption nav d m, p).
Proof using Hnav.
  intros H. apply on_menu_ok with (p := p); [done| |done|done]. intros Hm E. destruct (Hm E) as (H1 & H2 & _).
  split_and!; [done..|]. destruct (Hnav d H1) as (o & Ho & Hp). rewrite Hp. eauto.
Qed.

Lemma trigger_enter_ok d w m : nav_ok nav (m, Elsewhere) → nav_ok nav (onNavTriggerMouseEnter nav d w m, OnTrigger d).
Proof using Hnav.
  intros H. destruct (nav_ok_at d _ H) as (H1 & H2 & H3). cbn [fst snd] in *. unfold onNavTriggerMouseEnter.
  destruct (nm_hasMultiple (nav d)) eqn:Em; cbn [negb].
  - destruct (Hnav d Em) as (o & Ho & Hp). unfold primeNavActiveOption. rewrite Hp.
    apply (nav_ok_by d); cbn [fst snd]; destruct d; cbn; try done; intros _; (split_and!; [done| |by exists o]); done.
  - apply (nav_ok_by d); cbn [fst snd]; [intros E; destruct (H1 E); congruence| |done].
    intros E. destruct (H2 E) as (? & Ht & ?). split_and!; [done| |done]. rewrite Ht. by destruct d.
Qed.

Lemma nav_step_ok mp e : nav_ok nav mp → nav_allowed nav mp e → nav_ok nav (nav_step nav mp e).
Proof using Hnav.
  destruct mp as [m p]. intros H Ha. unfold nav_step. apply settle_ok. destruct e; cbn [nav_allowed fst snd] in *.
  - subst p. by apply trigger_enter_ok.
  - subst p. apply on_menu_ok with (p := OnTrigger d); [done| |done|by destruct d].
    intros Hm E. by destruct (Hm E) as (? & _ & ?).
  - destruct Ha as [-> Ho]. apply prime_ok. apply on_menu_ok with (p := Elsewhere); [done| |done|by destruct d].
    intros Hm E. destruct (Hm E) as (? & _ & ?). split_and!; [done| |done]. by destruct d.
  - destruct Ha as [-> Hk]. unfold onNavMenuMouseOver. destruct key as [k|]; [|done].
    destruct (_ || _); [done|]. apply on_menu_ok with (p := OnMenu d); [done| |done|done].
    intros Hm E. destruct (Hm E) as (? & ? & _). split_and!; [done..|].
    specialize (Hk k eq_refl). apply list_elem_of_fmap in Hk as (o & -> & Ho). eauto.
  - subst p. apply on_menu_ok with (p := OnMenu d); [done| |done|by destruct d].
    intros Hm E. by destruct (Hm E) as (? & _ & ?).
  - by apply prime_ok.
  - apply on_menu_ok with (p := p); [done|by intros _ ?|done|done].
  - unfold onPrimaryNavClick. destruct (getPrimaryNavigationOption _) as [o|] eqn:Eo; [|done]. apply navigate_ok.
    apply on_menu_ok with (p := p); [|by intros _ ?|done|done]. apply prime_ok.
    apply on_menu_ok with (p := p); [done| |done|done]. intros Hm E. by destruct (Hm E).
  - destruct Ha as [Hop Ho]. apply navigate_ok. apply on_menu_ok with (p := p); [done| |done|done].
    intros Hm E. destruct (Hm E) as (? & ? & _). split_and!; [done..|]. eauto.
  - unfold nav_timer_fires. destruct (menu_timer _); [|done]. apply on_menu_ok with (p := p); [done|by intros _ ?|done|done].
Qed.

Lemma nav_run_ok mp : nav_run nav mp → nav_ok nav mp.
Proof using Hnav. induction 1 as [s|mp e _ IH Ha]; [by apply both_closed_ok; intros []|by apply nav_step_ok]. Qed.
End menu_facts.

(** ** The options of a workflow *)

Section option_facts.
Context (reg : odoo_registry).

Lemma node_map_get ns i acc :
  keyed ns → NoDup (jkeys ns) →
  jget i (foldl (λ m n, mset (id_text n) n m) acc (node_to_ui <$> jvals ns)) =
  match jget i ns with Some n => Some (node_to_ui n) | None => jget i acc end.
Proof using Type.
  unfold jvals. revert acc. induction ns as [|[k n] ns IH]; intros acc Hk Hd; csimpl; [done|].
  apply keyed_cons in Hk as [Hn Hk]. apply NoDup_cons in Hd as [Hni Hd]. rewrite IH by done.
  unfold id_text, node_to_ui at 2. cbn [ui_id]. rewrite Hn. cbn [default from_option id]. rewrite jget_mset.
  destruct (bool_decide_reflect (i = k)) as [->|]; [|done].
  destruct (jget k ns) eqn:E; [|done]. by destruct Hni; apply elem_of_jkeys; eauto.
Qed.

Lemma shown_node_map s i : adapter_inv reg (st_adapter s) →
  jget i (node_map (state_nodes (st_adapter s))) = node_to_ui <$> jget i (nodes (ad_editor (st_adapter s))).
Proof using Type.
  intros Ha. pose proof (inv_keyed reg _ Ha) as Hk. destruct Ha as [_ [[Hd _ _ _ _] _ _] _ [-> _]].
  unfold node_map, getNodesForUI, getNodes. rewrite node_map_get by done. by destruct (jget i _).
Qed.

Definition shown_workflow (s : store) : option (list ui_node * list gconn) :=
  Some (state_nodes (st_adapter s), gconn_of_ui <$> state_connections (st_adapter s)).

Definition shown_structural (s : store) : list gconn :=
  getStructuralConnections (gconn_of_ui <$> state_connections (st_adapter s)).

(** What the option of a connection says. *)
Definition is_option_of (s : store) (d : direction) (c : gconn) (o : nav_option) : Prop :=
  ∃ n, jget (far_end d c) (nodes (ad_editor (st_adapter s))) = Some n ∧
    o = NavOption (gc_id c) (far_end d c) (getNodeDisplayName (node_to_ui n)) (getSocketLabel c).

(** The connections drawn are the editor's. *)
Lemma structural_shown s c :
  adapter_inv reg (st_adapter s) → c ∈ shown_structural s →
  gc_id c ≠ "" ∧ gc_source c ∈ jkeys (nodes (ad_editor (st_adapter s))) ∧
  gc_target c ∈ jkeys (nodes (ad_editor (st_adapter s))).
Proof using Type.
  intros Ha (Hc & _ & _)%elem_of_structural. apply elem_of_bfilter in Hc as [Hc _].
  destruct (ui_conns_inside reg (st_adapter s) c Ha Hc) as [H1 H2]. split; [|done].
  destruct Ha as [_ [[_ _ _ Hok _] _ _] _ [_ Es]]. rewrite Es in Hc. unfold getConnectionsForUI, getConnections in Hc.
  apply list_elem_of_fmap in Hc as (u & -> & (x & -> & Hx)%list_elem_of_fmap). cbn.
  destruct (Hok x Hx) as [-> _]. unfold generateId. by destruct (source x).
Qed.

Lemma nav_option_of_spec s d c :
  adapter_inv reg (st_adapter s) → c ∈ shown_structural s →
  ∃ o, nav_option_of (state_nodes (st_adapter s)) d c = Some o ∧ is_option_of s d c o.
Proof using Type.
  intros Ha Hc. destruct (structural_shown s c Ha Hc) as (Hi & Hs & Ht).
  assert (far_end d c ∈ jkeys (nodes (ad_editor (st_adapter s)))) as [n Hn]%elem_of_jkeys by by destruct d.
  pose proof Ha as [_ [[_ Hids _ _ _] _ _] _ _]. destruct (Hids _ _ Hn) as [Hid _].
  unfold nav_option_of. rewrite shown_node_map, Hn by done. cbn [fmap option_fmap option_map]. eexists. split; [done|]. exists n. split; [done|].
  unfold str_or at 1. rewrite bool_decide_false by done. cbn [ui_id node_to_ui]. by rewrite Hid.
Qed.

Lemma elem_of_options before s n d o :
  adapter_inv reg (st_adapter s) →
  o ∈ getNavigationOptions before (shown_workflow s) n d ↔
  ∃ c, c ∈ shown_structural s ∧ near_end d c = id_text n ∧ is_option_of s d c o.
Proof using Type.
  intros Ha. unfold getNavigationOptions, shown_workflow. fold (shown_structural s). rewrite sort_by_perm, list_elem_of_omap. split.
  - intros (c & [Hc Hn]%elem_of_bfilter & Ho). bsimpl. exists c.
    destruct (nav_option_of_spec s d c Ha Hc) as (o' & Ho' & ?). simplify_eq. exact (conj Hc (conj Hn H)).
  - intros (c & Hc & Hn & Ho). exists c. rewrite elem_of_bfilter, bool_decide_eq_true.
    destruct (nav_option_of_spec s d c Ha Hc) as (o' & -> & m' & Hm' & ->). destruct Ho as (m & Hm & ->). by simplify_eq.
Qed.

(** Each connection has an option of its own. *)
Lemma option_keys_distinct before s n d :
  adapter_inv reg (st_adapter s) → NoDup (nav_key <$> getNavigationOptions before (shown_workflow s) n d).
Proof using Type.
  intros Ha. unfold getNavigationOptions, shown_workflow. rewrite sort_by_perm. fold (shown_structural s).
  assert (NoDup (gc_id <$> shown_structural s)) as Hd.
  { unfold shown_structural, getStructuralConnections, normalizeConnections.
    do 2 apply bfilter_fmap_NoDup. destruct Ha as [_ [[_ _ _ _ Hcd] _ _] _ [_ ->]]. unfold getConnectionsForUI, getConnections.
    by rewrite <- !list_fmap_compose. }
  assert (∀ c, c ∈ shown_structural s → c ∈ shown_structural s) as Hin by done. revert Hd Hin.
  generalize (shown_structural s) at 1 2 4. intros l. induction l as [|c l IH]; intros Hd Hin; [constructor|].
  apply NoDup_cons in Hd as [Hni Hd]. assert (NoDup (nav_key <$> omap (nav_option_of (state_nodes (st_adapter s)) d)
    (bfilter (λ c, near_end d c =s id_text n) l))) as Hl by (apply IH; [done|intros; apply Hin; by right]).
  cbn [bfilter]. destruct (near_end d c =s id_text n); [|done]. csimpl.
  destruct (nav_option_of_spec s d c Ha (Hin c ltac:(left))) as (o & -> & m & _ & ->). csimpl.
  apply NoDup_cons. split; [|done]. intros (o' & E & (c' & [Hc' _]%elem_of_bfilter & Ho')%list_elem_of_omap)%list_elem_of_fmap.
  destruct (nav_option_of_spec s d c' Ha (Hin c' ltac:(by right))) as (o2 & E2 & m' & _ & ->). simplify_eq. cbn in E.
  destruct Hni. rewrite E. by apply list_elem_of_fmap_2.
Qed.

(** Choosing an option opens the panel of its node. *)
Lemma navigate_opens s i n :
  adapter_inv reg (st_adapter s) → canEdit s || isInExecutionView s = true →
  jget i (nodes (ad_editor (st_adapter s))) = Some n → dialog_wanted (onNavigateToNode s i) = Some i.
Proof using Type.
  intros Ha Hc Hn. pose proof Ha as [_ [[_ Hids _ _ _] _ _] _ _]. destruct (Hids _ _ Hn) as [_ Hi].
  unfold onNavigateToNode, onNodeOpenConfig. rewrite bool_decide_false by done.
  replace (negb (canEdit s) && negb (isInExecutionView s)) with false by (by destruct (canEdit s), (isInExecutionView s)).
  assert (∀ s', st_adapter s' = st_adapter s → shown_node s' i = Some (node_to_ui n)) as Hs.
  { intros s' E. unfold shown_node. rewrite E, (ui_lookup reg) by done. by rewrite Hn. }
  rewrite Hs by done. unfold dialog_wanted, configPanelNode, openPanel. cbn [bool_decide]. simpl.
  rewrite bool_decide_false by done. by rewrite Hs.
Qed.
End option_facts.

Lemma option_before_order before :
  (∀ x y, before x y = true → before y x = false) →
  (∀ x y z, before y x = false → before z y = false → before z x = false) →
  (∀ o p, option_before before o p = true → option_before before p o = false) ∧
  (∀ o p q, option_before before p o = false → option_before before q p = false → option_before before q o = false).
Proof.
  intros Ha Hn. unfold option_before. split.
  - intros o p. destruct (before (nav_title o) (nav_title p)) eqn:E; [by rewrite (Ha _ _ E)|].
    destruct (before (nav_title p) (nav_title o)) eqn:E'; [done|]. apply Ha.
  - intros o p q. destruct (before (nav_title p) (nav_title o)) eqn:E1; [done|].
    destruct (before (nav_title q) (nav_title p)) eqn:E2; [done|]. rewrite (Hn _ _ _ E1 E2).
    destruct (before (nav_title o) (nav_title q)) eqn:E3; [done|].
    destruct (before (nav_title o) (nav_title p)) eqn:E4.
    { intros _ _. exfalso. pose proof (Hn _ _ _ E2 E3). congruence. }
    destruct (before (nav_title p) (nav_title q)) eqn:E5; [|apply Hn].
    pose proof (Hn _ _ _ E3 E1). congruence.
Qed.

(** ** Properties *)

(** The menu of the panel of a node offers, for each structural connection at the
    node, the node at its other end, once and in the order of titles and sockets;
    choosing an option opens the panel of that node, from which the same
    connection leads back. *)
Theorem nav_options_exact reg before s i n d :
  odoo_ok reg → run_ok reg s → shown_node s i = Some n → canEdit s || isInExecutionView s = true →
  (∀ x y, before x y = true → before y x = false) →
  (∀ x y z, before y x = false → before z y = false → before z x = false) →
  let opts := getNavigationOptions before (shown_workflow s) n d in
  NoDup (nav_key <$> opts) ∧ sorted_by (option_before before) opts ∧
  (∀ o, o ∈ opts ↔ ∃ c, c ∈ shown_structural s ∧ near_end d c = i ∧ is_option_of s d c o) ∧
  ∀ o, o ∈ opts → ∃ m, shown_node s (nav_nodeId o) = Some m ∧
    dialog_wanted (onNavigateToNode s (nav_nodeId o)) = Some (nav_nodeId o) ∧
    ∃ o', o' ∈ getNavigationOptions before (shown_workflow s) m (otherDirection d) ∧
      nav_key o' = nav_key o ∧ nav_nodeId o' = i.
Proof.
  intros Hreg Hok Hn Hc Hasym Hntr opts. pose proof (run_ok_idle reg s Hok) as (Ha & _ & _).
  destruct (option_before_order before Hasym Hntr) as [Ho1 Ho2].
  assert (∀ j m, shown_node s j = Some m → id_text m = j ∧ ∃ x, jget j (nodes (ad_editor (st_adapter s))) = Some x ∧ m = node_to_ui x) as Hid.
  { intros j m Hm. unfold shown_node in Hm. rewrite (ui_lookup reg) in Hm by done.
    destruct (jget j _) as [x|] eqn:E; [|done]. simplify_eq/=. pose proof Ha as [_ [[_ Hids _ _ _] _ _] _ _].
    destruct (Hids _ _ E) as [Hx _]. split; [|by exists x]. unfold id_text, node_to_ui. cbn [ui_id]. by rewrite Hx. }
  destruct (Hid i n Hn) as [En (x & Hx & ->)]. split_and!.
  - by apply (option_keys_distinct reg).
  - by apply sort_by_sorted.
  - intros o. unfold opts. by rewrite (elem_of_options reg), En.
  - intros o Ho. unfold opts in Ho. rewrite (elem_of_options reg), En in Ho by done. destruct Ho as (c & Hcs & Hne & y & Hy & ->). cbn [nav_nodeId nav_key].
    assert (shown_node s (far_end d c) = Some (node_to_ui y)) as Hm by (unfold shown_node; by rewrite (ui_lookup reg), Hy).
    exists (node_to_ui y). split; [done|]. split; [by eapply navigate_opens|].
    exists (NavOption (gc_id c) i (getNodeDisplayName (node_to_ui x)) (getSocketLabel c)). split; [|done].
    rewrite (elem_of_options reg) by done. exists c. split; [done|]. destruct (Hid _ _ Hm) as [-> _].
    split; [by destruct d|]. exists x. replace (far_end (otherDirection d) c) with i by (by destruct d). done.
Qed.

(** A witness of the order of strings: their lengths. *)
Definition shorter (a b : string) : bool := (String.length a <? String.length b)%nat.

Lemma nav_options_exact_witness :
  ∃ n, shown_node store_demo "n_1" = Some n ∧
  NoDup (nav_key <$> getNavigationOptions shorter (shown_workflow store_demo) n Next) ∧
  (nav_nodeId <$> getNavigationOptions shorter (shown_workflow store_demo) n Next) = ["n_2"].
Proof.
  assert (∃ n, shown_node store_demo "n_1" = Some n) as [n Hn].
  { eexists. vm_compute. reflexivity. }
  exists n. split; [exact Hn|]. split.
  - refine (proj1 (nav_options_exact builtin_registry shorter store_demo "n_1" n Next builtin_registry_ok store_demo_ok Hn eq_refl _ _));
      unfold shorter; intros; rewrite ?Nat.ltb_lt, ?Nat.ltb_ge in *; lia.
  - revert Hn. vm_compute. intros [= <-]. reflexivity.
Defined.

Lemma model_has_primary before w n d :
  nm_hasMultiple (getNavigationModel before w n d) = true →
  ∃ o, o ∈ nm_options (getNavigationModel before w n d) ∧ getPrimaryNavigationOption (getNavigationModel before w n d) = Some o.
Proof.
  unfold getNavigationModel, getPrimaryNavigationOption. cbn [nm_hasMultiple nm_options nm_primary].
  destruct (getNavigationOptions before w n d) as [|o [|p l]]; cbn; [done..|]. intros _. exists o. split; [left|done].
Qed.

(** The two menus follow the pointer: at most one is open, one that is open has an
    option of its own marked, its timer is pending exactly when the pointer is
    neither on the button nor on the menu, and the timer closes it. *)
Theorem nav_menus_follow_pointer before w n m p :
  nav_run (getNavigationModel before w n) (m, p) →
  ¬ (menu_isOpen (previous_menu m) = true ∧ menu_isOpen (next_menu m) = true) ∧
  ∀ d, menu_isOpen (menu_of d m) = true →
    (∃ o, o ∈ getNavigationOptions before w n d ∧ isNavOptionActive (menu_of d m) o = true) ∧
    menu_timer (menu_of d m) = negb (over d p) ∧
    (over d p = false → menu_isOpen (menu_of d (nav_step (getNavigationModel before w n) (m, p) (CloseTimer d)).1) = false).
Proof.
  intros Hr. pose proof (nav_run_ok _ (model_has_primary before w n) _ Hr) as Hok.
  split. { destruct Hok as (_ & _ & H). cbn [fst] in H. tauto. }
  intros d Hd. destruct (nav_ok_at _ d _ Hok) as (H & _ & _). destruct (H Hd) as (_ & Ht & o & Ho & Hk). split_and!; [|done|].
  - exists o. split; [done|]. unfold isNavOptionActive. by apply bool_decide_eq_true.
  - intros Hp. cbn [nav_step]. unfold nav_timer_fires. cbn [fst snd] in Ht. rewrite Ht, Hp. cbn [negb].
    unfold settle. cbn [fst snd]. destruct p as [|e|e]; cbn [fst]; [by rewrite menu_of_on..|].
    destruct (menu_isOpen (menu_of e _)); cbn [fst]; by rewrite menu_of_on.
Qed.

Definition nav_demo_workflow : option (list ui_node * list gconn) :=
  let nd i := UiNode (Some i) "http" i false 0%Qc 0%Qc "" "" [] [] false in
  Some (nd <$> ["a"; "b"; "c"], [gc "1" "a" "b"; gc "2" "a" "c"]).
Definition nav_demo_model : direction → navigation :=
  getNavigationModel shorter nav_demo_workflow (UiNode (Some "a") "http" "a" false 0%Qc 0%Qc "" "" [] [] false).

Lemma nav_menus_follow_pointer_witness :
  let mp := nav_step nav_demo_model (nav_step nav_demo_model (new_nav_menus store_demo, Elsewhere) (TriggerEnter Next 100)) (TriggerLeave Next) in
  menu_isOpen (menu_of Next mp.1) = true ∧
  menu_isOpen (menu_of Next (nav_step nav_demo_model mp (CloseTimer Next)).1) = false.
Proof.
  intros mp. assert (menu_isOpen (menu_of Next mp.1) = true) as Ho by (vm_compute; reflexivity). split; [exact Ho|].
  assert (nav_run nav_demo_model mp) as Hr.
  { apply nr_step; [apply nr_step; [apply nr_start|reflexivity]|reflexivity]. }
  destruct (nav_menus_follow_pointer shorter nav_demo_workflow
    (UiNode (Some "a") "http" "a" false 0%Qc 0%Qc "" "" [] [] false) mp.1 mp.2 Hr) as [_ H].
  apply H; [exact Ho|vm_compute; reflexivity].
Defined.
