(* ===== verification/PanelTexts.v ===== *)
(** * What the configuration panel says (components/node_config_panel.js)

    Its texts: moments and durations, the description and the hint of a node, the
    facts about a connector and its last call, the binding of an endpoint; the tabs
    of the panel, what it shows without data, and which entry of an open menu of
    neighbours gets the focus; the box that shows a URL
    (primitives/url_box/url_box.js). *)

From S2P Require Import Prelude JsMap JsValue JsNumber JsString Expression Adapter Store PanelControls PanelResults ConfigPanel PanelBackend PanelNav.

(** ** Moments and durations *)

Section texts.
(** How numbers are printed and read, and what the browser makes of a date. *)
Context (num_toString : num → string) (num_ofString : string → option num) (localized : string → option string).

(** [formatDateTime(value)] *)
Definition formatDateTime (v : jsval) : string :=
  match v with
  | JStr s => if s =s "" then "Never" else default s (localized s)
  | _ => "Never"
  end.

(** [Number(v)]; no result is [NaN]. *)
Definition to_Number (v : jsval) : option num :=
  match v with
  | JUndef => None
  | JNull => Some 0%Qc
  | JBool b => Some (num_of_Z (if b then 1 else 0))
  | JNum n => Some n
  | JStr s => num_ofString s
  | _ => num_ofString (js_String num_toString v)
  end.

(** Two decimals of a number of hundredths. *)
Definition two_digits (n : Z) : string := (if (n <? 10)%Z then "0" else "") +:+ pretty n.
Definition hundredths (n : Z) : string := pretty (n / 100)%Z +:+ "." +:+ two_digits (n mod 100).

(** [x.toFixed(2)] of a number that is not negative. *)
Definition toFixed2 (x : num) : string :=
  if num_lt x (num_of_Z (10 ^ 21)) then hundredths (num_round (x * num_of_Z 100)%Qc) else num_toString x.

(** [formatDurationMs(value)] *)
Definition formatDurationMs (v : jsval) : string :=
  if is_nullish v || strict_eq v (JBool false) || strict_eq v (JStr "") then "—"
  else match to_Number v with
       | None => js_String num_toString v
       | Some n => if num_lt n (num_of_Z 1000) then num_toString n +:+ " ms"
                   else toFixed2 (n / num_of_Z 1000)%Qc +:+ " s"
       end.

(** ** Descriptions and hints *)

Definition PANEL_TOOLBAR_DESCRIPTION_FALLBACKS : list (string * string) :=
  [("http", "Make HTTP API calls to external services."); ("loop", "Iterate over array items in batches.");
   ("if", "Route data based on condition."); ("switch", "Route data based on matching cases.");
   ("noop", "Placeholder node."); ("code", "Execute Python code and return the payload for the next step.");
   ("validation", "Validate data against rules before branching.");
   ("set_data", "Set or transform data fields before the next node.");
   ("variable", "Set or retrieve workflow variables."); ("record_operation", "Search, create, write, or delete Odoo records.")].

Definition PANEL_TOOLBAR_TIPS_BY_NODE_TYPE : list (string * string) :=
  [("http", "Drag fields from Input into URL, params, headers, or body to map previous node data.");
   ("loop", "Pick an array from Input, then run the node to verify batch size and loop output.");
   ("if", "Use Input data in {{ ... }} expressions so each branch decision is easy to inspect.");
   ("switch", "Match one Input value against clear cases so each route stays predictable.");
   ("code", "Inspect Input on the left, then return only the JSON you want to pass onward.");
   ("validation", "Use Input data to define the rules, then inspect valid and invalid outputs after each run.");
   ("set_data", "Drag & drop keys from Input into mapping rows to reshape data from previous nodes.");
   ("variable", "Use expressions to read Input or _vars before writing the next workflow variable value.");
   ("record_operation", "Drag fields from Input into Domain, IDs, or Values to target records from previous nodes.")].

(** [nodeParameterDescription], of the description among the props. *)
Definition nodeParameterDescription (description : jsval) (nodeType : string) : string :=
  let described := trim (str_of description) in
  if negb (described =s "") then described
  else default "Configure this node and map the data you want to pass to the next step."
         (jget nodeType PANEL_TOOLBAR_DESCRIPTION_FALLBACKS).

(** [visibleToolbarControls] *)
Definition visibleToolbarControls (fetched : option (list model_meta)) (suggestions : list jsval) (p : config_panel) : list jsobj :=
  bfilter (visible (cp_controlValues p)) (getControls fetched suggestions p).

(** [panelLayoutSummary] *)
Definition panelLayoutSummary (p : config_panel) : string :=
  if negb (showInputColumn p) && negb (showOutputColumn p)
  then "Input and output side panels are hidden. Toggle them back on whenever you need more context."
  else if negb (hasNodeExecutionData (pv_execution (cp_view p)) (cp_nodeId p))
  then "Keep the editor focused on input + parameters. Output auto-opens after you run the node, or you can reveal it manually now."
  else if negb (showOutputColumn p)
  then "Latest output is available but currently tucked away. Reveal it whenever you want to compare inputs and results."
  else "Use the side panels to compare incoming data, configuration, and output without leaving the editor.".

(** [nodeParameterTip] *)
Definition nodeParameterTip (fetched : option (list model_meta)) (suggestions : list jsval) (p : config_panel) : string :=
  if negb (showInputColumn p) then "Turn Input back on to drag data from previous nodes into this step."
  else match jget (ui_type (cp_node p)) PANEL_TOOLBAR_TIPS_BY_NODE_TYPE with
       | Some tip => tip
       | None =>
           let has t := existsb (λ c, control_type c =s t) (visibleToolbarControls fetched suggestions p) in
           if existsb has ["field_values"; "keyvalue"; "query_params"; "auth"; "body_type"]
           then "Drag & drop keys from Input into mapping fields to reuse data from previous nodes."
           else if has "domain" then "Drag fields from Input into the filter, or switch modes to build the domain faster."
           else if has "code" then "Use Input as context and return only the payload you want to send to the next node."
           else if existsb has ["expression"; "text"]
           then "Use {{ ... }} expressions and drag fields from Input to reference previous node data."
           else panelLayoutSummary p
       end.

(** ** The last run *)

(** [executionStatusLabel] *)
Definition executionStatusLabel (p : panel_view) : string :=
  if truthy (pv_execution p) && strict_eq (prop (pv_execution p) "status") (JStr "failed")
  then "Error: " +:+ js_String num_toString (js_or (prop (pv_execution p) "error") (JStr "Execution failed"))
  else match executionNodeResult p with
       | Some r => if truthy (prop r "error_message") then "Error: " +:+ js_String num_toString (prop r "error_message") else ""
       | None => ""
       end.

(** [executionOutputJson], given how values are printed. *)
Definition executionOutputJson (stringify : jsval → string) (p : panel_view) : string :=
  match executionNodeResult p with
  | Some r => match prop r "output_data" with JUndef => "" | v => stringify v end
  | None => ""
  end.

(** ** Connectors *)

(** [isEndpointDerivedNode], [_isEndpointDerivedNode(node)]: of the configuration
    that the object of the node carries. *)
Definition isEndpointDerivedNode (config : jsval) (nodeType : string) : bool :=
  strict_eq (prop config "_runtime_node_type") (JStr "connector_request") && negb (nodeType =s "connector_request").

(** [endpointBindingSummary]: group, name and description. *)
Definition endpointBindingSummary (backendTypes : list jsval) (config : jsval) (nodeType : string) : option (jsval * jsval * jsval) :=
  if negb (isEndpointDerivedNode config nodeType) then None
  else match find_first (λ t, strict_eq (prop t "node_type") (JStr nodeType)) backendTypes with
       | Some t => Some (js_or (prop t "group") (JStr ""), js_or (prop t "name") (JStr nodeType), js_or (prop t "description") (JStr ""))
       | None => Some (JStr "", JStr nodeType, JStr "")
       end.

Record fact := Fact { fa_key : string; fa_label : string; fa_value : jsval; fa_meta : jsval }.

(** [`${o.name}${o.code ? ` (${o.code})` : ""}`], or a placeholder *)
Definition named_code (o : jsval) (placeholder : string) : jsval :=
  if truthy o
  then JStr (js_String num_toString (prop o "name")
             +:+ if truthy (prop o "code") then " (" +:+ js_String num_toString (prop o "code") +:+ ")" else "")
  else JStr placeholder.

(** [connectorBindingFacts] *)
Definition connectorBindingFacts (p : backend_panel) : list fact :=
  if negb (isConnectorRequestNode p) then []
  else
    let b := connectorBackendState p in
    let connector := prop b "connector" in
    let endpoint := prop b "endpoint" in
    let authProfile := prop b "auth_profile" in
    [Fact "workspace" "Workflow Workspace" (named_code (prop b "workspace") "No workspace assigned") (JStr "");
     Fact "connector" "Connector" (named_code connector "Not linked yet")
       (JStr (if truthy connector
              then join " • " (js_String num_toString <$> bfilter truthy [prop connector "provider_key"; prop connector "environment"])
              else ""));
     Fact "endpoint" "Endpoint" (named_code endpoint "No endpoint preset")
       (JStr (if truthy endpoint && truthy (prop endpoint "method")
              then js_String num_toString (prop endpoint "method")
                   +:+ (if truthy (prop endpoint "path") then " • " +:+ js_String num_toString (prop endpoint "path") else "")
              else ""));
     Fact "auth" "Auth Profile" (if truthy authProfile then prop authProfile "name" else JStr "Connector default / none")
       (if truthy authProfile && truthy (prop authProfile "auth_type") then prop authProfile "auth_type" else JStr "");
     Fact "operation" "Operation Code"
       (js_or (js_or (prop b "operation_code") (oprop (cp_controlValues (bp_panel p)) "operation_code")) (JStr "Not set")) (JStr "")].

(** [connectorRuntimeFacts] *)
Definition connectorRuntimeFacts (p : backend_panel) : list fact :=
  if negb (isConnectorRequestNode p) then []
  else
    let b := connectorBackendState p in
    let status := prop b "last_status_code" in
    [Fact "status" "Last Status"
       (JStr (if truthy status || strict_eq status (JInt 0) then js_String num_toString status else "Never run"))
       (JStr (if truthy (prop b "last_run_at") then formatDateTime (prop b "last_run_at") else ""));
     Fact "duration" "Last Duration" (JStr (formatDurationMs (prop b "last_duration_ms"))) (JStr "")].

(** [connectorWarnings], [connectorBindingStatusLabel], [connectorBindingStatusClass] *)
Definition connectorWarnings (p : backend_panel) : list jsval :=
  if truthy (connectorPanelData p) then as_array (prop (connectorPanelData p) "warnings") else [].
Definition connectorBindingStatusLabel (p : backend_panel) : string :=
  if negb (isConnectorRequestNode p) then "" else if truthy (prop (connectorBackendState p) "active") then "Bound" else "Inactive".
Definition connectorBindingStatusClass (p : backend_panel) : string :=
  if truthy (prop (connectorBackendState p) "active") then "is-active" else "is-inactive".

(** [triggerHeaderStatusClass], [lastTestTriggerLabel] *)
Definition triggerHeaderStatusClass (p : backend_panel) : string :=
  if truthy (prop (backendState p) "active") then "is-active" else "is-inactive".
Definition lastTestTriggerLabel (p : backend_panel) : string :=
  if truthy (prop (backendState p) "webhook_last_test_triggered")
  then formatDateTime (prop (backendState p) "webhook_last_test_triggered") else "No test payload received yet".
End texts.

(** ** Frame and tabs *)

(** [tabDefs], [webhookUrlTabs]: id, label and icon. *)
Definition tabDefs : list (string * string * string) :=
  [("parameters", "Parameters", "fa-sliders"); ("settings", "Settings", "fa-cog")].
Definition webhookUrlTabs : list (string * string * string) :=
  [("production", "Production", "fa-link"); ("test", "Test", "fa-flask")].

(** [isProductionWebhookTab], [isTestWebhookTab] *)
Definition isProductionWebhookTab (p : backend_panel) : bool := activeWebhookTab p =s "production".
Definition isTestWebhookTab (p : backend_panel) : bool := activeWebhookTab p =s "test".

(** [triggerGroupedControls] *)
Definition triggerGroupedControls (fetched : option (list model_meta)) (p : backend_panel) : list control_group :=
  if negb (is_trigger p) then []
  else groupedControls (bp_type p) (cp_controlValues (bp_panel p)) (getControls fetched (triggerFieldSuggestions p) (bp_panel p)).

(** [canEditNodeTitle], [nodeNameInputValue], [nodeIcon] *)
Definition canEditNodeTitle (p : panel_view) : bool := negb (isExecutionView p).
Definition nodeIcon (n : ui_node) : string := if ui_icon n =s "" then "fa-cube" else ui_icon n.

(** [showHeaderExecute], [showHeaderRail] *)
Definition showHeaderExecute (p : panel_view) : bool := negb (isExecutionView p) && negb (isTriggerNode p).
Definition showHeaderRail (has_onNavigateToNode : bool) (p : panel_view) : bool := showHeaderExecute p || has_onNavigateToNode.

(** [previousNavigation], [nextNavigation], of the prop. *)
Definition no_navigation (d : direction) : navigation :=
  match d with
  | Previous => Navigation "Previous" false false None [] "No previous node" "This node has no incoming connections"
  | Next => Navigation "Next" false false None [] "No next node" "This node has no outgoing connections"
  end.
Definition given_navigation (d : direction) (given : option navigation) : navigation := default (no_navigation d) given.

(** [getNavItemAttrs(direction, option)], [getNavItemClass(direction, option)] *)
Definition getNavItemAttrs (d : direction) (o : option nav_option) : list (string * string) :=
  [("data-nav-direction", direction_name d); ("data-nav-key", match o with Some o => nav_key o | None => "" end)].
Definition getNavItemClass (m : menu) (o : nav_option) : string :=
  join " " ("ncp-nav-dd-item" :: if isNavOptionActive m o then ["is-active"] else []).

(** The entries of the open menu in the page, by the attribute [data-nav-key]. *)
Definition findNavItemByKey (items : list string) (key : string) : option nat := index_of key items.

(** [_findActiveNavItem], [_findPrimaryNavItem] and the entry [_focusActiveNavItem]
    focuses. *)
Definition findActiveNavItem (m : menu) (items : list string) : option nat :=
  match navActiveOptionKey m with
  | Some key => if key =s "" then None else findNavItemByKey items key
  | None => None
  end.
Definition findPrimaryNavItem (n : navigation) (items : list string) : option nat :=
  match getPrimaryNavigationOption n with Some o => findNavItemByKey items (nav_key o) | None => None end.
Definition focusActiveNavItem (n : navigation) (m : menu) (items : list string) : option nat :=
  match findActiveNavItem m items with Some i => Some i | None => findPrimaryNavItem n items end.

(** [onRecordRefCachePatch(patch)] *)
Definition onRecordRefCachePatch (cache patch : jsval) : jsval :=
  if negb (truthy patch) || negb (js_typeof patch =s "object") then cache
  else JObj (ospread (ospread [] (entries (js_or cache (JObj [])))) (entries patch)).

(** ** Properties *)

(** *** Durations *)

Lemma two_digits_length n : (0 ≤ n < 100)%Z → String.length (two_digits n) = 2%nat.
Proof.
  intros H. assert (∃ k, (k < 100)%nat ∧ n = Z.of_nat k) as (k & Hk & ->) by (exists (Z.to_nat n); lia).
  do 100 (destruct k as [|k]; [vm_compute; reflexivity|]). lia.
Qed.

(** Durations of a second or more are shown in seconds, rounded to the nearest
    hundredth: within five milliseconds of the value, and never below one second. *)
Theorem duration_text_close num_toString num_ofString n :
  (num_of_Z 1000 ≤ n)%Qc → (n < num_of_Z (10 ^ 24))%Qc →
  ∃ h, formatDurationMs num_toString num_ofString (JNum n) = hundredths h +:+ " s"
    ∧ (num_of_Z (10 * h) ≤ n + num_of_Z 5)%Qc ∧ (n < num_of_Z (10 * h) + num_of_Z 5)%Qc ∧ (100 ≤ h)%Z.
Proof.
  intros H1 H2. set (q := (n / num_of_Z 1000)%Qc).
  assert (q * num_of_Z 1000 = n)%Qc as Hq by (apply num_div_mul; done).
  exists (num_round (q * num_of_Z 100)%Qc). destruct (num_round_spec (q * num_of_Z 100)%Qc) as [H3 H4].
  set (h := num_round _) in *.
  assert (num_of_Z (10 * h) = num_of_Z 10 * num_of_Z h)%Qc as E.
  { unfold num_of_Z. apply Qc_is_canon. rewrite this_mult, !this_Q2Qc. by rewrite QArith_base.inject_Z_mult. }
  split; [|split; [|split]].
  - unfold formatDurationMs, to_Number. cbn [is_nullish strict_eq orb].
    replace (num_lt n (num_of_Z 1000)) with false by (symmetry; by apply num_lt_false).
    fold q. unfold toFixed2. replace (num_lt q (num_of_Z (10 ^ 21))) with true; [done|].
    symmetry. apply num_lt_true. clear -H2 Hq. rewrite <- Hq in H2.
    change (10 ^ 24)%Z with 1000000000000000000000000%Z in H2. change (10 ^ 21)%Z with 1000000000000000000000%Z. num_lra.
  - rewrite E. clearbody h. clearbody q. subst n. num_lra.
  - rewrite E. clearbody h. clearbody q. subst n. num_lra.
  - destruct (Z.le_gt_cases 100 h) as [|Hgt]; [done|]. exfalso.
    pose proof (num_of_Z_le (h + 1) 100 ltac:(lia)) as Hle. rewrite num_of_Z_add in Hle.
    change (num_of_Z 1) with 1%Qc in Hle. clearbody h. clearbody q. subst n. num_lra.
Qed.

(** *** What is said of a run *)

(** There is a message exactly when the status is an error. *)
Theorem status_label_iff_error num_toString p :
  executionStatusLabel num_toString p ≠ "" ↔ executionStatus p = "error".
Proof.
  unfold executionStatusLabel, executionStatus. destruct (_ && _); [done|].
  destruct (executionNodeResult p) as [r|]; [|done]. by destruct (truthy (prop r "error_message")).
Qed.

(** *** Connectors *)

(** Without an answer of the backend the facts of a connector are the placeholders,
    save for the operation code, which the node itself may have. *)
Theorem facts_without_backend num_toString num_ofString localized p :
  isConnectorRequestNode p = true → truthy (connectorPanelData p) = false →
  fa_value <$> connectorBindingFacts num_toString p
  = [JStr "No workspace assigned"; JStr "Not linked yet"; JStr "No endpoint preset"; JStr "Connector default / none";
     js_or (oprop (cp_controlValues (bp_panel p)) "operation_code") (JStr "Not set")]
  ∧ fa_value <$> connectorRuntimeFacts num_toString num_ofString localized p = [JStr "Never run"; JStr "—"]
  ∧ connectorBindingStatusLabel p = "Inactive" ∧ connectorHeaderSummary p = "" ∧ connectorWarnings p = [].
Proof.
  intros Hc Hd. unfold connectorBindingFacts, connectorRuntimeFacts, connectorBindingStatusLabel, connectorHeaderSummary,
    connectorWarnings, connectorBackendState. rewrite Hc, Hd. cbn. by unfold js_or.
Qed.

(** The node the panel is given is an object of the canvas, which carries no
    configuration: the sign of an endpoint is never shown. *)
Theorem endpoint_sign_never_shown backendTypes n :
  isEndpointDerivedNode (JObj (object_config n)) (ui_type n) = false
  ∧ endpointBindingSummary backendTypes (JObj (object_config n)) (ui_type n) = None.
Proof. done. Qed.

(** *** The menu of neighbours *)

Lemma index_of_elem key items : key ∈ items → ∃ i, index_of key items = Some i ∧ items !! i = Some key.
Proof.
  induction items as [|x items IH]; intros Hin; [by apply not_elem_of_nil in Hin|]. cbn.
  case_bool_decide as Hx; [exists 0%nat; by subst|].
  destruct IH as (i & -> & Hi); [by apply elem_of_cons in Hin as [->|]|]. by exists (S i).
Qed.

(** When a menu opens, the entry that is marked active gets the focus: the entries
    are the options, one of which is active. *)
Theorem focus_on_active n m o :
  navActiveOptionKey m = Some (nav_key o) → nav_key o ≠ "" → o ∈ nm_options n →
  ∃ i o', focusActiveNavItem n m (nav_key <$> nm_options n) = Some i ∧ nm_options n !! i = Some o'
    ∧ nav_key o' = nav_key o ∧ getNavItemClass m o' = "ncp-nav-dd-item is-active".
Proof.
  intros Hm Hne Ho. destruct (index_of_elem (nav_key o) (nav_key <$> nm_options n)) as (i & Hi & Hat).
  { apply list_elem_of_fmap. by exists o. }
  rewrite list_lookup_fmap in Hat. destruct (nm_options n !! i) as [o'|] eqn:E; [|done]. cbn in Hat. simplify_eq.
  exists i, o'. unfold focusActiveNavItem, findActiveNavItem, findNavItemByKey. rewrite Hm, bool_decide_false by done.
  rewrite Hi. split_and!; [done|done|congruence|]. unfold getNavItemClass, isNavOptionActive. rewrite Hm, bool_decide_true by congruence. done.
Qed.

(** Without an active entry it is the primary one, when it is in the menu. *)
Theorem focus_on_primary n m o :
  navActiveOptionKey m = None → getPrimaryNavigationOption n = Some o → o ∈ nm_options n →
  ∃ i o', focusActiveNavItem n m (nav_key <$> nm_options n) = Some i ∧ nm_options n !! i = Some o' ∧ nav_key o' = nav_key o.
Proof.
  intros Hm Hp Ho. destruct (index_of_elem (nav_key o) (nav_key <$> nm_options n)) as (i & Hi & Hat).
  { apply list_elem_of_fmap. by exists o. }
  rewrite list_lookup_fmap in Hat. destruct (nm_options n !! i) as [o'|] eqn:E; [|done]. cbn in Hat. simplify_eq.
  exists i, o'. unfold focusActiveNavItem, findActiveNavItem, findPrimaryNavItem, findNavItemByKey. rewrite Hm, Hp, Hi. done.
Qed.

(** ** The box of a URL (components/primitives/url_box/url_box.js) *)

(** A piece of the URL; a parameter has a name. *)
Record url_segment := UrlSegment { us_text : string; us_param : option string }.

Definition brace_open : ascii := ascii_of_nat 123.
Definition brace_close : ascii := ascii_of_nat 125.

(** A match of the pattern at the start: a name in braces, and what follows. *)
Definition param_at (s : string) : option (string * string) :=
  match s with
  | String c s =>
      if bool_decide (c = brace_open) then
        let '(name, rest) := span word_char s in
        match rest with
        | String c rest => if bool_decide (c = brace_close) && negb (name =s "") then Some (name, rest) else None
        | EmptyString => None
        end
      else None
  | EmptyString => None
  end.

Definition plain (text : string) : list url_segment := if text =s "" then [] else [UrlSegment text None].
Definition param_text (name : string) : string := String brace_open (name +:+ String brace_close "").

(** The loop over the matches; [acc] is the text since the last one. *)
Fixpoint url_loop (fuel : nat) (acc : string) (url : string) : list url_segment :=
  match fuel, url with
  | O, _ => plain (acc +:+ url)
  | S _, EmptyString => plain acc
  | S fuel, String c rest =>
      match param_at url with
      | Some (name, rest) => plain acc ++ UrlSegment (param_text name) (Some name) :: url_loop fuel "" rest
      | None => url_loop fuel (acc +:+ String c "") rest
      end
  end.

(** [displayValue], [hasValue], [toneClass] *)
Definition displayValue (value : jsval) (placeholder : string) : string :=
  match value with JStr s => if trim s =s "" then placeholder else s | _ => placeholder end.
Definition hasValue (value : jsval) : bool := match value with JStr s => negb (trim s =s "") | _ => false end.
Definition toneClass (tone : string) : string := if tone =s "" then "" else "wf-url-box--" +:+ tone.

(** [segments] of the value displayed *)
Definition url_segments (url : string) : list url_segment :=
  if url =s "" then [UrlSegment "" None] else url_loop (String.length url) "" url.

(** [hasPathParams]: a match at any place. *)
Fixpoint hasPathParams (url : string) : bool :=
  match param_at url with
  | Some _ => true
  | None => match url with String _ rest => hasPathParams rest | EmptyString => false end
  end.

(** [onCopyClick()]: what the parent is asked to copy, and under which label. *)
Definition onCopyClick (value : jsval) (readonly has_onCopy : bool) (label : string) : option (jsval * string) :=
  if negb (hasValue value) || readonly || negb has_onCopy then None
  else Some (value, if label =s "" then "URL" else label).

(** The text of some pieces. *)
Definition url_text (l : list url_segment) : string := foldr (λ s t, us_text s +:+ t) "" l.

Lemma span_split f s a b : span f s = (a, b) → s = a +:+ b ∧ string_all f a = true.
Proof.
  revert a b. induction s as [|c s IH]; intros a b; cbn; [by intros [= <- <-]|].
  destruct (f c) eqn:E; [|by intros [= <- <-]]. destruct (span f s) as [a' b']. intros [= <- <-].
  destruct (IH a' b' eq_refl) as [-> Ha]. split; [done|]. cbn. by rewrite E.
Qed.

Lemma param_text_app name rest : param_text name +:+ rest = String brace_open (name +:+ String brace_close rest).
Proof.
  change (String brace_open ((name +:+ String brace_close "") +:+ rest) = String brace_open (name +:+ String brace_close rest)).
  by rewrite str_app_assoc.
Qed.

(** The pattern matches a name in braces. *)
Lemma param_at_spec s name rest :
  param_at s = Some (name, rest) ↔ s = param_text name +:+ rest ∧ name ≠ "" ∧ string_all word_char name = true.
Proof.
  split.
  - destruct s as [|c s]; [done|]. cbn [param_at]. case_bool_decide as Hc; [|done].
    destruct (span word_char s) as [a b] eqn:Es. apply span_split in Es as [-> Ha]. destruct b as [|d b]; [done|].
    case_bool_decide as Hd; cbn [andb]; [|done]. case_bool_decide as Hn; cbn [negb]; [done|]. intros [= <- <-]. subst.
    by rewrite param_text_app.
  - intros (-> & Hn & Ha). rewrite param_text_app. cbn [param_at]. rewrite bool_decide_true by done.
    rewrite span_app by done. rewrite bool_decide_true by done. by rewrite bool_decide_false by done.
Qed.

Lemma param_at_app s name rest more : param_at s = Some (name, rest) → param_at (s +:+ more) = Some (name, rest +:+ more).
Proof. rewrite !param_at_spec. intros (-> & ? & ?). by rewrite str_app_assoc. Qed.

(** No match begins in a text that is followed by another. *)
Fixpoint clean (text url : string) : Prop :=
  match text with
  | EmptyString => True
  | String _ text' => param_at (text +:+ url) = None ∧ clean text' url
  end.

Lemma clean_snoc text c url : clean text (String c url) → param_at (String c url) = None → clean (text +:+ String c "") url.
Proof.
  intros H Hc. induction text as [|d text IH]; [done|]. destruct H as [Hd H]. split; [|by apply IH].
  change (String d text +:+ String c "") with (String d (text +:+ String c "")).
  change (String d (text +:+ String c "") +:+ url) with (String d ((text +:+ String c "") +:+ url)).
  by rewrite str_app_assoc.
Qed.

Lemma clean_none text url : clean text url → hasPathParams text = false.
Proof.
  induction text as [|d text IH]; [done|]. intros [Hd H]. cbn [hasPathParams].
  destruct (param_at (String d text)) as [[n r]|] eqn:E; [|by apply IH]. by rewrite (param_at_app _ _ _ url E) in Hd.
Qed.

Definition segment_ok (s : url_segment) : Prop :=
  match us_param s with
  | Some name => us_text s = param_text name ∧ name ≠ "" ∧ string_all word_char name = true
  | None => us_text s ≠ "" ∧ hasPathParams (us_text s) = false
  end.
Definition is_param (s : url_segment) : bool := if us_param s is Some _ then true else false.

Lemma plain_ok text url : clean text url → url_text (plain text) = text ∧ Forall segment_ok (plain text) ∧ existsb is_param (plain text) = false.
Proof.
  intros H. unfold plain. case_bool_decide as E; [by subst|]. cbn. rewrite str_app_nil. split_and!; [done| |done].
  repeat constructor; [done|]. by eapply clean_none.
Qed.

Lemma url_text_app l k : url_text (l ++ k) = url_text l +:+ url_text k.
Proof. 
  induction l as [|s l IH]; [done|].
  change (us_text s +:+ url_text (l ++ k) = (us_text s +:+ url_text l) +:+ url_text k). by rewrite IH, str_app_assoc.
Qed.

Lemma url_loop_ok fuel acc url :
  (String.length url ≤ fuel)%nat → clean acc url →
  url_text (url_loop fuel acc url) = acc +:+ url ∧ Forall segment_ok (url_loop fuel acc url)
  ∧ existsb is_param (url_loop fuel acc url) = hasPathParams url.
Proof.
  revert acc url. induction fuel as [|fuel IH]; intros acc url Hf Hc.
  - destruct url as [|c url]; [|cbn in Hf; lia]. cbn [url_loop]. rewrite str_app_nil. by apply plain_ok with (url := "").
  - destruct url as [|c url]; [cbn [url_loop]; rewrite str_app_nil; by apply plain_ok with (url := "")|].
    cbn [url_loop hasPathParams]. destruct (param_at (String c url)) as [[name rest]|] eqn:Ep.
    + destruct (plain_ok _ _ Hc) as (Ht & Hs & _). pose proof (proj1 (param_at_spec _ _ _) Ep) as (Eu & Hn & Ha).
      destruct (IH "" rest) as (IHt & IHs & _); [|done|].
      { rewrite Eu in Hf. rewrite str_app_length in Hf. unfold param_text in Hf. cbn in Hf. lia. }
      rewrite Eu. split_and!.
      * rewrite url_text_app, Ht.
        change (acc +:+ (param_text name +:+ url_text (url_loop fuel "" rest)) = acc +:+ (param_text name +:+ rest)). by rewrite IHt.
      * apply Forall_app. split; [done|]. by constructor.
      * rewrite existsb_app. cbn. by rewrite orb_true_r.
    + destruct (IH (acc +:+ String c "") url) as (IHt & IHs & IHe); [cbn in Hf; lia|by apply clean_snoc|].
      rewrite IHt, str_app_assoc. done.
Qed.

(** The pieces make up exactly the URL; the marked ones are its parameters in braces,
    the others hold none, and there is a marked one exactly when the URL has a
    parameter. *)
Theorem url_segments_exact url :
  url_text (url_segments url) = url
  ∧ (url ≠ "" → Forall segment_ok (url_segments url))
  ∧ existsb is_param (url_segments url) = hasPathParams url.
Proof.
  unfold url_segments. case_bool_decide as E; [by subst|].
  destruct (url_loop_ok (String.length url) "" url) as (? & ? & ?); [lia|done|]. by split_and!.
Qed.
