(* ===== verification/NodeMenu.v ===== *)
(** * The menu of node types (components/node_menu.js)

    The menu the canvas opens to add a node: categories on the left, the types of
    the active one on the right, or the results of a search.  A category becomes
    active when the pointer enters it, after a delay when the pointer was moving
    to the right, where the types are.

    Then the former palette. *)

From S2P Require Import Prelude JsMap JsValue JsNumber Node Editor Adapter Nodes JsString DynamicNode NodeRegistry.

Record menu_item := MenuItem { mi_key : string; mi_name : jsval; mi_icon : jsval; mi_description : jsval }.
Record menu_category := MenuCategory { mc_key : string; mc_name : jsval; mc_icon : jsval; mc_items : list menu_item }.

Definition item_of (n : type_info) : menu_item := MenuItem (ti_key n) (ti_name n) (ti_icon n) (ti_description n).
Definition category_of (g : group) : menu_category :=
  MenuCategory (gr_key g) (gr_name g) (gr_icon g) (item_of <$> gr_nodes g).

(** [hoverTimer] is the category the pending timer will make active. *)
Record node_menu := NodeMenu {
  searchQuery : string;
  nm_activeCategoryKey : option string;
  prevMouseX : num;
  hoverTimer : option string;
}.

Definition with_query (q : string) (m : node_menu) : node_menu :=
  NodeMenu q (nm_activeCategoryKey m) (prevMouseX m) (hoverTimer m).
Definition with_category (k : option string) (t : option string) (m : node_menu) : node_menu :=
  NodeMenu (searchQuery m) k (prevMouseX m) t.

(** [isFontAwesome(icon)] *)
Definition isFontAwesome (icon : jsval) : bool := match icon with JStr s => String.prefix "fa-" s | _ => false end.

Section menu.
(** [editor.nodes.searchNodes(query)] *)
Context (search : string → list group).

(** [categories], [filteredCategories] *)
Definition menu_categories : list menu_category := category_of <$> search "".
Definition filteredCategories (m : node_menu) : list menu_category :=
  let query := trim (toLowerCase (searchQuery m)) in
  if query =s "" then menu_categories
  else bfilter (λ c, negb (Nat.eqb (length (mc_items c)) 0)) (category_of <$> search query).

(** [activeCategoryKey], [activeItems] *)
Definition activeCategoryKey (m : node_menu) : option string :=
  match nm_activeCategoryKey m with
  | Some k => if negb (k =s "") && existsb (λ c, mc_key c =s k) menu_categories then Some k else mc_key <$> head menu_categories
  | None => mc_key <$> head menu_categories
  end.
Definition activeItems (m : node_menu) : list menu_item :=
  match activeCategoryKey m with
  | None => []
  | Some k => match find_first (λ c, mc_key c =s k) menu_categories with Some c => mc_items c | None => [] end
  end.

(** [onMounted] *)
Definition menu_mounted : node_menu := NodeMenu "" (mc_key <$> head menu_categories) 0 None.

(** [onCatsPanelMouseMove(ev)] *)
Definition onCatsPanelMouseMove (x : num) (m : node_menu) : node_menu :=
  NodeMenu (searchQuery m) (nm_activeCategoryKey m) x (hoverTimer m).

(** [onCategoryEnter(categoryKey, ev)] *)
Definition onCategoryEnter (categoryKey : string) (x : num) (m : node_menu) : node_menu :=
  if bool_decide (nm_activeCategoryKey m = Some categoryKey) then m
  else
    let dx := (x - prevMouseX m)%Qc in
    if bool_decide (num_of_Z 4 < dx)%Qc then with_category (nm_activeCategoryKey m) (Some categoryKey) m
    else with_category (Some categoryKey) None m.

(** The timer it sets. *)
Definition category_timer (m : node_menu) : node_menu :=
  match hoverTimer m with Some k => with_category (Some k) None m | None => m end.

(** [onSearchInput(ev)], [clearSearch()] *)
Definition onSearchInput (value : string) (m : node_menu) : node_menu := with_query value m.
Definition clearSearch (m : node_menu) : node_menu := with_query "" m.

(** [onKeyDown(ev)]: the menu and whether it closes. *)
Definition onKeyDown (key : string) (m : node_menu) : node_menu * bool :=
  if key =s "Escape" then
    if negb (searchQuery m =s "") then (with_query "" m, false) else (m, true)
  else (m, false).

(** [onItemClick(ev)]: the types used last, and the type that is chosen; the menu
    closes. *)
Definition onItemClick (recent : list string) (nodeType : string) : list string * string :=
  (trackNodeUsage recent nodeType, nodeType).

(** ** The pointer over the categories *)

Inductive menu_event :=
| MoveOver (x : num)
| EnterCategory (k : string) (x : num)
| HoverTimer
| TypeQuery (q : string).

Definition menu_step (m : node_menu) (e : menu_event) : node_menu :=
  match e with
  | MoveOver x => onCatsPanelMouseMove x m
  | EnterCategory k x => onCategoryEnter k x m
  | HoverTimer => category_timer m
  | TypeQuery q => onSearchInput q m
  end.

Definition menu_run (es : list menu_event) : node_menu := foldl menu_step menu_mounted es.

(** *** Facts *)

Lemma find_category k :
  NoDup (mc_key <$> menu_categories) → ∀ c, c ∈ menu_categories → mc_key c = k →
  find_first (λ c, mc_key c =s k) menu_categories = Some c.
Proof using Type.
  intros Hd. induction menu_categories as [|c' l IH]; intros c Hc Hk; [by apply not_elem_of_nil in Hc|].
  csimpl in Hd. apply NoDup_cons in Hd as [Hn Hd]. csimpl. destruct (bool_decide_reflect (mc_key c' = k)) as [E|E].
  - apply elem_of_cons in Hc as [->|Hc]; [done|]. destruct Hn. rewrite E, <- Hk. by apply list_elem_of_fmap_2.
  - apply elem_of_cons in Hc as [->|Hc]; [done|]. by apply IH.
Qed.

(** The right side shows the category that is active. *)
Lemma active_items_of m c :
  NoDup (mc_key <$> menu_categories) → c ∈ menu_categories → mc_key c ≠ "" →
  nm_activeCategoryKey m = Some (mc_key c) → activeItems m = mc_items c.
Proof using Type.
  intros Hd Hc Hk Ha. unfold activeItems, activeCategoryKey. rewrite Ha, bool_decide_false by done. cbn [negb andb].
  assert (existsb (λ c', mc_key c' =s mc_key c) menu_categories = true) as ->.
  { apply existsb_true_iff. exists c. split; [done|by apply bool_decide_eq_true]. }
  by rewrite (find_category (mc_key c) Hd c Hc eq_refl).
Qed.

(** A category that is entered is active, at once or when the timer fires, unless it
    was active already while a timer was pending for another. *)
Lemma entered_is_active k x m :
  nm_activeCategoryKey m ≠ Some k ∨ hoverTimer m = None →
  nm_activeCategoryKey (category_timer (onCategoryEnter k x m)) = Some k.
Proof using Type.
  intros H. unfold onCategoryEnter. case_bool_decide as E; [|by case_bool_decide].
  destruct H as [H|H]; [done|]. unfold category_timer. by rewrite H.
Qed.

Lemma timer_done m : hoverTimer (category_timer m) = None.
Proof using Type. unfold category_timer. by destruct (hoverTimer m) eqn:E. Qed.

(** Entering the category that is already active leaves a pending timer. *)
Lemma reentered_keeps_timer k x m :
  nm_activeCategoryKey m = Some k → onCategoryEnter k x m = m.
Proof using Type. intros H. unfold onCategoryEnter. by rewrite bool_decide_true. Qed.
End menu.

(** ** Properties *)

Lemma group_keys_distinct categories nodes :
  NoDup (jkeys categories) → "default" ∉ jkeys categories → NoDup (gr_key <$> groupByCategory categories nodes).
Proof.
  intros Hd Hn. unfold groupByCategory. cbv zeta.
  pose proof (sort_by_perm (λ a b : string * jsobj,
    bool_decide (category_sequence a.2 < category_sequence b.2)%Qc) categories) as Hp.
  fold (getCategories categories) in Hp. set (cats := getCategories categories) in *.
  assert (NoDup (jkeys cats)) as Hdc by (unfold jkeys; by rewrite Hp).
  assert ("default" ∉ jkeys cats) as Hnc by (unfold jkeys; by rewrite Hp).
  set (f cat := match bfilter (in_category cat.1) nodes with [] => None
     | catNodes => Some (Group cat.1 (oprop cat.2 "name") (oprop cat.2 "icon") catNodes) end).
  assert (∀ cat g, f cat = Some g → gr_key g = cat.1) as Hf.
  { intros cat g. unfold f. by destruct (bfilter _ _); [|intros [= <-]]. }
  assert (∀ l, NoDup (jkeys l) → NoDup (gr_key <$> omap f l) ∧ ∀ k, k ∈ gr_key <$> omap f l → k ∈ jkeys l) as Ho.
  { unfold jkeys. induction l as [|cat l IH]; csimpl; [split; [constructor|done]|]. intros [Hk Hl]%NoDup_cons. destruct (IH Hl) as [H1 H2].
    destruct (f cat) as [g|] eqn:E; csimpl; [|split; [done|intros k ?; right; by apply H2]].
    rewrite (Hf _ _ E). split; [apply NoDup_cons; split; [|done]; by intros ?%H2|].
    intros k [->|?]%elem_of_cons; [left|right; by apply H2]. }
  destruct (Ho cats Hdc) as [H1 H2]. destruct (bfilter _ nodes) as [|u us]; [exact H1|].
  rewrite fmap_app. csimpl. apply NoDup_app. split_and!; [done| |apply NoDup_singleton].
  intros k Hk ->%list_elem_of_singleton. by apply Hnc, H2.
Qed.

(** C33: Every type of node can be reached through the menu: the categories hold each
    type exactly once (the registered categories being distinct, none with an empty
    key or the key default).  When the pointer enters the category of a type, the type is
    among those shown, at once or after the timer, unless the category was the active
    one while the timer was pending for another, which is shown then
    ([menu_leaves_hovered]); entering the category once more shows it in any case. *)
Theorem menu_reaches_all class_name fuzzyLookup categories reg types :
  NoDup (jkeys categories) → "default" ∉ jkeys categories → "" ∉ jkeys categories →
  let search q := searchNodes class_name fuzzyLookup categories reg q JUndef types in
  let nodes := getAllNodeTypes class_name reg types in
  concat (mc_items <$> menu_categories search) ≡ₚ item_of <$> nodes ∧
  ∀ n es x y, n ∈ nodes → ∃ c, c ∈ menu_categories search ∧ item_of n ∈ mc_items c ∧
    (nm_activeCategoryKey (menu_run search es) ≠ Some (mc_key c) ∨ hoverTimer (menu_run search es) = None →
     item_of n ∈ activeItems search (menu_run search (es ++ [EnterCategory (mc_key c) x; HoverTimer]))) ∧
    item_of n ∈ activeItems search
      (menu_run search (es ++ [EnterCategory (mc_key c) x; HoverTimer; EnterCategory (mc_key c) y; HoverTimer])).
Proof.
  intros Hd Hdef Hemp search nodes.
  assert (search "" = groupByCategory categories nodes) as Es by done.
  destruct (groupByCategory_partition categories nodes Hd) as [Hp Hg].
  pose proof (group_keys_distinct categories nodes Hd Hdef) as Hk.
  assert (NoDup (mc_key <$> menu_categories search)) as Hdk.
  { unfold menu_categories. rewrite Es, <- list_fmap_compose. exact Hk. }
  assert (mc_items <$> menu_categories search = (λ l : list type_info, item_of <$> l) <$> (gr_nodes <$> groupByCategory categories nodes)) as Ei.
  { unfold menu_categories. rewrite Es, <- !list_fmap_compose. done. }
  split.
  - rewrite Ei. assert (∀ ls : list (list type_info), concat ((λ l : list type_info, item_of <$> l) <$> ls) = item_of <$> concat ls) as Hc.
    { induction ls as [|l ls IH]; csimpl; [done|]. by rewrite fmap_app, IH. }
    rewrite Hc. by rewrite Hp.
  - intros n es x y Hn. rewrite <- Hp in Hn. apply elem_of_concat in Hn as (l & Hl & (g & -> & Hgr)%list_elem_of_fmap).
    assert (category_of g ∈ menu_categories search) as Hc by (unfold menu_categories; rewrite Es; by apply list_elem_of_fmap_2).
    exists (category_of g). split; [done|]. assert (item_of n ∈ mc_items (category_of g)) as Hi by (by apply list_elem_of_fmap_2).
    split; [done|].
    enough (mc_key (category_of g) ≠ "") as Hne.
    { unfold menu_run in *. rewrite !foldl_app. cbn [foldl menu_step].
      split; [intros H|]; rewrite (active_items_of search _ _ Hdk Hc Hne); try done; apply entered_is_active; [done|].
      right. apply timer_done. }
    cbn [mc_key category_of]. intros E. destruct (Hg g Hgr) as [Hne' Hin]. destruct (gr_nodes g) as [|n' ns] eqn:En; [done|].
    destruct (Hin n' ltac:(left)) as [Hcat|[E' _]]; [|by rewrite E in E'].
    revert Hgr. unfold groupByCategory. cbv zeta. intros Hgr.
    assert (g ∈ omap (λ cat : string * jsobj, match bfilter (in_category cat.1) nodes with [] => None
       | catNodes => Some (Group cat.1 (oprop cat.2 "name") (oprop cat.2 "icon") catNodes) end) (getCategories categories)) as Ho.
    { destruct (bfilter (λ n0, negb _) nodes) as [|u us] in Hgr; [done|]. apply elem_of_app in Hgr as [?|Hgr]; [done|].
      apply list_elem_of_singleton in Hgr as ->. done. }
    apply list_elem_of_omap in Ho as ([k o] & Hko & Hf). cbn [fst] in Hf. destruct (bfilter (in_category k) nodes); [done|].
    injection Hf as <-. cbn in E. subst k. destruct Hemp. unfold getCategories in Hko. rewrite sort_by_perm in Hko.
    unfold jkeys. apply list_elem_of_fmap. by exists ("", o).
Qed.

Definition menu_demo_types : odoo_registry := [("if", RawClass IfNode); ("loop", RawClass LoopNode); ("variable", RawClass VariableNode)].
Definition menu_demo_categories : list (string * jsobj) := [("flow", [("name", JStr "Flow")]); ("data", [("name", JStr "Data")])].
Definition menu_demo_search (q : string) : list group :=
  searchNodes (λ _, "") (λ _ l, l) menu_demo_categories menu_demo_types q JUndef [].

Lemma menu_reaches_all_witness :
  concat (mc_items <$> menu_categories menu_demo_search) ≡ₚ item_of <$> getAllNodeTypes (λ _, "") menu_demo_types [] ∧
  (mi_key <$> activeItems menu_demo_search (menu_run menu_demo_search [EnterCategory "data" (num_of_Z 5); HoverTimer])) = ["variable"].
Proof.
  split; [|vm_compute; reflexivity].
  refine (proj1 (menu_reaches_all (λ _, "") (λ _ l, l) menu_demo_categories menu_demo_types [] _ _ _));
    apply (bool_decide_unpack _); vm_compute; exact I.
Defined.

(** The pointer crosses a category on its way to the right and comes back to the
    active one before the timer fires: the timer is not cleared, so that the
    category it left becomes active under the pointer's category. *)
Lemma menu_leaves_hovered search a b :
  a ≠ b → mc_key <$> head (menu_categories search) = Some a →
  let m := menu_run search [EnterCategory b (num_of_Z 5); EnterCategory a 0; HoverTimer] in
  nm_activeCategoryKey m = Some b ∧ hoverTimer m = None.
Proof.
  intros Hab Ha. unfold menu_run, menu_mounted. rewrite Ha. cbn [foldl menu_step].
  assert (onCategoryEnter b (num_of_Z 5) (NodeMenu "" (Some a) 0 None) = NodeMenu "" (Some a) 0 (Some b)) as ->.
  { unfold onCategoryEnter. cbn [nm_activeCategoryKey prevMouseX]. rewrite bool_decide_false by congruence.
    replace (bool_decide (num_of_Z 4 < num_of_Z 5 - 0)%Qc) with true by (vm_compute; reflexivity). done. }
  by rewrite reentered_keeps_timer.
Qed.

(** * The former palette and panel of input data (components/node_palette.js,
      components/data_panel/InputDataPanel.js)

    The types of nodes in the order of the palette, with a header before each group,
    and what dragging one carries; the collapsible panel of the data of the node
    before.  No file imports them any more.  [String.prototype.localeCompare] is an
    argument. *)

(** ** Entries of the palette *)

Record palette_item := PaletteItem {
  pi_name : string; pi_title : string; pi_icon : jsval; pi_className : string; pi_category : string; pi_group : string;
}.

Definition text_of (v : jsval) : string := match v with JStr s => s | _ => "" end.

(** [nodes.map(...)] of [items] *)
Definition palette_item_of (n : type_info) : palette_item :=
  PaletteItem (ti_key n) (if truthy (ti_name n) then text_of (ti_name n) else ti_key n) (ti_icon n)
    ("node-palette__item--" +:+ ti_key n) (text_of (ti_category n)) (text_of (ti_group n)).

Inductive palette_row := GroupHeader (groupHeader : string) | PaletteRow (item : palette_item).

Section palette.
Context (localeCompare : string → string → comparison).

(** The comparison of the sort. *)
Definition compare_items (a b : palette_item) : comparison :=
  if negb (pi_category a =s pi_category b) then localeCompare (pi_category a) (pi_category b)
  else if (pi_group a =s "") && negb (pi_group b =s "") then Lt
  else if negb (pi_group a =s "") && (pi_group b =s "") then Gt
  else if negb (pi_group a =s pi_group b) then localeCompare (pi_group a) (pi_group b)
  else localeCompare (pi_title a) (pi_title b).

Definition item_before (a b : palette_item) : bool := match compare_items a b with Lt => true | _ => false end.

(** The loop that inserts the headers. *)
Fixpoint insert_headers (lastGroup : option string) (items : list palette_item) : list palette_row :=
  match items with
  | [] => []
  | item :: items =>
      if negb (pi_group item =s "") && negb (bool_decide (lastGroup = Some (pi_group item)))
      then GroupHeader (pi_group item) :: PaletteRow item :: insert_headers (Some (pi_group item)) items
      else PaletteRow item :: insert_headers lastGroup items
  end.

(** [items] *)
Definition palette_items (nodes : list type_info) : list palette_row :=
  insert_headers None (sort_by item_before (palette_item_of <$> nodes)).
End palette.

(** The [t-key] of a row: [item.name || item.groupHeader] *)
Definition row_key (r : palette_row) : string :=
  match r with
  | GroupHeader g => g
  | PaletteRow i => if pi_name i =s "" then "undefined" else pi_name i
  end.

(** [isFontAwesome(icon)], [isImageIcon(icon)], [getFaClass(icon)] *)
Definition isImageIcon (icon : jsval) : bool :=
  match icon with
  | JStr s => String.prefix "/" s || String.prefix "http://" s || String.prefix "https://" s || String.prefix "data:image/" s
  | _ => false
  end.
Definition getFaClass (icon : string) : string := "fa " +:+ icon.

(** What a click asks the parent to add, and the data a drag carries. *)
Definition palette_onClick (name : string) : string := name.
Definition palette_onDragStart (name : string) : list (string * string) := [("application/x-workflow-node", name)].

(** ** The panel of input data *)

Record input_panel := InputPanel { ip_data : jsval; ip_nodeName : string; ip_isCollapsed : bool }.

Definition input_panel_setup (data : jsval) (nodeName : string) : input_panel := InputPanel data nodeName false.
Definition hasData (p : input_panel) : bool :=
  truthy (ip_data p) && negb (bool_decide (entries (ip_data p) = [])).
Definition nodeDisplayName (p : input_panel) : string := if ip_nodeName p =s "" then "Previous Node" else ip_nodeName p.
Definition toggleCollapse (p : input_panel) : input_panel := InputPanel (ip_data p) (ip_nodeName p) (negb (ip_isCollapsed p)).

(** ** Properties *)

(** The rows that are no headers. *)
Definition items_of (rows : list palette_row) : list palette_item :=
  omap (λ r, match r with PaletteRow i => Some i | GroupHeader _ => None end) rows.

(** The header a row stands under. *)
Fixpoint last_header (h : option string) (rows : list palette_row) : option string :=
  match rows with
  | [] => h
  | GroupHeader g :: rows => last_header (Some g) rows
  | PaletteRow _ :: rows => last_header h rows
  end.

Lemma items_of_headers h l : items_of (insert_headers h l) = l.
Proof.
  unfold items_of. revert h. induction l as [|i l IH]; intros h; [done|]. cbn [insert_headers].
  destruct (_ && _); cbn; by f_equal.
Qed.

Lemma under_header h l l1 i l2 :
  insert_headers h l = l1 ++ PaletteRow i :: l2 → pi_group i ≠ "" → last_header h l1 = Some (pi_group i).
Proof.
  revert h l1. induction l as [|x l IH]; intros h l1; cbn [insert_headers]; [by destruct l1|].
  destruct (negb (pi_group x =s "") && _) eqn:E; intros Hl Hg.
  - destruct l1 as [|r l1]; [done|]. injection Hl as <- Hl. cbn [last_header].
    destruct l1 as [|r l1]; [by injection Hl as -> _|]. injection Hl as <- Hl. cbn [last_header]. by apply IH.
  - destruct l1 as [|r l1]; [|injection Hl as <- Hl; cbn [last_header]; by apply IH].
    injection Hl as -> _. cbn [last_header].
    rewrite bool_decide_false in E by done. cbn [negb andb] in E. by apply negb_false_iff, bool_decide_eq_true in E.
Qed.

(** The palette shows every type once, sorted, and every type of a group under the
    header of its group. *)
Theorem palette_exact localeCompare nodes :
  let rows := palette_items localeCompare nodes in
  items_of rows ≡ₚ palette_item_of <$> nodes
  ∧ items_of rows = sort_by (item_before localeCompare) (palette_item_of <$> nodes)
  ∧ ∀ l1 i l2, rows = l1 ++ PaletteRow i :: l2 → pi_group i ≠ "" → last_header None l1 = Some (pi_group i).
Proof.
  intros rows. unfold rows, palette_items. rewrite items_of_headers. split; [apply sort_by_perm|]. split; [done|].
  intros l1 i l2. apply under_header.
Qed.

Definition palette_type (key category group : string) : type_info :=
  TypeInfo key (Nodes.HttpRequestNode) (JStr key) (JStr "fa-cube") (JStr category) (JStr "") (JStr group).

(** A type without a group stands under the header of a group of the category before. *)
Theorem ungrouped_under_header :
  palette_items String.compare [palette_type "call" "action" "Shop"; palette_type "if" "flow" ""]
  = [GroupHeader "Shop"; PaletteRow (palette_item_of (palette_type "call" "action" "Shop"));
     PaletteRow (palette_item_of (palette_type "if" "flow" ""))].
Proof. vm_compute. reflexivity. Qed.

(** Groups that meet in two categories get two headers, with the same key for the
    template. *)
Theorem header_keys_repeat :
  row_key <$> palette_items String.compare
    [palette_type "a1" "action" "Shop"; palette_type "a2" "action" "Tax"; palette_type "f1" "flow" "Shop"]
  = ["Shop"; "a1"; "Tax"; "a2"; "Shop"; "f1"].
Proof. vm_compute. reflexivity. Qed.

(** Hiding the panel of data twice shows it again, and it offers data exactly when
    there is a field. *)
Theorem input_panel_exact o nodeName :
  let p := input_panel_setup (JObj o) nodeName in
  toggleCollapse (toggleCollapse p) = p ∧ (hasData p = true ↔ ∃ k v, (k, v) ∈ o) ∧ nodeDisplayName p ≠ "".
Proof.
  split_and!; [done| |].
  - unfold hasData. cbn. destruct o as [|[k v] o].
    + rewrite bool_decide_true by done. split; [done|]. by intros (? & ? & ?%not_elem_of_nil).
    + rewrite bool_decide_false by done. split; [|done]. intros _. exists k, v. left.
  - unfold nodeDisplayName. cbn. by case_bool_decide.
Qed.
