(* ===== verification/Suggestions.v ===== *)
(** * Suggestions for the inputs of settings (utils/input_suggestion_utils.js)

    Suggestions come as strings or objects from several places; they are brought
    to one shape, merged without duplicates and filtered by what was typed. *)

From S2P Require Import Prelude JsMap JsValue JsString.

Record suggestion := Suggestion { sg_value : string; sg_label : string; sg_description : string }.

#[export] Instance suggestion_eq_dec : EqDecision suggestion.
Proof. solve_decision. Defined.

Definition double_quote : ascii := ascii_of_nat 34.

(** [s.includes(q)] *)
Definition includes (q s : string) : bool := if String.index 0 q s then true else false.

Section suggestions.
Context (num_toString : num → string).

Definition js_string := js_String num_toString.

(** The body of the loop of [normalizeSuggestions]. *)
Definition normalizeSuggestion (item : jsval) : option suggestion :=
  match item with
  | JStr s => let value := trim s in if value =s "" then None else Some (Suggestion value value "")
  | JObj o =>
      let rawValue := if jhas "value" o then oprop o "value" else oprop o "label" in
      if is_nullish rawValue then None
      else
        let value := trim (js_string rawValue) in
        if value =s "" then None
        else
          let label := if is_nullish (oprop o "label") then value else js_string (oprop o "label") in
          let description := if is_nullish (oprop o "description") then "" else js_string (oprop o "description") in
          Some (Suggestion value label description)
  | _ => None
  end.

(** [normalizeSuggestions(rawSuggestions)] *)
Definition normalizeSuggestions (rawSuggestions : jsval) : list suggestion :=
  omap normalizeSuggestion (as_array rawSuggestions).

(** The inner loop of [mergeUniqueSuggestions]; [seen] are the keys so far. *)
Fixpoint merge_unique (seen : list string) (items : list suggestion) : list suggestion :=
  match items with
  | [] => []
  | item :: items =>
      let key := toLowerCase (sg_value item) in
      if bool_decide (key ∈ seen) then merge_unique seen items else item :: merge_unique (key :: seen) items
  end.

(** [mergeUniqueSuggestions(...lists)] *)
Definition mergeUniqueSuggestions (lists : list jsval) : list suggestion :=
  merge_unique [] (concat (normalizeSuggestions <$> lists)).

Definition matches_query (q : string) (item : suggestion) : bool :=
  includes q (toLowerCase (sg_value item)) || includes q (toLowerCase (sg_label item)) ||
  includes q (toLowerCase (sg_description item)).

(** [filterSuggestions(items, query, limit)] *)
Definition filterSuggestions (items : list suggestion) (query : string) (limit : nat) : list suggestion :=
  let q := toLowerCase (trim query) in
  if q =s "" then take limit items else take limit (bfilter (matches_query q) items).

(** A suggestion as an object. *)
Definition suggestion_object (value label description : string) : jsval :=
  JObj [("value", JStr value); ("label", JStr label); ("description", JStr description)].

(** [addNamespaceSuggestions(result, context, namespace, detail)] *)
Definition addNamespaceSuggestions (context : jsobj) (namespace detail : string) : list jsval :=
  suggestion_object namespace namespace detail ::
  match oprop context namespace with
  | JObj data => take 30 data ≫= λ kv,
      let value := namespace +:+ "." +:+ kv.1 in
      suggestion_object value value (namespace +:+ " key") ::
      match kv.2 with
      | JObj child => (λ c, let value := namespace +:+ "." +:+ kv.1 +:+ "." +:+ c.1 in
                            suggestion_object value value (namespace +:+ " nested key")) <$> take 10 child
      | _ => []
      end
  | _ => []
  end.

(** [addNodeSuggestions(result, nodeContext)] *)
Definition addNodeSuggestions (nodeContext : jsval) : list jsval :=
  suggestion_object "_node" "_node" "Other node outputs" ::
  match nodeContext with
  | JObj nodes => take 20 nodes ≫= λ kv,
      let nodeBase := "_node[" +:+ String double_quote (kv.1 +:+ String double_quote "]") in
      suggestion_object nodeBase nodeBase "Node output object" ::
      suggestion_object (nodeBase +:+ ".json") (nodeBase +:+ ".json") "Node JSON output" ::
      match kv.2 with
      | JObj nodeData =>
          match oprop nodeData "json" with
          | JObj json => (λ c, let value := nodeBase +:+ ".json." +:+ c.1 in
                               suggestion_object value value "Node JSON key") <$> take 10 json
          | _ => []
          end
      | _ => []
      end
  | _ => []
  end.

(** [buildContextExpressionSuggestions(context)] *)
Definition buildContextExpressionSuggestions (context : jsval) : list suggestion :=
  let c := match context with JObj o => o | _ => [] end in
  mergeUniqueSuggestions [JArr
    (addNamespaceSuggestions c "_json" "Input data from previous node" ++
     addNamespaceSuggestions c "_input" "Input alias object" ++
     addNamespaceSuggestions c "_vars" "Workflow variables" ++
     addNamespaceSuggestions c "_execution" "Execution metadata" ++
     addNamespaceSuggestions c "_workflow" "Workflow metadata" ++
     [suggestion_object "_loop" "_loop" "Loop context"; suggestion_object "_now" "_now" "Current datetime";
      suggestion_object "_today" "_today" "Current date"] ++
     addNodeSuggestions (oprop c "_node"))].

(** [getSuggestionsByKey(suggestionsByKey, key)] *)
Definition getSuggestionsByKey (suggestionsByKey : jsval) (key : string) : list suggestion :=
  match suggestionsByKey with
  | JObj m =>
      let normalizedKey := trim key in
      if normalizedKey =s "" then []
      else if jhas normalizedKey m then normalizeSuggestions (oprop m normalizedKey)
      else match find_first (λ kv, toLowerCase kv.1 =s toLowerCase normalizedKey) m with
           | Some kv => normalizeSuggestions kv.2
           | None => []
           end
  | _ => []
  end.

(** ** Facts *)

Lemma normalized_value item s : normalizeSuggestion item = Some s → sg_value s ≠ "" ∧ trim (sg_value s) = sg_value s.
Proof using Type.
  unfold normalizeSuggestion. destruct item as [| | | |s'| |o]; try done.
  - destruct (bool_decide_reflect (trim s' = "")); [done|]. intros [= <-]. cbn. split; [done|]. apply trim_idem.
  - destruct (is_nullish _); [done|]. case_bool_decide as E; [done|]. intros [= <-]. cbn. split; [done|]. apply trim_idem.
Qed.

Lemma merge_unique_spec seen items :
  sublist (merge_unique seen items) items ∧
  NoDup (toLowerCase ∘ sg_value <$> merge_unique seen items) ∧
  (∀ k, k ∈ toLowerCase ∘ sg_value <$> merge_unique seen items ↔ k ∈ toLowerCase ∘ sg_value <$> items ∧ k ∉ seen).
Proof using Type.
  revert seen. induction items as [|x items IH]; intros seen; cbn [merge_unique].
  { split_and!; [constructor|constructor|]. intros k. csimpl. set_solver. }
  destruct (bool_decide_reflect (toLowerCase (sg_value x) ∈ seen)) as [Hin|Hin].
  - destruct (IH seen) as (H1 & H2 & H3). split_and!; [by constructor|done|]. intros k. rewrite H3. csimpl. set_solver.
  - destruct (IH (toLowerCase (sg_value x) :: seen)) as (H1 & H2 & H3). split_and!; [by constructor| |].
    + csimpl. apply NoDup_cons. split; [|done]. rewrite H3. set_solver.
    + intros k. csimpl. rewrite !elem_of_cons, H3. destruct (decide (k = (toLowerCase ∘ sg_value) x)) as [->|]; set_solver.
Qed.
End suggestions.

(** ** Properties *)

(** Merging suggestions keeps the first of those whose values differ in case only:
    the result is made of the given ones in their order, has no two such values,
    and has one for each value given. *)
Theorem merge_exact num_toString lists :
  let all := concat (normalizeSuggestions num_toString <$> lists) in
  let merged := mergeUniqueSuggestions num_toString lists in
  sublist merged all ∧ NoDup (toLowerCase ∘ sg_value <$> merged) ∧
  ∀ k, k ∈ toLowerCase ∘ sg_value <$> all ↔ k ∈ toLowerCase ∘ sg_value <$> merged.
Proof.
  cbv zeta. destruct (merge_unique_spec [] (concat (normalizeSuggestions num_toString <$> lists))) as (H1 & H2 & H3).
  split_and!; [done|done|]. intros k. rewrite H3. set_solver.
Qed.

(** Filtering gives the first suggestions that match, at most [limit] of them. *)
Theorem filter_exact items query limit :
  let shown := filterSuggestions items query limit in
  sublist shown items ∧ (length shown ≤ limit)%nat ∧
  (toLowerCase (trim query) ≠ "" → shown = take limit (bfilter (matches_query (toLowerCase (trim query))) items)).
Proof.
  cbv zeta. unfold filterSuggestions. case_bool_decide as E.
  - split_and!; [apply sublist_take|rewrite length_take; lia|done].
  - split_and!; [|rewrite length_take; lia|done]. etrans; [apply sublist_take|apply bfilter_sublist].
Qed.
