(* ===== verification/KeyValueTable.v ===== *)
(** * The editor of key-value rows (components/controls/key_value_table.js)

    A table with a last row that becomes a real one when something is typed into
    it.  What it hands to its parent are the real rows; the parent hands them
    back as new props.  Keys of rows are texts. *)

From S2P Require Import Prelude JsMap JsValue JsNumber JsString Control Suggestions.

Record table_row := TableRow {
  tr_id : num;
  tr_key : string;
  tr_value : jsval;
  tr_enabled : bool;
  tr_placeholder : bool;
  tr_locked : bool;
}.

Record table := Table { tb_rows : list table_row; tb_nextId : num }.

Definition with_key (k : string) (r : table_row) : table_row :=
  TableRow (tr_id r) k (tr_value r) (tr_enabled r) (tr_placeholder r) (tr_locked r).
Definition with_row_value (v : jsval) (r : table_row) : table_row :=
  TableRow (tr_id r) (tr_key r) v (tr_enabled r) (tr_placeholder r) (tr_locked r).
Definition with_enabled (b : bool) (r : table_row) : table_row :=
  TableRow (tr_id r) (tr_key r) (tr_value r) b (tr_placeholder r) (tr_locked r).
Definition promoted (r : table_row) : table_row :=
  TableRow (tr_id r) (tr_key r) (tr_value r) (tr_enabled r) false (tr_locked r).

Definition is_real (r : table_row) : bool := negb (tr_placeholder r).
Definition real_rows (t : table) : list table_row := bfilter is_real (tb_rows t).

Section table.
(** How numbers are printed, and the props that stay the same. *)
Context (num_toString : num → string) (withToggle : bool) (lockedKeys : list string).

(** [_makePlaceholder()]: the row; the counter goes up by one. *)
Definition makePlaceholder (next : num) : table_row := TableRow next "" (JStr "") true true false.

(** The row an incoming pair becomes. *)
Definition row_of (p : jsval) : table_row :=
  let key := match js_or (prop p "key") (JStr "") with JStr s => s | _ => "" end in
  TableRow (row_id p) key (js_or (prop p "value") (JStr "")) (negb (strict_eq (prop p "enabled") (JBool false)))
    false (bool_decide (key ∈ lockedKeys)).

(** The pair with the id it gets. *)
Definition pair_with_id (i : num) (p : jsval) : jsval := JObj (oset "id" (JNum i) (entries p)).

(** [_normalize(val)], which also raises the counter. *)
Definition normalize (nextId : num) (val : jsval) : table :=
  let arr := as_array val in
  let nextId := match arr with [] => nextId | _ => num_max nextId (max_row_id arr + 1)%Qc end in
  let '(pairs, nextId) := assign_ids pair_with_id nextId arr in
  Table ((row_of <$> pairs) ++ [makePlaceholder nextId]) (nextId + 1)%Qc.

(** [_signature(rows)] *)
Definition row_signature (r : table_row) : string :=
  num_toString (tr_id r) +:+ ":" +:+ js_String num_toString (JBool (tr_enabled r)) +:+ ":" +:+ tr_key r +:+ "=" +:+
  js_String num_toString (tr_value r).
Definition signature (rows : list table_row) : string := join "|" (row_signature <$> rows).

Definition new_table (pairs : jsval) : table := normalize 1%Qc pairs.

(** [onWillUpdateProps]; the counter has moved on when the rows are kept. *)
Definition table_props (pairs : jsval) (t : table) : table :=
  let next := normalize (tb_nextId t) pairs in
  if signature (tb_rows next) =s signature (real_rows t) then Table (tb_rows t) (tb_nextId next) else next.

(** [_emit()]: what the parent is handed. *)
Definition pair_of (r : table_row) : jsval :=
  JObj ([("id", JNum (tr_id r)); ("key", JStr (tr_key r)); ("value", tr_value r)] ++
        (if withToggle then [("enabled", JBool (tr_enabled r))] else [])).
Definition emit (t : table) : jsval := JArr (pair_of <$> real_rows t).

(** [allEnabled], [someEnabled] *)
Definition allEnabled (t : table) : bool :=
  (0 <? length (real_rows t))%nat && forallb tr_enabled (real_rows t).
Definition someEnabled (t : table) : bool := existsb tr_enabled (real_rows t) && negb (allEnabled t).

(** The handlers give the table and whether it emitted.  [onToggleAll()] *)
Definition onToggleAll (t : table) : table * bool :=
  let target := negb (allEnabled t) in
  (Table ((λ r, if tr_placeholder r then r else with_enabled target r) <$> tb_rows t) (tb_nextId t), true).

(** [onToggleRow(index)] *)
Definition onToggleRow (index : nat) (t : table) : table * bool :=
  match tb_rows t !! index with
  | None => (t, false)
  | Some row =>
      if tr_placeholder row || tr_locked row then (t, false)
      else (Table (<[index := with_enabled (negb (tr_enabled row)) row]> (tb_rows t)) (tb_nextId t), true)
  end.

(** A row that was the placeholder and got something typed is promoted. *)
Definition promote (index : nat) (row : table_row) (typed : bool) (t : table) : table :=
  if tr_placeholder row && typed
  then Table (<[index := promoted row]> (tb_rows t) ++ [makePlaceholder (tb_nextId t)]) (tb_nextId t + 1)%Qc
  else Table (<[index := row]> (tb_rows t)) (tb_nextId t).

(** [onKeyChange(index, value)] *)
Definition onKeyChange (index : nat) (value : string) (t : table) : table * bool :=
  match tb_rows t !! index with
  | None => (t, false)
  | Some row => if tr_locked row then (t, false)
                else (promote index (with_key value row) (negb (value =s "")) t, true)
  end.

(** [onValueChange(index, value)] *)
Definition onValueChange (index : nat) (value : jsval) (t : table) : table * bool :=
  match tb_rows t !! index with
  | None => (t, false)
  | Some row => (promote index (with_row_value value row) (truthy value) t, true)
  end.

(** [removeRow(index)] *)
Definition removeRow (index : nat) (t : table) : table * bool :=
  match tb_rows t !! index with
  | None => (t, false)
  | Some row => if tr_placeholder row || tr_locked row then (t, false)
                else (Table (take index (tb_rows t) ++ drop (S index) (tb_rows t)) (tb_nextId t), true)
  end.

(** [getKeySuggestions()], [getValueSuggestions(row)] *)
Definition getKeySuggestions (keySuggestions suggestionsByKey : jsval) : list suggestion :=
  let schema := (λ kv, JObj [("label", JStr kv.1); ("value", JStr kv.1)]) <$> entries suggestionsByKey in
  mergeUniqueSuggestions num_toString [keySuggestions; JArr schema].
Definition getValueSuggestions (valueSuggestions suggestionsByKey : jsval) (r : table_row) : list suggestion :=
  let schema := getSuggestionsByKey num_toString suggestionsByKey (tr_key r) in
  mergeUniqueSuggestions num_toString
    [JArr ((λ s, suggestion_object (sg_value s) (sg_label s) (sg_description s)) <$> schema); valueSuggestions].

(** [getPairKeyMode(pairId)], [getPairValueMode(pairId)] *)
Definition getPairKeyMode (pairModes : jsval) (pairId : num) : jsval :=
  match prop pairModes (num_toString pairId) with
  | JStr _ => JStr "fixed"
  | m => if truthy m then js_or (prop m "key") (JStr "fixed") else JStr "fixed"
  end.
Definition getPairValueMode (pairModes : jsval) (pairId : num) : jsval :=
  match prop pairModes (num_toString pairId) with
  | JStr s => if s =s "" then JStr "fixed" else JStr s
  | m => if truthy m then js_or (prop m "value") (JStr "fixed") else JStr "fixed"
  end.

(** ** A session of edits *)

Inductive table_event :=
| ToggleAll
| ToggleRow (i : nat)
| KeyChange (i : nat) (k : string)
| ValueChange (i : nat) (v : jsval)
| RemoveRow (i : nat)
| Props (pairs : jsval).

Definition table_step (t : table) (e : table_event) : table :=
  match e with
  | ToggleAll => (onToggleAll t).1
  | ToggleRow i => (onToggleRow i t).1
  | KeyChange i k => (onKeyChange i k t).1
  | ValueChange i v => (onValueChange i v t).1
  | RemoveRow i => (removeRow i t).1
  | Props pairs => table_props pairs t
  end.
End table.

(** ** Well-formed tables *)

(** Real rows, then one placeholder; distinct positive ids below the counter. *)
Record table_ok (t : table) : Prop := {
  to_shape : ∃ n, tr_placeholder <$> tb_rows t = replicate n false ++ [true];
  to_ids : NoDup (tr_id <$> tb_rows t);
  to_below : ∀ i, i ∈ tr_id <$> tb_rows t → (0 < i ∧ i < tb_nextId t)%Qc;
  to_free : ∀ r, r ∈ tb_rows t → tr_placeholder r = true → tr_locked r = false;
}.

Lemma table_ok_update t i r r' :
  table_ok t → tb_rows t !! i = Some r → tr_id r' = tr_id r → tr_placeholder r' = tr_placeholder r →
  tr_locked r' = tr_locked r → table_ok (Table (<[i := r']> (tb_rows t)) (tb_nextId t)).
Proof.
  intros [[n Hs] Hd Hb Hf] Hr Hi Hp Hl.
  assert (tr_id <$> <[i := r']> (tb_rows t) = tr_id <$> tb_rows t) as Ei.
  { rewrite list_fmap_insert, Hi. apply list_insert_id. by rewrite list_lookup_fmap, Hr. }
  split; cbn [tb_rows tb_nextId]; rewrite ?Ei; try done.
  - exists n. rewrite list_fmap_insert, Hp, <- Hs. apply list_insert_id. by rewrite list_lookup_fmap, Hr.
  - intros x Hx Hxp. apply list_elem_of_lookup in Hx as [j Hj].
    destruct (decide (i = j)) as [<-|Hne].
    + rewrite list_lookup_insert_eq in Hj by (by eapply lookup_lt_Some). simplify_eq. rewrite Hl.
      rewrite Hp in Hxp. apply (Hf r); [by eapply list_elem_of_lookup_2|done].
    + rewrite list_lookup_insert_ne in Hj by done. apply (Hf x); [by eapply list_elem_of_lookup_2|done].
Qed.

Lemma placeholder_last n i : (replicate n false ++ [true]) !! i = Some true → i = n.
Proof.
  intros H. apply lookup_app_Some in H as [H|[Hl H]].
  - by apply lookup_replicate in H as [? _].
  - rewrite length_replicate in *. destruct (i - n)%nat eqn:E; [lia|done].
Qed.

Lemma table_ok_promote t i r :
  table_ok t → tb_rows t !! i = Some r → tr_placeholder r = true →
  table_ok (Table (<[i := promoted r]> (tb_rows t) ++ [makePlaceholder (tb_nextId t)]) (tb_nextId t + 1)%Qc).
Proof.
  intros [[n Hs] Hd Hb Hf] Hr Hp.
  assert (tr_id <$> <[i := promoted r]> (tb_rows t) = tr_id <$> tb_rows t) as Ei.
  { rewrite list_fmap_insert. apply list_insert_id. by rewrite list_lookup_fmap, Hr. }
  assert (i = n) as ->. { apply placeholder_last. rewrite <- Hs, list_lookup_fmap, Hr. cbn. by rewrite Hp. }
  split; cbn [tb_rows tb_nextId].
  - exists (S n). rewrite fmap_app, list_fmap_insert, Hs. cbn.
    rewrite insert_app_r_alt by (by rewrite length_replicate). rewrite length_replicate, Nat.sub_diag. cbn.
    rewrite <- app_assoc. cbn. rewrite (app_assoc _ [false] [true]). rewrite <- (replicate_cons_app n false). done.
  - rewrite fmap_app, Ei. apply NoDup_app. split_and!; [done| |apply NoDup_singleton].
    intros x Hx ->%list_elem_of_singleton. destruct (Hb _ Hx). cbn in *. qc_lra.
  - intros x. rewrite fmap_app, Ei. intros [Hx| ->%list_elem_of_singleton]%elem_of_app; cbn.
    + destruct (Hb x Hx). split; qc_lra.
    + assert (tr_id r ∈ tr_id <$> tb_rows t) as Hx by (apply list_elem_of_fmap_2; by eapply list_elem_of_lookup_2).
      destruct (Hb _ Hx). split; qc_lra.
  - intros x [Hx| ->%list_elem_of_singleton]%elem_of_app Hxp; [|done]. apply list_elem_of_lookup in Hx as [j Hj].
    destruct (decide (n = j)) as [<-|Hne].
    + rewrite list_lookup_insert_eq in Hj by (by eapply lookup_lt_Some). by simplify_eq.
    + rewrite list_lookup_insert_ne in Hj by done. apply (Hf x); [by eapply list_elem_of_lookup_2|done].
Qed.

Lemma table_ok_remove t i r :
  table_ok t → tb_rows t !! i = Some r → tr_placeholder r = false →
  table_ok (Table (take i (tb_rows t) ++ drop (S i) (tb_rows t)) (tb_nextId t)).
Proof.
  intros [[n Hs] Hd Hb Hf] Hr Hp.
  assert (i < n)%nat as Hin.
  { pose proof (lookup_lt_Some _ _ _ Hr) as Hl. rewrite <- (length_fmap tr_placeholder), Hs, length_app, length_replicate in Hl. cbn in Hl.
    destruct (decide (i = n)) as [->|]; [|lia]. assert ((tr_placeholder <$> tb_rows t) !! n = Some false) as E by (rewrite list_lookup_fmap, Hr; cbn; by rewrite Hp).
    rewrite Hs, lookup_app_r, length_replicate, Nat.sub_diag in E by (by rewrite length_replicate). done. }
  assert (∀ A (l : list A), sublist (take i l ++ drop (S i) l) l) as Hsub.
  { intros A l. rewrite <- delete_take_drop. apply sublist_delete. }
  split; cbn [tb_rows tb_nextId].
  - exists (pred n). rewrite fmap_app, fmap_take, fmap_drop, Hs. rewrite take_app_le, drop_app_le by (rewrite length_replicate; lia).
    rewrite take_replicate, drop_replicate, app_assoc, <- replicate_add. f_equal. f_equal. lia.
  - eapply sublist_NoDup; [exact Hd|]. apply fmap_sublist, Hsub.
  - intros x Hx. apply Hb. eapply elem_of_submseteq; [exact Hx|]. apply sublist_submseteq, fmap_sublist, Hsub.
  - intros x Hx. apply Hf. eapply elem_of_submseteq; [exact Hx|]. by apply sublist_submseteq.
Qed.

Definition pairs_ok (val : jsval) : Prop :=
  NoDup (given_ids (as_array val)) ∧ ∀ i, i ∈ given_ids (as_array val) → (0 < i)%Qc.

Lemma row_id_pair i p : row_id (pair_with_id i p) = i.
Proof. unfold row_id, pair_with_id. cbn [prop]. by rewrite jget_oset_eq. Qed.

Section normalized.
Context (lockedKeys : list string).

Lemma normalize_ok next val :
  (0 < next)%Qc → pairs_ok val →
  table_ok (normalize lockedKeys next val) ∧ (next ≤ tb_nextId (normalize lockedKeys next val))%Qc.
Proof using Type.
  intros Hn [Hd Hp]. unfold normalize. cbv zeta. set (arr := as_array val) in *.
  set (start := match arr with [] => next | _ => num_max next (max_row_id arr + 1)%Qc end).
  assert ((next ≤ start)%Qc ∧ ∀ i, i ∈ given_ids arr → (i < start)%Qc) as [Hs Hlt].
  { assert (∀ i, i ∈ given_ids arr → (i ≤ max_row_id arr)%Qc) as Hm.
    { intros i Hi. apply elem_of_bfilter in Hi as [(p & -> & Hin)%list_elem_of_fmap _]. by apply max_row_id_ge. }
    unfold start. destruct arr as [|p arr]; [split; [qc_lra|by intros ? ?%not_elem_of_nil]|].
    unfold num_max. case_bool_decide as E; [|apply Qcnot_le_lt in E]; split; try (intros i Hi; specialize (Hm i Hi)); qc_lra. }
  clearbody start. destruct (assign_ids pair_with_id start arr) as [pairs next'] eqn:E.
  destruct (assign_ids_spec _ row_id_pair _ _ _ _ E Hlt Hd) as (Hle & Hnd & Hr).
  assert (tr_id <$> (row_of lockedKeys <$> pairs) = row_id <$> pairs) as Ei by (by rewrite <- list_fmap_compose).
  split; [|cbn; qc_lra]. split; cbn [tb_rows tb_nextId].
  - exists (length pairs). rewrite fmap_app. f_equal. rewrite <- list_fmap_compose. clear. induction pairs; csimpl; congruence.
  - rewrite fmap_app, Ei. apply NoDup_app. split_and!; [done| |apply NoDup_singleton].
    intros x Hx ->%list_elem_of_singleton. cbn in Hx. destruct (Hr _ Hx) as [[_ ?]|[_ ?]]; qc_lra.
  - intros x. rewrite fmap_app, Ei. intros [Hx| ->%list_elem_of_singleton]%elem_of_app; cbn; [|split; qc_lra].
    destruct (Hr x Hx) as [[Hg ?]|[? ?]]; [pose proof (Hp x Hg)|]; split; qc_lra.
  - intros x [Hx| ->%list_elem_of_singleton]%elem_of_app; [|done]. by apply list_elem_of_fmap in Hx as (p & -> & _).
Qed.

Context (num_toString : num → string).

Lemma table_step_ok t e :
  table_ok t → (0 < tb_nextId t)%Qc → (∀ pairs, e = Props pairs → pairs_ok pairs) →
  table_ok (table_step num_toString lockedKeys t e) ∧ (tb_nextId t ≤ tb_nextId (table_step num_toString lockedKeys t e))%Qc.
Proof using Type.
  intros Ht Hn Hp. assert (∀ i r (typed : bool) r', tb_rows t !! i = Some r → tr_id r' = tr_id r → tr_placeholder r' = tr_placeholder r →
    tr_locked r' = tr_locked r → table_ok (promote i r' typed t) ∧ (tb_nextId t ≤ tb_nextId (promote i r' typed t))%Qc) as Hpr.
  { intros i r typed r' Hr H1 H2 H3. pose proof (table_ok_update _ _ _ _ Ht Hr H1 H2 H3) as Hu.
    unfold promote. destruct (tr_placeholder r' && typed) eqn:E; [|split; [done|cbn; qc_lra]].
    apply andb_true_iff in E as [E _]. split; [|cbn; qc_lra].
    pose proof (table_ok_promote _ i r' Hu) as Hq. cbn [tb_rows tb_nextId] in Hq. rewrite list_insert_insert_eq in Hq.
    apply Hq; [|done]. apply list_lookup_insert_eq. by eapply lookup_lt_Some. }
  destruct e as [|i|i k|i v|i|pairs]; cbn [table_step].
  - unfold onToggleAll. cbn [fst]. split; [|cbn; qc_lra]. destruct Ht as [Hs Hd Hb Hf]. set (b := negb _). clearbody b.
    assert (∀ r, tr_id (if tr_placeholder r then r else with_enabled b r) = tr_id r ∧
      tr_placeholder (if tr_placeholder r then r else with_enabled b r) = tr_placeholder r ∧
      tr_locked (if tr_placeholder r then r else with_enabled b r) = tr_locked r) as Hr.
    { intros r. by destruct (tr_placeholder r) eqn:E. }
    assert (tr_id <$> ((λ r, if tr_placeholder r then r else with_enabled b r) <$> tb_rows t) = tr_id <$> tb_rows t) as Ei.
    { rewrite <- list_fmap_compose. apply list_fmap_ext. intros i r _. apply Hr. }
    split; cbn [tb_rows tb_nextId]; rewrite ?Ei; try done.
    + destruct Hs as [n Hs]. exists n. rewrite <- Hs, <- list_fmap_compose. apply list_fmap_ext. intros i r _. apply Hr.
    + intros r (r' & -> & Hr')%list_elem_of_fmap. destruct (Hr r') as (_ & -> & ->). by apply Hf.
  - unfold onToggleRow. destruct (tb_rows t !! i) as [r|] eqn:E; [|split; [done|cbn; qc_lra]].
    destruct (_ || _); [split; [done|cbn; qc_lra]|]. split; [by eapply table_ok_update|cbn; qc_lra].
  - unfold onKeyChange. destruct (tb_rows t !! i) as [r|] eqn:E; [|split; [done|cbn; qc_lra]].
    destruct (tr_locked r); [split; [done|cbn; qc_lra]|]. by eapply Hpr.
  - unfold onValueChange. destruct (tb_rows t !! i) as [r|] eqn:E; [|split; [done|cbn; qc_lra]]. by eapply Hpr.
  - unfold removeRow. destruct (tb_rows t !! i) as [r|] eqn:E; [|split; [done|cbn; qc_lra]].
    destruct (_ || _) eqn:Eb; [split; [done|cbn; qc_lra]|]. apply orb_false_iff in Eb as [Eb _].
    split; [by eapply table_ok_remove|cbn; qc_lra].
  - destruct (normalize_ok (tb_nextId t) pairs Hn (Hp _ eq_refl)) as [H1 H2]. unfold table_props.
    case_bool_decide; [|done]. split; [|done]. destruct Ht as [Hs Hd Hb Hf]. split; cbn [tb_rows tb_nextId]; try done.
    intros i Hi. destruct (Hb i Hi). split; qc_lra.
Qed.
End normalized.

(** ** What comes back from the parent *)

Section echo.
Context (num_toString : num → string) (withToggle : bool) (lockedKeys : list string).

Definition plain_value (v : jsval) : Prop := js_or v (JStr "") = v.

(** A row that was handed to the parent and came back. *)
Definition echoed (r : table_row) : table_row :=
  TableRow (tr_id r) (tr_key r) (tr_value r) (if withToggle then tr_enabled r else true) false (bool_decide (tr_key r ∈ lockedKeys)).

Lemma assign_ids_kept (mk : num → jsval → jsval) next rows :
  (∀ p, p ∈ rows → row_id p ≠ 0%Qc) → assign_ids mk next rows = ((λ p, mk (row_id p) p) <$> rows, next).
Proof using Type.
  revert next. induction rows as [|p rows IH]; intros next H; [done|]. cbn [assign_ids].
  rewrite bool_decide_false by (apply H; left). rewrite IH by (intros; apply H; by right). done.
Qed.

Lemma row_of_pair r : plain_value (tr_value r) →
  row_of lockedKeys (pair_with_id (row_id (pair_of withToggle r)) (pair_of withToggle r)) = echoed r.
Proof using Type.
  intros Hv. destruct r as [i k v b p l]. unfold plain_value in Hv. cbn [tr_value] in Hv.
  assert (row_id (pair_of withToggle (TableRow i k v b p l)) = i) as -> by (by destruct withToggle).
  assert (js_or (JStr k) (JStr "") = JStr k) as Hk by (unfold js_or; cbn; by destruct (bool_decide_reflect (k = "")) as [->|]).
  assert (pair_with_id i (pair_of withToggle (TableRow i k v b p l)) = pair_of withToggle (TableRow i k v b p l)) as ->.
  { by destruct withToggle. }
  unfold row_of, echoed. cbn [tr_id tr_key tr_value tr_enabled].
  assert (prop (pair_of withToggle (TableRow i k v b p l)) "key" = JStr k) as -> by done.
  assert (prop (pair_of withToggle (TableRow i k v b p l)) "value" = v) as -> by done.
  rewrite Hk, Hv. f_equal. destruct withToggle; [by destruct b|done].
Qed.

Lemma real_rows_spec t : table_ok t → ∃ ph, tb_rows t = real_rows t ++ [ph] ∧ tr_placeholder ph = true.
Proof using Type.
  intros [[n Hs] _ _ _]. unfold real_rows. revert n Hs. induction (tb_rows t) as [|r l IH]; intros n Hs; csimpl in *; [by destruct n|].
  unfold is_real at 1. destruct n as [|n]; csimpl in Hs; injection Hs as Hr Hs.
  - rewrite Hr. apply fmap_nil_inv in Hs as ->. by exists r.
  - rewrite Hr. destruct (IH n Hs) as (ph & E & Hp). exists ph. rewrite E at 1. done.
Qed.

Lemma echo_normalized t :
  table_ok t → (∀ r, r ∈ real_rows t → plain_value (tr_value r)) →
  ∃ ph, tb_rows (normalize lockedKeys (tb_nextId t) (emit withToggle t)) = (echoed <$> real_rows t) ++ [ph] ∧ tr_placeholder ph = true.
Proof using Type.
  intros Ht Hv. unfold normalize, emit. cbn [as_array].
  set (next := match pair_of withToggle <$> real_rows t with [] => _ | _ => _ end).
  rewrite assign_ids_kept.
  - exists (makePlaceholder next). split; [|done]. cbn [tb_rows]. rewrite <- !list_fmap_compose. f_equal. apply list_fmap_ext. intros i r Hr.
    cbn. apply row_of_pair, Hv. by eapply list_elem_of_lookup_2.
  - intros p (r & -> & Hr)%list_elem_of_fmap. assert (row_id (pair_of withToggle r) = tr_id r) as -> by (by destruct withToggle).
    assert (tr_id r ∈ tr_id <$> tb_rows t) as Hx by (apply list_elem_of_fmap_2; by apply elem_of_bfilter in Hr as [? _]).
    destruct (to_below t Ht _ Hx). intros E. rewrite E in *. by apply Qclt_not_eq in H.
Qed.

Lemma join_snoc_length sep l x : l ≠ [] → (String.length (join sep l) + String.length sep + String.length x)%nat = String.length (join sep (l ++ [x])).
Proof using Type.
  induction l as [|a [|b l] IH]; intros Hne; [done|cbn; rewrite !str_app_length; lia|].
  specialize (IH ltac:(done)).
  assert (∀ y ys, ys ≠ [] → join sep (y :: ys) = y +:+ sep +:+ join sep ys) as Hj by (by intros y [|]).
  rewrite <- app_comm_cons, (Hj a (b :: l)), (Hj a ((b :: l) ++ [x])) by done. rewrite !str_app_length, <- IH. lia.
Qed.
End echo.

(** ** Properties *)

(** C29: In a table that starts from rows with distinct ids, whatever is typed, toggled,
    removed or handed in, rows keep distinct ids and the last row, and only it, is
    the one for new input; so what is handed to the parent has distinct ids too. *)
Theorem table_rows_distinct num_toString withToggle lockedKeys pairs es :
  pairs_ok pairs → (∀ p, Props p ∈ es → pairs_ok p) →
  let t := foldl (table_step num_toString lockedKeys) (new_table lockedKeys pairs) es in
  table_ok t ∧ pairs_ok (emit withToggle t).
Proof.
  intros Hp Hes t.
  assert (table_ok t ∧ (0 < tb_nextId t)%Qc) as [Ht Hn].
  { unfold t. destruct (normalize_ok lockedKeys 1%Qc pairs ltac:(done) Hp) as [H1 H2].
    assert (0 < tb_nextId (new_table lockedKeys pairs))%Qc as H3 by (unfold new_table; eapply Qclt_le_trans; [|exact H2]; done).
    fold (new_table lockedKeys pairs) in H1. revert H1 H3. generalize (new_table lockedKeys pairs). clear t Hp.
    induction es as [|e es IH]; intros t H1 H3; [done|]. cbn [foldl].
    destruct (table_step_ok lockedKeys num_toString t e H1 H3) as [H4 H5]; [intros p ->; apply Hes; left|].
    apply IH; [intros; apply Hes; by right|done|]. qc_lra. }
  split; [done|]. unfold pairs_ok, emit. cbn [as_array].
  assert (row_id <$> (pair_of withToggle <$> real_rows t) = tr_id <$> real_rows t) as Ei.
  { rewrite <- list_fmap_compose. apply list_fmap_ext. intros i r _. cbn. by destruct withToggle. }
  unfold given_ids. rewrite Ei. split.
  - eapply sublist_NoDup; [exact (to_ids t Ht)|]. etrans; [apply bfilter_sublist|apply fmap_sublist, bfilter_sublist].
  - intros i [Hi _]%elem_of_bfilter. apply list_elem_of_fmap in Hi as (r & -> & [Hr _]%elem_of_bfilter).
    apply (to_below t Ht). by apply list_elem_of_fmap_2.
Qed.

(** Handing back what the table gave changes none of its real rows, as its parent
    sees them. *)
Theorem table_echo num_toString withToggle lockedKeys t :
  table_ok t → (∀ r, r ∈ real_rows t → plain_value (tr_value r)) →
  emit withToggle (table_props num_toString lockedKeys (emit withToggle t) t) = emit withToggle t.
Proof.
  intros Ht Hv. unfold table_props. case_bool_decide; [done|].
  destruct (echo_normalized withToggle lockedKeys t Ht Hv) as (ph & E & Hp). unfold emit at 1, real_rows. rewrite E, bfilter_app.
  cbn [bfilter]. unfold is_real at 2. rewrite Hp. cbn [negb]. rewrite app_nil_r. unfold emit. f_equal.
  rewrite bfilter_all by (intros r (r' & -> & _)%list_elem_of_fmap; done).
  rewrite <- list_fmap_compose. apply list_fmap_ext. intros i r _. unfold pair_of, echoed. cbn. by destruct withToggle.
Qed.

(** The comparison that should keep the rows when the parent only hands back what
    it was given never holds: one side counts the last row, the other does not. *)
Lemma echo_never_matches num_toString lockedKeys t :
  table_ok t → (∀ r, r ∈ real_rows t → plain_value (tr_value r)) →
  (∀ r, r ∈ real_rows t → tr_enabled r = true) →
  signature num_toString (tb_rows (normalize lockedKeys (tb_nextId t) (emit false t))) ≠ signature num_toString (real_rows t).
Proof.
  intros Ht Hv Hen. destruct (echo_normalized false lockedKeys t Ht Hv) as (ph & -> & Hp). unfold signature.
  rewrite fmap_app, <- list_fmap_compose. intros E. apply (f_equal String.length) in E. revert E.
  assert (row_signature num_toString ∘ echoed false lockedKeys <$> real_rows t = row_signature num_toString <$> real_rows t) as ->.
  { apply list_fmap_ext. intros i r Hr. cbn. unfold row_signature, echoed. cbn. rewrite (Hen r); [done|]. by eapply list_elem_of_lookup_2. }
  cbn [fmap list_fmap]. destruct (real_rows t) as [|r l].
  { change (join _ _) with (row_signature num_toString ph) at 1. unfold row_signature. rewrite !str_app_length. cbn. lia. }
  rewrite <- join_snoc_length by done. cbn [String.length]. lia.
Qed.

(** *** Locked rows *)

Lemma locked_step num_toString lockedKeys t e i k :
  (∀ pairs, e ≠ Props pairs) →
  (∃ r, r ∈ tb_rows t ∧ tr_locked r = true ∧ tr_id r = i ∧ tr_key r = k) →
  ∃ r, r ∈ tb_rows (table_step num_toString lockedKeys t e) ∧ tr_locked r = true ∧ tr_id r = i ∧ tr_key r = k.
Proof.
  intros Hp (r & Hr & Hl & Hi & Hk). apply list_elem_of_lookup in Hr as [j Hj].
  assert (∀ j' r', tb_rows t !! j' = Some r' → tr_locked r' = false → j ≠ j') as Hne by (intros j' r' ? ? ->; congruence).
  assert (∀ j' r', j ≠ j' → r ∈ <[j' := r']> (tb_rows t)) as Hins.
  { intros j' r' ?. eapply list_elem_of_lookup_2. by rewrite list_lookup_insert_ne. }
  assert (r ∈ tb_rows t) as Hin by (by eapply list_elem_of_lookup_2).
  assert (∀ j' r0 r' typed, tb_rows t !! j' = Some r0 → tr_locked r' = tr_locked r0 → tr_id r' = tr_id r0 →
    (tr_locked r0 = true → tr_key r' = tr_key r0) →
    ∃ x, x ∈ tb_rows (promote j' r' typed t) ∧ tr_locked x = true ∧ tr_id x = i ∧ tr_key x = k) as Hpr.
  { intros j' r0 r' typed H0 H1 H2 H3. destruct (decide (j = j')) as [<-|Hjj].
    - assert (r0 = r) as -> by congruence. unfold promote. destruct (_ && _); cbn [tb_rows].
      + exists (promoted r'). rewrite elem_of_app. split; [left; eapply list_elem_of_lookup_2, list_lookup_insert_eq; by eapply lookup_lt_Some|].
        cbn. by rewrite H1, H2, H3.
      + exists r'. split; [eapply list_elem_of_lookup_2, list_lookup_insert_eq; by eapply lookup_lt_Some|]. by rewrite H1, H2, H3.
    - exists r. split; [|done]. unfold promote. destruct (_ && _); cbn [tb_rows]; [apply elem_of_app; left|]; by apply Hins. }
  destruct e as [|j'|j' k'|j' v|j'|pairs]; cbn [table_step]; [| | | | |by destruct (Hp pairs)].
  - exists (if tr_placeholder r then r else with_enabled (negb (allEnabled t)) r). split; [|by destruct (tr_placeholder r)].
    unfold onToggleAll. cbn [fst tb_rows]. apply list_elem_of_fmap. by exists r.
  - unfold onToggleRow. destruct (tb_rows t !! j') as [r'|] eqn:E; [|eauto]. destruct (_ || _) eqn:Eb; [eauto|].
    apply orb_false_iff in Eb as [_ Eb]. exists r. cbn [fst tb_rows]. split; [|done]. eapply Hins, Hne; eauto.
  - unfold onKeyChange. destruct (tb_rows t !! j') as [r'|] eqn:E; [|eauto]. destruct (tr_locked r') eqn:El; [eauto|].
    apply (Hpr _ _ _ _ E); [done|done|]. cbn. congruence.
  - unfold onValueChange. destruct (tb_rows t !! j') as [r'|] eqn:E; [|eauto]. by apply (Hpr _ _ _ _ E).
  - unfold removeRow. destruct (tb_rows t !! j') as [r'|] eqn:E; [|eauto]. destruct (_ || _) eqn:Eb; [eauto|].
    apply orb_false_iff in Eb as [_ Eb]. exists r. cbn [fst tb_rows]. split; [|done]. pose proof (Hne _ _ E Eb).
    rewrite <- delete_take_drop. apply list_elem_of_lookup. destruct (decide (j < j')%nat).
    + exists j. by rewrite list_lookup_delete_lt.
    + exists (pred j). rewrite list_lookup_delete_ge by lia. by replace (S (pred j)) with j by lia.
Qed.

(** A locked row cannot be renamed or removed: while the parent hands in nothing
    new, a row that is locked stays in the table under its id with its key. *)
Theorem locked_rows_survive num_toString lockedKeys t es r :
  (∀ pairs, Props pairs ∉ es) → r ∈ tb_rows t → tr_locked r = true →
  ∃ r', r' ∈ tb_rows (foldl (table_step num_toString lockedKeys) t es) ∧
    tr_locked r' = true ∧ tr_id r' = tr_id r ∧ tr_key r' = tr_key r.
Proof.
  intros Hes Hr Hl. assert (∃ x, x ∈ tb_rows t ∧ tr_locked x = true ∧ tr_id x = tr_id r ∧ tr_key x = tr_key r) as H by eauto.
  clear Hr. revert t H. induction es as [|e es IH]; intros t H; [done|]. cbn [foldl]. apply IH.
  - intros pairs Hin. apply (Hes pairs). by right.
  - apply locked_step; [|done]. intros pairs ->. apply (Hes pairs). left.
Qed.

(** The switch for all rows switches locked rows too, whose own switch is taken
    away. *)
Lemma toggle_all_locked num_toString i k v :
  let t := Table [TableRow i k v true false true; makePlaceholder (i + 1)%Qc] (i + 1 + 1)%Qc in
  tr_enabled <$> real_rows (table_step num_toString [k] t (ToggleRow 0)) = [true] ∧
  tr_enabled <$> real_rows (table_step num_toString [k] t ToggleAll) = [false].
Proof. by split. Qed.

(** *** Witnesses *)

Definition demo_pairs : jsval := JArr [JObj [("id", JInt 1); ("key", JStr "a"); ("value", JStr "x")]; JObj [("key", JStr "b")]].
Definition demo_events : list table_event :=
  [KeyChange 2 "c"; Props demo_pairs; ValueChange 0 (JStr "y"); RemoveRow 1; ToggleAll].

Lemma demo_pairs_ok : pairs_ok demo_pairs.
Proof. split; [apply (bool_decide_unpack _); vm_compute; exact I|]. intros i Hi. vm_compute in Hi. apply elem_of_cons in Hi as [->|Hi]; [done|by apply not_elem_of_nil in Hi]. Qed.

Lemma table_rows_distinct_witness :
  let t := foldl (table_step (λ _, "") []) (new_table [] demo_pairs) demo_events in
  table_ok t ∧ emit true t = JArr [JObj [("id", JInt 1); ("key", JStr "a"); ("value", JStr "y"); ("enabled", JBool false)]].
Proof.
  intros t. split; [|vm_compute; reflexivity].
  apply (table_rows_distinct (λ _, "") true [] demo_pairs demo_events demo_pairs_ok).
  intros p Hp. unfold demo_events in Hp. repeat (apply elem_of_cons in Hp as [E|Hp]; [inversion E; subst; apply demo_pairs_ok|]). by apply not_elem_of_nil in Hp.
Defined.

Lemma table_echo_witness :
  let t := new_table ["a"] demo_pairs in
  emit true (table_props (λ _, "") ["a"] (emit true t) t) = emit true t.
Proof.
  intros t. apply (table_echo (λ _, "") true ["a"] t).
  - apply (normalize_ok ["a"] 1%Qc demo_pairs); [done|apply demo_pairs_ok].
  - intros r Hr. vm_compute in Hr. repeat (apply elem_of_cons in Hr as [->|Hr]; [reflexivity|]). by apply not_elem_of_nil in Hr.
Defined.

Lemma locked_rows_survive_witness :
  ∃ r', r' ∈ tb_rows (foldl (table_step (λ _, "") ["a"]) (new_table ["a"] demo_pairs) [KeyChange 0 "z"; RemoveRow 0; ToggleAll]) ∧
    tr_locked r' = true ∧ tr_id r' = 1%Qc ∧ tr_key r' = "a".
Proof.
  refine (locked_rows_survive (λ _, "") ["a"] (new_table ["a"] demo_pairs) [KeyChange 0 "z"; RemoveRow 0; ToggleAll]
    (TableRow 1%Qc "a" (JStr "x") true false true) _ _ eq_refl).
  - intros pairs Hin. repeat (apply elem_of_cons in Hin as [E|Hin]; [discriminate E|]). by apply not_elem_of_nil in Hin.
  - apply elem_of_cons. left. vm_compute. reflexivity.
Defined.
