(* ===== verification/ControlEditors.v ===== *)
(** * The editors of composite settings (components/controls/body_type_control.js,
    auth_control.js, trigger_fields_control.js and components/control_renderer.js)

    Each editor keeps a normalized copy of the value it was given, changes it and
    hands it to its parent; a value handed in replaces the copy when it prints
    differently. *)

From S2P Require Import Prelude JsMap JsValue JsNumber JsString Control Suggestions KeyValueTable.

Definition is_object (v : jsval) : bool := match v with JObj _ | JArr _ => true | _ => false end.

(** ** The body of a request *)

Record body_value := BodyValue {
  bv_content_type : jsval;
  bv_body : jsval;
  bv_form_data : list jsval;
  bv_raw_type : jsval;
}.

Definition BODY_TYPES : list (string * string) :=
  [("none", "none"); ("json", "JSON"); ("form_data", "form-data"); ("urlencoded", "x-www-form-urlencoded"); ("raw", "raw")].
Definition RAW_CONTENT_TYPES : list (string * string) :=
  [("text/plain", "Text"); ("text/html", "HTML"); ("application/xml", "XML")].
Definition DEFAULT_BODY_SUGGESTIONS : jsval :=
  JObj [("content_type", JArr (JStr <$> ["none"; "json"; "form_data"; "urlencoded"; "raw"]));
        ("form_data_value", JArr (JStr <$> ["true"; "false"; "null"]))].

(** [_normalize(val)] *)
Definition body_normalize (val : jsval) : body_value :=
  if truthy val && is_object val then
    BodyValue (js_or (prop val "content_type") (JStr "none")) (js_or (prop val "body") (JStr ""))
      (as_array (prop val "form_data")) (js_or (prop val "raw_type") (JStr "text/plain"))
  else BodyValue (JStr "none") (JStr "") [] (JStr "text/plain").

(** [_emit()] *)
Definition body_emit (b : body_value) : jsval :=
  JObj [("content_type", bv_content_type b); ("body", bv_body b); ("form_data", JArr (bv_form_data b)); ("raw_type", bv_raw_type b)].

(** [onTypeClick], [onBodyChange] (and [onCodeChange]), [onRawTypeChange],
    [onFormDataChange] *)
Definition onTypeClick (type : string) (b : body_value) : body_value :=
  BodyValue (JStr type) (bv_body b) (bv_form_data b) (bv_raw_type b).
Definition onBodyChange (value : jsval) (b : body_value) : body_value :=
  BodyValue (bv_content_type b) value (bv_form_data b) (bv_raw_type b).
Definition onRawTypeChange (type : string) (b : body_value) : body_value :=
  BodyValue (bv_content_type b) (bv_body b) (bv_form_data b) (JStr type).
Definition onFormDataChange (pairs : list jsval) (b : body_value) : body_value :=
  BodyValue (bv_content_type b) (bv_body b) pairs (bv_raw_type b).

Section controls.
Context (num_toString : num → string) (json_stringify : jsval → string).

(** [onWillUpdateProps] *)
Definition body_props (val : jsval) (b : body_value) : body_value :=
  let next := body_normalize val in
  if json_stringify (body_emit next) =s json_stringify (body_emit b) then b else next.

(** [getFieldSuggestions(fieldKey)] *)
Definition suggestions_object (l : list suggestion) : jsval :=
  JArr ((λ s, suggestion_object (sg_value s) (sg_label s) (sg_description s)) <$> l).
Definition getFieldSuggestions (defaults suggestionsByKey : jsval) (fieldKey : string) : list suggestion :=
  mergeUniqueSuggestions num_toString
    [suggestions_object (getSuggestionsByKey num_toString defaults fieldKey);
     suggestions_object (getSuggestionsByKey num_toString suggestionsByKey fieldKey)].

(** ** Authentication *)

Definition AUTH_TYPES : list (string * string) :=
  [("none", "No Auth"); ("bearer", "Bearer Token"); ("basic", "Basic Auth"); ("api_key", "API Key");
   ("oauth2", "OAuth 2.0"); ("custom_header", "Custom Header")].
Definition API_KEY_LOCATIONS : list (string * string) := [("header", "Header"); ("query", "Query Params")].
Definition DEFAULT_AUTH_SUGGESTIONS : jsval :=
  JObj [("header_name", JArr (JStr <$> ["Authorization"; "X-API-Key"; "X-Auth-Token"]));
        ("key_name", JArr (JStr <$> ["X-API-Key"; "api_key"; "token"]));
        ("key_location", JArr (JStr <$> ["header"; "query"]));
        ("scope", JArr (JStr <$> ["read"; "write"; "read write"]))].

(** [_normalize(val)] *)
Definition auth_normalize (val : jsval) : jsobj :=
  if truthy val && is_object val then ospread [("type", JStr "none")] (entries val) else [("type", JStr "none")].

Definition auth_props (val : jsval) (a : jsobj) : jsobj :=
  let next := auth_normalize val in
  if json_stringify (JObj next) =s json_stringify (JObj a) then a else next.

(** [authType], [authTypeLabel], [getField(field)] *)
Definition authType (a : jsobj) : jsval := js_or (oprop a "type") (JStr "none").
Definition authTypeLabel (a : jsobj) : string :=
  match find_first (λ t, strict_eq (JStr t.1) (authType a)) AUTH_TYPES with Some t => t.2 | None => "No Auth" end.
Definition getField (field : string) (a : jsobj) : jsval := js_or (oprop a field) (JStr "").

(** [onTypeChange(ev)], [onFieldChange(field, value)] (and [onSelectFieldChange]) *)
Definition onTypeChange (newType : string) (a : jsobj) : jsobj := [("type", JStr newType)].
Definition auth_onFieldChange (field : string) (value : jsval) (a : jsobj) : jsobj := oset field value a.

(** ** The fields a trigger watches *)

(** [normalizeValues(value)] *)
Definition normalizeValues (value : jsval) : list string :=
  omap (λ item, match item with JStr s => if trim s =s "" then None else Some (trim s) | _ => None end) (as_array value).

(** [selectedValues], a set in insertion order. *)
Definition selectedValues (value : jsval) : list string := unique (normalizeValues value).
Definition isChecked (value : jsval) (fieldName : string) : bool := bool_decide (fieldName ∈ selectedValues value).

(** [fields]: name, label and type of each suggestion. *)
Definition trigger_fields (suggestions : jsval) : list (jsval * jsval * jsval) :=
  (λ f, (js_or (prop f "value") (js_or (prop f "name") (JStr "")),
         js_or (prop f "label") (js_or (prop f "value") (js_or (prop f "name") (JStr ""))),
         js_or (prop f "type") (js_or (prop f "description") (JStr "unknown")))) <$> as_array suggestions.

(** [onToggle(fieldName, ev)]: what the parent is handed. *)
Definition onToggle (value : jsval) (fieldName : string) (checked : bool) : jsval :=
  let next := selectedValues value in
  JArr (JStr <$> (if checked then (if bool_decide (fieldName ∈ next) then next else next ++ [fieldName])
                  else bfilter (λ f, negb (f =s fieldName)) next)).

(** ** The renderer of a control *)

Definition controlType (c : jsval) : jsval := js_or (prop c "type") (JStr "text").
Definition renderer_isReadonly (readonly : bool) (c : jsval) : bool := readonly || truthy (prop c "readonly").
Definition renderer_value (c : jsval) : jsval := js_nullish (prop c "value") (JStr "").
Definition renderer_options (c : jsval) : jsval := js_or (prop c "options") (JArr []).
Definition renderer_suggestionsByKey (c : jsval) : jsval :=
  match prop c "suggestionsByKey" with JObj o => JObj o | _ => JObj [] end.
Definition renderer_lockedKeys (c : jsval) : list jsval := as_array (prop c "locked_keys").

(** [resModel], [operation]: read from the values of the sibling controls. *)
Definition renderer_resModel (controlValues : jsval) : string :=
  match prop controlValues "model" with JStr s => trim s | _ => "" end.
Definition renderer_operation (controlValues : jsval) : string :=
  match prop controlValues "operation" with JStr s => s | _ => "" end.

(** [getPairValueSuggestions(pair)] *)
Definition getPairValueSuggestions (c pair : jsval) : list suggestion :=
  let pairKey := match prop pair "key" with JStr s => s | _ => "" end in
  getSuggestionsByKey num_toString (renderer_suggestionsByKey c) pairKey.

End controls.

(** ** Facts *)

Lemma elem_selected value f : f ∈ selectedValues value ↔ f ∈ normalizeValues value.
Proof. unfold selectedValues, unique. rewrite elem_of_unique_from. set_solver. Qed.

Lemma normalizeValues_strings l : (∀ f, f ∈ l → trim f = f ∧ f ≠ "") → normalizeValues (JArr (JStr <$> l)) = l.
Proof.
  unfold normalizeValues. cbn [as_array]. induction l as [|f l IH]; intros H; [done|]. csimpl.
  destruct (H f ltac:(left)) as [Ht Hf]. rewrite Ht, bool_decide_false by done. rewrite IH; [done|]. intros; apply H; by right.
Qed.

Lemma selected_clean value f : f ∈ selectedValues value → trim f = f ∧ f ≠ "".
Proof.
  rewrite elem_selected. intros (x & _ & Hx)%list_elem_of_omap. destruct x as [| | | |s| |]; try done.
  destruct (bool_decide_reflect (trim s = "")); [done|]. injection Hx as <-. split; [apply trim_idem|done].
Qed.

(** ** Properties *)

(** Ticking a field that a trigger watches adds it and nothing else, clearing it
    takes it away and nothing else; the list handed on has no duplicates. *)
Theorem toggle_field_exact value f checked :
  trim f = f → f ≠ "" →
  let value' := onToggle value f checked in
  isChecked value' f = checked ∧ (∀ g, g ≠ f → isChecked value' g = isChecked value g) ∧
  NoDup (normalizeValues value').
Proof.
  intros Ht Hf. cbv zeta. unfold onToggle, isChecked. set (next := selectedValues value).
  assert (NoDup next) as Hd by apply NoDup_unique_from.
  assert (∀ g, g ∈ next → trim g = g ∧ g ≠ "") as Hc by (intros g; apply selected_clean).
  set (l := if checked then _ else _).
  assert ((∀ g, g ∈ l ↔ if decide (g = f) then checked = true else g ∈ next) ∧ NoDup l) as [Hl Hdl].
  { unfold l. destruct checked; [case_bool_decide as Hin|].
    - split; [|done]. intros g. destruct (decide (g = f)) as [->|]; done.
    - split; [|apply NoDup_app; split_and!; [done|intros x Hx ->%list_elem_of_singleton; done|apply NoDup_singleton]].
      intros g. rewrite elem_of_app, list_elem_of_singleton. destruct (decide (g = f)) as [->|]; [tauto|]. naive_solver.
    - split; [|eapply sublist_NoDup; [exact Hd|apply bfilter_sublist]].
      intros g. rewrite elem_of_bfilter, negb_true_iff, bool_decide_eq_false. destruct (decide (g = f)) as [->|]; naive_solver. }
  clearbody l. rewrite normalizeValues_strings.
  - split_and!; [| |done]; intros; unfold isChecked; [apply Bool.eq_iff_eq_true|apply bool_decide_ext]; rewrite ?bool_decide_eq_true, elem_selected,
      normalizeValues_strings; rewrite ?Hl; try (destruct (decide _); done).
    all: intros g' Hg'; rewrite Hl in Hg'; destruct (decide (g' = f)) as [->|]; auto.
  - intros g Hg. rewrite Hl in Hg. destruct (decide (g = f)) as [->|]; auto.
Qed.

Lemma toggle_field_exact_witness :
  let v := onToggle (JArr [JStr " name "; JStr "email"; JNull]) "phone" true in
  v = JArr [JStr "name"; JStr "email"; JStr "phone"] ∧ isChecked v "phone" = true.
Proof.
  split; [vm_compute; reflexivity|].
  exact (proj1 (toggle_field_exact (JArr [JStr " name "; JStr "email"; JNull]) "phone" true eq_refl ltac:(discriminate))).
Defined.

(** Choosing another kind of authentication forgets everything that was entered for
    the one before. *)
Lemma auth_type_resets a t f : f ≠ "type" → getField f (onTypeChange t a) = JStr "".
Proof. intros H. unfold getField, onTypeChange, oprop. cbn. by rewrite bool_decide_false. Qed.

(** A body that is handed back changes nothing, whatever was edited. *)
Lemma body_echo json_stringify val ts b :
  (∀ t, t ∈ ts → t ≠ "") → b = foldl (λ b t, onTypeClick t b) (body_normalize val) ts →
  body_props json_stringify (body_emit b) b = b.
Proof.
  intros Hts Hb. unfold body_props. assert (body_normalize (body_emit b) = b) as ->; [|by case_bool_decide].
  assert (js_or (bv_content_type b) (JStr "none") = bv_content_type b ∧ js_or (bv_body b) (JStr "") = bv_body b ∧
    js_or (bv_raw_type b) (JStr "text/plain") = bv_raw_type b) as (H1 & H2 & H3).
  { assert (∀ v d, js_or (js_or v d) d = js_or v d) as Hj by (intros v d; unfold js_or; destruct (truthy v) eqn:E; [by rewrite E|by destruct (truthy d)]).
    subst b. assert (∀ b, (js_or (bv_content_type b) (JStr "none") = bv_content_type b ∧ js_or (bv_body b) (JStr "") = bv_body b ∧
      js_or (bv_raw_type b) (JStr "text/plain") = bv_raw_type b) → let b' := foldl (λ b t, onTypeClick t b) b ts in
      (js_or (bv_content_type b') (JStr "none") = bv_content_type b' ∧ js_or (bv_body b') (JStr "") = bv_body b' ∧
      js_or (bv_raw_type b') (JStr "text/plain") = bv_raw_type b')) as Hind.
    { induction ts as [|t ts IH]; intros b (H1 & H2 & H3); [done|]. cbn [foldl]. apply IH; [intros; apply Hts; by right|]. cbn.
      split_and!; [|done..]. unfold js_or. cbn. by rewrite bool_decide_false by (apply Hts; left). }
    apply Hind. unfold body_normalize. destruct (_ && _); cbn; split_and!; try done; apply Hj. }
  destruct b as [c bd fd rt]. cbn [bv_content_type bv_body bv_raw_type] in *.
  change (BodyValue (js_or c (JStr "none")) (js_or bd (JStr "")) fd (js_or rt (JStr "text/plain")) = BodyValue c bd fd rt).
  by rewrite H1, H2, H3.
Qed.
