(* ===== verification/ExecutionLog.v ===== *)
(** * The log of an execution (components/execution_log_panel/execution_log_panel.js
    and components/svg_timeline/svg_timeline.js)

    The panel lists the steps of the run the store keeps, shows one of them in
    detail and draws them on a time line.  [execution] is the progress of the run
    as an object, null when there is none. *)

From S2P Require Import Prelude JsMap JsValue JsNumber JsString Geometry.

Definition DEFAULT_PANEL_HEIGHT : num := num_of_Z 280.
Definition MIN_PANEL_HEIGHT : num := num_of_Z 120.
Definition MAX_PANEL_HEIGHT_RATIO : num := decimal 7 10.

Definition str_field (v : jsval) (k : string) : string := match prop v k with JStr s => s | _ => "" end.
Definition num_field (v : jsval) (k : string) : option num := match prop v k with JNum n => Some n | _ => None end.
Definition or_null_value (v : jsval) : jsval := js_or v JNull.

Record step := Step {
  sp_rowKey : string;
  sp_index : nat;
  sp_sequence : num;
  sp_iteration : option num;
  sp_nodeId : string;
  sp_label : string;
  sp_status : string;
  sp_durationMs : option num;
  sp_startedAt : jsval;
  sp_completedAt : jsval;
  sp_inputData : jsval;
  sp_outputData : jsval;
  sp_errorMessage : jsval;
  sp_nodeType : jsval;
  sp_outputSocket : jsval;
  sp_meta : jsval;
}.

Section log.
(** How numbers are printed, [Date.parse], and [toFixed]. *)
Context (num_toString : num → string) (date_parse : string → option num) (toFixed : num → nat → string).

(** [parseIsoDate(value)] *)
Definition parseIsoDate (v : jsval) : option num :=
  match v with JStr s => if s =s "" then None else date_parse s | _ => None end.

Definition str_or_else (a : string) (b : string) : string := if a =s "" then b else a.

(** [_buildStep(result, index)] *)
Definition buildStep (result : jsval) (index : nat) : step :=
  let sequence := default (num_of_Z (Z.of_nat index)) (num_field result "sequence") in
  let nodeId := str_field result "node_id" in
  Step (str_or_else (str_field result "row_key") (str_or_else nodeId "step" +:+ "_" +:+ num_toString sequence))
    index sequence (num_field result "iteration") nodeId
    (str_or_else (str_field result "node_label") (str_or_else (str_field result "title")
       (str_or_else (str_field result "node_type") (str_or_else nodeId ("Step " +:+ pretty (S index))))))
    (if truthy (prop result "error_message") then "error" else str_or_else (str_field result "status") "completed")
    (num_field result "duration_ms") (or_null_value (prop result "started_at")) (or_null_value (prop result "completed_at"))
    (match prop result "input_data" with JUndef => JNull | v => v end) (prop result "output_data")
    (or_null_value (prop result "error_message")) (or_null_value (prop result "node_type"))
    (or_null_value (prop result "output_socket")) (or_null_value (prop result "meta")).

(** The entry made up for a node that has no result yet. *)
Definition pending_result (execution : jsval) (nodeId : string) : jsval :=
  JObj [("node_id", JStr nodeId); ("node_label", JStr nodeId);
        ("status", js_or (prop (prop execution "nodeStatuses") nodeId) (JStr "running"));
        ("duration_ms", JNull); ("output_data", JNull); ("error_message", JNull)].

(** [!result || !result.node_id] *)
Definition has_node (result : jsval) : bool := truthy result && negb (str_field result "node_id" =s "").

(** [resultsByNodeId]: the last result of each node. *)
Definition results_by_node (results : list jsval) : list (string * jsval) :=
  foldl (λ m r, mset (str_field r "node_id") r m) [] (bfilter has_node results).

(** What the steps are built from: the events, or the nodes in their order with
    their results and then the results of other nodes. *)
Definition ordered_results (execution : jsval) (order : list string) (results : list jsval) : list jsval :=
  ((λ i, default (pending_result execution i) (jget i (results_by_node results))) <$> order) ++
  bfilter (λ r, has_node r && negb (bool_decide (str_field r "node_id" ∈ order))) results.

Definition order_of (execution : jsval) : list string :=
  omap (λ v, match v with JStr s => if s =s "" then None else Some s | _ => None end) (as_array (prop execution "executedOrder")).

Definition step_results (execution : jsval) : list jsval :=
  if negb (truthy execution) then []
  else match as_array (prop execution "executionEvents") with
       | [] => ordered_results execution (order_of execution) (as_array (prop execution "nodeResults"))
       | events => events
       end.

(** [executionSteps] *)
Definition executionSteps (execution : jsval) : list step :=
  imap (λ i r, buildStep r i) (step_results execution).

(** [hasExecution], [isRunningExecution] *)
Definition hasExecution (execution : jsval) : bool :=
  truthy execution &&
  ((0 <? length (executionSteps execution))%nat || truthy (prop execution "error") || truthy (prop execution "errorNodeId") ||
   negb (is_nullish (prop execution "outputData")) || (0 <? length (as_array (prop execution "executedConnections")))%nat).
Definition isRunningExecution (execution : jsval) : bool :=
  truthy execution && strict_eq (prop execution "status") (JStr "running") && Nat.eqb (length (executionSteps execution)) 0.

(** [failedStepCount], [completedStepCount] *)
Definition is_failed (s : step) : bool :=
  (sp_status s =s "failed") || (sp_status s =s "error") || truthy (sp_errorMessage s).
Definition failedStepCount (execution : jsval) : nat := length (bfilter is_failed (executionSteps execution)).
Definition completedStepCount (execution : jsval) : nat := length (executionSteps execution).

(** [totalDurationMs] *)
Definition sum_durations (steps : list step) : num := foldl (λ t s, (t + default 0%Qc (sp_durationMs s))%Qc) 0%Qc steps.
Definition totalDurationMs (execution : jsval) : num :=
  match num_field execution "durationSeconds" with
  | Some d => if truthy execution then num_max 1%Qc (d * num_of_Z 1000)%Qc else num_max 1%Qc (sum_durations (executionSteps execution))
  | None => num_max 1%Qc (sum_durations (executionSteps execution))
  end.

(** [rawExecutionPayload] *)
Definition rawExecutionPayload (execution : jsval) : jsobj :=
  if negb (truthy execution) then []
  else
    let get k d := js_or (prop execution k) d in
    [("runId", get "runId" JNull); ("status", get "status" JNull); ("error", get "error" JNull);
     ("errorNodeId", get "errorNodeId" JNull); ("executionCount", get "executionCount" JNull);
     ("durationSeconds", get "durationSeconds" JNull); ("nodeCountExecuted", get "nodeCountExecuted" JNull);
     ("inputData", get "inputData" (JObj [])); ("outputData", prop execution "outputData");
     ("executedOrder", get "executedOrder" (JArr [])); ("executedConnectionIds", get "executedConnectionIds" (JArr []));
     ("executedConnections", get "executedConnections" (JArr [])); ("executionEvents", get "executionEvents" (JArr []));
     ("nodeStatuses", get "nodeStatuses" (JObj [])); ("nodeResults", get "nodeResults" (JArr []));
     ("nodeOutputs", get "nodeOutputs" JNull); ("contextSnapshot", get "contextSnapshot" JNull)].

(** [formatDuration(durationMs)], of the panel and of the time line. *)
Definition formatDuration (durationMs : option num) : string :=
  match durationMs with
  | None => "—"
  | Some d =>
      if bool_decide (d < num_of_Z 1000)%Qc then num_toString (num_of_Z (num_round d)) +:+ "ms"
      else
        let s := (d / num_of_Z 1000)%Qc in
        if bool_decide (s < num_of_Z 10)%Qc then toFixed s 2 +:+ "s" else toFixed s 1 +:+ "s"
  end.

(** ** The time line *)

Record bar := Bar { br_step : step; br_offsetMs : num; br_timelineDurationMs : num }.
Record tick := Tick { tk_key : string; tk_ratio : num; tk_label : string }.
Record gantt := Gantt { gt_bars : list bar; gt_ticks : list tick; gt_totalDurationMs : num; gt_hasAbsoluteTiming : bool }.

(** The moments of all steps, when all of them are known. *)
Definition absolute_steps (steps : list step) : option (list (step * num * num)) :=
  mapM (λ s, match parseIsoDate (sp_startedAt s), parseIsoDate (sp_completedAt s) with
             | Some a, Some b => Some (s, a, b)
             | _, _ => None
             end) steps.

Definition minimum (x : num) (l : list num) : num := foldl num_min x l.
Definition maximum (x : num) (l : list num) : num := foldl num_max x l.

(** One after the other: each bar begins where the one before ends. *)
Fixpoint sequential_bars (offsetMs : num) (steps : list step) : list bar * num :=
  match steps with
  | [] => ([], offsetMs)
  | s :: steps =>
      let durationMs := num_max (default 0%Qc (sp_durationMs s)) 1%Qc in
      let '(bars, finish) := sequential_bars (offsetMs + durationMs)%Qc steps in
      (Bar s offsetMs durationMs :: bars, finish)
  end.

Definition absolute_bar (minStart : num) (e : step * num * num) : bar :=
  let '(s, startedAtMs, completedAtMs) := e in
  Bar s (num_max 0%Qc (startedAtMs - minStart)%Qc)
    (num_max (num_max (default 0%Qc (sp_durationMs s)) (completedAtMs - startedAtMs)%Qc) 1%Qc).

Definition gantt_ticks (totalMs : num) : list tick :=
  (λ i, let ratio := (num_of_Z (Z.of_nat i) / num_of_Z 4)%Qc in
        Tick ("tick_" +:+ pretty i) ratio (formatDuration (Some (totalMs * ratio)%Qc))) <$> seq 0 5.

(** [ganttModel] *)
Definition ganttModel (execution : jsval) : gantt :=
  match executionSteps execution with
  | [] => Gantt [] [] 1%Qc false
  | steps =>
      let '(bars, totalMs, absolute) :=
        match absolute_steps steps with
        | Some (((_, a, b) :: _) as timed) =>
            let minStart := minimum a ((λ e, e.1.2) <$> timed) in
            let maxEnd := maximum b (snd <$> timed) in
            (absolute_bar minStart <$> timed,
             num_max (num_max (totalDurationMs execution) (maxEnd - minStart)%Qc) 1%Qc, true)
        | _ =>
            let '(bars, finish) := sequential_bars 0%Qc steps in
            (bars, num_max (num_max (totalDurationMs execution) finish) 1%Qc, false)
        end in
      Gantt bars (gantt_ticks totalMs) totalMs absolute
  end.

(** The items handed to the drawing of the time line. *)
Record timeline_item := TimelineItem { it_id : string; it_label : string; it_offsetMs : num; it_durationMs : num; it_status : string }.

Definition timeline_item_of (b : bar) : timeline_item :=
  let s := br_step b in
  TimelineItem (sp_rowKey s) (sp_label s) (br_offsetMs b) (br_timelineDurationMs b)
    (if truthy (sp_errorMessage s) then "error" else if sp_status s =s "running" then "running" else "success").

(** [svgTimelineProps]: the items and the ids that are selected. *)
Definition svgTimelineProps (execution : jsval) (selectedNodeIds : list string) : list timeline_item * num * list string :=
  let model := ganttModel execution in
  (timeline_item_of <$> gt_bars model, gt_totalDurationMs model, selectedNodeIds).

(** What a click on an item of the time line focuses. *)
Definition onItemClick_focus (execution : jsval) (itemId : string) : option string :=
  match find_first (λ b, sp_rowKey (br_step b) =s itemId) (gt_bars (ganttModel execution)) with
  | Some b => if sp_nodeId (br_step b) =s "" then None else Some (sp_nodeId (br_step b))
  | None => None
  end.

(** *** The drawing

    Of a bar the geometry, and what depends on it. *)

Record svg_bar := SvgBar { sb_id : string; sb_x : Z; sb_y : num; sb_width : Z; sb_height : num; sb_isSelected : bool; sb_showDurationLabel : bool }.

Definition rowHeight : num := num_of_Z 32.
Definition barPadding : num := num_of_Z 5.
Definition tickHeight : num := num_of_Z 24.
Definition minBarWidth : num := num_of_Z 6.

(** [trackWidth]: whole pixels, at least one. *)
Definition trackWidth (measured : Z) : Z := Z.max measured 1.
Definition totalHeight (items : nat) : num := (tickHeight + num_of_Z (Z.of_nat items) * rowHeight)%Qc.

(** [svgBars] *)
Definition svg_bar_of (trackWidth : Z) (total : num) (selectedIds : list string) (index : nat) (item : timeline_item) : svg_bar :=
  let tw := num_of_Z trackWidth in
  let rawLeft := (it_offsetMs item / total * tw)%Qc in
  let rawWidth := (it_durationMs item / total * tw)%Qc in
  let w := num_round (num_max rawWidth minBarWidth) in
  SvgBar (it_id item) (num_round (num_min rawLeft (tw - minBarWidth)%Qc))
    (tickHeight + num_of_Z (Z.of_nat index) * rowHeight + barPadding)%Qc w (rowHeight - num_of_Z 2 * barPadding)%Qc
    (bool_decide (it_id item ∈ selectedIds)) (bool_decide (40 ≤ w)%Z).
Definition svgBars (trackWidth : Z) (items : list timeline_item) (totalMs : num) (selectedIds : list string) : list svg_bar :=
  imap (svg_bar_of trackWidth (num_max totalMs 1%Qc) selectedIds) items.

(** [svgTicks]: where a tick is drawn, where its label and how it is anchored. *)
Definition svg_tick (trackWidth : Z) (t : tick) : Z * Z * string :=
  let x := num_round (tk_ratio t * num_of_Z trackWidth)%Qc in
  if bool_decide (decimal 98 100 ≤ tk_ratio t)%Qc then (x, (x - 2)%Z, "end") else (x, (x + 2)%Z, "start").

(** ** The panel *)

Record log_panel := LogPanel {
  activeTab : string;
  listMode : string;
  detailSelectedKey : option string;
  detailShowInput : bool;
  detailShowOutput : bool;
  customHeight : num;
  resizing : option (num * num);
  expandedSteps : list (string * bool);
}.

Definition new_log_panel : log_panel := LogPanel "list" "overview" None false true DEFAULT_PANEL_HEIGHT None [].

Definition with_selected (k : option string) (mode : string) (p : log_panel) : log_panel :=
  LogPanel (activeTab p) mode k (detailShowInput p) (detailShowOutput p) (customHeight p) (resizing p) (expandedSteps p).

Definition log_switchTab (tab : string) (p : log_panel) : log_panel :=
  LogPanel tab (listMode p) (detailSelectedKey p) (detailShowInput p) (detailShowOutput p) (customHeight p) (resizing p) (expandedSteps p).

(** [switchListMode(mode)] *)
Definition switchListMode (execution : jsval) (mode : string) (p : log_panel) : log_panel :=
  let key := match detailSelectedKey p with Some k => negb (k =s "") | None => false end in
  if (mode =s "detail") && negb key
  then match executionSteps execution with
       | s :: _ => with_selected (Some (sp_rowKey s)) mode p
       | [] => with_selected (detailSelectedKey p) mode p
       end
  else with_selected (detailSelectedKey p) mode p.

(** [detailSelectedStep], [isDetailSelected(step)] *)
Definition detailSelectedStep (execution : jsval) (p : log_panel) : option step :=
  match executionSteps execution with
  | [] => None
  | (s :: _) as steps =>
      match detailSelectedKey p with
      | Some k => if k =s "" then Some s else
                  match find_first (λ s, sp_rowKey s =s k) steps with Some s' => Some s' | None => Some s end
      | None => Some s
      end
  end.
Definition isDetailSelected (execution : jsval) (p : log_panel) (s : step) : bool :=
  match detailSelectedStep execution p with Some x => sp_rowKey x =s sp_rowKey s | None => false end.

(** [selectDetailStep(step)], and what it focuses on the canvas, as [onStepClick]
    does. *)
Definition step_focus (s : step) : option string := if sp_nodeId s =s "" then None else Some (sp_nodeId s).
Definition selectDetailStep (s : step) (p : log_panel) : log_panel * option string :=
  (with_selected (Some (sp_rowKey s)) (listMode p) p, step_focus s).

(** [isStepExpanded(stepKey)], [toggleStep(stepKey)] *)
Definition isStepExpanded (k : string) (p : log_panel) : bool := default false (jget k (expandedSteps p)).
Definition toggleStep (k : string) (p : log_panel) : log_panel :=
  LogPanel (activeTab p) (listMode p) (detailSelectedKey p) (detailShowInput p) (detailShowOutput p) (customHeight p) (resizing p)
    (oset k (negb (isStepExpanded k p)) (expandedSteps p)).

(** [isSelectedStep(step)] *)
Definition isSelectedStep (selectedNodeIds : list string) (s : step) : bool := bool_decide (sp_nodeId s ∈ selectedNodeIds).

(** [panelStyle] and [rawEditorHeight], for the height of the window. *)
Definition max_height (innerHeight : num) : num := num_of_Z (Qround.Qfloor (this (innerHeight * MAX_PANEL_HEIGHT_RATIO)%Qc)).
Definition shown_height (innerHeight : num) (p : log_panel) : num :=
  clamp (if bool_decide (customHeight p = 0%Qc) then DEFAULT_PANEL_HEIGHT else customHeight p) MIN_PANEL_HEIGHT (max_height innerHeight).
Definition rawEditorHeight (innerHeight : num) (p : log_panel) : num :=
  num_max (shown_height innerHeight p - num_of_Z 44)%Qc (num_of_Z 80).

(** [onResizeStart(ev)] and the listeners it installs; [offsetHeight] is that of
    the panel on the screen. *)
Definition with_height (h : num) (r : option (num * num)) (p : log_panel) : log_panel :=
  LogPanel (activeTab p) (listMode p) (detailSelectedKey p) (detailShowInput p) (detailShowOutput p) h r (expandedSteps p).
Definition onResizeStart (clientY offsetHeight : num) (p : log_panel) : log_panel :=
  with_height (customHeight p) (Some (clientY, offsetHeight)) p.
Definition resize_mouseMove (innerHeight clientY : num) (p : log_panel) : log_panel :=
  match resizing p with
  | None => p
  | Some (startY, startHeight) =>
      with_height (clamp (startHeight + (startY - clientY)) MIN_PANEL_HEIGHT (max_height innerHeight))%Qc (resizing p) p
  end.
Definition resize_mouseUp (p : log_panel) : log_panel := with_height (customHeight p) None p.

(** [areBothSectionsHidden], [getIoGridClass()], [hasInputData(step)],
    [hasOutputData(step)], [hasStepDetails(step)] *)
Definition areBothSectionsHidden (p : log_panel) : bool := negb (detailShowInput p) && negb (detailShowOutput p).
Definition getIoGridClass (p : log_panel) : string :=
  "execution-log-panel__io-grid" +:+ (if detailShowInput p && detailShowOutput p then " is-split" else "").
Definition hasInputData (s : step) : bool := negb (is_nullish (sp_inputData s)).
Definition hasOutputData (s : step) : bool := negb (is_nullish (sp_outputData s)).
Definition hasStepDetails (s : step) : bool := truthy (sp_errorMessage s) || negb (strict_eq (sp_outputData s) JUndef).

(** The classes of a step in the overview and in the detail list, and its icon. *)
Definition state_class (ok : string) (s : step) : string :=
  if is_failed s then " is-error" else if sp_status s =s "running" then " is-running" else ok.
Definition getStepRowClass (selectedNodeIds : list string) (s : step) : string :=
  "execution-log-panel__step" +:+ state_class " is-success" s +:+ (if isSelectedStep selectedNodeIds s then " is-selected" else "").
Definition getDetailStepClass (execution : jsval) (p : log_panel) (s : step) : string :=
  "execution-log-panel__detail-step-btn" +:+ state_class "" s +:+ (if isDetailSelected execution p s then " is-selected" else "").
Definition getStatusIconClass (s : step) : string :=
  if is_failed s then "fa fa-times-circle" else if sp_status s =s "running" then "fa fa-spinner fa-spin" else "fa fa-check-circle".

(** ** What the time line shows *)

(** Bars that begin at [start], each where the one before ends, up to [finish]. *)
Fixpoint contiguous (start : num) (bars : list bar) (finish : num) : Prop :=
  match bars with
  | [] => start = finish
  | b :: bars => br_offsetMs b = start ∧ (1 ≤ br_timelineDurationMs b)%Qc ∧ contiguous (start + br_timelineDurationMs b)%Qc bars finish
  end.

Definition in_span (total : num) (b : bar) : Prop :=
  (0 ≤ br_offsetMs b)%Qc ∧ (1 ≤ br_timelineDurationMs b)%Qc ∧ (br_offsetMs b + br_timelineDurationMs b ≤ total)%Qc.

(** A bar on a track of [tw] pixels: it begins on it, and ends on it or a pixel
    further by rounding. *)
Definition on_track (tw : Z) (b : svg_bar) : Prop := (0 ≤ sb_x b ∧ 6 ≤ sb_width b ∧ sb_x b + sb_width b ≤ tw + 1)%Z.

Lemma sequential_contiguous start steps :
  br_step <$> (sequential_bars start steps).1 = steps ∧
  contiguous start (sequential_bars start steps).1 (sequential_bars start steps).2.
Proof.
  revert start. induction steps as [|s steps IH]; intros start; simpl; [done|].
  specialize (IH (start + num_max (default 0%Qc (sp_durationMs s)) 1)%Qc).
  destruct (sequential_bars _ steps) as [bars finish]. simpl in *. destruct IH as [E IH].
  split_and!; [by f_equal|done|apply num_max_spec|done].
Qed.

Lemma contiguous_le start bars finish : contiguous start bars finish → (start ≤ finish)%Qc.
Proof.
  revert start. induction bars as [|b bars IH]; intros start; simpl; [intros ->; qc_lra|].
  intros (? & ? & H%IH). qc_lra.
Qed.

Lemma contiguous_in start bars finish b :
  contiguous start bars finish → b ∈ bars →
  (start ≤ br_offsetMs b ∧ 1 ≤ br_timelineDurationMs b ∧ br_offsetMs b + br_timelineDurationMs b ≤ finish)%Qc.
Proof.
  revert start. induction bars as [|b' bars IH]; intros start; simpl; [set_solver|].
  intros (Ho & Hd & H) [->|Hb]%elem_of_cons.
  - pose proof (contiguous_le _ _ _ H). split_and!; qc_lra.
  - specialize (IH _ H Hb) as (? & ? & ?). split_and!; qc_lra.
Qed.

(** A whole number that is rounded from [x] is bounded by the bounds of [x]. *)
Lemma num_round_bounds x a c :
  (num_of_Z a ≤ x)%Qc → (x ≤ num_of_Z c)%Qc → (a ≤ num_round x ≤ c)%Z.
Proof.
  intros Ha Hc. rewrite <- (num_round_Z a), <- (num_round_Z c). unfold num_round.
  split; apply Qround.Qfloor_resp_le; apply QArith_base.Qplus_le_compat; try done; apply QArith_base.Qle_refl.
Qed.

Lemma num_of_Z_le_inv a b : (num_of_Z a ≤ num_of_Z b)%Qc → (a ≤ b)%Z.
Proof. intros H. unfold num_of_Z, Qcle in H. rewrite !this_Q2Qc in H. by rewrite <- QArith_base.Zle_Qle in H. Qed.

Lemma svg_bar_on_track tw total selected i it :
  (6 ≤ tw)%Z → (0 < total)%Qc → (0 ≤ it_offsetMs it)%Qc → (0 ≤ it_durationMs it)%Qc →
  (it_offsetMs it + it_durationMs it ≤ total)%Qc → on_track tw (svg_bar_of tw total selected i it).
Proof.
  intros Htw Ht Ho Hd Hsum. pose proof (num_of_Z_le _ _ Htw) as Htw'.
  unfold svg_bar_of, on_track. cbn [sb_x sb_width]. unfold minBarWidth.
  set (T := num_of_Z tw) in *. set (o := (it_offsetMs it / total)%Qc). set (d := (it_durationMs it / total)%Qc).
  assert (0 ≤ o)%Qc as H1 by (apply num_le_div; num_lra).
  assert (0 ≤ d)%Qc as H2 by (apply num_le_div; num_lra).
  assert (o + d ≤ 1)%Qc as H3.
  { subst o d. replace (it_offsetMs it / total + it_durationMs it / total)%Qc with ((it_offsetMs it + it_durationMs it) / total)%Qc
      by (unfold Qcdiv; ring). apply num_div_le; num_lra. }
  assert (0 ≤ T)%Qc as HT by num_lra.
  pose proof (num_mul_le _ _ _ HT H1) as HL. pose proof (num_mul_le _ _ _ HT H2) as HW. pose proof (num_mul_le _ _ _ HT H3) as HLW.
  replace ((o + d) * T)%Qc with (o * T + d * T)%Qc in HLW by ring.
  replace (0 * T)%Qc with 0%Qc in * by ring. replace (1 * T)%Qc with T in HLW by ring.
  set (L := (o * T)%Qc) in *. set (W := (d * T)%Qc) in *. clearbody L W. clear H1 H2 H3 o d.
  assert (0 ≤ num_round (num_min L (T - num_of_Z 6)) ≤ tw - 6)%Z as [Hx0 Hx1].
  { apply num_round_bounds; [num_cases|]. change (tw - 6)%Z with (tw + -6)%Z. rewrite num_of_Z_add. fold T. num_cases. }
  destruct (num_max_spec W (num_of_Z 6)) as [_ Hw6].
  pose proof (proj1 (num_round_bounds _ 6 (num_round (num_max W (num_of_Z 6)) + 1) Hw6
    ltac:(rewrite num_of_Z_add; destruct (num_round_spec (num_max W (num_of_Z 6))); num_lra))) as Hw.
  split_and!; [done|done|]. destruct (decide (W ≤ num_of_Z 6)%Qc) as [Hle|Hgt].
  - replace (num_max W (num_of_Z 6)) with (num_of_Z 6) by (unfold num_max; by rewrite bool_decide_eq_true_2).
    rewrite num_round_Z. lia.
  - apply num_of_Z_le_inv. rewrite !num_of_Z_add. fold T.
    destruct (num_round_spec (num_min L (T - num_of_Z 6))) as [Ha _], (num_round_spec (num_max W (num_of_Z 6))) as [Hb _].
    destruct (num_min_spec L (T - num_of_Z 6)) as [Hc _].
    assert (num_max W (num_of_Z 6) = W) as E by (unfold num_max; by rewrite bool_decide_eq_false_2).
    rewrite E in *. num_lra.
Qed.

Lemma absolute_steps_spec steps timed :
  absolute_steps steps = Some timed →
  (λ e, e.1.1) <$> timed = steps ∧
  ∀ s a b, (s, a, b) ∈ timed → parseIsoDate (sp_startedAt s) = Some a ∧ parseIsoDate (sp_completedAt s) = Some b.
Proof.
  unfold absolute_steps. intros H%mapM_Some. induction H as [|s e steps timed Hs Hall [IH1 IH2]]; [split; [done|set_solver]|].
  destruct (parseIsoDate (sp_startedAt s)) as [a|] eqn:Ha, (parseIsoDate (sp_completedAt s)) as [b|] eqn:Hb; simplify_eq.
  split; [done|]. intros s' a' b' [[= -> -> ->]|Hin]%elem_of_cons; eauto.
Qed.

Lemma absolute_bars m (timed : list (step * num * num)) : br_step <$> (absolute_bar m <$> timed) = (λ e, e.1.1) <$> timed.
Proof. rewrite <- list_fmap_compose. apply list_fmap_ext. by intros i [[s a] b] _. Qed.

(** The minimum and maximum of the moments are bounds of each. *)
Lemma minimum_le (x : num) l y : y ∈ l → (minimum x l ≤ y)%Qc.
Proof. intros H. by apply (proj2 (foldl_min_spec (λ z, z) l x)). Qed.
Lemma maximum_ge (x : num) l y : y ∈ l → (y ≤ maximum x l)%Qc.
Proof. intros H. by apply (proj2 (foldl_max_spec (λ z, z) l x)). Qed.

(** The bars by the moments of the steps. *)
Definition by_the_clock (first total : num) (b : bar) : Prop :=
  ∃ started completed,
    parseIsoDate (sp_startedAt (br_step b)) = Some started ∧ parseIsoDate (sp_completedAt (br_step b)) = Some completed ∧
    (first ≤ started)%Qc ∧ br_offsetMs b = (started - first)%Qc ∧ (1 ≤ br_timelineDurationMs b)%Qc ∧
    (completed - started ≤ br_timelineDurationMs b)%Qc ∧ (completed - first ≤ total)%Qc.

Lemma gantt_sequential execution :
  gt_hasAbsoluteTiming (ganttModel execution) = false →
  br_step <$> gt_bars (ganttModel execution) = executionSteps execution ∧
  ∃ finish, contiguous 0 (gt_bars (ganttModel execution)) finish ∧ (finish ≤ gt_totalDurationMs (ganttModel execution))%Qc.
Proof.
  unfold ganttModel. generalize (totalDurationMs execution) as total. destruct (executionSteps execution) as [|s steps]; intros total.
  { intros _. split; [done|]. exists 0%Qc. split; [done|simpl; num_lra]. }
  destruct (sequential_contiguous 0%Qc (s :: steps)) as [Hs Hc].
  destruct (sequential_bars 0%Qc (s :: steps)) as [bars finish]. cbn [fst snd] in Hs, Hc.
  destruct (absolute_steps (s :: steps)) as [[|[[s' a] b] timed]|]; cbn [gt_bars gt_totalDurationMs gt_hasAbsoluteTiming]; [|done|];
    (intros _; split; [done|]; exists finish; split; [done|num_cases]).
Qed.

Lemma gantt_absolute execution :
  gt_hasAbsoluteTiming (ganttModel execution) = true →
  br_step <$> gt_bars (ganttModel execution) = executionSteps execution ∧
  ∃ first, ∀ b, b ∈ gt_bars (ganttModel execution) → by_the_clock first (gt_totalDurationMs (ganttModel execution)) b.
Proof.
  unfold ganttModel. destruct (executionSteps execution) as [|s steps]; [done|].
  destruct (absolute_steps (s :: steps)) as [[|[[s' a] b] timed]|] eqn:E;
    [by destruct (sequential_bars 0%Qc (s :: steps))| |by destruct (sequential_bars 0%Qc (s :: steps))].
  destruct (absolute_steps_spec _ _ E) as [E1 E2]. intros _. cbn [gt_bars gt_totalDurationMs].
  remember ((s', a, b) :: timed) as entries eqn:Ee.
  rewrite absolute_bars. split; [done|]. exists (minimum a ((λ e, e.1.2) <$> entries)).
  intros x ([[s1 a1] b1] & -> & Hin)%list_elem_of_fmap. destruct (E2 _ _ _ Hin) as [Ha Hb].
  assert (minimum a ((λ e : step * num * num, e.1.2) <$> entries) ≤ a1)%Qc as Hmin.
  { apply minimum_le, list_elem_of_fmap. by exists (s1, a1, b1). }
  assert (b1 ≤ maximum b (snd <$> entries))%Qc as Hmax.
  { apply maximum_ge, list_elem_of_fmap. by exists (s1, a1, b1). }
  exists a1, b1. cbn [br_step absolute_bar br_offsetMs br_timelineDurationMs]. generalize dependent (totalDurationMs execution).
  revert Hmin Hmax. generalize (minimum a ((λ e : step * num * num, e.1.2) <$> entries)) (maximum b (snd <$> entries)).
  intros lo hi Hmin Hmax total. split_and!; try done; num_cases.
Qed.
End log.

(** C28: The time line of a run shows each step once, in the order of the log.
    When some step has no moments of its own, the bars follow one another from
    zero, each at least a millisecond long, the last ending within the total;
    on a track of six pixels or more every bar is then drawn on the track, up to
    a pixel of rounding, and is never too small to hit.  When all moments are
    known each bar begins as long after the first as its step did, and its step
    has ended within the total. *)
Theorem timeline_exact num_toString date_parse toFixed execution tw selected :
  (6 ≤ tw)%Z →
  let g := ganttModel num_toString date_parse toFixed execution in
  br_step <$> gt_bars g = executionSteps num_toString execution ∧
  (if gt_hasAbsoluteTiming g
   then ∃ first, ∀ b, b ∈ gt_bars g → by_the_clock date_parse first (gt_totalDurationMs g) b
   else
     (∃ finish, contiguous 0 (gt_bars g) finish ∧ (finish ≤ gt_totalDurationMs g)%Qc) ∧
     ∀ b, b ∈ svgBars tw (timeline_item_of <$> gt_bars g) (gt_totalDurationMs g) selected → on_track tw b).
Proof.
  intros Htw g. destruct (gt_hasAbsoluteTiming g) eqn:Habs; [by apply gantt_absolute|].
  destruct (gantt_sequential _ _ _ _ Habs) as [Hsteps (finish & Hc & Hf)]. fold g in Hsteps, Hc, Hf.
  split_and!; [done|by exists finish|]. intros b Hb. unfold svgBars in Hb.
  apply elem_of_lookup_imap in Hb as (i & it & -> & Hit%list_elem_of_lookup_2).
  apply list_elem_of_fmap in Hit as (x & -> & Hx).
  destruct (contiguous_in _ _ _ _ Hc Hx) as (H1 & H2 & H3), (num_max_spec (gt_totalDurationMs g) 1%Qc).
  apply svg_bar_on_track; simpl; try done; num_lra.
Qed.

Definition log_execution : jsval :=
  JObj [("status", JStr "success"); ("executedOrder", JArr [JStr "n_1"; JStr "n_2"]);
        ("nodeResults", JArr [JObj [("node_id", JStr "n_1"); ("duration_ms", JNum (num_of_Z 30))]])].

Lemma timeline_exact_witness :
  let g := ganttModel (λ _, "0") (λ _, None) (λ _ _, "") log_execution in
  (sp_nodeId <$> (br_step <$> gt_bars g), sp_status <$> (br_step <$> gt_bars g)) = (["n_1"; "n_2"], ["completed"; "running"]) ∧
  ∀ b, b ∈ svgBars 100 (timeline_item_of <$> gt_bars g) (gt_totalDurationMs g) [] → on_track 100 b.
Proof.
  split; [by vm_compute|].
  destruct (timeline_exact (λ _, "0") (λ _, None) (λ _ _, "") log_execution 100 []) as [_ H]; [lia|].
  revert H. by vm_compute (gt_hasAbsoluteTiming _); intros [_ H].
Defined.

(** The bars are named by the keys of their steps and the selection by nodes, so
    that the bar a click focuses is not drawn as selected. *)
Lemma timeline_click_not_marked :
  let g := ganttModel (λ _, "0") (λ _, None) (λ _ _, "") log_execution in
  onItemClick_focus (λ _, "0") (λ _, None) (λ _ _, "") log_execution "n_1_0" = Some "n_1" ∧
  sb_isSelected <$> svgBars 100 (timeline_item_of <$> gt_bars g) (gt_totalDurationMs g) ["n_1"] = [false; false].
Proof. split; by vm_compute. Qed.

(** As long as there are steps, one is shown in detail: the one whose key is
    selected, or the first. *)
Lemma detail_never_empty num_toString execution p :
  executionSteps num_toString execution ≠ [] →
  ∃ s, detailSelectedStep num_toString execution p = Some s ∧ s ∈ executionSteps num_toString execution ∧
       isDetailSelected num_toString execution p s = true.
Proof.
  unfold isDetailSelected, detailSelectedStep. destruct (executionSteps num_toString execution) as [|s steps]; [done|intros _].
  destruct (detailSelectedKey p) as [k|]; [destruct (k =s "")|].
  - exists s. split_and!; [done|set_solver|by apply bool_decide_eq_true_2].
  - destruct (find_first (λ s0, sp_rowKey s0 =s k) (s :: steps)) as [s'|] eqn:E.
    + exists s'. split_and!; [done|by apply find_first_Some in E as [? _]|by apply bool_decide_eq_true_2].
    + exists s. split_and!; [done|set_solver|by apply bool_decide_eq_true_2].
  - exists s. split_and!; [done|set_solver|by apply bool_decide_eq_true_2].
Qed.

(** The panel on the screen is never lower than the least height, and no higher
    than its part of the window unless that is lower still. *)
Lemma shown_height_bounds innerHeight p :
  (MIN_PANEL_HEIGHT ≤ shown_height innerHeight p)%Qc ∧
  (shown_height innerHeight p ≤ num_max MIN_PANEL_HEIGHT (max_height innerHeight))%Qc.
Proof. unfold shown_height, clamp. split; num_cases. Qed.
