(* ===== verification/HistoryPanel.v ===== *)
(** * The history of a workflow
    (components/workflow_history_panel/workflow_history_panel.js)

    The panel lists the revisions and the runs of the workflow and has the editor
    show the one that is selected.  The editor is behind an interface, the
    handlers the application passes to the panel ([historyPanelProps]); the
    requests to the backend are a list, and an answer names the request it
    answers, so that answers can arrive in any order.  Revisions and runs are
    numbered from one, as the backend numbers them. *)

From S2P Require Import Prelude JsMap JsValue JsNumber JsString Connection Node Nodes Editor EditorInv Adapter AdapterInv AdapterEquiv AdapterRun History HistoryTimeline Commands Connector Store StoreExec StoreInv StoreRun StoreViews App.

(** What the editor shows. *)
Inductive shown := ShowsCurrent | ShowsRevision (id : jsval) | ShowsRun (id : jsval).

(** [props.previewRequested], [props.currentRequested],
    [props.executionViewRequested], [props.exitExecutionView]. *)
Class HistoryHost (H : Type) := {
  previewRequested : H → jsval → option workflow_json → H * outcome unit;
  currentRequested : H → H * outcome unit;
  executionViewRequested : H → jsval → option workflow_json → jsobj → H * outcome unit;
  exitRun : H → H * outcome unit;
  host_shows : H → shown;
}.

(** The state the editor is in, and what its handlers promise when they return. *)
Class HistoryHostLaws (H : Type) `{!HistoryHost H} := {
  host_ok : H → Prop;
  preview_law h r w h' :
    host_ok h → truthy r = true → previewRequested h r (Some w) = (h', Ret tt) →
    host_ok h' ∧ host_shows h' = ShowsRevision r;
  current_law h h' :
    host_ok h → (∀ r, host_shows h ≠ ShowsRun r) → currentRequested h = (h', Ret tt) →
    host_ok h' ∧ host_shows h' = ShowsCurrent;
  openRun_law h r w d h' :
    host_ok h → truthy r = true → executionViewRequested h r (Some w) d = (h', Ret tt) →
    host_ok h' ∧ host_shows h' = ShowsRun r;
  exitRun_law h h' :
    host_ok h → (∀ r, host_shows h ≠ ShowsRevision r) → exitRun h = (h', Ret tt) →
    host_ok h' ∧ host_shows h' = ShowsCurrent;
}.

(** ** Data *)

(** An entry of [revisions] or [runs]: its [revision_id] or [id], and its other
    fields. *)
Record entry := Entry { en_id : positive; en_fields : jsobj }.

(** The answer of [/workflow_studio/run/<id>]. *)
Record run_data := RunData { rd_fields : jsobj; rd_snapshot : option workflow_json }.

Definition idv (i : positive) : jsval := JInt (Zpos i).

Lemma idv_truthy i : truthy (idv i) = true.
Proof.
  unfold idv, JInt, truthy. apply negb_true_iff, bool_decide_eq_false_2.
  change 0%Qc with (num_of_Z 0). by intros ?%num_of_Z_inj.
Qed.

Inductive history_tab := Versions | Runs.
#[export] Instance history_tab_eq_dec : EqDecision history_tab.
Proof. solve_decision. Defined.

Inductive request :=
| RqHistory
| RqBgHistory
| RqContent (id : positive)
| RqRuns (unblock : bool)
| RqBgRuns
| RqPreload (id : positive)
| RqRun (id : positive)
| RqCancel (id : positive)
| RqRestore (id : positive).

Inductive answer :=
| AEntries (l : list entry)
| AContent (snapshot : option workflow_json)
| ARun (d : run_data)
| ADone
| AFail (message : string).

(** The confirmation dialog that is open. *)
Inductive history_dialog := CancelDialog (id : positive) | RestoreDialog (id : positive).

(** What the panel reports; [Unhandled] is a promise that was rejected without
    a handler. *)
Inductive report := Danger (text : string) | Success (text : string) | Unhandled (text : string).

Record history_panel := HistoryPanel {
  hp_mounted : bool;
  revisions : list entry;
  selectedRevisionId : option positive;
  hp_loading : bool;
  previewing : bool;
  followLatest : bool;
  hp_activeTab : history_tab;
  runs : list entry;
  selectedRunId : option positive;
  loadingRuns : bool;
  runDetailCache : list (positive * run_data);
  contentMemo : list (positive * outcome (option workflow_json));
  uiBlocks : nat;
  hp_dialog : option history_dialog;
  hp_requests : list request;
  hp_reports : list report;
}.

(** [setup()] and [onMounted]: the first [refreshHistory()] is on its way. *)
Definition new_history_panel : history_panel :=
  HistoryPanel true [] None true false true Versions [] None false [] [] 0 None [RqHistory] [].

Definition set_revisions (l : list entry) (p : history_panel) : history_panel :=
  HistoryPanel (hp_mounted p) l (selectedRevisionId p) (hp_loading p) (previewing p) (followLatest p) (hp_activeTab p) (runs p)
    (selectedRunId p) (loadingRuns p) (runDetailCache p) (contentMemo p) (uiBlocks p) (hp_dialog p) (hp_requests p) (hp_reports p).
Definition set_selection (r : option positive) (b follow : bool) (p : history_panel) : history_panel :=
  HistoryPanel (hp_mounted p) (revisions p) r (hp_loading p) b follow (hp_activeTab p) (runs p)
    (selectedRunId p) (loadingRuns p) (runDetailCache p) (contentMemo p) (uiBlocks p) (hp_dialog p) (hp_requests p) (hp_reports p).
Definition set_loading (b : bool) (p : history_panel) : history_panel :=
  HistoryPanel (hp_mounted p) (revisions p) (selectedRevisionId p) b (previewing p) (followLatest p) (hp_activeTab p) (runs p)
    (selectedRunId p) (loadingRuns p) (runDetailCache p) (contentMemo p) (uiBlocks p) (hp_dialog p) (hp_requests p) (hp_reports p).
Definition set_tab (t : history_tab) (p : history_panel) : history_panel :=
  HistoryPanel (hp_mounted p) (revisions p) (selectedRevisionId p) (hp_loading p) (previewing p) (followLatest p) t (runs p)
    (selectedRunId p) (loadingRuns p) (runDetailCache p) (contentMemo p) (uiBlocks p) (hp_dialog p) (hp_requests p) (hp_reports p).
Definition set_runs (l : list entry) (p : history_panel) : history_panel :=
  HistoryPanel (hp_mounted p) (revisions p) (selectedRevisionId p) (hp_loading p) (previewing p) (followLatest p) (hp_activeTab p) l
    (selectedRunId p) (loadingRuns p) (runDetailCache p) (contentMemo p) (uiBlocks p) (hp_dialog p) (hp_requests p) (hp_reports p).
Definition set_run (r : option positive) (b : bool) (p : history_panel) : history_panel :=
  HistoryPanel (hp_mounted p) (revisions p) (selectedRevisionId p) (hp_loading p) (previewing p) (followLatest p) (hp_activeTab p) (runs p)
    r b (runDetailCache p) (contentMemo p) (uiBlocks p) (hp_dialog p) (hp_requests p) (hp_reports p).
Definition cache_run (i : positive) (d : run_data) (p : history_panel) : history_panel :=
  HistoryPanel (hp_mounted p) (revisions p) (selectedRevisionId p) (hp_loading p) (previewing p) (followLatest p) (hp_activeTab p) (runs p)
    (selectedRunId p) (loadingRuns p) ((i, d) :: runDetailCache p) (contentMemo p) (uiBlocks p) (hp_dialog p) (hp_requests p) (hp_reports p).
Definition memo_content (i : positive) (r : outcome (option workflow_json)) (p : history_panel) : history_panel :=
  HistoryPanel (hp_mounted p) (revisions p) (selectedRevisionId p) (hp_loading p) (previewing p) (followLatest p) (hp_activeTab p) (runs p)
    (selectedRunId p) (loadingRuns p) (runDetailCache p) ((i, r) :: contentMemo p) (uiBlocks p) (hp_dialog p) (hp_requests p) (hp_reports p).
Definition block (p : history_panel) : history_panel :=
  HistoryPanel (hp_mounted p) (revisions p) (selectedRevisionId p) (hp_loading p) (previewing p) (followLatest p) (hp_activeTab p) (runs p)
    (selectedRunId p) (loadingRuns p) (runDetailCache p) (contentMemo p) (S (uiBlocks p)) (hp_dialog p) (hp_requests p) (hp_reports p).
Definition unblock (p : history_panel) : history_panel :=
  HistoryPanel (hp_mounted p) (revisions p) (selectedRevisionId p) (hp_loading p) (previewing p) (followLatest p) (hp_activeTab p) (runs p)
    (selectedRunId p) (loadingRuns p) (runDetailCache p) (contentMemo p) (pred (uiBlocks p)) (hp_dialog p) (hp_requests p) (hp_reports p).
Definition set_dialog (d : option history_dialog) (p : history_panel) : history_panel :=
  HistoryPanel (hp_mounted p) (revisions p) (selectedRevisionId p) (hp_loading p) (previewing p) (followLatest p) (hp_activeTab p) (runs p)
    (selectedRunId p) (loadingRuns p) (runDetailCache p) (contentMemo p) (uiBlocks p) d (hp_requests p) (hp_reports p).
Definition set_requests (l : list request) (p : history_panel) : history_panel :=
  HistoryPanel (hp_mounted p) (revisions p) (selectedRevisionId p) (hp_loading p) (previewing p) (followLatest p) (hp_activeTab p) (runs p)
    (selectedRunId p) (loadingRuns p) (runDetailCache p) (contentMemo p) (uiBlocks p) (hp_dialog p) l (hp_reports p).
Definition notify (r : report) (p : history_panel) : history_panel :=
  HistoryPanel (hp_mounted p) (revisions p) (selectedRevisionId p) (hp_loading p) (previewing p) (followLatest p) (hp_activeTab p) (runs p)
    (selectedRunId p) (loadingRuns p) (runDetailCache p) (contentMemo p) (uiBlocks p) (hp_dialog p) (hp_requests p) (hp_reports p ++ [r]).
Definition unmount (p : history_panel) : history_panel :=
  HistoryPanel false (revisions p) (selectedRevisionId p) (hp_loading p) (previewing p) (followLatest p) (hp_activeTab p) (runs p)
    (selectedRunId p) (loadingRuns p) (runDetailCache p) (contentMemo p) (uiBlocks p) (hp_dialog p) (hp_requests p) (hp_reports p).
Definition send (r : request) (p : history_panel) : history_panel := set_requests (hp_requests p ++ [r]) p.

(** [getLatestRevisionId()], [isCurrentSelected], [canRestore],
    [getSelectedRevision()], [getSelectedRun()], [canCancelSelectedRun] *)
Definition getLatestRevisionId (p : history_panel) : option positive := en_id <$> head (revisions p).
Definition isCurrentSelected (p : history_panel) : bool := bool_decide (selectedRevisionId p = getLatestRevisionId p).
Definition canRestore (p : history_panel) : bool :=
  bool_decide (is_Some (selectedRevisionId p)) && negb (previewing p) && negb (isCurrentSelected p).
Definition find_entry (l : list entry) (i : option positive) : option entry := find_first (λ e, bool_decide (Some (en_id e) = i)) l.
Definition getSelectedRevision (p : history_panel) : option entry := find_entry (revisions p) (selectedRevisionId p).
Definition getSelectedRun (p : history_panel) : option entry := find_entry (runs p) (selectedRunId p).
Definition can_cancel (e : entry) : bool := truthy (prop (JObj (en_fields e)) "queue_can_cancel").
Definition canCancelSelectedRun (p : history_panel) : bool :=
  match getSelectedRun p with Some e => can_cancel e | None => false end.

(** [normalizeRevisionNotes(revisions)] *)
Definition normalizeRevisionNotes (l : list entry) : list entry :=
  (λ e, if truthy (prop (JObj (en_fields e)) "note") then e else Entry (en_id e) (oset "note" (JStr "Manual save") (en_fields e))) <$> l.

(** An entry that is known is updated, a new one goes to the front. *)
Fixpoint assign_first (e : entry) (l : list entry) : list entry :=
  match l with
  | [] => []
  | x :: l => if bool_decide (en_id x = en_id e) then Entry (en_id x) (ospread (en_fields x) (en_fields e)) :: l
              else x :: assign_first e l
  end.
Definition merge_entry (l : list entry) (e : entry) : list entry :=
  if bool_decide (en_id e ∈ (en_id <$> l)) then assign_first e l else e :: l.
Definition merge_entries (l : list entry) (incoming : list entry) : list entry := foldl merge_entry l incoming.

(** [executionData] of [selectRun]. *)
Definition execution_data (d : jsobj) : jsobj :=
  let get k z := js_or (prop (JObj d) k) z in
  [("runId", get "run_id" (prop (JObj d) "id")); ("status", prop (JObj d) "status");
   ("executionMode", get "execution_mode" JNull); ("executedOrder", get "executed_order" (JArr []));
   ("executedConnectionIds", get "executed_connection_ids" (JArr [])); ("executedConnections", get "executed_connections" (JArr []));
   ("executionEvents", get "execution_events" (JArr [])); ("nodeResults", get "node_results" (JArr []));
   ("contextSnapshot", get "context_snapshot" JNull); ("queueJobState", get "queue_job_state" JNull);
   ("error", get "error" JNull); ("errorNodeId", get "error_node_id" JNull); ("executionCount", get "execution_count" JNull);
   ("durationSeconds", get "duration_seconds" JNull); ("nodeCountExecuted", get "node_count_executed" JNull);
   ("inputData", get "input_data" (JObj []))].

(** What a cache by id keeps: the entry set last. *)
Fixpoint cached {A} (i : positive) (l : list (positive * A)) : option A :=
  match l with
  | [] => None
  | (j, x) :: l => if bool_decide (i = j) then Some x else cached i l
  end.

(** ** Operations *)

Section panel.
Context `{HistoryHost H}.
Implicit Types (p : history_panel) (h : H).

(** The restoring of a revision by the host: what it does at once, and what it
    does with the answer. *)
Context (restoreRequested : H → H * outcome unit) (restoreAnswered : H → load_answer → H * outcome unit).

(** A call of the host, with what is reported when it throws. *)
Definition host_call (r : H * outcome unit) (failed : string → report) (p : history_panel) : history_panel * H * bool :=
  match r with
  | (h, Ret _) => (p, h, true)
  | (h, Throw m) => (notify (failed m) p, h, false)
  end.

(** [selectCurrentRevision()] *)
Definition selectCurrentRevision (failed : string → report) p h : history_panel * H :=
  (host_call (currentRequested h) failed (set_selection (getLatestRevisionId p) false true p)).1.

(** The end of [selectRevision(revisionId)], with the promise of its content. *)
Definition finish_preview (i : positive) (content : outcome (option workflow_json)) p h : history_panel * H :=
  let failed m := Danger ("Failed to load revision data: " +:+ m) in
  let '(p, h) :=
    match content with
    | Throw m => (notify (failed m) p, h)
    | Ret snapshot => (host_call (previewRequested h (idv i) snapshot) failed p).1
    end in
  (set_selection (selectedRevisionId p) false (followLatest p) (unblock p), h).

(** [selectRevision(revisionId)]; [getRevisionContent] is memoized. *)
Definition selectRevision (i : positive) p h : history_panel * H :=
  if bool_decide (selectedRevisionId p = Some i) then (p, h)
  else if bool_decide (Some i = getLatestRevisionId p) then selectCurrentRevision Unhandled p h
  else
    let p := set_selection (Some i) true false (block p) in
    match cached i (contentMemo p) with
    | Some content => finish_preview i content p h
    | None => (send (RqContent i) p, h)
    end.

(** [exitRunView()]; whether it returned. *)
Definition exitRunView (failed : string → report) p h : history_panel * H * bool :=
  host_call (exitRun h) failed (set_run None (loadingRuns p) p).

(** [loadRuns()] up to its request. *)
Definition loadRuns (unblock : bool) p : history_panel := send (RqRuns unblock) (set_run (selectedRunId p) true p).

(** [switchTab(tab)] *)
Definition switchTab (t : history_tab) p h : history_panel * H :=
  if bool_decide (hp_activeTab p = t) then (p, h)
  else
    let '(p, h) :=
      if bool_decide (hp_activeTab p = Versions) && bool_decide (is_Some (selectedRevisionId p)) && negb (isCurrentSelected p)
      then selectCurrentRevision Unhandled p h else (p, h) in
    let '(p, h, returned) :=
      if bool_decide (hp_activeTab p = Runs) && bool_decide (is_Some (selectedRunId p))
      then exitRunView Unhandled p h else (p, h, true) in
    if returned
    then let p := set_tab t p in
         (if bool_decide (t = Runs) && (match runs p with [] => true | _ => false end) then loadRuns false p else p, h)
    else (p, h).

(** The end of [selectRun(runId)], with the details of the run. *)
Definition open_run (i : positive) (d : run_data) p h : history_panel * H :=
  match executionViewRequested h (idv i) (rd_snapshot d) (execution_data (rd_fields d)) with
  | (h, Ret _) => (set_run (selectedRunId p) false (unblock p), h)
  | (h, Throw m) => (set_run None false (unblock (notify (Danger ("Failed to load run details: " +:+ m)) p)), h)
  end.

(** [selectRun(runId)] *)
Definition selectRun (i : positive) p h : history_panel * H :=
  if bool_decide (selectedRunId p = Some i) then (p, h)
  else
    let p := set_run (Some i) true (block p) in
    match cached i (runDetailCache p) with
    | Some d => open_run i d p h
    | None => (send (RqRun i) p, h)
    end.

(** [onCancelRun()], [onRestoreClick()]: the dialogs, and their confirmation. *)
Definition onCancelRun p : history_panel :=
  match getSelectedRun p with
  | Some e => if can_cancel e then set_dialog (Some (CancelDialog (en_id e))) p else p
  | None => p
  end.
Definition onRestoreClick p : history_panel :=
  if isCurrentSelected p then p
  else match getSelectedRevision p with
       | Some e => set_dialog (Some (RestoreDialog (en_id e))) p
       | None => p
       end.
Definition confirm (d : history_dialog) p h : history_panel * H :=
  let p := set_dialog None (block p) in
  match d with
  | CancelDialog i => (send (RqCancel i) p, h)
  | RestoreDialog i =>
      let '(p, h, returned) := host_call (restoreRequested h) Unhandled p in
      (if returned then send (RqRestore i) p else p, h)
  end.

(** [backgroundRefresh()] *)
Definition backgroundRefresh p : history_panel :=
  if hp_loading p then p
  else send (match hp_activeTab p with Runs => RqBgRuns | Versions => RqBgHistory end) p.

(** [_preloadRunDetails(runs)] *)
Definition preloadRunDetails (l : list entry) p : history_panel :=
  foldl (λ p e, match cached (en_id e) (runDetailCache p) with Some _ => p | None => send (RqPreload (en_id e)) p end) p l.

(** The answer of a request. *)
Definition answered (r : request) (a : answer + load_answer) p h : history_panel * H :=
  match r, a with
  | RqHistory, inl (AEntries l) =>
      let p := set_revisions (normalizeRevisionNotes l) p in
      let '(p, h) :=
        if bool_decide (selectedRevisionId p = None) || followLatest p
        then selectCurrentRevision (λ m, Danger ("Failed to load version history: " +:+ m)) p h else (p, h) in
      (set_loading false p, h)
  | RqHistory, inl (AFail m) => (set_loading false (notify (Danger ("Failed to load version history: " +:+ m)) p), h)
  | RqBgHistory, inl (AEntries l) =>
      let p := set_revisions (merge_entries (revisions p) (normalizeRevisionNotes l)) p in
      (if followLatest p then set_selection (getLatestRevisionId p) (previewing p) true p else p, h)
  | RqContent i, inl (AContent s) => finish_preview i (Ret s) (memo_content i (Ret s) p) h
  | RqContent i, inl (AFail m) => finish_preview i (Throw m) (memo_content i (Throw m) p) h
  | RqRuns b, inl (AEntries l) =>
      let p := preloadRunDetails (take 5 l) (set_runs l p) in
      let p := set_run (selectedRunId p) false p in
      (if b then unblock p else p, h)
  | RqRuns b, inl (AFail m) =>
      let p := set_run (selectedRunId p) false (notify (Danger ("Failed to load execution runs: " +:+ m)) p) in
      (if b then unblock p else p, h)
  | RqBgRuns, inl (AEntries l) => (set_runs (merge_entries (runs p) l) p, h)
  | RqPreload i, inl (ARun d) => (cache_run i d p, h)
  | RqPreload i, inl (AFail m) => (p, h)
  | RqRun i, inl (ARun d) => open_run i d (cache_run i d p) h
  | RqRun i, inl (AFail m) =>
      (set_run None false (unblock (notify (Danger ("Failed to load run details: " +:+ m)) p)), h)
  | RqCancel i, inl ADone =>
      match exitRunView (λ m, Danger ("Failed to cancel queued run: " +:+ m)) (notify (Success "Queued run cancelled.") p) h with
      | (p, h, true) => (loadRuns true p, h)
      | (p, h, false) => (unblock p, h)
      end
  | RqCancel i, inl (AFail m) => (unblock (notify (Danger ("Failed to cancel queued run: " +:+ m)) p), h)
  | RqRestore i, inr d =>
      match restoreAnswered h d with
      | (h, Ret _) => (unmount (unblock p), h)
      | (h, Throw m) => (notify (Unhandled m) p, h)
      end
  | _, inl (AFail m) => (notify (Unhandled m) p, h)
  | _, _ => (p, h)
  end.

(** Whether an answer is one to the request. *)
Definition fits (r : request) (a : answer + load_answer) : bool :=
  match r, a with
  | _, inl (AFail _) => true
  | RqHistory, inl (AEntries _) | RqBgHistory, inl (AEntries _) | RqRuns _, inl (AEntries _) | RqBgRuns, inl (AEntries _) => true
  | RqContent _, inl (AContent _) | RqPreload _, inl (ARun _) | RqRun _, inl (ARun _) | RqCancel _, inl ADone => true
  | RqRestore _, inr _ => true
  | _, _ => false
  end.

(** ** Events *)

Inductive history_event :=
| ClickRevision (i : positive)
| ClickTab (t : history_tab)
| ClickRun (i : positive)
| ClickExitRun
| ClickLoadRuns
| ClickCancel
| ClickRestore
| ConfirmDialog
| DismissDialog
| Refresh
| Answered (k : nat) (a : answer + load_answer).

(** An overlay or a dialog is over the panel. *)
Definition covered p : bool := negb (Nat.eqb (uiBlocks p) 0) || bool_decide (is_Some (hp_dialog p)).

Definition in_tab (t : history_tab) p : bool := bool_decide (hp_activeTab p = t) && negb (covered p).

Definition history_step (s : history_panel * H) (e : history_event) : history_panel * H :=
  let '(p, h) := s in
  if negb (hp_mounted p) then s
  else
    match e with
    | ClickRevision i =>
        if in_tab Versions p && negb (hp_loading p) && bool_decide (i ∈ (en_id <$> revisions p)) then selectRevision i p h else s
    | ClickTab t => if covered p then s else switchTab t p h
    | ClickRun i =>
        if in_tab Runs p && negb (loadingRuns p) && bool_decide (i ∈ (en_id <$> runs p)) then selectRun i p h else s
    | ClickExitRun =>
        if in_tab Runs p && bool_decide (is_Some (selectedRunId p)) then (exitRunView Unhandled p h).1 else s
    | ClickLoadRuns => if in_tab Runs p && bool_decide (selectedRunId p = None) && negb (loadingRuns p) then (loadRuns false p, h) else s
    | ClickCancel => if in_tab Runs p && canCancelSelectedRun p then (onCancelRun p, h) else s
    | ClickRestore => if in_tab Versions p && canRestore p then (onRestoreClick p, h) else s
    | ConfirmDialog => match hp_dialog p with Some d => if Nat.eqb (uiBlocks p) 0 then confirm d p h else s | None => s end
    | DismissDialog => (set_dialog None p, h)
    | Refresh => (backgroundRefresh p, h)
    | Answered k a =>
        match hp_requests p !! k with
        | Some r => if fits r a then answered r a (set_requests (delete k (hp_requests p)) p) h else s
        | None => s
        end
    end.

Definition history_run (s : history_panel * H) (es : list history_event) : history_panel * H := foldl history_step s es.

(** ** What is selected is what is shown *)

(** Nothing failed so far. *)
Definition is_success (r : report) : bool := match r with Success _ => true | _ => false end.
Definition quiet p : bool := forallb is_success (hp_reports p).

(** An answer that carries a graph where one is expected. *)
Definition sound_answer (e : history_event) : bool :=
  match e with
  | Answered _ (inl (AContent None)) => false
  | Answered _ (inl (ARun d)) => match rd_snapshot d with Some _ => true | None => false end
  | _ => true
  end.

(** What the editor should show for the selection of the panel. *)
Definition selection p : shown :=
  match hp_activeTab p with
  | Versions =>
      if isCurrentSelected p then ShowsCurrent
      else match selectedRevisionId p with Some r => ShowsRevision (idv r) | None => ShowsCurrent end
  | Runs => match selectedRunId p with Some r => ShowsRun (idv r) | None => ShowsCurrent end
  end.

Definition blocking (r : request) : bool :=
  match r with RqContent _ | RqRun _ | RqCancel _ | RqRestore _ | RqRuns true => true | _ => false end.
End panel.

Section invariant.
Context `{HistoryHostLaws H} (restoreRequested : H → H * outcome unit) (restoreAnswered : H → load_answer → H * outcome unit).
Implicit Types (p : history_panel) (h : H).

Notation step := (history_step restoreRequested restoreAnswered).
Notation run := (history_run restoreRequested restoreAnswered).

Definition follow_ok p : Prop :=
  if followLatest p then selectedRevisionId p = getLatestRevisionId p
  else ∃ r, selectedRevisionId p = Some r ∧ r ∈ (en_id <$> revisions p) ∧ getLatestRevisionId p ≠ Some r.

Definition tab_ok p : Prop :=
  match hp_activeTab p with Versions => selectedRunId p = None | Runs => followLatest p = true end.

Definition caches_ok p : Prop :=
  (∀ i c, cached i (contentMemo p) = Some c → ∃ w, c = Ret (Some w)) ∧
  (∀ i d, cached i (runDetailCache p) = Some d → is_Some (rd_snapshot d)).

(** What is known while the answer to a blocking request is awaited. *)
Definition waiting (r : request) p h : Prop :=
  match r with
  | RqContent i => host_ok h ∧ hp_activeTab p = Versions ∧ selectedRevisionId p = Some i ∧ followLatest p = false
  | RqRun i => host_ok h ∧ hp_activeTab p = Runs ∧ selectedRunId p = Some i
  | RqCancel _ => host_ok h ∧ hp_activeTab p = Runs ∧ host_shows h = selection p
  | RqRuns true => host_ok h ∧ host_shows h = selection p
  | RqRestore _ => True
  | _ => False
  end.

(** Idle, or waiting for one blocking request. *)
Definition phase_ok p h : Prop :=
  match bfilter blocking (hp_requests p) with
  | [] => uiBlocks p = 0%nat ∧ host_ok h ∧ host_shows h = selection p
  | [r] => uiBlocks p = 1%nat ∧ waiting r p h
  | _ => False
  end.

Record panel_ok p h : Prop := {
  po_follow : follow_ok p;
  po_tab : tab_ok p;
  po_caches : caches_ok p;
  po_loaded : RqHistory ∉ hp_requests p;
  po_dialog : match hp_dialog p with Some (CancelDialog _) => hp_activeTab p = Runs | _ => True end;
  po_phase : phase_ok p h;
}.

Lemma quiet_notify r p : quiet (notify r p) = true ↔ quiet p = true ∧ is_success r = true.
Proof. unfold quiet. simpl. rewrite forallb_app. simpl. rewrite andb_true_r. apply andb_true_iff. Qed.

(** A call of the host after which the panel is quiet has returned. *)
Lemma host_call_quiet (r : H * outcome unit) failed p :
  (∀ m, is_success (failed m) = false) → quiet (host_call r failed p).1.1 = true →
  r = (r.1, Ret tt) ∧ host_call r failed p = (p, r.1, true).
Proof.
  intros Hf. destruct r as [h [[]|m]]; simpl; [done|].
  rewrite quiet_notify, Hf. by intros [_ ?].
Qed.

Lemma delete_requests l k r :
  l !! k = Some r →
  bfilter blocking l ≡ₚ (if blocking r then [r] else []) ++ bfilter blocking (delete k l).
Proof.
  intros Hk. rewrite <- (take_drop_middle _ _ _ Hk) at 1. rewrite delete_take_drop, !bfilter_app. simpl.
  destruct (blocking r); simpl; [|done]. by rewrite <- Permutation_middle.
Qed.

Lemma delete_nonblocking l k r :
  l !! k = Some r → blocking r = false → (length (bfilter blocking l) ≤ 1)%nat →
  bfilter blocking (delete k l) = bfilter blocking l.
Proof.
  intros Hk Hr Hlen. pose proof (delete_requests _ _ _ Hk) as E. rewrite Hr in E. simpl in E.
  destruct (bfilter blocking l) as [|a [|? ?]]; simpl in Hlen; [|  |lia].
  - by apply Permutation_nil in E.
  - by apply Permutation_singleton_l in E.
Qed.

Lemma delete_blocking l k r :
  l !! k = Some r → blocking r = true → (length (bfilter blocking l) ≤ 1)%nat →
  bfilter blocking l = [r] ∧ bfilter blocking (delete k l) = [].
Proof.
  intros Hk Hr Hlen. pose proof (delete_requests _ _ _ Hk) as E. rewrite Hr in E. simpl in E.
  pose proof (Permutation_length E) as E2. simpl in E2.
  destruct (bfilter blocking (delete k l)) as [|? ?]; simpl in E2; [|lia].
  by apply Permutation_singleton_r in E.
Qed.

Lemma phase_len p h : phase_ok p h → (length (bfilter blocking (hp_requests p)) ≤ 1)%nat.
Proof. unfold phase_ok. destruct (bfilter _ _) as [|? [|? ?]]; simpl; [lia|lia|done]. Qed.

Lemma selection_versions p :
  follow_ok p → hp_activeTab p = Versions →
  selection p = if followLatest p then ShowsCurrent
                else match selectedRevisionId p with Some r => ShowsRevision (idv r) | None => ShowsCurrent end.
Proof.
  unfold follow_ok, selection, isCurrentSelected. intros Hf ->. destruct (followLatest p).
  - by rewrite bool_decide_eq_true_2.
  - destruct Hf as (r & -> & _ & Hne). by rewrite bool_decide_eq_false_2.
Qed.

Lemma selection_same p p' :
  follow_ok p → follow_ok p' → hp_activeTab p' = hp_activeTab p → followLatest p' = followLatest p →
  selectedRunId p' = selectedRunId p → (followLatest p = false → selectedRevisionId p' = selectedRevisionId p) →
  selection p' = selection p.
Proof.
  intros H1 H2 Et Ef Er Es. destruct (hp_activeTab p) eqn:Ht.
  - rewrite !selection_versions by done. rewrite Ef. destruct (followLatest p); [done|by rewrite Es].
  - unfold selection. by rewrite Et, Ht, Er.
Qed.

(** Changes that leave the phase alone. *)
Lemma phase_same p p' h :
  follow_ok p → follow_ok p' → hp_activeTab p' = hp_activeTab p → followLatest p' = followLatest p →
  selectedRunId p' = selectedRunId p → (followLatest p = false → selectedRevisionId p' = selectedRevisionId p) →
  uiBlocks p' = uiBlocks p → bfilter blocking (hp_requests p') = bfilter blocking (hp_requests p) →
  phase_ok p h → phase_ok p' h.
Proof.
  intros H1 H2 Et Ef Er Es Eb Eq. pose proof (selection_same p p' H1 H2 Et Ef Er Es) as E.
  unfold phase_ok. rewrite Eq, Eb. generalize (bfilter blocking (hp_requests p)) as l.
  intros [|r [|? ?]]; [by rewrite E| |done].
  intros [Hb Hw]. split; [done|]. destruct r as [| | |[]| | | | |]; simpl in *; rewrite ?E, ?Et, ?Er, ?Ef; try done.
  destruct Hw as (? & ? & ? & ?). rewrite Es by done. done.
Qed.

(** The facts that no request and no call of the host is needed for. *)
Definition panel_facts p : Prop :=
  follow_ok p ∧ tab_ok p ∧ caches_ok p ∧ RqHistory ∉ hp_requests p ∧
  match hp_dialog p with Some (CancelDialog _) => hp_activeTab p = Runs | _ => True end.

Lemma panel_ok_split p h : panel_ok p h ↔ panel_facts p ∧ phase_ok p h.
Proof. split; [intros []; by split_and!|intros [(?&?&?&?&?) ?]; by split]. Qed.

Lemma phase_idle p h :
  bfilter blocking (hp_requests p) = [] → uiBlocks p = 0%nat → host_ok h → host_shows h = selection p → phase_ok p h.
Proof. intros E ???. unfold phase_ok. by rewrite E. Qed.

Lemma phase_wait p h r :
  bfilter blocking (hp_requests p) = [r] → uiBlocks p = 1%nat → waiting r p h → phase_ok p h.
Proof. intros E ??. unfold phase_ok. by rewrite E. Qed.

Lemma phase_uncovered p h :
  phase_ok p h → uiBlocks p = 0%nat →
  bfilter blocking (hp_requests p) = [] ∧ host_ok h ∧ host_shows h = selection p.
Proof.
  unfold phase_ok. destruct (bfilter blocking (hp_requests p)) as [|? [|? ?]]; [by intros (? & ? & ?)| |done].
  intros [-> _]. done.
Qed.

Lemma bfilter_send r l : bfilter blocking (l ++ [r]) = bfilter blocking l ++ (if blocking r then [r] else []).
Proof. rewrite bfilter_app. simpl. by destruct (blocking r). Qed.

Lemma not_elem_send r l : r ≠ RqHistory → RqHistory ∉ l → RqHistory ∉ l ++ [r].
Proof. intros Hr Hl [?|?%list_elem_of_singleton]%elem_of_app; by auto. Qed.

(** What is shown while the selection of the tab is of the other kind. *)
Lemma shows_not_run p h r :
  tab_ok p → hp_activeTab p = Versions → host_shows h = selection p → host_shows h ≠ ShowsRun r.
Proof.
  unfold selection. intros _ -> ->. destruct (isCurrentSelected p); [done|]. by destruct (selectedRevisionId p).
Qed.
Lemma shows_not_revision p h r :
  hp_activeTab p = Runs → host_shows h = selection p → host_shows h ≠ ShowsRevision r.
Proof. unfold selection. intros -> ->. by destruct (selectedRunId p). Qed.

(** [selectCurrentRevision] among the revisions. *)
Lemma selectCurrent_ok failed p h :
  (∀ m, is_success (failed m) = false) →
  panel_facts p → hp_activeTab p = Versions → bfilter blocking (hp_requests p) = [] → uiBlocks p = 0%nat →
  host_ok h → host_shows h = selection p →
  quiet (selectCurrentRevision failed p h).1 = true →
  let p' := set_selection (getLatestRevisionId p) false true p in
  ∃ h', selectCurrentRevision failed p h = (p', h') ∧ panel_facts p' ∧ host_ok h' ∧ host_shows h' = ShowsCurrent.
Proof.
  intros Hf (H1 & H2 & H3 & H4 & H5) Ht Hb Hu Hok Hs Hq p'. unfold selectCurrentRevision in *. fold p' in Hq |- *.
  destruct (host_call_quiet _ failed p' Hf Hq) as [E ->]. simpl.
  destruct (current_law h (currentRequested h).1 Hok) as [Hok' Hs']; [by intros r; apply (shows_not_run p)|done|].
  exists (currentRequested h).1. split_and!; try done. unfold panel_facts, tab_ok. simpl. rewrite Ht.
  unfold tab_ok in H2. rewrite Ht in H2. split_and!; try done. by destruct (hp_dialog p) as [[]|]; congruence.
Qed.

(** The content of a revision arrives. *)
Lemma finish_preview_ok i w p h :
  panel_facts p → hp_activeTab p = Versions → bfilter blocking (hp_requests p) = [] → uiBlocks p = 1%nat →
  selectedRevisionId p = Some i → followLatest p = false → host_ok h →
  quiet (finish_preview i (Ret (Some w)) p h).1 = true →
  panel_ok (finish_preview i (Ret (Some w)) p h).1 (finish_preview i (Ret (Some w)) p h).2.
Proof.
  intros (H1 & H2 & H3 & H4 & H5) Ht Hb Hu Hi Hfl Hok Hq. unfold finish_preview in *.
  destruct (previewRequested h (idv i) (Some w)) as [h' [[]|m]] eqn:E; simpl in *.
  - destruct (preview_law h (idv i) w h' Hok (idv_truthy i) E) as [Hok' Hs'].
    apply panel_ok_split. split; [by split_and!|].
    apply phase_idle; simpl; [done|by rewrite Hu|done|]. rewrite Hs', selection_versions by done. simpl. by rewrite Hfl, Hi.
  - apply quiet_notify in Hq. by destruct Hq.
Qed.

(** The details of a run arrive. *)
Lemma open_run_ok i d p h :
  panel_facts p → hp_activeTab p = Runs → bfilter blocking (hp_requests p) = [] → uiBlocks p = 1%nat →
  selectedRunId p = Some i → host_ok h → is_Some (rd_snapshot d) →
  quiet (open_run i d p h).1 = true → panel_ok (open_run i d p h).1 (open_run i d p h).2.
Proof.
  intros (H1 & H2 & H3 & H4 & H5) Ht Hb Hu Hi Hok [w Hw] Hq. unfold open_run in *. rewrite Hw in *.
  destruct (executionViewRequested _ _ _ _) as [h' [[]|m]] eqn:E; simpl in *.
  - destruct (openRun_law h (idv i) w _ h' Hok (idv_truthy i) E) as [Hok' Hs'].
    apply panel_ok_split. split; [split_and!; try done; unfold tab_ok in *; simpl; by rewrite Ht in *|].
    apply phase_idle; simpl; [done|by rewrite Hu|done|]. rewrite Hs'. unfold selection. simpl. by rewrite Ht, Hi.
  - apply quiet_notify in Hq. by destruct Hq.
Qed.

(** [exitRunView] among the runs. *)
Lemma exitRunView_ok failed p h :
  (∀ m, is_success (failed m) = false) →
  panel_facts p → hp_activeTab p = Runs → host_ok h → host_shows h = selection p →
  quiet (exitRunView failed p h).1.1 = true →
  let p' := set_run None (loadingRuns p) p in
  ∃ h', exitRunView failed p h = (p', h', true) ∧ panel_facts p' ∧ host_ok h' ∧ host_shows h' = ShowsCurrent.
Proof.
  intros Hf (H1 & H2 & H3 & H4 & H5) Ht Hok Hs Hq p'. unfold exitRunView in *. fold p' in Hq |- *.
  destruct (host_call_quiet _ failed p' Hf Hq) as [E ->].
  destruct (exitRun_law h (exitRun h).1 Hok) as [Hok' Hs']; [by intros r; apply (shows_not_revision p)|done|].
  exists (exitRun h).1. split_and!; try done. unfold panel_facts, tab_ok in *. simpl. rewrite Ht in *. by split_and!.
Qed.

(** *** Answers *)

Definition is_preload (r : request) : bool := match r with RqPreload _ => true | _ => false end.

Lemma preload_spec es p :
  ∃ l, preloadRunDetails es p = set_requests (hp_requests p ++ l) p ∧ forallb is_preload l = true.
Proof.
  unfold preloadRunDetails. revert p. induction es as [|e es IH]; intros p; simpl.
  - exists []. rewrite app_nil_r. by destruct p.
  - destruct (cached (en_id e) (runDetailCache p)); [apply IH|].
    destruct (IH (send (RqPreload (en_id e)) p)) as (l & -> & Hl).
    exists (RqPreload (en_id e) :: l). split; [|done]. unfold send, set_requests. simpl. by rewrite <- app_assoc.
Qed.

Lemma preload_nonblocking l : forallb is_preload l = true → bfilter blocking l = [].
Proof.
  intros Hl. apply bfilter_none. intros r Hr. rewrite forallb_forall in Hl.
  apply list_elem_of_In in Hr. apply Hl in Hr. by destruct r as [| | |[]| | | | |].
Qed.

Lemma preload_history l : forallb is_preload l = true → RqHistory ∉ l.
Proof. intros Hl Hr%list_elem_of_In. rewrite forallb_forall in Hl. by apply Hl in Hr. Qed.

Lemma assign_first_ids e l : en_id <$> assign_first e l = en_id <$> l.
Proof. induction l as [|x l IH]; simpl; [done|]. case_bool_decide; simpl; [done|]. by f_equal. Qed.

Lemma merge_ids l es r :
  r ∈ (en_id <$> l) → head (en_id <$> l) ≠ Some r →
  r ∈ (en_id <$> merge_entries l es) ∧ head (en_id <$> merge_entries l es) ≠ Some r.
Proof.
  unfold merge_entries. revert l. induction es as [|e es IH]; intros l Hin Hh; simpl; [done|].
  apply IH; unfold merge_entry; case_bool_decide; rewrite ?assign_first_ids; try done.
  - set_solver.
  - simpl. intros [= <-]. done.
Qed.

Lemma latest_head p : getLatestRevisionId p = head (en_id <$> revisions p).
Proof. unfold getLatestRevisionId. by destruct (revisions p). Qed.

(** Entries of the history that arrive later. *)
Lemma merge_follow_ok l p :
  follow_ok p →
  let p1 := set_revisions (merge_entries (revisions p) l) p in
  follow_ok (if followLatest p then set_selection (getLatestRevisionId p1) (previewing p) true p1 else p1).
Proof.
  intros Hf p1. unfold follow_ok in *. destruct (followLatest p) eqn:Efl; simpl; [done|]. rewrite Efl.
  destruct Hf as (r & Hr & Hin & Hl). rewrite latest_head in Hl. exists r.
  destruct (merge_ids (revisions p) l r Hin Hl) as [H1 H2]. rewrite latest_head. by split_and!.
Qed.

Lemma nonblocking_ok r a p h :
  panel_ok p h → blocking r = false → r ≠ RqHistory → fits r a = true → sound_answer (Answered 0 a) = true →
  quiet (answered restoreAnswered r a p h).1 = true →
  panel_ok (answered restoreAnswered r a p h).1 (answered restoreAnswered r a p h).2.
Proof.
  intros [Hp Hph]%panel_ok_split Hb Hr Hfit Hs Hq. pose proof Hp as (H1 & H2 & H3 & H4 & H5).
  destruct r as [| |i|[]| |i|i|i|i]; try done; destruct a as [[l|sn|d| |m]|la]; try done; simpl in *;
    try (by apply quiet_notify in Hq as [_ ?]).
  - apply panel_ok_split. pose proof (merge_follow_ok (normalizeRevisionNotes l) p H1) as Hm. simpl in Hm.
    split.
    + split_and!; [exact Hm|..]; destruct (followLatest p) eqn:Efl; try done.
      unfold tab_ok in *. simpl. revert H2. by destruct (hp_activeTab p).
    + eapply phase_same; [exact H1|exact Hm|..|exact Hph]; destruct (followLatest p) eqn:Efl; simpl; done.
  - apply panel_ok_split. destruct (preload_spec (take 5 l) (set_runs l p)) as (rq & -> & Hrq). simpl.
    split; [split_and!; try done; simpl|].
    + intros [?|?%preload_history]%elem_of_app; done.
    + eapply phase_same; [exact H1|exact H1|..|exact Hph]; try done. simpl. by rewrite bfilter_app, (preload_nonblocking rq), app_nil_r.
  - apply panel_ok_split. split; [|eapply phase_same; [exact H1|exact H1|..|exact Hph]; done].
    split_and!; try done. destruct H3 as [H3a H3b]. split; [done|]. intros j d'. simpl. case_bool_decide; [|apply H3b].
    intros [= <-]. by destruct (rd_snapshot d).
Qed.

Lemma blocking_ok r a p h :
  panel_facts p → bfilter blocking (hp_requests p) = [] → uiBlocks p = 1%nat → waiting r p h →
  blocking r = true → fits r a = true → sound_answer (Answered 0 a) = true →
  quiet (answered restoreAnswered r a p h).1 = true → hp_mounted (answered restoreAnswered r a p h).1 = true →
  panel_ok (answered restoreAnswered r a p h).1 (answered restoreAnswered r a p h).2.
Proof.
  intros Hp Hb Hu Hw Hr Hfit Hs Hq Hm. pose proof Hp as (H1 & H2 & (H3a & H3b) & H4 & H5).
  destruct r as [| |i|[]| |i|i|i|i]; try done; destruct a as [[l|sn|d| |m]|la]; try done; simpl in *;
    try (by apply quiet_notify in Hq as [_ ?]).
  - destruct Hw as (Hok & Ht & Hi & Hfl). destruct sn as [w|]; [|done].
    apply finish_preview_ok; try done. split_and!; try done. split; [|done].
    intros j c. simpl. case_bool_decide; [intros [= <-]; eauto|apply H3a].
  - destruct Hw as (Hok & Hs'). apply panel_ok_split. destruct (preload_spec (take 5 l) (set_runs l p)) as (rq & -> & Hrq). simpl.
    split; [split_and!; try done; simpl|].
    + intros [?|?%preload_history]%elem_of_app; done.
    + apply phase_idle; simpl; [by rewrite bfilter_app, Hb, (preload_nonblocking rq)|by rewrite Hu|done|done].
  - destruct Hw as (Hok & Ht & Hi). apply open_run_ok; try done; [|by destruct (rd_snapshot d)].
    split_and!; try done. split; [done|]. intros j d'. simpl. case_bool_decide; [|apply H3b].
    intros [= <-]. by destruct (rd_snapshot d).
  - destruct Hw as (Hok & Ht & Hs'). set (q := notify (Success "Queued run cancelled.") p) in *.
    set (failed := λ m : string, Danger ("Failed to cancel queued run: " +:+ m)) in *.
    assert (quiet (exitRunView failed q h).1.1 = true) as Hq'.
    { by destruct (exitRunView failed q h) as [[p' h'] []]. }
    destruct (exitRunView_ok failed q h) as (h' & -> & (F1 & F2 & F3 & F4 & F5) & Hok' & Hs''); try done. simpl.
    apply panel_ok_split. split; [split_and!; try done; by apply not_elem_send|].
    eapply (phase_wait _ _ (RqRuns true)); simpl; [by rewrite bfilter_send, Hb|done|].
    split; [done|]. rewrite Hs''. unfold selection. simpl. by rewrite Ht.
  - destruct (restoreAnswered h la) as [h' [[]|m]]; simpl in *; [done|]. by apply quiet_notify in Hq as [_ ?].
Qed.

(** *** Clicks *)

Lemma uncovered_spec p : covered p = false → uiBlocks p = 0%nat ∧ hp_dialog p = None.
Proof.
  unfold covered. rewrite orb_false_iff, negb_false_iff, Nat.eqb_eq, bool_decide_eq_false.
  intros [? Hd]. split; [done|]. destruct (hp_dialog p); [|done]. by destruct Hd.
Qed.

Lemma in_tab_spec t p : in_tab t p = true → hp_activeTab p = t ∧ uiBlocks p = 0%nat ∧ hp_dialog p = None.
Proof.
  unfold in_tab. rewrite andb_true_iff, bool_decide_eq_true, negb_true_iff. by intros [-> ?%uncovered_spec].
Qed.

Lemma selectRevision_ok i p h :
  panel_ok p h → hp_activeTab p = Versions → uiBlocks p = 0%nat → i ∈ (en_id <$> revisions p) → hp_dialog p = None →
  quiet (selectRevision i p h).1 = true → panel_ok (selectRevision i p h).1 (selectRevision i p h).2.
Proof.
  intros Hpo Ht Hu Hi Hd Hq. pose proof Hpo as [Hp Hph]%panel_ok_split.
  destruct (phase_uncovered p h Hph Hu) as (Hb & Hok & Hs). unfold selectRevision in *.
  case_bool_decide as Hsel; [done|]. case_bool_decide as Hl.
  - destruct (selectCurrent_ok Unhandled p h) as (h' & -> & Hp' & Hok' & Hs'); try done.
    apply panel_ok_split. split; [exact Hp'|]. apply phase_idle; try done. cbn [fst snd].
    rewrite Hs', selection_versions; [done|apply Hp'|done].
  - destruct Hp as (H1 & H2 & (H3a & H3b) & H4 & H5).
    set (q := set_selection (Some i) true false (block p)) in *.
    assert (panel_facts q) as Hq'.
    { refine (conj _ (conj _ (conj (conj H3a H3b) (conj H4 H5)))); [exists i; by split_and!|].
      unfold tab_ok in *. simpl. by rewrite Ht in *. }
    destruct (cached i (contentMemo q)) as [c|] eqn:Ec.
    + destruct (H3a i c Ec) as [w ->]. apply finish_preview_ok; try done. simpl. by rewrite Hu.
    + apply panel_ok_split. destruct Hq' as (F1 & F2 & F3 & F4 & F5). split; [split_and!; try done; by apply not_elem_send|].
      eapply (phase_wait _ _ (RqContent i)); simpl; [by rewrite bfilter_send, Hb|by rewrite Hu|by split_and!].
Qed.

Lemma selectRun_ok i p h :
  panel_ok p h → hp_activeTab p = Runs → uiBlocks p = 0%nat → hp_dialog p = None →
  quiet (selectRun i p h).1 = true → panel_ok (selectRun i p h).1 (selectRun i p h).2.
Proof.
  intros Hpo Ht Hu Hd Hq. pose proof Hpo as [Hp Hph]%panel_ok_split.
  destruct (phase_uncovered p h Hph Hu) as (Hb & Hok & Hs). unfold selectRun in *.
  case_bool_decide as Hsel; [done|]. destruct Hp as (H1 & H2 & (H3a & H3b) & H4 & H5).
  set (q := set_run (Some i) true (block p)) in *.
  assert (panel_facts q) as Hq'.
  { refine (conj H1 (conj _ (conj (conj H3a H3b) (conj H4 H5)))). unfold tab_ok in *. simpl. by rewrite Ht in *. }
  destruct (cached i (runDetailCache q)) as [d|] eqn:Ec.
  - apply open_run_ok; try done; [simpl; by rewrite Hu|by apply (H3b i)].
  - apply panel_ok_split. destruct Hq' as (F1 & F2 & F3 & F4 & F5). split; [split_and!; try done; by apply not_elem_send|].
    eapply (phase_wait _ _ (RqRun i)); simpl; [by rewrite bfilter_send, Hb|by rewrite Hu|by split_and!].
Qed.

(** Showing a tab, whose runs may have to be loaded. *)
Lemma enter_tab_ok t p h :
  panel_facts p → bfilter blocking (hp_requests p) = [] → uiBlocks p = 0%nat → host_ok h → host_shows h = ShowsCurrent →
  selectedRunId p = None → hp_dialog p = None → followLatest p = true →
  let q := set_tab t p in
  let q := if bool_decide (t = Runs) && (match runs q with [] => true | _ => false end) then loadRuns false q else q in
  panel_ok q h.
Proof.
  intros (H1 & H2 & H3 & H4 & H5) Hb Hu Hok Hs Hr Hd Hf q0 q.
  assert (selection (set_tab t p) = ShowsCurrent) as Hsel.
  { destruct t; [|unfold selection; simpl; by rewrite Hr]. rewrite selection_versions by done. simpl. by rewrite Hf. }
  assert (tab_ok (set_tab t p)) as Htab by (destruct t; [exact Hr|exact Hf]).
  apply panel_ok_split. subst q q0.
  destruct (bool_decide _ && _); (split; [split_and!; try done; simpl; rewrite ?Hd; try done; by apply not_elem_send|]);
    apply phase_idle; simpl; try done.
  - by rewrite bfilter_send, Hb.
  - by rewrite <- Hsel in Hs.
  - by rewrite Hs, Hsel.
Qed.

Lemma switchTab_ok t p h :
  panel_ok p h → uiBlocks p = 0%nat → hp_dialog p = None →
  quiet (switchTab t p h).1 = true → panel_ok (switchTab t p h).1 (switchTab t p h).2.
Proof.
  intros Hpo Hu Hd Hq. pose proof Hpo as [Hp Hph]%panel_ok_split.
  destruct (phase_uncovered p h Hph Hu) as (Hb & Hok & Hs). pose proof Hp as (H1 & H2 & H3 & H4 & H5).
  unfold switchTab in *. case_bool_decide as Hne; [done|]. unfold tab_ok in H2.
  destruct (hp_activeTab p) eqn:Ht.
  - rewrite (bool_decide_eq_true_2 (Versions = Versions)) in * by done.
    unfold follow_ok in H1. destruct (followLatest p) eqn:Hf.
    + assert (isCurrentSelected p = true) as Hcur by by apply bool_decide_eq_true_2.
      rewrite Hcur, andb_false_r in *. rewrite Ht, bool_decide_eq_false_2 in * by done. simpl in *.
      apply enter_tab_ok; try done. rewrite Hs, selection_versions, Hf by (try done; unfold follow_ok; by rewrite Hf). done.
    + destruct H1 as (r & Hr & Hin & Hl).
      assert (isCurrentSelected p = false) as Hcur by (apply bool_decide_eq_false_2; by rewrite Hr).
      rewrite Hcur, Hr, bool_decide_eq_true_2 in * by eauto. simpl in *.
      assert (quiet (selectCurrentRevision Unhandled p h).1 = true) as Hq'.
      { destruct (selectCurrentRevision Unhandled p h) as [p1 h1]. simpl.
        destruct (bool_decide (hp_activeTab p1 = Runs) && bool_decide (is_Some (selectedRunId p1))).
        - unfold exitRunView, host_call in Hq. destruct (exitRun h1) as [h2 [[]|m]]; [|by apply quiet_notify in Hq as [_ ?]].
          simpl in Hq. by destruct (_ && _) in Hq.
        - by destruct (_ && _) in Hq. }
      destruct (selectCurrent_ok Unhandled p h) as (h' & -> & Hp' & Hok' & Hs'); try done. simpl in *.
      rewrite Ht, (bool_decide_eq_false_2 (Versions = Runs)) in * by done. simpl in *.
      by apply (enter_tab_ok t (set_selection (getLatestRevisionId p) false true p)).
  - rewrite (bool_decide_eq_false_2 (Runs = Versions)) in * by done. simpl in *.
    rewrite Ht, (bool_decide_eq_true_2 (Runs = Runs)) in * by done. simpl in *.
    case_bool_decide as Hrun.
    + assert (quiet (exitRunView Unhandled p h).1.1 = true) as Hq'.
      { destruct (exitRunView Unhandled p h) as [[p1 h1] []]; [|done]. simpl in *. by destruct (_ && _) in Hq. }
      destruct (exitRunView_ok Unhandled p h) as (h' & -> & Hp' & Hok' & Hs'); try done.
      by apply (enter_tab_ok t (set_run None (loadingRuns p) p)).
    + destruct (selectedRunId p) eqn:Hr; [by destruct Hrun|]. apply enter_tab_ok; try done.
      cbn [snd]. rewrite Hs. unfold selection. by rewrite Ht, Hr.
Qed.

(** *** Every event *)

Lemma confirm_ok d p h :
  panel_ok p h → hp_dialog p = Some d → uiBlocks p = 0%nat →
  quiet (confirm restoreRequested d p h).1 = true →
  panel_ok (confirm restoreRequested d p h).1 (confirm restoreRequested d p h).2.
Proof.
  intros Hpo Hd Hu Hq. pose proof Hpo as [Hp Hph]%panel_ok_split.
  destruct (phase_uncovered p h Hph Hu) as (Hb & Hok & Hs). destruct Hp as (H1 & H2 & H3 & H4 & H5). rewrite Hd in H5.
  unfold confirm in *. destruct d as [i|i].
  - apply panel_ok_split. split; [split_and!; try done; by apply not_elem_send|].
    eapply (phase_wait _ _ (RqCancel i)); simpl; [by rewrite bfilter_send, Hb|by rewrite Hu|by split_and!].
  - destruct (restoreRequested h) as [h' [[]|m]]; simpl in *; [|by apply quiet_notify in Hq as [_ ?]].
    apply panel_ok_split. split; [split_and!; try done; by apply not_elem_send|].
    eapply (phase_wait _ _ (RqRestore i)); simpl; [by rewrite bfilter_send, Hb|by rewrite Hu|done].
Qed.

Lemma phase_sent r p h : blocking r = false → phase_ok p h → phase_ok (send r p) h.
Proof. intros Hr. unfold phase_ok. simpl. rewrite bfilter_send, Hr, app_nil_r. done. Qed.

Lemma send_ok r p h : blocking r = false → r ≠ RqHistory → panel_ok p h → panel_ok (send r p) h.
Proof.
  intros Hr Hn [H1 H2 H3 H4 H5 H6]. split; try done; [by apply not_elem_send|by apply phase_sent].
Qed.

Lemma history_answer_ok k a p h :
  panel_ok p h → sound_answer (Answered k a) = true →
  quiet (step (p, h) (Answered k a)).1 = true → hp_mounted (step (p, h) (Answered k a)).1 = true →
  panel_ok (step (p, h) (Answered k a)).1 (step (p, h) (Answered k a)).2.
Proof.
  intros Hpo Hs. unfold history_step. destruct (negb (hp_mounted p)); [done|].
  destruct (hp_requests p !! k) as [r|] eqn:Ek; [|done]. destruct (fits r a) eqn:Hfit; [|done]. intros Hq Hm.
  pose proof Hpo as [(H1 & H2 & H3 & H4 & H5) Hph]%panel_ok_split. pose proof (phase_len _ _ Hph) as Hlen.
  set (q := set_requests (delete k (hp_requests p)) p) in *.
  assert (panel_facts q) as Hp.
  { split_and!; try done. intros Hin. apply H4. by apply (list_elem_of_delete_inv _ k). }
  destruct (blocking r) eqn:Hr.
  - destruct (delete_blocking _ _ _ Ek Hr Hlen) as [E1 E2]. unfold phase_ok in Hph. rewrite E1 in Hph. destruct Hph as [Hu Hw].
    by apply blocking_ok.
  - apply nonblocking_ok; try done.
    + apply panel_ok_split. split; [done|]. eapply phase_same; [exact H1|exact H1|..|exact Hph]; try done.
      by apply (delete_nonblocking _ k r).
    + intros ->. by apply H4, (list_elem_of_lookup_2 _ k).
Qed.

Lemma history_step_ok e p h :
  panel_ok p h → sound_answer e = true →
  quiet (step (p, h) e).1 = true → hp_mounted (step (p, h) e).1 = true →
  panel_ok (step (p, h) e).1 (step (p, h) e).2.
Proof.
  intros Hpo Hs. destruct e as [i|t|i| | | | | | | |k a]; [..|by apply history_answer_ok]; unfold history_step;
    (destruct (negb (hp_mounted p)); [done|]); intros Hq Hm.
  - destruct (in_tab Versions p) eqn:Hin; [|done]. apply in_tab_spec in Hin as (Ht & Hu & Hd).
    destruct (hp_loading p); [done|]. simpl in *. case_bool_decide; [|done]. by apply selectRevision_ok.
  - destruct (covered p) eqn:Hc; [done|]. apply uncovered_spec in Hc as [Hu Hd]. by apply switchTab_ok.
  - destruct (in_tab Runs p) eqn:Hin; [|done]. apply in_tab_spec in Hin as (Ht & Hu & Hd).
    destruct (loadingRuns p); [done|]. simpl in *. case_bool_decide; [|done]. by apply selectRun_ok.
  - destruct (in_tab Runs p) eqn:Hin; [|done]. apply in_tab_spec in Hin as (Ht & Hu & Hd). simpl in *. case_bool_decide; [|done].
    pose proof Hpo as [Hp Hph]%panel_ok_split. destruct (phase_uncovered p h Hph Hu) as (Hb & Hok & Hsh).
    destruct (exitRunView_ok Unhandled p h) as (h' & -> & Hp' & Hok' & Hs'); try done.
    apply panel_ok_split. split; [done|]. apply phase_idle; try done. cbn [fst snd]. rewrite Hs'. unfold selection. simpl. by rewrite Ht.
  - destruct (in_tab Runs p && _ && _); [|done]. simpl. pose proof Hpo as [(H1 & H2 & H3 & H4 & H5) Hph]%panel_ok_split.
    apply panel_ok_split. split; [split_and!; try done; by apply not_elem_send|]. by apply (phase_sent (RqRuns false)).
  - destruct (in_tab Runs p) eqn:Hin; [|done]. apply in_tab_spec in Hin as (Ht & Hu & Hd). destruct (canCancelSelectedRun p); [|done].
    simpl. unfold onCancelRun. destruct (getSelectedRun p) as [e|]; [|done]. destruct (can_cancel e); [|done].
    by destruct Hpo.
  - destruct (_ && _); [|done]. simpl. unfold onRestoreClick. destruct (isCurrentSelected p); [done|].
    destruct (getSelectedRevision p); [|done]. by destruct Hpo.
  - destruct (hp_dialog p) as [d|] eqn:Hd; [|done]. destruct (Nat.eqb_spec (uiBlocks p) 0); [|done]. by apply confirm_ok.
  - by destruct Hpo.
  - simpl. unfold backgroundRefresh. destruct (hp_loading p); [done|].
    by destruct (hp_activeTab p); apply send_ok.
Qed.

(** Reports are only added. *)
Lemma quiet_host_call (r : H * outcome unit) failed p :
  quiet (host_call r failed p).1.1 = true → quiet p = true.
Proof. destruct r as [h [[]|m]]; simpl; [done|]. by intros [? _]%quiet_notify. Qed.

Lemma quiet_finish i c p h : quiet (finish_preview i c p h).1 = true → quiet p = true.
Proof.
  unfold finish_preview. destruct c as [w|m]; simpl; [|by intros [? _]%quiet_notify].
  destruct (previewRequested h (idv i) w) as [h' [[]|m]]; simpl; [done|]. by intros [? _]%quiet_notify.
Qed.

Lemma quiet_open i d p h : quiet (open_run i d p h).1 = true → quiet p = true.
Proof. unfold open_run. destruct (executionViewRequested _ _ _ _) as [h' [[]|m]]; simpl; [done|]. by intros [? _]%quiet_notify. Qed.

Lemma quiet_preload es p : quiet (preloadRunDetails es p) = quiet p.
Proof. by destruct (preload_spec es p) as (l & -> & _). Qed.

Lemma quiet_answered r a p h : quiet (answered restoreAnswered r a p h).1 = true → quiet p = true.
Proof.
  destruct r as [| |i|b| |i|i|i|i]; destruct a as [[l|sn|d| |m]|la]; simpl; try done; try by intros [? _]%quiet_notify.
  - destruct (_ || _); [|done]. unfold selectCurrentRevision, host_call.
    destruct (currentRequested h) as [h' [[]|m]]; simpl; [done|]. by intros [? _]%quiet_notify.
  - by destruct (followLatest p).
  - by intros Hq%quiet_finish.
  - intros Hq. assert (quiet (preloadRunDetails (take 5 l) (set_runs l p)) = true) as Hq' by by destruct b.
    by rewrite quiet_preload in Hq'.
  - destruct b; by intros [? _]%quiet_notify.
  - by intros Hq%quiet_open.
  - unfold exitRunView. destruct (exitRun h) as [h' [[]|m]]; simpl; [|intros [? _]%quiet_notify].
    + by intros [? _]%(quiet_notify (Success _)).
    + by apply (quiet_notify (Success "Queued run cancelled.") p).
  - destruct (restoreAnswered h la) as [h' [[]|m]]; simpl; [done|]. by intros [? _]%quiet_notify.
Qed.

Lemma quiet_current (b : bool) failed p h :
  quiet (if b then selectCurrentRevision failed p h else (p, h)).1 = true → quiet p = true.
Proof.
  destruct b; [|done]. unfold selectCurrentRevision, host_call.
  destruct (currentRequested h) as [h' [[]|m]]; simpl; [done|]. by intros [? _]%quiet_notify.
Qed.

Lemma quiet_exit (b : bool) failed p h :
  quiet (if b then exitRunView failed p h else (p, h, true)).1.1 = true → quiet p = true.
Proof. destruct b; [|done]. by intros Hq%quiet_host_call. Qed.

Lemma quiet_switch t p h : quiet (switchTab t p h).1 = true → quiet p = true.
Proof.
  unfold switchTab. destruct (bool_decide (hp_activeTab p = t)); [done|]. intros Hq.
  apply (quiet_current (bool_decide (hp_activeTab p = Versions) && bool_decide (is_Some (selectedRevisionId p)) &&
    negb (isCurrentSelected p)) Unhandled p h).
  revert Hq. generalize (if bool_decide (hp_activeTab p = Versions) && bool_decide (is_Some (selectedRevisionId p)) &&
    negb (isCurrentSelected p) then selectCurrentRevision Unhandled p h else (p, h)). intros [p1 h1] Hq.
  apply (quiet_exit (bool_decide (hp_activeTab p1 = Runs) && bool_decide (is_Some (selectedRunId p1))) Unhandled p1 h1).
  revert Hq. generalize (if bool_decide (hp_activeTab p1 = Runs) && bool_decide (is_Some (selectedRunId p1))
    then exitRunView Unhandled p1 h1 else (p1, h1, true)). intros [[p2 h2] []]; simpl; [|done]. by destruct (_ && _).
Qed.

Lemma quiet_step s e : quiet (step s e).1 = true → quiet s.1 = true.
Proof.
  destruct s as [p h]. unfold history_step. destruct (negb (hp_mounted p)); [done|].
  destruct e as [i|t|i| | | | | | | |k a]; simpl.
  - destruct (_ && _ && _); [|done]. unfold selectRevision. case_match; [done|]. case_match.
    + by intros Hq%quiet_host_call.
    + case_match; [|done]. by intros Hq%quiet_finish.
  - destruct (covered p); [done|]. apply quiet_switch.
  - destruct (_ && _ && _); [|done]. unfold selectRun. case_match; [done|]. case_match; [|done]. by intros Hq%quiet_open.
  - destruct (_ && _); [|done]. by intros Hq%quiet_host_call.
  - by destruct (_ && _ && _).
  - destruct (_ && _); [|done]. unfold onCancelRun. case_match; [|done]. by case_match.
  - destruct (_ && _); [|done]. unfold onRestoreClick. case_match; [done|]. by case_match.
  - case_match; [|done]. case_match; [|done]. unfold confirm. case_match; [done|].
    destruct (restoreRequested h) as [h' [[]|m]]; simpl; [done|]. by intros [? _]%quiet_notify.
  - done.
  - unfold backgroundRefresh. by case_match.
  - case_match; [|done]. case_match; [|done]. by intros Hq%quiet_answered.
Qed.

Lemma mounted_step s e : hp_mounted (step s e).1 = true → hp_mounted s.1 = true.
Proof. destruct s as [p h]. unfold history_step. by destruct (hp_mounted p) eqn:E; simpl. Qed.

Lemma history_run_ok es s :
  panel_ok s.1 s.2 → forallb sound_answer es = true →
  quiet (run s es).1 = true → hp_mounted (run s es).1 = true →
  panel_ok (run s es).1 (run s es).2.
Proof.
  unfold history_run. induction es as [|e es IH] using rev_ind; [done|].
  rewrite foldl_app, forallb_app. cbn [foldl forallb]. rewrite andb_true_r.
  intros Hpo [Hs1 Hs2]%andb_prop Hq Hm. destruct (foldl step s es) as [p h] eqn:E.
  apply history_step_ok; try done. apply IH; try done; [by apply quiet_step in Hq|by apply mounted_step in Hm].
Qed.
End invariant.

(** ** The application as host *)

(** What the editor of the application shows. *)
Definition app_shows (a : app) : shown :=
  let s := ap_store a in
  if pv_active (executionView s) then ShowsRun (pv_id (executionView s))
  else if pv_active (historyPreview s) then ShowsRevision (pv_id (historyPreview s)) else ShowsCurrent.

(** [historyPanelProps] of the application. *)
#[export] Instance app_history_host : HistoryHost app := {
  previewRequested a r w := previewHistoryRevision a r w;
  currentRequested a := exitHistoryPreview a;
  executionViewRequested a r w d := openExecutionView a r w (Some d);
  exitRun a := exitExecutionView a;
  host_shows := app_shows;
}.
Definition app_restore (a : app) (d : load_answer) : app * outcome unit :=
  let '(a, r) := restore_response a d in (a, r ≫= λ _, Ret tt).

Lemma startHistoryPreview_shows s r w s' :
  views_ok s → truthy r = true → startHistoryPreview s r (Some w) = (s', Ret tt) →
  pv_active (executionView s') = false ∧ pv_active (historyPreview s') = true ∧ pv_id (historyPreview s') = r.
Proof.
  intros H Hr. unfold startHistoryPreview.
  assert (∃ s1 o, (if pv_active (executionView s) then endExecutionView s true true else (s, Ret tt)) = (s1, o) ∧
    (o = Ret tt → pv_active (executionView s1) = false)) as (s1 & o & -> & Hoff).
  { destruct (pv_active (executionView s)) eqn:E; [|by exists s, (Ret tt)].
    pose proof (vo_exclusive s H) as He. rewrite E, andb_true_r in He.
    destruct (endExecutionView_views s true true H He) as (_ & _ & Hx).
    destruct (endExecutionView s true true) as [s1 o]. by exists s1, o. }
  destruct o as [[]|]; [|done]. specialize (Hoff eq_refl).
  match goal with |- load_graph ?x w = _ → _ => set (s2 := x) end.
  pose proof (load_graph_views s2 w) as (Hl1 & Hl2 & _). destruct (load_graph s2 w) as [s3 o]. intros [= -> _].
  simpl in *. rewrite Hl1, Hl2. split_and!; try done. simpl. unfold js_or. by rewrite Hr.
Qed.

Lemma startExecutionView_shows s r w d s' :
  views_ok s → truthy r = true → startExecutionView s r (Some w) d = (s', Ret tt) →
  pv_active (executionView s') = true ∧ pv_id (executionView s') = r.
Proof.
  intros H Hr. unfold startExecutionView.
  destruct (if pv_active (historyPreview s) then endHistoryPreview s true else (s, Ret tt)) as [s1 [[]|]]; [|done].
  match goal with |- context [load_graph ?x w] => set (s2 := x) end.
  pose proof (load_graph_views s2 w) as (_ & Hl2 & _). destruct (load_graph s2 w) as [s3 [[]|]]; [|done]. simpl in Hl2.
  assert (pv_active (executionView s3) = true ∧ pv_id (executionView s3) = r) as [E1 E2].
  { rewrite Hl2. simpl. unfold js_or. by rewrite Hr. }
  destruct d as [d|]; intros [= <-]; [|done].
  destruct (replaceExecutionResult_views s3 d) as (_ & -> & _). done.
Qed.

#[export] Program Instance app_history_laws : HistoryHostLaws app := {
  host_ok a := views_ok (ap_store a);
}.
Next Obligation.
  intros a r w a' Hok Hr. simpl. unfold previewHistoryRevision.
  destruct (startHistoryPreview (ap_store a) r (Some w)) as [s o] eqn:E. intros [= <- ->]. simpl.
  pose proof (startHistoryPreview_views (ap_store a) r (Some w) Hok) as Hv. rewrite E in Hv. split; [done|].
  destruct (startHistoryPreview_shows _ _ _ _ Hok Hr E) as (E1 & E2 & E3). unfold app_shows. simpl. by rewrite E1, E2, E3.
Qed.
Next Obligation.
  intros a a' Hok Hns. simpl in *. unfold exitHistoryPreview.
  destruct (endHistoryPreview (ap_store a) true) as [s o] eqn:E. intros [= <- ->]. simpl.
  assert (pv_active (executionView (ap_store a)) = false) as Hev.
  { destruct (pv_active (executionView (ap_store a))) eqn:Ha; [|done].
    exfalso. eapply Hns. unfold app_shows. by rewrite Ha. }
  destruct (endHistoryPreview_views (ap_store a) true Hok Hev) as (Hv & E1 & E2). rewrite E in *. simpl in *.
  split; [done|]. unfold app_shows. simpl. by rewrite E1, Hev, E2.
Qed.
Next Obligation.
  intros a r w d a' Hok Hr. simpl. unfold openExecutionView.
  destruct (startExecutionView (ap_store a) r (Some w) (Some d)) as [s o] eqn:E. intros [= <- ->]. simpl.
  pose proof (startExecutionView_views (ap_store a) r (Some w) (Some d) Hok) as Hv. rewrite E in Hv. split; [done|].
  destruct (startExecutionView_shows _ _ _ _ _ Hok Hr E) as (E1 & E2). unfold app_shows. simpl. by rewrite E1, E2.
Qed.
Next Obligation.
  intros a a' Hok Hns. simpl in *. unfold exitExecutionView.
  destruct (endExecutionView (ap_store a) true true) as [s o] eqn:E. intros [= <- ->]. simpl.
  assert (pv_active (historyPreview (ap_store a)) = false) as Hhp.
  { destruct (pv_active (historyPreview (ap_store a))) eqn:Ha; [|done]. exfalso. eapply Hns. unfold app_shows.
    pose proof (vo_exclusive _ Hok) as He. rewrite Ha in He. simpl in He. by rewrite He, Ha. }
  destruct (endExecutionView_views (ap_store a) true true Hok Hhp) as (Hv & E1 & E2). rewrite E in *. simpl in *.
  split; [done|]. unfold app_shows. simpl. by rewrite E2, E1, Hhp.
Qed.

(** ** The property *)

(** C27: Once the history has loaded, and as long as nothing has failed, the editor
    shows what the panel has selected whenever the panel is not waiting: the
    current graph, the revision or the run; whatever is clicked, whatever arrives
    in the background and in whatever order.  The interface is covered exactly
    while one answer that uncovers it is on its way. *)
Theorem selection_shown `{HistoryHostLaws H} restoreRequested restoreAnswered h0 l es :
  host_ok h0 → (∀ r, host_shows h0 ≠ ShowsRun r) → forallb sound_answer es = true →
  let s := history_run restoreRequested restoreAnswered (new_history_panel, h0) (Answered 0 (inl (AEntries l)) :: es) in
  hp_mounted s.1 = true → quiet s.1 = true →
  uiBlocks s.1 = length (bfilter blocking (hp_requests s.1)) ∧
  (uiBlocks s.1 ≤ 1)%nat ∧
  (uiBlocks s.1 = 0%nat → host_shows s.2 = selection s.1).
Proof.
  intros Hok Hns Hes s Hm Hq.
  assert (panel_ok s.1 s.2) as Hpo.
  { apply (history_run_ok restoreRequested restoreAnswered es
      (history_step restoreRequested restoreAnswered (new_history_panel, h0) (Answered 0 (inl (AEntries l))))); try done.
    assert (quiet (history_step restoreRequested restoreAnswered (new_history_panel, h0) (Answered 0 (inl (AEntries l)))).1 = true) as Hq1.
    { clear Hm. subst s. revert Hq. unfold history_run. cbn [foldl].
      induction es as [|e es IH] using rev_ind; [done|]. rewrite foldl_app. cbn [foldl]. intros Hq%quiet_step.
      apply IH; [|done]. rewrite forallb_app in Hes. by apply andb_prop in Hes as []. }
    revert Hq1. cbn. set (p := set_revisions _ _). unfold selectCurrentRevision.
    destruct (currentRequested h0) as [h' [[]|m]] eqn:E; cbn; [intros _|done].
    destruct (current_law h0 h' Hok Hns E) as [Hok' Hs'].
    split; try done; [by intros ?%not_elem_of_nil|].
    apply phase_idle; try done. rewrite Hs'. unfold selection. simpl. unfold isCurrentSelected. by rewrite bool_decide_eq_true_2. }
  destruct Hpo as [_ _ _ _ _ Hph]. unfold phase_ok in Hph. clear Hq Hm.
  destruct (bfilter blocking (hp_requests s.1)) as [|r [|? ?]]; [|..].
  - destruct Hph as (-> & _ & ->). simpl. split_and!; [done|lia|done].
  - destruct Hph as (-> & _). simpl. split_and!; [done|lia|done].
  - done.
Qed.

(** A host that does nothing but show, for examples. *)
Definition screen_host : HistoryHost shown := {|
  previewRequested h r w := (match w with Some _ => ShowsRevision r | None => h end, Ret tt);
  currentRequested h := (match h with ShowsRun _ => h | _ => ShowsCurrent end, Ret tt);
  executionViewRequested h r w d := (match w with Some _ => ShowsRun r | None => h end, Ret tt);
  exitRun h := (ShowsCurrent, Ret tt);
  host_shows h := h;
|}.
Lemma screen_laws : @HistoryHostLaws shown screen_host.
Proof.
  refine (@Build_HistoryHostLaws shown screen_host (λ _, True) _ _ _ _); try (by intros * _ _ [= <-]).
  intros [] h' _ Hns [= <-]; try done. by destruct (Hns id).
Defined.

(** A revision is shown, then a run. *)
Definition blank_graph : workflow_json := WorkflowJson "1.0" None None.
Definition history_demo_events : list history_event :=
  [ClickRevision 1; Answered 0 (inl (AContent (Some blank_graph))); ClickTab Runs;
   Answered 0 (inl (AEntries [Entry 9 []])); Answered 0 (inl (ARun (RunData [] (Some blank_graph)))); ClickRun 9].
Definition history_demo_entries : list entry := [Entry 2 []; Entry 1 []].
Definition history_demo : history_panel * shown :=
  @history_run shown screen_host (λ h, (h, Ret tt)) (λ h _, (h, Ret tt)) (new_history_panel, ShowsCurrent)
    (Answered 0 (inl (AEntries history_demo_entries)) :: history_demo_events).

Lemma selection_shown_witness :
  uiBlocks history_demo.1 = 0%nat ∧ selection history_demo.1 = ShowsRun (idv 9) ∧
  @host_shows shown screen_host history_demo.2 = selection history_demo.1.
Proof.
  split_and!; [by vm_compute|by vm_compute|].
  destruct (@selection_shown shown screen_host screen_laws (λ h, (h, Ret tt)) (λ h _, (h, Ret tt)) ShowsCurrent
    history_demo_entries history_demo_events) as (_ & _ & H); [done|done|by vm_compute|by vm_compute|by vm_compute|].
  apply H. by vm_compute.
Defined.

(** *** What a failure leaves behind *)

(** The content of a revision could not be loaded: the revision stays selected
    and can be restored while the editor still shows the current graph; and, as
    the promise of its content is memoized, it cannot be loaded again. *)
Definition failed_history_events : list history_event :=
  [ClickRevision 1; Answered 0 (inl (AFail "offline")); ClickRevision 2; ClickRevision 1].
Lemma failed_preview_stays_selected :
  let s n := @history_run shown screen_host (λ h, (h, Ret tt)) (λ h _, (h, Ret tt)) (new_history_panel, ShowsCurrent)
    (Answered 0 (inl (AEntries history_demo_entries)) :: take n failed_history_events) in
  (selectedRevisionId (s 2%nat).1, canRestore (s 2%nat).1, (s 2%nat).2) = (Some 1%positive, true, ShowsCurrent) ∧
  (selectedRevisionId (s 4%nat).1, hp_requests (s 4%nat).1, (s 4%nat).2, length (hp_reports (s 4%nat).1)) =
    (Some 1%positive, [], ShowsCurrent, 2%nat).
Proof. split; by vm_compute. Qed.

(** The restoring of a revision fails: the interface stays covered, whatever
    happens next. *)
Lemma failed_restore_covers :
  let s := @history_run shown screen_host (λ h, (h, Ret tt)) (λ h _, (h, Ret tt)) (new_history_panel, ShowsCurrent)
    [Answered 0 (inl (AEntries history_demo_entries)); ClickRevision 1; Answered 0 (inl (AContent (Some blank_graph)));
     ClickRestore; ConfirmDialog; Answered 0 (inl (AFail "denied"))] in
  (uiBlocks s.1, hp_requests s.1) = (1%nat, []).
Proof. by vm_compute. Qed.

(** A run that could not be loaded clears the selection while the run before it
    is still shown: changing the tab then leaves it on the screen. *)
Lemma failed_run_left_behind :
  let s := @history_run shown screen_host (λ h, (h, Ret tt)) (λ h _, (h, Ret tt)) (new_history_panel, ShowsCurrent)
    ([Answered 0 (inl (AEntries history_demo_entries)); ClickTab Runs; Answered 0 (inl (AEntries [Entry 9 []; Entry 8 []]));
      Answered 0 (inl (ARun (RunData [] (Some blank_graph)))); Answered 0 (inl (AFail "offline")); ClickRun 9; ClickRun 8;
      Answered 0 (inl (AFail "offline")); ClickTab Versions]) in
  (hp_activeTab s.1, selectedRunId s.1, s.2) = (Versions, None, ShowsRun (idv 9)).
Proof. by vm_compute. Qed.

(** Two revisions that arrive at once are put at the front one by one, so that the
    older is taken for the latest. *)
Lemma background_reverses :
  let s := @history_run shown screen_host (λ h, (h, Ret tt)) (λ h _, (h, Ret tt)) (new_history_panel, ShowsCurrent)
    [Answered 0 (inl (AEntries history_demo_entries)); Refresh;
     Answered 0 (inl (AEntries [Entry 4 []; Entry 3 []; Entry 2 []; Entry 1 []]))] in
  (en_id <$> revisions s.1, getLatestRevisionId s.1) = ([3; 4; 2; 1]%positive, Some 3%positive).
Proof. by vm_compute. Qed.

(** The history that loads late, when a run was opened meanwhile: the handler that
    shows the current graph makes the editor editable under the run. *)
Lemma late_history_unlocks a :
  historyPreview (ap_store a) = no_preview →
  let a' := (exitHistoryPreview a).1 in
  readonly (st_ui (ap_store a')) = false ∧ executionView (ap_store a') = executionView (ap_store a).
Proof. intros E. unfold exitHistoryPreview, endHistoryPreview. rewrite E. done. Qed.

(** ** Lists *)

(** [displayRevisions] in their groups, [groupedRevisions]: the moment of a
    revision, the starts of today, of yesterday and of the week before. *)
Section groups.
Context (date : entry → num) (startOfToday startOfYesterday startOfLastWeek : num).

Definition group_of (e : entry) : nat :=
  if bool_decide (startOfToday ≤ date e)%Qc then 0
  else if bool_decide (startOfYesterday ≤ date e)%Qc then 1
  else if bool_decide (startOfLastWeek ≤ date e)%Qc then 2 else 3.

Definition groupedRevisions (l : list entry) : list (string * list entry) :=
  bfilter (λ g, match g.2 with [] => false | _ => true end)
    (imap (λ k label, (label, bfilter (λ e, Nat.eqb (group_of e) k) l)) ["Today"; "Yesterday"; "Last Week"; "Older"]).

Lemma group_of_lt e : (group_of e < 4)%nat.
Proof. unfold group_of. repeat case_bool_decide; lia. Qed.

Lemma concat_nonempty (gs : list (string * list entry)) :
  concat (snd <$> bfilter (λ g, match g.2 with [] => false | _ => true end) gs) = concat (snd <$> gs).
Proof. induction gs as [|[k [|e g]] gs IH]; simpl; [done|done|]. by f_equal; f_equal. Qed.

Lemma group_of_mono e e' :
  (startOfLastWeek ≤ startOfYesterday ≤ startOfToday)%Qc → (date e' ≤ date e)%Qc → (group_of e ≤ group_of e')%nat.
Proof.
  intros [H1 H2] H. unfold group_of. repeat case_bool_decide; try lia; exfalso; num_lra.
Qed.

(** Every revision is in one group, and the groups together keep the order of the
    list when it is the order of time. *)
Lemma grouped_concat l :
  (startOfLastWeek ≤ startOfYesterday ≤ startOfToday)%Qc →
  StronglySorted (λ a b, date b ≤ date a)%Qc l →
  concat (snd <$> groupedRevisions l) = l.
Proof.
  intros Hs Hl. unfold groupedRevisions. rewrite concat_nonempty. simpl. rewrite app_nil_r.
  induction Hl as [|e l Hl IH Hall]; [done|]. simpl. pose proof (group_of_lt e) as Hlt.
  assert (∀ k, (k < group_of e)%nat → bfilter (λ x, Nat.eqb (group_of x) k) l = []) as Hnone.
  { intros k Hk. apply bfilter_none. intros x Hx. apply Nat.eqb_neq.
    rewrite Forall_forall in Hall. pose proof (group_of_mono e x Hs (Hall x Hx)). lia. }
  destruct (group_of e) as [|[|[|[|]]]]; simpl; try lia.
  - by rewrite <- IH at 5.
  - rewrite (Hnone 0%nat) in * by lia. simpl in *. by rewrite <- IH at 4.
  - rewrite (Hnone 0%nat), (Hnone 1%nat) in * by lia. simpl in *. by rewrite <- IH at 3.
  - rewrite (Hnone 0%nat), (Hnone 1%nat), (Hnone 2%nat) in * by lia. simpl in *. by rewrite <- IH at 2.
Qed.
End groups.

(** [getAvatarUrl(uid)] *)
Definition getAvatarUrl (num_toString : num → string) (uid : jsval) : string :=
  if truthy uid then "/web/image?model=res.users&field=avatar_128&id=" +:+ js_String num_toString uid else "".

(** The classes, icons and labels of runs. *)
Definition by_name (table : list (string * string)) (other name : string) : string := default other (jget name table).
Definition getRunStatusClass : string → string :=
  by_name [("completed", "run-status--success"); ("failed", "run-status--error"); ("running", "run-status--running");
           ("pending", "run-status--pending"); ("cancelled", "run-status--cancelled")] "run-status--default".
Definition getRunStatusIcon : string → string :=
  by_name [("completed", "fa fa-check-circle"); ("failed", "fa fa-exclamation-circle"); ("running", "fa fa-spinner fa-spin");
           ("pending", "fa fa-clock-o"); ("cancelled", "fa fa-ban")] "fa fa-circle-o".
Definition getRunModeClass : string → string :=
  by_name [("manual", "run-mode--manual"); ("schedule", "run-mode--schedule"); ("webhook", "run-mode--webhook");
           ("record_event", "run-mode--record-event")] "run-mode--default".
Definition getRunModeLabel : string → string :=
  by_name [("manual", "Manual"); ("schedule", "Schedule"); ("webhook", "Webhook"); ("record_event", "Record Event")] "Unknown".
Definition getQueueStateClass : string → string :=
  by_name [("wait_dependencies", "run-queue--waiting"); ("pending", "run-queue--pending"); ("enqueued", "run-queue--enqueued");
           ("started", "run-queue--started"); ("done", "run-queue--done"); ("cancelled", "run-queue--cancelled");
           ("failed", "run-queue--failed")] "run-queue--default".
Definition getQueueStateLabel : string → string :=
  by_name [("wait_dependencies", "Waiting"); ("pending", "Pending"); ("enqueued", "Enqueued"); ("started", "Started");
           ("done", "Done"); ("cancelled", "Cancelled"); ("failed", "Failed")] "Queued".

(** [formatDuration(seconds)]; printing with a number of decimals is an argument. *)
Definition run_formatDuration (toFixed : num → nat → string) (num_toString : num → string) (seconds : option num) : string :=
  match seconds with
  | None => "—"
  | Some s =>
      if num_lt s 1%Qc then toFixed (s * num_of_Z 1000)%Qc 0 +:+ "ms"
      else if num_lt s (num_of_Z 60) then toFixed s 1 +:+ "s"
      else
        let mins := Qround.Qfloor (this (s / num_of_Z 60)%Qc) in
        num_toString (num_of_Z mins) +:+ "m " +:+ toFixed (s - num_of_Z 60 * num_of_Z mins)%Qc 0 +:+ "s"
  end.
