(* ===== verification/JsonTree.v ===== *)
(** * The tree of data (components/data_panel/JsonTreeNode.js and RecordBadge.js)

    Data is browsed as a tree; every field can be dragged into a setting as an
    expression.  A node of the tree is its properties; its children are made from
    them as the template makes them. *)

From S2P Require Import Prelude JsMap JsValue JsNumber JsString Expression.

Definition RECORD_REFS_KEY : string := "__wf_record_refs__".
Definition RECORD_REFS_COUNT_KEY : string := "__wf_record_refs_count__".
Definition RECORD_REFS_TRUNCATED_KEY : string := "__wf_record_refs_truncated__".

(** [props]; [tp_draggable] is false only for the value [false]. *)
Record tree_props := TreeProps {
  tp_data : jsval;
  tp_path : list string;
  tp_keyName : option string;
  tp_level : jsval;
  tp_initialExpandDepth : jsval;
  tp_autoCollapseChildrenThreshold : jsval;
  tp_sourceNodeId : option string;
  tp_isInputNode : bool;
  tp_draggable : bool;
  tp_isContextRoot : bool;
  tp_resolver : bool;
}.

(** ** The data of a node *)

Definition isObject (v : jsval) : bool := is_plain_object v.
Definition isArray (v : jsval) : bool := is_array v.
Definition isPrimitive (v : jsval) : bool := negb (isObject v) && negb (isArray v).
Definition isRecordRefMarker (v : jsval) : bool := isObject v && is_array (prop v RECORD_REFS_KEY).
Definition hasChildren (v : jsval) : bool := negb (isRecordRefMarker v) && (isObject v || isArray v).

Record tree_child := TreeChild { tc_key : string; tc_value : jsval; tc_path : list string }.

(** [children] *)
Definition children (p : tree_props) : list tree_child :=
  if isRecordRefMarker (tp_data p) then []
  else match tp_data p with
       | JArr l => imap (λ i v, TreeChild (pretty i) v (tp_path p ++ [pretty i])) l
       | JObj o => (λ kv, TreeChild kv.1 kv.2 (tp_path p ++ [kv.1])) <$> o
       | _ => []
       end.

(** [currentLevel], [childLevel] *)
Definition floor (x : num) : Z := Qround.Qfloor (this x).
Definition currentLevel (p : tree_props) : Z :=
  match tp_level p with JNum x => if num_le 0%Qc x then floor x else 0%Z | _ => 0%Z end.
Definition childLevel (p : tree_props) : Z := (currentLevel p + 1)%Z.

(** [normalizedInitialExpandDepth], [normalizedAutoCollapseChildrenThreshold];
    [None] is positive infinity. *)
Definition normalized (v : jsval) : option Z := match v with JNum x => Some (Z.max 0 (floor x)) | _ => None end.
Definition normalizedInitialExpandDepth (p : tree_props) : option Z := normalized (tp_initialExpandDepth p).
Definition normalizedAutoCollapseChildrenThreshold (p : tree_props) : option Z :=
  normalized (tp_autoCollapseChildrenThreshold p).

Definition estimatedChildCount (p : tree_props) : nat :=
  match tp_data p with JArr l => length l | JObj o => length o | _ => 0 end.

Definition shouldFlattenRoot (p : tree_props) : bool :=
  (currentLevel p =? 0)%Z && bool_decide (tp_keyName p = None) && hasChildren (tp_data p) && negb (isRecordRefMarker (tp_data p)).

(** [initialExpandState] *)
Definition initialExpandState (p : tree_props) : bool :=
  if shouldFlattenRoot p then true
  else if negb (hasChildren (tp_data p)) then false
  else if match normalizedInitialExpandDepth p with Some d => (d <=? currentLevel p)%Z | None => false end then false
  else match normalizedAutoCollapseChildrenThreshold p with
       | Some t => (Z.of_nat (estimatedChildCount p) <=? t)%Z
       | None => true
       end.

(** What the template makes of a child. *)
Definition child_props (p : tree_props) (c : tree_child) : tree_props :=
  TreeProps (tc_value c) (tc_path c) (Some (tc_key c)) (JInt (childLevel p)) (tp_initialExpandDepth p)
    (tp_autoCollapseChildrenThreshold p) (tp_sourceNodeId p) (tp_isInputNode p) (tp_draggable p) (tp_isContextRoot p) (tp_resolver p).

(** ** Expressions *)

(** [expressionPath], [expressionTemplate] *)
Definition starts_underscore (s : string) : bool := if strip_prefix "_" s is Some _ then true else false.
Definition vars_path (p : tree_props) : bool := bool_decide (head (tp_path p) = Some "_vars").
Definition context_key (p : tree_props) : option string :=
  match tp_path p with
  | k :: _ => if tp_isContextRoot p && negb (k =s "") && starts_underscore k then Some k else None
  | [] => None
  end.
Definition source_id (p : tree_props) : option string :=
  match tp_sourceNodeId p with Some i => if i =s "" then None else Some i | None => None end.

Definition expressionPath (p : tree_props) : string :=
  if tp_isInputNode p then generateExpressionPath (tp_path p) "_input.json"
  else if vars_path p then generateExpressionPath (tail (tp_path p)) "_vars"
  else match context_key p with
       | Some k => generateExpressionPath (tail (tp_path p)) k
       | None =>
           match source_id p with
           | Some i => generateNodeSelectorExpressionPath i (tp_path p)
           | None => generateExpressionPath (tp_path p) "_json"
           end
       end.
Definition expressionTemplate (p : tree_props) : string := wrapExpression (expressionPath p).

(** [isDraggable] *)
Definition isDraggable (p : tree_props) : bool :=
  if negb (tp_draggable p) then false
  else if tp_isInputNode p || bool_decide (is_Some (source_id p)) then true
  else match tp_path p with
       | k :: _ => if tp_isContextRoot p && negb (k =s "") then starts_underscore k else k =s "_vars"
       | [] => false
       end.

(** [title] *)
Definition newline : string := String (Ascii.ascii_of_nat 10) "".
Definition title (p : tree_props) : string :=
  (if isDraggable p then "Drag to map this field: " +:+ expressionPath p else "Preview (read-only)") +:+
  "." +:+ newline +:+ "Click to collapse/expand.".

(** [onDragStart(ev)]: the data of the transfer; [None] is a drag that is
    refused.  The meta data is the object that is serialized. *)
Definition onDragStart (p : tree_props) : option (list (string * string) * jsobj) :=
  if negb (isDraggable p) then None
  else Some
    ([("text/plain", expressionPath p); ("application/x-expression", expressionTemplate p);
      ("application/x-expression-key", default "" (tp_keyName p))],
     let or_null o := match o with Some s => if s =s "" then JNull else JStr s | None => JNull end in
     [("keyName", or_null (tp_keyName p)); ("path", JArr (JStr <$> tp_path p)); ("sourceNodeId", or_null (tp_sourceNodeId p));
      ("expressionPath", JStr (expressionPath p)); ("expressionTemplate", JStr (expressionTemplate p))]).

(** ** Values on display *)

Section display.
(** How numbers are printed, and [Number] of a string. *)
Context (num_toString : num → string) (string_to_number : string → option num).

(** [Number(v)] of a value; [None] is not a number. *)
Definition js_Number (v : jsval) : option num :=
  match v with
  | JNum n => Some n
  | JBool b => Some (if b then 1%Qc else 0%Qc)
  | JNull => Some 0%Qc
  | JStr s => string_to_number s
  | _ => None
  end.

(** [recordRefs]: the references that name a model and a positive id. *)
Record record_ref := RecordRef { rr_model : jsval; rr_id : num }.

Definition record_ref_of (r : jsval) : option record_ref :=
  if negb (is_plain_object r || is_array r) then None
  else if negb (truthy (prop r "model")) then None
  else match js_Number (prop r "id") with
       | Some i => if num_le i 0%Qc then None else Some (RecordRef (prop r "model") i)
       | None => None
       end.
Definition recordRefs (v : jsval) : list record_ref :=
  if isRecordRefMarker v then omap record_ref_of (as_array (prop v RECORD_REFS_KEY)) else [].

Definition recordRefsCount (v : jsval) : Z :=
  if negb (isRecordRefMarker v) then 0%Z
  else match prop v RECORD_REFS_COUNT_KEY with
       | JNum n => if num_le 0%Qc n then floor n else Z.of_nat (length (recordRefs v))
       | _ => Z.of_nat (length (recordRefs v))
       end.
Definition recordRefsTruncated (v : jsval) : bool := isRecordRefMarker v && truthy (prop v RECORD_REFS_TRUNCATED_KEY).
Definition canExpandRecordRefs (p : tree_props) : bool := (0 <? length (recordRefs (tp_data p)))%nat && tp_resolver p.

(** [displayValue], [valueClass], [typeIcon] *)
Definition displayValue (v : jsval) : string :=
  match v with
  | JNull => "null"
  | JUndef => "undefined"
  | _ =>
      if isRecordRefMarker v
      then "Records(" +:+ num_toString (num_of_Z (recordRefsCount v)) +:+ (if recordRefsTruncated v then "+" else "") +:+ ")"
      else match v with
           | JArr l => "Array(" +:+ num_toString (num_of_Z (Z.of_nat (length l))) +:+ ")"
           | JObj _ => "Object"
           | JStr s => dquote +:+ s +:+ dquote
           | _ => js_String num_toString v
           end
  end.
Definition valueClass (v : jsval) : string :=
  match v with
  | JNull | JUndef => "json-value--null"
  | JStr _ => "json-value--string"
  | JNum _ => "json-value--number"
  | JBool _ => "json-value--boolean"
  | JArr _ => "json-value--array"
  | JObj _ => if isRecordRefMarker v then "json-value--recordrefs" else "json-value--object"
  end.
Definition typeIcon (v : jsval) : string :=
  match v with
  | JArr _ => "[]"
  | JObj _ => "{}"
  | JStr _ => "T"
  | JNum _ => "#"
  | JBool _ => "◉"
  | _ => "·"
  end.

(** ** References to records *)

(** [_recordRefKey(ref)], [_recordBadgeLabel(ref)], [recordRefLabels] *)
Definition recordRefKey (r : record_ref) : string := js_String num_toString (rr_model r) +:+ ":" +:+ num_toString (rr_id r).
Definition recordBadgeLabel (r : record_ref) : string := js_String num_toString (rr_model r) +:+ "," +:+ num_toString (rr_id r).
Definition recordRefLabels (v : jsval) : list string := recordBadgeLabel <$> recordRefs v.

(** [unresolvedRecordRefs], with the cache the parent keeps. *)
Definition unresolvedRecordRefs (cache : jsobj) (v : jsval) : list record_ref :=
  bfilter (λ r, negb (truthy (oprop cache (recordRefKey r)))) (recordRefs v).

(** [resolvedRecordItems]: each reference with its state in the cache. *)
Record record_item := RecordItem {
  ri_key : string; ri_label : string; ri_model : jsval; ri_id : num;
  ri_status : jsval; ri_error : jsval; ri_data : jsval; ri_path : list string;
}.
Definition resolvedRecordItems (cache : jsobj) (p : tree_props) : list record_item :=
  imap (λ index r,
    let key := recordRefKey r in
    let cached := js_or (oprop cache key) JNull in
    RecordItem (key +:+ ":" +:+ pretty index) (recordBadgeLabel r) (rr_model r) (rr_id r)
      (js_or (prop cached "status") (JStr "unresolved")) (js_or (prop cached "error") JNull)
      (if truthy cached then prop cached "data" else JNull)
      (tp_path p ++ [RECORD_REFS_KEY; pretty index; "data"])) (recordRefs (tp_data p)).

(** The state of a node of the tree. *)
Record tree_state := TreeState { isExpanded : bool; recordRefsExpanded : bool; recordRefsLoading : bool }.
Definition tree_setup (p : tree_props) : tree_state := TreeState (initialExpandState p) false false.
Definition toggleExpand (p : tree_props) (s : tree_state) : tree_state :=
  if hasChildren (tp_data p) then TreeState (negb (isExpanded s)) (recordRefsExpanded s) (recordRefsLoading s) else s.

(** [onToggleRecordRefs(ev)] up to the call of the resolver: the references it is
    asked for. *)
Definition toggle_refs (cache : jsobj) (p : tree_props) (s : tree_state) : tree_state * option (list record_ref) :=
  if recordRefsExpanded s then (TreeState (isExpanded s) false (recordRefsLoading s), None)
  else
    let s := TreeState (isExpanded s) true (recordRefsLoading s) in
    if negb (canExpandRecordRefs p) || recordRefsLoading s then (s, None)
    else match unresolvedRecordRefs cache (tp_data p) with
         | [] => (s, None)
         | unresolved => (TreeState (isExpanded s) true true, Some unresolved)
         end.

(** The entry of the cache for an item of the answer. *)
Definition cache_entry (status error data : jsval) : jsval := JObj [("status", status); ("error", error); ("data", data)].
Definition patch_item (patch : jsobj) (item : jsval) : jsobj :=
  match record_ref_of item with
  | Some r => oset (recordRefKey r)
      (cache_entry (js_or (prop item "status") (JStr "unresolved")) (js_or (prop item "error") JNull)
         (js_or (prop item "data") JNull)) patch
  | None => patch
  end.

(** The answer of the resolver, or its failure: what is handed to the cache. *)
Definition patch_rest (patch : jsobj) (r : record_ref) : jsobj :=
  if truthy (oprop patch (recordRefKey r)) then patch
  else oset (recordRefKey r) (cache_entry (JStr "unresolved") (JStr "Unable to resolve record") JNull) patch.
Definition resolved_patch (unresolved : list record_ref) (response : jsval) : jsobj :=
  foldl patch_rest (foldl patch_item [] (as_array (prop response "items"))) unresolved.
Definition failed_patch (unresolved : list record_ref) (message : string) : jsobj :=
  let message := if message =s "" then "Unable to resolve record" else message in
  foldl (λ patch r, oset (recordRefKey r) (cache_entry (JStr "error") (JStr message) JNull) patch) [] unresolved.
Definition toggle_done (s : tree_state) : tree_state := TreeState (isExpanded s) (recordRefsExpanded s) false.

(** After the answer, whatever it is, none of the references is asked for again. *)
Lemma covered_patch cache v patch :
  (∀ r, r ∈ unresolvedRecordRefs cache v → truthy (oprop patch (recordRefKey r)) = true) →
  (∀ k, is_Some (jget k patch) → truthy (oprop patch k) = true) → obj_ok patch →
  unresolvedRecordRefs (ospread cache patch) v = [].
Proof.
  intros Hp Ht Hn%obj_ok_NoDup. apply bfilter_none. intros r Hr. apply negb_false_iff. unfold oprop. rewrite jget_ospread by done.
  destruct (jget (recordRefKey r) patch) as [x|] eqn:E.
  - specialize (Ht (recordRefKey r)). unfold oprop in Ht. rewrite E in Ht. by apply Ht.
  - destruct (truthy (default JUndef (jget (recordRefKey r) cache))) eqn:Ec; [done|].
    assert (r ∈ unresolvedRecordRefs cache v) as Hu.
    { apply elem_of_bfilter. split; [done|]. unfold oprop. by rewrite Ec. }
    specialize (Hp r Hu). unfold oprop in Hp. by rewrite E in Hp.
Qed.

Definition all_truthy (o : jsobj) : Prop := obj_ok o ∧ ∀ k x, jget k o = Some x → truthy x = true.

Lemma all_truthy_nil : all_truthy [].
Proof. split; [apply obj_ok_nil|by intros ??]. Qed.

Lemma all_truthy_oset k x o : truthy x = true → all_truthy o → all_truthy (oset k x o).
Proof.
  intros Hx [Ho Ht]. split; [by apply obj_ok_oset|]. intros k' y. rewrite jget_oset. case_decide; [by intros [= <-]|apply Ht].
Qed.

Lemma patch_item_truthy l patch : all_truthy patch → all_truthy (foldl patch_item patch l).
Proof.
  revert patch. induction l as [|x l IH]; intros patch Hp; simpl; [done|]. apply IH. unfold patch_item.
  destruct (record_ref_of x); [|done]. by apply all_truthy_oset.
Qed.

Lemma patch_rest_spec l patch :
  all_truthy patch →
  all_truthy (foldl patch_rest patch l) ∧
  (∀ k, is_Some (jget k patch) → is_Some (jget k (foldl patch_rest patch l))) ∧
  ∀ r, r ∈ l → is_Some (jget (recordRefKey r) (foldl patch_rest patch l)).
Proof.
  revert patch. induction l as [|r l IH]; intros patch Hp; simpl; [split_and!; [done|done|set_solver]|].
  assert (all_truthy (patch_rest patch r) ∧ (∀ k, is_Some (jget k patch) → is_Some (jget k (patch_rest patch r))) ∧
    is_Some (jget (recordRefKey r) (patch_rest patch r))) as (H1 & H2 & H3).
  { unfold patch_rest, oprop. destruct (truthy (default JUndef (jget (recordRefKey r) patch))) eqn:E.
    - split_and!; [done|done|]. by destruct (jget (recordRefKey r) patch).
    - split_and!; [by apply all_truthy_oset| |rewrite jget_oset_eq; by eexists].
      intros k Hk. rewrite jget_oset. case_decide; [by eexists|done]. }
  destruct (IH _ H1) as (I1 & I2 & I3). split_and!; [done|by auto|].
  intros x [->|Hx]%elem_of_cons; by auto.
Qed.

Lemma all_truthy_prop o k : all_truthy o → is_Some (jget k o) → truthy (oprop o k) = true.
Proof. intros [_ Ho] [x Hx]. unfold oprop. rewrite Hx. by apply (Ho k). Qed.

Lemma resolved_covers cache v response :
  unresolvedRecordRefs (ospread cache (resolved_patch (unresolvedRecordRefs cache v) response)) v = [].
Proof.
  destruct (patch_rest_spec (unresolvedRecordRefs cache v) (foldl patch_item [] (as_array (prop response "items"))))
    as (H1 & _ & H3); [by apply patch_item_truthy, all_truthy_nil|].
  apply covered_patch; [intros; apply all_truthy_prop; by auto..|by destruct H1].
Qed.

Lemma failed_covers cache v message :
  unresolvedRecordRefs (ospread cache (failed_patch (unresolvedRecordRefs cache v) message)) v = [].
Proof.
  unfold failed_patch. set (entry := cache_entry _ _ _).
  assert (∀ l patch, all_truthy patch →
    let q := foldl (λ patch r, oset (recordRefKey r) entry patch) patch l in
    all_truthy q ∧ (∀ k, is_Some (jget k patch) → is_Some (jget k q)) ∧ ∀ r, r ∈ l → is_Some (jget (recordRefKey r) q)) as Hgen.
  { induction l as [|r l IH]; intros patch Hp; simpl; [split_and!; [done|done|set_solver]|].
    destruct (IH (oset (recordRefKey r) entry patch)) as (I1 & I2 & I3); [by apply all_truthy_oset|].
    split_and!; [done| |].
    - intros k Hk. apply I2. rewrite jget_oset. case_decide; [by eexists|done].
    - intros x [->|Hx]%elem_of_cons; [apply I2; rewrite jget_oset_eq; by eexists|by auto]. }
  destruct (Hgen (unresolvedRecordRefs cache v) []) as (H1 & _ & H3); [apply all_truthy_nil|].
  apply covered_patch; [intros; apply all_truthy_prop; by auto..|by destruct H1].
Qed.
End display.

(** ** Badges of records *)

(** [lastIndexOf(c)] as a cut of the string around the last [c]. *)
Fixpoint cut_last (c : ascii) (s : string) : option (string * string) :=
  match s with
  | EmptyString => None
  | String d s' =>
      match cut_last c s' with
      | Some (a, b) => Some (String d a, b)
      | None => if bool_decide (d = c) then Some (EmptyString, s') else None
      end
  end.

(** [parseInt(s, 10)] of a string that begins with a digit; [None] is not a
    number.  Spaces and signs in front do not occur in labels. *)
Definition parse_int (s : string) : option N :=
  match (span is_digit s).1 with EmptyString => None | digits => Some (parse_digits 0 digits) end.

(** [onOpenRecord(ev)]: the model and the id of the form that is opened. *)
Definition onOpenRecord (label : string) : option (string * N) :=
  match cut_last "," label with
  | None => None
  | Some (model, id) =>
      match parse_int id with
      | Some i => if (model =s "") || N.eqb i 0 then None else Some (model, i)
      | None => None
      end
  end.

(** [normalizedMax], [isOverflowing], [visibleItems], [remainCount]; [max] is a
    whole number. *)
Definition normalizedMax (max : Z) : nat := if (0 <? max)%Z then Z.to_nat max else 5.
Definition isOverflowing {A} (data : list A) (max : Z) (expanded : bool) : bool :=
  negb expanded && (normalizedMax max <? length data)%nat.
Definition visibleItems {A} (data : list A) (max : Z) (expanded : bool) : list A :=
  if expanded then data else take (normalizedMax max) data.
Definition remainCount {A} (data : list A) (max : Z) : Z := (Z.of_nat (length data) - Z.of_nat (normalizedMax max))%Z.

(** The items that are hidden are those the counter tells. *)
Lemma badges_exact {A} (data : list A) max expanded :
  (Z.of_nat (length (visibleItems data max expanded)) +
  (if isOverflowing data max expanded then remainCount data max else 0))%Z = Z.of_nat (length data).
Proof.
  unfold visibleItems, isOverflowing, remainCount. destruct expanded; simpl; [lia|].
  rewrite length_take. destruct (Nat.ltb_spec (normalizedMax max) (length data)); lia.
Qed.

(** *** Numerals *)

Lemma digit_char d : (d < 10)%N → is_digit (pretty_N_char d) = true ∧ digit_val (pretty_N_char d) = d ∧
  (d ≠ 0 → pretty_N_char d ≠ "0"%char)%N.
Proof.
  intros Hd. assert (d ∈ [0; 1; 2; 3; 4; 5; 6; 7; 8; 9]%N) as Hin.
  { rewrite !elem_of_cons. lia. }
  repeat (apply elem_of_cons in Hin as [->|Hin]; [by vm_compute|]). by apply not_elem_of_nil in Hin.
Qed.

(** The numeral of a positive number: what is parsed, its characters, and its
    first character. *)
Lemma pretty_go_spec x :
  (0 < x)%N → ∀ s,
  (∃ k, ∀ acc, parse_digits acc (pretty_N_go x s) = parse_digits (acc * k + x) s) ∧
  string_all is_digit (pretty_N_go x s) = string_all is_digit s ∧
  String.prefix "0" (pretty_N_go x s) = false.
Proof.
  induction (N.lt_wf_0 x) as [x _ IH]. intros Hx s. rewrite pretty_N_go_step by done.
  destruct (digit_char (x `mod` 10)%N) as (Hd & Hv & Hne); [apply N.mod_lt; lia|].
  pose proof (N.div_mod x 10 ltac:(lia)) as Hdm.
  destruct (N.eq_dec (x `div` 10)%N 0%N) as [E|E].
  - rewrite E, pretty_N_go_0. split_and!.
    + exists 10%N. intros acc. cbn [parse_digits]. rewrite Hv. f_equal. lia.
    + cbn [string_all]. by rewrite Hd.
    + cbn [String.prefix]. destruct (ascii_dec "0" _) as [E0|]; [|done]. exfalso. apply Hne; [lia|done].
  - destruct (IH (x `div` 10)%N ltac:(apply N.div_lt; lia) (proj1 (N.neq_0_lt_0 _) E) (String (pretty_N_char (x `mod` 10)%N) s)) as ((k & Hk) & Ha & Hp).
    split_and!; [|rewrite Ha; cbn [string_all]; by rewrite Hd|done].
    exists (k * 10)%N. intros acc. rewrite Hk. cbn [parse_digits]. rewrite Hv. f_equal. lia.
Qed.

Lemma parse_pretty (n : N) : parse_digits 0 (pretty n) = n ∧ string_all is_digit (pretty n) = true ∧ pretty n ≠ "".
Proof.
  unfold pretty, pretty_N. case_decide as Hn; [by subst|].
  destruct (pretty_go_spec n ltac:(lia) "") as ((k & Hk) & Ha & _). specialize (Hk 0%N). rewrite Ha.
  assert (parse_digits 0 (pretty_N_go n "") = n) as Hn' by (rewrite Hk; simpl; lia).
  split_and!; [done|done|]. intros E. rewrite E in Hn'. by simpl in Hn'.
Qed.

(** ** What a field stands for *)

(** Values of the language: arrays are shorter than 2^32 and keys are unique. *)
Definition js_ok (v : jsval) : Prop :=
  match v with
  | JArr l => (Z.of_nat (length l) < 4294967296)%Z
  | JObj o => NoDup (jkeys o)
  | _ => True
  end.

(** The nodes of the tree below [root], with the keys on the way. *)
Inductive reach (root : tree_props) : list string → tree_props → Prop :=
| reach_root : reach root [] root
| reach_child ks p c :
    reach root ks p → js_ok (tp_data p) → c ∈ children p → reach root (ks ++ [tc_key c]) (child_props p c).

Lemma pretty_nat_index (i : nat) : (Z.of_nat i < 4294967295)%Z → array_index (pretty i) = Some (N.of_nat i).
Proof.
  intros Hi. destruct (parse_pretty (N.of_nat i)) as (Hp & Ha & Hne). change (pretty (N.of_nat i)) with (pretty i) in *.
  unfold array_index. rewrite Hp.
  assert (all_digits (pretty i) = true) as ->.
  { revert Ha. generalize (pretty i). induction s as [|c s IH]; simpl; [done|]. intros [-> Hs]%andb_prop. by apply IH. }
  rewrite (bool_decide_eq_false_2 (pretty i = "")) by done. cbn [andb negb].
  assert (negb (String.prefix "0" (pretty i)) || (pretty i =s "0") = true) as ->.
  { change (pretty i) with (pretty (N.of_nat i)). unfold pretty, pretty_N. case_decide; [done|].
    by destruct (pretty_go_spec (N.of_nat i) ltac:(lia) "") as (_ & _ & ->). }
  cbn [andb]. destruct (N.ltb_spec (N.of_nat i) 4294967295); [done|lia].
Qed.

(** A child is what its key selects in the data of its parent. *)
Lemma child_selects p c :
  js_ok (tp_data p) → c ∈ children p → prop (tp_data p) (tc_key c) = tc_value c ∧ is_nullish (tp_data p) = false.
Proof.
  unfold children. intros Hok. destruct (isRecordRefMarker (tp_data p)); [by intros ?%not_elem_of_nil|].
  destruct (tp_data p) as [| | | | |l|o]; try by intros ?%not_elem_of_nil.
  - intros (i & v & -> & Hi)%elem_of_lookup_imap. simpl in *. split; [|done].
    pose proof (lookup_lt_Some _ _ _ Hi) as Hlt. rewrite pretty_nat_index by lia. rewrite Nat2N.id. by rewrite Hi.
  - intros ([k v] & -> & Hin)%list_elem_of_fmap. simpl in *. split; [|done]. by rewrite (elem_jget k v o).
Qed.

Lemma navigate_snoc v ks k : is_nullish (navigate v ks) = false → navigate v (ks ++ [k]) = prop (navigate v ks) k.
Proof.
  revert v. induction ks as [|k' ks IH]; intros v; simpl.
  - intros ->. done.
  - destruct (is_nullish v); [done|]. apply IH.
Qed.

Lemma reach_spec root ks p :
  reach root ks p →
  navigate (tp_data root) ks = tp_data p ∧ tp_path p = tp_path root ++ ks ∧
  tp_isInputNode p = tp_isInputNode root ∧ tp_sourceNodeId p = tp_sourceNodeId root ∧
  tp_isContextRoot p = tp_isContextRoot root ∧ tp_draggable p = tp_draggable root.
Proof.
  induction 1 as [|ks p c Hr (I1 & I2 & I3 & I4 & I5 & I6) Hok Hc].
  - split_and!; try done. by rewrite app_nil_r.
  - destruct (child_selects p c Hok Hc) as [H1 H2]. split_and!; simpl; try done.
    + rewrite navigate_snoc; rewrite I1; [done|done].
    + rewrite app_assoc, <- I2. unfold children in Hc. destruct (isRecordRefMarker (tp_data p)); [by apply not_elem_of_nil in Hc|].
      destruct (tp_data p) as [| | | | |l|o]; try by apply not_elem_of_nil in Hc.
      * by apply elem_of_lookup_imap in Hc as (i & v & -> & _).
      * by apply list_elem_of_fmap in Hc as ([k v] & -> & _).
Qed.

Lemma navigate_app v ks ks' : navigate v (ks ++ ks') = navigate (navigate v ks) ks'.
Proof.
  revert v. induction ks as [|k ks IH]; intros v; simpl; [done|]. destruct (is_nullish v) eqn:E; [|apply IH].
  by destruct ks'.
Qed.

Lemma namespace_word ns : ns ∈ NAMESPACES → ∃ w, ns = "_" +:+ w ∧ w ≠ "" ∧ string_all word_char w = true.
Proof.
  unfold NAMESPACES. intros Hin.
  repeat (apply elem_of_cons in Hin as [->|Hin]; [eexists; split; [reflexivity|]; by vm_compute|]).
  by apply not_elem_of_nil in Hin.
Qed.

(** The preview of a path below a namespace. *)
Lemma namespace_path_evaluates num_toString eval ns parts context :
  ns ∈ NAMESPACES → path_parts parts → safe_parts parts →
  let v := navigate (namespace_source context ns) parts in
  evaluateExpression num_toString eval ("=" +:+ wrapExpression (generateExpressionPath parts ns)) context =
    Evaluation v None (typeLabel v).
Proof.
  intros Hns Hp Hs v. destruct (namespace_word ns Hns) as (w & -> & Hne & Hw).
  rewrite generate_printed, str_app_assoc.
  assert (tight ("_" +:+ w +:+ printed parts)) as Ht.
  { apply underscore_tight. apply (printed_tight ("_" +:+ w)); [by apply trim_end_word|done|done]. }
  apply evaluate_path.
  - done.
  - rewrite !string_all_app, printed_template by done. by rewrite (word_template w).
  - apply simple_selector; [done|done|by apply printed_stops|done|by apply only_steps_printed].
  - unfold resolveExpression. rewrite <- str_app_assoc, <- generate_printed.
    rewrite parse_generated by done. by rewrite bool_decide_true.
Qed.

(** What the data at the root is, for each use of the tree: the input of the node,
    the output of a named node, or the context by namespace. *)
Definition grounded (context : jsobj) (root : tree_props) (ks : list string) : Prop :=
  if tp_isInputNode root
  then navigate (namespace_source context "_input") ["json"] = tp_data root
  else if tp_isContextRoot root
  then match ks with
       | k :: _ => k ∈ NAMESPACES ∧ is_nullish (tp_data root) = false ∧ prop (tp_data root) k = namespace_source context k
       | [] => False
       end
  else match source_id root with
       | Some i => node_key i = true ∧ string_all template_char i = true ∧
                   navigate (namespace_source context "_node") [i; "json"] = tp_data root
       | None => False
       end.

(** C21: A field of a tree of data that is dragged carries an expression that is
    previewed as the value that the tree shows for the field, without an error.
    The trees are those of the input, of the output of a named node and of the
    namespaces of the context, with the data that the preview has ([grounded]).  It
    is so for fields whose keys, from the top, are each an index, a name
    of letters, digits and underscores that does not begin with a digit, or a key
    with some other character but no single quote, closing brace or line break; in
    the output of a node the key at the top is not [_vars], and the id of the node
    has no double quote, closing brace or line break.  The rest does not hold in the
    program: a key such as 2fa is printed so that its digits are lost
    ([Expression.digit_key_lost]), and [_vars] at the top of an output is taken for
    the variables of the workflow ([vars_field_misread]). *)
Theorem tree_field_evaluates num_toString eval context root ks p :
  tp_path root = [] → reach root ks p → grounded context root ks →
  (tp_isInputNode root = false → tp_isContextRoot root = false → head ks ≠ Some "_vars") →
  path_parts ks → safe_parts ks → tp_draggable root = true →
  isDraggable p = true ∧
  evaluateExpression num_toString eval ("=" +:+ expressionTemplate p) context =
    Evaluation (tp_data p) None (typeLabel (tp_data p)).
Proof.
  intros Hroot Hr Hg Hvars Hp Hs Hdrag. destruct (reach_spec _ _ _ Hr) as (Hd & Hpath & Ein & Esrc & Ectx & Edr).
  rewrite Hroot in Hpath. simpl in Hpath. unfold isDraggable, expressionTemplate, expressionPath, vars_path, context_key, source_id in *.
  rewrite Ein, Esrc, Ectx, Edr, Hpath, Hdrag. unfold grounded in Hg. cbn [negb].
  destruct (tp_isInputNode root) eqn:Hin; [|destruct (tp_isContextRoot root) eqn:Hctx].
  - split; [done|]. assert (generateExpressionPath ks "_input.json" = generateExpressionPath ("json" :: ks) "_input") as -> by done.
    rewrite (namespace_path_evaluates _ _ "_input" ("json" :: ks)).
    + change ("json" :: ks) with (["json"] ++ ks). by rewrite navigate_app, Hg, Hd.
    + apply (bool_decide_unpack _). by vm_compute.
    + by constructor.
    + by constructor.
  - destruct ks as [|k ks]; [done|]. destruct Hg as (Hk & Hn & Hk'). simpl.
    assert (navigate (namespace_source context k) ks = tp_data p) as Hv by (rewrite <- Hd; simpl; by rewrite Hn, Hk').
    apply Forall_cons in Hp as [_ Hp]. apply Forall_cons in Hs as [_ Hs].
    destruct (namespace_word k Hk) as (w & Ew & Hwne & _).
    assert (negb (k =s "") = true) as Hk0 by (rewrite Ew; done).
    assert (starts_underscore k = true) as Hu by (rewrite Ew; done).
    split; [rewrite Hk0, Hu; by match goal with |- (if ?b then _ else _) = _ => destruct b end|].
    rewrite Hk0, Hu. cbn [andb].
    destruct (bool_decide (Some k = Some "_vars")) eqn:Ev.
    + apply bool_decide_eq_true in Ev as [= ->]. rewrite namespace_path_evaluates by done. by rewrite Hv.
    + rewrite namespace_path_evaluates by done. by rewrite Hv.
  - unfold source_id in Hg. destruct (tp_sourceNodeId root) as [i|]; [|done]. destruct (i =s "") eqn:Ei; [done|].
    destruct Hg as (Hi & Hsafe & Hv). split; [done|].
    rewrite bool_decide_eq_false_2 by auto. destruct ks as [|k ks]; cbn [andb].
    + rewrite node_path_evaluates; [|done|done|by constructor].
      change (i :: ["json"]) with ([i; "json"] ++ []). by rewrite navigate_app, Hv, <- Hd.
    + rewrite node_path_evaluates; [|done|done|by constructor].
      change (i :: "json" :: k :: ks) with ([i; "json"] ++ (k :: ks)). by rewrite navigate_app, Hv, Hd.
Qed.

(** The second item of the output of a node. *)
Definition demo_output : jsval :=
  JObj [("items", JArr [JObj [("first name", JStr "Ada")]; JObj [("first name", JStr "Alan")]])].
Definition demo_tree_root : tree_props :=
  TreeProps demo_output [] None JUndef JUndef JUndef (Some "n_1") false true false false.
Definition demo_tree_context : jsobj := [("_node", JObj [("n_1", JObj [("json", demo_output)])])].
Definition demo_step (p : tree_props) (k : nat) : tree_props :=
  match children p !! k with Some c => child_props p c | None => p end.

Lemma tree_field_evaluates_witness :
  let p := demo_step (demo_step (demo_step demo_tree_root 0) 1) 0 in
  isDraggable p = true ∧
  evaluateExpression (λ _, "") (λ _ _, Throw "") ("=" +:+ expressionTemplate p) demo_tree_context =
    Evaluation (JStr "Alan") None (Some "str").
Proof.
  refine (tree_field_evaluates (λ _, "") (λ _ _, Throw "") demo_tree_context demo_tree_root ["items"; "1"; "first name"]
    (demo_step (demo_step (demo_step demo_tree_root 0) 1) 0) _ _ _ _ _ _ _); [done| | |done| | |done].
  - refine (reach_child demo_tree_root ["items"; "1"] _ (TreeChild "first name" (JStr "Alan") ["items"; "1"; "first name"]) _ _ _).
    + refine (reach_child demo_tree_root ["items"] _ (TreeChild "1" (JObj [("first name", JStr "Alan")]) ["items"; "1"]) _ _ _).
      * refine (reach_child demo_tree_root [] _
          (TreeChild "items" (JArr [JObj [("first name", JStr "Ada")]; JObj [("first name", JStr "Alan")]]) ["items"]) _ _ _).
        -- constructor.
        -- apply NoDup_singleton.
        -- by left.
      * done.
      * right. by left.
    + apply NoDup_singleton.
    + by left.
  - split_and!; by vm_compute.
  - repeat constructor.
  - repeat constructor.
Defined.

(** A field [_vars] at the top of the output of a node is taken for the variables
    of the workflow. *)
Lemma vars_field_misread :
  expressionPath (TreeProps JNull ["_vars"; "a"] (Some "a") JUndef JUndef JUndef (Some "n_1") false true false false) = "_vars.a".
Proof. by vm_compute. Qed.

(** *** Badges *)

Lemma cut_last_app c a b :
  string_all (other_than c) b = true → cut_last c (a +:+ String c b) = Some (a, b).
Proof.
  intros Hb. assert (cut_last c b = None) as Hn.
  { induction b as [|d b IH]; [done|]. simpl in *. apply andb_prop in Hb as [Hd Hb]. rewrite IH by done.
    unfold other_than in Hd. apply negb_true_iff, bool_decide_eq_false in Hd. by rewrite bool_decide_eq_false_2. }
  induction a as [|d a IH]; simpl.
  - rewrite Hn. by rewrite bool_decide_eq_true_2.
  - by rewrite IH.
Qed.

(** The badge of a record opens this record: its label names it, whatever the name
    of the model contains. *)
Theorem badge_opens_record num_toString model (i : positive) :
  model ≠ "" → num_toString (num_of_Z (Zpos i)) = pretty (Npos i) →
  onOpenRecord (recordBadgeLabel num_toString (RecordRef (JStr model) (num_of_Z (Zpos i)))) = Some (model, Npos i).
Proof.
  intros Hm Hshow. unfold recordBadgeLabel, onOpenRecord. cbn [rr_model rr_id js_String]. rewrite Hshow.
  destruct (parse_pretty (Npos i)) as (Hp & Ha & Hne). change ("," +:+ pretty (Npos i)) with (String "," (pretty (Npos i))).
  rewrite cut_last_app.
  - assert (parse_int (pretty (N.pos i)) = Some (N.pos i)) as ->.
    { unfold parse_int. rewrite <- (str_app_nil (pretty (N.pos i))), (span_app is_digit) by done. cbn [fst].
      destruct (pretty (N.pos i)); [done|by rewrite Hp]. }
    by rewrite bool_decide_eq_false_2.
  - eapply string_all_impl; [|exact Ha]. intros c Hc. unfold other_than. apply negb_true_iff, bool_decide_eq_false_2.
    intros ->. done.
Qed.

Lemma badge_opens_record_witness :
  onOpenRecord "res.partner,12" = Some ("res.partner", 12%N).
Proof.
  refine (badge_opens_record (λ _, "12") "res.partner" 12 _ _); [done|by vm_compute].
Defined.
