(* ===== verification/ExpressionInput.v ===== *)
(** * The input of settings (components/expression/ExpressionInput.js)

    A text field for plain values and for expressions, with suggestions,
    highlighting and drops of dragged fields.  What it calls of its parent is a
    list of calls; a parent that stores what it is told is modelled with it. *)

From S2P Require Import Prelude JsMap JsValue JsNumber JsString Suggestions Expression.

(** ** Highlighting *)

Record marker := Marker { mk_start : nat; mk_end : nat; mk_full : string; mk_isExpression : bool }.

(** [\{(\w+)\}] at the start. *)
Definition match_param (s : string) : option (string * string) :=
  match strip_prefix "{" s with
  | Some r =>
      let '(w, r) := span word_char r in
      if w =s "" then None
      else match strip_prefix "}" r with Some rest => Some (w, rest) | None => None end
  | None => None
  end.

(** [extractPathParams(value)], as [extractExpressions] with fuel. *)
Fixpoint scan_params (fuel pos : nat) (s : string) : list marker :=
  match fuel, s with
  | S fuel, String _ s' =>
      match match_param s with
      | Some (w, rest) =>
          let full := "{" +:+ w +:+ "}" in
          Marker pos (pos + String.length full) full false :: scan_params fuel (pos + String.length full) rest
      | None => scan_params fuel (S pos) s'
      end
  | _, _ => []
  end.
Definition extractPathParams (value : string) : list marker := scan_params (String.length value) 0 value.

Definition expression_marker (t : template) : marker := Marker (tm_start t) (tm_end t) (tm_full t) true.

(** A marker that lies within another. *)
Definition within (p e : marker) : bool := (mk_start e <=? mk_start p)%nat && (mk_end p <=? mk_end e)%nat.

Definition starts_before (a b : marker) : bool := (mk_start a <? mk_start b)%nat.

(** [allMarkers], sorted. *)
Definition all_markers (isExpression : bool) (value : string) : list marker :=
  let exprs := if isExpression then expression_marker <$> extractExpressions value else [] in
  sort_by starts_before (exprs ++ bfilter (λ p, negb (existsb (within p) exprs)) (extractPathParams value)).

Record segment := Segment { sg_id : string; sg_text : string; sg_isExpression : bool; sg_isPathParam : bool }.

(** [value.slice(a, b)] for [a] up to [b]. *)
Definition slice (a b : nat) (s : string) : string := String.substring a (b - a) s.

(** The loop over the markers, and the rest of the text. *)
Fixpoint marker_segments (index cursor : nat) (value : string) (markers : list marker) : list segment :=
  match markers with
  | [] =>
      if (cursor <? String.length value)%nat
      then [Segment ("tail-" +:+ pretty cursor) (slice cursor (String.length value) value) false false] else []
  | m :: markers =>
      (if (cursor <? mk_start m)%nat
       then [Segment (pretty index +:+ "-plain-" +:+ pretty cursor) (slice cursor (mk_start m) value) false false] else []) ++
      Segment (pretty index +:+ "-" +:+ (if mk_isExpression m then "expr" else "param") +:+ "-" +:+ pretty (mk_start m))
        (mk_full m) (mk_isExpression m) (negb (mk_isExpression m)) ::
      marker_segments (S index) (mk_end m) value markers
  end.

(** [highlightSegments] *)
Definition highlightSegments (isExpression : bool) (value : string) : list segment :=
  match all_markers isExpression value with
  | [] => [Segment "0" value false false]
  | markers => marker_segments 0 0 value markers
  end.

(** [hasPathParamHighlights], [hasExpressionHighlights], [hasAnyHighlights] *)
Definition hasPathParamHighlights (value : string) : bool := (0 <? length (extractPathParams value))%nat.
Definition hasExpressionHighlights (isExpression : bool) (value : string) : bool :=
  isExpression && (0 <? length (extractExpressions value))%nat.
Definition hasAnyHighlights (isExpression : bool) (value : string) : bool :=
  hasExpressionHighlights isExpression value || hasPathParamHighlights value.

(** *** The segments make up the text *)

(** [full] stands in [v] at [start]. *)
Definition stands (v : string) (m : marker) : Prop :=
  ∃ pre post, v = pre +:+ mk_full m +:+ post ∧ String.length pre = mk_start m ∧
    mk_end m = (mk_start m + String.length (mk_full m))%nat.

(** Markers one after the other from [pos] on. *)
Fixpoint increasing (pos : nat) (l : list marker) : Prop :=
  match l with
  | [] => True
  | m :: l => (pos ≤ mk_start m < mk_end m)%nat ∧ increasing (mk_end m) l
  end.

Definition apart (a b : marker) : Prop := (mk_end a ≤ mk_start b ∨ mk_end b ≤ mk_start a)%nat.

Lemma increasing_from pos pos' l : (pos ≤ pos')%nat → increasing pos' l → increasing pos l.
Proof. destruct l as [|m l]; simpl; [done|]. intros ? [? ?]. split; [lia|done]. Qed.

Lemma increasing_elem pos l m : increasing pos l → m ∈ l → (pos ≤ mk_start m < mk_end m)%nat.
Proof.
  revert pos. induction l as [|x l IH]; intros pos; simpl; [by intros _ ?%not_elem_of_nil|].
  intros [Hx Hl] [->|Hm]%elem_of_cons; [done|]. specialize (IH _ Hl Hm). lia.
Qed.

Lemma increasing_apart pos l a b : increasing pos l → a ∈ l → b ∈ l → a = b ∨ apart a b.
Proof.
  revert pos. induction l as [|x l IH]; intros pos; simpl; [by intros _ ?%not_elem_of_nil|].
  intros [Hx Hl] [->|Ha]%elem_of_cons [->|Hb]%elem_of_cons; [by left|..].
  - right. left. by apply (increasing_elem _ _ _ Hl) in Hb as [? _].
  - right. right. by apply (increasing_elem _ _ _ Hl) in Ha as [? _].
  - by eapply IH.
Qed.

Lemma increasing_NoDup pos l : increasing pos l → NoDup l.
Proof.
  revert pos. induction l as [|x l IH]; intros pos; simpl; [constructor|]. intros [Hx Hl].
  constructor; [|by eapply IH]. intros Hin. apply (increasing_elem _ _ _ Hl) in Hin. lia.
Qed.

(** The texts of segments, put together. *)
Definition joined (l : list segment) : string := foldr (λ g s, sg_text g +:+ s) "" l.

Lemma joined_app a b : joined (a ++ b) = joined a +:+ joined b.
Proof. induction a as [|g a IH]; simpl; [done|]. by rewrite IH, str_app_assoc. Qed.

Lemma joined_cons g l : joined (g :: l) = sg_text g +:+ joined l.
Proof. done. Qed.

Lemma segments_joined value markers index cursor :
  Forall (stands value) markers → increasing cursor markers → (cursor ≤ String.length value)%nat →
  joined (marker_segments index cursor value markers) = String.substring cursor (String.length value - cursor) value.
Proof.
  revert index cursor. induction markers as [|m markers IH]; intros index cursor Hs Hi Hc; cbn [marker_segments].
  - destruct (Nat.ltb_spec cursor (String.length value)).
    + simpl. by rewrite str_app_nil.
    + replace (String.length value - cursor)%nat with 0%nat by lia. simpl. clear. generalize cursor.
      induction value as [|c v IH]; intros [|k]; simpl; done || apply IH.
  - apply Forall_cons in Hs as [(pre & post & Ev & Hl & He) Hs]. destruct Hi as [Hm Hi].
    assert (mk_end m ≤ String.length value)%nat as Hend by (rewrite Ev, !str_app_length; lia).
    rewrite joined_app, joined_cons. cbn [sg_text]. rewrite (IH (S index) (mk_end m) Hs Hi Hend).
    assert (mk_full m = String.substring (mk_start m) (mk_end m - mk_start m) value) as ->.
    { rewrite Ev, He. replace (mk_start m + String.length (mk_full m) - mk_start m)%nat with (String.length (mk_full m)) by lia.
      by rewrite substring_middle. }
    replace (mk_end m) with (mk_start m + (mk_end m - mk_start m))%nat at 2 by lia.
    rewrite substring_split.
    replace (mk_end m - mk_start m + (String.length value - mk_end m))%nat with (String.length value - mk_start m)%nat by lia.
    assert (joined (if (cursor <? mk_start m)%nat
       then [Segment (pretty index +:+ "-plain-" +:+ pretty cursor) (slice cursor (mk_start m) value) false false] else [])
       = String.substring cursor (mk_start m - cursor) value) as ->.
    { destruct (Nat.ltb_spec cursor (mk_start m)); [simpl; by rewrite str_app_nil|].
      replace (mk_start m - cursor)%nat with 0%nat by lia. clear. generalize cursor.
      induction value as [|c v IH]; intros [|k]; simpl; done || apply IH. }
    replace (mk_start m) with (cursor + (mk_start m - cursor))%nat at 2 by lia.
    rewrite substring_split. f_equal. lia.
Qed.

(** Markers sorted by their starts and apart from each other are increasing. *)
Lemma sorted_increasing l :
  StronglySorted (λ x y, starts_before y x = false) l → NoDup l → Forall (λ m, (mk_start m < mk_end m)%nat) l →
  (∀ a b, a ∈ l → b ∈ l → a = b ∨ apart a b) → increasing 0 l.
Proof.
  induction 1 as [|m l Hl IH Hm]; intros Hnd Hlen Hap; simpl; [done|].
  apply NoDup_cons in Hnd as [Hnin Hnd]. apply Forall_cons in Hlen as [Hlm Hlen]. split; [lia|].
  assert (increasing 0 l) as Hi by (apply IH; [done|done|intros; apply Hap; by right]).
  assert (∀ x, x ∈ l → (mk_end m ≤ mk_start x)%nat) as Hafter.
  { intros x Hx. destruct (Hap m x) as [->|[?|Hx']]; [by left|by right|done|done|].
    rewrite Forall_forall in Hm, Hlen. specialize (Hm x Hx). specialize (Hlen x Hx).
    unfold starts_before in Hm. apply Nat.ltb_ge in Hm. lia. }
  destruct l as [|x l]; [done|]. destruct Hi as [Hx Hi]. split; [|done]. split; [apply Hafter; by left|lia].
Qed.

(** *** What the scans find *)

Lemma strip_prefix_inv p s r : strip_prefix p s = Some r → s = p +:+ r.
Proof.
  revert s. induction p as [|c p IH]; intros [|d s]; simpl; try done; try (by intros [= <-]).
  case_bool_decide as E; [|done]. intros H%IH. by rewrite E, H.
Qed.

Lemma match_close_inv s b r : match_close s = Some (b, r) → s = b +:+ "}}" +:+ r.
Proof.
  revert b r. induction s as [|c s IH]; intros b r; cbn [match_close]; [done|]. destruct (line_end c); [done|].
  destruct (strip_prefix "}}" s) as [t|] eqn:E.
  - intros [= <- <-]. apply strip_prefix_inv in E. by rewrite E.
  - destruct (match_close s) as [[b' r']|] eqn:E'; [|done]. intros [= <- <-]. by rewrite (IH b' r' eq_refl) at 1.
Qed.

Lemma span_inv f s : (span f s).1 +:+ (span f s).2 = s ∧ string_all f (span f s).1 = true.
Proof.
  induction s as [|c s IH]; simpl; [done|]. destruct (f c) eqn:E; [|done].
  destruct (span f s) as [a b]. simpl in *. destruct IH as [IH1 IH2]. split; [exact (f_equal (String c) IH1)|by rewrite IH2, andb_true_r].
Qed.

Lemma match_param_inv s w r :
  match_param s = Some (w, r) → s = "{" +:+ w +:+ "}" +:+ r ∧ w ≠ "" ∧ string_all word_char w = true.
Proof.
  unfold match_param. destruct (strip_prefix "{" s) as [t|] eqn:E; [|done]. apply strip_prefix_inv in E as ->.
  destruct (span_inv word_char t) as [E1 E2]. destruct (span word_char t) as [w' t']. cbn [fst snd] in *.
  case_bool_decide; [done|]. destruct (strip_prefix "}" t') as [r'|] eqn:E; [|done]. apply strip_prefix_inv in E as ->.
  intros [= -> ->]. by rewrite <- E1.
Qed.

Definition expr_shape (m : marker) : Prop := ∃ body, mk_full m = "{{" +:+ body +:+ "}}".
Definition param_shape (m : marker) : Prop := ∃ w, mk_full m = "{" +:+ w +:+ "}" ∧ string_all word_char w = true.

(** One match, and the scan after it. *)
Lemma scan_one pre full rest (P : marker → Prop) b l :
  full ≠ "" →
  let pos := String.length pre in
  let m := Marker pos (pos + String.length full) full b in
  P m →
  (increasing (mk_end m) l ∧ Forall (stands ((pre +:+ full) +:+ rest)) l ∧ Forall P l) →
  increasing pos (m :: l) ∧ Forall (stands (pre +:+ full +:+ rest)) (m :: l) ∧ Forall P (m :: l).
Proof.
  intros Hne pos m Hm (H1 & H2 & H3). rewrite str_app_assoc in H2.
  assert (0 < String.length full)%nat as Hl by (destruct full; [done|simpl; lia]).
  split_and!; [split; [simpl; lia|done]|constructor; [|done]|by constructor]. by exists pre, rest.
Qed.

Lemma scan_skip pre c s (P : marker → Prop) l :
  (increasing (S (String.length pre)) l ∧ Forall (stands ((pre +:+ String c "") +:+ s)) l ∧ Forall P l) →
  increasing (String.length pre) l ∧ Forall (stands (pre +:+ String c s)) l ∧ Forall P l.
Proof.
  intros (H1 & H2 & H3). rewrite str_app_assoc in H2. split_and!; [|done|done]. eapply increasing_from; [|done]. lia.
Qed.

Lemma scan_templates_spec fuel pre s :
  let l := expression_marker <$> scan_templates fuel (String.length pre) s in
  increasing (String.length pre) l ∧ Forall (stands (pre +:+ s)) l ∧ Forall expr_shape l.
Proof.
  revert pre s. induction fuel as [|fuel IH]; intros pre s; [by destruct s|]. destruct s as [|c s]; [done|].
  cbn [scan_templates].
  destruct (match strip_prefix "{{" (String c s) with Some r => match_close r | None => None end) as [[b r]|] eqn:E.
  - destruct (strip_prefix "{{" (String c s)) as [t|] eqn:Et; [|done].
    apply strip_prefix_inv in Et. apply match_close_inv in E. rewrite Et, E. set (full := "{{" +:+ b +:+ "}}").
    assert ("{{" +:+ b +:+ "}}" +:+ r = full +:+ r) as -> by (unfold full; by rewrite !str_app_assoc).
    specialize (IH (pre +:+ full) r). rewrite str_app_length in IH.
    apply (scan_one pre full r expr_shape true); [done|by exists b|exact IH].
  - apply scan_skip. specialize (IH (pre +:+ String c "") s). rewrite str_app_length in IH.
    replace (String.length pre + String.length (String c ""))%nat with (S (String.length pre)) in IH by (simpl; lia). exact IH.
Qed.

Lemma scan_params_spec fuel pre s :
  let l := scan_params fuel (String.length pre) s in
  increasing (String.length pre) l ∧ Forall (stands (pre +:+ s)) l ∧ Forall param_shape l.
Proof.
  revert pre s. induction fuel as [|fuel IH]; intros pre s; [by destruct s|]. destruct s as [|c s]; [done|].
  cbn [scan_params]. destruct (match_param (String c s)) as [[w r]|] eqn:E.
  - apply match_param_inv in E as (-> & _ & Hw). set (full := "{" +:+ w +:+ "}").
    assert ("{" +:+ w +:+ "}" +:+ r = full +:+ r) as -> by (unfold full; by rewrite !str_app_assoc).
    specialize (IH (pre +:+ full) r). rewrite str_app_length in IH.
    apply (scan_one pre full r param_shape false); [done|by exists w|exact IH].
  - apply scan_skip. specialize (IH (pre +:+ String c "") s). rewrite str_app_length in IH.
    replace (String.length pre + String.length (String c ""))%nat with (S (String.length pre)) in IH by (simpl; lia). exact IH.
Qed.

(** *** The two kinds do not cross *)

Lemma get_app_l i a b : (i < String.length a)%nat → String.get i (a +:+ b) = String.get i a.
Proof. revert i. induction a as [|c a IH]; intros i; simpl; [lia|]. destruct i; [done|]. intros. apply IH. lia. Qed.
Lemma get_app_r i a b : String.get (String.length a + i) (a +:+ b) = String.get i b.
Proof. induction a as [|c a IH]; simpl; done. Qed.

(** The character of [v] at an offset of a marker. *)
Lemma stands_get v m i :
  stands v m → (i < String.length (mk_full m))%nat → String.get (mk_start m + i) v = String.get i (mk_full m).
Proof. intros (pre & post & -> & <- & _) Hi. rewrite get_app_r. by apply get_app_l. Qed.

Lemma string_all_get f s i c : string_all f s = true → String.get i s = Some c → f c = true.
Proof.
  revert i. induction s as [|d s IH]; intros i; simpl; [by destruct i|]. intros [Hd Hs]%andb_prop.
  destruct i; [by intros [= <-]|by apply IH].
Qed.

(** The first and the last character of either, and what a parameter has between. *)
Lemma expr_ends m :
  expr_shape m → (2 ≤ String.length (mk_full m))%nat ∧ String.get 0 (mk_full m) = Some "{"%char ∧
  String.get (String.length (mk_full m) - 1) (mk_full m) = Some "}"%char.
Proof.
  intros [b E]. assert (String.length (mk_full m) = S (S (S (S (String.length b))))) as Hl by (rewrite E, !str_app_length; simpl; lia).
  rewrite Hl, E. split_and!; [lia|done|]. change (String.get (S (String.length b)) (b +:+ "}}") = Some "}"%char).
  by rewrite <- Nat.add_1_r, get_app_r.
Qed.

Lemma param_chars m i :
  param_shape m → (i < String.length (mk_full m))%nat →
  ∃ c, String.get i (mk_full m) = Some c ∧
    if Nat.eqb i 0 then c = "{"%char
    else if Nat.eqb i (String.length (mk_full m) - 1) then c = "}"%char else word_char c = true.
Proof.
  intros (w & -> & Hw). rewrite !str_app_length. simpl. destruct i as [|i]; intros Hi; [by eexists|]. simpl.
  change ("" +:+ w +:+ "}") with (w +:+ "}").
  replace (String.length w + 1 - 0)%nat with (S (String.length w)) by lia. simpl.
  destruct (Nat.eqb_spec i (String.length w)) as [->|Hne].
  - exists "}"%char. split; [|done]. pose proof (get_app_r 0 w "}") as Hg. by rewrite Nat.add_0_r in Hg.
  - assert (i < String.length w)%nat as Hlt by lia. rewrite (get_app_l i w "}" Hlt).
    destruct (String.get i w) as [c|] eqn:E; [exists c; split; [done|exact (string_all_get _ _ _ _ Hw E)]|].
    exfalso. clear -E Hlt. revert i E Hlt. induction w as [|d w IH]; intros i; simpl; [lia|]. destruct i; [done|].
    intros ??. eapply IH; [done|lia].
Qed.

Lemma kinds_apart v p e :
  stands v p → stands v e → param_shape p → expr_shape e → within p e = false → apart e p.
Proof.
  intros Hp He Sp Se Hw. destruct (expr_ends e Se) as (He2 & Hopen & Hclose).
  pose proof Hp as (_ & _ & _ & _ & Ep). pose proof He as (_ & _ & _ & _ & Ee).
  destruct (Nat.le_gt_cases (mk_end e) (mk_start p)) as [?|H1]; [by left|].
  destruct (Nat.le_gt_cases (mk_end p) (mk_start e)) as [?|H2]; [by right|]. exfalso.
  assert (mk_start p < mk_start e ∨ mk_start e ≤ mk_start p ∧ mk_end e < mk_end p)%nat as [Hcase|[Hle Hcase]].
  { unfold within in Hw. apply andb_false_iff in Hw as [Hw|Hw]; apply Nat.leb_gt in Hw; lia. }
  - (* the expression begins within the parameter *)
    destruct (param_chars p (mk_start e - mk_start p) Sp ltac:(lia)) as (c & Hc & Hkind).
    rewrite <- (stands_get v p) in Hc by (done || lia). replace (mk_start p + (mk_start e - mk_start p))%nat with (mk_start e + 0)%nat in Hc by lia.
    rewrite (stands_get v e) in Hc by (done || lia). rewrite Hopen in Hc. injection Hc as <-.
    destruct (Nat.eqb_spec (mk_start e - mk_start p) 0); [lia|].
    destruct (Nat.eqb_spec (mk_start e - mk_start p) (String.length (mk_full p) - 1)); done.
  - (* the expression ends within the parameter *)
    destruct (param_chars p (mk_end e - 1 - mk_start p) Sp ltac:(lia)) as (c & Hc & Hkind).
    rewrite <- (stands_get v p) in Hc by (done || lia).
    replace (mk_start p + (mk_end e - 1 - mk_start p))%nat with (mk_start e + (String.length (mk_full e) - 1))%nat in Hc by lia.
    rewrite (stands_get v e) in Hc by (done || lia). rewrite Hclose in Hc. injection Hc as <-.
    destruct (Nat.eqb_spec (mk_end e - 1 - mk_start p) 0); [done|].
    destruct (Nat.eqb_spec (mk_end e - 1 - mk_start p) (String.length (mk_full p) - 1)); [lia|done].
Qed.

Lemma increasing_filter f pos l : increasing pos l → increasing pos (bfilter f l).
Proof.
  revert pos. induction l as [|m l IH]; intros pos; simpl; [done|]. intros [Hm Hl].
  destruct (f m); simpl; [by split; [|apply IH]|]. apply IH. eapply increasing_from; [|done]. lia.
Qed.

(** Only one order of markers is increasing. *)
Lemma increasing_unique p q l k : increasing p l → increasing q k → l ≡ₚ k → l = k.
Proof.
  revert p q k. induction l as [|m l IH]; intros p q k Hl Hk Hp; [by apply Permutation_nil_l in Hp|].
  destruct k as [|x k]; [by apply Permutation_nil_r in Hp|]. destruct Hl as [Hm Hl], Hk as [Hx Hk].
  assert (m = x) as ->; [|f_equal; by eapply IH, Permutation_cons_inv].
  destruct (proj1 (elem_of_cons k m x)) as [->|Hin]; [rewrite <- Hp; by left|done|].
  destruct (proj1 (elem_of_cons l x m)) as [->|Hin']; [rewrite Hp; by left|done|].
  apply (increasing_elem _ _ _ Hl) in Hin'. apply (increasing_elem _ _ _ Hk) in Hin. lia.
Qed.

Lemma stands_elem v m l : Forall (stands v) l → m ∈ l → stands v m.
Proof. rewrite Forall_forall. auto. Qed.

Definition expression_markers (isExpression : bool) (value : string) : list marker :=
  if isExpression then expression_marker <$> extractExpressions value else [].
Definition param_markers (isExpression : bool) (value : string) : list marker :=
  bfilter (λ p, negb (existsb (within p) (expression_markers isExpression value))) (extractPathParams value).

Lemma expression_markers_spec isExpression value :
  increasing 0 (expression_markers isExpression value) ∧ Forall (stands value) (expression_markers isExpression value) ∧
  Forall expr_shape (expression_markers isExpression value).
Proof. destruct isExpression; [|split_and!; by (constructor || done)]. exact (scan_templates_spec (String.length value) "" value). Qed.

Lemma param_markers_spec isExpression value :
  increasing 0 (param_markers isExpression value) ∧ Forall (stands value) (param_markers isExpression value) ∧
  Forall param_shape (param_markers isExpression value).
Proof.
  destruct (scan_params_spec (String.length value) "" value) as (H1 & H2 & H3).
  split_and!; [by apply increasing_filter|..]; apply Forall_forall; intros p [Hp _]%elem_of_bfilter; by eapply Forall_forall.
Qed.

Lemma all_markers_spec isExpression value :
  increasing 0 (all_markers isExpression value) ∧ Forall (stands value) (all_markers isExpression value) ∧
  all_markers isExpression value ≡ₚ expression_markers isExpression value ++ param_markers isExpression value.
Proof.
  destruct (expression_markers_spec isExpression value) as (E1 & E2 & E3).
  destruct (param_markers_spec isExpression value) as (P1 & P2 & P3).
  assert (all_markers isExpression value ≡ₚ expression_markers isExpression value ++ param_markers isExpression value) as Hp by apply sort_by_perm.
  assert (∀ e p, e ∈ expression_markers isExpression value → p ∈ param_markers isExpression value → apart e p) as Hcross.
  { intros e p He Hpm. rewrite Forall_forall in E2, E3, P2, P3. pose proof Hpm as [_ Hw]%elem_of_bfilter.
    apply (kinds_apart value); [auto..|]. apply negb_true_iff in Hw. destruct (within p e) eqn:Ew; [|done].
    exfalso. apply not_true_iff_false in Hw. apply Hw, existsb_exists. exists e. split; [by apply list_elem_of_In|done]. }
  assert (∀ m, m ∈ all_markers isExpression value → (mk_start m < mk_end m)%nat) as Hlen.
  { intros m. rewrite Hp, elem_of_app. intros [Hm|Hm]; by eapply increasing_elem in Hm as [_ ?]. }
  split_and!; [|rewrite Hp; by apply Forall_app|done].
  apply sorted_increasing; [apply sort_by_sorted; unfold starts_before; intros *; rewrite ?Nat.ltb_lt, ?Nat.ltb_ge; lia| |by apply Forall_forall|].
  - rewrite Hp. apply NoDup_app. split_and!; [by eapply increasing_NoDup| |by eapply increasing_NoDup].
    intros m He Hm. specialize (Hcross m m He Hm).
    assert (mk_start m < mk_end m)%nat by (apply Hlen; rewrite Hp, elem_of_app; by left). unfold apart in Hcross. lia.
  - intros a b. rewrite Hp, !elem_of_app. intros [Ha|Ha] [Hb|Hb].
    + exact (increasing_apart _ _ _ _ E1 Ha Hb).
    + right. by apply Hcross.
    + right. destruct (Hcross b a Hb Ha); [by right|by left].
    + exact (increasing_apart _ _ _ _ P1 Ha Hb).
Qed.

Lemma bfilter_id_markers (b : bool) l : (∀ m, m ∈ l → mk_isExpression m = b) → bfilter mk_isExpression l = if b then l else [].
Proof. intros H. destruct b; [by apply bfilter_all|by apply bfilter_none]. Qed.

Lemma scan_params_kind fuel pos s m : m ∈ scan_params fuel pos s → mk_isExpression m = false.
Proof.
  revert pos s. induction fuel as [|fuel IH]; intros pos [|c s]; simpl; try by intros ?%not_elem_of_nil.
  destruct (match_param _) as [[w r]|]; [|apply IH]. intros [->|Hm]%elem_of_cons; [done|by eapply IH].
Qed.

(** The expressions of all markers are those found, in their order. *)
Lemma all_markers_expressions isExpression value :
  bfilter mk_isExpression (all_markers isExpression value) = expression_markers isExpression value.
Proof.
  destruct (all_markers_spec isExpression value) as (Hi & _ & Hp).
  destruct (expression_markers_spec isExpression value) as (E1 & _ & _).
  apply (increasing_unique 0 0); [by apply increasing_filter|done|].
  assert (∀ l k, l ≡ₚ k → bfilter mk_isExpression l ≡ₚ bfilter mk_isExpression k) as Hf.
  { clear. intros l k. induction 1 as [|x l k _ IH|x y l|l k t _ IH1 _ IH2]; simpl; [done|..|by etrans].
    - destruct (mk_isExpression x); [by constructor|done].
    - destruct (mk_isExpression x), (mk_isExpression y); done || constructor. }
  rewrite (Hf _ _ Hp), bfilter_app.
  rewrite (bfilter_id_markers true), (bfilter_id_markers false), app_nil_r; [done|..].
  - intros m [Hm _]%elem_of_bfilter. by eapply scan_params_kind.
  - intros m. unfold expression_markers. destruct isExpression; [|by intros ?%not_elem_of_nil].
    intros (t & -> & _)%list_elem_of_fmap. done.
Qed.

Lemma marker_segments_expressions index cursor value markers :
  sg_text <$> bfilter sg_isExpression (marker_segments index cursor value markers) = mk_full <$> bfilter mk_isExpression markers.
Proof.
  revert index cursor. induction markers as [|m markers IH]; intros index cursor; cbn [marker_segments].
  - by destruct (_ <? _)%nat.
  - rewrite bfilter_app, fmap_app. assert (∀ b s t, sg_text <$> bfilter sg_isExpression (if b : bool then [Segment s t false false] else []) = []) as Hp
      by by intros []. rewrite Hp. simpl. destruct (mk_isExpression m); simpl; [f_equal|]; apply IH.
Qed.

(** C23: the segments shown behind the text make up exactly the text, whatever
    braces are in it, and those marked as expressions are the expressions of
    the text, in their order (none where the field is not in its expression
    mode). *)
Theorem highlight_covers isExpression value :
  joined (highlightSegments isExpression value) = value ∧
  sg_text <$> bfilter sg_isExpression (highlightSegments isExpression value) =
    (if isExpression then tm_full <$> extractExpressions value else []).
Proof.
  destruct (all_markers_spec isExpression value) as (Hi & Hs & _).
  pose proof (all_markers_expressions isExpression value) as He.
  assert (mk_full <$> expression_markers isExpression value = if isExpression then tm_full <$> extractExpressions value else []) as <-.
  { unfold expression_markers. destruct isExpression; [|done]. by rewrite <- list_fmap_compose. }
  rewrite <- He. unfold highlightSegments. destruct (all_markers isExpression value) as [|m l] eqn:E.
  - simpl. by rewrite str_app_nil.
  - split; [|apply marker_segments_expressions]. rewrite segments_joined by (done || lia).
    rewrite Nat.sub_0_r. apply substring_all.
Qed.

(** ** The field *)

(** What is dropped: the entries of the data transfer the field reads. *)
Record transfer := Transfer { tr_expression : string; tr_path : string; tr_key : string; tr_meta : string }.
Record drop_payload := DropPayload { dp_expression : string; dp_path : string; dp_keyName : string; dp_meta : jsval }.

(** The props; the context is absent or an object, a callback absent or there. *)
Record props := Props {
  p_value : jsval;
  p_label : string;
  p_context : option jsobj;
  p_multiline : bool;
  p_mode : jsval;
  p_toggleMode : jsval;
  p_readonly : bool;
  p_suggestions : jsval;
  p_valueSuggestions : jsval;
  p_expressionSuggestions : jsval;
  p_hasModeChange : bool;
  p_onDrop : option (drop_payload → jsval);
}.

(** [state], and the two fields of the component. *)
Record field := Field {
  f_isFocused : bool;
  f_isDragOver : bool;
  f_showSuggestions : bool;
  f_activeSuggestionIndex : Z;
  f_scrollTop : num;
  f_scrollLeft : num;
  f_localValue : string;
  f_localMode : string;
  f_dragEnterCount : Z;
  f_ignoreBlur : bool;
}.

(** What is told to the parent: [props.onChange], [props.onModeChange]. *)
Inductive call := CallChange (value : string) | CallModeChange (mode : string).

(** [_normalizeMode(mode)], [_normalizeToggleMode(mode)] *)
Definition normalizeMode (mode : jsval) : string :=
  match mode with JStr m => if bool_decide (m ∈ ["fixed"; "expression"]) then m else "" | _ => "" end.
Definition normalizeToggleMode (mode : jsval) : string :=
  match mode with JStr m => if bool_decide (m ∈ ["top"; "side"; "none"]) then m else "top" | _ => "top" end.

(** [_inferModeFromValue(value)] *)
Definition inferModeFromValue (value : string) : string := if isExpressionMode value then "expression" else "fixed".

(** [_toDisplayValue(value, mode)] and [_serializeValue(value, mode)], on text *)
Definition toDisplayValue (value mode : string) : string := if mode =s "expression" then stripExpressionPrefix value else value.
Definition serializeValue (value mode : string) : string := if mode =s "expression" then ensureExpressionPrefix value else value.

(** [typeof v === "string" ? v : ""] *)
Definition text_of (v : jsval) : string := match v with JStr s => s | _ => "" end.

(** [setup()] *)
Definition setup (p : props) : field :=
  let initialStoredValue := text_of (p_value p) in
  let initialMode := if normalizeMode (p_mode p) =s "" then inferModeFromValue initialStoredValue else normalizeMode (p_mode p) in
  Field false false false (-1) 0%Qc 0%Qc (toDisplayValue initialStoredValue initialMode) initialMode 0 false.

Definition hasControlledMode (p : props) : bool := negb (normalizeMode (p_mode p) =s "").
Definition showTopToggle (p : props) : bool := negb (p_readonly p) && (normalizeToggleMode (p_toggleMode p) =s "top").
Definition showSideToggle (p : props) : bool := negb (p_readonly p) && (normalizeToggleMode (p_toggleMode p) =s "side").
Definition showHeader (p : props) : bool := negb (p_label p =s "") || showTopToggle p.
Definition textAreaRows (p : props) : nat := if p_multiline p then 2 else 1.

(** [mode], [isExpression] *)
Definition mode (p : props) (s : field) : string :=
  let controlledMode := normalizeMode (p_mode p) in
  if controlledMode =s "" then (if f_localMode s =s "" then "fixed" else f_localMode s) else controlledMode.
Definition isExpression (p : props) (s : field) : bool := mode p s =s "expression".

(** *** Changes of single parts of the state *)

Definition with_local (value mode : string) (s : field) : field :=
  Field (f_isFocused s) (f_isDragOver s) (f_showSuggestions s) (f_activeSuggestionIndex s) (f_scrollTop s) (f_scrollLeft s)
    value mode (f_dragEnterCount s) (f_ignoreBlur s).
Definition with_suggestions (show : bool) (active : Z) (s : field) : field :=
  Field (f_isFocused s) (f_isDragOver s) show active (f_scrollTop s) (f_scrollLeft s)
    (f_localValue s) (f_localMode s) (f_dragEnterCount s) (f_ignoreBlur s).
Definition with_focus (focused ignoreBlur : bool) (s : field) : field :=
  Field focused (f_isDragOver s) (f_showSuggestions s) (f_activeSuggestionIndex s) (f_scrollTop s) (f_scrollLeft s)
    (f_localValue s) (f_localMode s) (f_dragEnterCount s) ignoreBlur.
Definition with_drag (over : bool) (count : Z) (s : field) : field :=
  Field (f_isFocused s) over (f_showSuggestions s) (f_activeSuggestionIndex s) (f_scrollTop s) (f_scrollLeft s)
    (f_localValue s) (f_localMode s) count (f_ignoreBlur s).

(** The callback of [onWillUpdateProps]; [p] are the props so far. *)
Definition onWillUpdateProps (p next : props) (s : field) : field :=
  let nextValue := text_of (p_value next) in
  let nextMode := normalizeMode (p_mode next) in
  let inferredNextMode := if nextMode =s "" then inferModeFromValue nextValue else nextMode in
  let nextDisplayValue := toDisplayValue nextValue inferredNextMode in
  let valueChanged := negb (nextDisplayValue =s f_localValue s) in
  let modeChanged := negb (inferredNextMode =s mode p s) in
  if f_isFocused s && negb modeChanged then s
  else
    let value := if valueChanged || modeChanged then nextDisplayValue else f_localValue s in
    if negb (nextMode =s "") then with_local value nextMode s
    else with_local value (if valueChanged || modeChanged then inferredNextMode else f_localMode s) s.

(** *** A parent that stores what it is told *)

(** What the parent stores: the value, and the mode where it controls it. *)
Record store := Store { st_value : string; st_mode : option string }.

Definition props_of (base : props) (h : store) : props :=
  Props (JStr (st_value h)) (p_label base) (p_context base) (p_multiline base)
    (match st_mode h with Some m => JStr m | None => JUndef end)
    (p_toggleMode base) (p_readonly base) (p_suggestions base) (p_valueSuggestions base) (p_expressionSuggestions base)
    (p_hasModeChange base) (p_onDrop base).

Definition told (h : store) (c : call) : store :=
  match c with
  | CallChange v => Store v (st_mode h)
  | CallModeChange m => Store (st_value h) (match st_mode h with Some _ => Some m | None => None end)
  end.

(** The text an event leaves in the field is not mistaken for the mark of
    expressions: in expression mode it does not begin with [=], in the other not
    with two of them. *)
Definition unmarked (p : props) (s : field) : Prop :=
  isExpressionMode (stripExpressionPrefix (if isExpression p s then "=" +:+ f_localValue s else f_localValue s)) = false.

(** An override of a drop gives text, not a serialized value. *)
Definition plain_overrides (base : props) : Prop :=
  ∀ f d, p_onDrop base = Some f → prop (f d) "serializedValue" = JUndef.

(** *** What is shown is what is stored *)

Definition legal (m : string) : Prop := m = "fixed" ∨ m = "expression".

Lemma normalize_legal m : legal m → normalizeMode (JStr m) = m.
Proof. by intros [-> | ->]. Qed.

Lemma normalize_cases v : normalizeMode v = "" ∨ legal (normalizeMode v).
Proof.
  destruct v; try by left. simpl. case_bool_decide as H; [right|by left]. unfold legal. set_solver.
Qed.

Record well_moded (s : field) (h : store) : Prop := {
  wm_local : legal (f_localMode s);
  wm_store : ∀ m, st_mode h = Some m → legal m;
}.

Lemma mode_of_store base s h : well_moded s h → mode (props_of base h) s = match st_mode h with Some m => m | None => f_localMode s end.
Proof.
  intros [Hl Hs]. unfold mode. cbn [p_mode props_of]. destruct (st_mode h) as [m|] eqn:E.
  - by destruct (Hs m eq_refl) as [-> | ->].
  - cbn [normalizeMode]. destruct Hl as [-> | ->]; done.
Qed.

Lemma controlled_of_store base h : (∀ m, st_mode h = Some m → legal m) →
  hasControlledMode (props_of base h) = if st_mode h then true else false.
Proof. intros Hs. unfold hasControlledMode. cbn [p_mode props_of]. destruct (st_mode h) as [m|] eqn:E; [|done]. by destruct (Hs m eq_refl) as [-> | ->]. Qed.

Lemma well_moded_mode base s h : well_moded s h → legal (mode (props_of base h) s).
Proof. intros Hw. rewrite mode_of_store by done. destruct (st_mode h) eqn:E; simpl; [by eapply wm_store|apply Hw]. Qed.

(** What is stored is what is shown, serialized. *)
Record stored (base : props) (s : field) (h : store) : Prop := {
  sd_moded : well_moded s h;
  sd_value : st_value h = serializeValue (f_localValue s) (mode (props_of base h) s);
}.

Lemma strip_marked v : stripExpressionPrefix ("=" +:+ v) = v.
Proof. done. Qed.

Lemma marked_strip v : isExpressionMode v = true → "=" +:+ stripExpressionPrefix v = v.
Proof.
  unfold isExpressionMode, stripExpressionPrefix. destruct (strip_prefix "=" v) as [r|] eqn:E; [|done].
  intros _. by apply strip_prefix_inv in E.
Qed.

Lemma unmarked_expression v : isExpressionMode v = false → ensureExpressionPrefix v = "=" +:+ v.
Proof. unfold ensureExpressionPrefix. by intros ->. Qed.

(** A text without the signs [=] at its front. *)
Fixpoint bare (v : string) : string :=
  match v with
  | String c r => if bool_decide (c = "="%char) then bare r else v
  | EmptyString => v
  end.

Lemma bare_strip v : bare (stripExpressionPrefix v) = bare v.
Proof.
  unfold stripExpressionPrefix. destruct (strip_prefix "=" v) as [r|] eqn:E; [|done].
  by apply strip_prefix_inv in E as ->.
Qed.

Lemma bare_display v m : bare (toDisplayValue v m) = bare v.
Proof. unfold toDisplayValue. case_bool_decide; [apply bare_strip|done]. Qed.

Lemma bare_serialize v m : bare (serializeValue v m) = bare v.
Proof. unfold serializeValue, ensureExpressionPrefix. case_bool_decide; [|done]. by destruct (isExpressionMode v). Qed.

(** Reading back what is stored. *)
Lemma display_serialized v m :
  (m = "expression" → isExpressionMode v = false) → toDisplayValue (serializeValue v m) m = v.
Proof.
  unfold toDisplayValue, serializeValue. case_bool_decide; [|done]. intros Hv. rewrite unmarked_expression by auto. done.
Qed.

Lemma unmarked_mode p s : unmarked p s → mode p s = "expression" → isExpressionMode (f_localValue s) = false.
Proof. unfold unmarked, isExpression. intros Hu Hm. rewrite Hm in Hu. exact Hu. Qed.

(** The new rendering. *)
Lemma render_stored base p s h :
  stored base s h → unmarked (props_of base h) s → (st_mode h = None → mode p s = f_localMode s) →
  let s' := onWillUpdateProps p (props_of base h) s in
  stored base s' h ∧ unmarked (props_of base h) s' ∧
  (st_mode h = None → mode (props_of base h) s' = inferModeFromValue (st_value h)).
Proof.
  intros [Hw Hv] Hu Hp. pose proof (well_moded_mode base s h Hw) as Hlegal.
  pose proof (unmarked_mode _ _ Hu) as Hue. pose proof (display_serialized _ _ Hue) as Hd. rewrite <- Hv in Hd.
  rewrite mode_of_store in * by done. destruct (st_mode h) as [m|] eqn:Em.
  - (* the parent controls the mode *)
    assert (∀ s', f_localValue s' = f_localValue s → legal (f_localMode s') →
      stored base s' h ∧ unmarked (props_of base h) s' ∧ (Some m = None → mode (props_of base h) s' = inferModeFromValue (st_value h))) as Hsame.
    { intros s' Hl Hm. assert (well_moded s' h) as Hw' by (split; [done|apply Hw]).
      assert (mode (props_of base h) s' = m) as Hmode by (rewrite mode_of_store by done; by rewrite Em).
      split_and!; [split; [done|by rewrite Hmode, Hl]| |done].
      unfold unmarked, isExpression in *. rewrite mode_of_store in Hu by done. rewrite Em in Hu. by rewrite Hmode, Hl. }
    unfold onWillUpdateProps. cbn [p_mode p_value props_of text_of]. rewrite Em, (normalize_legal m Hlegal).
    assert ((m =s "") = false) as Hne by (by destruct Hlegal as [-> | ->]). rewrite Hne. cbn [negb]. rewrite Hd.
    destruct (f_isFocused s && negb (negb (m =s mode p s))); [apply Hsame; [done|apply Hw]|].
    apply Hsame; [|done]. cbn [f_localValue with_local]. by destruct (_ || _).
  - (* the mode is inferred *)
    specialize (Hp eq_refl). unfold onWillUpdateProps. cbn [p_mode p_value props_of text_of]. rewrite Em. cbn [normalizeMode].
    rewrite Hp. change ("" =s "") with true. cbn [negb].
    assert (∀ s', legal (f_localMode s') → st_value h = serializeValue (f_localValue s') (f_localMode s') →
      isExpressionMode (stripExpressionPrefix (if f_localMode s' =s "expression" then "=" +:+ f_localValue s' else f_localValue s')) = false →
      f_localMode s' = inferModeFromValue (st_value h) →
      stored base s' h ∧ unmarked (props_of base h) s' ∧ (@None string = None → mode (props_of base h) s' = inferModeFromValue (st_value h))) as Hnew.
    { intros s' Hl' Hv' Hu' Hi'. assert (well_moded s' h) as Hw' by (split; [done|apply Hw]).
      assert (mode (props_of base h) s' = f_localMode s') as Hmode by (rewrite mode_of_store by done; by rewrite Em).
      split_and!; [split; [done|by rewrite Hmode]|by unfold unmarked, isExpression; rewrite Hmode|by rewrite Hmode]. }
    unfold unmarked, isExpression in Hu. rewrite mode_of_store in Hu by done. rewrite Em in Hu.
    destruct Hlegal as [El|El]; rewrite El in *.
    + assert (st_value h = f_localValue s) as Hv' by exact Hv. destruct (isExpressionMode (f_localValue s)) eqn:Em'.
      * assert (inferModeFromValue (st_value h) = "expression") as Ei by (unfold inferModeFromValue; by rewrite Hv', Em').
        rewrite Ei in *. change ("expression" =s "fixed") with false. cbn [negb]. rewrite andb_false_r, !orb_true_r.
        apply Hnew; [by right| |rewrite Hv'; exact Hu|done]. cbn [with_local f_localValue f_localMode]. rewrite Hv'.
        change (f_localValue s = ensureExpressionPrefix (stripExpressionPrefix (f_localValue s))).
        by rewrite unmarked_expression, marked_strip by (done || exact Hu).
      * assert (inferModeFromValue (st_value h) = "fixed") as Ei by (unfold inferModeFromValue; by rewrite Hv', Em').
        rewrite Ei in *. rewrite Hd, (bool_decide_true (f_localValue s = f_localValue s)) by done.
        change ("fixed" =s "fixed") with true. cbn [negb orb].
        destruct (_ && _); apply Hnew; cbn [with_local f_localValue f_localMode]; rewrite ?El; by (left || done).
    + assert (inferModeFromValue (st_value h) = "expression") as Ei.
      { rewrite Hv. unfold serializeValue, inferModeFromValue. cbn. by rewrite unmarked_expression by auto. }
      rewrite Ei in *. rewrite Hd, (bool_decide_true (f_localValue s = f_localValue s)) by done.
      change ("expression" =s "expression") with true. cbn [negb orb].
      destruct (_ && _); apply Hnew; cbn [with_local f_localValue f_localMode]; rewrite ?El; by (right || done).
Qed.

(** A new mode and text. *)
Lemma switched base s h s' h' m :
  well_moded s h → legal m →
  f_localMode s' = (match st_mode h with Some _ => f_localMode s | None => m end) →
  h' = Store (serializeValue (f_localValue s') m) (match st_mode h with Some _ => Some m | None => None end) →
  stored base s' h'.
Proof.
  intros [Hl Hs] Hm El ->. assert (well_moded s' (Store (serializeValue (f_localValue s') m) (match st_mode h with Some _ => Some m | None => None end))) as Hw.
  { split; [by rewrite El; destruct (st_mode h)|]. cbn [st_mode]. by destruct (st_mode h) as [x|]; [intros ? [= <-]|]. }
  split; [done|]. rewrite mode_of_store by done. cbn [st_mode st_value]. rewrite El. by destruct (st_mode h).
Qed.

(** New text in the same mode. *)
Lemma retyped base s h s' :
  stored base s h → f_localMode s' = f_localMode s →
  stored base s' (Store (serializeValue (f_localValue s') (mode (props_of base h) s)) (st_mode h)).
Proof.
  intros [Hw _] El. pose proof (mode_of_store base s h Hw) as Hm.
  apply (switched base s h s' _ (mode (props_of base h) s)); [done|by apply well_moded_mode|..]; rewrite Hm, ?El; by destruct (st_mode h).
Qed.

Lemma kept base s h s' :
  stored base s h → f_localValue s' = f_localValue s → f_localMode s' = f_localMode s → stored base s' h.
Proof.
  intros Hs Ev El. pose proof (retyped base s h s' Hs El) as H. rewrite Ev, <- (sd_value _ _ _ Hs) in H. by destruct h.
Qed.

(** The calls of a switch to mode [m] with the stored text [next]. *)
Lemma told_switch h next m prev (tells : bool) :
  prev = st_value h → (st_mode h ≠ None → tells = true ∨ st_mode h = Some m) →
  foldl told h ((if next =s prev then [] else [CallChange next]) ++ (if tells then [CallModeChange m] else [])) =
  Store next (match st_mode h with Some _ => Some m | None => None end).
Proof.
  intros -> Hc. destruct h as [v hm]. cbn [st_value st_mode] in *. rewrite foldl_app.
  assert (foldl told (Store v hm) (if next =s v then [] else [CallChange next]) = Store next hm) as ->
    by (case_bool_decide; by subst).
  destruct tells; [done|]. simpl. destruct hm as [x|]; [|done]. by destruct Hc as [?|[= ->]].
Qed.

(** Showing what is serialized, and serializing it again. *)
Lemma serialized_display v m :
  legal m → (m = "expression" → isExpressionMode (toDisplayValue (serializeValue v m) m) = false) →
  serializeValue (toDisplayValue (serializeValue v m) m) m = serializeValue v m.
Proof.
  intros [-> | ->]; [done|]. intros Hu. specialize (Hu eq_refl).
  change (ensureExpressionPrefix (stripExpressionPrefix (ensureExpressionPrefix v)) = ensureExpressionPrefix v).
  rewrite unmarked_expression by exact Hu. apply marked_strip. unfold ensureExpressionPrefix. by destruct (isExpressionMode v) eqn:E.
Qed.

Lemma unmarked_shown base s h m :
  legal m → unmarked (props_of base h) s → well_moded s h → match st_mode h with Some x => x | None => f_localMode s end = m →
  m = "expression" → isExpressionMode (f_localValue s) = false.
Proof. intros _ Hu Hw Hm ->. apply (unmarked_mode _ _ Hu). by rewrite mode_of_store. Qed.

(** A switch to mode [m] with the text of [x] in it. *)
Lemma switch_stored base s h x m (tells : bool) :
  stored base s h → legal m → (st_mode h ≠ None → tells = true ∨ st_mode h = Some m) →
  let next := serializeValue x m in
  let s' := with_suggestions false (-1) (with_local (toDisplayValue next m) (if hasControlledMode (props_of base h) then f_localMode s else m) s) in
  let h' := foldl told h ((if next =s serializeValue (f_localValue s) (mode (props_of base h) s) then [] else [CallChange next]) ++
                          (if tells then [CallModeChange m] else [])) in
  unmarked (props_of base h') s' → stored base s' h'.
Proof.
  intros Hs Hm Hp next s' h' Hu. assert (h' = Store next (match st_mode h with Some _ => Some m | None => None end)) as Eh.
  { unfold h'. rewrite <- (sd_value _ _ _ Hs). by apply told_switch. }
  assert (f_localMode s' = match st_mode h with Some _ => f_localMode s | None => m end) as El.
  { unfold s'. rewrite (controlled_of_store base h (wm_store _ _ (sd_moded _ _ _ Hs))). by destruct (st_mode h). }
  apply (switched base s h s' h' m); [apply Hs|done|done|]. rewrite Eh. f_equal.
  unfold s'. cbn [with_suggestions with_local f_localValue]. symmetry. apply serialized_display; [done|]. intros Em.
  apply (unmarked_mode (props_of base h') s' Hu). rewrite Eh. unfold mode. cbn [p_mode props_of st_mode]. rewrite El, Em.
  by destruct (st_mode h).
Qed.

Lemma told_uncontrolled h calls : st_mode (foldl told h calls) = None → st_mode h = None.
Proof.
  revert h. induction calls as [|c calls IH]; intros h; [done|]. intros H%IH. destruct c; [done|].
  simpl in H. by destruct (st_mode h).
Qed.

(** The first rendering. *)
Lemma setup_stored base h :
  (∀ m, st_mode h = Some m → m = "fixed" ∨ m = "expression" ∧ isExpressionMode (st_value h) = true) →
  isExpressionMode (stripExpressionPrefix (st_value h)) = false →
  let s := setup (props_of base h) in
  stored base s h ∧ unmarked (props_of base h) s ∧ (st_mode h = None → mode (props_of base h) s = inferModeFromValue (st_value h)).
Proof.
  intros Hm Hv s. set (m := match st_mode h with Some m => m | None => inferModeFromValue (st_value h) end).
  assert (legal m ∧ (m = "expression" → isExpressionMode (st_value h) = true)) as [Hl He].
  { unfold m. destruct (st_mode h) as [x|].
    - destruct (Hm x eq_refl) as [-> |[-> ?]]; split; solve [by left|by right|done].
    - unfold inferModeFromValue. destruct (isExpressionMode (st_value h)); split; solve [by left|by right|done]. }
  assert (f_localMode s = m ∧ f_localValue s = toDisplayValue (st_value h) m) as [Elm Elv].
  { unfold s, setup, m. cbn [p_mode p_value props_of text_of f_localMode f_localValue]. destruct (st_mode h) as [x|]; [|done].
    by destruct (Hm x eq_refl) as [-> |[-> _]]. }
  assert (well_moded s h) as Hw.
  { split; [by rewrite Elm|]. intros x Ex. destruct (Hm x Ex) as [-> |[-> _]]; [by left|by right]. }
  assert (mode (props_of base h) s = m) as Hmode by (rewrite mode_of_store by done; rewrite Elm; unfold m; by destruct (st_mode h)).
  split_and!.
  - split; [done|]. rewrite Hmode, Elv. destruct Hl as [-> | ->]; [done|].
    change (st_value h = ensureExpressionPrefix (stripExpressionPrefix (st_value h))).
    rewrite unmarked_expression by done. symmetry. apply marked_strip. by apply He.
  - unfold unmarked, isExpression. rewrite Hmode, Elv. by destruct Hl as [-> | ->].
  - intros Hn. rewrite Hmode. unfold m. by rewrite Hn.
Qed.

Section field.
Context (num_toString : num → string).
(** [JSON.parse], which may throw; [JSON.stringify(value, null, 2)]; the
    evaluation of expressions of the preview, run by the host. *)
Context (parse : string → option jsval) (stringify : jsval → string).
Context (evaluatePreviewExpression : string → jsobj → outcome jsval).

(** *** Suggestions *)

Definition context_value (p : props) : jsval := match p_context p with Some c => JObj c | None => JUndef end.

(** [allSuggestions] *)
Definition suggestion_value (s : suggestion) : jsval := suggestion_object (sg_value s) (sg_label s) (sg_description s).
Definition allSuggestions (p : props) (s : field) : list suggestion :=
  if isExpression p s then
    mergeUniqueSuggestions num_toString
      [JArr (suggestion_value <$> buildContextExpressionSuggestions num_toString (context_value p)); p_expressionSuggestions p]
  else mergeUniqueSuggestions num_toString [p_suggestions p; p_valueSuggestions p].

(** [s.replace(/\{\{/g, "")], and the same for the closing braces; [pattern] is
    a pair of braces. *)
Fixpoint remove_pairs (fuel : nat) (pattern s : string) : string :=
  match fuel, s with
  | S fuel, String c s' =>
      match strip_prefix pattern s with
      | Some rest => remove_pairs fuel pattern rest
      | None => String c (remove_pairs fuel pattern s')
      end
  | _, _ => ""
  end.
Definition without_pairs (pattern s : string) : string := remove_pairs (String.length s) pattern s.

(** [suggestionQuery], [filteredSuggestions], [shouldShowSuggestions] *)
Definition suggestionQuery (p : props) (s : field) : string :=
  if isExpression p s then trim (without_pairs "}}" (without_pairs "{{" (f_localValue s))) else f_localValue s.
Definition filteredSuggestions (p : props) (s : field) : list suggestion :=
  filterSuggestions (allSuggestions p s) (suggestionQuery p s) 12.
Definition shouldShowSuggestions (p : props) (s : field) : bool :=
  negb (p_readonly p) && f_isFocused s && f_showSuggestions s && (0 <? length (filteredSuggestions p s))%nat.

(** *** Preview *)

(** [previewResult], [previewDisplay], [previewType] *)
Definition previewResult (p : props) (s : field) : option evaluation :=
  if isExpression p s then
    evaluateExpression num_toString evaluatePreviewExpression (serializeValue (f_localValue s) "expression") <$> p_context p
  else None.
Definition preview_error (r : evaluation) : option string :=
  match ev_error r with Some e => if e =s "" then None else Some e | None => None end.
Definition previewDisplay (p : props) (s : field) : string :=
  match previewResult p s with
  | None => ""
  | Some r =>
      match preview_error r with
      | Some e => "Error: " +:+ e
      | None =>
          match ev_value r with
          | JUndef => "undefined"
          | JNull | JArr _ | JObj _ => stringify (ev_value r)
          | v => js_String num_toString v
          end
      end
  end.
Definition previewType (p : props) (s : field) : string :=
  match previewResult p s with
  | None => ""
  | Some r => match preview_error r with Some _ => "" | None => default "" (ev_type r) end
  end.

(** *** Events *)

(** [onInput(ev)] *)
Definition onInput (p : props) (value : string) (s : field) : field * list call :=
  if negb (isExpression p s) && (value =s "=") && (showSideToggle p || showTopToggle p) then
    let localMode := if hasControlledMode p then f_localMode s else "expression" in
    (with_suggestions true (-1) (with_local "" localMode s),
     CallChange "=" :: if p_hasModeChange p then [CallModeChange "expression"] else [])
  else
    (with_suggestions true (-1) (with_local value (f_localMode s) s), [CallChange (serializeValue value (mode p s))]).

Definition onFocus (s : field) : field := with_suggestions true (f_activeSuggestionIndex s) (with_focus true (f_ignoreBlur s) s).
Definition onBlur (s : field) : field :=
  if f_ignoreBlur s then with_focus (f_isFocused s) false s
  else with_suggestions false (-1) (with_focus false (f_ignoreBlur s) s).
Definition onScroll (top left : num) (s : field) : field :=
  Field (f_isFocused s) (f_isDragOver s) (f_showSuggestions s) (f_activeSuggestionIndex s) top left
    (f_localValue s) (f_localMode s) (f_dragEnterCount s) (f_ignoreBlur s).

(** [highlightContentStyle] *)
Definition highlightContentStyle (s : field) : string :=
  if bool_decide (f_scrollLeft s = 0%Qc) && bool_decide (f_scrollTop s = 0%Qc) then ""
  else "transform: translate(" +:+ num_toString (- f_scrollLeft s)%Qc +:+ "px, " +:+ num_toString (- f_scrollTop s)%Qc +:+ "px);".

(** [setMode(mode)], and what calls it *)
Definition setMode (p : props) (m : string) (s : field) : field * list call :=
  let normalized := normalizeMode (JStr m) in
  if normalized =s "" then (s, [])
  else
    let previousSerialized := serializeValue (f_localValue s) (mode p s) in
    let nextSerialized := serializeValue (f_localValue s) normalized in
    let localMode := if hasControlledMode p then f_localMode s else normalized in
    (with_suggestions false (-1) (with_local (toDisplayValue nextSerialized normalized) localMode s),
     (if nextSerialized =s previousSerialized then [] else [CallChange nextSerialized]) ++
     (if p_hasModeChange p then [CallModeChange normalized] else [])).
Definition onClickFixed (p : props) (s : field) : field * list call := setMode p "fixed" s.
Definition onClickExpression (p : props) (s : field) : field * list call := setMode p "expression" s.
Definition onClickSideToggle (p : props) (s : field) : field * list call :=
  setMode p (if isExpression p s then "fixed" else "expression") s.

Definition onDragEnter (s : field) : field := with_drag true (f_dragEnterCount s + 1) s.
Definition onDragLeave (s : field) : field :=
  let count := (f_dragEnterCount s - 1)%Z in
  if (count <=? 0)%Z then with_drag false 0 s else with_drag (f_isDragOver s) count s.

(** [_getDropPayload(ev)] *)
Definition getDropPayload (t : transfer) : drop_payload :=
  let meta := if tr_meta t =s "" then JNull else default JNull (parse (tr_meta t)) in
  let keyName :=
    if tr_key t =s "" then (if truthy meta then text_of (prop meta "keyName") else "") else tr_key t in
  DropPayload (tr_expression t) (tr_path t) keyName meta.

(** The text put in the place of a selection, at the end without one. *)
Definition insert_text (value insertText : string) (selection : option (nat * nat)) : string :=
  match selection with
  | Some (a, b) => slice 0 a value +:+ insertText +:+ slice b (String.length value) value
  | None => value +:+ insertText
  end.

(** [onDrop(ev)] *)
Definition onDrop (p : props) (t : transfer) (selection : option (nat * nat)) (s : field) : field * list call :=
  let s := with_drag false 0 s in
  let payload := getDropPayload t in
  let currentMode := mode p s in
  let previousSerialized := serializeValue (f_localValue s) currentMode in
  let override := match p_onDrop p with Some f => f payload | None => JUndef end in
  if truthy override && truthy (prop override "handled") then
    let nextMode := if normalizeMode (prop override "mode") =s "" then currentMode else normalizeMode (prop override "mode") in
    let nextSerialized :=
      match prop override "serializedValue" with
      | JUndef =>
          let value := js_nullish (prop override "value") (JStr "") in
          serializeValue (js_String num_toString value) nextMode
      | v => js_String num_toString (js_nullish v (JStr ""))
      end in
    let localMode := if hasControlledMode p then f_localMode s else nextMode in
    (with_suggestions false (-1) (with_local (toDisplayValue nextSerialized nextMode) localMode s),
     (if nextSerialized =s previousSerialized then [] else [CallChange nextSerialized]) ++
     (if p_hasModeChange p && negb (nextMode =s currentMode) then [CallModeChange nextMode] else []))
  else
    let insertText :=
      if dp_expression payload =s "" then (if dp_path payload =s "" then "" else wrapExpression (dp_path payload))
      else dp_expression payload in
    if insertText =s "" then (s, [])
    else
      let newValue := insert_text (f_localValue s) insertText selection in
      (with_suggestions false (f_activeSuggestionIndex s) (with_local newValue (f_localMode s) s),
       [CallChange (serializeValue newValue currentMode)]).

(** [_applySuggestion(item)] *)
Definition applySuggestion (p : props) (item : suggestion) (s : field) : field * list call :=
  if sg_value item =s "" then (s, [])
  else
    let nextValue := if isExpression p s then wrapExpression (sg_value item) else sg_value item in
    (with_suggestions false (-1) (with_local nextValue (f_localMode s) s), [CallChange (serializeValue nextValue (mode p s))]).

(** [onKeyDown(ev)] *)
Definition onKeyDown (p : props) (key : string) (s : field) : field * list call :=
  let suggestions := filteredSuggestions p s in
  let last := (Z.of_nat (length suggestions) - 1)%Z in
  let active := f_activeSuggestionIndex s in
  if negb (shouldShowSuggestions p s) && (key =s "ArrowDown") && (0 <? length suggestions)%nat then (with_suggestions true 0 s, [])
  else if negb (shouldShowSuggestions p s) || Nat.eqb (length suggestions) 0 then (s, [])
  else if key =s "ArrowDown" then (with_suggestions (f_showSuggestions s) (Z.min last (active + 1)) s, [])
  else if key =s "ArrowUp" then (with_suggestions (f_showSuggestions s) (Z.max (-1) (active - 1)) s, [])
  else if bool_decide (key ∈ ["Enter"; "Tab"]) then
    if (0 <=? active)%Z && (active <? Z.of_nat (length suggestions))%Z then
      match suggestions !! Z.to_nat active with Some item => applySuggestion p item s | None => (s, []) end
    else (s, [])
  else if key =s "Escape" then (with_suggestions false (-1) s, [])
  else (s, []).

(** [onSuggestionsPointerDown()], [onSuggestionSelected(item)] *)
Definition onSuggestionsPointerDown (s : field) : field := with_focus (f_isFocused s) true s.
Definition onSuggestionSelected (p : props) (item : suggestion) (s : field) : field * list call := applySuggestion p item s.

(** *** The field and a parent that stores what it is told *)

Inductive event :=
| Input (value : string)
| Focus
| Blur
| Scroll (top left : num)
| ClickFixed
| ClickExpression
| ClickSideToggle
| DragEnter
| DragLeave
| Drop (t : transfer) (selection : option (nat * nat))
| KeyDown (key : string)
| SuggestionsPointerDown
| SuggestionSelected (item : suggestion).

Definition handle (p : props) (ev : event) (s : field) : field * list call :=
  match ev with
  | Input value => onInput p value s
  | Focus => (onFocus s, [])
  | Blur => (onBlur s, [])
  | Scroll t l => (onScroll t l s, [])
  | ClickFixed => onClickFixed p s
  | ClickExpression => onClickExpression p s
  | ClickSideToggle => onClickSideToggle p s
  | DragEnter => (onDragEnter s, [])
  | DragLeave => (onDragLeave s, [])
  | Drop t selection => onDrop p t selection s
  | KeyDown key => onKeyDown p key s
  | SuggestionsPointerDown => (onSuggestionsPointerDown s, [])
  | SuggestionSelected item => onSuggestionSelected p item s
  end.

(** An event, what the parent makes of the calls, and its new rendering. *)
Definition event_step (base : props) (ev : event) (x : field * store) : field * store :=
  let '(s, h) := x in
  let '(s', calls) := handle (props_of base h) ev s in
  let h' := foldl told h calls in
  (onWillUpdateProps (props_of base h) (props_of base h') s', h').

(** Rendered first with what is stored, then one event after the other. *)
Inductive reachable (base : props) : field * store → Prop :=
| reach_setup h :
    (∀ m, st_mode h = Some m → m = "fixed" ∨ m = "expression" ∧ isExpressionMode (st_value h) = true) →
    isExpressionMode (stripExpressionPrefix (st_value h)) = false →
    reachable base (setup (props_of base h), h)
| reach_event ev s h :
    reachable base (s, h) →
    (let '(s', calls) := handle (props_of base h) ev s in unmarked (props_of base (foldl told h calls)) s') →
    reachable base (event_step base ev (s, h)).


(** A run, checked. *)
Definition unmarkedb (p : props) (s : field) : bool :=
  negb (isExpressionMode (stripExpressionPrefix (if isExpression p s then "=" +:+ f_localValue s else f_localValue s))).
Fixpoint run_unmarked (base : props) (evs : list event) (x : field * store) : bool :=
  match evs with
  | [] => true
  | ev :: evs =>
      (let '(s', calls) := handle (props_of base x.2) ev x.1 in unmarkedb (props_of base (foldl told x.2 calls)) s') &&
      run_unmarked base evs (event_step base ev x)
  end.

Lemma reachable_run base evs x :
  reachable base x → run_unmarked base evs x = true → reachable base (foldl (λ x ev, event_step base ev x) x evs).
Proof.
  revert x. induction evs as [|ev evs IH]; intros x Hx; [done|]. cbn [run_unmarked foldl].
  intros [Hu Hr]%andb_prop. apply IH; [|done]. destruct x as [s h]. apply reach_event; [done|].
  cbn [fst snd] in Hu. destruct (handle (props_of base h) ev s) as [s' calls]. by apply negb_true_iff in Hu.
Qed.

(** A parent that controls the mode is told of it; an override gives text. *)
Definition honest_parent (base : props) (h : store) : Prop := st_mode h ≠ None → p_hasModeChange base = true.

Lemma setMode_stored base s h m :
  stored base s h → legal m → honest_parent base h →
  let '(s', calls) := setMode (props_of base h) m s in
  unmarked (props_of base (foldl told h calls)) s' → stored base s' (foldl told h calls).
Proof.
  intros Hs Hm Hp. unfold setMode. rewrite normalize_legal by done.
  assert ((m =s "") = false) as -> by (by destruct Hm as [-> | ->]).
  apply switch_stored; [done|done|]. intros Hc. left. by apply Hp.
Qed.

Lemma onInput_stored base s h value :
  stored base s h → honest_parent base h →
  let '(s', calls) := onInput (props_of base h) value s in stored base s' (foldl told h calls).
Proof.
  intros Hs Hp. unfold onInput. destruct (negb _ && _ && _); [|by apply retyped].
  rewrite (controlled_of_store base h (wm_store _ _ (sd_moded _ _ _ Hs))). cbn [p_hasModeChange props_of].
  apply (switched base s h _ _ "expression"); [apply Hs|by right|by destruct (st_mode h)|].
  destruct h as [v [x|]]; simpl; [rewrite Hp by done; done|by destruct (p_hasModeChange base)].
Qed.

Lemma applySuggestion_stored base s h item :
  stored base s h →
  let '(s', calls) := applySuggestion (props_of base h) item s in stored base s' (foldl told h calls).
Proof. intros Hs. unfold applySuggestion. case_bool_decide; [done|]. by apply retyped. Qed.

Lemma onDrop_stored base s h t selection :
  stored base s h → honest_parent base h → plain_overrides base →
  let '(s', calls) := onDrop (props_of base h) t selection s in
  unmarked (props_of base (foldl told h calls)) s' → stored base s' (foldl told h calls).
Proof.
  intros Hs Hp Ho. assert (stored base (with_drag false 0 s) h) as Hd by by apply (kept base s).
  unfold onDrop. cbn [p_onDrop props_of]. set (payload := getDropPayload t).
  set (override := match p_onDrop base with Some f => f payload | None => JUndef end).
  destruct (truthy override && truthy (prop override "handled")).
  - assert (prop override "serializedValue" = JUndef) as -> by (unfold override; destruct (p_onDrop base) as [f|] eqn:E; [by apply (Ho f)|done]).
    set (next := if normalizeMode (prop override "mode") =s "" then _ else _).
    assert (legal next) as Hn.
    { unfold next. case_bool_decide; [apply well_moded_mode, Hd|]. by destruct (normalize_cases (prop override "mode")). }
    apply switch_stored; [done|done|]. intros Hc. cbn [p_hasModeChange props_of]. rewrite (Hp Hc).
    destruct (next =s mode (props_of base h) (with_drag false 0 s)) eqn:E; [|by left]. right.
    apply bool_decide_eq_true in E. rewrite E, mode_of_store by apply Hd. by destruct (st_mode h).
  - set (insertText := if dp_expression payload =s "" then _ else _). case_bool_decide; [done|]. intros _.
    by apply (retyped base (with_drag false 0 s)).
Qed.

Lemma onKeyDown_cases p key s :
  (∃ b z, onKeyDown p key s = (with_suggestions b z s, [])) ∨ onKeyDown p key s = (s, []) ∨
  ∃ item, onKeyDown p key s = applySuggestion p item s.
Proof.
  unfold onKeyDown. set (l := filteredSuggestions p s).
  destruct (negb _ && _ && _); [left; eauto|]. destruct (negb _ || _); [auto|].
  destruct (key =s "ArrowDown"); [left; eauto|]. destruct (key =s "ArrowUp"); [left; eauto|].
  case_bool_decide; [|destruct (key =s "Escape"); [left; eauto|auto]].
  destruct (_ && _); [|auto]. destruct (l !! _); [right; right; eauto|auto].
Qed.

Lemma handle_stored base s h ev :
  stored base s h → honest_parent base h → plain_overrides base →
  let '(s', calls) := handle (props_of base h) ev s in
  unmarked (props_of base (foldl told h calls)) s' → stored base s' (foldl told h calls).
Proof.
  intros Hs Hp Ho. assert (∀ s', f_localValue s' = f_localValue s → f_localMode s' = f_localMode s → stored base s' h) as Hk
    by (intros; by eapply kept).
  destruct ev as [value| | |t l| | | | | |t selection|key| |item]; cbn [handle].
  - pose proof (onInput_stored base s h value Hs Hp). by destruct (onInput _ _ _).
  - intros _. by apply Hk.
  - unfold onBlur. destruct (f_ignoreBlur s); intros _; by apply Hk.
  - intros _. by apply Hk.
  - apply setMode_stored; [done|by left|done].
  - apply setMode_stored; [done|by right|done].
  - apply setMode_stored; [done|destruct (isExpression _ _); [by left|by right]|done].
  - intros _. by apply Hk.
  - unfold onDragLeave. destruct (_ <=? 0)%Z; intros _; by apply Hk.
  - by apply onDrop_stored.
  - destruct (onKeyDown_cases (props_of base h) key s) as [(b & z & ->)|[-> |[item ->]]]; [intros _; by apply Hk..|].
    pose proof (applySuggestion_stored base s h item Hs). by destruct (applySuggestion _ _ _).
  - intros _. by apply Hk.
  - pose proof (applySuggestion_stored base s h item Hs) as H. unfold onSuggestionSelected. by destruct (applySuggestion _ _ _).
Qed.

(** What is stored is what is shown, as long as the mark is not mistaken. *)
Lemma reachable_stored base s h :
  plain_overrides base → p_hasModeChange base = true → reachable base (s, h) →
  stored base s h ∧ unmarked (props_of base h) s ∧ (st_mode h = None → mode (props_of base h) s = inferModeFromValue (st_value h)).
Proof.
  intros Ho Hm Hr. remember (s, h) as x eqn:E. revert s h E. induction Hr as [h' Hh Hv|ev s' h' Hr IH Hu]; intros s h E.
  - injection E as <- <-. by apply setup_stored.
  - destruct (IH s' h' eq_refl) as (Hs & _ & _). pose proof (handle_stored base s' h' ev Hs (λ _, Hm) Ho) as Hh.
    unfold event_step in E. destruct (handle (props_of base h') ev s') as [s2 calls].
    injection E as <- <-. apply render_stored; [by apply Hh|done|].
    intros Hn%told_uncontrolled. rewrite mode_of_store; [by rewrite Hn|]. split; [|apply Hs]. apply Hh, Hu.
Qed.

(** *** Up to marks, nothing is lost *)

Lemma told_bare h calls b :
  bare (st_value h) = b → Forall (λ c, match c with CallChange v => bare v = b | CallModeChange _ => True end) calls →
  bare (st_value (foldl told h calls)) = b.
Proof.
  intros Hh Hc. revert h Hh. induction Hc as [|c calls Hc _ IH]; intros h Hh; [done|]. apply IH. by destruct c.
Qed.

(** A step after which only the text in the field is told is as good as no step. *)
Definition keeps_bare (h : store) (x : field * list call) : Prop := bare (st_value (foldl told h x.2)) = bare (f_localValue x.1).

(** A switch to mode [m] with the text [next]: it is told unless it was stored. *)
Lemma switch_bare h s next m prev (f : field → field) (tells : bool) :
  bare (st_value h) = bare prev → (∀ x, f_localValue (f x) = f_localValue x) →
  keeps_bare h (f (with_local (toDisplayValue next m) s.2 s.1),
    (if next =s prev then [] else [CallChange next]) ++ (if tells then [CallModeChange m] else [])).
Proof.
  intros Hh Hf. unfold keeps_bare. cbn [fst snd]. rewrite Hf. cbn [with_local f_localValue]. rewrite bare_display.
  case_bool_decide as E; [subst prev|]; destruct tells; simpl; done.
Qed.

Lemma setMode_bare p m s h : bare (st_value h) = bare (f_localValue s) → keeps_bare h (setMode p m s).
Proof.
  intros Hh. unfold setMode. destruct (normalizeMode (JStr m) =s ""); [done|].
  apply (switch_bare h (s, _) _ _ _ (with_suggestions false (-1))); [by rewrite bare_serialize|done].
Qed.

Lemma applySuggestion_bare p item s h : bare (st_value h) = bare (f_localValue s) → keeps_bare h (applySuggestion p item s).
Proof.
  intros Hh. unfold applySuggestion. case_bool_decide; [done|]. unfold keeps_bare. simpl. by rewrite bare_serialize.
Qed.

Lemma onDrop_bare p t selection s h : bare (st_value h) = bare (f_localValue s) → keeps_bare h (onDrop p t selection s).
Proof.
  intros Hh. unfold onDrop. set (override := match p_onDrop p with Some f => f _ | None => JUndef end).
  destruct (truthy override && _).
  - apply (switch_bare h (_, _) _ _ _ (with_suggestions false (-1))); [by rewrite bare_serialize|done].
  - case_bool_decide; [done|]. unfold keeps_bare. simpl. by rewrite bare_serialize.
Qed.

Lemma handle_bare p ev s h : bare (st_value h) = bare (f_localValue s) → keeps_bare h (handle p ev s).
Proof.
  intros Hh. destruct ev as [value| | |t l| | | | | |t selection|key| |item]; cbn [handle];
    try done; try (by apply setMode_bare); try (by apply onDrop_bare).
  - unfold onInput. destruct (negb _ && _ && _).
    + by destruct (p_hasModeChange p).
    + unfold keeps_bare. simpl. by rewrite bare_serialize.
  - unfold onBlur. by destruct (f_ignoreBlur s).
  - unfold onDragLeave. by destruct (_ <=? 0)%Z.
  - destruct (onKeyDown_cases p key s) as [(b & z & ->)|[-> |[item ->]]]; [done..|by apply applySuggestion_bare].
  - unfold onSuggestionSelected. pose proof (applySuggestion_bare p item s h Hh) as H. by destruct (applySuggestion p item s).
Qed.

Lemma event_bare base ev x :
  bare (st_value x.2) = bare (f_localValue x.1) →
  bare (st_value (event_step base ev x).2) = bare (f_localValue (event_step base ev x).1).
Proof.
  destruct x as [s h]. intros Hh. unfold event_step. pose proof (handle_bare (props_of base h) ev s h Hh) as H.
  destruct (handle _ ev s) as [s' calls]. unfold keeps_bare in H. cbn [fst snd] in *. unfold onWillUpdateProps.
  cbn [p_value props_of text_of]. destruct (_ && _); [done|].
  by destruct (negb (_ =s "")), (_ || _); cbn [with_local f_localValue]; rewrite ?bare_display.
Qed.

(** A start where the stored text has the mark of its mode and no second one. *)
Definition fresh_start (h : store) : Prop :=
  (∀ m, st_mode h = Some m → m = "fixed" ∨ m = "expression" ∧ isExpressionMode (st_value h) = true) ∧
  isExpressionMode (stripExpressionPrefix (st_value h)) = false.


(** *** The keys of the suggestions *)

(** [ArrowDown] pressed [k] times. *)
Definition presses (p : props) (k : nat) (s : field) : field := Nat.iter k (λ s, (onKeyDown p "ArrowDown" s).1) s.

Lemma open_inv p s : shouldShowSuggestions p s = true → f_showSuggestions s = true.
Proof. unfold shouldShowSuggestions. intros [[_ H]%andb_prop _]%andb_prop. exact H. Qed.

Lemma open_at p s i : shouldShowSuggestions p s = true → shouldShowSuggestions p (with_suggestions true i s) = true.
Proof.
  intros H. pose proof (open_inv p s H) as Ho. unfold shouldShowSuggestions in *. rewrite Ho in H. exact H.
Qed.

Lemma arrow_down p s i :
  shouldShowSuggestions p s = true → (i < length (filteredSuggestions p s))%nat → 
  (onKeyDown p "ArrowDown" (with_suggestions true (Z.of_nat i - 1) s)).1 = with_suggestions true (Z.of_nat i) s.
Proof.
  intros Hs Hi. unfold onKeyDown.
  rewrite open_at by done.
  change (filteredSuggestions p (with_suggestions true (Z.of_nat i - 1) s)) with (filteredSuggestions p s).
  change ("ArrowDown" =s "ArrowDown") with true. cbn [negb andb orb].
  destruct (Nat.eqb_spec (length (filteredSuggestions p s)) 0); [lia|]. cbn [fst with_suggestions f_showSuggestions f_activeSuggestionIndex].
  unfold with_suggestions. cbn [f_isFocused f_isDragOver f_scrollTop f_scrollLeft f_localValue f_localMode f_dragEnterCount f_ignoreBlur].
  f_equal. lia.
Qed.

Lemma presses_down p s k :
  shouldShowSuggestions p s = true → f_activeSuggestionIndex s = (-1)%Z → (k ≤ length (filteredSuggestions p s))%nat →
  presses p k s = with_suggestions true (Z.of_nat k - 1) s.
Proof.
  intros Hs Ha. induction k as [|k IH]; intros Hk.
  - pose proof (open_inv p s Hs) as Ho.
    destruct s. simpl in *. by subst.
  - change (presses p (S k) s) with ((onKeyDown p "ArrowDown" (presses p k s)).1). rewrite IH by lia.
    rewrite arrow_down by (done || lia). f_equal. lia.
Qed.

Lemma suggestion_nonempty p s item : item ∈ filteredSuggestions p s → sg_value item ≠ "".
Proof.
  unfold filteredSuggestions, filterSuggestions. intros Hin.
  assert (item ∈ allSuggestions p s) as Hall.
  { eapply elem_of_submseteq; [exact Hin|]. apply sublist_submseteq.
    destruct (_ =s ""); [apply sublist_take|]. etrans; [apply sublist_take|apply bfilter_sublist]. }
  assert (∀ lists, item ∈ mergeUniqueSuggestions num_toString lists → sg_value item ≠ "") as Hm.
  { intros lists Hl. unfold mergeUniqueSuggestions in Hl.
    eapply elem_of_submseteq in Hl; [|apply sublist_submseteq, merge_unique_spec].
    apply list_elem_of_In, in_concat in Hl as (l & Hl & Hi). apply list_elem_of_In, list_elem_of_fmap in Hl as (raw & -> & _).
    apply list_elem_of_In, list_elem_of_omap in Hi as (x & _ & Hx). exact (proj1 (normalized_value _ _ _ Hx)). }
  unfold allSuggestions in Hall. destruct (isExpression p s); by eapply Hm.
Qed.

(** with the suggestions open, [k + 1] presses of the down arrow and [Enter]
    put exactly the [k]-th suggestion into the field (in braces, in expression
    mode), tell the parent its serialized text and close the suggestions. *)
Theorem arrow_enter_applies p s k item :
  shouldShowSuggestions p s = true → f_activeSuggestionIndex s = (-1)%Z → filteredSuggestions p s !! k = Some item →
  let text := if isExpression p s then wrapExpression (sg_value item) else sg_value item in
  let '(s', calls) := onKeyDown p "Enter" (presses p (S k) s) in
  f_localValue s' = text ∧ calls = [CallChange (serializeValue text (mode p s))] ∧ shouldShowSuggestions p s' = false.
Proof.
  intros Hs Ha Hk text. pose proof (lookup_lt_Some _ _ _ Hk) as Hlt.
  rewrite presses_down by (done || lia). replace (Z.of_nat (S k) - 1)%Z with (Z.of_nat k) by lia.
  set (s1 := with_suggestions true (Z.of_nat k) s). unfold onKeyDown.
  assert (shouldShowSuggestions p s1 = true) as -> by by apply open_at.
  change (filteredSuggestions p s1) with (filteredSuggestions p s). change (f_activeSuggestionIndex s1) with (Z.of_nat k).
  change ("Enter" =s "ArrowDown") with false. change ("Enter" =s "ArrowUp") with false. cbn [negb andb orb].
  destruct (Nat.eqb_spec (length (filteredSuggestions p s)) 0); [lia|].
  change (bool_decide ("Enter" ∈ ["Enter"; "Tab"])) with true. cbv iota. rewrite (proj2 (Z.leb_le 0 _)), (proj2 (Z.ltb_lt _ _)) by lia. cbn [andb].
  rewrite Nat2Z.id, Hk. unfold applySuggestion.
  assert ((sg_value item =s "") = false) as -> by (apply bool_decide_eq_false; eapply suggestion_nonempty, list_elem_of_lookup_2, Hk).
  change (isExpression p s1) with (isExpression p s). change (mode p s1) with (mode p s). fold text.
  split_and!; [done|done|]. unfold shouldShowSuggestions. cbn [with_suggestions f_showSuggestions]. by rewrite andb_false_r.
Qed.
End field.

(** ** A field at work *)

Module Demo.
Definition num_toString : num → string := λ _, "0".
Definition parse : string → option jsval := λ _, None.
Definition base : props :=
  Props JUndef "" (Some [("_json", JObj [("id", JStr "7")])]) false JUndef (JStr "side") false
    (JArr [JStr "GET"; JStr "POST"]) JUndef JUndef true None.
Definition after (evs : list event) : field * store :=
  foldl (λ x ev, event_step num_toString parse base ev x)
    (setup (props_of base (Store "" None)), Store "" None) evs.
Definition typed : list event := [Focus; Input "="; Input "{{ _json.id }}"; ClickSideToggle; Input "=a"; Blur].


Lemma arrow_enter_applies_witness :
  (let '(s', calls) := onKeyDown num_toString (props_of base (Store "" None)) "Enter"
     (presses num_toString (props_of base (Store "" None)) 2 (after [Focus]).1) in
   f_localValue s' = "POST" ∧ calls = [CallChange "POST"] ∧ shouldShowSuggestions num_toString (props_of base (Store "" None)) s' = false).
Proof.
  apply (arrow_enter_applies num_toString (props_of base (Store "" None)) (after [Focus]).1 1 (Suggestion "POST" "POST" ""));
    vm_compute; reflexivity.
Defined.

(** Text that begins with the mark, typed in expression mode, is stored as it is
    and shown without its mark later. *)
Example mark_lost :
  let x := after [Focus; Input "="; Input "=a"] in
  f_localValue x.1 = "=a" ∧ st_value x.2 = "=a" ∧ f_localValue (setup (props_of base x.2)) = "a".
Proof. vm_compute. done. Qed.
End Demo.

(** A drop changes a field that is read only. *)
Lemma readonly_drop_changes num_toString parse p t selection s :
  p_readonly p = true → p_onDrop p = None → tr_expression t ≠ "" → 
  ∃ v, (onDrop num_toString parse p t selection s).2 = [CallChange v] ∧ f_localValue (onDrop num_toString parse p t selection s).1 =
    insert_text (f_localValue s) (tr_expression t) selection.
Proof.
  intros _ Ho Ht. unfold onDrop. rewrite Ho. cbn [truthy andb getDropPayload dp_expression].
  assert ((tr_expression t =s "") = false) as -> by by apply bool_decide_eq_false.
  assert ((tr_expression t =s "") = false) as -> by by apply bool_decide_eq_false. by eexists.
Qed.

(** What is given from outside while the field is focused in the same mode is not
    taken over, not when the field is left either. *)
Lemma focused_keeps p p' s :
  f_isFocused s = true → normalizeMode (p_mode p') = mode p s → mode p s ≠ "" → 
  onWillUpdateProps p p' s = s.
Proof.
  intros Hf Hm Hne. unfold onWillUpdateProps. rewrite Hf, Hm. rewrite (bool_decide_false (mode p s = "")) by done.
  by rewrite bool_decide_true by done.
Qed.

(** The drop mark shows while the pointer is over the field or a part of it. *)
Lemma drag_counts s n :
  f_dragEnterCount s = 0%Z → (0 < n)%nat →
  let s' := Nat.iter n onDragEnter s in
  f_isDragOver s' = true ∧ ∀ k, (k < n)%nat → f_isDragOver (Nat.iter k onDragLeave s') = true ∧
  f_isDragOver (Nat.iter n onDragLeave s') = false.
Proof.
  intros H0 Hn s'. assert (s' = with_drag true (Z.of_nat n) s) as ->.
  { unfold s'. clear s'. induction n as [|n IH]; [lia|]. destruct (decide (n = 0%nat)) as [->|Hn'].
    - simpl. unfold onDragEnter. by rewrite H0.
    - cbn [Nat.iter]. change (Nat.iter (S n) onDragEnter s) with (onDragEnter (Nat.iter n onDragEnter s)).
      rewrite IH by lia. unfold onDragEnter, with_drag. simpl. f_equal. lia. }
  assert (∀ k, (k < n)%nat → Nat.iter k onDragLeave (with_drag true (Z.of_nat n) s) = with_drag true (Z.of_nat (n - k)) s) as Hk.
  { induction k as [|k IH]; intros Hlt; [by rewrite Nat.sub_0_r|].
    change (Nat.iter (S k) onDragLeave (with_drag true (Z.of_nat n) s)) with (onDragLeave (Nat.iter k onDragLeave (with_drag true (Z.of_nat n) s))).
    rewrite IH by lia. unfold onDragLeave. cbn [f_dragEnterCount with_drag].
    destruct (Z.leb_spec (Z.of_nat (n - k) - 1) 0); [lia|]. unfold with_drag. simpl. f_equal. lia. }
  split; [done|]. intros k Hlt. rewrite Hk by done. split; [done|]. destruct n as [|n]; [lia|].
  change (Nat.iter (S n) onDragLeave (with_drag true (Z.of_nat (S n)) s)) with (onDragLeave (Nat.iter n onDragLeave (with_drag true (Z.of_nat (S n)) s))).
  rewrite Hk by lia. replace (S n - n)%nat with 1%nat by lia. done.
Qed.
