(* ===== verification/FieldValues.v ===== *)
(** * Values of fields and domains
    (components/field_values_control/field_values_control.js and
    components/domain_control/domain_control.js)

    The editor of the fields of a record is a table whose value is the text of a
    JSON object.  Reading and writing JSON are arguments; what is used of them is
    that an object of strings is read back as it was written. *)

From stdpp Require Import countable.
From S2P Require Import Prelude JsMap JsValue JsNumber JsString Suggestions Expression ConfigPanel JsonTree ExpressionInput.

Record field_row := FieldRow { fr_id : nat; fr_field : string; fr_value : string }.

(** The modes of rows by their ids; [true] is expression mode. *)
Definition row_modes : Type := list (nat * bool).
Fixpoint mode_of (i : nat) (m : row_modes) : option bool :=
  match m with
  | [] => None
  | (j, b) :: m => if Nat.eqb i j then Some b else mode_of i m
  end.
Definition set_mode (i : nat) (b : bool) (m : row_modes) : row_modes := (i, b) :: bfilter (λ x, negb (Nat.eqb x.1 i)) m.
Definition del_mode (i : nat) (m : row_modes) : row_modes := bfilter (λ x, negb (Nat.eqb x.1 i)) m.

Record field_values := FieldValues {
  fv_nextId : nat;
  fv_rows : list field_row;
  fv_fieldModes : row_modes;
  fv_valueModes : row_modes;
  fv_props : string;
  fv_stored : string;
}.

Section control.
(** [JSON.parse], which may throw, and [JSON.stringify]. *)
Context (parse : string → option jsval) (stringify : jsval → string).

(** Rows numbered from [next]. *)
Fixpoint number_rows (next : nat) (pairs : list (string * string)) : list field_row :=
  match pairs with
  | [] => []
  | (k, v) :: pairs => FieldRow next k v :: number_rows (S next) pairs
  end.
Definition blank_row (next : nat) : list field_row := [FieldRow next "" ""].

(** [_parseToRows(valueStr)], which moves the counter on. *)
Definition parsed_pairs (valueStr : string) : list (string * string) :=
  match parse (if valueStr =s "" then "{}" else valueStr) with
  | Some (JObj o) => (λ kv, (kv.1, match kv.2 with JStr s => s | v => stringify v end)) <$> o
  | _ => []
  end.
Definition parseToRows (next : nat) (valueStr : string) : list field_row * nat :=
  match parsed_pairs valueStr with
  | [] => (blank_row next, S next)
  | pairs => (number_rows next pairs, next + length pairs)%nat
  end.

(** [_inferValueMode(value)], [_buildValueModes(rows)], [_buildFieldModes(rows)] *)
Definition inferValueMode (value : string) : bool := isExpressionMode value.
Definition buildValueModes (rows : list field_row) : row_modes := (λ r, (fr_id r, inferValueMode (fr_value r))) <$> rows.
Definition buildFieldModes (rows : list field_row) : row_modes := (λ r, (fr_id r, inferValueMode (fr_field r))) <$> rows.

(** [_serialize()]; giving text to [__proto__] of an object stores nothing. *)
Definition unnamed (f : string) : bool := (f =s "") || (f =s "__proto__").
Definition serialize_row (out : jsobj) (r : field_row) : jsobj :=
  if unnamed (trim (fr_field r)) then out else oset (trim (fr_field r)) (JStr (fr_value r)) out.
Definition serialized (rows : list field_row) : jsobj := foldl serialize_row [] rows.
Definition serialize (rows : list field_row) : string := stringify (JObj (serialized rows)).

(** [setup()] *)
Definition new_field_values (value : string) : field_values :=
  let '(rows, next) := parseToRows 1 value in
  FieldValues next rows (buildFieldModes rows) (buildValueModes rows) value value.

(** [onWillUpdateProps(nextProps)] *)
Definition field_props (value : string) (c : field_values) : field_values :=
  if (value =s fv_props c) || (value =s serialize (fv_rows c))
  then FieldValues (fv_nextId c) (fv_rows c) (fv_fieldModes c) (fv_valueModes c) value value
  else let '(rows, next) := parseToRows (fv_nextId c) value in
       FieldValues next rows (buildFieldModes rows) (buildValueModes rows) value value.

(** The call of [onChange]: the parent stores the text. *)
Definition with_rows (rows : list field_row) (c : field_values) : field_values :=
  FieldValues (fv_nextId c) rows (fv_fieldModes c) (fv_valueModes c) (fv_props c) (fv_stored c).
Definition store_rows (c : field_values) : field_values :=
  FieldValues (fv_nextId c) (fv_rows c) (fv_fieldModes c) (fv_valueModes c) (fv_props c) (serialize (fv_rows c)).

(** [onFieldChange(index, fieldName)], [onValueChange(index, val)] *)
Definition onFieldChange (index : nat) (fieldName : string) (c : field_values) : field_values :=
  match fv_rows c !! index with
  | Some r => store_rows (with_rows (<[index := FieldRow (fr_id r) fieldName (fr_value r)]> (fv_rows c)) c)
  | None => c
  end.
Definition onValueChange (index : nat) (val : string) (c : field_values) : field_values :=
  match fv_rows c !! index with
  | Some r => store_rows (with_rows (<[index := FieldRow (fr_id r) (fr_field r) val]> (fv_rows c)) c)
  | None => c
  end.

(** [onFieldModeChange(rowId, mode)], [onValueModeChange(rowId, mode)] *)
Definition onFieldModeChange (i : nat) (b : bool) (c : field_values) : field_values :=
  FieldValues (fv_nextId c) (fv_rows c) (set_mode i b (fv_fieldModes c)) (fv_valueModes c) (fv_props c) (fv_stored c).
Definition onValueModeChange (i : nat) (b : bool) (c : field_values) : field_values :=
  FieldValues (fv_nextId c) (fv_rows c) (fv_fieldModes c) (set_mode i b (fv_valueModes c)) (fv_props c) (fv_stored c).

(** [getFieldMode(rowId)], [getValueMode(rowId)] *)
Definition row_mode (f : field_row → string) (modes : row_modes) (rows : list field_row) (i : nat) : bool :=
  match find_first (λ r, Nat.eqb (fr_id r) i) rows with
  | None => false
  | Some r => default (inferValueMode (f r)) (mode_of i modes)
  end.
Definition getFieldMode (c : field_values) (i : nat) : bool := row_mode fr_field (fv_fieldModes c) (fv_rows c) i.
Definition getValueMode (c : field_values) (i : nat) : bool := row_mode fr_value (fv_valueModes c) (fv_rows c) i.

(** [addRow()] *)
Definition fv_addRow (c : field_values) : field_values :=
  let i := fv_nextId c in
  FieldValues (S i) (fv_rows c ++ blank_row i) (set_mode i false (fv_fieldModes c)) (set_mode i false (fv_valueModes c))
    (fv_props c) (fv_stored c).

(** [removeRow(index)] *)
Definition fv_removeRow (index : nat) (c : field_values) : field_values :=
  let del m := match fv_rows c !! index with Some r => del_mode (fr_id r) m | None => m end in
  store_rows
    match delete index (fv_rows c) with
    | [] => let rows := blank_row (fv_nextId c) in
            FieldValues (S (fv_nextId c)) rows (buildFieldModes rows) (buildValueModes rows) (fv_props c) (fv_stored c)
    | next => FieldValues (fv_nextId c) next (del (fv_fieldModes c)) (del (fv_valueModes c)) (fv_props c) (fv_stored c)
    end.

(** ** Edits and the echo of the parent *)

Inductive field_event :=
| FieldTyped (index : nat) (s : string)
| ValueTyped (index : nat) (s : string)
| FieldMode (i : nat) (b : bool)
| ValueMode (i : nat) (b : bool)
| RowAdded
| RowRemoved (index : nat)
| Echo.

(** [Echo]: the parent renders with the text it stored last. *)
Definition field_step (c : field_values) (e : field_event) : field_values :=
  match e with
  | FieldTyped i s => onFieldChange i s c
  | ValueTyped i s => onValueChange i s c
  | FieldMode i b => onFieldModeChange i b c
  | ValueMode i b => onValueModeChange i b c
  | RowAdded => fv_addRow c
  | RowRemoved i => fv_removeRow i c
  | Echo => field_props (fv_stored c) c
  end.
Definition field_run (c : field_values) (es : list field_event) : field_values := foldl field_step c es.

(** What the user sees of the state. *)
Definition on_screen (c : field_values) : nat * list field_row * row_modes * row_modes :=
  (fv_nextId c, fv_rows c, fv_fieldModes c, fv_valueModes c).

Definition is_echo (e : field_event) : bool := match e with Echo => true | _ => false end.

(** Ids are below the counter and distinct, the modes are those of rows, and the
    stored text is the text of the rows or the one that came last. *)
Record field_ok (c : field_values) : Prop := {
  fo_ids : NoDup (fr_id <$> fv_rows c);
  fo_below : ∀ r, r ∈ fv_rows c → (fr_id r < fv_nextId c)%nat;
  fo_rows : fv_rows c ≠ [];
  fo_stored : fv_stored c = fv_props c ∨ fv_stored c = serialize (fv_rows c);
}.

Lemma number_ids next pairs : fr_id <$> number_rows next pairs = seq next (length pairs).
Proof. revert next. induction pairs as [|[k v] pairs IH]; intros next; simpl; [done|]. f_equal. apply IH. Qed.

Lemma number_rows_ok next pairs :
  NoDup (fr_id <$> number_rows next pairs) ∧ ∀ r, r ∈ number_rows next pairs → (fr_id r < next + length pairs)%nat.
Proof.
  split.
  - rewrite number_ids. apply NoDup_seq.
  - intros r Hr. assert (fr_id r ∈ (fr_id <$> number_rows next pairs)) as Hi by by apply list_elem_of_fmap_2.
    rewrite number_ids in Hi. apply elem_of_seq in Hi. lia.
Qed.

Lemma parseToRows_ok next s :
  let '(rows, next') := parseToRows next s in
  NoDup (fr_id <$> rows) ∧ (∀ r, r ∈ rows → (next ≤ fr_id r < next')%nat) ∧ rows ≠ [].
Proof.
  unfold parseToRows. destruct (parsed_pairs s) as [|p pairs].
  - split_and!; [apply NoDup_singleton| |done]. intros r ->%list_elem_of_singleton. simpl. lia.
  - destruct (number_rows_ok next (p :: pairs)) as [H1 H2]. split_and!; [done| |by destruct p].
    intros r Hr. split; [|by apply H2].
    assert (fr_id r ∈ (fr_id <$> number_rows next (p :: pairs))) as Hi by by apply list_elem_of_fmap_2.
    rewrite number_ids in Hi. apply elem_of_seq in Hi. lia.
Qed.

Lemma new_field_values_ok value : field_ok (new_field_values value).
Proof.
  unfold new_field_values. pose proof (parseToRows_ok 1 value) as H. destruct (parseToRows 1 value) as [rows next].
  destruct H as (H1 & H2 & H3). split; simpl; [done| |done|by left]. intros r Hr. apply H2 in Hr. lia.
Qed.

(** Changing the texts of a row. *)
Lemma set_row_ok index r r' c :
  field_ok c → fv_rows c !! index = Some r → fr_id r' = fr_id r →
  field_ok (store_rows (with_rows (<[index := r']> (fv_rows c)) c)).
Proof.
  intros [H1 H2 H3 H4] Hr Hi.
  assert (fr_id <$> <[index := r']> (fv_rows c) = fr_id <$> fv_rows c) as E.
  { rewrite list_fmap_insert, Hi. apply list_insert_id. by rewrite list_lookup_fmap, Hr. }
  split; simpl.
  - by rewrite E.
  - intros x Hx. assert (fr_id x ∈ (fr_id <$> fv_rows c)) as Hin by (rewrite <- E; by apply list_elem_of_fmap_2).
    apply list_elem_of_fmap in Hin as (y & -> & Hy). by apply H2.
  - destruct (fv_rows c); [done|]. by destruct index.
  - by right.
Qed.

Lemma field_step_ok c e : field_ok c → field_ok (field_step c e).
Proof.
  intros Hc. pose proof Hc as [H1 H2 H3 H4]. destruct e as [i s|i s|i b|i b| |i|]; simpl.
  - unfold onFieldChange. destruct (fv_rows c !! i) eqn:Hr; [|done]. by eapply set_row_ok.
  - unfold onValueChange. destruct (fv_rows c !! i) eqn:Hr; [|done]. by eapply set_row_ok.
  - by split.
  - by split.
  - split; simpl.
    + rewrite fmap_app. apply NoDup_app. split_and!; [done| |apply NoDup_singleton].
      intros j Hj ->%list_elem_of_singleton. apply list_elem_of_fmap in Hj as (r & Hi & Hr). apply H2 in Hr. simpl in Hi. lia.
    + intros r [Hr| ->%list_elem_of_singleton]%elem_of_app; [apply H2 in Hr; lia|simpl; lia].
    + by destruct (fv_rows c).
    + destruct H4 as [->|E]; [by left|right]. rewrite E. unfold serialize, serialized. by rewrite foldl_app.
  - unfold fv_removeRow. destruct (delete i (fv_rows c)) as [|r rows] eqn:E.
    + split; simpl; [apply NoDup_singleton| |done|by right]. intros r ->%list_elem_of_singleton. simpl. lia.
    + split; cbn [store_rows fv_rows fv_nextId fv_stored fv_props]; [rewrite <- E..|done|by right].
      * eapply sublist_NoDup; [exact H1|]. apply fmap_sublist, sublist_delete.
      * intros x Hx%list_elem_of_delete_inv. by apply H2.
  - unfold field_props. destruct (_ || _).
    + split; simpl; [done|done|done|by left].
    + pose proof (parseToRows_ok (fv_nextId c) (fv_stored c)) as H. destruct (parseToRows _ _) as [rows next].
      destruct H as (H5 & H6 & H7). split; simpl; [done| |done|by left]. intros r Hr. apply H6 in Hr. lia.
Qed.

(** The echo changes nothing on the screen. *)
Lemma echo_on_screen c : field_ok c → on_screen (field_step c Echo) = on_screen c.
Proof.
  intros [_ _ _ H]. simpl. unfold field_props. destruct H as [->| ->]; [by rewrite bool_decide_eq_true_2|].
  rewrite (bool_decide_eq_true_2 (serialize (fv_rows c) = serialize (fv_rows c))) by done. by rewrite orb_true_r.
Qed.

(** Edits look at the screen only. *)
Lemma step_on_screen c c' e :
  is_echo e = false → on_screen c = on_screen c' → on_screen (field_step c e) = on_screen (field_step c' e).
Proof.
  destruct c as [n rows fm vm p s], c' as [n' rows' fm' vm' p' s']. unfold on_screen. simpl. intros He [= <- <- <- <-].
  destruct e as [i t|i t|i b|i b| |i|]; try done; simpl; unfold onFieldChange, onValueChange, fv_removeRow; simpl.
  - by destruct (rows !! i).
  - by destruct (rows !! i).
  - by destruct (delete i rows).
Qed.
End control.

(** ** What is written is read *)

(** The value a field has in the rows: that of the last row that names it; nothing
    and [__proto__] are no names. *)
Definition names_field (f : string) (r : field_row) : bool := (trim (fr_field r) =s f) && negb (unnamed f).
Definition last_value (f : string) (rows : list field_row) : option string :=
  fr_value <$> last (bfilter (names_field f) rows).

Lemma serialized_snoc rows r : serialized (rows ++ [r]) = serialize_row (serialized rows) r.
Proof. unfold serialized. by rewrite foldl_app. Qed.

Lemma serialized_spec rows f :
  obj_ok (serialized rows) ∧ jget f (serialized rows) = JStr <$> last_value f rows ∧
  Forall (λ kv, ∃ s, kv.2 = JStr s) (serialized rows).
Proof.
  induction rows as [|r rows (H1 & H2 & H3)] using rev_ind.
  { split_and!; [apply obj_ok_nil|done|constructor]. }
  rewrite serialized_snoc. unfold serialize_row, last_value. rewrite bfilter_app. simpl. unfold names_field at 2.
  destruct (unnamed (trim (fr_field r))) eqn:Hb.
  - split_and!; [done| |done]. rewrite H2. unfold last_value.
    assert ((trim (fr_field r) =s f) && negb (unnamed f) = false) as ->; [|by rewrite app_nil_r].
    case_bool_decide as E; [|done]. by rewrite <- E, Hb.
  - split_and!; [by apply obj_ok_oset| |].
    + rewrite jget_oset. case_decide as Hf.
      * subst f. rewrite Hb. repeat (case_bool_decide; [|done]). cbn [negb andb]. by rewrite last_snoc.
      * rewrite (bool_decide_eq_false_2 (trim (fr_field r) = f)) by congruence. simpl. rewrite app_nil_r. exact H2.
    + apply Forall_forall. intros [k v] Hin.
      apply elem_jget in Hin; [|by apply obj_ok_NoDup, obj_ok_oset].
      rewrite jget_oset in Hin. case_decide; [injection Hin as <-; eexists; reflexivity|].
      apply jget_elem in Hin. rewrite Forall_forall in H3. by apply (H3 (k, v)).
Qed.

Lemma number_rows_pairs next pairs r :
  r ∈ number_rows next pairs → (fr_field r, fr_value r) ∈ pairs.
Proof.
  revert next. induction pairs as [|[k v] pairs IH]; intros next; simpl; [by intros ?%not_elem_of_nil|].
  intros [->|Hr]%elem_of_cons; [by left|right; by eapply IH].
Qed.
Lemma pairs_number_rows next pairs k v :
  (k, v) ∈ pairs → ∃ r, r ∈ number_rows next pairs ∧ fr_field r = k ∧ fr_value r = v.
Proof.
  revert next. induction pairs as [|[k' v'] pairs IH]; intros next; simpl; [by intros ?%not_elem_of_nil|].
  intros [[= -> ->]|Hr]%elem_of_cons; [eexists; split; [by left|done]|].
  destruct (IH (S next) Hr) as (r & ? & ?). exists r. split; [by right|done].
Qed.

(** What is asked of reading and writing JSON: an object of strings comes back. *)
Definition json_law (parse : string → option jsval) (stringify : jsval → string) : Prop :=
  ∀ o, obj_ok o → Forall (λ kv, ∃ s, kv.2 = JStr s) o →
    stringify (JObj o) ≠ "" ∧ parse (stringify (JObj o)) = Some (JObj o).

(** C30: The fields and values that are typed are those read back: the rows made
    from the stored text name exactly the fields that some row names, each once
    and with the value of the last row that names it.  ([__proto__] is no name of a
    field: it is not stored.) *)
Theorem field_values_roundtrip parse stringify next rows :
  json_law parse stringify →
  let rows' := (parseToRows parse stringify next (serialize stringify rows)).1 in
  NoDup (fr_field <$> rows') ∧
  ∀ f v, f ≠ "" → (∃ r, r ∈ rows' ∧ fr_field r = f ∧ fr_value r = v) ↔ last_value f rows = Some v.
Proof.
  intros Hlaw rows'. destruct (serialized_spec rows "") as (Hok & _ & Hall).
  destruct (Hlaw (serialized rows) Hok Hall) as [Hne Hp].
  assert (parsed_pairs parse stringify (serialize stringify rows) =
    (λ kv, (kv.1, match kv.2 with JStr s => s | v => stringify v end)) <$> serialized rows) as Hpairs.
  { unfold parsed_pairs, serialize. by rewrite bool_decide_eq_false_2, Hp. }
  set (pairs := (λ kv : string * jsval, (kv.1, match kv.2 with JStr s => s | v => stringify v end)) <$> serialized rows) in *.
  assert (∀ f v, (f, v) ∈ pairs ↔ last_value f rows = Some v) as Hin.
  { intros f v. destruct (serialized_spec rows f) as (_ & Hg & _). split.
    - intros ([k x] & [= -> ->] & Hx)%list_elem_of_fmap. apply elem_jget in Hx; [|by apply obj_ok_NoDup].
      rewrite Hg in Hx. destruct (last_value k rows); simplify_eq/=. done.
    - intros Hl. rewrite Hl in Hg. apply jget_elem in Hg. apply list_elem_of_fmap. by exists (f, JStr v). }
  assert (fst <$> pairs = jkeys (serialized rows)) as Hkeys.
  { unfold pairs. rewrite <- list_fmap_compose. by apply list_fmap_ext. }
  subst rows'. unfold parseToRows. rewrite Hpairs. destruct pairs as [|p pairs'] eqn:Ep.
  - split; [apply NoDup_singleton|]. intros f v Hf. rewrite <- Hin. split.
    + intros (r & ->%list_elem_of_singleton & <- & _). done.
    + by intros ?%not_elem_of_nil.
  - cbn [fst]. split.
    + assert (fr_field <$> number_rows next (p :: pairs') = fst <$> (p :: pairs')) as ->.
      { generalize (p :: pairs'). clear. intros l. revert next. induction l as [|[k v] l IH]; intros next; simpl; [done|].
        f_equal. apply IH. }
      rewrite Hkeys. by apply obj_ok_NoDup.
    + intros f v Hf. rewrite <- Hin. split.
      * intros (r & Hr & <- & <-). by eapply number_rows_pairs.
      * apply pairs_number_rows.
Qed.

(** While the parent only hands back what it was given, what is on the screen
    depends on the edits alone, not on when the parent renders; rows keep their
    ids, so that the focus stays in the row that is typed in; and the text that is
    stored is that of the rows, from the first edit of a row on. *)
Theorem echoes_invisible parse stringify value es :
  let c := field_run parse stringify (new_field_values parse stringify value) es in
  on_screen c = on_screen (field_run parse stringify (new_field_values parse stringify value)
                             (bfilter (λ e, negb (is_echo e)) es)) ∧
  NoDup (fr_id <$> fv_rows c).
Proof.
  intros c. assert (field_ok stringify c ∧ on_screen c = on_screen (field_run parse stringify
    (new_field_values parse stringify value) (bfilter (λ e, negb (is_echo e)) es))) as [H1 H2].
  { subst c. unfold field_run. induction es as [|e es [IH1 IH2]] using rev_ind.
    { split; [apply new_field_values_ok|done]. }
    rewrite bfilter_app, !foldl_app. cbn [foldl]. split; [by apply field_step_ok|].
    destruct (is_echo e) eqn:He; simpl; rewrite He; simpl.
    - destruct e; try done. by rewrite echo_on_screen.
    - by apply step_on_screen. }
  split; [done|apply H1].
Qed.

(** A value that is not a string becomes one with the first edit: the row shows its
    JSON, and the row is written as a string. *)
Lemma edit_makes_strings parse stringify :
  parse "{}" = Some (JObj []) →
  parse "v" = Some (JObj [("active", JBool false)]) → stringify (JBool false) = "false" →
  let c := new_field_values parse stringify "v" in
  serialized (fv_rows (onFieldChange stringify 0 "active" c)) = [("active", JStr "false")].
Proof.
  intros H0 H1 H2. unfold new_field_values, parseToRows, parsed_pairs. simpl. rewrite H1. simpl. by rewrite H2.
Qed.

(** Texts for objects of strings that satisfy the law, for an example. *)
Definition toy_stringify (v : jsval) : string :=
  match v with
  | JObj o => pretty (Npos (encode ((λ kv, (kv.1, match kv.2 with JStr s => s | _ => "" end)) <$> o)))
  | _ => ""
  end.
Definition toy_parse (s : string) : option jsval :=
  match parse_digits 0 s with
  | Npos i => (λ l : list (string * string), JObj ((λ kv, (kv.1, JStr kv.2)) <$> l)) <$> decode i
  | N0 => None
  end.

Lemma toy_law : json_law toy_parse toy_stringify.
Proof.
  intros o _ Ho. unfold toy_parse, toy_stringify.
  destruct (parse_pretty (Npos (encode ((λ kv, (kv.1, match kv.2 with JStr s => s | _ => "" end)) <$> o)))) as (-> & _ & Hne).
  split; [done|]. rewrite decode_encode. simpl. f_equal. f_equal.
  clear Hne. induction Ho as [|[k v] o [s Hs] _ IH]; simpl in *; [done|]. f_equal; [by rewrite Hs|exact IH].
Qed.

Lemma field_values_roundtrip_witness :
  let rows := [FieldRow 1 " name " "Ada"; FieldRow 2 "" "x"; FieldRow 3 "name" "Alan"] in
  ∃ r, r ∈ (parseToRows toy_parse toy_stringify 4 (serialize toy_stringify rows)).1 ∧ fr_field r = "name" ∧ fr_value r = "Alan".
Proof.
  intros rows. apply (field_values_roundtrip toy_parse toy_stringify 4 rows toy_law); [done|by vm_compute].
Defined.

(** ** Suggestions for fields, and fields that are dropped *)

(** The group of [dotMatch]: a name after the last dot. *)
Definition dotMatch (path : string) : option string :=
  let '(a, g) := split_tail word_char path in
  match strip_suffix "." a, g with
  | Some _, String c _ => if ident_start c then Some g else None
  | _, _ => None
  end.

(** The group of [bracketMatch]: what is quoted in the last brackets. *)
Definition dquote : ascii := ascii_of_nat 34.
Definition bracketMatch (path : string) : option string :=
  match strip_suffix (String dquote "]") path with
  | None => None
  | Some r =>
      let '(a, g) := split_tail (λ c, negb (bool_decide (c = dquote)) && negb (bool_decide (c = "]"%char))) r in
      match strip_suffix ("[" +:+ String dquote "") a with
      | Some _ => if g =s "" then None else Some g
      | None => None
      end
  end.

(** [_extractDroppedFieldName(payload)] *)
Definition meta_segment (payload : drop_payload) : string :=
  match prop (dp_meta payload) "path" with
  | JArr l => match last l with Some (JStr s) => trim s | _ => "" end
  | _ => ""
  end.
Definition extractDroppedFieldName (payload : drop_payload) : string :=
  if negb (trim (dp_keyName payload) =s "") then trim (dp_keyName payload)
  else if negb (meta_segment payload =s "") then meta_segment payload
  else
    let path := trim (dp_path payload) in
    match dotMatch path with
    | Some name => name
    | None => default "" (bracketMatch path)
    end.

(** [_hasFieldSuggestion(fieldName)] *)
Definition hasFieldSuggestion (fieldSuggestions : list suggestion) (fieldName : string) : bool :=
  negb (fieldName =s "") && existsb (λ item, sg_value item =s fieldName) fieldSuggestions.

(** [onFieldDrop(rowId, payload)] *)
Definition drop_override (mode value : string) : jsval :=
  JObj [("handled", JBool true); ("mode", JStr mode); ("value", JStr value)].
Definition onFieldDrop (fieldSuggestions : list suggestion) (payload : drop_payload) : jsval :=
  let droppedFieldName := extractDroppedFieldName payload in
  if hasFieldSuggestion fieldSuggestions droppedFieldName then drop_override "fixed" droppedFieldName
  else if negb (dp_expression payload =s "") then drop_override "expression" (dp_expression payload)
  else JNull.

Section fields.
(** The order of names, [a.localeCompare(b) < 0]; the printing of numbers. *)
Context (before : string → string → bool) (num_toString : num → string).

(** A field that is offered, and its suggestion. *)
Definition settable (isCreate : bool) (fd : jsval) : bool :=
  if strict_eq (prop fd "type") (JStr "one2many") then false
  else negb (isCreate && truthy (prop fd "readonly") && negb (truthy (prop fd "store"))).
Definition field_suggestion (fname : string) (fd : jsval) : suggestion :=
  Suggestion fname fname
    (js_String num_toString (js_or (prop fd "string") (JStr fname)) +:+ " (" +:+ js_String num_toString (prop fd "type") +:+ ")").

(** What the answer of [loadFields] makes of the definitions. *)
Definition field_suggestions (operation : string) (defs : jsval) : list suggestion :=
  let isCreate := negb (operation =s "write") in
  sort_by (λ a b, before (sg_value a) (sg_value b))
    ((λ kv, field_suggestion kv.1 kv.2) <$> bfilter (λ kv, settable isCreate kv.2) (entries defs)).

(** The suggestions, and the models whose fields are being loaded. *)
Record field_loading := FieldLoading { fl_suggestions : list suggestion; fl_pending : list string }.

(** [_loadFields(resModel)] up to its await, and the answer to the [k]-th call. *)
Definition loadFields (resModel : string) (l : field_loading) : field_loading :=
  if resModel =s "" then FieldLoading [] (fl_pending l) else FieldLoading (fl_suggestions l) (fl_pending l ++ [resModel]).
Definition fields_answer (operation : string) (k : nat) (defs : option jsval) (l : field_loading) : field_loading :=
  match fl_pending l !! k with
  | None => l
  | Some _ =>
      FieldLoading (match defs with Some defs => field_suggestions operation defs | None => [] end)
        (delete k (fl_pending l))
  end.

(** The answers are not told apart: that for a model which is no longer the one of
    the node replaces the suggestions, whichever was asked for last. *)
Lemma late_fields_win operation l m1 m2 defs1 defs2 :
  m1 ≠ "" → m2 ≠ "" → fl_pending l = [] →
  let l := loadFields m2 (loadFields m1 l) in
  fl_suggestions (fields_answer operation 0 (Some defs1) (fields_answer operation 1 (Some defs2) l)) =
  field_suggestions operation defs1.
Proof. intros H1 H2 Hl. cbv zeta. unfold loadFields. rewrite !bool_decide_false by done. cbn [fl_pending]. by rewrite Hl. Qed.

(** Every field that is offered is one of the model, none of many lines. *)
Lemma field_suggestions_sound operation defs s :
  s ∈ field_suggestions operation defs ↔
  ∃ fname fd, (fname, fd) ∈ entries defs ∧ s = field_suggestion fname fd ∧ settable (negb (operation =s "write")) fd = true.
Proof.
  unfold field_suggestions. rewrite sort_by_perm, list_elem_of_fmap. split.
  - intros ([fname fd] & -> & [Hin Hs]%elem_of_bfilter). eauto.
  - intros (fname & fd & Hin & -> & Hs). exists (fname, fd). split; [done|]. by apply elem_of_bfilter.
Qed.
End fields.

(** The drops that are answered give text. *)
Lemma field_drop_plain base fieldSuggestions :
  p_onDrop base = Some (onFieldDrop fieldSuggestions) → plain_overrides base.
Proof.
  intros Hd f d. rewrite Hd. intros [= <-]. unfold onFieldDrop.
  destruct (hasFieldSuggestion _ _); [done|]. by destruct (negb _).
Qed.

(** A field dragged from a tree into the table of the same model is its name. *)
Lemma tree_drop_names fieldSuggestions payload fname :
  fname ≠ "" → trim fname = fname → dp_keyName payload = fname →
  fname ∈ sg_value <$> fieldSuggestions →
  onFieldDrop fieldSuggestions payload = drop_override "fixed" fname.
Proof.
  intros Hne Ht Hk Hin. unfold onFieldDrop, extractDroppedFieldName. rewrite Hk, Ht, (bool_decide_false (fname = "")) by done.
  cbn [negb]. unfold hasFieldSuggestion. rewrite (bool_decide_false (fname = "")) by done. cbn [negb andb].
  assert (existsb (λ item, sg_value item =s fname) fieldSuggestions = true) as ->; [|done].
  apply existsb_exists. apply list_elem_of_fmap in Hin as (s & -> & Hs). exists s. split; [by apply list_elem_of_In|]. by apply bool_decide_eq_true.
Qed.

(** ** The domain editor (components/domain_control/domain_control.js) *)

(** [state], the cache of models, and the sequence number of the last validation;
    [dm_pending] are the searches that are under way. *)
Record domain_control := DomainControl {
  dm_resModel : string;
  dm_validatedModel : string;
  dm_isValid : bool;
  dm_cache : list (string * bool);
  dm_seq : nat;
  dm_pending : list (nat * string);
  dm_resets : nat;
}.

Section domain.
(** The models known to the client, and those of the backend. *)
Context (known exists_db : string → bool).

Definition setValidation (m : string) (b : bool) (c : domain_control) : domain_control :=
  DomainControl (dm_resModel c) m b (dm_cache c) (dm_seq c) (dm_pending c) (dm_resets c).
Definition cache_model (m : string) (b : bool) (c : domain_control) : domain_control :=
  DomainControl (dm_resModel c) (dm_validatedModel c) (dm_isValid c) (oset m b (dm_cache c)) (dm_seq c) (dm_pending c) (dm_resets c).

(** [_validateModelName(rawModelName)] up to the search. *)
Definition validateModelName (raw : string) (c : domain_control) : domain_control :=
  let m := trim raw in
  let seq := S (dm_seq c) in
  let c := DomainControl (dm_resModel c) (dm_validatedModel c) (dm_isValid c) (dm_cache c) seq (dm_pending c) (dm_resets c) in
  if (m =s "") || negb (includes "." m) then setValidation m false c
  else match jget m (dm_cache c) with
       | Some b => setValidation m b c
       | None =>
           if known m then setValidation m true (cache_model m true c)
           else DomainControl (dm_resModel c) (dm_validatedModel c) (dm_isValid c) (dm_cache c) seq ((seq, m) :: dm_pending c) (dm_resets c)
       end.

(** The answer to a search, or its failure. *)
Definition validation_answer (k : nat) (failed : bool) (c : domain_control) : domain_control :=
  match dm_pending c !! k with
  | None => c
  | Some (seq, m) =>
      let exists_ := negb failed && exists_db m in
      let c := DomainControl (dm_resModel c) (dm_validatedModel c) (dm_isValid c) (dm_cache c) (dm_seq c)
                 (delete k (dm_pending c)) (dm_resets c) in
      if Nat.eqb seq (dm_seq c) then setValidation m exists_ (cache_model m exists_ c) else c
  end.

(** [setup()] with [onMounted], and [onWillUpdateProps(nextProps)], which resets the
    domain when the model changes. *)
Definition new_domain_control (resModel : string) : domain_control :=
  validateModelName resModel (DomainControl resModel "" false [] 0 [] 0).
Definition domain_props (next : string) (c : domain_control) : domain_control :=
  let prev := dm_resModel c in
  let resets := if negb (prev =s "") && negb (next =s prev) then S (dm_resets c) else dm_resets c in
  validateModelName next
    (DomainControl next (dm_validatedModel c) (dm_isValid c) (dm_cache c) (dm_seq c) (dm_pending c) resets).

(** [isValidModel], [domain] *)
Definition isValidModel (c : domain_control) : bool := dm_isValid c && (dm_validatedModel c =s trim (dm_resModel c)).
Definition domain (value : jsval) : string := match value with JStr s => if s =s "" then "[]" else s | _ => "[]" end.

Inductive domain_event := DomainProps (next : string) | DomainAnswer (k : nat) (failed : bool).
Definition domain_step (c : domain_control) (e : domain_event) : domain_control :=
  match e with DomainProps next => domain_props next c | DomainAnswer k b => validation_answer k b c end.
Definition domain_run (c : domain_control) (es : list domain_event) : domain_control := foldl domain_step c es.

(** The name of a model that exists. *)
Definition is_model (m : string) : bool := negb (m =s "") && includes "." m && exists_db m.

(** The search of the last validation is under way. *)
Definition validating (c : domain_control) : Prop := ∃ m, (dm_seq c, m) ∈ dm_pending c.

Definition searches_fail (e : domain_event) : bool := match e with DomainAnswer _ b => b | DomainProps _ => false end.

(** What holds after every event; [healthy] is that no search failed. *)
Record domain_ok (healthy : bool) (c : domain_control) : Prop := {
  do_cache : ∀ m b, jget m (dm_cache c) = Some b →
    negb (m =s "") && includes "." m = true ∧ (b = true → exists_db m = true) ∧ (healthy = true → b = exists_db m);
  do_pending : ∀ q m, (q, m) ∈ dm_pending c → negb (m =s "") && includes "." m = true;
  do_current : ∀ m, (dm_seq c, m) ∈ dm_pending c → m = trim (dm_resModel c);
  do_seq : ∀ q m, (q, m) ∈ dm_pending c → (q ≤ dm_seq c)%nat;
  do_valid : dm_isValid c = true → is_model (dm_validatedModel c) = true;
  do_exact : healthy = true → validating c ∨
    (dm_validatedModel c = trim (dm_resModel c) ∧ dm_isValid c = is_model (dm_validatedModel c));
}.

Context (Hknown : ∀ m, known m = true → exists_db m = true).

Ltac domain_cbn :=
  cbn [dm_cache dm_pending dm_seq dm_isValid dm_validatedModel dm_resModel setValidation cache_model].

Lemma validate_ok healthy raw c :
  (∀ m b, jget m (dm_cache c) = Some b →
    negb (m =s "") && includes "." m = true ∧ (b = true → exists_db m = true) ∧ (healthy = true → b = exists_db m)) →
  (∀ q m, (q, m) ∈ dm_pending c → negb (m =s "") && includes "." m = true) →
  (∀ q m, (q, m) ∈ dm_pending c → (q ≤ dm_seq c)%nat) →
  (dm_isValid c = true → is_model (dm_validatedModel c) = true) →
  dm_resModel c = raw → domain_ok healthy (validateModelName raw c).
Proof using Hknown.
  intros H1 H2 H3 H4 <-. unfold validateModelName. set (m := trim (dm_resModel c)).
  assert (∀ m', (S (dm_seq c), m') ∉ dm_pending c) as Hno by (intros m' Hm%H3; lia).
  assert (∀ q m', (q, m') ∈ dm_pending c → (q ≤ S (dm_seq c))%nat) as H3' by (intros q m' Hm%H3; lia).
  destruct ((m =s "") || negb (includes "." m)) eqn:Em.
  { assert (is_model m = false) as Hm.
    { unfold is_model. apply orb_prop in Em as [->|Hi]; [done|]. apply negb_true_iff in Hi. by rewrite Hi, andb_false_r. }
    split; domain_cbn; try done; [by intros m' ?%Hno|]. intros _. right. by rewrite Hm. }
  apply orb_false_iff in Em as [E1 E2]. apply negb_false_iff in E2.
  assert (is_model m = exists_db m) as Hm by (unfold is_model; by rewrite E1, E2).
  domain_cbn. destruct (jget m (dm_cache c)) as [b|] eqn:Ec; [|destruct (known m) eqn:Ek].
  - destruct (H1 m b Ec) as (_ & Hb1 & Hb2). split; domain_cbn; try done; [by intros m' ?%Hno|by rewrite Hm|].
    intros Hh. right. by rewrite Hm, Hb2.
  - split; domain_cbn; try done; [|by intros m' ?%Hno|by rewrite Hm, Hknown|].
    + intros m' b'. destruct (decide (m' = m)) as [->|Hne]; [|rewrite jget_oset_ne by done; apply H1].
      rewrite jget_oset_eq. intros [= <-]. by rewrite E1, E2, Hknown.
    + intros _. right. by rewrite Hm, Hknown.
  - split; domain_cbn; try done.
    + intros q m' [[= -> ->]|Hin]%elem_of_cons; [by rewrite E1, E2|by eapply H2].
    + intros m' [[= ->]|Hin]%elem_of_cons; [done|by apply Hno in Hin].
    + intros q m' [[= -> ->]|Hin]%elem_of_cons; [lia|by eapply H3'].
    + intros _. left. exists m. by left.
Qed.

Lemma domain_step_ok healthy c e :
  domain_ok healthy c → (healthy = true → searches_fail e = false) → domain_ok healthy (domain_step c e).
Proof using Hknown.
  intros [H1 H2 H3 H4 H5 H6] He. destruct e as [next|k failed]; simpl in *.
  - unfold domain_props. by apply validate_ok.
  - unfold validation_answer. destruct (dm_pending c !! k) as [[q m]|] eqn:Ek; [|by split].
    assert ((q, m) ∈ dm_pending c) as Hin by by eapply list_elem_of_lookup_2.
    assert (∀ x, x ∈ delete k (dm_pending c) → x ∈ dm_pending c) as Hdel by (intros x; apply list_elem_of_delete_inv).
    domain_cbn. destruct (Nat.eqb_spec q (dm_seq c)) as [->|Hq].
    + pose proof (H3 _ Hin) as Em. pose proof (H2 _ _ Hin) as Hn.
      assert (is_model m = exists_db m) as Hm by (unfold is_model; by rewrite Hn).
      split; domain_cbn; try by eauto.
      * intros m' b. destruct (decide (m' = m)) as [->|Hne]; [|rewrite jget_oset_ne by done; apply H1].
        rewrite jget_oset_eq. intros [= <-]. split_and!; [done| |].
        -- by intros [_ ?]%andb_prop.
        -- intros Hh. by rewrite (He Hh).
      * rewrite Hm. by intros [_ ?]%andb_prop.
      * intros Hh. right. by rewrite Hm, (He Hh).
    + split; domain_cbn; try by eauto. intros Hh. destruct (H6 Hh) as [[m' Hm']|]; [left|by right].
      exists m'. simpl. apply list_elem_of_lookup in Hm' as [j Hj]. apply list_elem_of_lookup.
      assert (j ≠ k) as Hjk by (intros ->; simplify_eq).
      destruct (decide (j < k)%nat).
      * exists j. by rewrite list_lookup_delete_lt.
      * exists (pred j). rewrite list_lookup_delete_ge by lia. by replace (S (pred j)) with j by lia.
Qed.

End domain.

(** The domain editor is offered only for the name of a model that exists, whatever
    the order in which searches answer; and once the search for the name that was
    given last has answered, and no search failed, it is offered for every such
    name. *)
Theorem model_validity_exact known exists_db resModel es :
  (∀ m, known m = true → exists_db m = true) →
  let c := domain_run known exists_db (new_domain_control known resModel) es in
  (isValidModel c = true → is_model exists_db (trim (dm_resModel c)) = true) ∧
  (¬ validating c → forallb (λ e, negb (searches_fail e)) es = true →
   isValidModel c = is_model exists_db (trim (dm_resModel c))).
Proof.
  intros Hk c. assert (∀ healthy, (healthy = true → forallb (λ e, negb (searches_fail e)) es = true) →
    domain_ok exists_db healthy c) as Hok.
  { intros healthy Hh. subst c. unfold domain_run. induction es as [|e es IH] using rev_ind.
    - simpl. apply validate_ok; simpl; try done; by intros ?? ?%not_elem_of_nil.
    - rewrite foldl_app. rewrite forallb_app in Hh. apply domain_step_ok; [done| |].
      + apply IH. intros Ht. by apply Hh, andb_prop in Ht as [].
      + intros Ht. apply Hh, andb_prop in Ht as [_ Ht]. simpl in Ht. rewrite andb_true_r in Ht. by apply negb_true_iff. }
  split.
  - unfold isValidModel. intros [Hv Hm]%andb_prop. apply bool_decide_eq_true in Hm. rewrite <- Hm.
    by apply (do_valid _ _ _ (Hok false ltac:(done))).
  - intros Hv Hh. destruct (do_exact _ _ _ (Hok true (λ _, Hh)) eq_refl) as [?|[E1 E2]]; [done|].
    unfold isValidModel. rewrite E2, E1. rewrite bool_decide_eq_true_2 by done. apply andb_true_r.
Qed.

Lemma model_validity_exact_witness :
  let exists_db m := bool_decide (m = "res.partner") in
  let c := domain_run (λ _, false) exists_db (new_domain_control (λ _, false) "res.part")
             [DomainProps "res.partner"; DomainAnswer 0 false] in
  isValidModel c = true ∧ is_model exists_db (trim (dm_resModel c)) = true.
Proof.
  intros exists_db c. assert (isValidModel c = true) as Hv by by vm_compute. split; [exact Hv|].
  refine (proj1 (model_validity_exact (λ _, false) exists_db "res.part" [DomainProps "res.partner"; DomainAnswer 0 false] _) Hv).
  by intros m ?.
Defined.

(** A search that fails makes the name invalid for good: the failure is kept as an
    answer. *)
Lemma failed_search_kept :
  let exists_db m := bool_decide (m = "res.partner") in
  let c := domain_run (λ _, false) exists_db (new_domain_control (λ _, false) "res.partner")
             [DomainAnswer 0 true; DomainProps ""; DomainProps "res.partner"] in
  isValidModel c = false ∧ dm_pending c = [].
Proof. split; by vm_compute. Qed.
