(* ===== verification/ValueEditor.v ===== *)
(** * Values of conditions
    (components/domain_builder/expression_value_editor.js and
    domain_builder_utils.js)

    The value of a condition is edited with the editor of Odoo for its field or
    as an expression, with a button between the two.  The component keeps the mode
    and what a drag over it changed; the value is its parent's.  The classes of
    Odoo appear as far as the program asks for: an instance of [Expression] is what
    its [toString] gives and its properties, an editor a record of functions. *)

From S2P Require Import Prelude JsMap JsValue JsString Expression Suggestions ExpressionInput Regex.

(** ** Values *)

Inductive cell := Plain (v : jsval) | Expr (text : string) (own : jsobj).

Definition text_cell (s : string) : cell := Plain (JStr s).

(** [isExpressionValue(value)], [inferExpressionModeFromValue(value)] and
    [isExpressionMode(value)], on any value *)
Definition isExpressionValue (value : cell) : bool :=
  match value with Plain (JStr s) => isExpressionMode s | _ => false end.

(** [isExpressionLike(value)], [shouldUseExpressionMode(value)],
    [isExpressionContentValid(value)] *)
Definition isExpressionLike (value : cell) : bool := match value with Expr _ _ => true | _ => isExpressionValue value end.
Definition shouldUseExpressionMode (value : cell) : bool := match value with Expr _ _ => true | _ => isExpressionValue value end.
Definition isExpressionContentValid (value : cell) : bool :=
  match value with
  | Expr _ _ => true
  | Plain (JStr s) => isExpressionMode s || isExpressionValue value
  | Plain _ => false
  end.

(** [normalizeLiteralCandidate(value)] *)
Definition literal_in (own : jsobj) (self : cell) : cell :=
  let value := match oprop own "value" with JStr s => text_cell s | _ => self end in
  match oprop own "_expr" with
  | JStr s => if trim s =s "" then value else text_cell (trim s)
  | _ => value
  end.
Definition normalizeLiteralCandidate (value : cell) : cell :=
  match value with
  | Expr _ own => literal_in own value
  | Plain (JObj o) => literal_in o value
  | Plain _ => value
  end.

(** [shouldWrapAsRawExpression(value)], on text *)
Definition name_re : re := Then (Char ident_start) (Many (Char word_char)).
Definition name_step : re :=
  Either (Then (lit ".") name_re) (Then (lit "[") (Then (some_of (Char is_digit)) (lit "]"))).
Definition raw_re : re := Then name_re (Many name_step).
Definition shouldWrapAsRawExpression (value : string) : bool :=
  let trimmed := trim value in negb (trimmed =s "") && matches raw_re trimmed.

(** [{{ ... }}] around an expression: the group of the pattern, trimmed *)
Definition braces_body (s : string) : option string :=
  match strip_prefix "{{" s with
  | Some r => match strip_suffix "}}" r with Some b => Some (trim b) | None => None end
  | None => None
  end.

(** [unwrapExpressionBody(value)] *)
Definition unwrapExpressionBody (value : cell) : option string :=
  match value with
  | Expr t _ => Some t
  | Plain (JStr s) => braces_body (trim (stripExpressionPrefix s))
  | Plain _ => None
  end.

(** [s.startsWith(q) && s.endsWith(q)] and [s.slice(1, -1)], for one character *)
Definition quoted_by (q : ascii) (s : string) : bool :=
  match strip_prefix (String q "") s, strip_suffix (String q "") s with Some _, Some _ => true | _, _ => false end.
Definition inside (s : string) : string := slice 1 (String.length s - 1) s.

(** Decimal numbers, as the pattern of the program has them, and their value. *)
Definition decimal_re : re :=
  Then (maybe (lit "-")) (Then (some_of (Char is_digit)) (maybe (Then (lit ".") (some_of (Char is_digit))))).
Definition digit_value (c : ascii) : Z := Z.of_nat (nat_of_ascii c - 48).
Definition digits_value (s : string) : Z := foldl (λ acc c, (10 * acc + digit_value c)%Z) 0%Z (list_ascii_of_string s).
Definition decimal_value (s : string) : num :=
  let '(sign, body) := match strip_prefix "-" s with Some r => ((-1)%Z, r) | None => (1%Z, s) end in
  let '(whole, rest) := span is_digit body in
  let fraction := match rest with String _ f => f | EmptyString => "" end in
  (num_of_Z sign * (num_of_Z (digits_value whole) +
    num_of_Z (digits_value fraction) / num_of_Z (10 ^ Z.of_nat (String.length fraction))))%Qc.

(** ** The editor of Odoo for a field, and the one made of it *)

Record editor_info := EditorInfo {
  ei_component : bool;
  ei_isSupported : cell → bool;
  ei_defaultValue : cell;
  ei_stringify : option (cell → bool → string);
  ei_message : option string;
}.

Section editor.
(** [JSON.stringify] and [JSON.parse], [formatValue] of Odoo, and [String]. *)
Context (stringify : jsval → string) (parse : string → option jsval).
Context (formatValue String_ : cell → string).

(** [getWorkflowValueEditorInfo(fieldDef, operator, options)], from what Odoo gives *)
Definition workflow_stringify (val : cell) (disambiguate : bool) : string :=
  match val with
  | Expr t _ => t
  | _ => if isExpressionValue val then String_ val else if disambiguate then formatValue val else String_ val
  end.
Definition getWorkflowValueEditorInfo (native : editor_info) : editor_info :=
  if negb (ei_component native) then native
  else EditorInfo true
    (λ value, ei_isSupported native value || isExpressionValue value || (match value with Expr _ _ => true | _ => false end))
    (ei_defaultValue native)
    (Some (default workflow_stringify (ei_stringify native)))
    (Some (match ei_message native with Some m => if m =s "" then "Value not supported" else m | None => "Value not supported" end)).

(** [toExpressionSeed(value)] *)
Definition cell_json (value : cell) : string :=
  match value with Plain v => stringify v | Expr _ own => stringify (JObj own) end.
Definition toExpressionSeed (value : cell) : string :=
  let normalized := normalizeLiteralCandidate value in
  match normalized with
  | Plain (JStr s) =>
      if isExpressionMode s then s
      else if isExpressionValue normalized then ensureExpressionPrefix s
      else if shouldWrapAsRawExpression s then ensureExpressionPrefix (wrapExpression (trim s))
      else ensureExpressionPrefix (wrapExpression (cell_json normalized))
  | _ => ensureExpressionPrefix (wrapExpression (cell_json normalized))
  end.

(** [toLiteralSeed(expressionValue, fallbackValue)] *)
Definition literal_of_body (inner : string) : jsval :=
  if quoted_by quote2 inner then default (JStr (inside inner)) (parse inner)
  else if quoted_by quote1 inner then JStr (inside inner)
  else if matches decimal_re inner then JNum (decimal_value inner)
  else if inner =s "True" then JBool true
  else if inner =s "False" then JBool false
  else if inner =s "None" then JNull
  else JStr inner.
Definition toLiteralSeed (expressionValue fallbackValue : cell) : cell :=
  match unwrapExpressionBody expressionValue with
  | Some inner => Plain (literal_of_body inner)
  | None =>
      match expressionValue with
      | Plain (JStr s) => text_cell (stripExpressionPrefix s)
      | _ => normalizeLiteralCandidate fallbackValue
      end
  end.

(** ** The component *)

(** The props: the value and what the default of the native editor is. *)
Record value_props := ValueProps { vp_value : cell; vp_default : cell }.

(** [state], and the two fields of the component; [ve_expression] is that the mode
    is ["expression"]. *)
Record value_editor := ValueEditor {
  ve_expression : bool;
  ve_valid : bool;
  ve_explicit : bool;
  ve_dragOver : bool;
  ve_dragAutoToggled : bool;
  ve_dragEnterCount : Z;
}.

(** [setup()] and the callback of [onWillUpdateProps] *)
Definition value_setup (p : value_props) : value_editor :=
  ValueEditor (shouldUseExpressionMode (vp_value p)) (isExpressionContentValid (vp_value p)) false false false 0.
Definition value_props_change (next : cell) (s : value_editor) : value_editor :=
  ValueEditor (if ve_explicit s then ve_expression s else shouldUseExpressionMode next) (isExpressionContentValid next)
    (ve_explicit s) (ve_dragOver s) (ve_dragAutoToggled s) (ve_dragEnterCount s).

(** [expressionValue] *)
Definition expressionValue (p : value_props) : string :=
  match vp_value p with
  | Expr t _ => ensureExpressionPrefix (wrapExpression t)
  | Plain (JStr s) => if shouldUseExpressionMode (vp_value p) && negb (isExpressionMode s) then ensureExpressionPrefix s else s
  | Plain _ => ""
  end.

Definition with_mode (expression explicit : bool) (s : value_editor) : value_editor :=
  ValueEditor expression (ve_valid s) explicit (ve_dragOver s) (ve_dragAutoToggled s) (ve_dragEnterCount s).
Definition with_value_drag (expression over auto : bool) (count : Z) (s : value_editor) : value_editor :=
  ValueEditor expression (ve_valid s) (ve_explicit s) over auto count.

(** [toggleMode()]; the list is the calls of [props.update] *)
Definition seeds (current : cell) : bool :=
  match current with
  | Plain JUndef | Plain (JBool false) | Plain (JStr "") => false
  | _ => negb (isExpressionLike current)
  end.
Definition toggleMode (p : value_props) (s : value_editor) : value_editor * list cell :=
  if ve_expression s then (with_mode false true s, [toLiteralSeed (vp_value p) (vp_default p)])
  else
    let current := normalizeLiteralCandidate (vp_value p) in
    (with_mode true true s, if seeds current then [text_cell (toExpressionSeed current)] else []).

(** [onDragEnter(ev)], [onDragLeave(ev)] and [onDrop(ev)]; [isExpressionDrag] is
    what [_isExpressionDrag(ev)] tells. *)
Definition value_onDragEnter (isExpressionDrag : bool) (s : value_editor) : value_editor :=
  if negb isExpressionDrag then s
  else with_value_drag true true (if ve_expression s then ve_dragAutoToggled s else true) (ve_dragEnterCount s + 1) s.
Definition value_onDragLeave (isExpressionDrag : bool) (s : value_editor) : value_editor :=
  if negb isExpressionDrag then s
  else
    let count := (ve_dragEnterCount s - 1)%Z in
    if (0 <? count)%Z then with_value_drag (ve_expression s) (ve_dragOver s) (ve_dragAutoToggled s) count s
    else with_value_drag (if ve_dragAutoToggled s then false else ve_expression s) false false count s.
Definition value_onDrop (t : transfer) (s : value_editor) : value_editor * list cell :=
  let expr := if tr_expression t =s "" then tr_path t else tr_expression t in
  if negb (expr =s "") then
    (with_mode true true (with_value_drag (ve_expression s) false false 0 s), [text_cell (ensureExpressionPrefix expr)])
  else (with_value_drag (if ve_dragAutoToggled s then false else ve_expression s) false false 0 s, []).

(** [onExpressionModeChange(mode)], [onExpressionChange(newVal)] *)
Definition onExpressionModeChange (p : value_props) (mode : string) (s : value_editor) : value_editor * list cell :=
  if (mode =s "fixed") && ve_expression s then toggleMode p s else (s, []).
Definition onExpressionChange (newVal : string) (s : value_editor) : value_editor * list cell :=
  (ValueEditor (ve_expression s) (isExpressionContentValid (text_cell newVal)) (ve_explicit s) (ve_dragOver s)
     (ve_dragAutoToggled s) (ve_dragEnterCount s), [text_cell newVal]).

(** The warning below the input. *)
Definition shows_invalid (p : value_props) (s : value_editor) : bool :=
  ve_expression s && negb (ve_valid s) && negb (expressionValue p =s "").

(** *** The input inside *)

(** The props of the [ExpressionInput]. *)
Definition inner_props (context : jsobj) (suggestions : jsval) (p : value_props) : props :=
  Props (JStr (expressionValue p)) "" (Some context) false (JStr "expression") (JStr "side") false
    JUndef JUndef suggestions true None.

(** What its calls do to the editor around it. *)
Definition value_told (p : value_props) (x : value_editor * list cell) (c : call) : value_editor * list cell :=
  let '(s, us) := match c with
    | CallChange v => onExpressionChange v x.1
    | CallModeChange m => onExpressionModeChange p m x.1
    end in (s, x.2 ++ us).

(** A drop on the input: it answers first, then the editor around it, which gets
    the same event. *)
Definition drop_on_input (num_toString : num → string) (context : jsobj) (suggestions : jsval) (p : value_props)
    (t : transfer) (selection : option (nat * nat)) (f : field) (s : value_editor) : field * value_editor * list cell :=
  let '(f, calls) := onDrop num_toString parse (inner_props context suggestions p) t selection f in
  let '(s, us) := foldl (value_told p) (s, []) calls in
  let '(s, us') := value_onDrop t s in
  (f, s, us ++ us').

End editor.

(** ** Braces and quotes *)

Lemma strip_suffix_app t s : strip_suffix t (s +:+ t) = Some s.
Proof.
  induction s as [|c s IH].
  - change (strip_suffix t t = Some ""). destruct t; cbn [strip_suffix]; by rewrite bool_decide_true.
  - change (String c s +:+ t) with (String c (s +:+ t)). cbn [strip_suffix]. rewrite IH, bool_decide_false; [done|].
    intros E. apply (f_equal String.length) in E. simpl in E. rewrite str_app_length in E. lia.
Qed.

Lemma strip_app p s : strip_prefix p (p +:+ s) = Some s.
Proof. apply strip_prefix_app. Qed.

Lemma wrapped_tight e : tight (wrapExpression e).
Proof.
  unfold wrapExpression, tight. split_and!; [done| |done].
  rewrite <- str_app_assoc. by apply (trim_end_app _ " }}").
Qed.

(** What a seed made of [e] is read back as. *)
Lemma seed_body e : tight e → unwrapExpressionBody (text_cell (ensureExpressionPrefix (wrapExpression e))) = Some e.
Proof.
  intros He. unfold unwrapExpressionBody, text_cell. change (ensureExpressionPrefix (wrapExpression e)) with ("=" +:+ wrapExpression e).
  rewrite strip_marked, trim_tight by apply wrapped_tight. unfold braces_body, wrapExpression.
  change ("{{ " +:+ e +:+ " }}") with ("{{" +:+ (" " +:+ e +:+ " }}")). rewrite strip_app.
  assert (" " +:+ e +:+ " }}" = (" " +:+ e +:+ " ") +:+ "}}") as ->.
  { rewrite !str_app_assoc. done. }
  rewrite strip_suffix_app. f_equal. by apply trim_spaces.
Qed.

Lemma substring_inside a s z : String.substring 1 (String.length s) (String a s +:+ z) = s.
Proof. change (String.substring 0 (String.length s) (s +:+ z) = s). apply substring_take. Qed.

(** A quoted text. *)
Lemma quoted_text (q : ascii) b :
  let t := String q (b +:+ String q "") in quoted_by q t = true ∧ inside t = b.
Proof.
  cbv zeta. split.
  - unfold quoted_by. change (String q (b +:+ String q "")) with (String q "" +:+ (b +:+ String q "")) at 1. rewrite strip_app.
    change (String q (b +:+ String q "")) with (String q b +:+ String q ""). by rewrite strip_suffix_app.
  - unfold inside, slice. simpl String.length. rewrite str_app_length. simpl String.length.
    replace (S (String.length b + 1) - 1 - 1)%nat with (String.length b) by lia. apply substring_inside.
Qed.

Lemma quoted_tight b : tight (String quote2 (b +:+ String quote2 "")).
Proof. split_and!; [done| |done]. change (String quote2 (b +:+ String quote2 "")) with (String quote2 b +:+ String quote2 ""). by apply trim_end_app. Qed.

(** Text that does not begin with a quote is not quoted. *)
Lemma not_quoted q s : (∀ r, s ≠ String q r) → quoted_by q s = false.
Proof.
  intros H. unfold quoted_by. destruct (strip_prefix (String q "") s) as [r|] eqn:E; [|done].
  apply strip_prefix_inv in E. by destruct (H r).
Qed.

Lemma in_char_inv f s : in_re (Char f) s → ∃ c, s = String c "" ∧ f c = true.
Proof. inversion 1; subst. eauto. Qed.

(** A name is no number and begins with a letter or an underscore. *)
Lemma raw_start s : matches raw_re s = true → ∃ c r, s = String c r ∧ ident_start c = true.
Proof.
  rewrite matches_spec. intros (u & v & -> & (x & y & -> & (c & -> & Hc)%in_char_inv & _)%in_then_inv & _)%in_then_inv.
  exists c, (y +:+ v). done.
Qed.

Lemma decimal_start s : matches decimal_re s = true → ∃ c r, s = String c r ∧ ident_start c = false.
Proof.
  rewrite matches_spec. intros (u & v & -> & Hu & Hv)%in_then_inv.
  apply in_either_inv in Hu as [(a & b & -> & (c & -> & Hc)%in_char_inv & Hb)%in_then_inv|Hu].
  - apply bool_decide_eq_true in Hc as ->. inversion Hb; subst. by exists "-"%char, v.
  - inversion Hu; subst. apply in_then_inv in Hv as (a & b & -> & (x & y & -> & (c & -> & Hc)%in_char_inv & _)%in_then_inv & _).
    exists c, (y +:+ b). split; [done|]. by destruct c as [[] [] [] [] [] [] [] []].
Qed.

(** ** Text and numbers survive the button *)

(** What the program relies on of [JSON]. *)
Class Json (stringify : jsval → string) (parse : string → option jsval) := {
  json_text s : parse (stringify (JStr s)) = Some (JStr s);
  json_quoted s : ∃ b, stringify (JStr s) = String quote2 (b +:+ String quote2 "");
  json_true : stringify (JBool true) = "true";
  json_null : stringify JNull = "null";
  json_array l : ∃ b, stringify (JArr l) = "[" +:+ b +:+ "]";
  json_number n : tight (stringify (JNum n)) ∧
    ∃ c r, stringify (JNum n) = String c r ∧ (is_digit c || bool_decide (c = "-"%char) = true);
  json_decimal n : matches decimal_re (stringify (JNum n)) = true → decimal_value (stringify (JNum n)) = n;
}.

Section toggling.
Context (stringify : jsval → string) (parse : string → option jsval) `{!Json stringify parse}.

(** The constants of Python. *)
Definition constant_of (s : string) : jsval :=
  if s =s "True" then JBool true else if s =s "False" then JBool false else if s =s "None" then JNull else JStr s.

(** What the value is after it was made an expression and a literal again. *)
Definition toggled_back (v : jsval) : jsval :=
  match v with
  | JStr s => if shouldWrapAsRawExpression s then constant_of (trim s) else v
  | JNum n => if matches decimal_re (stringify v) then v else JStr (stringify v)
  | _ => JStr (stringify v)
  end.

(** A literal value that is not an object, for which an expression is made. *)
Definition seeded (v : jsval) : bool :=
  match v with
  | JStr s => negb (s =s "") && negb (isExpressionMode s)
  | JUndef | JBool false | JObj _ => false
  | _ => true
  end.

Lemma word_literal s : (∃ c r, s = String c r ∧ ident_start c = true) → literal_of_body parse s = constant_of s.
Proof using Type.
  intros (c & r & -> & Hc). unfold literal_of_body.
  rewrite !not_quoted by (intros r' [= -> _]; by vm_compute in Hc).
  destruct (matches decimal_re (String c r)) eqn:Ed; [|done].
  apply decimal_start in Ed as (? & ? & [= <- <-] & ?). congruence.
Qed.

Lemma other_literal c r :
  bool_decide (c = quote1) || bool_decide (c = quote2) || ident_start c = false →
  literal_of_body parse (String c r) =
  if matches decimal_re (String c r) then JNum (decimal_value (String c r)) else JStr (String c r).
Proof using Type.
  intros [[H1 H2]%orb_false_iff H3]%orb_false_iff. apply bool_decide_eq_false in H1, H2. unfold literal_of_body.
  rewrite !not_quoted by (intros r' [= -> _]; done). destruct (matches decimal_re (String c r)); [done|].
  rewrite !bool_decide_false; [done|intros [= -> _]; by vm_compute in H3..].
Qed.

Lemma trim_ends s : trim s ≠ "" → tight (trim s).
Proof using Type.
  intros H. unfold tight, trim in *. split_and!; [|apply trim_end_idem|done].
  apply trim_start_trim_end, trim_start_idem.
Qed.

(** The seed of a value, and what it is read back as. *)
Lemma seed_of v : seeded v = true → ∃ e, tight e ∧
  toExpressionSeed stringify (Plain v) = ensureExpressionPrefix (wrapExpression e) ∧ literal_of_body parse e = toggled_back v.
Proof using All.
  intros Hs. destruct v as [| |[]|n|s|l|o]; try done.
  - exists "null". split; [by vm_compute|]. unfold toExpressionSeed. cbn [normalizeLiteralCandidate cell_json toggled_back].
    by rewrite json_null.
  - exists "true". split; [by vm_compute|]. unfold toExpressionSeed. cbn [normalizeLiteralCandidate cell_json toggled_back].
    by rewrite json_true.
  - destruct (json_number n) as [Ht (c & r & E & Hc)]. exists (stringify (JNum n)). split; [done|]. split; [done|].
    cbn [toggled_back]. rewrite E at 1. rewrite other_literal; [rewrite <- E|].
    + destruct (matches decimal_re (stringify (JNum n))) eqn:Ed; [|done]. by rewrite json_decimal.
    + apply orb_prop in Hc as [Hc|Hc]; [by destruct c as [[] [] [] [] [] [] [] []]|by apply bool_decide_eq_true in Hc as ->].
  - apply andb_prop in Hs as [Hne Hm]. apply negb_true_iff in Hm. unfold toExpressionSeed. cbn [normalizeLiteralCandidate isExpressionValue toggled_back].
    rewrite Hm. destruct (shouldWrapAsRawExpression s) eqn:Ew.
    + apply andb_prop in Ew as [Et%negb_true_iff%bool_decide_eq_false Er]. exists (trim s).
      split; [by apply trim_ends|]. split; [done|]. by apply word_literal, raw_start.
    + destruct (json_quoted s) as [b Eb]. exists (stringify (JStr s)). split; [rewrite Eb; apply quoted_tight|]. split; [done|].
      unfold literal_of_body. rewrite Eb. rewrite (proj1 (quoted_text quote2 b)), <- Eb. by rewrite json_text.
  - destruct (json_array l) as [b Eb]. exists (stringify (JArr l)). split; [|split; [done|]].
    + rewrite Eb. split_and!; [done| |done]. rewrite <- str_app_assoc. by apply trim_end_app.
    + cbn [toggled_back]. rewrite Eb. change ("[" +:+ b +:+ "]") with (String "[" (b +:+ "]")). rewrite other_literal by done.
      destruct (matches decimal_re (String "[" (b +:+ "]"))) eqn:Ed; [|done].
      exfalso. apply matches_spec, in_then_inv in Ed as (u & v & E & Hu & Hv).
      apply in_either_inv in Hu as [(x & y & -> & (c & -> & Hc)%in_char_inv & Hb)%in_then_inv|Hu].
      * apply bool_decide_eq_true in Hc as ->. done.
      * inversion Hu; subst. apply in_then_inv in Hv as (x & y & -> & (z & w & -> & (c & -> & Hc)%in_char_inv & _)%in_then_inv & _).
        injection E as <- _. by vm_compute in Hc.
Qed.
End toggling.

(** A literal value that is no object and no text that begins with [=]; what an
    undefined value, [false] and the empty text come back as. *)
Definition plain_literal (v : jsval) : bool :=
  match v with
  | JStr s => negb (isExpressionMode s)
  | JObj _ => false
  | _ => true
  end.
Definition unseeded_back (v : jsval) (fallback : cell) : cell :=
  match v with JStr _ => text_cell "" | _ => normalizeLiteralCandidate fallback end.

(** C20: The button makes an expression of a literal value and a second press makes a
    literal of it again; the mode is then literal, chosen by hand.  This is for any
    value but objects and texts that begin with [=], which are expressions already.
    What the parent stores in between: an expression, or still the value when it is
    undefined, [false] or the empty text.  What it stores in the end
    ([toggled_back]): a text is as it was, but for a name or a path of names, which
    loses the blanks around it and, when it is [True], [False] or [None], becomes this
    value; a number is as it was when it is printed as a decimal; the empty text is
    as it was; for undefined and [false] it is the default of the native editor; of
    anything else ([true], [null], an array, another number) it is its JSON text. *)
Theorem value_toggled_twice stringify parse `{!Json stringify parse} v fallback s :
  plain_literal v = true → ve_expression s = false →
  let '(s1, us1) := toggleMode stringify parse (ValueProps (Plain v) fallback) s in
  ve_expression s1 = true ∧ ∃ stored,
  (if seeded v then us1 = [stored] ∧ isExpressionValue stored = true else us1 = [] ∧ stored = Plain v) ∧
  let '(s2, us2) := toggleMode stringify parse (ValueProps stored fallback) (value_props_change stored s1) in
  ve_expression s2 = false ∧ ve_explicit s2 = true ∧
  us2 = [if seeded v then Plain (toggled_back stringify v) else unseeded_back v fallback].
Proof.
  intros Hp Hl. unfold toggleMode at 1. rewrite Hl. cbn [vp_value].
  assert (normalizeLiteralCandidate (Plain v) = Plain v) as Hn by by destruct v.
  rewrite Hn. split; [done|]. destruct (seeded v) eqn:Hs.
  - destruct (seed_of stringify parse v Hs) as (e & He & Hseed & Hback).
    assert (seeds (Plain v) = true) as Hse by (destruct v as [| |[]| |[]| |]; first [discriminate Hs|done]).
    rewrite Hse, Hseed. eexists. split; [done|].
    unfold toggleMode. cbn. unfold toLiteralSeed. rewrite (seed_body e He). by rewrite Hback.
  - exists (Plain v). assert (v = JUndef ∨ v = JBool false ∨ v = JStr "") as [->|[->| ->]]; [|done..].
    destruct v as [| |[]| |[]| |]; try discriminate Hs; try discriminate Hp; [by left|by eauto..|].
    cbn in Hs, Hp. by rewrite Hp in Hs.
Qed.

(** ** Dragging *)

Definition value_drag (s : value_editor) (enter : bool) : value_editor :=
  if enter then value_onDragEnter true s else value_onDragLeave true s.

(** Enters and leaves, of the editor and of its parts, that come in pairs. *)
Fixpoint paired (depth : nat) (evs : list bool) : bool :=
  match evs with
  | [] => Nat.eqb depth 0
  | true :: evs => paired (S depth) evs
  | false :: evs => match depth with O => false | S depth => paired depth evs end
  end.

(** the editor under a drag that is [depth] elements deep in it *)
Definition dragged (s : value_editor) (depth : nat) : value_editor :=
  match depth with
  | O => s
  | S _ => with_value_drag true true (negb (ve_expression s)) (Z.of_nat depth) s
  end.

(** A drag that goes over the editor and away shows the expression input for as
    long, and leaves the editor as it was. *)
Theorem drag_over_reverts s evs depth :
  ve_dragEnterCount s = 0%Z → ve_dragAutoToggled s = false → ve_dragOver s = false →
  paired depth evs = true → foldl value_drag (dragged s depth) evs = s.
Proof.
  intros Hc Ha Ho. assert (∀ d, value_onDragEnter true (dragged s d) = dragged s (S d)) as Henter.
  { intros d. destruct s as [x v e o a c], d as [|d]; cbn in *; subst; [by destruct x|].
    unfold value_onDragEnter, with_value_drag. cbn. f_equal. lia. }
  assert (∀ d, value_onDragLeave true (dragged s (S d)) = dragged s d) as Hleave.
  { intros d. destruct s as [x v e o a c]. cbn in Hc, Ha, Ho. subst. unfold value_onDragLeave. cbn [negb dragged with_value_drag ve_dragEnterCount].
    destruct d as [|d].
    - change (0 <? Z.of_nat 1 - 1)%Z with false. by destruct x.
    - destruct (Z.ltb_spec 0 (Z.of_nat (S (S d)) - 1)); [|lia]. unfold dragged, with_value_drag. cbn [ve_expression ve_dragOver ve_dragAutoToggled ve_valid ve_explicit].
      f_equal. lia. }
  revert depth. induction evs as [|[] evs IH]; intros depth Hp; cbn [paired] in Hp.
  - apply Nat.eqb_eq in Hp as ->. done.
  - cbn [foldl value_drag]. rewrite Henter. by apply IH.
  - destruct depth as [|depth]; [done|]. cbn [foldl value_drag]. rewrite Hleave. by apply IH.
Qed.

(** While it lasts, a text that is no expression is marked as invalid. *)
Example drag_warns :
  let p := ValueProps (text_cell "draft") (text_cell "") in
  shows_invalid p (value_setup p) = false ∧ shows_invalid p (value_onDragEnter true (value_setup p)) = true.
Proof. done. Qed.

(** ** A drop on the input *)

Lemma input_drop num_toString parse p t selection f :
  p_onDrop p = None → tr_expression t ≠ "" →
  ∃ v, onDrop num_toString parse p t selection f =
    (with_suggestions false (f_activeSuggestionIndex f)
       (with_local (insert_text (f_localValue f) (tr_expression t) selection) (f_localMode f) (with_drag false 0 f)), [CallChange v]).
Proof.
  intros Ho Ht. unfold onDrop. rewrite Ho. cbn [truthy andb getDropPayload dp_expression dp_path].
  rewrite !(bool_decide_false (tr_expression t = "")) by done. by eexists.
Qed.

(** C39: A field dropped into the text of an expression: the input puts it in at the
    caret and tells so, and then the editor around it, which gets the same event,
    makes the field alone the value.  An input that has the focus goes on showing
    the text that is no longer stored. *)
Theorem drop_forgets_text stringify parse num_toString context suggestions p t selection f s :
  tr_expression t ≠ "" → f_isFocused f = true →
  let '(f', s', us) := drop_on_input stringify parse num_toString context suggestions p t selection f s in
  let stored := text_cell (ensureExpressionPrefix (tr_expression t)) in
  last us = Some stored ∧ ve_expression s' = true ∧
  f_localValue f' = insert_text (f_localValue f) (tr_expression t) selection ∧
  onWillUpdateProps (inner_props context suggestions p) (inner_props context suggestions (ValueProps stored (vp_default p))) f' = f'.
Proof.
  intros Ht Hf. unfold drop_on_input.
  destruct (input_drop num_toString parse (inner_props context suggestions p) t selection f eq_refl Ht) as [v ->].
  cbn [foldl value_told onExpressionChange fst snd app]. unfold value_onDrop. rewrite !(bool_decide_false (tr_expression t = "")) by done.
  cbn [negb]. split_and!; [done|done|done|]. by apply focused_keeps.
Qed.

(** ** Examples *)

Module ValueDemo.
(** Enough of [JSON] for the examples. *)
Definition stringify (v : jsval) : string :=
  match v with
  | JStr s => String quote2 (s +:+ String quote2 "")
  | JNum n => if bool_decide (n = num_of_Z 5) then "5" else "0e0"
  | JBool true => "true"
  | JNull => "null"
  | JArr _ => "[]"
  | _ => "{}"
  end.
Definition parse (s : string) : option jsval := if quoted_by quote2 s then Some (JStr (inside s)) else None.

#[export] Instance demo_json : Json stringify parse.
Proof.
  split.
  - intros s. unfold parse, stringify. destruct (quoted_text quote2 s) as [-> ->]. done.
  - intros s. by exists s.
  - done.
  - done.
  - intros l. by exists "".
  - intros n. unfold stringify. case_bool_decide; split; try by vm_compute.
    + by exists "5"%char, "".
    + by exists "0"%char, "e0".
  - intros n. unfold stringify. case_bool_decide as H; [intros _; subst; by apply Qc_is_canon|by vm_compute].
Qed.

(** The text [True] comes back as a boolean, [true] as text. *)
Example constants_change :
  toggled_back stringify (JStr "True") = JBool true ∧ toggled_back stringify (JBool true) = JStr "true" ∧
  toggled_back stringify (JStr "sale order") = JStr "sale order" ∧ toggled_back stringify JNull = JStr "null".
Proof. by vm_compute. Qed.

Lemma value_toggled_twice_witness :
  let s := value_setup (ValueProps (text_cell "won deal") (text_cell "")) in
  (toggleMode stringify parse (ValueProps (text_cell "won deal") (text_cell "")) s).1 = with_mode true true s ∧
  ∃ e, isExpressionMode e = true ∧
    (toggleMode stringify parse (ValueProps (text_cell e) (text_cell ""))
       (value_props_change (text_cell e) (with_mode true true s))).2 = [text_cell "won deal"].
Proof.
  set (s := value_setup (ValueProps (text_cell "won deal") (text_cell ""))).
  pose proof (value_toggled_twice stringify parse (JStr "won deal") (text_cell "") s eq_refl eq_refl) as H.
  cbv zeta. split; [done|].
  destruct (toggleMode stringify parse (ValueProps (Plain (JStr "won deal")) (text_cell "")) s) as [s1 us1] eqn:E.
  destruct H as (_ & stored & [Hus He] & H). assert (∃ e, stored = text_cell e) as [e ->].
  { destruct stored as [[| | | |e| |]|]; try discriminate He. by exists e. }
  exists e. split; [exact He|].
  assert (s1 = with_mode true true s) as -> by exact (eq_sym (f_equal fst E)).
  destruct (toggleMode stringify parse (ValueProps (text_cell e) (text_cell "")) _) as [s2 us2]. destruct H as (_ & _ & ->). reflexivity.
Defined.

Lemma drag_over_reverts_witness :
  let s := value_setup (ValueProps (text_cell "draft") (text_cell "")) in
  foldl value_drag s [true; true; false; true; false; false] = s.
Proof. intros s. apply (drag_over_reverts s [true; true; false; true; false; false] 0); done. Defined.

(** A word typed before the field is lost. *)
Lemma drop_forgets_text_witness :
  let p := ValueProps (text_cell "=Dear ") (text_cell "") in
  let f := with_focus true false (ExpressionInput.setup (inner_props [] JUndef p)) in
  let '(f', _, us) := drop_on_input stringify parse (λ _, "") [] JUndef p (Transfer "{{ _json.name }}" "_json.name" "name" "") None f (value_setup p) in
  f_localValue f' = "Dear {{ _json.name }}" ∧ last us = Some (text_cell "={{ _json.name }}").
Proof.
  intros p f. pose proof (drop_forgets_text stringify parse (λ _, "") [] JUndef p (Transfer "{{ _json.name }}" "_json.name" "name" "") None f
    (value_setup p) ltac:(done) ltac:(done)) as H.
  destruct (drop_on_input _ _ _ _ _ _ _ _ _ _) as [[f' s'] us]. destruct H as (Hl & _ & Hv & _).
  split; [rewrite Hv; reflexivity|exact Hl].
Defined.
End ValueDemo.
