(* ===== verification/DomainBuilder.v ===== *)
(** * The tree of conditions (components/domain_builder/workflow_tree_editor.js)

    A domain is edited as a tree of conditions.  The editor works on a copy of the
    tree it is given, tells its parent after each change, and gets a tree back in
    which the operators [set] and [not_set] may have become [!=] and [=]; these it
    restores.  What the program uses of Odoo's trees are the constructors
    [condition] and [connector], which build a tree that is not negated, the
    printing of values and the defaults of fields; a node is named by its place,
    the indices on the way to it.

    The tree of conditions first, then the builder around it. *)

From S2P Require Import Prelude JsMap JsValue JsString Expression Suggestions ExpressionInput ValueEditor.

(** ** Trees *)

Inductive tree :=
| Condition (negate : bool) (path operator value : cell)
| Connector (negate : bool) (value : string) (children : list tree)
| Complex (value : string).

(** [condition(path, operator, value)], [connector(value, children)] *)
Definition condition (path operator value : cell) : tree := Condition false path operator value.
Definition connector (value : string) (children : list tree) : tree := Connector false value children.

Section tree_ind.
Context (P : tree → Prop) (Hcond : ∀ n p o v, P (Condition n p o v)) (Hcomp : ∀ v, P (Complex v)).
Context (Hconn : ∀ n v cs, Forall P cs → P (Connector n v cs)).

Fixpoint tree_nested_ind (t : tree) : P t :=
  match t with
  | Condition n p o v => Hcond n p o v
  | Complex v => Hcomp v
  | Connector n v cs =>
      Hconn n v cs ((fix go cs : Forall P cs := match cs with [] => Forall_nil_2 _ | c :: cs => Forall_cons_2 _ _ _ (tree_nested_ind c) (go cs) end) cs)
  end.
End tree_ind.

(** [v === s], for a text [s] *)
Definition cell_is (s : string) (v : cell) : bool := match v with Plain (JStr x) => x =s s | _ => false end.

(** [shallowEqual(tree, TRUE_TREE)] *)
Definition one : cell := Plain (JInt 1).
Definition is_one (v : cell) : bool := match v with Plain x => strict_eq x (JInt 1) | Expr _ _ => false end.
Definition is_true_tree (t : tree) : bool :=
  match t with Condition n p o v => negb n && is_one p && cell_is "=" o && is_one v | _ => false end.

(** ** Places *)

Abbreviation place := (list nat).

Fixpoint node_at (at_ : place) (t : tree) : option tree :=
  match at_, t with
  | [], _ => Some t
  | i :: at_, Connector _ _ cs => match cs !! i with Some c => node_at at_ c | None => None end
  | _, _ => None
  end.

(** A change of the node at a place, which the program makes on the object. *)
Fixpoint change_at (at_ : place) (f : tree → tree) (t : tree) : tree :=
  match at_, t with
  | [], _ => f t
  | i :: at_, Connector n v cs => Connector n v (alter (change_at at_ f) i cs)
  | _, _ => t
  end.

Definition set_operator (operator : string) (t : tree) : tree :=
  match t with Condition n p _ v => Condition n p (text_cell operator) v | _ => t end.

Section operators.
(** [formatValue] of Odoo *)
Context (formatValue : cell → string).

(** ** Restoring operators *)

Inductive diff := Other | Replacement (at_ : place) (operator : string).

Definition is_other (d : diff) : bool := match d with Other => true | Replacement _ _ => false end.
Definition below (i : nat) (d : diff) : diff := match d with Other => Other | Replacement at_ o => Replacement (i :: at_) o end.

(** [collectDifferences(tree, otherTree)]: its loop over the children of two
    connectors, and the whole *)
Definition children_diffs (collect : tree → tree → list diff) :=
  fix loop (i : nat) (diffs : list diff) (cs cs' : list tree) : list diff :=
    match cs, cs' with
    | child :: cs, otherChild :: cs' =>
        let childDiffs := collect child otherChild in
        if existsb is_other childDiffs then [Other] else loop (S i) (diffs ++ (below i <$> childDiffs)) cs cs'
    | _, _ => diffs
    end.
Fixpoint collectDifferences (t other : tree) : list diff :=
  match t, other with
  | Condition n p o v, Condition n' p' o' v' =>
      if negb (Bool.eqb n n') then [Other]
      else if negb (formatValue p =s formatValue p') then [Other]
      else if negb (formatValue v =s formatValue v') then [Other]
      else if negb (formatValue o =s formatValue o') then
        if cell_is "!=" o && cell_is "set" o' then [Replacement [] "set"]
        else if cell_is "=" o && cell_is "not_set" o' then [Replacement [] "not_set"]
        else [Other]
      else []
  | Connector n v cs, Connector n' v' cs' =>
      if negb (Bool.eqb n n') then [Other]
      else if negb (v =s v') then [Other]
      else if negb (Nat.eqb (length cs) (length cs')) then [Other]
      else
        children_diffs collectDifferences 0 [] cs cs'
  | Complex v, Complex v' => if v =s v' then [] else [Other]
  | _, _ => [Other]
  end.

(** [restoreVirtualOperators(tree, otherTree)] *)
Definition replace_operator (t : tree) (d : diff) : tree :=
  match d with Other => t | Replacement at_ o => change_at at_ (set_operator o) t end.
Definition restoreVirtualOperators (t other : tree) : tree :=
  let diffs := collectDifferences t other in
  if existsb is_other diffs then t else foldl replace_operator t diffs.

(** ** The editor *)

(** [this.tree] and [this.previousTree] *)
Record tree_editor := TreeEditor { te_tree : tree; te_previous : option tree }.

(** [onPropsUpdated(props)], as far as the tree goes; the rest loads fields. *)
Definition as_connector (defaultConnector : string) (t : tree) : tree :=
  if is_true_tree t then connector defaultConnector []
  else match t with Connector _ _ _ => t | _ => connector defaultConnector [t] end.
Definition tree_props (defaultConnector : string) (given : tree) (previous : option tree) : tree_editor :=
  let t := as_connector defaultConnector given in
  match previous with
  | Some p => TreeEditor (restoreVirtualOperators t p) None
  | None => TreeEditor t None
  end.

(** [notifyChanges()] after a change of the tree; what is told is the tree. *)
Definition notifyChanges (t : tree) : tree_editor * tree := (TreeEditor t (Some t), t).
Definition edit_at (at_ : place) (f : tree → tree) (e : tree_editor) : tree_editor * tree :=
  notifyChanges (change_at at_ f (te_tree e)).

(** [updateConnector(node, value)], [updateComplexCondition(node, value)] *)
Definition updateConnector (at_ : place) (value : string) : tree_editor → tree_editor * tree :=
  edit_at at_ (λ t, match t with Connector _ _ cs => Connector false value cs | _ => t end).
Definition updateComplexCondition (at_ : place) (value : string) : tree_editor → tree_editor * tree :=
  edit_at at_ (λ t, match t with Complex _ => Complex value | _ => t end).

(** [createNewBranch(value)]; a new leaf is a copy of the default condition. *)
Definition createNewBranch (defaultCondition : tree) (value : string) : tree := connector value [defaultCondition; defaultCondition].

(** The children of a node, changed. *)
Definition with_children (f : string → list tree → list tree) (t : tree) : tree :=
  match t with Connector n v cs => Connector n v (f v cs) | _ => t end.
Definition insert_after (i : nat) (x : tree) (cs : list tree) : list tree := take (S i) cs ++ x :: drop (S i) cs.

(** [insertRootLeaf(parent)], [insertLeaf(parent, node)], [insertBranch(parent, node)]
    and [delete(parent, node)]; the node is the [i]-th child of its parent. *)
Definition insertRootLeaf (defaultCondition : tree) (parent : place) : tree_editor → tree_editor * tree :=
  edit_at parent (with_children (λ _ cs, cs ++ [defaultCondition])).
Definition insertLeaf (defaultCondition : tree) (parent : place) (i : nat) : tree_editor → tree_editor * tree :=
  edit_at parent (with_children (λ _ cs,
    match cs !! i with
    | Some node => insert_after i (match node with Connector _ _ _ => defaultCondition | _ => node end) cs
    | None => cs
    end)).
Definition insertBranch (defaultCondition : tree) (parent : place) (i : nat) : tree_editor → tree_editor * tree :=
  edit_at parent (with_children (λ value cs,
    insert_after i (createNewBranch defaultCondition (if value =s "&" then "|" else "&")) cs)).
Definition tree_delete (parent : place) (i : nat) : tree_editor → tree_editor * tree :=
  edit_at parent (with_children (λ _ cs, delete i cs)).

(** Fields, of Odoo: the definition of one, its first operator and the value an
    operator begins with. *)
Context {field_def : Type} (getFieldDef : cell → field_def).
Context (getDefaultOperator : field_def → cell) (getDefaultValue : field_def → cell → option cell → cell).

(** [updatePath(node, path)] when the field is loaded; the node is where it is in
    the tree then, if it still is. *)
Definition updatePath (at_ : option place) (fieldDef : field_def) (path : cell) (e : tree_editor) : tree_editor * tree :=
  match at_ with
  | Some at_ =>
      edit_at at_ (λ t, match t with
        | Condition _ _ _ _ =>
            let operator := getDefaultOperator fieldDef in
            Condition false path operator (getDefaultValue fieldDef operator None)
        | _ => t
        end) e
  | None => notifyChanges (te_tree e)
  end.

(** [updateLeafOperator(node, operator, negate)], [updateLeafValue(node, value)] *)
Definition updateLeafOperator (at_ : place) (operator : cell) (negate : bool) : tree_editor → tree_editor * tree :=
  edit_at at_ (λ t, match t with
    | Condition _ p _ v => Condition negate p operator (getDefaultValue (getFieldDef p) operator (Some v))
    | _ => t
    end).
Definition updateLeafValue (at_ : place) (value : cell) : tree_editor → tree_editor * tree :=
  edit_at at_ (λ t, match t with Condition n p o _ => Condition n p o value | _ => t end).
End operators.

(** ** What is restored *)

(** The tree in which some of the operators [set] and [not_set] of another have
    become the plain ones. *)
Inductive weaker : tree → tree → Prop :=
| weaker_same n p o v : weaker (Condition n p o v) (Condition n p o v)
| weaker_set n p v : weaker (Condition n p (text_cell "!=") v) (Condition n p (text_cell "set") v)
| weaker_not_set n p v : weaker (Condition n p (text_cell "=") v) (Condition n p (text_cell "not_set") v)
| weaker_complex v : weaker (Complex v) (Complex v)
| weaker_connector n v cs cs' : Forall2 weaker cs cs' → weaker (Connector n v cs) (Connector n v cs').

(** Trees that print the same. *)
Inductive looks (formatValue : cell → string) : tree → tree → Prop :=
| looks_condition n p o v p' o' v' :
    formatValue p = formatValue p' → formatValue o = formatValue o' → formatValue v = formatValue v' →
    looks formatValue (Condition n p o v) (Condition n p' o' v')
| looks_complex v : looks formatValue (Complex v) (Complex v)
| looks_connector n v cs cs' : Forall2 (looks formatValue) cs cs' → looks formatValue (Connector n v cs) (Connector n v cs').

Lemma weaker_refl t : weaker t t.
Proof.
  induction t as [| |n v cs IH] using tree_nested_ind; constructor. induction IH; by constructor.
Qed.

Lemma cell_is_inv s c : cell_is s c = true → c = text_cell s.
Proof. destruct c as [[]|]; try done. simpl. by intros ->%bool_decide_eq_true. Qed.

Definition clean (ds : list diff) : Prop := existsb is_other ds = false.

Lemma replace_below n v i ds cs :
  clean ds → foldl replace_operator (Connector n v cs) (below i <$> ds) = Connector n v (alter (λ c, foldl replace_operator c ds) i cs).
Proof.
  unfold clean. revert cs. induction ds as [|[|at_ o] ds IH]; intros cs Hc; [|done|].
  - simpl. f_equal. symmetry. apply list_alter_id. done.
  - cbn [fmap list_fmap foldl below replace_operator change_at]. rewrite IH by exact Hc. f_equal.
    clear. revert i. induction cs as [|c cs IH]; intros [|i]; simpl; [done..|]. f_equal. apply IH.
Qed.

Section restoring.
Context (formatValue : cell → string).
Context (Hset : formatValue (text_cell "!=") ≠ formatValue (text_cell "set")).
Context (Hnot : formatValue (text_cell "=") ≠ formatValue (text_cell "not_set")).

(** What replacing the differences does to the tree. *)
Record replaces (ds : list diff) (t other : tree) : Prop := {
  rp_weaker : weaker t (foldl replace_operator t ds);
  rp_looks : looks formatValue (foldl replace_operator t ds) other;
  rp_back : weaker t other → foldl replace_operator t ds = other;
}.

Definition collected (ds : list diff) (t other : tree) : Prop :=
  (weaker t other → clean ds) ∧ (clean ds → replaces ds t other).

Definition replaced (t other : tree) : tree := foldl replace_operator t (collectDifferences formatValue t other).

(** The differences of the children, one list after the other. *)
Fixpoint children_list (i : nat) (cs cs' : list tree) : list diff :=
  match cs, cs' with
  | c :: cs, c' :: cs' => (below i <$> collectDifferences formatValue c c') ++ children_list (S i) cs cs'
  | _, _ => []
  end.

Lemma clean_app a b : clean (a ++ b) ↔ clean a ∧ clean b.
Proof using Type. unfold clean. rewrite existsb_app. apply orb_false_iff. Qed.

Lemma clean_below i ds : clean (below i <$> ds) ↔ clean ds.
Proof using Type. unfold clean. induction ds as [|[] ds IH]; simpl; done. Qed.

Lemma children_flat cs cs' i diffs :
  clean diffs →
  let ds := children_diffs (collectDifferences formatValue) i diffs cs cs' in
  (Forall2 (λ c c', clean (collectDifferences formatValue c c')) cs cs' → clean ds) ∧
  (clean ds → length cs = length cs' →
   Forall2 (λ c c', clean (collectDifferences formatValue c c')) cs cs' ∧ ds = diffs ++ children_list i cs cs').
Proof using Type.
  cbv zeta. revert cs' i diffs. induction cs as [|c cs IH]; intros [|c' cs'] i diffs Hd; cbn [children_diffs children_list].
  - rewrite app_nil_r. done.
  - done.
  - split; [inversion 1|done].
  - destruct (existsb is_other (collectDifferences formatValue c c')) eqn:Ec.
    + split; [inversion 1; subst; unfold clean in *; congruence|done].
    + assert (clean (diffs ++ (below i <$> collectDifferences formatValue c c'))) as Hd'
        by (apply clean_app; split; [done|by apply clean_below]).
      destruct (IH cs' (S i) _ Hd') as [IH1 IH2]. split.
      * inversion 1; subst. by apply IH1.
      * intros Hc [= Hl]. destruct (IH2 Hc Hl) as [H1 H2]. split; [by constructor|]. by rewrite H2, <- app_assoc.
Qed.

Lemma replace_children n v cs cs' pre :
  Forall2 (λ c c', clean (collectDifferences formatValue c c')) cs cs' →
  foldl replace_operator (Connector n v (pre ++ cs)) (children_list (length pre) cs cs') =
  Connector n v (pre ++ zip_with replaced cs cs').
Proof using Type.
  intros H. revert pre. induction H as [|c c' cs cs' Hc H IH]; intros pre; [done|].
  cbn [children_list zip_with]. rewrite foldl_app, replace_below by done.
  assert (alter (λ x, foldl replace_operator x (collectDifferences formatValue c c')) (length pre) (pre ++ c :: cs) =
    (pre ++ [replaced c c']) ++ cs) as ->.
  { rewrite <- app_assoc. clear. induction pre as [|x pre IH]; simpl; [done|]. f_equal. exact IH. }
  specialize (IH (pre ++ [replaced c c'])). rewrite length_app, Nat.add_comm in IH. cbn [length plus] in IH.
  rewrite IH, <- app_assoc. done.
Qed.

Lemma collect_leaf n p o v n' p' o' v' :
  collected (collectDifferences formatValue (Condition n p o v) (Condition n' p' o' v')) (Condition n p o v) (Condition n' p' o' v').
Proof using Hset Hnot.
  cbn [collectDifferences].
  destruct (Bool.eqb n n') eqn:En; cbn [negb]; [apply Bool.eqb_prop in En as <-|split; [inversion 1; subst; by rewrite Bool.eqb_reflx in En|done]].
  destruct (formatValue p =s formatValue p') eqn:Ep; cbn [negb];
    [apply bool_decide_eq_true in Ep|split; [apply bool_decide_eq_false in Ep; inversion 1; subst; done|done]].
  destruct (formatValue v =s formatValue v') eqn:Ev; cbn [negb];
    [apply bool_decide_eq_true in Ev|split; [apply bool_decide_eq_false in Ev; inversion 1; subst; done|done]].
  destruct (formatValue o =s formatValue o') eqn:Eo; cbn [negb].
  - apply bool_decide_eq_true in Eo. split; [done|]. intros _. split; [apply weaker_refl|by constructor|].
    inversion 1; subst; done.
  - apply bool_decide_eq_false in Eo.
    destruct (cell_is "!=" o && cell_is "set" o') eqn:E1; [|destruct (cell_is "=" o && cell_is "not_set" o') eqn:E2].
    + apply andb_prop in E1 as [->%cell_is_inv ->%cell_is_inv]. split; [done|]. intros _.
      split; [constructor|by constructor|by inversion 1; subst].
    + apply andb_prop in E2 as [->%cell_is_inv ->%cell_is_inv]. split; [done|]. intros _.
      split; [constructor|by constructor|by inversion 1; subst].
    + split; [|done]. inversion 1; subst; try done; by vm_compute in E1, E2.
Qed.

Lemma collect_spec t other : collected (collectDifferences formatValue t other) t other.
Proof using Hset Hnot.
  revert other. induction t as [n p o v|v|n v cs IH] using tree_nested_ind; intros other.
  - destruct other as [n' p' o' v'|n' v' cs'|v']; [apply collect_leaf|split; [by inversion 1|done]..].
  - destruct other as [n' p' o' v'|n' v' cs'|v']; [split; [by inversion 1|done]..|]. cbn [collectDifferences].
    destruct (v =s v') eqn:E; [apply bool_decide_eq_true in E as <-|split; [apply bool_decide_eq_false in E; inversion 1; by subst|done]].
    split; [done|]. intros _. split; [constructor|constructor|done].
  - destruct other as [n' p' o' v'|n' v' cs'|v']; [split; [by inversion 1|done]| |split; [by inversion 1|done]]. cbn [collectDifferences].
    destruct (Bool.eqb n n') eqn:En; cbn [negb]; [apply Bool.eqb_prop in En as <-|split; [inversion 1; subst; by rewrite Bool.eqb_reflx in En|done]].
    destruct (v =s v') eqn:E; cbn [negb]; [apply bool_decide_eq_true in E as <-|split; [apply bool_decide_eq_false in E; inversion 1; by subst|done]].
    destruct (Nat.eqb_spec (length cs) (length cs')) as [El|El]; cbn [negb]; [|split; [inversion 1 as [| | | |???? Hw]; subst; by apply Forall2_length in Hw|done]].
    destruct (children_flat cs cs' 0 [] eq_refl) as [H1 H2]. split.
    + inversion 1 as [| | | |???? Hw]; subst. apply H1.
      clear -IH Hw. induction Hw as [|c c' cs cs' Hc Hw IHw]; inversion IH; subst; constructor; [by apply H1|by apply IHw].
    + intros Hc. destruct (H2 Hc El) as [Hall ->]. cbn [app].
      pose proof (replace_children n v cs cs' [] Hall) as Hr. cbn [app length] in Hr.
      assert (Forall2 (λ c c', replaces (collectDifferences formatValue c c') c c') cs cs') as Hrep.
      { clear -IH Hall. induction Hall as [|c c' cs cs' Hc Hall IHl]; inversion IH; subst; constructor; [by apply H1|by apply IHl]. }
      split; rewrite Hr.
      * constructor. clear -Hrep. induction Hrep as [|c c' cs cs' [Hc _ _] _ IH]; [constructor|]. by constructor.
      * constructor. clear -Hrep. induction Hrep as [|c c' cs cs' [_ Hc _] _ IH]; [constructor|]. by constructor.
      * inversion 1 as [| | | |???? Hw]; subst. f_equal. clear -Hrep Hw.
        induction Hrep as [|c c' cs cs' [_ _ Hc] _ IH]; [done|]. inversion Hw; subst. simpl. f_equal; [by apply Hc|by apply IH].
Qed.

(** What [restoreVirtualOperators] gives: the tree as it is, or with some [!=] made
    [set] and some [=] made [not_set] so that it looks like the other. *)
Lemma restore_spec t other :
  (weaker t other → restoreVirtualOperators formatValue t other = other) ∧
  weaker t (restoreVirtualOperators formatValue t other) ∧
  (restoreVirtualOperators formatValue t other = t ∨ looks formatValue (restoreVirtualOperators formatValue t other) other).
Proof using Hset Hnot.
  unfold restoreVirtualOperators. destruct (collect_spec t other) as [H1 H2].
  destruct (existsb is_other (collectDifferences formatValue t other)) eqn:E.
  - split_and!; [intros Hw%H1; unfold clean in Hw; congruence|apply weaker_refl|by left].
  - destruct (H2 E) as [? ? ?]. split_and!; [done|done|by right].
Qed.
End restoring.

(** ** Edits come back *)

Definition is_connector (t : tree) : bool := match t with Connector _ _ _ => true | _ => false end.

(** What the editor shows for a tree that it is given after an edit: this tree, in a
    connector, with some [!=] made [set] and some [=] made [not_set]; if any is, it
    prints like the edited tree; and the edited tree if this is possible so. *)
Lemma shown_after formatValue defaultConnector T t :
  formatValue (text_cell "!=") ≠ formatValue (text_cell "set") →
  formatValue (text_cell "=") ≠ formatValue (text_cell "not_set") →
  let given := as_connector defaultConnector t in
  let shown := te_tree (tree_props formatValue defaultConnector t (Some T)) in
  weaker given shown ∧ (shown = given ∨ looks formatValue shown T) ∧ (weaker given T → shown = T).
Proof. intros Hset Hnot given shown. destruct (restore_spec formatValue Hset Hnot given T) as (H1 & H2 & H3). done. Qed.

(** A tree of one condition under another connector than the default comes back
    under the default one, and then without its operator. *)
Example connector_forgotten formatValue :
  let T := connector "|" [condition (text_cell "name") (text_cell "set") (Plain (JBool false))] in
  te_tree (tree_props formatValue "&" (condition (text_cell "name") (text_cell "!=") (Plain (JBool false))) (Some T)) =
  connector "&" [condition (text_cell "name") (text_cell "!=") (Plain (JBool false))].
Proof. done. Qed.

(** ** The meaning of a tree *)

Section meaning.
(** What a condition and a complex condition say of a record. *)
Context (atom : cell → cell → cell → bool) (complex : string → bool).

Fixpoint holds (t : tree) : bool :=
  match t with
  | Condition n p o v => xorb n (atom p o v)
  | Complex v => complex v
  | Connector n v cs => xorb n (if v =s "&" then forallb holds cs else existsb holds cs)
  end.

Lemma holds_children n v cs cs' : holds <$> cs = holds <$> cs' → holds (Connector n v cs) = holds (Connector n v cs').
Proof using Type.
  intros H. cbn [holds].
  assert (∀ l, forallb holds l = forallb id (holds <$> l) ∧ existsb holds l = existsb id (holds <$> l)) as Hl.
  { clear. induction l as [|c l [IH1 IH2]]; simpl; [done|]. split; [by rewrite IH1|by rewrite IH2]. }
  destruct (Hl cs) as [-> ->], (Hl cs') as [-> ->]. by rewrite H.
Qed.

(** A change that keeps the meaning of a node keeps that of the tree. *)
Lemma holds_change at_ f t :
  (∀ x, node_at at_ t = Some x → holds (f x) = holds x) → holds (change_at at_ f t) = holds t.
Proof using Type.
  revert t. induction at_ as [|i at_ IH]; intros t H; [by apply H|].
  destruct t as [| n v cs|]; [done| |done]. apply holds_children. apply list_eq. intros k.
  rewrite !list_lookup_fmap, list_lookup_alter. case_decide as Hk; [|done]. subst k.
  destruct (cs !! i) as [c|] eqn:Ec; [|done]. cbn [fmap option_fmap option_map]. f_equal. apply IH.
  intros x Hx. apply H. cbn [node_at]. by rewrite Ec.
Qed.

Lemma holds_twice n v i c cs : cs !! i = Some c → holds (Connector n v (insert_after i c cs)) = holds (Connector n v cs).
Proof using Type.
  intros Hc. unfold insert_after. cbn [holds]. f_equal.
  case_bool_decide; rewrite <- (take_drop (S i) cs) at 3; rewrite ?forallb_app, ?existsb_app; cbn [forallb existsb];
    rewrite (take_S_r cs i c) by done; rewrite ?forallb_app, ?existsb_app; cbn [forallb existsb].
  - by destruct (forallb holds (take i cs)), (holds c).
  - by destruct (existsb holds (take i cs)), (holds c).
Qed.

(** A new rule is a copy of the one it was asked for at: the domain means the same
    until the copy is changed; deleting the copy gives the tree back. *)
Theorem new_rule_neutral defaultCondition parent i n v cs node e :
  node_at parent (te_tree e) = Some (Connector n v cs) → cs !! i = Some node → is_connector node = false →
  let '(e', told) := insertLeaf defaultCondition parent i e in
  holds told = holds (te_tree e) ∧ te_tree e' = told ∧ (tree_delete parent (S i) e').2 = te_tree e.
Proof using Type.
  intros Hp Hi Hn. unfold insertLeaf, tree_delete, edit_at, notifyChanges. cbn [te_tree snd].
  split_and!; [|done|].
  - apply holds_change. intros x. rewrite Hp. intros [= <-]. cbn [with_children]. rewrite Hi.
    destruct node; [|done|]; by apply holds_twice.
  - assert (∀ f g, with_children f (with_children g (Connector n v cs)) = Connector n v cs →
      change_at parent (with_children f) (change_at parent (with_children g) (te_tree e)) = te_tree e) as Hc.
    { intros f g Hfg. revert Hp. generalize (te_tree e). induction parent as [|j parent IH]; intros t Hp.
      - injection Hp as ->. exact Hfg.
      - destruct t as [| n' v' cs'|]; [done| |done]. cbn [node_at] in Hp. destruct (cs' !! j) as [c|] eqn:Ej; [|done].
        cbn [change_at]. f_equal. apply list_eq. intros k. rewrite list_lookup_alter. case_decide as Hk; [|by rewrite list_lookup_alter_ne].
        subst k. rewrite list_lookup_alter_eq, Ej. cbn [fmap option_fmap option_map]. f_equal. by apply IH. }
    apply Hc. cbn [with_children]. rewrite Hi. f_equal. unfold insert_after.
    assert (length (take (S i) cs) = S i) as Hl by (rewrite length_take; apply lookup_lt_Some in Hi; lia).
    rewrite <- Hl at 1. rewrite delete_middle. apply take_drop.
Qed.
End meaning.

Lemma new_rule_neutral_witness :
  let leaf o := condition (text_cell "name") (text_cell o) (Plain (JBool false)) in
  let e := TreeEditor (connector "&" [leaf "="; connector "|" [leaf "set"; leaf "not_set"]]) None in
  let told := (insertLeaf (leaf "=") [1%nat] 0 e).2 in
  told = connector "&" [leaf "="; connector "|" [leaf "set"; leaf "set"; leaf "not_set"]] ∧
  holds (λ _ o _, cell_is "set" o) (λ _, true) told = holds (λ _ o _, cell_is "set" o) (λ _, true) (te_tree e).
Proof.
  intros leaf e told. split; [reflexivity|].
  apply (new_rule_neutral (λ _ o _, cell_is "set" o) (λ _, true) (leaf "=") [1%nat] 0 false "|" [leaf "set"; leaf "not_set"] (leaf "set") e);
    reflexivity.
Defined.

(** * The domain builder (components/domain_builder/workflow_domain_builder.js)

    A domain is shown as a tree of conditions or as an expression.  The builder
    takes the condition that includes archived records out of the tree and shows it
    as a checkbox.  Domains as text, their trees and their conjunction are Odoo's:
    the functions on them are arguments. *)

(** [ARCHIVED_CONDITION], [ARCHIVED_DOMAIN] *)
Definition ARCHIVED_CONDITION : tree :=
  condition (text_cell "active") (text_cell "in") (Plain (JArr [JBool true; JBool false])).
Definition dq : string := String quote2 "".
Definition ARCHIVED_DOMAIN : string := "[(" +:+ dq +:+ "active" +:+ dq +:+ ", " +:+ dq +:+ "in" +:+ dq +:+ ", [True, False])]".

(** [deepEqual(child, ARCHIVED_CONDITION)] *)
Definition is_archived (t : tree) : bool :=
  match t with
  | Condition false p o (Plain (JArr [JBool true; JBool false])) => cell_is "active" p && cell_is "in" o
  | _ => false
  end.

(** [unwrapLegacyExpressionBody(value)], on text *)
Definition unwrapLegacyExpressionBody (value : string) : option string := braces_body (trim value).

(** [inner.replace(...)]: what is between quotes, which need not be the same. *)
Definition is_quote (c : ascii) : bool := bool_decide (c = quote1) || bool_decide (c = quote2).
Definition unquoted (s : string) : string :=
  match s with
  | String c r =>
      if is_quote c then
        match strip_suffix (String quote2 "") r, strip_suffix (String quote1 "") r with
        | Some b, _ => b
        | None, Some b => b
        | None, None => s
        end
      else s
  | EmptyString => s
  end.

(** The props; [bp_debugUpdate] is that there is such a callback. *)
Record builder_props := BuilderProps {
  bp_domain : string;
  bp_isDebugMode : bool;
  bp_readonly : bool;
  bp_debugUpdate : bool;
}.

(** The state, and the fields of the component. *)
Record builder := Builder {
  db_isExpression : bool;
  db_tree : option tree;
  db_showArchivedCheckbox : bool;
  db_includeArchived : bool;
}.

(** What is told: [props.update(domain)] or [props.debugUpdate(domain)]. *)
Inductive told := Update (domain : string) | DebugUpdate (domain : string).

Section builder.
(** Whether [new Domain(text)] succeeds; the tree of a domain, with negations
    distributed or not; the domain of a tree; [Domain.and]. *)
Context (is_domain : string → bool) (treeFromDomain : bool → string → tree).
Context (domainFromTree : tree → string) (domain_and : string → string → string).

(** ** Expressions *)

Definition with_expression (b : bool) (s : builder) : builder :=
  Builder b (db_tree s) (db_showArchivedCheckbox s) (db_includeArchived s).

(** [codeEditorDisplayValue] *)
Definition codeEditorDisplayValue (p : builder_props) (s : builder) : string :=
  let d := bp_domain p in
  if db_isExpression s then
    let withoutPrefix := stripExpressionPrefix d in
    default withoutPrefix (unwrapLegacyExpressionBody withoutPrefix)
  else d.

(** [toggleExpression()] *)
Definition recovered (current : string) : string :=
  let withoutPrefix := stripExpressionPrefix current in
  let inner := default (trim withoutPrefix) (unwrapLegacyExpressionBody withoutPrefix) in
  if inner =s "" then "[]" else if is_domain (unquoted inner) then unquoted inner else "[]".
Definition toggleExpression (p : builder_props) (s : builder) : builder * list told :=
  if db_isExpression s then (with_expression false s, [Update (recovered (bp_domain p))])
  else
    (with_expression true s,
     if isExpressionMode (bp_domain p) then []
     else [Update (ensureExpressionPrefix (if trim (bp_domain p) =s "" then "[]" else bp_domain p))]).

(** [switchToTree()], [switchToExpression()], [onExpressionInputModeChange(mode)],
    [onExpressionChange(val)] *)
Definition switchToTree (p : builder_props) (s : builder) : builder * list told :=
  if db_isExpression s then toggleExpression p s else (s, []).
Definition switchToExpression (p : builder_props) (s : builder) : builder * list told :=
  if negb (db_isExpression s) then toggleExpression p s else (s, []).
Definition onExpressionInputModeChange (p : builder_props) (mode : string) (s : builder) : builder * list told :=
  if mode =s "fixed" then switchToTree p s else if mode =s "expression" then switchToExpression p s else (s, []).
Definition domain_onExpressionChange (val : string) (s : builder) : builder * list told := (s, [Update val]).

(** [onDomainInput(rawDomain)], [onDomainChange(rawDomain)], [resetDomain()] *)
Definition onDomainInput (p : builder_props) (rawDomain : string) (s : builder) : builder * list told :=
  (s, if bp_debugUpdate p then [DebugUpdate (if db_isExpression s then ensureExpressionPrefix rawDomain else rawDomain)] else []).
Definition onDomainChange (rawDomain : string) (s : builder) : builder * list told :=
  (s, [Update (if db_isExpression s then ensureExpressionPrefix rawDomain else rawDomain)]).
Definition resetDomain (s : builder) : builder * list told := (s, [Update "[]"]).

(** ** The tree and the checkbox *)

(** The archived condition, taken out of a tree: the loop over the children, and the
    rest of [onPropsUpdated].  [value] of a condition can be the text of a
    connector; it has no [children] then. *)
Definition take_archived (empty t : tree) : outcome (tree * bool) :=
  let whole := if is_archived t then Ret (empty, true) else Ret (t, false) in
  match t with
  | Connector n v cs =>
      if v =s "&" then
        let cs' := bfilter (λ c, negb (is_archived c)) cs in
        Ret (match cs' with [c] => c | _ => Connector n v cs' end, existsb is_archived cs)
      else whole
  | Condition _ _ _ v => if cell_is "&" v then Throw "TypeError" else whole
  | Complex v => if v =s "&" then Throw "TypeError" else whole
  end.

(** [setup()], and the callback of [onWillUpdateProps] before it calls
    [onPropsUpdated] *)
Definition builder_setup (p : builder_props) : builder := Builder (isExpressionMode (bp_domain p)) None false false.
Definition sync_expression (next : builder_props) (s : builder) : builder :=
  if isExpressionMode (bp_domain next) && negb (db_isExpression s) then with_expression true s else s.

(** [onPropsUpdated(p)]: up to the fields of the model, and with them; [hasActive]
    is whether the model has a field [active]. *)
Definition onPropsUpdated (p : builder_props) (s : builder) : builder :=
  if is_domain (bp_domain p) then s else Builder (db_isExpression s) None false false.
Definition fields_loaded (p : builder_props) (hasActive : bool) (s : builder) : builder * outcome unit :=
  if negb (is_domain (bp_domain p)) then (s, Ret tt)
  else
    let t := treeFromDomain (negb (bp_isDebugMode p)) (bp_domain p) in
    if negb hasActive then (Builder (db_isExpression s) (Some t) false false, Ret tt)
    else match take_archived (treeFromDomain false "[]") t with
         | Ret (t', b) => (Builder (db_isExpression s) (Some t') true b, Ret tt)
         | Throw e => (Builder (db_isExpression s) (Some t) true false, Throw e)
         end.

(** [update(tree)], [toggleIncludeArchived()] *)
Definition builder_update (t : option tree) (s : builder) : list told :=
  let archiveDomain := if db_includeArchived s then ARCHIVED_DOMAIN else "[]" in
  [Update (match t with Some t => domain_and (domainFromTree t) archiveDomain | None => archiveDomain end)].
Definition toggleIncludeArchived (s : builder) : builder * list told :=
  let s := Builder (db_isExpression s) (db_tree s) (db_showArchivedCheckbox s) (negb (db_includeArchived s)) in
  (s, builder_update (db_tree s) s).

(** ** Back to the tree *)

(** A domain that is made an expression and a tree again is the one it was, but for
    the blanks around it; a blank one is the empty domain. *)
Theorem domain_toggled_twice p s b d :
  db_isExpression s = false → bp_domain p = d → trim d = String "[" b ∧ is_domain (trim d) = true ∨ trim d = "" ∧ is_domain "[]" = true →
  let '(s1, us1) := toggleExpression p s in
  ∃ e, us1 = [Update e] ∧ isExpressionMode e = true ∧ 
  toggleExpression (BuilderProps e (bp_isDebugMode p) (bp_readonly p) (bp_debugUpdate p)) s1 =
    (s, [Update (if trim d =s "" then "[]" else trim d)]).
Proof using Type.
  intros Hs Hd Hcase. unfold toggleExpression at 1. rewrite Hs, Hd.
  assert (isExpressionMode d = false) as Hm.
  { destruct d as [|c d]; [done|]. unfold isExpressionMode. destruct (strip_prefix "=" (String c d)) as [r|] eqn:E; [|done].
    apply strip_prefix_inv in E. injection E as -> ->. exfalso.
    assert (∃ r', trim (String "=" ("" +:+ r)) = String "=" r') as [r' Hr].
    { change (trim (String "=" ("" +:+ r))) with (match trim_end r with EmptyString => String "=" "" | t => String "=" t end).
      destruct (trim_end r); by eexists. }
    destruct Hcase as [[Ht _]|[Ht _]]; rewrite Hr in Ht; done. }
  rewrite Hm. eexists. split; [done|].
  set (seed := if trim d =s "" then "[]" else d).
  assert (isExpressionMode seed = false) as Hseed by (unfold seed; by case_bool_decide).
  rewrite unmarked_expression by exact Hseed. split; [done|].
  unfold toggleExpression. cbn [db_isExpression with_expression bp_domain].
  assert (with_expression false (with_expression true s) = s) as -> by (destruct s; simpl in *; by subst).
  unfold recovered. rewrite strip_marked. f_equal. f_equal. f_equal.
  destruct Hcase as [[Ht Hv]|[Ht Hv]]; unfold seed; rewrite Ht.
  - change (String "[" b =s "") with false. cbv iota. unfold unwrapLegacyExpressionBody. rewrite Ht.
    change (braces_body (String "[" b)) with (@None string). cbn [default from_option id].
    change (String "[" b =s "") with false. change (unquoted (String "[" b)) with (String "[" b). cbv iota.
    by rewrite <- Ht, Hv.
  - change ("" =s "") with true. cbv iota. change (default (trim "[]") (unwrapLegacyExpressionBody "[]")) with "[]".
    change ("[]" =s "") with false. change (unquoted "[]") with "[]". cbv iota. by rewrite Hv.
Qed.

(** ** The meaning of the checkbox *)

Section archived.
(** What conditions say of a record; the condition for archived records holds of
    all. *)
Context (atom : cell → cell → cell → bool) (complex : string → bool).
Context (Harchived : holds atom complex ARCHIVED_CONDITION = true).

Definition negated (t : tree) : bool := match t with Condition n _ _ _ | Connector n _ _ => n | Complex _ => false end.

Lemma is_archived_inv t : is_archived t = true → t = ARCHIVED_CONDITION.
Proof using Type.
  destruct t as [[] p o v| |]; try done. unfold is_archived.
  destruct v as [[| | | | |[|[| |[]| | | |] [|[| |[]| | | |] [|]]]|]|]; try done. by intros [->%cell_is_inv ->%cell_is_inv]%andb_prop.
Qed.

Lemma archived_holds t : is_archived t = true → holds atom complex t = true.
Proof using Harchived. by intros ->%is_archived_inv. Qed.

Lemma rest_holds cs :
  forallb (holds atom complex) (bfilter (λ c, negb (is_archived c)) cs) = forallb (holds atom complex) cs.
Proof using Harchived.
  induction cs as [|c cs IH]; [done|]. cbn [bfilter forallb]. destruct (is_archived c) eqn:E; cbn [negb forallb]; rewrite IH; [|done].
  by rewrite archived_holds.
Qed.

(** Taking the archived condition out of a tree that is not negated does not change
    what the tree says, and tells the checkbox exactly whether it was there. *)
Lemma take_archived_holds empty t t' b :
  holds atom complex empty = true → negated t = false → take_archived empty t = Ret (t', b) →
  holds atom complex t' = holds atom complex t ∧
  (b = true ↔ t = ARCHIVED_CONDITION ∨ ∃ cs, t = connector "&" cs ∧ ARCHIVED_CONDITION ∈ cs).
Proof using Harchived.
  intros He Hn. destruct (is_archived t) eqn:Ea.
  { apply is_archived_inv in Ea as ->. intros [= <- <-]. split; [by rewrite He, Harchived|]. split; [by left|done]. }
  assert (t ≠ ARCHIVED_CONDITION) as Hne by by intros ->.
  destruct t as [n p o v|n v cs|v]; cbn [take_archived]; rewrite ?Ea.
  - destruct (cell_is "&" v); [done|]. intros [= <- <-]. split; [done|]. split; [done|]. by intros [?|(? & ? & _)].
  - cbn in Hn. subst n. case_bool_decide as Hv; [subst v|].
    + intros [= <- <-]. split.
      * transitivity (forallb (holds atom complex) (bfilter (λ c, negb (is_archived c)) cs)); [|by rewrite rest_holds].
        destruct (bfilter _ cs) as [|c [|c' l]]; [done| |done]. cbn [forallb]. by rewrite andb_true_r.
      * rewrite existsb_exists. split.
        -- intros (c & Hc%list_elem_of_In & ->%is_archived_inv). right. eauto.
        -- intros [?|(cs' & [= <-] & Hc)]; [done|]. exists ARCHIVED_CONDITION. split; [by apply list_elem_of_In|done].
    + intros [= <- <-]. split; [done|]. split; [done|]. intros [?|(? & [= ? _] & _)]; done.
  - case_bool_decide; [done|]. intros [= <- <-]. split; [done|]. split; [done|]. by intros [?|(? & ? & _)].
Qed.
End archived.
End builder.

(** *** Edits come back *)

(** The builder is the parent of the editor: what an edit tells it makes a domain,
    and the tree of this domain, without the archived condition, is what the editor
    is given next. *)

(** The tree that Odoo reads in the domain the builder tells for the tree of the
    editor.  Domains have no virtual operators, no group of one condition and no
    empty group; the archived condition is one more condition of an outer [&]. *)
Definition is_empty_tree (t : tree) : Prop := is_true_tree t = true ∨ ∃ w, t = connector w [].
Definition with_archived (archived : bool) (t : tree) : tree :=
  if archived then
    match t with
    | Connector false v cs => if v =s "&" then connector "&" (cs ++ [ARCHIVED_CONDITION]) else connector "&" [t; ARCHIVED_CONDITION]
    | _ => connector "&" [t; ARCHIVED_CONDITION]
    end
  else t.
Inductive reads (archived : bool) : tree → tree → Prop :=
| reads_group n v cs t :
    (2 ≤ length cs)%nat → weaker t (Connector n v cs) → reads archived (Connector n v cs) (with_archived archived t)
| reads_lone v c t :
    weaker t c → is_connector c = false → is_true_tree t = false → reads archived (connector v [c]) (with_archived archived t)
| reads_none v t : is_empty_tree t → reads archived (connector v []) (if archived then ARCHIVED_CONDITION else t).

(** Edits that do not write the archived condition themselves, nor the value [&] in
    a condition that is alone, which stops the builder ([ampersand_throws]). *)
Definition says_amp (t : tree) : bool :=
  match t with Condition _ _ _ v => cell_is "&" v | Complex v => v =s "&" | Connector _ _ _ => false end.
Definition tame_tree (t : tree) : Prop :=
  match t with
  | Connector _ _ cs => forallb (λ c, negb (is_archived c)) cs = true ∧ match cs with [c] => says_amp c = false | _ => True end
  | _ => False
  end.

(** The tree the builder hands to the editor, and what the editor shows. *)
Definition came (T t : tree) : Prop :=
  match T with
  | Connector _ _ [c] => weaker t c ∧ is_connector c = false ∧ is_true_tree t = false
  | Connector _ _ [] => is_empty_tree t
  | _ => weaker t T
  end.
Definition comes_back (defaultConnector : string) (T shown : tree) : Prop :=
  match T with
  | Connector _ v [c] =>
      if v =s defaultConnector then shown = T else ∃ c', weaker c' c ∧ shown = connector defaultConnector [c']
  | Connector _ _ [] => ∃ w, shown = connector w []
  | _ => shown = T
  end.

Lemma weaker_archived t t' : weaker t t' → is_archived t = is_archived t'.
Proof. by destruct 1 as [[]|[]|[]| |]. Qed.

Lemma no_archived_weaker cs cs' :
  Forall2 weaker cs' cs → forallb (λ c, negb (is_archived c)) cs = true →
  bfilter (λ c, negb (is_archived c)) cs' = cs' ∧ existsb is_archived cs' = false.
Proof.
  induction 1 as [|c' c cs' cs Hc _ IH]; [done|]. cbn [forallb bfilter existsb]. rewrite (weaker_archived _ _ Hc).
  intros [Hn%negb_true_iff [IH1 IH2]%IH]%andb_prop. by rewrite Hn, IH1, IH2.
Qed.

Lemma take_empty e t : is_empty_tree t → ∃ t', take_archived e t = Ret (t', false) ∧ is_empty_tree t'.
Proof.
  intros [H|[w ->]].
  - exists t. split; [|by left]. destruct t as [n p o v| |]; try done. unfold is_true_tree in H.
    apply andb_prop in H as [[[_ Hp]%andb_prop _]%andb_prop Hv]. cbn [take_archived is_archived].
    assert (cell_is "&" v = false) as -> by by destruct v as [[]|]. assert (cell_is "active" p = false) as -> by by destruct p as [[]|].
    by destruct n, v as [[]|].
  - exists (connector w []). split; [|by right; exists w]. cbn. by case_bool_decide.
Qed.

(** The archived condition is taken out again, and nothing else. *)
Lemma taken archived e T t :
  is_empty_tree e → tame_tree T → reads archived T t → ∃ t', take_archived e t = Ret (t', archived) ∧ came T t'.
Proof.
  intros He HT Hr. destruct Hr as [n v cs t Hl Hw|v c t Hw Hc Ht|v t Ht].
  - destruct HT as [Hn _]. assert (∀ x, came (Connector n v cs) x ↔ weaker x (Connector n v cs)) as Hcame
      by (intros x; destruct cs as [|? [|]]; simpl in Hl; [lia..|done]).
    inversion Hw as [| | | |? ? cs' ? Hcs]; subst. destruct (no_archived_weaker _ _ Hcs Hn) as [Hf He'].
    pose proof (Forall2_length _ _ _ Hcs) as Hlen. destruct archived; cbn [with_archived].
    + assert (∀ b, take_archived e (connector "&" [Connector b v cs'; ARCHIVED_CONDITION]) = Ret (Connector b v cs', true)) as Hout by done.
      destruct n; [eexists; by rewrite Hcame, Hout|]. case_bool_decide as E; [subst v|eexists; by rewrite Hcame, Hout].
      exists (connector "&" cs'). rewrite Hcame. split; [|done]. unfold connector. cbn [take_archived].
      rewrite bool_decide_true by done. rewrite bfilter_app, Hf, existsb_app, He'. cbn [bfilter app existsb].
      change (is_archived ARCHIVED_CONDITION) with true. cbn [negb orb]. rewrite app_nil_r.
      destruct cs' as [|? [|]]; simpl in *; [lia..|done].
    + exists (Connector n v cs'). rewrite Hcame. split; [|done]. cbn [take_archived]. rewrite Hf, He'.
      case_bool_decide; [|done]. destruct cs' as [|? [|]]; simpl in *; [lia..|done].
  - destruct HT as [[Hn _]%andb_prop Ha]. apply negb_true_iff in Hn. rewrite <- (weaker_archived _ _ Hw) in Hn.
    exists t. split; [|done]. destruct archived; cbn [with_archived].
    + destruct Hw; try done; cbn [with_archived take_archived connector bfilter existsb] in *; rewrite Hn; done.
    + destruct Hw; try done; unfold take_archived; rewrite Hn; cbn [says_amp] in Ha; by rewrite Ha.
  - destruct archived; [|by apply take_empty]. by exists e.
Qed.

Lemma restore_empty formatValue w n v :
  restoreVirtualOperators formatValue (connector w []) (Connector n v []) = connector w [].
Proof.
  unfold restoreVirtualOperators, connector. cbn [collectDifferences length].
  destruct (Bool.eqb false n), (w =s v) eqn:E; cbn [negb]; rewrite ?E; done.
Qed.

(** The editor restores it. *)
Lemma came_back formatValue defaultConnector T t :
  formatValue (text_cell "!=") ≠ formatValue (text_cell "set") →
  formatValue (text_cell "=") ≠ formatValue (text_cell "not_set") →
  (∃ n v cs, T = Connector n v cs ∧ (length cs = 1%nat → n = false)) → came T t →
  comes_back defaultConnector T (te_tree (tree_props formatValue defaultConnector t (Some T))).
Proof.
  intros Hset Hnot (n & v & cs & -> & Hn) Hc.
  destruct (shown_after formatValue defaultConnector (Connector n v cs) t Hset Hnot) as (_ & _ & H3).
  destruct cs as [|c [|c' cs]].
  - cbn [came comes_back] in *. destruct Hc as [Hc|[w ->]]; cbn [tree_props te_tree]; unfold as_connector.
    + rewrite Hc. exists defaultConnector. apply restore_empty.
    + exists w. apply restore_empty.
  - destruct Hc as (Hw & Hcc & Ht). rewrite (Hn eq_refl) in *. cbn [comes_back].
    assert (as_connector defaultConnector t = connector defaultConnector [t]) as Eg.
    { unfold as_connector. rewrite Ht. by destruct Hw. }
    case_bool_decide as E; [subst v; apply H3; rewrite Eg; by repeat constructor|].
    exists t. split; [done|]. cbn [tree_props te_tree]. rewrite Eg. unfold restoreVirtualOperators, connector. cbn [collectDifferences].
    rewrite (bool_decide_false (defaultConnector = v)) by done. done.
  - apply H3. cbn [came] in Hc. inversion Hc; subst. exact Hc.
Qed.

(** *** Odoo's domains *)

(** Whether a tree has a condition on the field [active]; [complex_active] tells it
    of a condition that is kept as text. *)
Fixpoint asks_active (complex_active : string → bool) (t : tree) : bool :=
  match t with
  | Condition _ p _ _ => cell_is "active" p
  | Complex v => complex_active v
  | Connector _ _ cs => existsb (asks_active complex_active) cs
  end.

(** What is documented of the functions of Odoo, over the records: [says] is whether
    a record is in a domain, [holds] whether it satisfies a tree, [asks] whether the
    domain has a condition on the field [active]. *)
Class Domains (record : Type) (is_domain : string → bool) (treeFromDomain : bool → string → tree)
    (domainFromTree : tree → string) (domain_and : string → string → string)
    (says : string → record → bool) (atom : record → cell → cell → cell → bool) (complex : record → string → bool)
    (asks : string → bool) (complex_active : string → bool) := {
  dom_tree b d r : is_domain d = true → holds (atom r) (complex r) (treeFromDomain b d) = says d r;
  dom_from t r : says (domainFromTree t) r = holds (atom r) (complex r) t;
  dom_and a b r : says (domain_and a b) r = says a r && says b r;
  dom_empty r : is_domain "[]" = true ∧ says "[]" r = true;
  dom_archived r : says ARCHIVED_DOMAIN r = true ∧ holds (atom r) (complex r) ARCHIVED_CONDITION = true;
  asks_tree b d : is_domain d = true → asks_active complex_active (treeFromDomain b d) = asks d;
  asks_from t : asks (domainFromTree t) = asks_active complex_active t;
  asks_and a b : asks (domain_and a b) = asks a || asks b;
  asks_none : is_domain "[]" = true ∧ asks "[]" = false;
  asks_archived : asks ARCHIVED_DOMAIN = true;
}.

(** What a search for a domain finds: archived records, those that are not [active],
    only if the domain has a condition on this field. *)
Definition finds {record} (says : string → record → bool) (asks : string → bool) (active : record → bool)
    (d : string) (r : record) : bool := says d r && (asks d || active r).

(** The archived condition that is taken out is what the tree no longer asks. *)
Lemma take_archived_asks complex_active e t t' b :
  asks_active complex_active e = false → take_archived e t = Ret (t', b) →
  asks_active complex_active t = asks_active complex_active t' || b.
Proof.
  intros He. assert (∀ x, is_archived x = true → asks_active complex_active x = true) as Ha by by intros x ->%is_archived_inv.
  assert ((if is_archived t then Ret (e, true) else Ret (t, false)) = Ret (t', b) →
    asks_active complex_active t = asks_active complex_active t' || b) as Hw.
  { destruct (is_archived t) eqn:E; intros [= <- <-]; [|by rewrite orb_false_r]. by rewrite He, Ha. }
  destruct t as [n p o v|n v cs|v]; cbn [take_archived].
  - by destruct (cell_is "&" v).
  - case_bool_decide; [|exact Hw]. intros [= <- <-].
    assert (existsb (asks_active complex_active) cs =
      existsb (asks_active complex_active) (bfilter (λ c, negb (is_archived c)) cs) || existsb is_archived cs) as E.
    { clear -Ha. induction cs as [|c cs IH]; [done|]. cbn [bfilter existsb]. rewrite IH. destruct (is_archived c) eqn:Ec; cbn [negb existsb orb].
      - rewrite Ha by done. by rewrite orb_true_r.
      - by rewrite orb_assoc. }
    cbn [asks_active]. rewrite E. f_equal. destruct (bfilter _ cs) as [|x [|y l]]; [done| |done]. cbn [existsb]. by rewrite orb_false_r.
  - by case_bool_decide.
Qed.


(** C40: A domain whose tree is not negated is opened in the builder.  The checkbox is
    set exactly if the model has the field [active] and the domain is the archived
    condition or a conjunction with it.  Told back as it is, the domain finds the
    same records, archived ones included.  Told back with the checkbox the other way
    it says the same of every record, and it has a condition on [active], so that
    archived records are found, exactly if the rest of the tree has one or the
    checkbox is now set. *)
Theorem builder_keeps_meaning
    `{HD : Domains record is_domain treeFromDomain domainFromTree domain_and says atom complex asks complex_active}
    (active : record → bool) p hasActive s r :
  is_domain (bp_domain p) = true →
  let t := treeFromDomain (negb (bp_isDebugMode p)) (bp_domain p) in
  negated t = false →
  let '(s1, result) := fields_loaded is_domain treeFromDomain p hasActive s in
  result = Ret tt →
  (db_includeArchived s1 = true ↔
    hasActive = true ∧ (t = ARCHIVED_CONDITION ∨ ∃ cs, t = connector "&" cs ∧ ARCHIVED_CONDITION ∈ cs)) ∧
  (∃ d, builder_update domainFromTree domain_and (db_tree s1) s1 = [Update d] ∧
    finds says asks active d r = finds says asks active (bp_domain p) r) ∧
  (∃ d rest, (toggleIncludeArchived domainFromTree domain_and s1).2 = [Update d] ∧ db_tree s1 = Some rest ∧
    says d r = says (bp_domain p) r ∧
    asks (bp_domain p) = asks_active complex_active rest || db_includeArchived s1 ∧
    asks d = asks_active complex_active rest || negb (db_includeArchived s1)).
Proof.
  intros Hd t Hn. destruct (dom_archived r) as [Ha1 Ha2], (dom_empty r) as [He1 He2], asks_none as [_ Hk].
  pose proof (dom_tree (negb (bp_isDebugMode p)) (bp_domain p) r Hd) as Ht.
  pose proof (asks_tree (negb (bp_isDebugMode p)) (bp_domain p) Hd) as Hq. fold t in Ht, Hq.
  assert (∀ t' b, ∃ d, (∀ x y, builder_update domainFromTree domain_and (Some t') (Builder x (Some t') y b) = [Update d]) ∧
    says d r = holds (atom r) (complex r) t' ∧ asks d = asks_active complex_active t' || b) as Hup.
  { intros t' b. exists (domain_and (domainFromTree t') (if b then ARCHIVED_DOMAIN else "[]")). split; [done|].
    rewrite dom_and, dom_from, asks_and, asks_from.
    destruct b; [rewrite Ha1, asks_archived|rewrite He2, Hk]; by rewrite andb_true_r. }
  assert (∀ t' b x y, holds (atom r) (complex r) t' = says (bp_domain p) r → asks (bp_domain p) = asks_active complex_active t' || b →
    let s1 := Builder x (Some t') y b in
    (∃ d, builder_update domainFromTree domain_and (db_tree s1) s1 = [Update d] ∧
      finds says asks active d r = finds says asks active (bp_domain p) r) ∧
    (∃ d rest, (toggleIncludeArchived domainFromTree domain_and s1).2 = [Update d] ∧ db_tree s1 = Some rest ∧
      says d r = says (bp_domain p) r ∧ asks (bp_domain p) = asks_active complex_active rest || db_includeArchived s1 ∧
      asks d = asks_active complex_active rest || negb (db_includeArchived s1))) as Hall.
  { intros t' b x y E1 E2. split.
    - destruct (Hup t' b) as (d & Eu & Es & Ea). exists d. split; [apply Eu|]. unfold finds. by rewrite Es, Ea, E1, E2.
    - destruct (Hup t' (negb b)) as (d & Eu & Es & Ea). exists d, t'. split_and!; [apply Eu|done|by rewrite Es|done|done]. }
  unfold fields_loaded. rewrite Hd. cbn [negb]. fold t. destruct hasActive; cbn [negb].
  - destruct (take_archived _ t) as [[t' b]|e] eqn:E; [|done]. intros _.
    assert (holds (atom r) (complex r) (treeFromDomain false "[]") = true) as He by by rewrite dom_tree.
    destruct (take_archived_holds (atom r) (complex r) Ha2 _ _ t' b He Hn E) as [Hh Hb].
    assert (asks_active complex_active (treeFromDomain false "[]") = false) as Hea by by rewrite asks_tree.
    pose proof (take_archived_asks complex_active _ _ _ _ Hea E) as Hta. split; [cbn [db_includeArchived]; rewrite Hb; by split; [|intros []]|].
    apply Hall; [by rewrite Hh|by rewrite <- Hq].
  - intros _. split; [by split; [|intros []]|]. apply Hall; [done|by rewrite orb_false_r, Hq].
Qed.

(** ** Examples *)

Module BuilderDemo.
(** Four domains of the one record there is: they say yes or no of it, and have a
    condition on [active] or not. *)
Definition never : string := "[(0, '=', 1)]".
Definition never_archived : string := "[(0, '=', 1), ('active', 'in', [True, False])]".
Definition domain_of (yes archived : bool) : string :=
  if yes then if archived then ARCHIVED_DOMAIN else "[]" else if archived then never_archived else never.
Definition says (d : string) (_ : unit) : bool := negb ((d =s never) || (d =s never_archived)).
Definition asks (d : string) : bool := (d =s ARCHIVED_DOMAIN) || (d =s never_archived).
Definition atom (_ : unit) (p _ _ : cell) : bool := match p with Plain (JNum _) => false | _ => true end.
Definition complex (_ : unit) (_ : string) : bool := true.
Definition complex_active (_ : string) : bool := false.
Definition won : tree := condition (text_cell "state") (text_cell "=") (text_cell "won").
Definition treeFromDomain (_ : bool) (d : string) : tree :=
  connector "&" ([if says d () then won else condition (Plain (JInt 0)) (text_cell "=") (Plain (JInt 1))] ++
                 if asks d then [ARCHIVED_CONDITION] else []).
Definition domainFromTree (t : tree) : string := domain_of (holds (atom ()) (complex ()) t) (asks_active complex_active t).
Definition domain_and (a b : string) : string := domain_of (says a () && says b ()) (asks a || asks b).

Lemma says_of yes archived : says (domain_of yes archived) () = yes ∧ asks (domain_of yes archived) = archived.
Proof. by destruct yes, archived; vm_compute. Qed.

#[export] Instance demo_domains :
  Domains unit (λ _, true) treeFromDomain domainFromTree domain_and says atom complex asks complex_active.
Proof.
  split; try (intros; try destruct r; by vm_compute).
  - intros b d [] _. unfold treeFromDomain. by destruct (says d ()), (asks d).
  - intros t []. apply says_of.
  - intros a b []. apply says_of.
  - intros b d _. unfold treeFromDomain. by destruct (says d ()), (asks d).
  - intros t. apply says_of.
  - intros a b. apply says_of.
Qed.

Definition opened : builder * outcome unit :=
  fields_loaded (λ _, true) treeFromDomain (BuilderProps ARCHIVED_DOMAIN false false false) true (Builder false None false false).


(** A record that is archived, in the domain of won records that asks for archived
    ones: found until the checkbox is switched. *)
Lemma builder_keeps_meaning_witness :
  opened = (Builder false (Some won) true true, Ret tt) ∧
  (∃ d, builder_update domainFromTree domain_and (Some won) opened.1 = [Update d] ∧ finds says asks (λ _, false) d () = true) ∧
  ∃ d, (toggleIncludeArchived domainFromTree domain_and opened.1).2 = [Update d] ∧ finds says asks (λ _, false) d () = false.
Proof.
  assert (opened = (Builder false (Some won) true true, Ret tt)) as E by reflexivity. split; [exact E|].
  pose proof (builder_keeps_meaning (HD := demo_domains) (λ _, false) (BuilderProps ARCHIVED_DOMAIN false false false) true
    (Builder false None false false) () eq_refl eq_refl) as H. cbv zeta in H.
  change (fields_loaded _ _ _ _ _) with opened in H. rewrite E in H. rewrite E. cbn [fst].
  destruct (H eq_refl) as (_ & (d & Hd & Hf) & (d' & rest & Hd' & Hr & _ & _ & Ha)). split.
  - exists d. split; [exact Hd|]. rewrite Hf. reflexivity.
  - exists d'. split; [exact Hd'|]. injection Hr as <-. unfold finds. rewrite Ha. apply andb_false_r.
Defined.

Lemma domain_toggled_twice_witness :
  let p := BuilderProps " [('a', '=', 1)] " false false false in
  let s := Builder false None false false in
  ∃ e, (toggleExpression (λ _, true) p s).2 = [Update e] ∧
    toggleExpression (λ _, true) (BuilderProps e false false false) (toggleExpression (λ _, true) p s).1 = (s, [Update "[('a', '=', 1)]"]).
Proof.
  intros p s.
  pose proof (domain_toggled_twice (λ _, true) p s "('a', '=', 1)]" " [('a', '=', 1)] " eq_refl eq_refl (or_introl (conj eq_refl eq_refl))) as H.
  destruct (toggleExpression (λ _, true) p s) as [s1 us1]. destruct H as (e & -> & _ & H). exists e. split; [reflexivity|exact H].
Defined.

(** A negated group loses its negation with the condition that is taken out. *)
Example negation_lost empty a :
  take_archived empty (Connector true "&" [a; ARCHIVED_CONDITION]) =
  if is_archived a then Ret (Connector true "&" [], true) else Ret (a, true).
Proof. cbn. by destruct (is_archived a). Qed.

(** A condition whose value is the text of a connector stops the builder. *)
Example ampersand_throws :
  take_archived (connector "&" []) (condition (text_cell "name") (text_cell "=") (text_cell "&")) = Throw "TypeError".
Proof. done. Qed.

(** The code editor shows an expression without its braces, and stores what is typed
    there without them. *)
Example braces_lost :
  let s := Builder true None false false in
  codeEditorDisplayValue (BuilderProps "={{ _json.domain }}" false false false) s = "_json.domain" ∧
  (onDomainChange "_json.domains" s).2 = [Update "=_json.domains"].
Proof. by vm_compute. Qed.

(** A plain domain that is given from outside while the builder shows an expression
    is shown as an expression. *)
Example expression_kept :
  db_isExpression (sync_expression (BuilderProps "[]" false false false) (Builder true None false false)) = true.
Proof. done. Qed.
End BuilderDemo.
