(* ===== verification/WorkflowNode.v ===== *)
(** * Nodes on the canvas (components/workflow_node.js, workflow_socket.js,
    canvas_node_toolbar.js)

    A node, its sockets and its toolbar, with the props the canvas gives it
    (components/editor_canvas.js, [getWorkflowNodeProps]).  What an event of the
    mouse does follows the handlers from the place it happens at outwards, up to
    the canvas. *)

From S2P Require Import Prelude JsMap JsValue JsNumber JsString Connection Node Nodes Editor EditorInv Adapter AdapterInv AdapterEquiv AdapterRun History HistoryTimeline Commands Store StoreInv StoreRun StoreBatch StoreExec WorkflowCommands Dimensions Geometry ViewportHook Drag Drawing Gestures CanvasInput Dfs GraphUtils Dagre Layout CanvasTidy Clipboard ClipboardCopy CanvasEdit CanvasContext Expression ConfigPanel.

(** ** Sockets *)

Record socket_props := SocketProps {
  sp_type : socket_type;
  sp_name : string;
  sp_label : jsval;
  sp_nodeId : string;
  sp_isConnected : bool;
  sp_isSnapped : bool;
  sp_readonly : bool;
  sp_callbacks : bool;
}.

Definition socket_data (p : socket_props) : socket_ref := SocketRef (sp_nodeId p) (sp_name p) (sp_type p).

(** [onPointMouseDown(ev)]: what [onMouseDown] is called with. *)
Definition onPointMouseDown (p : socket_props) (button : N) : option socket_ref :=
  if sp_readonly p then None
  else if negb (button =? 0)%N then None
  else if sp_callbacks p then Some (socket_data p) else None.

(** [onSocketMouseDown(ev)] of the row; [onConnector] is whether the target is
    in the connector of the button. *)
Definition row_mouseDown (p : socket_props) (onConnector : bool) (button : N) : option socket_ref :=
  match sp_type p with
  | InputSocket => None
  | OutputSocket =>
      if sp_readonly p then None else if onConnector then None else onPointMouseDown p button
  end.

(** [onPointMouseUp(ev)], [onSocketMouseUp(ev)] *)
Definition onPointMouseUp (p : socket_props) : option socket_ref :=
  if sp_readonly p then None else if sp_callbacks p then Some (socket_data p) else None.
Definition row_mouseUp (p : socket_props) : option socket_ref :=
  match sp_type p with
  | OutputSocket => None
  | InputSocket => if sp_readonly p then None else onPointMouseUp p
  end.

(** [onQuickAddClick(ev)], [onQuickAddMouseDown(ev)] *)
Definition onQuickAddClick (p : socket_props) : option (string * string) :=
  if sp_readonly p then None else if sp_callbacks p then Some (sp_nodeId p, sp_name p) else None.
Definition onQuickAddMouseDown (p : socket_props) (button : N) : option socket_ref :=
  if sp_readonly p then None
  else if negb (button =? 0)%N then None
  else if sp_callbacks p then Some (socket_data p) else None.

(** The connector is drawn. *)
Definition has_connector (p : socket_props) : bool :=
  match sp_type p with OutputSocket => negb (sp_isConnected p) && sp_callbacks p | InputSocket => false end.

(** ** The toolbar *)

Inductive toolbar_call := ToolExecute | ToolDelete | ToolToggle | ToolConfig | ToolMenu.

#[export] Instance toolbar_call_eq_dec : EqDecision toolbar_call.
Proof. solve_decision. Defined.

(** The callbacks that are given. *)
Record toolbar_props := ToolbarProps { tb_nodeId : string; tb_isDisabled : bool; tb_given : list toolbar_call }.

Definition toolbar_prop (c : toolbar_call) : string :=
  match c with
  | ToolExecute => "onExecute" | ToolDelete => "onDelete" | ToolToggle => "onToggleDisable"
  | ToolConfig => "onOpenConfig" | ToolMenu => "onOpenMenu"
  end.

(** [onExecuteClick], [onDeleteClick], [onToggleClick], [onConfigClick] and
    [onMenuClick]: the callback is called with the id, or its lack is an error. *)
Definition toolbar_click (p : toolbar_props) (c : toolbar_call) : outcome (toolbar_call * string) :=
  if bool_decide (c ∈ tb_given p) then Ret (c, tb_nodeId p)
  else Throw ("[CanvasNodeToolbar] Missing " +:+ toolbar_prop c +:+ " prop").

(** The buttons that are drawn. *)
Definition toolbar_buttons (p : toolbar_props) : list toolbar_call :=
  [ToolConfig; ToolToggle; ToolDelete] ++ (if bool_decide (ToolMenu ∈ tb_given p) then [ToolMenu] else []).

Definition toggleTitle (p : toolbar_props) : string := if tb_isDisabled p then "Enable node" else "Disable node".
Definition toggleIcon (p : toolbar_props) : string := if tb_isDisabled p then "fa-toggle-off" else "fa-toggle-on".

(** ** The props of a node *)

Record node_props := NodeProps {
  np_node : ui_node;
  np_selected : bool;
  np_executionStatus : jsval;
  np_snappedSocketKey : option string;
  np_connectedOutputsSet : list string;
  np_readonly : bool;
  np_callbacks : bool;
}.

(** The id of a node; those of the canvas have one. *)
Definition node_id (n : ui_node) : string := default "undefined" (ui_id n).

(** [canEdit] of the canvas *)
Definition canvas_canEdit (c : canvas) : bool := match cv_editor c with Some s => canEdit s | None => false end.
Definition canvas_selection (c : canvas) : list string :=
  match cv_editor c with Some s => (selection (st_ui s)).1 | None => [] end.

(** [getWorkflowNodeProps(node)]; [progress] is that of the execution,
    [connections] are those of the canvas. *)
Definition getWorkflowNodeProps (c : canvas) (progress : jsval) (connections : list ui_connection) (n : ui_node) : node_props :=
  let snappedSocket := if canvas_canEdit c then dw_snappedSocket (cv_drawing c) else None in
  NodeProps n (bool_decide (node_id n ∈ canvas_selection c))
    (js_or (default JUndef (jget (node_id n) (nodeExecutionStatusMap progress))) JNull)
    (match snappedSocket with Some sn => if sn_node sn =s node_id n then Some (sn_key sn) else None | None => None end)
    (connectedOutputsSet connections) (negb (canvas_canEdit c)) (canvas_canEdit c).

Section node.
Context (p : node_props).
Abbreviation n := (np_node p).
(** The store, in editor mode, and the models known. *)
Context (editor : option store) (fetched : option (list model_meta)) (num_toString : num → string).

(** [isReadonly] of the node *)
Definition node_isReadonly : bool := np_readonly p || (if editor then false else true).

(** *** Titles and icons *)

(** A text of the configuration of the node, trimmed. *)
Definition config_text (key : string) : string :=
  match editor with
  | None => ""
  | Some s => match oprop (Adapter.getNodeConfig (st_adapter s) (node_id n)) key with JStr t => trim t | _ => "" end
  end.

(** [_getRecordOperationModelName()], [_getRecordOperationOperation()],
    [_getRecordOperationOperationLabel(operation)] *)
Definition getRecordOperationModelName : string := config_text "model".
Definition getRecordOperationOperation : string := toLowerCase (config_text "operation").
Definition getRecordOperationOperationLabel (operation : string) : string :=
  default "Record Operation"
    (jget operation [("search", "Search"); ("create", "Create"); ("write", "Update"); ("delete", "Delete")]).

(** [_getRecordOperationModelLabel()], [_getRecordOperationIcon()] *)
Definition getRecordOperationModelLabel : string :=
  let modelName := getRecordOperationModelName in
  if modelName =s "" then ""
  else match getModelMetaByName fetched modelName with
       | Some meta => if trim (mm_description meta) =s "" then modelName else trim (mm_description meta)
       | None => modelName
       end.
Definition getRecordOperationIcon : string :=
  if negb (ui_type n =s "record_operation") then ""
  else
    let modelName := getRecordOperationModelName in
    if modelName =s "" then "" else match getModelMetaByName fetched modelName with Some meta => mm_iconUrl meta | None => "" end.

Definition NODE_ICONS : list (string * string) :=
  [("http", "fa-globe"); ("http_request", "fa-globe"); ("validation", "fa-check-circle"); ("loop", "fa-repeat");
   ("if", "fa-code-branch"); ("switch", "fa-random"); ("code", "fa-code"); ("noop", "fa-circle-o"); ("set_variable", "fa-tag")].

(** [nodeIcon] and how it is drawn *)
Definition nodeIcon : string :=
  if negb (getRecordOperationIcon =s "") then getRecordOperationIcon
  else if negb (ui_icon n =s "") then ui_icon n
  else default "fa-cube" (jget (ui_type n) NODE_ICONS).
Definition starts_with (prefix s : string) : bool := if strip_prefix prefix s is Some _ then true else false.
Definition isImageIcon : bool :=
  starts_with "/" nodeIcon || starts_with "http://" nodeIcon || starts_with "https://" nodeIcon || starts_with "data:image/" nodeIcon.
Definition isFontAwesomeIcon : bool := starts_with "fa-" nodeIcon.
Definition fontAwesomeClass : string := "fa " +:+ nodeIcon.
Definition nodeTypeClass : string := "workflow-node--" +:+ (if ui_type n =s "" then "default" else ui_type n).

(** [displaySubtitle], [displayTitle], [executionClass] *)
Definition displaySubtitle (isDebug : bool) : string := if isDebug then ui_type n else "".
Definition displayTitle : string :=
  if negb (ui_type n =s "record_operation") then (if ui_title n =s "" then ui_type n else ui_title n)
  else
    let operationLabel := getRecordOperationOperationLabel getRecordOperationOperation in
    let modelLabel := getRecordOperationModelLabel in
    if modelLabel =s "" then operationLabel else operationLabel +:+ " " +:+ modelLabel.
Definition executionClass : string :=
  match np_executionStatus p with
  | JStr s => if bool_decide (s ∈ ["running"; "success"; "error"]) then "execution-" +:+ s else ""
  | _ => ""
  end.

(** [isManualTrigger], [isPinned], [isDisabled] *)
Definition isManualTrigger : bool := ui_type n =s "manual_trigger".
Definition isPinned : bool := match editor with Some s => isNodePinned s (node_id n) | None => false end.
Definition isDisabled : bool := match editor with Some s => isNodeDisabled s (node_id n) | None => false end.

(** *** Sockets *)

(** [inputEntries], [outputEntries]: the name of a socket and its definition *)
Definition inputEntries : list (string * jsval) := ui_inputs n.
Definition outputEntries : list (string * jsval) := ui_outputs n.

Definition isOutputConnected (socketKey : string) : bool :=
  bool_decide (node_id n +:+ ":" +:+ socketKey ∈ np_connectedOutputsSet p).

(** [getInputSocketProps(socketEntry)], [getOutputSocketProps(socketEntry)]; the
    callbacks call those of the canvas, where there are any. *)
Definition getInputSocketProps (e : string * jsval) : socket_props :=
  SocketProps InputSocket e.1 (prop e.2 "label") (node_id n) false (bool_decide (np_snappedSocketKey p = Some e.1))
    node_isReadonly (negb node_isReadonly).
Definition getOutputSocketProps (e : string * jsval) : socket_props :=
  SocketProps OutputSocket e.1 (prop e.2 "label") (node_id n) (isOutputConnected e.1) false
    node_isReadonly (negb node_isReadonly).

(** *** The toolbar *)

(** [toolbarProps] without its cache, and with it: the props last made. *)
Definition fresh_toolbar : toolbar_props :=
  ToolbarProps (node_id n) isDisabled [ToolExecute; ToolDelete; ToolToggle; ToolConfig].
Definition toolbarProps (cache : option toolbar_props) : option toolbar_props * option toolbar_props :=
  if node_isReadonly then (None, cache)
  else
    let cache :=
      match cache with
      | Some t => if (tb_nodeId t =s node_id n) && Bool.eqb (tb_isDisabled t) isDisabled then t else fresh_toolbar
      | None => fresh_toolbar
      end in
    (Some cache, Some cache).

(** *** The style *)

(** [nodeStyle] where the configuration has no [getNodeStyle] of its own; a
    number that is not there is the default. *)
Definition nodeStyle_fallback (dc : dim_options) (cssProps : list (string * string)) : string :=
  let styles := "left:" +:+ num_toString (ui_x n) +:+ "px;top:" +:+ num_toString (ui_y n) +:+ "px;" in
  let styles := foldl (λ acc kv, acc +:+ kv.1 +:+ ":" +:+ kv.2 +:+ ";") styles cssProps in
  let maxSockets := Nat.max (length inputEntries) (length outputEntries) in
  let socketPitch := default (num_of_Z 24) (o_socketPitch dc) in
  let socketMinRows := default (num_of_Z 2) (o_socketMinRows dc) in
  let socketClearanceY := default (num_of_Z 10) (o_socketClearanceY dc) in
  let nodeChromeMinHeight := default (num_of_Z 68) (o_nodeChromeMinHeight dc) in
  let layoutRowCount := match maxSockets with O => num_of_Z 0 | k => num_max (num_of_nat k) socketMinRows end in
  let socketDrivenMinHeight :=
    if bool_decide (layoutRowCount = 0%Qc) then num_of_Z 0
    else (layoutRowCount * socketPitch + socketClearanceY * num_of_Z 2)%Qc in
  styles +:+ "min-height:" +:+ num_toString (num_max nodeChromeMinHeight socketDrivenMinHeight) +:+ "px;".

(** [nodeStyle] over a [DimensionConfig] *)
Definition nodeStyle (d : DimensionConfig) : string := getNodeStyle d num_toString n.
End node.

(** ** The mouse over a node *)

(** Where in the node an event happens. *)
Inductive node_place :=
| AtBody
| AtToolbar
| AtDot (t : socket_type) (key : string)
| AtRow (t : socket_type) (key : string)
| AtConnector (key : string).

(** [onHeaderMouseDown(ev)]: the selection it leaves. *)
Definition header_selection (nodeId : string) (ctrl : bool) (currentSelection : list string) : option (list string) :=
  let isSelected := bool_decide (nodeId ∈ currentSelection) in
  if ctrl then
    if isSelected then Some (bfilter (λ i, negb (i =s nodeId)) currentSelection) else Some (currentSelection ++ [nodeId])
  else if isSelected then None else Some [nodeId].

Definition select_nodes (ids : option (list string)) (s : store) : store :=
  match ids with Some ids => select s ids [] | None => s end.

(** An action of the store from the canvas. *)
Definition canvas_store (f : store → store) (c : canvas) : canvas := with_gestures c (gs_store f (cv_gestures c)).

Section mouse.
Context (reg : odoo_registry) (dims : DimensionConfig) (root : rect).
Context (progress : jsval) (connections : list ui_connection).

Definition header_mouseDown (n : ui_node) (ctrl : bool) (client : position) (c : canvas) : canvas :=
  let c := canvas_store (select_nodes (header_selection (node_id n) ctrl (canvas_selection c))) c in
  node_dragStart c (node_id n) client.

(** The props of a socket of the node. *)
Definition socket_of (c : canvas) (n : ui_node) (t : socket_type) (key : string) : socket_props :=
  let p := getWorkflowNodeProps c progress connections n in
  match t with
  | InputSocket => getInputSocketProps p (cv_editor c) (key, default JUndef (jget key (ui_inputs n)))
  | OutputSocket => getOutputSocketProps p (cv_editor c) (key, default JUndef (jget key (ui_outputs n)))
  end.

(** A press of a button of the mouse. *)
Definition node_mouseDown (n : ui_node) (place : node_place) (button : N) (ctrl : bool) (client : position) (c : canvas) : canvas :=
  let body :=
    if node_isReadonly (getWorkflowNodeProps c progress connections n) (cv_editor c)
    then canvas_mouseDown root c (MouseEvent button false false true client)
    else header_mouseDown n ctrl client c in
  let socket_call (d : option socket_ref) :=
    match d with Some d => socket_mouseDown root c d client | None => c end in
  match place with
  | AtBody => body
  | AtToolbar => c
  | AtDot t key => socket_call (onPointMouseDown (socket_of c n t key) button)
  | AtConnector key => socket_call (onQuickAddMouseDown (socket_of c n OutputSocket key) button)
  | AtRow t key =>
      match row_mouseDown (socket_of c n t key) false button with
      | Some d => socket_mouseDown root c d client
      | None => body
      end
  end.

(** Its release: the handlers of the sockets, and that of the document where no
    handler stops it. *)
Definition node_mouseUp (n : ui_node) (place : node_place) (client : position) (c : canvas) : canvas :=
  match place with
  | AtDot t key =>
      match onPointMouseUp (socket_of c n t key) with Some d => socket_mouseUp c d | None => c end
  | AtRow t key =>
      let c := match row_mouseUp (socket_of c n t key) with Some d => socket_mouseUp c d | None => c end in
      onDocumentMouseUp dims root c Elsewhere client
  | _ => onDocumentMouseUp dims root c Elsewhere client
  end.

(** [onNodeDoubleClick(ev)]; the callback is given when the canvas can be
    edited. *)
Definition node_doubleClick (n : ui_node) (place : node_place) (c : canvas) : canvas :=
  match place with
  | AtBody =>
      let p := getWorkflowNodeProps c progress connections n in
      if np_callbacks p then canvas_store (λ s, onNodeOpenConfig s (node_id n)) c else c
  | _ => c
  end.

(** [onDeleteNode], [onExecuteNode], [onToggleDisable] and [_onToolbarOpenConfig]:
    a click on a button of the toolbar, which is drawn when there are props. *)
Definition toolbar_action (nodeId : string) (k : toolbar_call) (s : store) : store :=
  match k with
  | ToolExecute | ToolConfig => onNodeOpenConfig s nodeId
  | ToolDelete => onNodeDelete reg s nodeId
  | ToolToggle => (onNodeToggleDisable s nodeId).1
  | ToolMenu => s
  end.
Definition node_toolbarClick (n : ui_node) (cache : option toolbar_props) (k : toolbar_call) (c : canvas) : outcome canvas :=
  let p := getWorkflowNodeProps c progress connections n in
  match (toolbarProps p (cv_editor c) cache).1 with
  | None => Ret c
  | Some t =>
      match toolbar_click t k with
      | Throw msg => Throw msg
      | Ret (k, _) => Ret (if node_isReadonly p (cv_editor c) then c else canvas_store (toolbar_action (node_id n) k) c)
      end
  end.

(** [onTriggerExecute(ev)]: the node an execution starts from. *)
Definition onTriggerExecute (n : ui_node) (c : canvas) : option string :=
  if node_isReadonly (getWorkflowNodeProps c progress connections n) (cv_editor c) then None else Some (node_id n).

(** A click on the button of the connector. *)
Definition node_quickAdd (n : ui_node) (key : string) (c : canvas) : canvas :=
  match onQuickAddClick (socket_of c n OutputSocket key) with
  | Some (i, k) => canvas_store (λ s, onSocketQuickAdd dims s i k) c
  | None => c
  end.

(** ** Properties *)

(** What a press on the body leaves as selection. *)
Lemma header_selected nodeId ctrl sel :
  let sel' := default sel (header_selection nodeId ctrl sel) in
  (∀ j, j ∈ sel' ↔ if ctrl then (if bool_decide (j = nodeId) then nodeId ∉ sel else j ∈ sel)
                   else if bool_decide (nodeId ∈ sel) then j ∈ sel else j = nodeId).
Proof using Type.
  intros sel' j. unfold sel', header_selection. destruct ctrl; case_bool_decide as E; unfold default; cbn [from_option id].
  - rewrite elem_of_bfilter, negb_true_iff, bool_decide_eq_false. case_bool_decide as Ej; [subst; tauto|tauto].
  - rewrite elem_of_app, list_elem_of_singleton. case_bool_decide as Ej; [subst|]; tauto.
  - done.
  - by rewrite list_elem_of_singleton.
Qed.

Lemma editable c s : cv_editor c = Some s → readonly (st_ui s) = false → canvas_canEdit c = true.
Proof using Type. intros Hs Hr. unfold canvas_canEdit, canEdit. by rewrite Hs, Hr. Qed.

Lemma editable_node c s n :
  cv_editor c = Some s → readonly (st_ui s) = false →
  node_isReadonly (getWorkflowNodeProps c progress connections n) (cv_editor c) = false.
Proof using Type. intros Hs Hr. unfold node_isReadonly, getWorkflowNodeProps. cbn [np_readonly]. by rewrite (editable c s Hs Hr), Hs. Qed.

(** The socket of a node of a canvas that can be edited names itself. *)
Lemma socket_calls c s n i t key :
  cv_editor c = Some s → readonly (st_ui s) = false → ui_id n = Some i →
  onPointMouseDown (socket_of c n t key) 0 = Some (SocketRef i key t) ∧
  onPointMouseUp (socket_of c n t key) = Some (SocketRef i key t) ∧
  row_mouseDown (socket_of c n t key) false 0 = (match t with OutputSocket => Some (SocketRef i key t) | InputSocket => None end) ∧
  row_mouseUp (socket_of c n t key) = (match t with InputSocket => Some (SocketRef i key t) | OutputSocket => None end) ∧
  onQuickAddMouseDown (socket_of c n t key) 0 = Some (SocketRef i key t).
Proof using Type.
  intros Hs Hr Hi. pose proof (editable_node c s n Hs Hr) as Hro.
  assert (sp_readonly (socket_of c n t key) = false ∧ sp_callbacks (socket_of c n t key) = true ∧
          sp_type (socket_of c n t key) = t ∧ socket_data (socket_of c n t key) = SocketRef i key t) as (E1 & E2 & E3 & E4).
  { unfold socket_of, socket_data. destruct t; cbn [getInputSocketProps getOutputSocketProps sp_readonly sp_callbacks sp_type sp_nodeId sp_name fst];
      rewrite Hro; unfold node_id; cbn [np_node getWorkflowNodeProps]; by rewrite Hi. }
  unfold onPointMouseDown, onPointMouseUp, row_mouseDown, row_mouseUp, onQuickAddMouseDown.
  unfold onPointMouseDown, onPointMouseUp. rewrite E1, E2, E3, E4. by destruct t.
Qed.

(** A line begins at an output. *)
Lemma output_pressed c s i key client :
  cv_editor c = Some s → readonly (st_ui s) = false →
  let c' := socket_mouseDown root c (SocketRef i key OutputSocket) client in
  connecting c' = true ∧ dw_connectionStart (cv_drawing c') = Some (SocketRef i key OutputSocket) ∧
  cv_editor c' = Some s ∧ cv_drag c' = cv_drag c.
Proof using Type.
  intros Hs Hr. unfold socket_mouseDown. rewrite Hs, Hr. unfold onSocketMouseDown, drawing_readonly. cbn [drawing_in on_drawing_store dw_store].
  rewrite Hr. done.
Qed.

(** The body of a node is pressed. *)
Definition picked_up (c c' : canvas) (i : string) (ctrl : bool) (s : store) : Prop :=
  ∃ s', cv_editor c' = Some s' ∧ st_adapter s' = st_adapter s ∧ connecting c' = connecting c ∧
    (∀ j, j ∈ (selection (st_ui s')).1 ↔
       if ctrl then (if bool_decide (j = i) then i ∉ (selection (st_ui s)).1 else j ∈ (selection (st_ui s)).1)
       else if bool_decide (i ∈ (selection (st_ui s)).1) then j ∈ (selection (st_ui s)).1 else j = i) ∧
    in_drag c' = true ∧ i ∈ ds_nodeIds (dg_state (cv_drag c')) ∧
    (i ∈ (selection (st_ui s')).1 → ds_nodeIds (dg_state (cv_drag c')) = (selection (st_ui s')).1).

Lemma header_picks_up c s n i ctrl client :
  cv_editor c = Some s → readonly (st_ui s) = false → ui_id n = Some i →
  picked_up c (header_mouseDown n ctrl client c) i ctrl s.
Proof using Type.
  intros Hs Hr Hi. unfold header_mouseDown, node_id, canvas_selection. rewrite Hi, Hs. cbn [default from_option id].
  set (o := header_selection i ctrl (selection (st_ui s)).1). set (s' := select_nodes o s).
  assert (cv_editor (canvas_store (select_nodes o) c) = Some s') as Hs'.
  { unfold canvas_store, cv_editor, cv_view, gs_store, cv_editor, cv_view in *. simpl. by rewrite Hs. }
  assert (readonly (st_ui s') = false) as Hr' by (unfold s', select_nodes; by destruct o).
  unfold node_dragStart. rewrite Hs', Hr'. unfold onNodeDragStart.
  assert (vs_editor (dg_view (drag_in (canvas_store (select_nodes o) c))) = Some s') as -> by exact Hs'. rewrite Hr'.
  exists s'. split_and!; [exact Hs'|unfold s', select_nodes; by destruct o|done| |done| |].
  - intros j. rewrite <- header_selected. fold o. unfold s', select_nodes. destruct o as [ids|]; [|done].
    change (j ∈ unique_from [] ids ↔ j ∈ ids). rewrite elem_of_unique_from. set_solver.
  - cbn [drag_out cv_drag dg_state with_dragging with_lastPointer with_dragState ds_nodeIds]. simpl.
    case_bool_decide; [done|by left].
  - intros Hin. simpl. by rewrite bool_decide_true.
Qed.

(** C12: A press of the left button on a node of a canvas that can be edited does one
    thing.  On an output socket, its row or the connector it begins a line at
    exactly that socket and neither selects nor drags; on the body, or the row of
    an input, it picks the node up: the selection is toggled with Ctrl, kept when
    the node is in it and else the node alone, and what is dragged is that
    selection, the node among it.  On the toolbar it does nothing. *)
Theorem press_exact c s n i place ctrl client :
  cv_editor c = Some s → readonly (st_ui s) = false → ui_id n = Some i →
  let c' := node_mouseDown n place 0 ctrl client c in
  match place with
  | AtToolbar => c' = c
  | AtDot OutputSocket key | AtRow OutputSocket key | AtConnector key =>
      connecting c' = true ∧ dw_connectionStart (cv_drawing c') = Some (SocketRef i key OutputSocket) ∧
      cv_editor c' = Some s ∧ cv_drag c' = cv_drag c
  | AtDot InputSocket _ => cv_editor c' = Some s ∧ cv_drag c' = cv_drag c ∧ connecting c' = connecting c
  | AtBody | AtRow InputSocket _ => picked_up c c' i ctrl s
  end.
Proof using Type.
  intros Hs Hr Hi. pose proof (editable_node c s n Hs Hr) as Hro. unfold node_mouseDown. rewrite Hro.
  destruct place as [| |t key|t key|key]; cbv zeta.
  - by apply header_picks_up.
  - done.
  - destruct (socket_calls c s n i t key Hs Hr Hi) as (-> & _). destruct t; [|by apply output_pressed].
    unfold socket_mouseDown. rewrite Hs, Hr. unfold onSocketMouseDown, drawing_readonly.
    cbn [drawing_in on_drawing_store dw_store]. by rewrite Hr.
  - destruct (socket_calls c s n i t key Hs Hr Hi) as (_ & _ & -> & _). destruct t; [by apply header_picks_up|by apply output_pressed].
  - destruct (socket_calls c s n i OutputSocket key Hs Hr Hi) as (_ & _ & _ & _ & ->). by apply output_pressed.
Qed.

(** While a line is drawn from [start] and nothing else is in progress. *)
Record drawing_from (c : canvas) (s : store) (start : socket_ref) : Prop := {
  df_editor : cv_editor c = Some s;
  df_readonly : readonly (st_ui s) = false;
  df_output : sr_type start = OutputSocket;
  df_connecting : connecting c = true;
  df_start : dw_connectionStart (cv_drawing c) = Some start;
  df_idle : panning c = false ∧ selecting c = false ∧ in_drag c = false;
}.

Lemma idle_move c s client :
  cv_editor c = Some s → panning c = false ∧ selecting c = false ∧ in_drag c = false →
  (gestures_mouseMove (cv_gestures c) root client).2 = false ∧ (drag_mouseMove (drag_in c) client (Some root)).2 = false.
Proof using Type.
  intros Hs (Hp & Hsel & Hd). unfold panning, selecting, in_drag in *. split.
  - unfold gestures_mouseMove. by rewrite Hp, Hsel, andb_false_r.
  - unfold drag_mouseMove. destruct (is_readonly _); [done|]. change (dg_isDragging (drag_in c)) with (dg_isDragging (cv_drag c)). by rewrite Hd.
Qed.

Lemma drawing_moves c s start op :
  (match op with MouseUp _ _ => False | _ => True end) →
  drawing_from c s start → drawing_from (mouse_step dims root c op) s start.
Proof using Type.
  intros Hop [Hs Hr Ho Hc Hst Hi]. destruct op as [client| |]; [| |done]; cbn [mouse_step].
  - unfold onDocumentMouseMove. destruct (isReadonly c); [done|]. destruct (cv_mouseMoveFrame c); [done|]. by split.
  - unfold mouse_frame. destruct (cv_mouseMoveFrame c) as [client|]; [|done].
    set (c0 := with_frame c None). destruct (idle_move c0 s client Hs Hi) as [Hg Hd].
    destruct (gestures_mouseMove (cv_gestures c0) root client) as [g b] eqn:Eg. cbn [snd] in Hg. subst b.
    assert (cv_editor c0 = Some s) as -> by exact Hs.
    destruct (drag_mouseMove (drag_in c0) client (Some root)) as [g' b] eqn:Ed. cbn [snd] in Hd. subst b.
    unfold drawing_mouseMove, drawing_readonly. cbn [drawing_in on_drawing_store dw_store dw_isConnecting].
    unfold connecting in Hc. change (dw_isConnecting (cv_drawing c0)) with (dw_isConnecting (cv_drawing c)). rewrite Hr, Hc.
    split; [done|done|done|done|exact Hst|exact Hi].
Qed.

Lemma drawing_run c s start ops :
  Forall (λ op, match op with MouseUp _ _ => False | _ => True end) ops →
  drawing_from c s start → drawing_from (foldl (mouse_step dims root) c ops) s start.
Proof using Type.
  intros Hops. revert c. induction Hops as [|op ops Hop _ IH]; intros c Hc; [done|]. by apply IH, drawing_moves.
Qed.

(** The release over an input of another node. *)
Lemma input_released c s i1 k1 i2 k2 :
  drawing_from c s (SocketRef i1 k1 OutputSocket) → i1 ≠ i2 →
  let c' := socket_mouseUp c (SocketRef i2 k2 InputSocket) in
  cv_editor c' = Some (addConnection s i1 k1 i2 k2).1 ∧ connecting c' = false ∧
  panning c' = false ∧ selecting c' = false ∧ in_drag c' = false.
Proof using Type.
  intros [Hs Hr _ Hc Hst Hi] Hne. unfold socket_mouseUp. rewrite Hs, Hr. unfold onSocketMouseUp, drawing_readonly.
  cbn [drawing_in on_drawing_store dw_store dw_isConnecting dw_connectionStart]. unfold connecting in Hc.
  rewrite Hr, Hc, Hst. cbn [negb sr_type is_output andb sr_node sr_key]. rewrite (bool_decide_false (i1 = i2)) by done. by split.
Qed.

Lemma idle_release c s client :
  cv_editor c = Some s → connecting c = false → panning c = false ∧ selecting c = false ∧ in_drag c = false →
  cv_editor (onDocumentMouseUp dims root c Elsewhere client) = Some s ∧
  connecting (onDocumentMouseUp dims root c Elsewhere client) = false.
Proof using Type.
  intros Hs Hc (Hp & Hsel & Hd). unfold onDocumentMouseUp. destruct (isReadonly c); [done|].
  unfold gestures_mouseUp. unfold panning, selecting, in_drag, connecting in *. rewrite Hp, Hsel, Hs.
  rewrite (drag_mouseUp_idle (drag_in c)) by done. unfold handleCanvasMouseUp.
  cbn [drawing_in on_drawing_store dw_isConnecting]. rewrite Hc. by destruct (drawing_readonly _).
Qed.

(** C11: A line drawn with the mouse connects what it was drawn between: pressed on
    an output of one node (its dot, its row or its connector), moved in any way and
    released over an input of another (its dot or its row), it asks the store for
    exactly the connection from that output to that input, and is gone. *)
Theorem wire_connects c s n1 n2 i1 i2 k1 k2 place over ctrl p1 p2 ops :
  cv_editor c = Some s → readonly (st_ui s) = false → ui_id n1 = Some i1 → ui_id n2 = Some i2 → i1 ≠ i2 →
  panning c = false ∧ selecting c = false ∧ in_drag c = false →
  place = AtDot OutputSocket k1 ∨ place = AtRow OutputSocket k1 ∨ place = AtConnector k1 →
  over = AtDot InputSocket k2 ∨ over = AtRow InputSocket k2 →
  Forall (λ op, match op with MouseUp _ _ => False | _ => True end) ops →
  let c' := node_mouseUp n2 over p2 (foldl (mouse_step dims root) (node_mouseDown n1 place 0 ctrl p1 c) ops) in
  cv_editor c' = Some (addConnection s i1 k1 i2 k2).1 ∧ connecting c' = false.
Proof using Type.
  intros Hs Hr Hi1 Hi2 Hne Hidle Hplace Hover Hops c'.
  assert (drawing_from (node_mouseDown n1 place 0 ctrl p1 c) s (SocketRef i1 k1 OutputSocket)) as Hd.
  { pose proof (socket_calls c s n1 i1 OutputSocket k1 Hs Hr Hi1) as (E1 & _ & E2 & _ & E3).
    assert (node_mouseDown n1 place 0 ctrl p1 c = socket_mouseDown root c (SocketRef i1 k1 OutputSocket) p1) as ->
      by (unfold node_mouseDown; destruct Hplace as [-> |[-> | ->]]; by rewrite ?E1, ?E2, ?E3).
    destruct (output_pressed c s i1 k1 p1 Hs Hr) as (H1 & H2 & H3 & H4).
    assert (panning (socket_mouseDown root c (SocketRef i1 k1 OutputSocket) p1) = panning c ∧
            selecting (socket_mouseDown root c (SocketRef i1 k1 OutputSocket) p1) = selecting c) as [E5 E6]
      by (unfold socket_mouseDown; by rewrite Hs, Hr).
    split; [done|done|done|done|done|]. unfold in_drag in *. by rewrite E5, E6, H4. }
  apply (drawing_run _ _ _ ops Hops) in Hd. unfold c'. clear c'.
  revert Hd. generalize (foldl (mouse_step dims root) (node_mouseDown n1 place 0 ctrl p1 c) ops). intros c1 Hd.
  pose proof (socket_calls c1 s n2 i2 InputSocket k2 (df_editor _ _ _ Hd) Hr Hi2) as (_ & E1 & _ & E2 & _).
  destruct (input_released c1 s i1 k1 i2 k2 Hd Hne) as (H1 & H2 & H3).
  unfold node_mouseUp. destruct Hover as [-> | ->]; [by rewrite E1|]. rewrite E2. by apply idle_release.
Qed.

(** *** A canvas that is read only *)

(** C25: on a canvas that is read only no press, release or button of a node changes
    anything: a press of a button of the mouse, its release, a click on the button
    of a trigger or of the quick connector and the toolbar leave everything as it
    is, but that the middle button begins a pan of the canvas where it would on the
    background.  (Double clicks are in [execution_doubleClick_lost].) *)
Theorem readonly_node_inert c s n place button ctrl client cache k key :
  cv_editor c = Some s → readonly (st_ui s) = true →
  let pressed := node_mouseDown n place button ctrl client c in
  (pressed = c ∨ (button = 1%N ∧ pressed = canvas_mouseDown root c (MouseEvent 1 false false true client) ∧
     cv_editor pressed = Some s ∧ panning pressed = true)) ∧
  node_mouseUp n place client c = c ∧ node_toolbarClick n cache k c = Ret c ∧
  node_quickAdd n key c = c ∧ onTriggerExecute n c = None.
Proof using Type.
  intros Hs Hr pressed.
  assert (canvas_canEdit c = false) as He by (unfold canvas_canEdit, canEdit; by rewrite Hs, Hr).
  assert (node_isReadonly (getWorkflowNodeProps c progress connections n) (cv_editor c) = true) as Hro.
  { unfold node_isReadonly, getWorkflowNodeProps. cbn [np_readonly]. by rewrite He. }
  assert (isReadonly c = true) as Hc.
  { unfold isReadonly, isReadonlyActive. unfold cv_editor, cv_view in Hs. by rewrite Hs. }
  assert (∀ t key, sp_readonly (socket_of c n t key) = true) as Hsp by (intros [] ?; exact Hro).
  assert (∀ x, x = canvas_mouseDown root c (MouseEvent button false false true client) →
    x = c ∨ (button = 1%N ∧ x = canvas_mouseDown root c (MouseEvent 1 false false true client) ∧
      cv_editor x = Some s ∧ panning x = true)) as Hbody.
  { intros x ->. destruct (decide (button = 1%N)) as [->|Hb]; [right; by split_and!|left].
    unfold canvas_mouseDown, onCanvasMouseDown. cbn [me_overlay me_button]. rewrite (proj2 (N.eqb_neq _ _) Hb).
    assert (isReadonlyActive (cv_gestures c) = true) as -> by exact Hc. by destruct c. }
  assert (onDocumentMouseUp dims root c Elsewhere client = c) as Hup by (unfold onDocumentMouseUp; by rewrite Hc).
  split_and!.
  - unfold pressed, node_mouseDown, row_mouseDown, onPointMouseDown, onQuickAddMouseDown. rewrite Hro.
    destruct place as [| |t j|t j|j]; rewrite ?Hsp; try (by left); [by apply Hbody|].
    destruct (sp_type _); by apply Hbody.
  - unfold node_mouseUp, row_mouseUp, onPointMouseUp. destruct place as [| |t j|t j|j]; rewrite ?Hsp; try done.
    by destruct (sp_type _).
  - unfold node_toolbarClick, toolbarProps. by rewrite Hro.
  - unfold node_quickAdd, onQuickAddClick. by rewrite Hsp.
  - unfold onTriggerExecute. by rewrite Hro.
Qed.

(** In the view of an execution the canvas itself would open the panel of the node
    that is double clicked, but the node is not given the callback. *)
Lemma execution_doubleClick_lost c s n :
  cv_editor c = Some s → readonly (st_ui s) = true → isInExecutionView s = true → is_Some (shown_node s (node_id n)) →
  onNodeOpenConfig s (node_id n) = openPanel s "config" (Some (node_id n)) ∧ node_doubleClick n AtBody c = c.
Proof using Type.
  intros Hs Hr Hx [x Hn]. unfold onNodeOpenConfig, canEdit. rewrite Hr, Hx, Hn. split; [done|].
  unfold node_doubleClick. cbn [np_callbacks getWorkflowNodeProps]. unfold canvas_canEdit, canEdit. by rewrite Hs, Hr.
Qed.

(** Any button of the mouse picks a node up. *)
Lemma any_button_drags c s n i button ctrl client :
  cv_editor c = Some s → readonly (st_ui s) = false → ui_id n = Some i →
  in_drag (node_mouseDown n AtBody button ctrl client c) = true.
Proof using Type.
  intros Hs Hr Hi. unfold node_mouseDown. rewrite (editable_node c s n Hs Hr).
  by destruct (header_picks_up c s n i ctrl client Hs Hr Hi) as (s' & _ & _ & _ & _ & ? & _).
Qed.

(** A release over the dot of a socket does not reach the document: a pan, a box or
    a drag in progress goes on with no button down. *)
Lemma dot_release_sticks c n t key client :
  connecting c = false → activity (node_mouseUp n (AtDot t key) client c) = activity c.
Proof using Type.
  intros Hc. unfold node_mouseUp. destruct (onPointMouseUp _) as [d|]; [|done].
  unfold socket_mouseUp. destruct (cv_editor c) as [s|]; [|done]. destruct (readonly (st_ui s)); [done|].
  unfold onSocketMouseUp. destruct (drawing_readonly _); [done|].
  change (dw_isConnecting (drawing_in c s)) with (connecting c). by rewrite Hc.
Qed.

(** A button of the toolbar that is drawn never lacks its callback. *)
Lemma toolbar_never_throws c s n cache k :
  cv_editor c = Some s → readonly (st_ui s) = false →
  (∀ t, cache = Some t → tb_given t = [ToolExecute; ToolDelete; ToolToggle; ToolConfig]) → 
  k ∈ [ToolConfig; ToolToggle; ToolDelete] →
  node_toolbarClick n cache k c = Ret (canvas_store (toolbar_action (node_id n) k) c).
Proof using Type.
  intros Hs Hr Hcache Hk. unfold node_toolbarClick, toolbarProps. rewrite (editable_node c s n Hs Hr). cbn [fst].
  set (t := match cache with Some _ => _ | None => _ end).
  assert (tb_given t = [ToolExecute; ToolDelete; ToolToggle; ToolConfig]) as Ht.
  { unfold t. destruct cache as [t'|]; [|done]. destruct (_ && _); [by apply Hcache|done]. }
  unfold toolbar_click. rewrite Ht, bool_decide_true; [done|]. clear -Hk. set_solver.
Qed.
End mouse.

(** The toolbar's props with their cache are those made afresh, whatever they were
    made for before. *)
Lemma toolbar_cache_transparent p editor cache :
  (∀ t, cache = Some t → tb_given t = [ToolExecute; ToolDelete; ToolToggle; ToolConfig]) →
  (toolbarProps p editor cache).1 = (toolbarProps p editor None).1.
Proof.
  intros Hc. unfold toolbarProps. destruct (node_isReadonly p editor); [done|]. cbn [fst].
  destruct cache as [[i d g]|]; [|done]. specialize (Hc _ eq_refl). cbn [tb_given tb_nodeId tb_isDisabled] in *. subst g.
  case_bool_decide as E; [|done]. subst i. destruct (Bool.eqb d _) eqn:Ed; [|done]. apply eqb_prop in Ed. by subst d.
Qed.

(** Without a [getNodeStyle] of the configuration the style is the same. *)
Lemma nodeStyle_equal p num_toString o :
  o_socketSpacing o = None → o_nodeBodyPadding o = None →
  nodeStyle_fallback p num_toString o (getCSSProperties (new_dimensions o) num_toString) =
  nodeStyle p num_toString (new_dimensions o).
Proof.
  intros H1 H2. unfold nodeStyle_fallback, nodeStyle, getNodeStyle, getNodeMinHeight, getSocketDrivenMinHeight, getSocketLayoutRowCount,
    getSocketRowCount, inputEntries, outputEntries. destruct o as [w ch bw sp ss hb r mw mh cl bp mr am gs]. simpl in H1, H2. subst. cbn [np_node].
  destruct (length (ui_inputs (np_node p)) `max` length (ui_outputs (np_node p)))%nat, sp, cl; reflexivity.
Qed.

(** The title given to a record operation is not shown. *)
Lemma custom_title_hidden p p' editor fetched :
  ui_type (np_node p) = "record_operation" → ui_type (np_node p') = "record_operation" →
  ui_id (np_node p) = ui_id (np_node p') → displayTitle p editor fetched = displayTitle p' editor fetched.
Proof.
  intros E1 E2 E3. unfold displayTitle, getRecordOperationOperation, getRecordOperationModelLabel, getRecordOperationModelName, config_text, node_id.
  by rewrite E1, E2, E3.
Qed.

(** ** Examples *)

Definition node_demo (i : string) : ui_node := default (UiNode None "" "" false 0 0 "" "" [] [] false) (shown_node selected_demo i).
Definition readonly_canvas_demo : canvas := new_canvas (Some (setReadonly selected_demo true)) a_widget selected_demo.

Lemma press_exact_witness :
  picked_up canvas_demo (node_mouseDown screen JNull [] (node_demo "n_1") AtBody 0 true (Position 0 0) canvas_demo) "n_1" true selected_demo.
Proof.
  refine (press_exact screen JNull [] canvas_demo selected_demo (node_demo "n_1") "n_1" AtBody true (Position 0 0) eq_refl _ _);
    vm_compute; reflexivity.
Defined.

Lemma wire_connects_witness :
  connecting (node_mouseUp defaultDimensions screen JNull [] (node_demo "n_2") (AtRow InputSocket "data") (Position 0 0)
    (foldl (mouse_step defaultDimensions screen)
       (node_mouseDown screen JNull [] (node_demo "n_1") (AtDot OutputSocket "response") 0 false (Position 0 0) canvas_demo)
       [MouseMove (Position 0 0); MouseFrame])) = false.
Proof.
  refine (proj2 (wire_connects defaultDimensions screen JNull [] canvas_demo selected_demo (node_demo "n_1") (node_demo "n_2") "n_1" "n_2"
    "response" "data" (AtDot OutputSocket "response") (AtRow InputSocket "data") false (Position 0 0) (Position 0 0)
    [MouseMove (Position 0 0); MouseFrame] eq_refl _ _ _ _ _ _ _ _));
    [vm_compute; reflexivity|vm_compute; reflexivity|vm_compute; reflexivity|done| |by left|by right|repeat constructor].
  split_and!; vm_compute; reflexivity.
Defined.

Lemma readonly_node_inert_witness :
  onTriggerExecute JNull [] (node_demo "n_1") readonly_canvas_demo = None ∧
  node_mouseUp defaultDimensions screen JNull [] (node_demo "n_1") AtBody (Position 0 0) readonly_canvas_demo = readonly_canvas_demo.
Proof.
  assert (cv_editor readonly_canvas_demo = Some (setReadonly selected_demo true)) as Hs by reflexivity.
  assert (readonly (st_ui (setReadonly selected_demo true)) = true) as Hr by reflexivity.
  destruct (readonly_node_inert builtin_registry defaultDimensions screen JNull [] readonly_canvas_demo (setReadonly selected_demo true)
    (node_demo "n_1") AtBody 0 false (Position 0 0) None ToolDelete "response" Hs Hr) as (_ & H1 & _ & _ & H2).
  split; [exact H2|exact H1].
Defined.
