(* ===== verification/CodeEditor.v ===== *)
(** * The code editor and its completions (components/code_editor.js)

    The editor itself is Monaco, which the component loads, creates and listens
    to: here it is a text that calls back when it changes.  The completions are
    chosen by regular expressions at the end of the text before the cursor; those
    are matched by derivatives ([Regex]). *)

From S2P Require Import Prelude JsMap JsValue JsString Expression ConfigPanel Regex.

(** ** The patterns *)

(** Before a word: nothing, or a character that is none of a word's. *)
Definition boundary : re := Either Empty (Then anything (Char (λ c, negb (word_char c)))).
Definition is_quote (c : ascii) : bool := bool_decide (c = quote1) || bool_decide (c = quote2).
Definition model_char (c : ascii) : bool := word_char c || bool_decide (c = dot).

(** What comes before the group of [envModelMatch]: [env], a bracket and a quote *)
Definition env_open : re := Then boundary (Then (lit "env") (Then spaces (Then (lit "[") (Then spaces (Char is_quote))))).
(** the same of [envMethodMatch] *)
Definition env_method : re :=
  Then env_open (Then (some_of (Char model_char)) (Then (Char is_quote) (Then spaces (Then (lit "]") (Then spaces (lit ".")))))).
(** the same of [envChainMatch] *)
Definition env_chain : re :=
  Then boundary (Then (lit "env") (Then spaces (Then (lit "[") (Then (Many (Char (λ c, negb (line_end c)))) (Then (lit "]")
    (Then (some_of (Then (lit ".") (Then (some_of (Char ident_start)) (Then (lit "(")
             (Then (Many (Char (λ c, negb (bool_decide (c = ")"%char))))) (lit ")"))))))
       (Then spaces (lit ".")))))))).
(** those of [bracketMatch] and [dotMatch] *)
Definition scope_bracket (scope : string) : re :=
  Then anything (Then (lit ("_" +:+ scope)) (Then spaces (Then (lit "[") (Then spaces (maybe (Char is_quote)))))).
Definition scope_dot (scope : string) : re := Then anything (lit ("_" +:+ scope +:+ ".")).

(** The group at the end of the line, any number of its characters, after a match
    of [head], which ends outside of them. *)
Definition capture (head : re) (f : ascii → bool) (line : string) : option string :=
  let '(a, g) := split_tail f line in if matches head a then Some g else None.

(** What a pattern matches ends with a character that satisfies [f]. *)
Definition ends_with (f : ascii → bool) (r : re) : Prop := ∀ s, in_re r s → ∃ p c, s = p +:+ String c "" ∧ f c = true.

Lemma ends_then f a b : ends_with f b → ends_with f (Then a b).
Proof.
  intros Hb s (u & v & -> & _ & Hv)%in_then_inv. destruct (Hb v Hv) as (p & c & -> & Hc).
  exists (u +:+ p), c. by rewrite str_app_assoc.
Qed.

Lemma ends_char (f g : ascii → bool) : (∀ c, g c = true → f c = true) → ends_with f (Char g).
Proof. intros Hfg s. inversion 1; subst. exists "". eauto. Qed.

Lemma ends_lit1 (f : ascii → bool) c : f c = true → ends_with f (lit (String c "")).
Proof.
  intros Hf s (u & v & -> & Hu & Hv)%in_then_inv. inversion Hu; subst. inversion Hv; subst.
  apply bool_decide_eq_true in H0 as ->. exists "", c. done.
Qed.

(** The group found is the tail after a match of the head: the pattern's. *)
Lemma capture_spec head f line g :
  ends_with (λ c, negb (f c)) head →
  capture head f line = Some g ↔ ∃ a, line = a +:+ g ∧ in_re head a ∧ string_all f g = true.
Proof.
  intros He. unfold capture. destruct (split_tail_spec f line) as (H1 & H2 & _).
  destruct (split_tail f line) as [a' g'] eqn:E. cbn [fst snd] in *. split.
  - destruct (matches head a') eqn:Em; [|done]. intros [= <-]. exists a'. split_and!; [done|by apply matches_spec|done].
  - intros (a & -> & Ha & Hg). destruct (He a Ha) as (p & c & -> & Hc%negb_true_iff).
    rewrite str_app_assoc in E. change (String c "" +:+ g) with (String c g) in E.
    rewrite split_tail_app in E by done. injection E as <- <-. apply matches_spec in Ha. by rewrite Ha.
Qed.

(** ** Completions *)

(** Lines of a documentation. *)
Definition text (l : list string) : string := String.concat (String (Ascii.ascii_of_nat 10) "") l.

Record orm_method := OrmMethod { om_label : string; om_detail : string; om_documentation : string; om_isProperty : bool }.

Definition ENV_MODEL_METHODS : list orm_method :=
  [
   OrmMethod "search" "search(domain, limit=None, order=None, offset=0) → recordset"
     (text ["Find records matching domain. Returns a recordset."; "Example: env['res.partner'].search([('is_company', '=', True)], limit=10)"]) false;
   OrmMethod "browse" "browse(ids) → recordset"
     (text ["Get records by integer ID or list of IDs."; "Example: env['res.partner'].browse([1, 2, 3])"]) false;
   OrmMethod "create" "create(vals) → record"
     (text ["Create a new record. vals is a dict of field values."; "Example: env['res.partner'].create({'name': 'Acme', 'email': 'hi@example.com'})"]) false;
   OrmMethod "search_count" "search_count(domain) → int"
     (text ["Count records matching domain without fetching them."; "Example: env['sale.order'].search_count([('state', '=', 'draft')])"]) false;
   OrmMethod "search_read" "search_read(domain, fields, limit=None, order=None, offset=0) → list[dict]"
     (text ["Search and read fields in one call. Returns list of dicts."; "Example: env['res.partner'].search_read([('is_company','=',True)], ['name','email'])"]) false;
   OrmMethod "with_context" "with_context(**kwargs) → model"
     (text ["Return an instance with extra context keys."; "Example: env['sale.order'].with_context(lang='vi_VN').search([])"]) false;
   OrmMethod "name_search" "name_search(name='', domain=None, operator='ilike', limit=100) → list"
     (text ["Autocomplete-style search; returns [(id, display_name), ...]."; "Example: env['res.partner'].name_search('Acme')"]) false;
   OrmMethod "fields_get" "fields_get(attributes=None) → dict"
     (text ["Return field metadata. attributes can be a list like ['string','type']."]) false
  ].

Definition RECORD_METHODS : list orm_method :=
  [
   OrmMethod "write" "write(vals) → bool"
     (text ["Update fields on all records in the set."; "Example: partners.write({'active': False})"]) false;
   OrmMethod "unlink" "unlink() → bool"
     (text ["Delete all records in the set. Raises if any record is protected."]) false;
   OrmMethod "read" "read(fields=None) → list[dict]"
     (text ["Read specified fields. Returns list of dicts with 'id' included."; "Example: partners.read(['name', 'email'])"]) false;
   OrmMethod "copy" "copy(default=None) → record"
     (text ["Duplicate this record. default overrides field values on the copy."]) false;
   OrmMethod "name_get" "name_get() → list[(id, name)]"
     (text ["Return the display names for all records as [(id, display_name), ...]."]) false;
   OrmMethod "mapped" "mapped(field) → list | recordset"
     (text ["Extract field value across all records."; "Example: orders.mapped('partner_id.name')  →  ['Alice', 'Bob']"]) false;
   OrmMethod "filtered" "filtered(func) → recordset"
     (text ["Return subset where func(record) is truthy."; "Example: orders.filtered(lambda o: o.amount_total > 1000)"]) false;
   OrmMethod "sorted" "sorted(key=None, reverse=False) → recordset"
     (text ["Return sorted copy of the recordset."; "Example: orders.sorted('date_order', reverse=True)"]) false;
   OrmMethod "ensure_one" "ensure_one() → record"
     (text ["Assert the set contains exactly one record; raises ValueError otherwise."]) false;
   OrmMethod "exists" "exists() → recordset"
     (text ["Return only records that still exist in the database (removes deleted ones)."]) false;
   OrmMethod "ids" "ids: list[int]"
     (text ["List of integer IDs in this recordset."]) true;
   OrmMethod "id" "id: int"
     (text ["Integer ID of this record. Only valid on single-record sets."]) true
  ].

(** The variables offered where nothing else is: label, detail, documentation. *)
Definition CONTEXT_VARIABLES : list (string * string * string) :=
  [
   ("_json", "Input data from previous node", text ["Object containing output data from the previous node."]);
   ("_input", "Alias for _json", text ["Same as _json - input data from previous node."]);
   ("_vars", "Workflow variables", text ["Mutable workflow variables. Example: _vars['myVar']"]);
   ("_node", "Other node outputs", text ["Access output from specific nodes. Example: _node['HTTP Request']"]);
   ("_now", "Current datetime", text ["Datetime at execution time."]);
   ("_today", "Current date", text ["Date at execution time."]);
   ("_execution", "Execution metadata", text ["Run metadata when available."]);
   ("_workflow", "Workflow metadata", text ["Workflow id/name/active when available."]);
   ("result", "Output variable", text ["Set result to control node output."]);
   ("env", "Odoo environment", text ["Access Odoo models via env['model.name']."; "Example: env['res.partner'].search([('is_company', '=', True)])"; "Blocked: sudo(), ir.* models."])
  ].

Inductive item_kind := KModule | KMethod | KProperty | KField | KVariable.

(** An item, with the columns its text replaces. *)
Record item := Item {
  it_label : string;
  it_kind : item_kind;
  it_insertText : string;
  it_detail : string;
  it_documentation : option string;
  it_startColumn : nat;
  it_endColumn : nat;
}.

(** [m.label.startsWith(prefix)] *)
Definition startsWith (prefix s : string) : bool := if strip_prefix prefix s is Some _ then true else false.

(** The item of a model, of a method, of a key of the context. *)
Definition model_item (startColumn endColumn : nat) (m : model_meta) : item :=
  Item (mm_model m) KModule (mm_model m) (mm_description m) (Some ("Odoo model: " +:+ mm_model m)) startColumn endColumn.
Definition method_item (startColumn endColumn : nat) (m : orm_method) : item :=
  Item (om_label m) (if om_isProperty m then KProperty else KMethod)
    (if om_isProperty m then om_label m else om_label m +:+ "(") (om_detail m) (Some (om_documentation m)) startColumn endColumn.
Definition key_item (scope : string) (startColumn endColumn : nat) (key : string) : item :=
  Item key KField key (scope +:+ " key") None startColumn endColumn.
Definition variable_item (startColumn endColumn : nat) (v : string * string * string) : item :=
  Item v.1.1 KVariable v.1.1 v.1.2 (Some v.2) startColumn endColumn.

Definition SCOPES : list string := ["json"; "vars"; "node"; "execution"; "workflow"].

(** The scope and the group of [bracketMatch], or of [dotMatch]. *)
Definition scope_match (linePrefix : string) : option (string * string) :=
  match omap (λ scope, pair scope <$> capture (scope_bracket scope) word_char linePrefix) SCOPES with
  | m :: _ => Some m
  | [] =>
      match omap (λ scope, pair scope <$> capture (scope_dot scope) word_char linePrefix) SCOPES with
      | m :: _ => Some m
      | [] => None
      end
  end.

(** [buildDynamicSuggestions(monaco, linePrefix, range)], with the models and the
    context that are known; the word before the cursor is that of Monaco. *)
Definition buildDynamicSuggestions (models : list model_meta) (completionContext : jsobj) (linePrefix : string)
    (startColumn endColumn : nat) : list item :=
  match capture env_open model_char linePrefix with
  | Some prefix =>
      model_item (String.length linePrefix - String.length prefix + 1) endColumn <$>
        bfilter (λ m, startsWith prefix (mm_model m)) models
  | None =>
      match capture env_method ident_start linePrefix with
      | Some prefix =>
          method_item startColumn endColumn <$>
            bfilter (λ m, startsWith prefix (om_label m)) (ENV_MODEL_METHODS ++ RECORD_METHODS)
      | None =>
          match capture env_chain ident_start linePrefix with
          | Some prefix =>
              method_item startColumn endColumn <$> bfilter (λ m, startsWith prefix (om_label m)) RECORD_METHODS
          | None =>
              match scope_match linePrefix with
              | None => []
              | Some (name, prefix) =>
                  let scope := "_" +:+ name in
                  match oprop completionContext scope with
                  | JArr _ | JObj _ =>
                      key_item scope startColumn endColumn <$>
                        bfilter (startsWith prefix) (entries (oprop completionContext scope)).*1
                  | _ => []
                  end
              end
          end
      end
  end.

(** [provideCompletionItems(model, position)]: the line, the column of the cursor
    and the column the word before it begins at. *)
Definition provideCompletionItems (models : list model_meta) (completionContext : jsobj) (line : string)
    (column wordStart : nat) : list item :=
  let linePrefix := String.substring 0 (column - 1) line in
  match buildDynamicSuggestions models completionContext linePrefix wordStart column with
  | [] => variable_item wordStart column <$> CONTEXT_VARIABLES
  | dynamicSuggestions => dynamicSuggestions
  end.

(** The line with an item taken: its text in the place of its columns. *)
Definition take_item (i : item) (line : string) : string :=
  String.substring 0 (it_startColumn i - 1) line +:+ it_insertText i +:+
  String.substring (it_endColumn i - 1) (String.length line) line.

(** ** The editor *)

(** The component: [loading], [error], the text of Monaco once it is created, and
    whether the element is there. *)
Record code_editor := CodeEditor {
  cd_loading : bool;
  cd_error : option string;
  cd_text : option string;
  cd_mounted : bool;
}.

Record editor_props := EditorProps { cp_value : string; cp_placeholder : string; cp_readonly : bool }.

Definition new_code_editor : code_editor := CodeEditor true None None true.

(** [value || placeholder || ""] *)
Definition initial_text (p : editor_props) : string := if cp_value p =s "" then cp_placeholder p else cp_value p.

(** [initEditor()] once Monaco is there, and the failure of its loading. *)
Definition editor_loaded (p : editor_props) (c : code_editor) : code_editor :=
  CodeEditor false (cd_error c) (if cd_mounted c then Some (initial_text p) else cd_text c) (cd_mounted c).
Definition editor_failed (message : string) (c : code_editor) : code_editor :=
  CodeEditor (cd_loading c) (Some message) (cd_text c) (cd_mounted c).

(** A change of the text of Monaco, which calls [onChange]. *)
Definition editor_changed (value : string) (c : code_editor) : code_editor * list string :=
  match cd_text c with
  | Some _ => (CodeEditor (cd_loading c) (cd_error c) (Some value) (cd_mounted c), [value])
  | None => (c, [])
  end.

(** The callback of [onWillUpdateProps]: a text that differs is set, which is a
    change like one that is typed. *)
Definition editor_props_change (next : editor_props) (c : code_editor) : code_editor * list string :=
  match cd_text c with
  | Some t => if initial_text next =s t then (c, []) else editor_changed (initial_text next) c
  | None => (c, [])
  end.

(** [destroyEditor()], when the component goes *)
Definition destroyEditor (c : code_editor) : code_editor := CodeEditor (cd_loading c) (cd_error c) None false.

(** [getValue()], [setValue(value)] *)
Definition editor_getValue (c : code_editor) : string := default "" (cd_text c).
Definition editor_setValue (value : string) (c : code_editor) : code_editor * list string :=
  match cd_text c with
  | Some t => if value =s t then (c, []) else editor_changed value c
  | None => (c, [])
  end.

(** What the template shows above the element. *)
Inductive editor_notice := Loading | Failed (message : string) | NoNotice.
Definition editor_shows (c : code_editor) : editor_notice :=
  if cd_loading c then Loading else match cd_error c with Some m => if m =s "" then NoNotice else Failed m | None => NoNotice end.

(** ** Facts on the patterns *)

Lemma in_lit s : in_re (lit s) s.
Proof. induction s as [|c s IH]; [constructor|]. apply (in_Then _ _ (String c "") s); [constructor; by apply bool_decide_eq_true|done]. Qed.

Lemma in_many_all f w : string_all f w = true → in_re (Many (Char f)) w.
Proof.
  induction w as [|c w IH]; [constructor|]. cbn [string_all]. intros [Hc Hw]%andb_prop.
  apply (in_More _ (String c "") w); [by constructor|auto].
Qed.

Lemma in_some_all f w : w ≠ "" → string_all f w = true → in_re (some_of (Char f)) w.
Proof.
  destruct w as [|c w]; [done|]. cbn [string_all]. intros _ [Hc Hw]%andb_prop.
  apply (in_Then _ _ (String c "") w); [by constructor|by apply in_many_all].
Qed.

Lemma in_anything w : in_re anything w.
Proof. apply in_many_all. induction w; simpl; [done|]. by rewrite IHw. Qed.

(** Nothing, or a text that ends with no character of a word. *)
Definition at_boundary (pre : string) : Prop := pre = "" ∨ ∃ p c, pre = p +:+ String c "" ∧ word_char c = false.

Lemma in_boundary pre : at_boundary pre → in_re boundary pre.
Proof.
  intros [-> |(p & c & -> & Hc)]; [apply in_Left; constructor|]. apply in_Right, in_Then; [apply in_anything|].
  constructor. by rewrite Hc.
Qed.

(** The text [env\[q] with blanks. *)
Definition env_opening (pre w1 w2 : string) (q : ascii) : string := pre +:+ "env" +:+ w1 +:+ "[" +:+ w2 +:+ String q "".

Lemma in_env_open pre w1 w2 q :
  at_boundary pre → string_all is_space w1 = true → string_all is_space w2 = true → is_quote q = true →
  in_re env_open (env_opening pre w1 w2 q).
Proof.
  intros Hp H1 H2 Hq. apply in_Then; [by apply in_boundary|]. apply in_Then; [apply in_lit|].
  apply in_Then; [by apply in_many_all|]. apply in_Then; [apply in_lit|]. apply in_Then; [by apply in_many_all|]. by constructor.
Qed.

Lemma quote_outside (f : ascii → bool) : f quote1 = false → f quote2 = false → ends_with (λ c, negb (f c)) env_open.
Proof.
  intros H1 H2. do 5 apply ends_then. apply ends_char. intros c [->%bool_decide_eq_true| ->%bool_decide_eq_true]%orb_prop; by rewrite ?H1, ?H2.
Qed.

Lemma dot_outside a b : ends_with (λ c, negb (ident_start c)) (Then a (Then b (lit "."))).
Proof. do 2 apply ends_then. by apply ends_lit1. Qed.

Lemma env_method_ends : ends_with (λ c, negb (ident_start c)) env_method.
Proof. do 6 apply ends_then. by apply ends_lit1. Qed.

(** A text split in two around a character of it. *)
Lemma app_cases a g x c y :
  a +:+ g = x +:+ String c y → (∃ z, g = z +:+ String c y) ∨ ∃ z, a = x +:+ String c z ∧ y = z +:+ g.
Proof.
  revert x. induction a as [|d a IH]; intros x E; [left; by exists x|].
  destruct x as [|e x].
  - right. change (String d (a +:+ g) = String c y) in E. injection E as -> <-. by exists a.
  - change (String d (a +:+ g) = String e (x +:+ String c y)) in E. injection E as -> E.
    destruct (IH x E) as [[z ->]|(z & -> & ->)]; [left; by exists z|right; by exists z].
Qed.

Lemma string_all_last f p c : string_all f (p +:+ String c "") = true → f c = true.
Proof. rewrite string_all_app. cbn [string_all]. by intros [_ [? _]%andb_prop]%andb_prop. Qed.

(** After the closing bracket no model is completed. *)
Lemma no_model_after_bracket x y :
  string_all (λ c, negb (is_quote c)) y = true → capture env_open model_char (x +:+ String "]" y) = None.
Proof.
  intros Hy. destruct (capture _ _ _) as [g|] eqn:E; [|done]. exfalso.
  apply capture_spec in E as (a & E & Ha & Hg); [|by apply quote_outside].
  assert (ends_with is_quote env_open) as He by (do 5 apply ends_then; by apply ends_char).
  destruct (He a Ha) as (p & q & -> & Hq). symmetry in E. apply app_cases in E as [[z ->]|(z & E & ->)].
  - rewrite string_all_app in Hg. cbn [string_all] in Hg. apply andb_prop in Hg as [_ Hg]. apply andb_prop in Hg as [Hg _]. done.
  - rewrite string_all_app in Hy. apply andb_prop in Hy as [Hz _].
    assert (∀ p' x', p' +:+ String q "" = x' +:+ String "]" z → False) as Hno; [|by eapply Hno].
    clear -Hz Hq. intros p' x' E. apply app_cases in E as [[z' E]|(z' & E1 & E2)].
    + destruct z' as [|d z'].
      * change (String q "" = String "]" z) in E. injection E as -> _. done.
      * change (String q "" = String d (z' +:+ String "]" z)) in E. injection E as _ E. by destruct z'.
    + subst z. apply string_all_last in Hz. by rewrite Hq in Hz.
Qed.

(** ** Properties *)

(** Taking an item whose columns are those of what was typed. *)
Lemma take_typed i opening typed rest :
  it_startColumn i = S (String.length opening) → it_endColumn i = S (String.length (opening +:+ typed)) →
  take_item i (opening +:+ typed +:+ rest) = opening +:+ it_insertText i +:+ rest.
Proof.
  intros Hs He. unfold take_item. rewrite Hs, He. simpl. rewrite !Nat.sub_0_r, substring_take.
  rewrite <- (str_app_assoc opening typed rest) at 1. by rewrite <- (str_app_assoc opening typed rest), substring_drop.
Qed.

Lemma line_prefix opening typed rest :
  String.substring 0 (S (String.length (opening +:+ typed)) - 1) (opening +:+ typed +:+ rest) = opening +:+ typed.
Proof. simpl. by rewrite Nat.sub_0_r, <- str_app_assoc, substring_take. Qed.

(** C31: In the quotes of [env], after any text, the models offered are exactly those
    whose names begin with what is typed, in their order, and taking one replaces
    what is typed by the name and nothing else of the line.  When there are none, the
    ten variables of the context are offered, as outside the quotes. *)
Theorem model_completion_exact models ctx pre w1 w2 q typed rest wordStart :
  at_boundary pre → string_all is_space w1 = true → string_all is_space w2 = true → is_quote q = true →
  string_all model_char typed = true →
  let opening := env_opening pre w1 w2 q in
  let line := opening +:+ typed +:+ rest in
  let column := S (String.length (opening +:+ typed)) in
  let found := bfilter (λ m, startsWith typed (mm_model m)) models in
  let items := provideCompletionItems models ctx line column wordStart in
  if decide (found = [])
  then items = variable_item wordStart column <$> CONTEXT_VARIABLES
  else it_label <$> items = mm_model <$> found ∧
       ∀ i, i ∈ items → take_item i line = opening +:+ it_label i +:+ rest.
Proof.
  intros Hp H1 H2 Hq Ht opening line column found items.
  assert (items = match model_item (S (String.length opening)) column <$> found with
    | [] => variable_item wordStart column <$> CONTEXT_VARIABLES | l => l end) as ->.
  { unfold items, provideCompletionItems, line. unfold column. rewrite line_prefix. unfold buildDynamicSuggestions.
    rewrite (proj2 (capture_spec env_open model_char (opening +:+ typed) typed (quote_outside _ eq_refl eq_refl))).
    - fold found. rewrite str_app_length. by replace (String.length opening + String.length typed - String.length typed + 1)%nat with (S (String.length opening)) by lia.
    - exists opening. split_and!; [done|by apply in_env_open|done]. }
  clearbody found. case_decide as Hf; [by rewrite Hf|]. destruct found as [|m0 found]; [done|].
  change (match model_item ?a ?b <$> ?l with [] => _ | x => x end) with (model_item a b <$> l).
  split; [by rewrite <- list_fmap_compose|]. intros i (m & -> & _)%list_elem_of_fmap. unfold line. by rewrite take_typed.
Qed.

(** After the dot of [env] with a model in its brackets, the methods offered are
    those of models and of records whose names begin with what is typed; taking
    one leaves a call open, or the property. *)
Theorem method_completion_exact models ctx pre w1 w2 q path q' w3 w4 typed rest :
  at_boundary pre → string_all is_space w1 = true → string_all is_space w2 = true → is_quote q = true →
  path ≠ "" → string_all model_char path = true → is_quote q' = true →
  string_all is_space w3 = true → string_all is_space w4 = true → string_all ident_start typed = true →
  let opening := env_opening pre w1 w2 q +:+ path +:+ String q' "" +:+ w3 +:+ "]" +:+ w4 +:+ "." in
  let line := opening +:+ typed +:+ rest in
  let found := bfilter (λ m, startsWith typed (om_label m)) (ENV_MODEL_METHODS ++ RECORD_METHODS) in
  let items := provideCompletionItems models ctx line (S (String.length (opening +:+ typed))) (S (String.length opening)) in
  found ≠ [] →
  it_label <$> items = om_label <$> found ∧
  ∀ i, i ∈ items → take_item i line = opening +:+ it_insertText i +:+ rest ∧
    (it_insertText i = it_label i ∨ it_insertText i = it_label i +:+ "(").
Proof.
  intros Hp H1 H2 Hq Hne Hpath Hq' H3 H4 Ht opening line found items Hf.
  assert (items = method_item (S (String.length opening)) (S (String.length (opening +:+ typed))) <$> found) as ->.
  { unfold items, provideCompletionItems, line. rewrite line_prefix. unfold buildDynamicSuggestions.
    assert (capture env_open model_char (opening +:+ typed) = None) as ->.
    { assert (opening +:+ typed = (env_opening pre w1 w2 q +:+ path +:+ String q' "" +:+ w3) +:+ String "]" (w4 +:+ "." +:+ typed)) as ->.
      { unfold opening. rewrite !str_app_assoc. done. }
      apply no_model_after_bracket. rewrite !string_all_app. apply andb_true_intro. split.
      - eapply string_all_impl; [|exact H4]. intros c Hc. destruct (is_quote c) eqn:E; [|done].
        apply orb_prop in E as [->%bool_decide_eq_true| ->%bool_decide_eq_true]; done.
      - apply andb_true_intro. split; [done|]. eapply string_all_impl; [|exact Ht]. intros c Hc. destruct (is_quote c) eqn:E; [|done].
        apply orb_prop in E as [->%bool_decide_eq_true| ->%bool_decide_eq_true]; done. }
    rewrite (proj2 (capture_spec env_method ident_start (opening +:+ typed) typed env_method_ends)); [fold found; clearbody found; by destruct found|].
    exists opening. split_and!; [done| |done]. apply in_Then; [by apply in_env_open|].
    apply in_Then; [by apply in_some_all|]. apply in_Then; [by constructor|]. apply in_Then; [by apply in_many_all|].
    apply in_Then; [apply in_lit|]. apply in_Then; [by apply in_many_all|apply in_lit]. }
  split; [by rewrite <- list_fmap_compose|]. intros i (m & -> & _)%list_elem_of_fmap. split; [unfold line; by rewrite take_typed|].
  cbn [method_item it_insertText it_label]. destruct (om_isProperty m); [by left|by right].
Qed.

(** *** The text and what is stored *)

(** The component over a parent that stores the value it is given and renders the
    editor with it until nothing changes. *)
Fixpoint settle (fuel : nat) (placeholder : string) (x : code_editor * string) : code_editor * string :=
  match fuel with
  | O => x
  | S fuel =>
      match editor_props_change (EditorProps x.2 placeholder false) x.1 with
      | (c, []) => (c, x.2)
      | (c, v :: _) => settle fuel placeholder (c, v)
      end
  end.

Inductive editor_event := TypedText (value : string) | OutsideValue (value : string).
Definition event_value (e : editor_event) : string := match e with TypedText v | OutsideValue v => v end.

Definition editor_step (placeholder : string) (x : code_editor * string) (e : editor_event) : code_editor * string :=
  match e with
  | TypedText v =>
      match editor_changed v x.1 with
      | (c, w :: _) => settle 3 placeholder (c, w)
      | (c, []) => (c, x.2)
      end
  | OutsideValue v => settle 3 placeholder (x.1, v)
  end.

Definition replaced (placeholder value : string) : string := if value =s "" then placeholder else value.

Lemma replaced_idem placeholder h : replaced placeholder (replaced placeholder h) = replaced placeholder h.
Proof. unfold replaced. destruct (decide (h = "")) as [->|E]; [by case_bool_decide|]. by rewrite !(bool_decide_false (h = "")). Qed.

Lemma settled placeholder c t host fuel :
  cd_text c = Some t → replaced placeholder host ≠ t → (2 ≤ fuel)%nat → 
  (settle fuel placeholder (c, host)).2 = replaced placeholder host ∧
  cd_text (settle fuel placeholder (c, host)).1 = Some (replaced placeholder host).
Proof.
  intros Hc Ht Hf. destruct fuel as [|[|fuel]]; try lia. cbn [settle fst snd]. unfold editor_props_change. rewrite Hc.
  change (initial_text (EditorProps host placeholder false)) with (replaced placeholder host).
  rewrite (bool_decide_false (replaced placeholder host = t)) by done. unfold editor_changed. rewrite Hc. cbn [settle fst snd cd_text editor_props_change].
  change (initial_text (EditorProps (replaced placeholder host) placeholder false)) with (replaced placeholder (replaced placeholder host)).
  rewrite replaced_idem, (bool_decide_true (replaced placeholder host = replaced placeholder host)) by done. done.
Qed.

(** What the editor shows is what is stored, or the placeholder where nothing is,
    after any sequence of changes in it and from outside; and a text typed is
    stored as it is typed, except that where it is empty the placeholder is
    stored. *)
Theorem editor_in_sync placeholder host events :
  let x0 := (editor_loaded (EditorProps host placeholder false) new_code_editor, host) in
  let x := foldl (editor_step placeholder) x0 events in
  cd_text x.1 = Some (replaced placeholder x.2) ∧
  ∀ v, (editor_step placeholder x (TypedText v)).2 = replaced placeholder v ∧
       cd_text (editor_step placeholder x (TypedText v)).1 = Some (replaced placeholder v).
Proof.
  intros x0 x.
  assert (∀ c v fuel, cd_text c = Some (replaced placeholder v) → settle (S fuel) placeholder (c, v) = (c, v)) as Hfix.
  { intros c v fuel Hc. cbn [settle fst snd]. unfold editor_props_change. rewrite Hc.
    change (initial_text (EditorProps v placeholder false)) with (replaced placeholder v).
    by rewrite (bool_decide_true (replaced placeholder v = replaced placeholder v)). }
  assert (∀ c h t, cd_text c = Some t →
    cd_text (settle 3 placeholder (c, h)).1 = Some (replaced placeholder (settle 3 placeholder (c, h)).2)) as Hsettle.
  { intros c h t Hc. destruct (decide (replaced placeholder h = t)) as [<-|Hne]; [by rewrite (Hfix c h)|].
    destruct (settled placeholder c t h 3 Hc Hne) as [-> ->]; [lia|]. by rewrite replaced_idem. }
  assert (∀ x v, is_Some (cd_text x.1) →
    (editor_step placeholder x (TypedText v)).2 = replaced placeholder v ∧
    cd_text (editor_step placeholder x (TypedText v)).1 = Some (replaced placeholder v)) as Htyped.
  { intros [c h] v [t Hc]. cbn [fst] in Hc. cbn [editor_step fst]. unfold editor_changed. rewrite Hc.
    destruct (decide (replaced placeholder v = v)) as [E|Hne].
    - rewrite Hfix by (by rewrite E). by rewrite E.
    - exact (settled placeholder (CodeEditor (cd_loading c) (cd_error c) (Some v) (cd_mounted c)) v v 3 eq_refl Hne ltac:(lia)). }
  assert (cd_text x.1 = Some (replaced placeholder x.2)) as Hx.
  { unfold x. assert (cd_text x0.1 = Some (replaced placeholder x0.2)) as H0 by done. revert H0. generalize x0. clear x x0.
    induction events as [|e events IH]; intros x Hx; [done|]. cbn [foldl]. apply IH. destruct e as [v|v].
    - destruct (Htyped x v) as [-> ->]; [by rewrite Hx|]. by rewrite replaced_idem.
    - cbn [editor_step]. by eapply Hsettle. }
  split; [exact Hx|]. intros v. apply Htyped. by rewrite Hx.
Qed.

(** Clearing the editor stores its placeholder. *)
Example cleared_stores_placeholder :
  let x0 := (editor_loaded (EditorProps "x = 1" "result = _json" false) new_code_editor, "x = 1") in
  (editor_step "result = _json" x0 (TypedText "")).2 = "result = _json".
Proof. done. Qed.

(** The failure of loading is not shown: the component goes on loading. *)
Lemma failure_hidden message : editor_shows (editor_failed message new_code_editor) = Loading.
Proof. done. Qed.

(** ** Examples *)

Lemma model_completion_exact_witness :
  (it_label <$> provideCompletionItems ODOO_MODELS_FALLBACK [] "x = env['res.p" 15 12) = ["res.partner"].
Proof.
  pose proof (model_completion_exact ODOO_MODELS_FALLBACK [] "x = " "" "" quote1 "res.p" "" 12
    ltac:(right; exists "x =", " "%char; done) eq_refl eq_refl eq_refl eq_refl) as H. cbv zeta in H.
  rewrite decide_False in H by (vm_compute; discriminate). exact (proj1 H).
Defined.

Lemma method_completion_exact_witness :
  (it_label <$> provideCompletionItems [] [] "env['res.partner'].search_" 27 20) = ["search_count"; "search_read"].
Proof.
  exact (proj1 (method_completion_exact [] [] "" "" "" quote1 "res.partner" quote1 "" "" "search_" ""
    (or_introl eq_refl) eq_refl eq_refl eq_refl ltac:(done) eq_refl eq_refl eq_refl eq_refl eq_refl ltac:(done))).
Defined.
